(* ===== verification/_CoqProject ===== *)
-Q . S2P
Prelude.v
Calendar.v
Policy.v
Enums.v
Models.v
Fixtures.v
Tenancy.v
Permissions.v
Sla.v
Outbox.v
Customers.v
Tickets.v
Lifecycle.v
TicketHistory.v
Work.v
Redaction.v
Contracts.v
JobScope.v
Jobs.v
Workers.v
Messages.v
Dispatch.v
AiTurns.v
TurnRules.v
TurnHistory.v
Desk.v
Plans.v
Tasks.v
Routing.v
RoutingService.v
DeskRules.v
DeskLoad.v
DeskHistory.v
DeskAssign.v
Iso.v
Catalog.v
Scenarios.v
Cases.v
Closure.v
ClosureRules.v
CaseHistory.v
Lite.v
