(* ===== verification/Prelude.v ===== *)
(** * Nexus OSR: verification library of the backend's durable core

    The program is the Python backend under [src/backend/app]: a help desk where
    customers write by web chat, mail or messenger, an AI answers, agents take over on
    tickets, and workers carry out what was queued.  The library models the parts that
    decide what is stored and what leaves the system; the functions of
    [src/backend/app/services] become Rocq functions of the same names.

    ** The parts and how they interact

    A request runs inside one database session ([unit_of_work.py]): it commits when it
    returns and is rolled back when it raises.  It checks the tenant ([Tenancy]) and the
    capabilities ([Permissions]) of its actor, changes a ticket ([Tickets]) along the
    state machine ([Enums]), keeps the clock of its service level ([Sla] over
    [Calendar]), and may queue a message to the customer ([Messages]).  The arrival of a
    chat message schedules a turn of the AI ([AiTurns]) through the durable queue
    ([Jobs]); workers ([Workers]) lease jobs, check the envelope that says for which
    tenant a job runs ([JobScope]) and settle them.  A reply of the AI carries a
    signature that its row is bound to ([Contracts]) and passes the policy for visible
    text ([Policy]); another worker sends queued messages to a provider ([Dispatch]).  When a
    person is needed a handoff is requested, its ticket's scenario gives it a routing plan
    ([Plans]) and operators a task ([Tasks]), and the routing brings it to an agent who is on
    duty, as a text within the agent's capacity or as a ringing call ([Routing],
    [RoutingService]); the assignment cancels what the AI has open.
    A ticket closes by its outcome: the catalog of scenarios ([Scenarios]) says what each kind of
    case demands, a case is assigned to a scenario whose contract it keeps, what was observed
    and done goes to two append-only ledgers ([Cases]), and the gate of the ticket service
    ([Closure]) lets a ticket close when ledgers, ticket and messages show the outcome; the
    receipt of a closing is invalidated by a reopening.  The lite interface ([Lite]) runs on top
    of the ticket service.  Operations tasks leave by an outbox of their own ([Outbox]).

    ** Files

    - [Prelude]: record update, time in microseconds, JSON values, exceptions ([exc]),
      the monad [M S A] of code that changes a state [S] and may raise, triples [hoare]
      and relations [preserves] over its runs, tables, and the automation ([nexus] hints,
      [preserve], [minv]).
    - [Calendar]: the business calendar of [sla_service.py], in double-precision seconds.
    - [Policy]: [customer_visible_policy.py] with the matching of its patterns.
    - [Enums]: [enums.py] and [state_machine.py].
    - [Models]: the rows of [models.py], [models_case_governance.py] and
      [models_sla_runtime.py] as records, [Db.t] the database of the ticket domain;
      [Fixtures]: a concrete deployment on which the witnesses run.
    - [Tenancy], [Permissions]: [tenant_authority.py] and [permissions.py].
    - [Sla]: [sla_service.py].
    - [Outbox]: [nexus_osr/operations_dispatch_outbox.py].
    - [Customers], [Tickets]: [utils/normalize.py] and [ticket_service_core.py];
      [Lifecycle] and [TicketHistory] hold their theorems.
    - [Work]: the tables of the workers; [Work.t] is [Db.t] with them.
    - [Redaction]: [speedaf/redactor.py] and the scrubbing of finished jobs.
    - [Contracts]: [ai_reply_contract.py].
    - [JobScope]: [background_job_scope.py] and the checks of
      [background_job_execution_scope.py]; [Jobs]: [background_jobs.py]; [Workers]:
      [background_job_transaction_boundary.py].
    - [Messages]: [outbound_semantics.py], [email_mailbox_identity.py],
      [processing_purpose_enforcement.py], the queue of [message_dispatch.py], the
      outbound part of [customer_visible_message_service.py], and the drafts and replies
      of [ticket_service_core.py]; [Dispatch]: the rest of [message_dispatch.py] and
      [outbound_dispatch_transaction_boundary.py].
    - [AiTurns]: [webchat_ai_turn_service.py] and the turns of
      [webchat_ai_orchestration_service.py]; [TurnRules] and [TurnHistory] hold their
      theorems.
    - [Desk]: the tables of the agent desk; [Desk.t] is [Work.t] with them.
    - [Plans]: [handoff_routing_authority.py]; [Tasks]: the creation of tasks in
      [operator_queue.py]; [Routing]: [agent_routing_primitives.py]; [RoutingService]:
      [agent_routing_service.py] with [handoff_assignment_contract.py].  A function that the
      service defines anew is defined over the functions it calls ([Router]), with an instance
      for each of the two files.
    - [DeskRules]: the constraints of the desk, kept by every function; [DeskLoad]: the load of
      agents and the loop that fills it; [DeskHistory], [DeskAssign]: their theorems.
    - [Iso]: instants as texts, printed and read; [Catalog]: the catalog file that the program
      ships, as data; [Scenarios]: [nexus_osr/business_scenarios.py].
    - [Cases]: [case_outcome_service.py] and [case_scenario_service.py]; [Case.t] is [Desk.t]
      with the two ledgers.
    - [Closure]: [ticket_closure_readiness.py], [notification_evidence_policy.py],
      [ticket_service.py] and [customer_recontact_service.py]; [ClosureRules] and [CaseHistory]
      hold their theorems.
    - [Lite]: the commands of [lite_service.py].

    ** How code becomes definitions

    A row is a record of its columns, a table a finite map by id, a session state a
    record of tables.  An ORM object is its id: attributes are read and assigned in the
    state, so that two variables for one object share it.  Code that changes rows is a
    function in [M]: it returns [(Ok v, s)] or [(Raise e, s)] with the state reached,
    guards and early returns in the order of the source.  A query without an order gives
    rows in the order of their ids.  The clock is a stream in the
    state: [clock k] is its reading after [k] readings ([ticks]).  Workers that share a database are an
    inductive step relation, one step for each transaction.

    What lies outside the source is a parameter: SHA-256, HMAC, [json.dumps] and [json.loads],
    the file of the catalog, the time zone database, the handlers of other components ([Handlers]), the adapters that
    call a provider ([Adapters]), the run of the model.  A theorem that relies on such
    code takes what it relies on as a class of laws, and its witness gives an instance.

    ** What the theorems show

    - Tickets: along any history of requests a ticket moves along the state machine, its
      stamps agree with its status and nothing is removed from its trail
      ([ticket_history_invariant]); which requests an actor may run
      ([ticket_requests_authorized]); what a change of status, an update, a creation, a
      reopening, an assignment does and leaves alone; a search for a customer stays
      within the tenant ([customer_resolution_isolated]).
    - Jobs: a job is leased by one worker at a time ([job_lease_exclusive]), the result
      of a worker that lost its lease is refused ([job_result_fenced]), a job settles
      after its attempts ([job_settles]), the oldest due jobs are claimed; a job runs
      only for the tenant its rows belong to ([job_scope_sound],
      [job_execution_isolated]).
    - AI turns: the snapshot of a conversation names its active turn, an open one in the
      state it shows ([ai_turns_invariant]); the model runs only for a turn that may still answer
      ([ai_reply_guarded]); a handoff cancels what is open ([handoff_cancels_turns]); a
      message joins the queued turn or gets one of its own ([turn_scheduling]).
    - Closure: a ticket that the service closes had its outcome at that moment, and leaves a
      receipt ([closing_needs_outcome]); the gate passes exactly when what the scenario demands
      is shown ([closure_gate_exact]); the ledgers are append-only and coherent along every
      history ([case_ledger_history]), so that a failure on record bars the closing for good
      ([failure_bars_closing]); the snapshot of a scenario reads back as the scenario
      ([scenario_snapshot_roundtrip]); a catalog that is accepted is coherent
      ([catalog_sound]).  [lite_never_opens_or_closes] and [second_reopening_conflicts] show
      where the lite interface and a repeated reopening end in errors.
    - Agent desk: along every history one open handoff for a conversation, one plan for a
      handoff, one ringing offer for a call, and rows that only live forward ([desk_history]);
      what an assignment requires and does ([handoff_assignment_effect]); filling the capacity
      of an agent ends within it ([capacity_fill_terminates]); a plan is bounded
      ([routing_plan_bounded]).  [closing_bypasses_plan] shows that a closure assigns around
      the plan.
    - Messages: a stored message is a draft, or a person wrote it, or a run of the model
      signed it ([outbox_authority]); a provider is called only for such a message that
      the policy lets through, and a bounded number of times ([provider_call_guarded],
      [outbox_attempts_bounded]); a restriction stops
      what is queued ([restriction_stops_messages]); a reply of the AI cannot be changed
      without breaking its signature ([reply_signature_binds], [contract_roundtrip]); the
      policy for visible text does what its patterns say ([customer_visible_policy_exact]).
      Two theorems show errors of the dispatch: [dispatch_outcome_lost] and
      [lapsed_lease_jams].
    - Service levels: well-formed rows along every operation, pauses that follow the
      status, due times by the calendar, breach flags ([Sla]); times survive the
      conversion between instants and business seconds ([calendar_roundtrip]).
    - Authority: the tenant of a ticket is that of what it refers to
      ([tenant_ticket_isolation]); terminal statuses have no way out and every other one has a
      route to [closed] ([ticket_state_machine]).
    - Operations outbox: typing of rows ([outbox_reachable_wf]), exclusive leases, the
      life of a row as a state machine, a bound on claims, agreement of the two branches
      of the claim.

    ** Bounds and fuel

    The loops over calendar days run on [horizon] days, the bound of the source's own
    [range]; running out of it ends the loop as it does there.  Patterns of [Policy] run on
    their structure and the length of the text.  Loops over rows are folds.
    The loop of [fill_agent_capacity] has fuel for the capacity of the agent and one more
    ([fill_fuel]); [capacity_fill_terminates] shows that it is never used up.  Python
    integers are unbounded ([Z]); seconds of the calendar are doubles, rounded by an
    explicit definition.  The width of columns ([String(n)]) and foreign keys are not
    checked by the model unless the code does so.

    ** Limits

    - [updated_at] is kept only where code reads it; the [onupdate] stamp of the ORM and
      its reading of the clock are left out.  A rollback gives back the readings of the
      clock.
    - A JSON text column is held as its value.  Text is ASCII where [str.lower], [strip]
      or a pattern acts on it.
    - A best-effort event is kept or lost by an argument ([delivered]).
    - A handler does not commit in the midst of its work; an adapter does not commit.
    - The order in which Python iterates over a set of ids is an argument ([set_order]).  The
      version of an operator task's source and the unique indexes of call legs are left out.
    - A new row takes the next id of its table at its flush; ids are not reused.
    - The listeners on tickets, which assign a scenario, run when the operation that flushes the
      ticket is done.  The replies of the lite interface are left out.

    ** Not modelled

    Pure I/O and frameworks: the routers of [api/], authentication and throttling, the
    object store, mail and messenger transports, the telephony and voice providers, the
    model servers, the static client.  Read models and reports: queues as shown to an
    operator, dashboards, metrics, evidence bundles.  Left out of
    the parts that are modelled: declining, releasing and forcing a handoff by hand
    ([webchat_handoff_service_core.py]), the forecast of waiting times
    ([agent_availability_service.py]), the projection and the transitions of operator tasks
    ([operator_queue.py]), the chat message written beside an outbound message
    ([create_customer_visible_message]), the reconciliation of AI turns
    ([webchat_ai_reconciler.py]), knowledge retrieval, the lifecycle of data
    ([data_lifecycle_service.py]) and governed tool execution
    ([nexus_osr/tool_execution_service_core.py]). *)

From Stdlib Require Export ZArith Lia Sorted.
From stdpp Require Export base gmap strings list fin_maps pretty option.

#[global] Set Warnings "-register-all,-postfix-notation-not-level-1".

#[global] Open Scope Z_scope.

(** ** Record update

    The source mutates attributes of shared rows ([row.field = value]); the
    model writes [r <| field := value |>].  A record type states its
    eta-expansion once ([Settable]); the setter of a projection is computed by
    abstracting that projection in it. *)

Declare Scope nexus_scope.
Delimit Scope nexus_scope with nexus.

Class Settable (R : Type) := eta_of : R → R.
Class Setter {R T : Type} (proj : R → T) := alter_field : (T → T) → R → R.
Arguments alter_field {R T} proj {_} f r.

Ltac derive_setter :=
  lazymatch goal with
  | |- @Setter ?R ?T ?proj =>
      let e := constr:(_ : Settable R) in
      let e := eval hnf in e in
      let e := eval pattern proj in e in
      lazymatch e with
      | ?g _ =>
          let s := eval cbv beta in
            (fun (f : T → T) (r : R) => g (fun x : R => f (proj x)) r) in
          exact s
      end
  end.

#[global] Hint Extern 0 (Setter _) => derive_setter : typeclass_instances.

Notation "r <| proj ::= f |>" := (alter_field proj f r)
  (at level 12, left associativity, proj at level 99, f at level 99) : nexus_scope.
Notation "r <| proj := v |>" := (alter_field proj (fun _ => v) r)
  (at level 12, left associativity, proj at level 99, v at level 99) : nexus_scope.

#[global] Open Scope nexus_scope.

(** ** Time

    Instants are microseconds since the Unix epoch, the resolution of
    Python's [datetime].  Columns of type [DateTime(timezone=True)] are always
    read back as aware values, on which [ensure_utc] is the identity. *)

Definition us_per_second : Z := 1000000.
Definition seconds (n : Z) : Z := n * us_per_second.
Definition minutes (n : Z) : Z := seconds (60 * n).
Definition hours (n : Z) : Z := minutes (60 * n).

(** ** JSON values as the source builds and stores them *)

(** A finite [float]: mantissa and exponent.  The modelled code only stores and
    passes floats on. *)
Definition float : Type := Z * Z.

Inductive json : Type :=
| JNull
| JBool (b : bool)
| JNum (z : Z)
| JFloat (x : float)
| JStr (s : string)
| JArr (l : list json)
| JObj (fields : list (string * json)).

#[export] Instance json_eq_dec : EqDecision json.
Proof.
  unfold EqDecision. fix go 1. intros x y.
  destruct x as [|b|z|f|s|l|l], y as [|b'|z'|f'|s'|l'|l']; try (right; discriminate).
  - by left.
  - destruct (decide (b = b')); [left|right]; congruence.
  - destruct (decide (z = z')); [left|right]; congruence.
  - destruct (decide (f = f')); [left|right]; congruence.
  - destruct (decide (s = s')); [left|right]; congruence.
  - assert (Decision (l = l')) as H; [|destruct H; [left|right]; congruence].
    revert l'. induction l as [|a t IH]; intros [|a' t']; try (by left); try (right; discriminate).
    destruct (go a a'), (IH t'); [left|right..]; congruence.
  - assert (Decision (l = l')) as H; [|destruct H; [left|right]; congruence].
    revert l'. induction l as [|[k a] t IH]; intros [|[k' a'] t']; try (by left); try (right; discriminate).
    destruct (decide (k = k')), (go a a'), (IH t'); [left|right..]; congruence.
Defined.

Fixpoint assoc_get {A} (k : string) (l : list (string * A)) : option A :=
  match l with
  | [] => None
  | (k', v) :: l' => if decide (k = k') then Some v else assoc_get k l'
  end.

(** Python's truth value of a decoded JSON value *)
Definition truthy (j : json) : bool :=
  match j with
  | JNull => false
  | JBool b => b
  | JNum z => negb (z =? 0)
  | JFloat (m, _) => negb (m =? 0)
  | JStr s => negb (bool_decide (s = EmptyString))
  | JArr l => match l with [] => false | _ => true end
  | JObj l => match l with [] => false | _ => true end
  end.

(** [a or b] *)
Definition json_or (a b : json) : json := if truthy a then a else b.

(** [d.get(k)] on a dict *)
Definition json_get (k : string) (j : json) : json :=
  match j with JObj l => default JNull (assoc_get k l) | _ => JNull end.

Definition json_of_option {A} (f : A → json) (o : option A) : json :=
  match o with Some a => f a | None => JNull end.

(** ** Exceptions and the state-error monad

    An operation of the source runs against one SQLAlchemy session: it changes
    rows and may raise.  A raise does not undo the changes already made to the
    session (the caller rolls back, or catches and goes on), so the state is
    threaded on the error path as well. *)

Inductive exc : Type :=
| HTTPException (status : Z) (detail : string)
| HTTPExceptionCode (status : Z) (error_code message : string)
| SLAConfigurationError (code : string)
| ValueError (code : string)
| TypeError (code : string)
| LookupError (code : string)
| RuntimeError (code : string)
| OverflowError (code : string)
| BackgroundJobExecutionScopeError (code : string)
| DataProcessingRestricted (purpose : string) (restriction_id : Z)
| IntegrityError (constraint_name : string)
| OperatorQueueError (status : Z) (code : string)
| AttributeError (name : string)
| PendingRollbackError.

#[export] Instance exc_eq_dec : EqDecision exc.
Proof. solve_decision. Defined.

(** [type(exc).__name__] *)
Definition exc_name (e : exc) : string :=
  match e with
  | HTTPException _ _ | HTTPExceptionCode _ _ _ => "HTTPException"
  | SLAConfigurationError _ => "SLAConfigurationError" | ValueError _ => "ValueError"
  | TypeError _ => "TypeError" | LookupError _ => "KeyError" | RuntimeError _ => "RuntimeError"
  | OverflowError _ => "OverflowError"
  | BackgroundJobExecutionScopeError _ => "BackgroundJobExecutionScopeError"
  | DataProcessingRestricted _ _ => "DataProcessingRestricted"
  | AttributeError _ => "AttributeError"
  | IntegrityError _ => "IntegrityError" | OperatorQueueError _ _ => "OperatorQueueError"
  | PendingRollbackError => "PendingRollbackError"
  end.

Inductive result (A : Type) : Type :=
| Ok (a : A)
| Err (e : exc).
Arguments Ok {A} a.
Arguments Err {A} e.

#[export] Instance result_eq_dec {A} `{EqDecision A} : EqDecision (result A).
Proof. solve_decision. Defined.

Definition is_ok {A} (r : result A) : bool :=
  match r with Ok _ => true | Err _ => false end.

#[export] Instance result_ret : MRet result := fun _ a => Ok a.
#[export] Instance result_bind : MBind result := fun _ _ k r =>
  match r with Ok a => k a | Err e => Err e end.

Lemma result_bind_Ok {A B} (r : result A) (k : A → result B) b :
  r ≫= k = Ok b → ∃ a, r = Ok a ∧ k a = Ok b.
Proof. destruct r; [eauto | discriminate]. Qed.

Lemma result_bind_Ok_iff {A B} (r : result A) (k : A → result B) b :
  r ≫= k = Ok b ↔ ∃ a, r = Ok a ∧ k a = Ok b.
Proof. split; [apply result_bind_Ok | by intros (a & -> & ?)]. Qed.

(** A check, then the rest *)
Lemma result_seq_Ok {B} (r : result unit) (k : result B) b :
  (r;; k) = Ok b ↔ r = Ok tt ∧ k = Ok b.
Proof.
  rewrite result_bind_Ok_iff. split; [by intros ([] & ? & ?) | intros [? ?]; by exists tt].
Qed.

(** Run [f] over a list from the left, stop at the first error. *)
Fixpoint result_mapM {A B} (f : A → result B) (l : list A) : result (list B) :=
  match l with
  | [] => Ok []
  | a :: l' => b ← f a; bs ← result_mapM f l'; Ok (b :: bs)
  end.

Definition M (S A : Type) : Type := S → result A * S.

#[export] Instance M_ret S : MRet (M S) := fun _ a s => (Ok a, s).
#[export] Instance M_bind S : MBind (M S) := fun _ _ k m s =>
  match m s with
  | (Ok a, s') => k a s'
  | (Err e, s') => (Err e, s')
  end.

Definition get {S} : M S S := fun s => (Ok s, s).
Definition gets {S A} (f : S → A) : M S A := fun s => (Ok (f s), s).
Definition modify {S} (f : S → S) : M S unit := fun s => (Ok tt, f s).
Definition raise {S A} (e : exc) : M S A := fun s => (Err e, s).
Definition lift {S A} (r : result A) : M S A := fun s => (r, s).
(** [if not b: raise e] *)
Definition require {S} (b : bool) (e : exc) : M S unit :=
  if b then mret tt else raise e.
(** [try: m except: h], the handler sees the state the body left *)
Definition try_catch {S A} (m : M S A) (h : exc → M S A) : M S A := fun s =>
  match m s with
  | (Ok a, s') => (Ok a, s')
  | (Err e, s') => h e s'
  end.
(** [if b: m] *)
Definition when {S} (b : bool) (m : M S unit) : M S unit :=
  if b then m else mret tt.

Fixpoint iterM {S A} (f : A → M S unit) (l : list A) : M S unit :=
  match l with
  | [] => mret tt
  | a :: l' => f a;; iterM f l'
  end.

(** *** Inversion of successful runs *)

Section MonadFacts.
Context {S A B : Type}.

Lemma bind_Ok_inv (m : M S A) (k : A → M S B) s b s' :
  (m ≫= k) s = (Ok b, s') → ∃ a s1, m s = (Ok a, s1) ∧ k a s1 = (Ok b, s').
Proof.
  unfold mbind, M_bind. destruct (m s) as [[a|e] s1]; [eauto | discriminate].
Qed.

Lemma bind_run_Ok (m : M S A) (k : A → M S B) s a s1 :
  m s = (Ok a, s1) → (m ≫= k) s = k a s1.
Proof. intros H. unfold mbind, M_bind. by rewrite H. Qed.

Lemma bind_run_Err (m : M S A) (k : A → M S B) s e s1 :
  m s = (Err e, s1) → (m ≫= k) s = (Err e, s1).
Proof. intros H. unfold mbind, M_bind. by rewrite H. Qed.

Lemma require_Ok_inv b e (s s' : S) u :
  require b e s = (Ok u, s') → b = true ∧ s' = s.
Proof. destruct b; cbv; intros [=]; auto. Qed.
End MonadFacts.

(** *** Invariants of programs

    [preserves P m]: from a state with [P], [m] ends in a state with [P],
    whether it returns or raises. *)

Definition preserves {S A} (P : S → Prop) (m : M S A) : Prop :=
  ∀ s, P s → P (snd (m s)).

Section Preserves.
Context {S : Type} (P : S → Prop).

Lemma preserves_ret {A} (a : A) : preserves P (mret a).
Proof. by intros s. Qed.

Lemma preserves_raise {A} e : preserves P (@raise S A e).
Proof. by intros s. Qed.

Lemma preserves_lift {A} (r : result A) : preserves P (lift r).
Proof. by intros s. Qed.

Lemma preserves_gets {A} (f : S → A) : preserves P (gets f).
Proof. by intros s. Qed.

Lemma preserves_get : preserves P get.
Proof. by intros s. Qed.

Lemma preserves_require b e : preserves P (require b e).
Proof. by destruct b; intros s. Qed.

Lemma preserves_modify f : (∀ s, P s → P (f s)) → preserves P (modify f).
Proof. by intros H s Hs; apply H. Qed.

Lemma preserves_bind {A B} (m : M S A) (k : A → M S B) :
  preserves P m → (∀ a, preserves P (k a)) → preserves P (m ≫= k).
Proof.
  intros Hm Hk s Hs. unfold mbind, M_bind. specialize (Hm s Hs).
  destruct (m s) as [[a|e] s1]; simpl in *; [by apply Hk | done].
Qed.

Lemma preserves_try {A} (m : M S A) h :
  preserves P m → (∀ e, preserves P (h e)) → preserves P (try_catch m h).
Proof.
  intros Hm Hh s Hs. unfold try_catch. specialize (Hm s Hs).
  destruct (m s) as [[a|e] s1]; simpl in *; [done | by apply Hh].
Qed.

Lemma preserves_when b m : preserves P m → preserves P (when b m).
Proof. destruct b; [done | intros _; apply preserves_ret]. Qed.

Lemma preserves_iterM {A} (f : A → M S unit) l :
  (∀ a, preserves P (f a)) → preserves P (iterM f l).
Proof.
  intros Hf. induction l as [|a l IH]; simpl; [apply preserves_ret |].
  apply preserves_bind; auto.
Qed.
End Preserves.

Create HintDb nexus.
#[export] Hint Resolve preserves_ret preserves_raise preserves_lift preserves_gets
  preserves_get preserves_require preserves_when preserves_iterM : nexus.

(** Decompose a [preserves] goal along the program; [nexus] closes the leaves. *)
Ltac preserve_step :=
  lazymatch goal with
  | |- preserves _ (mbind _ _) => apply preserves_bind; [| intros ?]
  | |- preserves _ (try_catch _ _) => apply preserves_try; [| intros ?]
  | |- preserves _ (when _ _) => apply preserves_when
  | |- preserves _ (iterM _ _) => apply preserves_iterM; intros ?
  | |- preserves _ (match ?x with _ => _ end) => destruct x
  | |- preserves _ ((match ?x with _ => _ end) _) => destruct x
  | |- preserves _ _ => first [ solve [auto with nexus] | progress cbv zeta ]
  end.
Ltac preserve := repeat preserve_step.

(** Decompose a successful run found in hypothesis [H]. *)
Ltac minv H :=
  cbv beta zeta in H;
  lazymatch type of H with
  | (mbind _ _) _ = (Ok _, _) =>
      let a := fresh "a" in let s := fresh "s" in
      let H1 := fresh "Hm" in
      apply bind_Ok_inv in H as (a & s & H1 & H); minv H1; minv H
  | require _ _ _ = (Ok _, _) =>
      let Hb := fresh "Hreq" in
      apply require_Ok_inv in H as [Hb ->]
  | gets _ _ = (Ok _, _) => unfold gets in H; injection H as ? ?; subst
  | get _ = (Ok _, _) => unfold get in H; injection H as ? ?; subst
  | modify _ _ = (Ok _, _) => unfold modify in H; injection H as ? ?; subst
  | mret _ _ = (Ok _, _) => unfold mret, M_ret in H; injection H as ? ?; subst
  | raise _ _ = (Ok _, _) => discriminate H
  | _ => idtac
  end.

(** *** Triples

    [hoare P m Q E]: from [P], the program returns [a] in a state with [Q a], or
    raises [e] in a state with [E e]. *)

Definition hoare {S A} (P : S → Prop) (m : M S A) (Q : A → S → Prop) (E : exc → S → Prop) : Prop :=
  ∀ s, P s → match m s with (Ok a, s') => Q a s' | (Err e, s') => E e s' end.

Section Hoare.
Context {S : Type}.
Implicit Types (P : S → Prop) (E : exc → S → Prop).

Lemma hoare_ret {A} P (a : A) Q E : (∀ s, P s → Q a s) → hoare P (mret a) Q E.
Proof. intros H s Hs. by apply H. Qed.

Lemma hoare_raise {A} P e (Q : A → S → Prop) E : (∀ s, P s → E e s) → hoare P (raise e) Q E.
Proof. intros H s Hs. by apply H. Qed.

Lemma hoare_lift {A} P (r : result A) (Q : A → S → Prop) E :
  (∀ a s, r = Ok a → P s → Q a s) → (∀ e s, r = Err e → P s → E e s) → hoare P (lift r) Q E.
Proof. intros H1 H2 s Hs. unfold lift. destruct r; eauto. Qed.

Lemma hoare_gets {A} P (f : S → A) Q E : (∀ s, P s → Q (f s) s) → hoare P (gets f) Q E.
Proof. intros H s Hs. by apply H. Qed.

Lemma hoare_modify P f (Q : unit → S → Prop) E : (∀ s, P s → Q tt (f s)) → hoare P (modify f) Q E.
Proof. intros H s Hs. by apply H. Qed.

Lemma hoare_bind {A B} P (m : M S A) (k : A → M S B) R Q E :
  hoare P m R E → (∀ a, hoare (R a) (k a) Q E) → hoare P (m ≫= k) Q E.
Proof.
  intros Hm Hk s Hs. unfold mbind, M_bind. specialize (Hm s Hs).
  destruct (m s) as [[a|e] s1]; [by apply Hk | done].
Qed.

Lemma hoare_try {A} P (m : M S A) h Q E E' :
  hoare P m Q E' → (∀ e, hoare (E' e) (h e) Q E) → hoare P (try_catch m h) Q E.
Proof.
  intros Hm Hh s Hs. unfold try_catch. specialize (Hm s Hs).
  destruct (m s) as [[a|e] s1]; [done | by apply Hh].
Qed.

Lemma hoare_conseq {A} P P' (m : M S A) Q Q' E E' :
  (∀ s, P s → P' s) → (∀ a s, Q' a s → Q a s) → (∀ e s, E' e s → E e s) →
  hoare P' m Q' E' → hoare P m Q E.
Proof.
  intros HP HQ HE H s Hs. specialize (H s (HP s Hs)). destruct (m s) as [[a|e] s1]; eauto.
Qed.

Lemma hoare_pure {A} (φ : Prop) P (m : M S A) Q E :
  (φ → hoare P m Q E) → hoare (fun s => φ ∧ P s) m Q E.
Proof. intros H s [Hφ Hs]. by apply H. Qed.

Lemma hoare_keep {A} P (m : M S A) : preserves P m → hoare P m (fun _ => P) (fun _ => P).
Proof. intros H s Hs. specialize (H s Hs). by destruct (m s) as [[a|e] s1]. Qed.

Lemma hoare_preserves {A} P (m : M S A) : preserves P m ↔ hoare P m (fun _ => P) (fun _ => P).
Proof.
  split; intros H s Hs; specialize (H s Hs); destruct (m s) as [[a|e] s1]; done.
Qed.
End Hoare.

(** ** Decisions on closed terms

    Evaluate the comparisons of constructors that case analysis exposes. *)

Ltac reduce_in t :=
  match t with
  | context [bool_decide ?P] =>
      let v := eval vm_compute in (bool_decide P) in
      lazymatch v with
      | true => constr:((bool_decide P, true))
      | false => constr:((bool_decide P, false))
      end
  end.

Ltac reduce_decide :=
  repeat match goal with
  | |- ?G => let p := reduce_in G in
      lazymatch p with (?x, ?v) => change x with v end
  | H : ?G |- _ => let p := reduce_in G in
      lazymatch p with (?x, ?v) => change x with v in H end
  end; cbn in *.

(** Case analysis on the conditionals of the goal. *)
Ltac case_ifs := repeat match goal with |- context [if ?b then _ else _] => destruct b end.

(** ** Lists of rows in the order of an [ORDER BY] clause

    [sort_by leb] is a stable insertion sort; with a total order whose ties are
    broken by the primary key there is only one sorted list of the rows. *)

Section SortBy.
Context {A : Type} (leb : A → A → bool).

Fixpoint insert_by (a : A) (l : list A) : list A :=
  match l with
  | [] => [a]
  | b :: l' => if leb a b then a :: b :: l' else b :: insert_by a l'
  end.

Fixpoint sort_by (l : list A) : list A :=
  match l with
  | [] => []
  | a :: l' => insert_by a (sort_by l')
  end.

Lemma insert_by_Permutation a l : insert_by a l ≡ₚ a :: l.
Proof.
  induction l as [|b l IH]; simpl; [done |].
  destruct (leb a b); [done |]. rewrite IH. by constructor.
Qed.

Lemma sort_by_Permutation l : sort_by l ≡ₚ l.
Proof.
  induction l as [|a l IH]; simpl; [done |].
  by rewrite insert_by_Permutation, IH.
Qed.

Lemma elem_of_sort_by a l : a ∈ sort_by l ↔ a ∈ l.
Proof. by rewrite sort_by_Permutation. Qed.

Lemma length_sort_by l : length (sort_by l) = length l.
Proof. by rewrite sort_by_Permutation. Qed.

Context (leb_total : ∀ a b, leb a b = true ∨ leb b a = true).
Context (leb_trans : ∀ a b c, leb a b = true → leb b c = true → leb a c = true).

Definition le_by (a b : A) : Prop := leb a b = true.

Lemma insert_by_sorted a l :
  StronglySorted le_by l → StronglySorted le_by (insert_by a l).
Proof using leb_total leb_trans.
  induction 1 as [|b l Hl IH Hb]; simpl; [by repeat constructor |].
  destruct (leb a b) eqn:E.
  - constructor; [by constructor |]. constructor; [done |].
    eapply Forall_impl; [| exact Hb]. intros c ?. by eapply leb_trans.
  - constructor; [done |]. rewrite insert_by_Permutation. constructor; [|done].
    by destruct (leb_total a b); [congruence |].
Qed.

Lemma sort_by_sorted l : StronglySorted le_by (sort_by l).
Proof using leb_total leb_trans.
  induction l; simpl; [constructor | by apply insert_by_sorted].
Qed.

(** The first row of the result is minimal. *)
Lemma sort_by_head_min l a l' :
  sort_by l = a :: l' → a ∈ l ∧ ∀ b, b ∈ l → le_by a b.
Proof using leb_total leb_trans.
  intros H. split; [apply elem_of_sort_by; rewrite H; set_solver |].
  intros b Hb. apply elem_of_sort_by in Hb. pose proof (sort_by_sorted l) as Hs.
  rewrite H in Hb, Hs. apply elem_of_cons in Hb as [-> | Hb].
  - unfold le_by. by destruct (leb_total a a).
  - apply StronglySorted_inv in Hs as [_ Hall]. rewrite Forall_forall in Hall.
    apply Hall, list_elem_of_In, Hb.
Qed.

(** With an antisymmetric order the result depends on the elements only. *)
Lemma sorted_unique (Hanti : ∀ a b, leb a b = true → leb b a = true → a = b) l1 l2 :
  StronglySorted le_by l1 → StronglySorted le_by l2 → l1 ≡ₚ l2 → l1 = l2.
Proof using Type.
  revert l2. induction l1 as [|a l1 IH]; intros l2 H1 H2 Hp.
  { by apply Permutation_nil in Hp. }
  destruct l2 as [|b l2]; [by apply Permutation_sym, Permutation_nil in Hp|].
  apply StronglySorted_inv in H1 as [H1 Ha], H2 as [H2 Hb].
  assert (a = b) as ->.
  { assert (a ∈ b :: l2) as Hin by (rewrite <- Hp; left).
    assert (b ∈ a :: l1) as Hin' by (rewrite Hp; left).
    apply elem_of_cons in Hin as [->|Hin]; [done|]. apply elem_of_cons in Hin' as [->|Hin']; [done|].
    rewrite Forall_forall in Ha, Hb. apply Hanti; [apply Ha | apply Hb]; by apply list_elem_of_In. }
  f_equal. apply IH; [done|done|]. by apply Permutation_cons_inv in Hp.
Qed.

Lemma sort_by_perm (Hanti : ∀ a b, leb a b = true → leb b a = true → a = b) l1 l2 :
  l1 ≡ₚ l2 → sort_by l1 = sort_by l2.
Proof using leb_total leb_trans.
  intros Hp. apply (sorted_unique Hanti); [apply sort_by_sorted.. |].
  by rewrite !sort_by_Permutation.
Qed.

Lemma sort_by_nil l : sort_by l = [] ↔ l = [].
Proof.
  split; [|by intros ->]. intros H. apply nil_length_inv.
  by rewrite <- length_sort_by, H.
Qed.
End SortBy.

Lemma singleton_list {A} (a : A) l : NoDup l → a ∈ l → (∀ b, b ∈ l → b = a) → l = [a].
Proof.
  intros Hn Ha Hall. destruct l as [|x [|y l]].
  - by apply elem_of_nil in Ha.
  - by rewrite (Hall x ltac:(left)).
  - pose proof (Hall x ltac:(left)) as Hx. pose proof (Hall y ltac:(right; left)) as Hy.
    subst x y. apply list.NoDup_cons in Hn as [Hn _]. destruct Hn. left.
Qed.

(** ** Tables

    A table of rows keyed by an integer primary key that a sequence supplies. *)

Record Table (R : Type) := { trows : gmap Z R; tnext : Z }.
Arguments trows {R} _.
Arguments tnext {R} _.

Section Table.
Context {R : Type}.
Implicit Types (T : Table R) (p : R → bool).

Definition empty_table : Table R := {| trows := ∅; tnext := 1 |}.
Definition table_get T (i : Z) : option R := trows T !! i.
(** The flush of a new row *)
Definition table_add T (mk : Z → R) : Table R :=
  {| trows := <[tnext T := mk (tnext T)]> (trows T); tnext := Z.succ (tnext T) |}.
(** The flush of a changed row *)
Definition table_put (i : Z) (r : R) T : Table R :=
  {| trows := <[i := r]> (trows T); tnext := tnext T |}.
(** [query.filter(p).all()], in the order of the primary key *)
Definition select p T : list R :=
  snd <$> sort_by (fun a b : Z * R => fst a <=? fst b) (filter (fun x => p (snd x) = true)
             (map_to_list (trows T))).
(** [query.filter(p).first()] *)
Definition select_first p T : option R := head (select p T).

(** Keys come from the sequence. *)
Definition table_wf T : Prop := ∀ i r, trows T !! i = Some r → i < tnext T.

Lemma elem_of_select p T r :
  r ∈ select p T ↔ ∃ i, trows T !! i = Some r ∧ p r = true.
Proof.
  unfold select. rewrite list_elem_of_fmap. split.
  - intros ([i x] & -> & H). rewrite elem_of_sort_by, list_elem_of_filter in H.
    destruct H as [Hp Hx]. apply elem_of_map_to_list in Hx. by exists i.
  - intros (i & Hi & Hp). exists (i, r). split; [done|].
    rewrite elem_of_sort_by, list_elem_of_filter. split; [done|].
    by apply elem_of_map_to_list.
Qed.

Lemma select_first_Some p T r :
  select_first p T = Some r → ∃ i, trows T !! i = Some r ∧ p r = true.
Proof.
  unfold select_first. intros H. apply elem_of_select.
  destruct (select p T) as [|x l]; [done|]. injection H as ->. by left.
Qed.

Lemma select_first_None p T :
  select_first p T = None ↔ ∀ i r, trows T !! i = Some r → p r = false.
Proof.
  unfold select_first. split.
  - intros H i r Hi. destruct (select p T) as [|x l] eqn:E; [|done].
    destruct (p r) eqn:Hp; [|done].
    assert (r ∈ select p T) as Hr by (apply elem_of_select; eauto).
    rewrite E in Hr. by apply elem_of_nil in Hr.
  - intros H. destruct (select p T) as [|x l] eqn:E; [done|].
    assert (x ∈ select p T) as Hx by (rewrite E; left).
    apply elem_of_select in Hx as (i & Hi & Hp). rewrite (H i x Hi) in Hp. done.
Qed.

(** A filter that at most one row satisfies selects that row. *)
Lemma select_first_unique p T i r :
  trows T !! i = Some r → p r = true →
  (∀ j r', trows T !! j = Some r' → p r' = true → r' = r) →
  select_first p T = Some r.
Proof.
  intros Hi Hp Hu. destruct (select_first p T) as [x|] eqn:E.
  - apply select_first_Some in E as (j & Hj & Hx). by rewrite (Hu j x Hj Hx).
  - rewrite select_first_None in E. rewrite (E i r Hi) in Hp. done.
Qed.

(** The only row that satisfies a filter is the whole result. *)
Lemma select_unique p T i r :
  trows T !! i = Some r → p r = true →
  (∀ j r', trows T !! j = Some r' → p r' = true → j = i) → select p T = [r].
Proof.
  intros Hi Hp Hu. unfold select.
  assert (filter (fun x => p (snd x) = true) (map_to_list (trows T)) = [(i, r)]) as ->; [|done].
  apply singleton_list.
  - apply list.NoDup_filter, NoDup_map_to_list.
  - by rewrite list_elem_of_filter, elem_of_map_to_list.
  - intros [j x]. rewrite list_elem_of_filter, elem_of_map_to_list. simpl. intros [Hx Hj].
    pose proof (Hu j x Hj Hx). subst j. congruence.
Qed.

(** With the key in a column, the rows of a result are distinct. *)
Lemma select_NoDup (key : R → Z) p T :
  (∀ i r, trows T !! i = Some r → key r = i) → NoDup (key <$> select p T).
Proof.
  intros Hk. unfold select. set (l := sort_by _ _).
  assert (NoDup (fst <$> l)) as Hn.
  { unfold l. rewrite sort_by_Permutation. eapply sublist_NoDup; [apply (NoDup_fst_map_to_list (trows T))|].
    apply fmap_sublist, sublist_filter. }
  assert (key <$> (snd <$> l) = fst <$> l) as ->; [|done].
  rewrite <- list_fmap_compose. apply list_fmap_ext. intros n [i r] Hl. simpl. apply Hk.
  apply list_elem_of_lookup_2 in Hl. unfold l in Hl.
  rewrite elem_of_sort_by, list_elem_of_filter, elem_of_map_to_list in Hl. apply Hl.
Qed.

Lemma select_ext p q T : (∀ r, p r = q r) → select p T = select q T.
Proof.
  intros H. unfold select. do 2 f_equal. apply list_filter_iff. intros x. by rewrite H.
Qed.

Lemma select_nil p T : select p T = [] ↔ ∀ i r, trows T !! i = Some r → p r = false.
Proof.
  rewrite <- select_first_None. unfold select_first. by destruct (select p T).
Qed.

Lemma length_select p T :
  length (select p T) = size (filter (fun x : Z * R => p (snd x) = true) (trows T)).
Proof.
  unfold select. rewrite length_fmap, length_sort_by, map_filter_alt, <- length_map_to_list.
  rewrite map_to_list_to_map; [done|].
  eapply sublist_NoDup; [apply (NoDup_fst_map_to_list (trows T))|]. apply fmap_sublist, sublist_filter.
Qed.

(** How the replacement of a row changes the size of a result *)
Lemma length_select_put p T i r r' : trows T !! i = Some r →
  (length (select p (table_put i r' T)) + Nat.b2n (p r) = length (select p T) + Nat.b2n (p r'))%nat.
Proof.
  intros Hi. rewrite !length_select. unfold table_put. cbn [trows].
  set (P := fun x : Z * R => p (snd x) = true).
  assert (size (filter P (trows T)) = size (filter P (delete i (trows T))) + Nat.b2n (p r))%nat as ->.
  { rewrite <- (insert_delete_id (trows T) i r Hi) at 1. rewrite map_filter_insert.
    unfold P at 1. cbn [snd]. rewrite delete_delete_eq. case_decide as E; rewrite ?E.
    - rewrite map_size_insert_None; [cbn; lia|]. rewrite map_lookup_filter, lookup_delete_eq. done.
    - apply not_true_is_false in E. rewrite E. cbn. lia. }
  rewrite map_filter_insert. unfold P at 1. cbn [snd]. case_decide as E; rewrite ?E.
  - rewrite <- insert_delete_eq, map_size_insert_None, map_filter_delete; [cbn; lia|].
    apply lookup_delete_eq.
  - apply not_true_is_false in E. rewrite E. cbn. lia.
Qed.

Lemma lookup_table_add T mk i :
  trows (table_add T mk) !! i = if decide (tnext T = i) then Some (mk (tnext T)) else trows T !! i.
Proof. unfold table_add. cbn [trows]. by rewrite lookup_insert. Qed.

Lemma lookup_table_put i r T j :
  trows (table_put i r T) !! j = if decide (i = j) then Some r else trows T !! j.
Proof. unfold table_put. cbn [trows]. by rewrite lookup_insert. Qed.

Lemma table_wf_add T mk : table_wf T → table_wf (table_add T mk).
Proof.
  intros H i r. rewrite lookup_table_add. cbn [tnext table_add].
  case_decide as E; [lia|]. intros Hi. apply H in Hi. lia.
Qed.

Lemma table_wf_put i r T : table_wf T → is_Some (trows T !! i) → table_wf (table_put i r T).
Proof.
  intros H [x Hx] j r'. rewrite lookup_table_put. cbn [tnext table_put].
  case_decide as E; [subst; intros _; by eapply H | apply H].
Qed.

Lemma table_fresh T : table_wf T → trows T !! tnext T = None.
Proof. intros H. apply eq_None_not_Some. intros [r Hr]. apply H in Hr. lia. Qed.

Lemma table_wf_empty : table_wf empty_table.
Proof. intros i r. cbn. by rewrite lookup_empty. Qed.
End Table.

#[global] Arguments table_add : simpl never.
#[global] Arguments table_put : simpl never.
#[global] Arguments select : simpl never.
#[global] Arguments select_first : simpl never.
#[export] Hint Resolve table_wf_add table_wf_empty : nexus.

(** ** Strings *)

Fixpoint string_forallb (p : Ascii.ascii → bool) (s : string) : bool :=
  match s with
  | EmptyString => true
  | String c s' => p c && string_forallb p s'
  end.

Fixpoint string_map (f : Ascii.ascii → Ascii.ascii) (s : string) : string :=
  match s with
  | EmptyString => EmptyString
  | String c s' => String (f c) (string_map f s')
  end.

Definition code (c : Ascii.ascii) : Z := Z.of_N (Ascii.N_of_ascii c).
Definition between (lo hi : Z) (c : Ascii.ascii) : bool := (lo <=? code c) && (code c <=? hi).
Definition is_digit : Ascii.ascii → bool := between 48 57.
Definition is_upper : Ascii.ascii → bool := between 65 90.
Definition is_lower : Ascii.ascii → bool := between 97 122.
Definition is_alnum (c : Ascii.ascii) : bool := is_digit c || is_upper c || is_lower c.
(** ASCII part of [str.isspace] *)
Definition is_space (c : Ascii.ascii) : bool := between 9 13 c || between 28 32 c.

Definition upper_char (c : Ascii.ascii) : Ascii.ascii :=
  if is_lower c then Ascii.ascii_of_N (Ascii.N_of_ascii c - 32) else c.
Definition lower_char (c : Ascii.ascii) : Ascii.ascii :=
  if is_upper c then Ascii.ascii_of_N (Ascii.N_of_ascii c + 32) else c.
Definition py_upper : string → string := string_map upper_char.
Definition py_lower : string → string := string_map lower_char.

Fixpoint lstrip (s : string) : string :=
  match s with
  | String c s' => if is_space c then lstrip s' else s
  | EmptyString => EmptyString
  end.

Fixpoint rstrip (s : string) : string :=
  match s with
  | EmptyString => EmptyString
  | String c s' =>
      match rstrip s' with
      | EmptyString => if is_space c then EmptyString else String c EmptyString
      | r => String c r
      end
  end.
(** [str.strip()] *)
Definition py_strip (s : string) : string := rstrip (lstrip s).

(** [s.split()]: the maximal runs without white space *)
Fixpoint split_words (word s : string) : list string :=
  match s with
  | EmptyString => match word with EmptyString => [] | _ => [word] end
  | String c s' =>
      if is_space c then
        match word with EmptyString => [] | _ => [word] end ++ split_words EmptyString s'
      else split_words (word +:+ String c EmptyString) s'
  end.
(** [" ".join(s.split())] *)
Definition squeeze (s : string) : string := String.concat " " (split_words EmptyString s).

(** [s[:n]] *)
Fixpoint str_take (n : nat) (s : string) : string :=
  match n, s with
  | S n', String c s' => String c (str_take n' s')
  | _, _ => EmptyString
  end.

Lemma py_strip_id s :
  string_forallb (fun c => negb (is_space c)) s = true → py_strip s = s.
Proof.
  unfold py_strip. intros H.
  assert (lstrip s = s) as ->.
  { destruct s as [|c s]; [done|]. simpl in *. by destruct (is_space c). }
  induction s as [|c s IH]; [done|]. simpl in *. apply andb_true_iff in H as [Hc Hs].
  rewrite IH by done. destruct s; [by destruct (is_space c)|done].
Qed.

Lemma rstrip_idem s : rstrip (rstrip s) = rstrip s.
Proof.
  induction s as [|c s IH]; [done|]. cbn. destruct (rstrip s) as [|d r] eqn:E.
  - destruct (is_space c) eqn:Ec; cbn; [done | by rewrite Ec].
  - change (rstrip (String c (String d r))) with
      (match rstrip (String d r) with EmptyString => if is_space c then EmptyString
         else String c EmptyString | r' => String c r' end). by rewrite IH.
Qed.

Lemma lstrip_head s : lstrip s = EmptyString ∨ ∃ c r, lstrip s = String c r ∧ is_space c = false.
Proof. induction s as [|c s IH]; [by left|]. cbn. destruct (is_space c) eqn:E; [done|eauto]. Qed.

Lemma rstrip_head c s : is_space c = false → ∃ r, rstrip (String c s) = String c r.
Proof. intros Hc. cbn. destruct (rstrip s); [rewrite Hc; eauto | eauto]. Qed.

Lemma py_strip_idem s : py_strip (py_strip s) = py_strip s.
Proof.
  unfold py_strip. destruct (lstrip_head s) as [-> | (c & r & -> & Hc)]; [done|].
  destruct (rstrip_head c r Hc) as [r' E]. rewrite E. cbn [lstrip]. rewrite Hc, <- E.
  apply rstrip_idem.
Qed.

Lemma lower_char_space c : is_space (lower_char c) = is_space c.
Proof. by destruct c as [[] [] [] [] [] [] [] []]. Qed.
Lemma lower_char_idem c : lower_char (lower_char c) = lower_char c.
Proof. by destruct c as [[] [] [] [] [] [] [] []]. Qed.

Lemma py_lower_idem s : py_lower (py_lower s) = py_lower s.
Proof.
  unfold py_lower. induction s as [|c s IH]; [done|]. cbn [string_map].
  by rewrite lower_char_idem, IH.
Qed.

Lemma lstrip_lower s : lstrip (py_lower s) = py_lower (lstrip s).
Proof. induction s as [|c s IH]; [done|]. cbn. rewrite lower_char_space. by destruct (is_space c). Qed.

Lemma rstrip_lower s : rstrip (py_lower s) = py_lower (rstrip s).
Proof.
  unfold py_lower. induction s as [|c s IH]; [done|]. cbn. rewrite IH. destruct (rstrip s); cbn.
  - rewrite lower_char_space. by destruct (is_space c).
  - done.
Qed.

Lemma py_strip_lower s : py_strip (py_lower s) = py_lower (py_strip s).
Proof. unfold py_strip. by rewrite lstrip_lower, rstrip_lower. Qed.

Definition str_len (s : string) : Z := Z.of_nat (String.length s).
Definition nonempty (s : string) : bool := negb (bool_decide (s = EmptyString)).
(** [a or b] on optional strings: [None] and the empty string are falsy *)
Definition str_or (a : option string) (b : string) : string :=
  match a with Some s => if nonempty s then s else b | None => b end.
Definition truthy_str (a : option string) : bool :=
  match a with Some s => nonempty s | None => false end.
(** truth of an optional integer id: [None] and [0] are falsy *)
Definition truthy_id (a : option Z) : bool :=
  match a with Some z => negb (z =? 0) | None => false end.

Lemma string_forallb_app p s1 s2 :
  string_forallb p (s1 +:+ s2) = string_forallb p s1 && string_forallb p s2.
Proof. induction s1 as [|c s1 IH]; simpl; [done |]. by rewrite IH, andb_assoc. Qed.

Lemma str_len_take n s : str_len (str_take n s) ≤ Z.of_nat n.
Proof.
  unfold str_len. revert s. induction n as [|n IH]; intros [|c s]; simpl; try lia.
  specialize (IH s). lia.
Qed.

(** [column IS NOT NULL] *)
Definition not_null {A} (o : option A) : bool := match o with Some _ => true | None => false end.

(** ** Exponential back-off shared by the retry queues

    [min(2 ** max(n - 1, 0), cap)] *)

Definition backoff (n cap : Z) : Z := Z.min (2 ^ Z.max (n - 1) 0) cap.

Lemma backoff_bounds n cap : 1 ≤ cap → 1 ≤ backoff n cap ≤ cap.
Proof.
  intros Hc. unfold backoff.
  assert (0 < 2 ^ Z.max (n - 1) 0) by (apply Z.pow_pos_nonneg; lia). lia.
Qed.

Lemma backoff_mono n m cap : n ≤ m → backoff n cap ≤ backoff m cap.
Proof.
  intros H. unfold backoff.
  assert (2 ^ Z.max (n - 1) 0 ≤ 2 ^ Z.max (m - 1) 0) by (apply Z.pow_le_mono_r; lia). lia.
Qed.

(** *** Delimited strings

    A field without the delimiter is determined by the text up to it. *)

Lemma delimited_inj (d : Ascii.ascii) (p : Ascii.ascii → bool) s1 s2 t1 t2 :
  p d = false → string_forallb p s1 = true → string_forallb p s2 = true →
  s1 +:+ String d t1 = s2 +:+ String d t2 → s1 = s2 ∧ t1 = t2.
Proof.
  intros Hd. revert s2. induction s1 as [|c s1 IH]; intros [|c' s2]; simpl.
  - intros _ _ [=]. done.
  - intros _ [Hc _]%andb_true_iff [= <- _]. congruence.
  - intros [Hc _]%andb_true_iff _ [= -> _]. congruence.
  - intros [_ H1]%andb_true_iff [_ H2]%andb_true_iff [= <- E].
    by destruct (IH s2 H1 H2 E) as [-> ->].
Qed.

Definition is_int_char (c : Ascii.ascii) : bool := is_digit c || (code c =? 45).

Lemma pretty_N_char_digit x : is_digit (pretty_N_char x) = true.
Proof. by destruct x as [|[[[[]|[]|]|[[]|[]|]|]|[[[]|[]|]|[[]|[]|]|]|]]. Qed.

Lemma pretty_N_go_digits x s :
  string_forallb is_digit s = true → string_forallb is_digit (pretty_N_go x s) = true.
Proof.
  revert s. induction (N.lt_wf_0 x) as [x _ IH]. intros s Hs.
  destruct (decide (0 < x)%N) as [Hx|Hx].
  - rewrite pretty_N_go_step by done. apply IH; [by apply N.div_lt|]. simpl.
    by rewrite pretty_N_char_digit.
  - assert (x = 0%N) as -> by lia. by rewrite pretty_N_go_0.
Qed.

Lemma pretty_N_digits (x : N) : string_forallb is_digit (pretty x) = true.
Proof.
  unfold pretty, pretty_N. case_decide; [done|]. by apply pretty_N_go_digits.
Qed.

Lemma string_forallb_impl (p q : Ascii.ascii → bool) s :
  (∀ c, p c = true → q c = true) → string_forallb p s = true → string_forallb q s = true.
Proof.
  intros H. induction s as [|c s IH]; simpl; [done|].
  intros [? ?]%andb_true_iff. apply andb_true_iff. auto.
Qed.

Lemma pretty_Z_chars (z : Z) : string_forallb is_int_char (pretty z) = true.
Proof.
  assert (∀ x : N, string_forallb is_int_char (pretty x) = true) as HN.
  { intros x. eapply string_forallb_impl; [|apply pretty_N_digits].
    intros c Hc. unfold is_int_char. by rewrite Hc. }
  destruct z as [|x|x]; [done | apply (HN (N.pos x)) |].
  change (string_forallb is_int_char ("-" +:+ pretty (N.pos x)) = true).
  rewrite string_forallb_app. by rewrite HN.
Qed.

Lemma str_app_assoc (a b c : string) : (a +:+ b) +:+ c = a +:+ (b +:+ c).
Proof.
  induction a as [|x a IH]; [done|].
  change (String x ((a +:+ b) +:+ c) = String x (a +:+ (b +:+ c))). by rewrite IH.
Qed.

Lemma str_app_inv_head (p a b : string) : p +:+ a = p +:+ b → a = b.
Proof.
  induction p as [|c p IH]; [done|].
  change (String c (p +:+ a) = String c (p +:+ b) → a = b). intros [=]. auto.
Qed.

Lemma string_forallb_map p f s :
  (∀ c, p c = true → p (f c) = true) →
  string_forallb p s = true → string_forallb p (string_map f s) = true.
Proof.
  intros H. induction s as [|c s IH]; simpl; [done|].
  intros [? ?]%andb_true_iff. apply andb_true_iff. auto.
Qed.

Lemma str_len_app a b : str_len (a +:+ b) = str_len a + str_len b.
Proof.
  unfold str_len. enough (String.length (a +:+ b) = String.length a + String.length b)%nat by lia.
  induction a as [|x a IH]; [done|].
  change (S (String.length (a +:+ b)) = S (String.length a + String.length b)). lia.
Qed.
