(* ===== verification/Calendar.v ===== *)
(** * The business calendar

    The calendar part of [services/sla_service.py]: weekly schedules, holidays,
    adding business seconds to an instant, counting business seconds between two
    instants.

    An instant is a number of microseconds since the epoch; a wall time is the
    same number read off a local clock.  Arithmetic and comparison of datetimes
    with the same [tzinfo] act on wall times, as in Python.  Instants stay within
    the years 1 to 9999. *)

From S2P Require Import Prelude.

(** ** Floating-point seconds

    [timedelta.total_seconds] and [+] on floats round to 53 bits, to nearest,
    ties to even.  A non-negative float is [m * 2 ^ e], as [(m, e)]. *)

Module Float.
Definition round_half_even (n d : Z) : Z :=
  let q := n / d in
  let r := n mod d in
  if 2 * r <? d then q
  else if d <? 2 * r then Z.succ q
  else if Z.even q then q else Z.succ q.

(** The float nearest to [n / d], for [n / d] zero or at least [2 ^ -100] *)
Definition rnd (n d : Z) : float :=
  if n =? 0 then (0, 0)
  else
    let e := Z.log2 (n * 2 ^ 100 / d) - 152 in
    (if 0 <=? e then round_half_even n (d * 2 ^ e) else round_half_even (n * 2 ^ (- e)) d, e).

(** [x + y] *)
Definition add (x y : float) : float :=
  let '(m1, e1) := x in
  let '(m2, e2) := y in
  let e := Z.min e1 e2 in
  let m := m1 * 2 ^ (e1 - e) + m2 * 2 ^ (e2 - e) in
  if 0 <=? e then rnd (m * 2 ^ e) 1 else rnd m (2 ^ (- e)).

(** [int(x)] *)
Definition to_int (x : float) : Z :=
  let '(m, e) := x in if 0 <=? e then m * 2 ^ e else m / 2 ^ (- e).

(** [timedelta(microseconds=us).total_seconds()] *)
Definition total_seconds (us : Z) : float := rnd us us_per_second.

(** [x] is the integer [z]. *)
Definition is_int (x : float) (z : Z) : Prop :=
  snd x ≤ 0 ∧ fst x = z * 2 ^ (- snd x).

Lemma round_exact q d : 0 < d → round_half_even (q * d) d = q.
Proof.
  intros Hd. unfold round_half_even. rewrite Z.div_mul, Z.mod_mul by lia.
  destruct (Z.ltb_spec (2 * 0) d); lia.
Qed.

Lemma rnd_int z d : 0 ≤ z < 2 ^ 53 → 0 < d → is_int (rnd (z * d) d) z.
Proof.
  intros Hz Hd. unfold rnd, is_int. destruct (Z.eqb_spec (z * d) 0) as [E|E].
  { cbn. assert (z = 0) as -> by nia. lia. }
  replace (z * d * 2 ^ 100) with (z * 2 ^ 100 * d) by ring. rewrite Z.div_mul by lia.
  assert (0 < z) as Hz0 by nia.
  assert (Z.log2 (z * 2 ^ 100) = Z.log2 z + 100) as ->
    by (rewrite Z.log2_mul_pow2 by lia; lia).
  assert (Z.log2 z < 53) as Hlog by (apply Z.log2_lt_pow2; lia).
  assert (0 ≤ Z.log2 z) by apply Z.log2_nonneg.
  set (e := Z.log2 z + 100 - 152). assert (e ≤ 0) by lia. cbn [fst snd]. split; [done|].
  destruct (Z.leb_spec 0 e).
  - assert (e = 0) as -> by lia. rewrite Z.pow_0_r, Z.mul_1_r, Z.mul_1_r. by apply round_exact.
  - replace (z * d * 2 ^ (- e)) with (z * 2 ^ (- e) * d) by ring. by apply round_exact.
Qed.

Lemma add_int x y a b :
  0 ≤ a → 0 ≤ b → a + b < 2 ^ 53 → is_int x a → is_int y b → is_int (add x y) (a + b).
Proof.
  destruct x as [m1 e1], y as [m2 e2]. unfold is_int at 1 2. cbn [fst snd].
  intros Ha Hb Hab [He1 ->] [He2 ->]. unfold add.
  set (e := Z.min e1 e2).
  assert (a * 2 ^ (- e1) * 2 ^ (e1 - e) + b * 2 ^ (- e2) * 2 ^ (e2 - e) = (a + b) * 2 ^ (- e)) as ->.
  { rewrite <- !Z.mul_assoc, <- !Z.pow_add_r by lia.
    replace (- e1 + (e1 - e)) with (- e) by lia. replace (- e2 + (e2 - e)) with (- e) by lia. ring. }
  destruct (Z.leb_spec 0 e).
  - assert (e = 0) as -> by lia. rewrite Z.pow_0_r, !Z.mul_1_r.
    rewrite <- (Z.mul_1_r (a + b)) at 1. apply rnd_int; lia.
  - apply rnd_int; [lia|]. apply Z.pow_pos_nonneg; lia.
Qed.

Lemma to_int_is_int x z : is_int x z → to_int x = z.
Proof.
  destruct x as [m e]. unfold is_int, to_int. cbn. intros [He ->].
  destruct (Z.leb_spec 0 e).
  - assert (e = 0) as -> by lia. cbn. lia.
  - apply Z.div_mul. apply Z.pow_nonzero; lia.
Qed.

Lemma total_seconds_int z : 0 ≤ z < 2 ^ 53 → is_int (total_seconds (seconds z)) z.
Proof. intros. by apply rnd_int. Qed.
End Float.

(** ** Dates *)

Definition day_us : Z := seconds 86400.
(** Days since the epoch of a wall time, and its midnight *)
Definition day_of (w : Z) : Z := w / day_us.
Definition midnight (day : Z) : Z := day * day_us.

(** [date.strftime("%A").lower()]; day 0 was a Thursday *)
Definition weekday_name (day : Z) : string :=
  match (day + 3) mod 7 with
  | 0 => "monday" | 1 => "tuesday" | 2 => "wednesday" | 3 => "thursday"
  | 4 => "friday" | 5 => "saturday" | _ => "sunday"
  end.

(** Year, month and day of the proleptic Gregorian calendar *)
Definition civil (day : Z) : Z * Z * Z :=
  let z := day + 719468 in
  let era := z / 146097 in
  let doe := z mod 146097 in
  let yoe := (doe - doe / 1460 + doe / 36524 - doe / 146096) / 365 in
  let doy := doe - (365 * yoe + yoe / 4 - yoe / 100) in
  let mp := (5 * doy + 2) / 153 in
  let d := doy - (153 * mp + 2) / 5 + 1 in
  let m := if mp <? 10 then mp + 3 else mp - 9 in
  (yoe + era * 400 + (if m <=? 2 then 1 else 0), m, d).

Fixpoint zeros (n : nat) : string :=
  match n with O => EmptyString | S n => String (Ascii.ascii_of_N 48) (zeros n) end.
(** [f"{z:0{n}d}"] *)
Definition padded (n : nat) (z : Z) : string :=
  let s := pretty z in zeros (n - String.length s) +:+ s.

(** [date.isoformat()] *)
Definition isoformat (day : Z) : string :=
  let '(y, m, d) := civil day in padded 4 y +:+ "-" +:+ padded 2 m +:+ "-" +:+ padded 2 d.

(** ** Time zones

    [utc_offset t] is the offset at the instant [t]; [wall_offset w] is the offset
    Python uses to read the wall time [w] with [fold=0]. *)

Record Zone := { utc_offset : Z → Z; wall_offset : Z → Z }.
Definition to_local (z : Zone) (t : Z) : Z := t + utc_offset z t.
Definition to_utc (z : Zone) (w : Z) : Z := w - wall_offset z w.

(** ** Clock texts *)

(** The digits of [int(text)], with single underscores between them *)
Fixpoint int_digits (acc : Z) (after_digit : bool) (s : string) : option Z :=
  match s with
  | EmptyString => if after_digit then Some acc else None
  | String c s' =>
      if is_digit c then int_digits (10 * acc + (code c - 48)) true s'
      else if (code c =? 95) && after_digit then
        match s' with
        | String c' _ => if is_digit c' then int_digits acc false s' else None
        | EmptyString => None
        end
      else None
  end.

(** [int(text)] for ASCII text *)
Definition py_int (s : string) : option Z :=
  match py_strip s with
  | String c s' =>
      if code c =? 45 then Z.opp <$> int_digits 0 false s'
      else if code c =? 43 then int_digits 0 false s'
      else int_digits 0 false (String c s')
  | EmptyString => None
  end.

(** [text.split(":", 1)], the two parts if there is a colon *)
Fixpoint split_colon (s : string) : option (string * string) :=
  match s with
  | EmptyString => None
  | String c s' =>
      if code c =? 58 then Some (EmptyString, s')
      else '(a, b) ← split_colon s'; Some (String c a, b)
  end.

(** The time of day is kept in microseconds. *)
Definition clock_time (hour minute : Z) : Z := minutes (60 * hour + minute).

Definition schedule_time_invalid : exc := SLAConfigurationError "sla_schedule_time_invalid".

(** [time(hour=h, minute=m)] raises out of range; its seconds are zero. *)
Definition _clock (text : string) : result Z :=
  match split_colon text with
  | None => Err schedule_time_invalid
  | Some (h, m) =>
      match py_int h, py_int m with
      | Some hour, Some minute =>
          if (0 <=? hour) && (hour <? 24) && (0 <=? minute) && (minute <? 60)
          then Ok (clock_time hour minute) else Err schedule_time_invalid
      | _, _ => Err schedule_time_invalid
      end
  end.

(** [str(value)] of a decoded JSON value; the text of a container or a float never
    reads as a clock, so its exact characters do not matter. *)
Definition py_str (j : json) : string :=
  match j with
  | JNull => "None"
  | JBool b => if b then "True" else "False"
  | JNum z => pretty z
  | JFloat _ => "1.5"
  | JStr s => s
  | JArr _ => "[]"
  | JObj _ => "{}"
  end.

(** ** Working intervals of a day *)

Definition interval_invalid : exc := SLAConfigurationError "sla_schedule_interval_invalid".
Definition interval_order_invalid : exc :=
  SLAConfigurationError "sla_schedule_interval_order_invalid".
Definition interval_overlap : exc := SLAConfigurationError "sla_schedule_interval_overlap".

Definition interval_ends (item : json) : result (json * json) :=
  match item with
  | JObj _ => Ok (json_get "start" item, json_get "end" item)
  | JArr [a; b] => Ok (a, b)
  | _ => Err interval_invalid
  end.

Definition parse_interval (item : json) : result (Z * Z) :=
  ends ← interval_ends item;
  s ← _clock (py_str (fst ends));
  e ← _clock (py_str (snd ends));
  if e <=? s then Err interval_order_invalid else Ok (s, e).

(** [for item in raw]: a text or an object iterates over its characters or keys,
    which are texts; a scalar does not iterate. *)
Definition iter_json (raw : json) : result (list json) :=
  match raw with
  | JArr l => Ok l
  | JObj l => Ok (map (JStr ∘ fst) l)
  | JStr s => Ok (map (fun c => JStr (String c EmptyString)) (String.list_ascii_of_string s))
  | _ => Err (TypeError "not iterable")
  end.

(** [schedule.get(name, [])] *)
Definition schedule_get (schedule : json) (name : string) : result json :=
  match schedule with
  | JObj l => Ok (default (JArr []) (assoc_get name l))
  | _ => Err (TypeError "schedule has no attribute get")
  end.

Fixpoint no_overlap (l : list (Z * Z)) : bool :=
  match l with
  | previous :: ((current :: _) as l') => negb (fst current <? snd previous) && no_overlap l'
  | _ => true
  end.

Definition by_start (a b : Z * Z) : bool := fst a <=? fst b.

Definition _intervals_for_day (schedule : json) (day : Z) : result (list (Z * Z)) :=
  raw ← schedule_get schedule (weekday_name day);
  items ← iter_json raw;
  intervals ← result_mapM parse_interval items;
  let intervals := sort_by by_start intervals in
  if no_overlap intervals then Ok intervals else Err interval_overlap.

(** [{str(value)[:10] for value in (holidays or [])}] *)
Definition _holiday_dates (holidays : json) : result (list string) :=
  if truthy holidays then
    l ← iter_json holidays; Ok (map (str_take 10 ∘ py_str) l)
  else Ok [].

(** The working intervals of a day, as wall times: none on a holiday *)
Definition working (schedule : json) (holiday_dates : list string) (day : Z)
    : result (list (Z * Z)) :=
  if bool_decide (isoformat day ∈ holiday_dates) then Ok []
  else
    l ← _intervals_for_day schedule day;
    Ok (map (fun i => (midnight day + fst i, midnight day + snd i)) l).

(** ** Adding business time *)

Definition horizon : nat := 3700.
Definition horizon_exceeded : exc := SLAConfigurationError "sla_schedule_horizon_exceeded".

(** The intervals of one day: the wall time reached, or what remains to be added *)
Fixpoint consume (local remaining : Z) (l : list (Z * Z)) : Z + Z :=
  match l with
  | [] => inr remaining
  | (interval_start, interval_end) :: l' =>
      let cursor := Z.max local interval_start in
      if interval_end <=? cursor then consume local remaining l'
      else
        let available := interval_end - cursor in
        if remaining <=? available then inl (cursor + remaining)
        else consume local (remaining - available) l'
  end.

Section Zoned.
(** [ZoneInfo(name)], [None] when the time zone database has no such zone *)
Variable zoneinfo : string → option Zone.

Definition _zone (name : string) : result Zone :=
  match zoneinfo name with
  | Some z => Ok z
  | None => Err (SLAConfigurationError ("sla_timezone_invalid:" +:+ name))
  end.

Fixpoint add_days (fuel : nat) (schedule : json) (holiday_dates : list string)
    (local remaining : Z) : result Z :=
  match fuel with
  | O => Err horizon_exceeded
  | S fuel =>
      l ← working schedule holiday_dates (day_of local);
      match consume local remaining l with
      | inl w => Ok w
      | inr remaining =>
          add_days fuel schedule holiday_dates (midnight (day_of local + 1)) remaining
      end
  end.

Definition add_business_seconds (start secs : Z) (timezone_name : string)
    (weekly_schedule holidays : json) : result Z :=
  if secs <? 0 then Err (SLAConfigurationError "sla_seconds_negative")
  else if secs =? 0 then Ok start
  else
    let schedule := json_or weekly_schedule (JObj []) in
    if negb (truthy schedule) then Ok (start + seconds secs)
    else
      zone ← _zone timezone_name;
      holiday_dates ← _holiday_dates holidays;
      w ← add_days horizon schedule holiday_dates (to_local zone start) (seconds secs);
      Ok (to_utc zone w).

Definition add_business_minutes (start mins : Z) (timezone_name : string)
    (weekly_schedule holidays : json) : result Z :=
  if mins <? 0 then Err (SLAConfigurationError "sla_minutes_negative")
  else add_business_seconds start (mins * 60) timezone_name weekly_schedule holidays.

(** ** Counting business time *)

(** The overlaps of the intervals of one day with [start_utc, end_utc] *)
Definition overlaps (zone : Zone) (start_utc end_utc : Z) (l : list (Z * Z)) : list Z :=
  filter (fun o => 0 < o)
    (map (fun i => Z.min end_utc (to_utc zone (snd i)) - Z.max start_utc (to_utc zone (fst i))) l).

Definition add_overlaps (total : float) (l : list Z) : float :=
  foldl (fun acc o => Float.add acc (Float.total_seconds o)) total l.

Fixpoint count_days (fuel : nat) (schedule : json) (holiday_dates : list string) (zone : Zone)
    (start_utc end_utc current_day final_day : Z) (total : float) : result float :=
  match fuel with
  | O => Err horizon_exceeded
  | S fuel =>
      if final_day <? current_day then Ok total
      else
        l ← working schedule holiday_dates current_day;
        count_days fuel schedule holiday_dates zone start_utc end_utc (current_day + 1) final_day
          (add_overlaps total (overlaps zone start_utc end_utc l))
  end.

Definition business_seconds_between (start_utc end_utc : Z) (timezone_name : string)
    (weekly_schedule holidays : json) : result Z :=
  if end_utc <=? start_utc then Ok 0
  else
    let schedule := json_or weekly_schedule (JObj []) in
    if negb (truthy schedule) then Ok (Float.to_int (Float.total_seconds (end_utc - start_utc)))
    else
      zone ← _zone timezone_name;
      holidays_set ← _holiday_dates holidays;
      total ← count_days horizon schedule holidays_set zone start_utc end_utc
                (day_of (to_local zone start_utc)) (day_of (to_local zone end_utc)) (0, 0);
      Ok (Float.to_int total).
End Zoned.

(** *** On concrete dates *)

Example iso_epoch : isoformat 0 = "1970-01-01".
Proof. reflexivity. Qed.
Example iso_leap : isoformat 19782 = "2024-02-29".
Proof. reflexivity. Qed.
Example iso_leap_next : isoformat 19783 = "2024-03-01".
Proof. reflexivity. Qed.
Example weekday_leap : weekday_name 19782 = "thursday".
Proof. reflexivity. Qed.

(** ** Facts about working intervals *)

(** A whole number of seconds *)
Definition whole (x : Z) : Prop := ∃ k, x = seconds k.

Lemma whole_seconds k : whole (seconds k).
Proof. by exists k. Qed.

Lemma whole_add x y : whole x → whole y → whole (x + y).
Proof. intros [a ->] [b ->]. exists (a + b). unfold seconds. lia. Qed.

Lemma whole_sub x y : whole x → whole y → whole (x - y).
Proof. intros [a ->] [b ->]. exists (a - b). unfold seconds. lia. Qed.

Lemma whole_max x y : whole x → whole y → whole (Z.max x y).
Proof. intros. destruct (Z.max_spec x y) as [[_ ->]|[_ ->]]; done. Qed.

Lemma whole_min x y : whole x → whole y → whole (Z.min x y).
Proof. intros. destruct (Z.min_spec x y) as [[_ ->]|[_ ->]]; done. Qed.

Lemma whole_midnight d : whole (midnight d).
Proof. exists (d * 86400). unfold midnight, day_us, seconds. lia. Qed.
#[export] Hint Resolve whole_seconds whole_add whole_sub whole_max whole_min whole_midnight : nexus.

Lemma day_of_midnight d : day_of (midnight d) = d.
Proof. unfold day_of, midnight. apply Z.div_mul. done. Qed.

Lemma day_of_spec w d : day_of w = d ↔ midnight d ≤ w < midnight (d + 1).
Proof.
  unfold day_of, midnight.
  assert (0 < day_us) as Hpos by done. split.
  - intros <-. pose proof (Z.div_mod w day_us ltac:(lia)).
    pose proof (Z.mod_pos_bound w day_us Hpos). nia.
  - intros H. symmetry. apply (Z.div_unique w day_us d (w - d * day_us)); lia.
Qed.

Lemma day_of_mono a b : a ≤ b → day_of a ≤ day_of b.
Proof. intros. by apply Z.div_le_mono. Qed.

Lemma clock_range s x : _clock s = Ok x → 0 ≤ x ≤ day_us - minutes 1 ∧ whole x.
Proof.
  unfold _clock. destruct (split_colon s) as [[h m]|]; [|done].
  destruct (py_int h) as [hh|]; [|done]. destruct (py_int m) as [mm|]; [|done].
  destruct (_ && _ && _ && _) eqn:E; [|done]. intros [= <-].
  rewrite !andb_true_iff in E. destruct E as [[[E1 E2] E3] E4].
  split; [|unfold clock_time, minutes; auto with nexus].
  unfold day_us, clock_time, minutes, seconds, us_per_second. lia.
Qed.

(** An interval of a day that starts at [0]: ordered, within the day, whole seconds *)
Definition good_interval (lo : Z) (i : Z * Z) : Prop :=
  lo ≤ fst i ∧ fst i < snd i ∧ snd i < lo + day_us ∧ whole (fst i) ∧ whole (snd i).

(** Later intervals start after earlier ones end. *)
Definition chained : list (Z * Z) → Prop := StronglySorted (fun a b => snd a ≤ fst b).

Lemma parse_interval_good item i : parse_interval item = Ok i → good_interval 0 i.
Proof.
  unfold parse_interval. intros H. apply result_bind_Ok in H as (ends & _ & H).
  apply result_bind_Ok in H as (s & [Hs Ws]%clock_range & H).
  apply result_bind_Ok in H as (e & [He We]%clock_range & H).
  destruct (Z.leb_spec e s); [done|]. injection H as <-. unfold good_interval. cbn [fst snd].
  unfold minutes, seconds, us_per_second in *. split_and!; try done; lia.
Qed.

Lemma result_mapM_Forall {A B} (f : A → result B) (P : B → Prop) l l' :
  (∀ a b, f a = Ok b → P b) → result_mapM f l = Ok l' → Forall P l'.
Proof.
  intros Hf. revert l'. induction l as [|a l IH]; intros l'; cbn; [by intros [= <-]; constructor|].
  intros H. apply result_bind_Ok in H as (b & Hb & H). apply result_bind_Ok in H as (bs & Hbs & H).
  injection H as <-. constructor; eauto.
Qed.

Lemma no_overlap_chained l :
  Forall (fun i => fst i < snd i) l → no_overlap l = true → chained l.
Proof.
  induction l as [|a [|b l] IH]; [by constructor | by repeat constructor |].
  intros [Ha Hf]%list.Forall_cons Hn. cbn [no_overlap] in Hn.
  apply andb_true_iff in Hn as [Hab%negb_true_iff%Z.ltb_ge Hn].
  specialize (IH Hf Hn). constructor; [done|]. constructor; [done|].
  apply StronglySorted_inv in IH as [_ IH]. apply list.Forall_cons in Hf as [Hb _].
  eapply Forall_impl; [|exact IH]. cbn. intros c Hc. lia.
Qed.

Lemma working_good schedule hs d l :
  working schedule hs d = Ok l → Forall (good_interval (midnight d)) l ∧ chained l.
Proof.
  unfold working. case_bool_decide as Hh; [intros [= <-]; split; constructor|].
  intros H. apply result_bind_Ok in H as (l0 & H & Hl).
  assert (Forall (good_interval 0) l0 ∧ chained l0) as [Hf Hc].
  { unfold _intervals_for_day in H. apply result_bind_Ok in H as (raw & _ & H).
    apply result_bind_Ok in H as (items & _ & H). apply result_bind_Ok in H as (ivs & His & H).
    destruct (no_overlap (sort_by by_start ivs)) eqn:En; [|done]. injection H as <-.
    apply (result_mapM_Forall _ (good_interval 0)) in His; [|apply parse_interval_good].
    assert (Forall (good_interval 0) (sort_by by_start ivs)) as Hf
      by (by rewrite sort_by_Permutation).
    split; [done|]. apply no_overlap_chained; [|done].
    eapply Forall_impl; [|exact Hf]. by intros i (_ & ? & _). }
  injection Hl as <-. split.
  - apply List.Forall_map. eapply Forall_impl; [|exact Hf].
    intros i (? & ? & ? & ? & ?). unfold good_interval. cbn [fst snd].
    split_and!; auto with nexus; lia.
  - clear -Hc. induction Hc as [|a l Hl IH Ha]; cbn [map]; [constructor|].
    constructor; [done|]. apply List.Forall_map. eapply Forall_impl; [|exact Ha].
    cbn. lia.
Qed.

(** ** The time two wall times share with intervals *)

Definition overlap (s e : Z) (i : Z * Z) : Z := Z.max 0 (Z.min e (snd i) - Z.max s (fst i)).
Fixpoint measure (s e : Z) (l : list (Z * Z)) : Z :=
  match l with [] => 0 | i :: l' => overlap s e i + measure s e l' end.

Lemma measure_nonneg s e l : 0 ≤ measure s e l.
Proof. induction l as [|i l IH]; cbn; unfold overlap; lia. Qed.

Lemma measure_after s e l : Forall (fun i => e ≤ fst i) l → measure s e l = 0.
Proof. induction 1 as [|i l Hi _ IH]; cbn; unfold overlap; lia. Qed.

(** A start before every interval may be moved up to them. *)
Lemma measure_start s s' e l :
  Forall (fun i => s ≤ fst i ∧ s' ≤ fst i) l → measure s e l = measure s' e l.
Proof. induction 1 as [|i l Hi _ IH]; cbn; unfold overlap; lia. Qed.

Lemma measure_from lo s e l :
  Forall (fun i => lo ≤ fst i) l → measure s e l = measure (Z.max s lo) e l.
Proof. induction 1 as [|i l Hi _ IH]; cbn; unfold overlap; lia. Qed.

Lemma measure_empty s e l : e ≤ s → Forall (fun i => fst i < snd i) l → measure s e l = 0.
Proof. intros He. induction 1 as [|i l Hi _ IH]; cbn; unfold overlap; lia. Qed.

(** Disjoint intervals share no more than the time that elapses. *)
Lemma measure_le s e l :
  Forall (fun i => fst i < snd i) l → chained l → s ≤ e → measure s e l ≤ e - s.
Proof.
  intros Hf Hc. revert s. induction Hc as [|[a b] l Hc IH Hnext]; intros s Hs; [cbn; lia|].
  apply list.Forall_cons in Hf as [Hab Hf]. cbn [measure fst snd] in *. specialize (IH Hf).
  rewrite (measure_from b) by done. unfold overlap. cbn [fst snd].
  destruct (Z.le_gt_cases (Z.max s b) e) as [Hle|Hgt].
  - specialize (IH _ Hle). lia.
  - rewrite measure_empty by (done || lia). lia.
Qed.

(** What [consume] leaves or returns, in terms of shared time *)
Lemma consume_spec local remaining hi l :
  Forall (fun i => fst i < snd i ∧ snd i ≤ hi) l → chained l → 0 < remaining →
  match consume local remaining l with
  | inl w => measure local w l = remaining ∧
             Exists (fun i => fst i < w ≤ snd i) l
  | inr r => 0 < r ∧ ∀ w, hi ≤ w → measure local w l = remaining - r
  end.
Proof.
  intros Hf Hc. revert remaining. induction l as [|[a b] l IH]; intros rem Hrem; cbn [consume].
  { split; [lia|]. intros. cbn. lia. }
  apply list.Forall_cons in Hf as [[Hab Hb] Hf]. cbn [fst snd] in *.
  apply StronglySorted_inv in Hc as [Hc Hnext]. cbn [fst snd] in *. specialize (IH Hf Hc).
  destruct (Z.leb_spec b (Z.max local a)) as [Hskip|Hin].
  - specialize (IH rem Hrem). destruct (consume local rem l) as [w|r].
    + destruct IH as (H2 & H3). split; [|by right]. cbn. unfold overlap. cbn. lia.
    + destruct IH as (H1 & H3). split; [done|]. intros w Hw.
      cbn. rewrite H3 by done. unfold overlap. cbn. lia.
  - destruct (Z.leb_spec rem (b - Z.max local a)) as [Hlast|Hmore].
    + split.
      * cbn. rewrite measure_after; [unfold overlap; cbn; lia|].
        eapply Forall_impl; [|exact Hnext]. cbn. lia.
      * left. cbn. lia.
    + specialize (IH (rem - (b - Z.max local a)) ltac:(lia)).
      destruct (consume local (rem - (b - Z.max local a)) l) as [w|r].
      * destruct IH as (H2 & H3). assert (b < w) as Hbw.
        { apply list.Exists_exists in H3 as (i & Hi & Hw).
          rewrite Forall_forall in Hnext. apply list_elem_of_In, Hnext in Hi. lia. }
        split; [|by right]. cbn. rewrite H2. unfold overlap. cbn. lia.
      * destruct IH as (H1 & H3). split; [done|]. intros w Hw.
        cbn. rewrite H3 by done. unfold overlap. cbn. lia.
Qed.

(** ** The two loops agree *)

(** A zone whose offset is always [off] *)
Definition fixed_offset (z : Zone) (off : Z) : Prop :=
  (∀ t, utc_offset z t = off) ∧ (∀ w, wall_offset z w = off) ∧ whole off.

Fixpoint total (l : list Z) : Z := match l with [] => 0 | o :: l' => o + total l' end.

Lemma total_overlaps z off s e l :
  fixed_offset z off → total (overlaps z (s - off) (e - off) l) = measure s e l.
Proof.
  intros (_ & Hw & _). unfold overlaps, to_utc. induction l as [|i l IH]; [done|].
  cbn [map measure]. rewrite filter_cons. unfold overlap. rewrite !Hw.
  case_decide; cbn [total]; rewrite IH; lia.
Qed.

Lemma overlaps_whole z off s e l :
  fixed_offset z off → whole s → whole e →
  Forall (fun i => whole (fst i) ∧ whole (snd i)) l →
  Forall (fun o => 0 < o ∧ whole o) (overlaps z (s - off) (e - off) l).
Proof.
  intros (_ & Hw & Woff) Ws We Hl. unfold overlaps, to_utc.
  induction Hl as [|i l [? ?] _ IH]; [constructor|]. cbn [map]. rewrite filter_cons, !Hw.
  case_decide; [constructor|]; auto. split; [done|]. auto 8 with nexus.
Qed.

Lemma add_overlaps_int x z l :
  Forall (fun o => 0 < o ∧ whole o) l → Float.is_int x z → 0 ≤ z →
  ∀ k, total l = seconds k → z + k < 2 ^ 53 → Float.is_int (add_overlaps x l) (z + k).
Proof.
  intros Hl. revert x z. induction Hl as [|o l [Ho [c ->]] Hl IH]; intros x z Hx Hz k Hk Hb.
  - cbn [total] in Hk. assert (k = 0) as -> by (unfold seconds, us_per_second in Hk; lia).
    by rewrite Z.add_0_r.
  - cbn [total] in Hk. assert (0 < c) by (unfold seconds, us_per_second in Ho; lia).
    assert (0 ≤ total l) as Hnn.
    { clear -Hl. induction Hl as [|o l [? _] _ IH]; cbn; lia. }
    assert (total l = seconds (k - c)) as Hk' by (unfold seconds in *; lia).
    assert (0 ≤ k - c) by (unfold seconds, us_per_second in *; lia).
    replace (z + k) with (z + c + (k - c)) by lia.
    apply (IH (Float.add x (Float.total_seconds (seconds c))) (z + c)); [|lia|done|lia].
    apply Float.add_int; [lia|lia|lia|done|]. apply Float.total_seconds_int. lia.
Qed.

Lemma measure_whole s e l :
  whole s → whole e → Forall (fun i => whole (fst i) ∧ whole (snd i)) l → whole (measure s e l).
Proof.
  intros Ws We. induction 1 as [|i l [? ?] _ IH]; cbn [measure]; [by exists 0|].
  unfold overlap. apply whole_add; [|done]. apply whole_max; [by exists 0|]. auto with nexus.
Qed.

Lemma good_split d l :
  Forall (good_interval (midnight d)) l →
  Forall (fun i => fst i < snd i ∧ snd i ≤ midnight (d + 1)) l ∧
  Forall (fun i => whole (fst i) ∧ whole (snd i)) l ∧
  Forall (fun i => midnight d ≤ fst i) l ∧ Forall (fun i => fst i < snd i) l.
Proof.
  intros H. unfold midnight in *. split_and!; (eapply Forall_impl; [|exact H]);
    intros i (? & ? & ? & ? & ?); cbn; try split; auto; lia.
Qed.

(** The end of one business day of the loops: [w] is reached on day [d] *)
Lemma consume_day schedule hs d l local rem w :
  working schedule hs d = Ok l → 0 < rem → consume local rem l = inl w →
  measure local w l = rem ∧ day_of w = d ∧ Exists (fun i => fst i < w ≤ snd i) l.
Proof.
  intros [Hg Hc]%working_good Hrem E. destruct (good_split d l Hg) as (H1 & _ & H3 & _).
  pose proof (consume_spec local rem (midnight (d + 1)) l H1 Hc Hrem) as Hs. rewrite E in Hs.
  destruct Hs as [Hm He]. split; [done|]. split; [|done]. apply day_of_spec.
  apply list.Exists_exists in He as (i & Hi & Hw).
  rewrite Forall_forall in Hg. apply list_elem_of_In, Hg in Hi as (? & ? & ? & _).
  unfold midnight in *. lia.
Qed.

Section Loops.
Context (schedule : json) (hs : list string) (z : Zone) (off : Z) (Hz : fixed_offset z off).

(** The wall time the loop of the addition returns: the day count between start
    and end reads the same number of seconds, and time does not run backwards. *)
Lemma add_days_spec fuel local rem w :
  add_days fuel schedule hs local rem = Ok w → 0 < rem →
  (∃ l, working schedule hs (day_of w) = Ok l ∧ Exists (fun i => fst i < w ≤ snd i) l) ∧
  local + rem ≤ w.
Proof using Type.
  revert local rem. induction fuel as [|fuel IH]; intros local rem; cbn [add_days]; [done|].
  intros H Hrem. apply result_bind_Ok in H as (l & Hl & H).
  destruct (working_good _ _ _ _ Hl) as [Hg Hc].
  destruct (good_split _ _ Hg) as (H1 & _ & _ & H4).
  destruct (consume local rem l) as [w'|r] eqn:E.
  - injection H as ->. destruct (consume_day _ _ _ _ _ _ _ Hl Hrem E) as (Hm & Hd & He).
    split; [rewrite Hd; eauto|].
    destruct (Z.le_gt_cases local w) as [Hle|Hgt].
    + pose proof (measure_le local w l H4 Hc Hle). lia.
    + rewrite measure_empty in Hm by (done || lia). lia.
  - pose proof (consume_spec local rem (midnight (day_of local + 1)) l H1 Hc Hrem) as Hs.
    rewrite E in Hs. destruct Hs as [Hr Hm].
    destruct (IH _ _ H Hr) as [He Hle]. split; [done|].
    assert (local ≤ midnight (day_of local + 1)) as Hlm
      by (pose proof (proj1 (day_of_spec local _) eq_refl); lia).
    specialize (Hm _ (Z.le_refl _)). pose proof (measure_le _ _ l H4 Hc Hlm). lia.
Qed.

Lemma add_count fuel fuel' local rem w start x v k :
  add_days fuel schedule hs local rem = Ok w → 0 < rem →
  whole start → whole w → start ≤ local → local = Z.max start (midnight (day_of local)) →
  Float.is_int x v → 0 ≤ v → rem = seconds k → v + k < 2 ^ 53 →
  day_of w - day_of local + 1 < Z.of_nat fuel' →
  ∃ x', count_days fuel' schedule hs z (start - off) (w - off) (day_of local) (day_of w) x = Ok x'
    ∧ Float.is_int x' (v + k).
Proof using Hz.
  revert fuel' local rem x v k. induction fuel as [|fuel IH];
    intros fuel' local rem x v k H Hrem Ws Ww Hsl Hlocal Hx Hv Hk Hb Hf; [done|].
  pose proof (day_of_mono local w) as Hdw.
  destruct (add_days_spec _ _ _ _ H Hrem) as [_ Hlocw].
  cbn [add_days] in H. apply result_bind_Ok in H as (l & Hl & H).
  destruct (working_good _ _ _ _ Hl) as [Hg Hc].
  destruct (good_split _ _ Hg) as (H1 & H2 & H3 & H4).
  assert (measure start w l = measure local w l) as Hms.
  { rewrite (measure_from (midnight (day_of local)) start) by done. by rewrite <- Hlocal. }
  pose proof (overlaps_whole z off start w l Hz Ws Ww H2) as Hov.
  pose proof (total_overlaps z off start w l Hz) as Htot.
  destruct fuel' as [|fuel']; [lia|]. cbn [count_days].
  destruct (consume local rem l) as [w'|r] eqn:E.
  - injection H as ->. destruct (consume_day _ _ _ _ _ _ _ Hl Hrem E) as (Hm & Hd & _).
    rewrite Hd. destruct (Z.ltb_spec (day_of local) (day_of local)); [lia|].
    rewrite Hl. cbn [mbind result_bind]. destruct fuel' as [|fuel']; [lia|]. cbn [count_days].
    destruct (Z.ltb_spec (day_of local) (day_of local + 1)); [|lia].
    eexists. split; [reflexivity|]. apply add_overlaps_int; auto. lia.
  - pose proof (consume_spec local rem (midnight (day_of local + 1)) l H1 Hc Hrem) as Hs.
    rewrite E in Hs. destruct Hs as [Hr Hm].
    destruct (add_days_spec _ _ _ _ H Hr) as [_ Hlw].
    assert (midnight (day_of local + 1) ≤ w) as Hmw by lia. specialize (Hm w Hmw).
    apply day_of_mono in Hmw as Hdays. rewrite day_of_midnight in Hdays.
    destruct (Z.ltb_spec (day_of w) (day_of local)); [lia|].
    rewrite Hl. cbn [mbind result_bind].
    destruct (measure_whole start w l Ws Ww H2) as [c Hcw].
    assert (seconds c = rem - r) as Hcr by lia.
    pose proof (measure_nonneg start w l) as Hcn.
    assert (r = seconds (k - c)) as Hr' by (unfold seconds in *; lia).
    assert (0 ≤ c ∧ 0 < k - c) as [? ?] by (unfold seconds, us_per_second in *; lia).
    assert (start ≤ midnight (day_of local + 1)) as Hsm
      by (pose proof (proj1 (day_of_spec local _) eq_refl); lia).
    replace (day_of local + 1) with (day_of (midnight (day_of local + 1))) by apply day_of_midnight.
    replace (v + k) with (v + c + (k - c)) by lia.
    apply (IH fuel' _ r); rewrite ?day_of_midnight; auto; try lia.
    apply add_overlaps_int; auto; lia.
Qed.
End Loops.

Lemma consume_whole local rem l :
  whole local → whole rem → Forall (fun i => whole (fst i) ∧ whole (snd i)) l →
  match consume local rem l with inl w => whole w | inr r => whole r end.
Proof.
  intros Wl Wr Hl. revert rem Wr. induction Hl as [|[a b] l [Wa Wb] _ IH]; intros rem Wr; [done|].
  cbn [fst snd] in *. cbn [consume]. destruct (b <=? _); [by apply IH|].
  destruct (rem <=? _); [auto with nexus|]. apply IH. auto with nexus.
Qed.

Lemma add_days_whole fuel schedule hs local rem w :
  add_days fuel schedule hs local rem = Ok w → whole local → whole rem → whole w.
Proof.
  revert local rem. induction fuel as [|fuel IH]; intros local rem; cbn [add_days]; [done|].
  intros H Wl Wr. apply result_bind_Ok in H as (l & Hl & H).
  destruct (working_good _ _ _ _ Hl) as [Hg _].
  destruct (good_split _ _ Hg) as (_ & H2 & _ & _).
  pose proof (consume_whole local rem l Wl Wr H2) as Hw.
  destruct (consume local rem l) as [w'|r]; [by injection H as ->|].
  apply (IH _ _ H); auto with nexus.
Qed.

#[global] Opaque horizon.

Section Theorems.
Context (zoneinfo : string → option Zone) (name : string) (z : Zone) (off : Z).
Context (Hname : zoneinfo name = Some z) (Hfixed : fixed_offset z off).

Lemma to_local_fixed t : to_local z t = t + off.
Proof using Hfixed. unfold to_local. by rewrite (proj1 Hfixed). Qed.

Lemma to_utc_fixed w : to_utc z w = w - off.
Proof using Hfixed. unfold to_utc. by rewrite (proj1 (proj2 Hfixed)). Qed.

(** The successful run of the addition, branch by branch *)
Lemma add_business_inv start secs schedule holidays e :
  add_business_seconds zoneinfo start secs name schedule holidays = Ok e →
  0 ≤ secs ∧
  ((secs = 0 ∧ e = start) ∨
   (0 < secs ∧ truthy (json_or schedule (JObj [])) = false ∧ e = start + seconds secs) ∨
   (0 < secs ∧ truthy (json_or schedule (JObj [])) = true ∧
    ∃ hs, _holiday_dates holidays = Ok hs ∧
    add_days horizon (json_or schedule (JObj [])) hs (start + off) (seconds secs) = Ok (e + off))).
Proof using Hname Hfixed.
  unfold add_business_seconds. destruct (Z.ltb_spec secs 0); [done|].
  destruct (Z.eqb_spec secs 0) as [->|Hne]; [intros [= ->]; auto|].
  destruct (truthy (json_or schedule (JObj []))); cbn [negb].
  - intros H'. apply result_bind_Ok in H' as (z' & Hz & H'). unfold _zone in Hz.
    rewrite Hname in Hz. injection Hz as <-. apply result_bind_Ok in H' as (hs & Hh & H').
    apply result_bind_Ok in H' as (w & Hw & [= <-]). rewrite to_local_fixed in Hw.
    split; [lia|]. right. right. split; [lia|]. split; [done|]. exists hs. split; [done|].
    rewrite to_utc_fixed. by replace (w - off + off) with w by lia.
  - intros [= <-]. split; [lia|]. right. left. auto with lia.
Qed.
End Theorems.

(** in a time zone with a constant offset, the business time counted between an
    instant and the instant the addition of [secs] business seconds returns is
    exactly [secs], for whole seconds and a result within the horizon of the count;
    floating-point accumulation included. *)
Theorem calendar_roundtrip zoneinfo name z off start secs schedule holidays e :
  zoneinfo name = Some z → fixed_offset z off → whole start → secs < 2 ^ 53 →
  add_business_seconds zoneinfo start secs name schedule holidays = Ok e →
  day_of (to_local z e) - day_of (to_local z start) ≤ 3698 →
  business_seconds_between zoneinfo start e name schedule holidays = Ok secs.
Proof.
  intros Hname Hfixed Ws Hb H Hdays.
  destruct (add_business_inv _ _ _ _ Hname Hfixed _ _ _ _ _ H) as [Hs Hcases].
  rewrite !(to_local_fixed z off Hfixed) in Hdays. unfold business_seconds_between.
  destruct Hcases as [[-> ->]|[(Hpos & Ht & ->)|(Hpos & Ht & hs & Hh & Hadd)]].
  - by rewrite Z.leb_refl.
  - destruct (Z.leb_spec (start + seconds secs) start) as [Hle|_].
    { unfold seconds, us_per_second in Hle. lia. }
    rewrite Ht. cbn [negb]. replace (start + seconds secs - start) with (seconds secs) by lia.
    by rewrite (Float.to_int_is_int _ secs) by (apply Float.total_seconds_int; lia).
  - assert (0 < seconds secs) as Hp by (unfold seconds, us_per_second; lia).
    destruct (add_days_spec _ _ _ _ _ _ Hadd Hp) as [_ Hle].
    destruct (Z.leb_spec e start) as [|_]; [lia|]. rewrite Ht. cbn [negb]. unfold _zone.
    rewrite Hname. cbn [mbind result_bind]. rewrite Hh. cbn [mbind result_bind].
    rewrite !(to_local_fixed z off Hfixed). destruct Hfixed as (Hu & Hw & Woff).
    assert (whole (start + off)) as Ws' by auto with nexus.
    pose proof (add_days_whole _ _ _ _ _ _ Hadd Ws' (whole_seconds secs)) as We.
    destruct (add_count _ hs z off (conj Hu (conj Hw Woff)) horizon horizon (start + off)
      (seconds secs) (e + off) (start + off) (0, 0) 0 secs Hadd Hp Ws' We) as (x & Hx & Hi);
      try done; try lia.
    + pose proof (proj1 (day_of_spec (start + off) _) eq_refl). lia.
    + change (Z.of_nat horizon) with 3700. lia.
    + replace (start + off - off) with start in Hx by lia.
      replace (e + off - off) with e in Hx by lia. rewrite Hx. cbn [mbind result_bind].
      by rewrite (Float.to_int_is_int _ _ Hi).
Qed.

(** what the addition of business seconds returns.  A negative amount is an error,
    zero is the start, without a schedule it is plain elapsed time, and with one
    the result lies inside a working interval of a day that is not a holiday, at
    least the added time after the start. *)
Theorem calendar_addition zoneinfo name z off start secs schedule holidays :
  zoneinfo name = Some z → fixed_offset z off →
  (secs < 0 → add_business_seconds zoneinfo start secs name schedule holidays =
     Err (SLAConfigurationError "sla_seconds_negative")) ∧
  (∀ e, add_business_seconds zoneinfo start secs name schedule holidays = Ok e →
     start + seconds secs ≤ e ∧
     (secs = 0 ∨ truthy schedule = false → e = start + seconds secs) ∧
     (0 < secs → truthy schedule = true →
      ∃ hs l i, _holiday_dates holidays = Ok hs ∧ (isoformat (day_of (to_local z e)) ∉ hs) ∧
        working schedule hs (day_of (to_local z e)) = Ok l ∧ i ∈ l ∧
        fst i < to_local z e ≤ snd i)).
Proof.
  intros Hname Hfixed. split.
  { intros Hs. unfold add_business_seconds. by destruct (Z.ltb_spec secs 0); [|lia]. }
  intros e H. destruct (add_business_inv _ _ _ _ Hname Hfixed _ _ _ _ _ H) as [Hs Hcases].
  assert (truthy schedule = truthy (json_or schedule (JObj []))) as Ht'.
  { unfold json_or. by destruct (truthy schedule) eqn:E. }
  destruct Hcases as [[-> ->]|[(Hpos & Ht & ->)|(Hpos & Ht & hs & Hh & Hadd)]].
  - split; [unfold seconds; lia|]. split; [unfold seconds; lia|lia].
  - split; [lia|]. split; [done|]. congruence.
  - assert (0 < seconds secs) as Hp by (unfold seconds, us_per_second; lia).
    destruct (add_days_spec _ _ _ _ _ _ Hadd Hp) as [(l & Hl & He) Hle].
    split; [lia|]. split; [intros [?|?]; [lia | congruence]|]. intros _ Htr.
    rewrite (to_local_fixed z off Hfixed). apply list.Exists_exists in He as (i & Hi & Hw).
    assert (json_or schedule (JObj []) = schedule) as E by (unfold json_or; by rewrite Htr).
    rewrite E in Hl. exists hs, l, i. split; [done|]. split; [|done].
    intros Hin. unfold working in Hl. rewrite bool_decide_eq_true_2 in Hl by done.
    injection Hl as <-. by apply elem_of_nil in Hi.
Qed.

(** ** Witnesses and boundary cases *)

Module Office.
Definition interval (s e : string) : json := JObj [("start", JStr s); ("end", JStr e)].
(** Monday and Tuesday, with a lunch break on Monday *)
Definition schedule : json :=
  JObj [("monday", JArr [interval "13:00" "17:30"; interval "09:00" "12:00"]);
        ("tuesday", JArr [JArr [JStr "09:00"; JStr "17:00"]])].
Definition holidays : json := JArr [JStr "2024-05-06"].
Definition plus_two : Zone := {| utc_offset _ := hours 2; wall_offset _ := hours 2 |}.
Definition zones (name : string) : option Zone :=
  if bool_decide (name = "Etc/GMT-2") then Some plus_two else None.
(** Monday 2024-04-29, 16:00 local time *)
Definition start : Z := seconds (19842 * 86400 + 14 * 3600).

Lemma plus_two_fixed : fixed_offset plus_two (hours 2).
Proof. split; [done|]. split; [done|]. by exists 7200. Qed.
End Office.

(** 90 minutes on Monday, eight hours on Tuesday, then, the next Monday being a
    holiday, half an hour on the Tuesday after it. *)
Lemma calendar_roundtrip_witness :
  add_business_seconds Office.zones Office.start 36000 "Etc/GMT-2" Office.schedule Office.holidays
    = Ok (seconds (19850 * 86400 + 7 * 3600 + 1800)) ∧
  business_seconds_between Office.zones Office.start (seconds (19850 * 86400 + 7 * 3600 + 1800))
    "Etc/GMT-2" Office.schedule Office.holidays = Ok 36000.
Proof.
  assert (add_business_seconds Office.zones Office.start 36000 "Etc/GMT-2" Office.schedule
    Office.holidays = Ok (seconds (19850 * 86400 + 7 * 3600 + 1800))) as H by (by vm_compute).
  split; [exact H|].
  apply (calendar_roundtrip Office.zones "Etc/GMT-2" Office.plus_two (hours 2));
    [done | apply Office.plus_two_fixed | apply whole_seconds | done | exact H |].
  by vm_compute.
Defined.

Lemma calendar_addition_witness :
  add_business_seconds Office.zones Office.start (-1) "Etc/GMT-2" Office.schedule Office.holidays =
  Err (SLAConfigurationError "sla_seconds_negative").
Proof.
  apply (calendar_addition Office.zones "Etc/GMT-2" Office.plus_two (hours 2));
    [done | apply Office.plus_two_fixed | done].
Defined.

(** A zone that springs forward one hour at 01:00 UTC on Sunday 2024-03-31 *)
Module SpringForward.
Definition switch : Z := seconds (19813 * 86400 + 3600).
Definition zone : Zone :=
  {| utc_offset t := if t <? switch then hours 1 else hours 2;
     wall_offset w := if w <? switch + hours 2 then hours 1 else hours 2 |}.
Definition zones (name : string) : option Zone := Some zone.
Definition sundays : json := JObj [("sunday", JArr [Office.interval "00:00" "23:00"])].
(** 00:30 local time *)
Definition start : Z := switch - minutes 90.
End SpringForward.

(** One minute each Monday, 529 of them, from Friday 2024-01-05 *)
Module Mondays.
Definition start : Z := seconds (19727 * 86400).
Definition schedule : json := JObj [("monday", JArr [Office.interval "00:00" "00:01"])].
Definition due : Z := 2023999260000000.
End Mondays.

(** two cases in which counting disagrees with adding.  Across a change of offset
    the addition works on wall times and loses the skipped hour: three business
    hours end after two.  And a result on the last day the addition looks at is out
    of reach of the count, which fails. *)
Theorem calendar_mismatches :
  (∃ e, add_business_seconds SpringForward.zones SpringForward.start 10800 "Europe/Zagreb"
         SpringForward.sundays JNull = Ok e ∧
       e = SpringForward.start + hours 2 ∧
       business_seconds_between SpringForward.zones SpringForward.start e "Europe/Zagreb"
         SpringForward.sundays JNull = Ok 7200) ∧
  add_business_seconds Office.zones Mondays.start (529 * 60) "Etc/GMT-2" Mondays.schedule JNull
    = Ok Mondays.due ∧
  business_seconds_between Office.zones Mondays.start Mondays.due "Etc/GMT-2" Mondays.schedule
    JNull = Err horizon_exceeded.
Proof.
  split; [|split; vm_compute; reflexivity].
  exists (SpringForward.start + hours 2). split; [vm_compute; reflexivity|].
  split; [reflexivity | vm_compute; reflexivity].
Qed.
