(* ===== verification/Policy.v ===== *)
(** * The policy for text that customers see

    [services/customer_visible_policy.py], with the part of Python's [re] that its
    patterns use: a pattern is a [regex], [search] the executable [re.search], and
    [occurs] its meaning, over ASCII text. *)

From S2P Require Import Prelude.

(** ** Patterns *)

Inductive regex :=
| Eps
| Class (p : Ascii.ascii → bool)
| Seq (r1 r2 : regex)
| Alt (r1 r2 : regex)
| Star (r : regex)
| WordBoundary.

(** A position in a text: the character before it and the rest *)
Definition position : Type := option Ascii.ascii * list Ascii.ascii.

Definition is_word (c : Ascii.ascii) : bool := is_alnum c || (code c =? 95).
Definition word_at (c : option Ascii.ascii) : bool := match c with Some c => is_word c | None => false end.
(** [\b] *)
Definition boundary (x : position) : bool := xorb (word_at (fst x)) (word_at (head (snd x))).

Fixpoint star_ends (f : position → list position) (fuel : nat) (x : position) : list position :=
  x :: match fuel with
       | O => []
       | S fuel => mjoin ((fun y => if (length (snd y) <? length (snd x))%nat then star_ends f fuel y else [])
                            <$> f x)
       end.

(** The positions at which a match that starts at [x] may end *)
Fixpoint ends (r : regex) (x : position) : list position :=
  match r with
  | Eps => [x]
  | Class p => match snd x with
               | c :: rest => if p c then [(Some c, rest)] else []
               | [] => []
               end
  | Seq r1 r2 => mjoin (ends r2 <$> ends r1 x)
  | Alt r1 r2 => ends r1 x ++ ends r2 x
  | Star r => star_ends (ends r) (length (snd x)) x
  | WordBoundary => if boundary x then [x] else []
  end.

Fixpoint positions (c : option Ascii.ascii) (s : list Ascii.ascii) : list position :=
  (c, s) :: match s with a :: s' => positions (Some a) s' | [] => [] end.

(** [re.search(pattern, text)] finds something *)
Definition search (r : regex) (s : string) : bool :=
  existsb (fun x => match ends r x with [] => false | _ => true end)
    (positions None (String.list_ascii_of_string s)).

Definition char (a : Ascii.ascii) : regex := Class (fun c => bool_decide (c = a)).
(** A literal text *)
Fixpoint chars (l : list Ascii.ascii) : regex :=
  match l with [] => Eps | a :: l => Seq (char a) (chars l) end.
Definition text (s : string) : regex := chars (String.list_ascii_of_string s).
(** [r{n,}] *)
Fixpoint at_least (n : nat) (r : regex) : regex :=
  match n with O => Star r | S n => Seq r (at_least n r) end.
Definition optional (r : regex) : regex := Alt r Eps.
Fixpoint any_of (l : list regex) : regex :=
  match l with [] => Class (fun _ => false) | [r] => r | r :: l => Alt r (any_of l) end.
Fixpoint all_of (l : list regex) : regex :=
  match l with [] => Eps | [r] => r | r :: l => Seq r (all_of l) end.
(** A character of the text or one that [p] accepts *)
Definition one_of (s : string) (p : Ascii.ascii → bool) : regex :=
  Class (fun c => p c || bool_decide (c ∈ String.list_ascii_of_string s)).
Definition none (_ : Ascii.ascii) : bool := false.

(** ** The policy *)

Definition MAX_CUSTOMER_VISIBLE_CHARS : Z := 4000.

(** The patterns with [re.IGNORECASE] are in lower case, for the text in lower case. *)
Definition _PRIVATE_KEY_RE : regex :=
  all_of [text "-----begin "; Star (one_of " " is_lower); text "private key-----"].
Definition _BEARER_TOKEN_RE : regex :=
  all_of [WordBoundary; text "bearer"; at_least 1 (Class is_space); at_least 20 (one_of "._~+/=-" is_alnum)].
Definition _GITHUB_TOKEN_RE : regex :=
  all_of [WordBoundary; text "gh"; one_of "pousr" none; text "_"; at_least 20 (Class is_alnum); WordBoundary].
Definition _JWT_RE : regex :=
  let part := at_least 8 (one_of "_-" is_alnum) in
  all_of [WordBoundary; text "eyJ"; part; text "."; part; text "."; part; WordBoundary].
Definition _ASSIGNED_SECRET_RE : regex :=
  let gap := optional (one_of "_ -" none) in
  let two a b := all_of [text a; gap; text b] in
  all_of [WordBoundary;
          any_of [two "api" "key"; two "secret" "key"; two "access" "token"; two "client" "secret";
                  text "password"; text "passwd"];
          Star (Class is_space); one_of ":=" none; Star (Class is_space);
          at_least 8 (Class (fun c => negb (is_space c || bool_decide (c ∈ String.list_ascii_of_string ",;"))))].

Definition _INTERNAL_REASONING_MARKERS : list string :=
  ["<think"; "</think"; "chain of thought"; "hidden reasoning"; "developer instruction";
   "developer message"; "system prompt"].

Module CustomerVisiblePolicyDecision.
Record t := { allowed : bool; level : string; reasons : list string; normalized_body : string }.
End CustomerVisiblePolicyDecision.

Definition blocked (reason body : string) : CustomerVisiblePolicyDecision.t :=
  {| CustomerVisiblePolicyDecision.allowed := false; CustomerVisiblePolicyDecision.level := "block";
     CustomerVisiblePolicyDecision.reasons := [reason];
     CustomerVisiblePolicyDecision.normalized_body := body |}.

(** The checks in order: a reason and whether it applies *)
Definition objections (body : string) : list (string * bool) :=
  let lowered := py_lower body in
  [("empty_customer_visible_body", negb (nonempty (py_strip body)));
   ("customer_visible_body_too_long", MAX_CUSTOMER_VISIBLE_CHARS <? str_len body);
   ("internal_reasoning_disclosure", existsb (fun m => search (text m) lowered) _INTERNAL_REASONING_MARKERS);
   ("private_key_disclosure", search _PRIVATE_KEY_RE lowered);
   ("bearer_token_disclosure", search _BEARER_TOKEN_RE lowered);
   ("repository_token_disclosure", search _GITHUB_TOKEN_RE body);
   ("jwt_disclosure", search _JWT_RE body);
   ("assigned_secret_disclosure", search _ASSIGNED_SECRET_RE lowered)].

Definition evaluate_customer_visible_policy (body : string) : CustomerVisiblePolicyDecision.t :=
  match list_find (fun o => snd o = true) (objections body) with
  | Some (_, (reason, _)) => blocked reason body
  | None => {| CustomerVisiblePolicyDecision.allowed := true; CustomerVisiblePolicyDecision.level := "allow";
               CustomerVisiblePolicyDecision.reasons := [];
               CustomerVisiblePolicyDecision.normalized_body := body |}
  end.

Definition format_policy_reasons (d : CustomerVisiblePolicyDecision.t) : string :=
  match CustomerVisiblePolicyDecision.reasons d with
  | [] => CustomerVisiblePolicyDecision.level d
  | l => String.concat "; " l
  end.

(** ** The meaning of patterns *)

Inductive matches : regex → position → position → Prop :=
| m_Eps x : matches Eps x x
| m_Class p c a rest : p a = true → matches (Class p) (c, a :: rest) (Some a, rest)
| m_Seq r1 r2 x y z : matches r1 x y → matches r2 y z → matches (Seq r1 r2) x z
| m_AltL r1 r2 x y : matches r1 x y → matches (Alt r1 r2) x y
| m_AltR r1 r2 x y : matches r2 x y → matches (Alt r1 r2) x y
| m_Star0 r x : matches (Star r) x x
| m_StarS r x y z : matches r x y → matches (Star r) y z → matches (Star r) x z
| m_Word x : boundary x = true → matches WordBoundary x x.

Definition occurs (r : regex) (s : string) : Prop :=
  ∃ x y, x ∈ positions None (String.list_ascii_of_string s) ∧ matches r x y.

(** A match goes forward, or stays where it is. *)
Lemma matches_forward r x y : matches r x y → y = x ∨ (length (snd y) < length (snd x))%nat.
Proof.
  induction 1 as [x|p c a rest Hp|r1 r2 x y z H1 IH1 H2 IH2|r1 r2 x y H IH|r1 r2 x y H IH|r x
    |r x y z H1 IH1 H2 IH2|x Hb]; try (by left); try done.
  - right. cbn. lia.
  - destruct IH1 as [->|?]; [done|]. destruct IH2 as [->|?]; [by right|right; lia].
  - destruct IH1 as [->|?]; [done|]. destruct IH2 as [->|?]; [by right|right; lia].
Qed.

Lemma elem_of_star_ends f n x y :
  y ∈ star_ends f n x → rtc (fun a b => b ∈ f a) x y.
Proof.
  revert x. induction n as [|n IH]; intros x; cbn [star_ends]; rewrite elem_of_cons; intros [->|H]; try done.
  - by apply elem_of_nil in H.
  - apply list_elem_of_join in H as (l & Hy & Hl). apply list_elem_of_fmap in Hl as (z & -> & Hz).
    destruct (length (snd z) <? length (snd x))%nat; [|by apply elem_of_nil in Hy].
    eapply rtc_l; [exact Hz|by apply IH].
Qed.

Lemma star_ends_complete r n x y :
  (∀ a b, matches r a b → b ∈ ends r a) →
  matches (Star r) x y → (length (snd x) ≤ n)%nat → y ∈ star_ends (ends r) n x.
Proof.
  intros Hr H. remember (Star r) as q eqn:Eq. revert n.
  induction H as [| | | | |r' x|r' x y z H1 _ H2 IH|]; try done; injection Eq as ->; intros n Hn.
  - destruct n; by left.
  - specialize (IH eq_refl). destruct (matches_forward _ _ _ H1) as [->|Hlt]; [by apply IH|].
    destruct n as [|n]; [lia|]. right. apply list_elem_of_join.
    exists (if (length (snd y) <? length (snd x))%nat then star_ends (ends r) n y else []). split.
    + rewrite (proj2 (Nat.ltb_lt _ _)) by done. apply IH. lia.
    + apply list_elem_of_fmap. exists y. split; [done|by apply Hr].
Qed.

Lemma ends_matches r x y : y ∈ ends r x ↔ matches r x y.
Proof.
  split.
  - revert x y. induction r as [|p|r1 IH1 r2 IH2|r1 IH1 r2 IH2|r IH|]; intros x y; cbn [ends].
    + rewrite list_elem_of_singleton. intros ->. constructor.
    + destruct x as [c [|a rest]]; cbn; [by intros ?%elem_of_nil|].
      destruct (p a) eqn:E; [|by intros ?%elem_of_nil]. rewrite list_elem_of_singleton. intros ->. by constructor.
    + intros (l & Hy & Hl)%list_elem_of_join. apply list_elem_of_fmap in Hl as (z & -> & Hz).
      eapply m_Seq; [by apply IH1|by apply IH2].
    + rewrite elem_of_app. intros [?|?]; [apply m_AltL; auto|apply m_AltR; auto].
    + intros H%elem_of_star_ends. induction H as [|a b c Hab _ IH']; [constructor|].
      eapply m_StarS; [by apply IH|done].
    + destruct (boundary x) eqn:E; [|by intros ?%elem_of_nil].
      rewrite list_elem_of_singleton. intros ->. by constructor.
  - revert x y. induction r as [|p|r1 IH1 r2 IH2|r1 IH1 r2 IH2|r IH|]; intros x y H.
    + inversion H; subst. by left.
    + inversion H as [|? ? ? ? E| | | | | |]; subst. cbn. rewrite E. by left.
    + inversion H as [| |? ? ? z ? H1 H2| | | | |]; subst. apply list_elem_of_join. exists (ends r2 z).
      split; [by apply IH2|]. apply list_elem_of_fmap. exists z. split; [done|by apply IH1].
    + cbn [ends]. rewrite elem_of_app. inversion H; subst; [left; by apply IH1|right; by apply IH2].
    + apply star_ends_complete; [exact IH|exact H|done].
    + inversion H as [| | | | | | |? E]; subst. cbn. rewrite E. by left.
Qed.

(** [search] decides whether the pattern occurs. *)
Lemma search_occurs r s : search r s = true ↔ occurs r s.
Proof.
  unfold search, occurs. rewrite existsb_exists. split.
  - intros (x & Hx & Hm). destruct (ends r x) as [|y l] eqn:E; [done|].
    exists x, y. split; [by apply list_elem_of_In|]. apply ends_matches. rewrite E. by left.
  - intros (x & y & Hx & Hm%ends_matches). exists x. split; [by apply list_elem_of_In|].
    destruct (ends r x); [by apply elem_of_nil in Hm|done].
Qed.

(** ** Literal texts *)

Lemma list_of_app a b :
  String.list_ascii_of_string (a +:+ b) = String.list_ascii_of_string a ++ String.list_ascii_of_string b.
Proof.
  induction a as [|c a IH]; [done|].
  change (c :: String.list_ascii_of_string (a +:+ b) = c :: (String.list_ascii_of_string a ++ String.list_ascii_of_string b)).
  by rewrite IH.
Qed.

Lemma chars_matches l x y : matches (chars l) x y → snd x = l ++ snd y.
Proof.
  revert x. induction l as [|a l IH]; cbn [chars]; intros x H.
  - by inversion H.
  - inversion H as [| |? ? ? z ? H1 H2| | | | |]; subst. apply IH in H2.
    inversion H1 as [|p c b rest Hb| | | | | |]; subst. apply bool_decide_eq_true in Hb as ->. cbn in *. by rewrite H2.
Qed.

Lemma chars_match l c t : ∃ y, matches (chars l) (c, l ++ t) y.
Proof.
  revert c. induction l as [|a l IH]; intros c; cbn [chars].
  - exists (c, t). constructor.
  - destruct (IH (Some a)) as [y Hy]. exists y. eapply m_Seq; [|exact Hy].
    constructor. by apply bool_decide_eq_true.
Qed.

Lemma elem_of_positions c l x : x ∈ positions c l → ∃ pre, l = pre ++ snd x.
Proof.
  revert c. induction l as [|a l IH]; cbn [positions]; intros c; rewrite elem_of_cons.
  - intros [->|H]; [by exists []|by apply elem_of_nil in H].
  - intros [->|H]; [by exists []|]. destruct (IH _ H) as [pre ->]. by exists (a :: pre).
Qed.

Lemma positions_all c pre t : ∃ c', (c', t) ∈ positions c (pre ++ t).
Proof.
  revert c. induction pre as [|a pre IH]; intros c.
  - exists c. destruct t; by left.
  - destruct (IH (Some a)) as [c' H]. exists c'. cbn [app positions]. by right.
Qed.

(** A literal text occurs where it is a part. *)
Lemma occurs_text m s : occurs (text m) s ↔ ∃ a b, s = a +:+ m +:+ b.
Proof.
  unfold occurs, text. split.
  - intros (x & y & Hx & Hm). destruct (elem_of_positions _ _ _ Hx) as [pre E].
    apply chars_matches in Hm. exists (String.string_of_list_ascii pre), (String.string_of_list_ascii (snd y)).
    rewrite <- (String.string_of_list_ascii_of_string s), <- (String.string_of_list_ascii_of_string m), E, Hm.
    apply (f_equal String.string_of_list_ascii) in E.
    assert (∀ a b, String.string_of_list_ascii (a ++ b) = String.string_of_list_ascii a +:+ String.string_of_list_ascii b) as Happ.
    { intros a b. induction a as [|c a IH]; [done|].
      change (String c (String.string_of_list_ascii (a ++ b)) = String c (String.string_of_list_ascii a +:+ String.string_of_list_ascii b)).
      by rewrite IH. }
    by rewrite !Happ.
  - intros (a & b & ->). rewrite !list_of_app.
    destruct (positions_all None (String.list_ascii_of_string a)
      (String.list_ascii_of_string m ++ String.list_ascii_of_string b)) as [c Hc].
    destruct (chars_match (String.list_ascii_of_string m) c (String.list_ascii_of_string b)) as [y Hy].
    by exists (c, String.list_ascii_of_string m ++ String.list_ascii_of_string b), y.
Qed.

(** ** What the policy promises *)

(** Text that may be sent *)
Record presentable (body : string) : Prop := {
  not_blank : py_strip body ≠ EmptyString;
  not_too_long : str_len body ≤ MAX_CUSTOMER_VISIBLE_CHARS;
  no_reasoning : ∀ m, m ∈ _INTERNAL_REASONING_MARKERS → ¬ ∃ a b, py_lower body = a +:+ m +:+ b;
  no_private_key : ¬ occurs _PRIVATE_KEY_RE (py_lower body);
  no_bearer_token : ¬ occurs _BEARER_TOKEN_RE (py_lower body);
  no_repository_token : ¬ occurs _GITHUB_TOKEN_RE body;
  no_jwt : ¬ occurs _JWT_RE body;
  no_assigned_secret : ¬ occurs _ASSIGNED_SECRET_RE (py_lower body) }.

Lemma search_false r s : search r s = false ↔ ¬ occurs r s.
Proof. rewrite <- search_occurs. by destruct (search r s). Qed.

Lemma no_markers s : existsb (fun m => search (text m) s) _INTERNAL_REASONING_MARKERS = false ↔
  ∀ m, m ∈ _INTERNAL_REASONING_MARKERS → ¬ ∃ a b, s = a +:+ m +:+ b.
Proof.
  rewrite <- not_true_iff_false, existsb_exists. split.
  - intros H m Hm. rewrite <- occurs_text, <- search_occurs. intros E. apply H. exists m.
    split; [by apply list_elem_of_In|done].
  - intros H (m & Hm & E). apply (H m); [by apply list_elem_of_In|]. by apply occurs_text, search_occurs.
Qed.

Lemma no_objection body : Forall (fun o => snd o = false) (objections body) ↔ presentable body.
Proof.
  unfold objections. cbv zeta. rewrite !list.Forall_cons, list.Forall_nil. cbn [snd].
  rewrite no_markers, !search_false, Z.ltb_ge, negb_false_iff. unfold nonempty. rewrite negb_true_iff, bool_decide_eq_false.
  split; [intros (? & ? & ? & ? & ? & ? & ? & ? & _); by split|intros []; by split_and!].
Qed.

Lemma evaluate_keeps_body body :
  CustomerVisiblePolicyDecision.normalized_body (evaluate_customer_visible_policy body) = body.
Proof. unfold evaluate_customer_visible_policy. by destruct (list_find _ _) as [[i [reason b]]|]. Qed.

Lemma evaluate_allowed body :
  CustomerVisiblePolicyDecision.allowed (evaluate_customer_visible_policy body) = true ↔ presentable body.
Proof.
  rewrite <- no_objection. unfold evaluate_customer_visible_policy.
  destruct (list_find (fun o => snd o = true) (objections body)) as [[i [reason b]]|] eqn:E.
  - split; [done|]. apply list_find_Some in E as (Hi & Hb & _). cbn in Hb. subst b.
    rewrite list.Forall_forall. intros H. assert (snd (reason, true) = false) as H'; [|done].
    by apply H, (list_elem_of_lookup_2 _ i).
  - split; [|done]. intros _. apply list_find_None in E. eapply list.Forall_impl; [exact E|].
    intros o Ho. cbn in Ho. by destruct (snd o).
Qed.

(** C35: The policy lets through exactly presentable text: not blank, at most 4000
    characters, without a marker of internal reasoning, and without a private key, a
    bearer, repository or web token or an assigned secret, as the patterns describe them.
    It never changes the text, and a refusal names the first objection. *)
Theorem customer_visible_policy_exact body :
  let d := evaluate_customer_visible_policy body in
  CustomerVisiblePolicyDecision.normalized_body d = body ∧
  (CustomerVisiblePolicyDecision.allowed d = true ↔ presentable body) ∧
  (¬ presentable body → ∃ before reason after, objections body = before ++ (reason, true) :: after ∧
     Forall (fun o => snd o = false) before ∧ d = blocked reason body).
Proof.
  cbv zeta. split; [apply evaluate_keeps_body|]. split; [apply evaluate_allowed|]. rewrite <- evaluate_allowed.
  unfold evaluate_customer_visible_policy.
  destruct (list_find (fun o => snd o = true) (objections body)) as [[i [reason b]]|] eqn:E; [|done]. intros _.
  apply list_find_Some in E as (Hi & Hb & Hbefore). cbn in Hb. subst b.
  exists (take i (objections body)), reason, (drop (S i) (objections body)). split_and!; [by rewrite take_drop_middle| |done].
  apply list.Forall_forall. intros o (j & Hj)%list_elem_of_lookup. apply lookup_take_Some in Hj as [Hj Hlt].
  specialize (Hbefore j o Hj Hlt). by destruct (snd o).
Qed.

Example leaks_are_blocked :
  CustomerVisiblePolicyDecision.reasons (evaluate_customer_visible_policy
    "use Bearer abcdefghijklmnopqrstuvwxyz") = ["bearer_token_disclosure"] ∧
  CustomerVisiblePolicyDecision.reasons (evaluate_customer_visible_policy
    "PassWord = hunter2hunter2") = ["assigned_secret_disclosure"] ∧
  CustomerVisiblePolicyDecision.allowed (evaluate_customer_visible_policy
    "Your password was reset.") = true.
Proof. split_and!; vm_compute; reflexivity. Qed.
