(* ===== verification/Enums.v ===== *)
(** * Enumerations and the ticket state machine

    [enums.py] and [services/state_machine.py].  A [class X(str, Enum)] is an
    inductive type with the [StrEnum] interface: the string of each member and
    the lookup [X(value)] by string. *)

From S2P Require Import Prelude.

(** ** The interface of a [str] enumeration *)

Class StrEnum (E : Type) `{EqDecision E} := {
  members : list E;
  value : E → string;
  members_complete : ∀ e : E, e ∈ members;
  value_inj : Inj (=) (=) value
}.

#[export] Existing Instance value_inj.

(** [X(text)] *)
Definition of_value {E} `{StrEnum E} (text : string) : option E :=
  head (filter (fun e => value e = text) members).

Lemma of_value_value {E} `{StrEnum E} (e : E) : of_value (value e) = Some e.
Proof.
  unfold of_value. pose proof (members_complete e) as He.
  induction members as [|x l IH]; [by apply elem_of_nil in He|].
  rewrite filter_cons. case_decide as Hx.
  - apply (inj value) in Hx as ->. done.
  - apply IH. apply elem_of_cons in He as [->|?]; [done|assumption].
Qed.

Lemma of_value_Some {E} `{StrEnum E} text (e : E) : of_value text = Some e → value e = text.
Proof.
  unfold of_value. induction members as [|x l IH]; [done|].
  rewrite filter_cons. case_decide as Hx; [by intros [= <-] | exact IH].
Qed.

Ltac solve_enum :=
  match goal with
  | |- ∀ e, e ∈ _ => intros []; repeat (first [left; reflexivity | right])
  | |- Inj _ _ _ => intros [] [] ?; (reflexivity || discriminate)
  end.

(** ** [enums.py] *)

Module UserRole.
Inductive t := admin | manager | lead | agent | auditor.
#[global] Instance eq_dec : EqDecision t.
Proof. solve_decision. Defined.
#[global] Program Instance enum : StrEnum t := {|
  members := [admin; manager; lead; agent; auditor];
  value e := match e with admin => "admin" | manager => "manager" | lead => "lead"
             | agent => "agent" | auditor => "auditor" end |}.
Solve Obligations with solve_enum.
End UserRole.

Module TicketSource.
Inductive t := manual | user_message | ai_intake | api.
#[global] Instance eq_dec : EqDecision t.
Proof. solve_decision. Defined.
#[global] Program Instance enum : StrEnum t := {|
  members := [manual; user_message; ai_intake; api];
  value e := match e with manual => "manual" | user_message => "user_message"
             | ai_intake => "ai_intake" | api => "api" end |}.
Solve Obligations with solve_enum.
End TicketSource.

Module SourceChannel.
Inductive t := whatsapp | telegram | sms | email | web_chat | internal.
#[global] Instance eq_dec : EqDecision t.
Proof. solve_decision. Defined.
#[global] Program Instance enum : StrEnum t := {|
  members := [whatsapp; telegram; sms; email; web_chat; internal];
  value e := match e with whatsapp => "whatsapp" | telegram => "telegram" | sms => "sms"
             | email => "email" | web_chat => "web_chat" | internal => "internal" end |}.
Solve Obligations with solve_enum.
End SourceChannel.

Module TicketPriority.
Inductive t := low | medium | high | urgent.
#[global] Instance eq_dec : EqDecision t.
Proof. solve_decision. Defined.
#[global] Program Instance enum : StrEnum t := {|
  members := [low; medium; high; urgent];
  value e := match e with low => "low" | medium => "medium" | high => "high"
             | urgent => "urgent" end |}.
Solve Obligations with solve_enum.
End TicketPriority.

Module TicketStatus.
Inductive t := new | pending_assignment | in_progress | waiting_customer | waiting_internal
  | escalated | resolved | closed | canceled.
#[global] Instance eq_dec : EqDecision t.
Proof. solve_decision. Defined.
#[global] Program Instance enum : StrEnum t := {|
  members := [new; pending_assignment; in_progress; waiting_customer; waiting_internal;
              escalated; resolved; closed; canceled];
  value e := match e with new => "new" | pending_assignment => "pending_assignment"
             | in_progress => "in_progress" | waiting_customer => "waiting_customer"
             | waiting_internal => "waiting_internal" | escalated => "escalated"
             | resolved => "resolved" | closed => "closed" | canceled => "canceled" end |}.
Solve Obligations with solve_enum.
End TicketStatus.

Module ResolutionCategory.
Inductive t := none | solved | duplicate | no_response | invalid_request | canceled_by_request.
#[global] Instance eq_dec : EqDecision t.
Proof. solve_decision. Defined.
#[global] Program Instance enum : StrEnum t := {|
  members := [none; solved; duplicate; no_response; invalid_request; canceled_by_request];
  value e := match e with none => "none" | solved => "solved" | duplicate => "duplicate"
             | no_response => "no_response" | invalid_request => "invalid_request"
             | canceled_by_request => "canceled_by_request" end |}.
Solve Obligations with solve_enum.
End ResolutionCategory.

Module ConversationState.
Inductive t := ai_active | human_review_required | human_owned | ready_to_reply
  | replied_to_customer | waiting_customer | reopened_by_customer.
#[global] Instance eq_dec : EqDecision t.
Proof. solve_decision. Defined.
#[global] Program Instance enum : StrEnum t := {|
  members := [ai_active; human_review_required; human_owned; ready_to_reply;
              replied_to_customer; waiting_customer; reopened_by_customer];
  value e := match e with ai_active => "ai_active"
             | human_review_required => "human_review_required" | human_owned => "human_owned"
             | ready_to_reply => "ready_to_reply" | replied_to_customer => "replied_to_customer"
             | waiting_customer => "waiting_customer"
             | reopened_by_customer => "reopened_by_customer" end |}.
Solve Obligations with solve_enum.
End ConversationState.

Module EventType.
Inductive t := ticket_created | status_changed | assigned | escalated | reopened | comment_added
  | internal_note_added | attachment_added | outbound_draft_saved | outbound_queued
  | outbound_sent | outbound_failed | outbound_retry_scheduled | outbound_dead
  | ai_intake_added | sla_breached | field_updated | integration_request_received
  | conversation_state_changed.
#[global] Instance eq_dec : EqDecision t.
Proof. solve_decision. Defined.
#[global] Program Instance enum : StrEnum t := {|
  members := [ticket_created; status_changed; assigned; escalated; reopened; comment_added;
              internal_note_added; attachment_added; outbound_draft_saved; outbound_queued;
              outbound_sent; outbound_failed; outbound_retry_scheduled; outbound_dead;
              ai_intake_added; sla_breached; field_updated; integration_request_received;
              conversation_state_changed];
  value e := match e with ticket_created => "ticket_created"
             | status_changed => "status_changed" | assigned => "assigned"
             | escalated => "escalated" | reopened => "reopened"
             | comment_added => "comment_added" | internal_note_added => "internal_note_added"
             | attachment_added => "attachment_added"
             | outbound_draft_saved => "outbound_draft_saved"
             | outbound_queued => "outbound_queued" | outbound_sent => "outbound_sent"
             | outbound_failed => "outbound_failed"
             | outbound_retry_scheduled => "outbound_retry_scheduled"
             | outbound_dead => "outbound_dead" | ai_intake_added => "ai_intake_added"
             | sla_breached => "sla_breached" | field_updated => "field_updated"
             | integration_request_received => "integration_request_received"
             | conversation_state_changed => "conversation_state_changed" end |}.
Solve Obligations with solve_enum.
End EventType.

Module NoteVisibility.
Inductive t := external | internal.
#[global] Instance eq_dec : EqDecision t.
Proof. solve_decision. Defined.
#[global] Program Instance enum : StrEnum t := {|
  members := [external; internal];
  value e := match e with external => "external" | internal => "internal" end |}.
Solve Obligations with solve_enum.
End NoteVisibility.

Module MessageStatus.
Inductive t := draft | pending | processing | sent | failed | dead.
#[global] Instance eq_dec : EqDecision t.
Proof. solve_decision. Defined.
#[global] Program Instance enum : StrEnum t := {|
  members := [draft; pending; processing; sent; failed; dead];
  value e := match e with draft => "draft" | pending => "pending" | processing => "processing"
             | sent => "sent" | failed => "failed" | dead => "dead" end |}.
Solve Obligations with solve_enum.
End MessageStatus.

Module JobStatus.
Inductive t := pending | processing | done | failed | dead.
#[global] Instance eq_dec : EqDecision t.
Proof. solve_decision. Defined.
#[global] Program Instance enum : StrEnum t := {|
  members := [pending; processing; done; failed; dead];
  value e := match e with pending => "pending" | processing => "processing" | done => "done"
             | failed => "failed" | dead => "dead" end |}.
Solve Obligations with solve_enum.
End JobStatus.

(** ** [services/state_machine.py] *)

Module StateMachine.
Import TicketStatus.

Definition ALLOWED_TRANSITIONS (s : TicketStatus.t) : list TicketStatus.t :=
  match s with
  | new => [pending_assignment; in_progress; canceled]
  | pending_assignment => [in_progress; canceled; escalated]
  | in_progress => [waiting_customer; waiting_internal; resolved; canceled; escalated]
  | waiting_customer => [in_progress; resolved; canceled; escalated]
  | waiting_internal => [in_progress; resolved; canceled; escalated]
  | escalated => [in_progress; waiting_internal; resolved; canceled]
  | resolved => [closed]
  | closed => []
  | canceled => []
  end.

Definition REQUIRES_NOTE : list TicketStatus.t := [canceled; closed].
Definition TERMINAL_STATUSES : list TicketStatus.t := [closed; canceled].
Definition PAUSE_CANDIDATES : list TicketStatus.t := [waiting_customer; waiting_internal].

Definition validate_transition (current_status new_status : TicketStatus.t) : result unit :=
  if bool_decide (new_status ∈ ALLOWED_TRANSITIONS current_status) then Ok tt
  else Err (HTTPException 400
              ("Invalid transition: " +:+ value current_status +:+ " -> " +:+ value new_status)).

Definition requires_note (new_status : TicketStatus.t) : bool :=
  bool_decide (new_status ∈ REQUIRES_NOTE).

Definition is_terminal (status_value : TicketStatus.t) : bool :=
  bool_decide (status_value ∈ TERMINAL_STATUSES).

(** One accepted status change *)
Definition transition (s s' : TicketStatus.t) : Prop := validate_transition s s' = Ok tt.

#[global] Instance transition_dec s s' : Decision (transition s s').
Proof. unfold transition. apply _. Defined.

Lemma transition_spec s s' : transition s s' ↔ s' ∈ ALLOWED_TRANSITIONS s.
Proof.
  unfold transition, validate_transition. case_bool_decide; split; [done|done|discriminate|done].
Qed.

Lemma transition_closed_from s : transition s closed → s = resolved.
Proof. destruct s; vm_compute; [discriminate..|done|discriminate|discriminate]. Qed.

Lemma transition_not_new s : ¬ transition s new.
Proof. destruct s; vm_compute; discriminate. Qed.

Lemma transition_terminal s s' : is_terminal s = true → ¬ transition s s'.
Proof. destruct s, s'; vm_compute; discriminate. Qed.

Lemma paths_to_closed s : s ≠ closed → rtc transition s closed → rtc transition s resolved.
Proof.
  intros Hs H. apply rtc_inv_r in H as [->|(y & Hy & Hc)]; [done|].
  by apply transition_closed_from in Hc as ->.
Qed.

(** A route to [closed], for every status that is not terminal *)
Definition route (s : TicketStatus.t) : list TicketStatus.t :=
  match s with
  | new | pending_assignment => [in_progress; resolved; closed]
  | in_progress | waiting_customer | waiting_internal | escalated => [resolved; closed]
  | resolved => [closed]
  | closed | canceled => []
  end.

Fixpoint follows (s : TicketStatus.t) (l : list TicketStatus.t) : bool :=
  match l with [] => true | s' :: l' => bool_decide (transition s s') && follows s' l' end.

Fixpoint endpoint (s : TicketStatus.t) (l : list TicketStatus.t) : TicketStatus.t :=
  match l with [] => s | s' :: l' => endpoint s' l' end.

Lemma follows_rtc s l : follows s l = true → rtc transition s (endpoint s l).
Proof.
  revert s. induction l as [|x l IH]; intros s; [constructor|].
  intros [Hx%bool_decide_eq_true Hl]%andb_true_iff. eapply rtc_l; [exact Hx|].
  by apply IH.
Qed.

(** the ticket life cycle.  The terminal statuses have no way out and are the
    only ones without; every other status has a route to [closed]; each route to
    [closed] goes through [resolved]; no transition leads back to [new]; the
    statuses that need a note are exactly the terminal ones. *)
Theorem ticket_state_machine :
  (∀ s, is_terminal s = true ↔ ∀ s', ¬ transition s s') ∧
  (∀ s, is_terminal s = false → rtc transition s closed) ∧
  (∀ s, s ≠ closed → rtc transition s closed → rtc transition s resolved) ∧
  (∀ s s', tc transition s s' → s' ≠ new) ∧
  (∀ s, requires_note s = is_terminal s).
Proof.
  split_and!.
  - intros s. split; [intros Hs s'; by apply transition_terminal|].
    intros H. destruct s; try reflexivity; exfalso;
      [apply (H canceled)|apply (H canceled)|apply (H canceled)|apply (H canceled)
      |apply (H canceled)|apply (H canceled)|apply (H closed)]; by vm_compute.
  - intros s Hs. pose proof (follows_rtc s (route s)) as H.
    destruct s; try discriminate Hs; apply H; by vm_compute.
  - apply paths_to_closed.
  - intros s s'. induction 1 as [x y H|x y z _ _ IH]; [|done].
    intros ->. by apply transition_not_new in H.
  - by intros [].
Qed.
End StateMachine.
