(* ===== verification/Models.v ===== *)
(** * Rows and tables

    The SQLAlchemy models of [models.py], [models_case_governance.py] and
    [models_sla_runtime.py] that the ticket domain reads and writes, one record
    per class with its columns, and the database they live in.

    The write-once text columns of [Ticket] are one map by column name
    ([texts]), since the code handles them by name.  [updated_at] is kept only on
    [Ticket], where the code reads and sets it. *)

From S2P Require Import Prelude Calendar Enums.

(** ** The directory: tenants, teams, markets, accounts, users *)

Module Tenant.
Record t := {
  id : Z; tenant_key : string; display_name : string; is_active : bool }.
#[global] Instance eta : Settable t := fun r => {|
  id := id r; tenant_key := tenant_key r; display_name := display_name r;
  is_active := is_active r |}.
End Tenant.

Module Team.
Record t := {
  id : Z; tenant_id : option Z; tenant_assignment_source : option string;
  tenant_assignment_version : option string; name : string; team_type : string;
  market_id : option Z; is_active : bool }.
#[global] Instance eta : Settable t := fun r => {|
  id := id r; tenant_id := tenant_id r; tenant_assignment_source := tenant_assignment_source r;
  tenant_assignment_version := tenant_assignment_version r; name := name r;
  team_type := team_type r; market_id := market_id r; is_active := is_active r |}.
End Team.

Module Market.
Record t := {
  id : Z; tenant_id : option Z; tenant_assignment_source : option string;
  tenant_assignment_version : option string; code : string; name : string;
  country_code : string; language_code : option string; timezone : option string;
  is_active : bool }.
#[global] Instance eta : Settable t := fun r => {|
  id := id r; tenant_id := tenant_id r; tenant_assignment_source := tenant_assignment_source r;
  tenant_assignment_version := tenant_assignment_version r; code := code r; name := name r;
  country_code := country_code r; language_code := language_code r; timezone := timezone r;
  is_active := is_active r |}.
End Market.

Module ChannelAccount.
Record t := {
  id : Z; tenant_id : option Z; tenant_assignment_source : option string;
  tenant_assignment_version : option string; provider : string; account_id : string;
  display_name : option string; market_id : option Z; is_active : bool; priority : Z;
  health_status : string; fallback_account_id : option string }.
#[global] Instance eta : Settable t := fun r => {|
  id := id r; tenant_id := tenant_id r; tenant_assignment_source := tenant_assignment_source r;
  tenant_assignment_version := tenant_assignment_version r; provider := provider r;
  account_id := account_id r; display_name := display_name r; market_id := market_id r;
  is_active := is_active r; priority := priority r; health_status := health_status r;
  fallback_account_id := fallback_account_id r |}.
End ChannelAccount.

Module User.
Record t := {
  id : Z; tenant_id : option Z; tenant_assignment_source : option string;
  tenant_assignment_version : option string; username : string; display_name : string;
  email : option string; role : UserRole.t; team_id : option Z; is_active : bool }.
#[global] Instance eta : Settable t := fun r => {|
  id := id r; tenant_id := tenant_id r; tenant_assignment_source := tenant_assignment_source r;
  tenant_assignment_version := tenant_assignment_version r; username := username r;
  display_name := display_name r; email := email r; role := role r; team_id := team_id r;
  is_active := is_active r |}.
End User.

Module UserCapabilityOverride.
Record t := {
  id : Z; user_id : Z; capability : string; allowed : bool }.
#[global] Instance eta : Settable t := fun r => {|
  id := id r; user_id := user_id r; capability := capability r; allowed := allowed r |}.
End UserCapabilityOverride.

Module Customer.
Record t := {
  id : Z; tenant_id : option Z; tenant_assignment_source : option string;
  tenant_assignment_version : option string; name : string; email : option string;
  email_normalized : option string; phone : option string; phone_normalized : option string;
  external_ref : option string }.
#[global] Instance eta : Settable t := fun r => {|
  id := id r; tenant_id := tenant_id r; tenant_assignment_source := tenant_assignment_source r;
  tenant_assignment_version := tenant_assignment_version r; name := name r; email := email r;
  email_normalized := email_normalized r; phone := phone r;
  phone_normalized := phone_normalized r; external_ref := external_ref r |}.
End Customer.

(** ** Service-level agreements *)

Module SLAPolicy.
Record t := {
  id : Z; name : string; priority : TicketPriority.t; first_response_minutes : Z;
  resolution_minutes : Z; pause_on_waiting_customer : bool; pause_on_waiting_internal : bool }.
#[global] Instance eta : Settable t := fun r => {|
  id := id r; name := name r; priority := priority r;
  first_response_minutes := first_response_minutes r;
  resolution_minutes := resolution_minutes r;
  pause_on_waiting_customer := pause_on_waiting_customer r;
  pause_on_waiting_internal := pause_on_waiting_internal r |}.
End SLAPolicy.

Module SLAPolicyRevision.
Record t := {
  id : Z; policy_id : Z; version : Z; tenant_id : option Z; is_global_template : bool;
  market_id : option Z; channel_key : option string; scenario_key : option string;
  status : string; timezone_name : string; weekly_schedule_json : json; holidays_json : json;
  first_response_minutes : Z; resolution_minutes : Z; action_minutes : option Z;
  notification_minutes : option Z; risk_window_minutes : Z; pause_reasons_json : json;
  effective_from : Z; effective_to : option Z; approved_by : option Z; created_at : Z }.
#[global] Instance eta : Settable t := fun r => {|
  id := id r; policy_id := policy_id r; version := version r; tenant_id := tenant_id r;
  is_global_template := is_global_template r; market_id := market_id r;
  channel_key := channel_key r; scenario_key := scenario_key r; status := status r;
  timezone_name := timezone_name r; weekly_schedule_json := weekly_schedule_json r;
  holidays_json := holidays_json r; first_response_minutes := first_response_minutes r;
  resolution_minutes := resolution_minutes r; action_minutes := action_minutes r;
  notification_minutes := notification_minutes r; risk_window_minutes := risk_window_minutes r;
  pause_reasons_json := pause_reasons_json r; effective_from := effective_from r;
  effective_to := effective_to r; approved_by := approved_by r; created_at := created_at r |}.
End SLAPolicyRevision.

Module TicketSLAAssignment.
Record t := {
  id : Z; ticket_id : Z; policy_revision_id : Z; snapshot_json : json; assigned_at : Z;
  assigned_by : option Z }.
#[global] Instance eta : Settable t := fun r => {|
  id := id r; ticket_id := ticket_id r; policy_revision_id := policy_revision_id r;
  snapshot_json := snapshot_json r; assigned_at := assigned_at r; assigned_by := assigned_by r |}.
End TicketSLAAssignment.

Module TicketSLAPauseInterval.
Record t := {
  id : Z; ticket_id : Z; reason_code : string; started_at : Z; ended_at : option Z;
  started_by : option Z; ended_by : option Z; created_at : Z }.
#[global] Instance eta : Settable t := fun r => {|
  id := id r; ticket_id := ticket_id r; reason_code := reason_code r;
  started_at := started_at r; ended_at := ended_at r; started_by := started_by r;
  ended_by := ended_by r; created_at := created_at r |}.
End TicketSLAPauseInterval.

Module TicketSLATarget.
Record t := {
  id : Z; ticket_id : Z; assignment_id : Z; first_response_due_at : Z; resolution_due_at : Z;
  first_response_risk_at : Z; resolution_risk_at : Z; paused_seconds : Z; calculated_at : Z;
  updated_at : Z; source_revision : option Z }.
#[global] Instance eta : Settable t := fun r => {|
  id := id r; ticket_id := ticket_id r; assignment_id := assignment_id r;
  first_response_due_at := first_response_due_at r; resolution_due_at := resolution_due_at r;
  first_response_risk_at := first_response_risk_at r;
  resolution_risk_at := resolution_risk_at r; paused_seconds := paused_seconds r;
  calculated_at := calculated_at r; updated_at := updated_at r;
  source_revision := source_revision r |}.
End TicketSLATarget.

(** ** Tickets and what hangs on them *)

Module Ticket.
Record t := {
  id : Z; tenant_id : option Z; tenant_assignment_source : option string;
  tenant_assignment_version : option string; ticket_no : string; customer_id : option Z;
  source : TicketSource.t; source_channel : SourceChannel.t; priority : TicketPriority.t;
  status : TicketStatus.t; assignee_id : option Z; team_id : option Z; created_by : option Z;
  market_id : option Z; conversation_state : ConversationState.t;
  channel_account_id : option Z; sla_policy_id : option Z; first_response_at : option Z;
  first_response_due_at : option Z; resolution_due_at : option Z; resolved_at : option Z;
  closed_at : option Z; reopen_count : Z; resolution_category : ResolutionCategory.t;
  sla_paused : bool; sla_paused_at : option Z; sla_pause_reason : option string;
  total_paused_seconds : Z; first_response_breached : bool; resolution_breached : bool;
  ai_confidence : option float; texts : gmap string string; created_at : Z; updated_at : Z }.
#[global] Instance eta : Settable t := fun r => {|
  id := id r; tenant_id := tenant_id r; tenant_assignment_source := tenant_assignment_source r;
  tenant_assignment_version := tenant_assignment_version r; ticket_no := ticket_no r;
  customer_id := customer_id r; source := source r; source_channel := source_channel r;
  priority := priority r; status := status r; assignee_id := assignee_id r;
  team_id := team_id r; created_by := created_by r; market_id := market_id r;
  conversation_state := conversation_state r; channel_account_id := channel_account_id r;
  sla_policy_id := sla_policy_id r; first_response_at := first_response_at r;
  first_response_due_at := first_response_due_at r; resolution_due_at := resolution_due_at r;
  resolved_at := resolved_at r; closed_at := closed_at r; reopen_count := reopen_count r;
  resolution_category := resolution_category r; sla_paused := sla_paused r;
  sla_paused_at := sla_paused_at r; sla_pause_reason := sla_pause_reason r;
  total_paused_seconds := total_paused_seconds r;
  first_response_breached := first_response_breached r;
  resolution_breached := resolution_breached r; ai_confidence := ai_confidence r;
  texts := texts r; created_at := created_at r; updated_at := updated_at r |}.
End Ticket.

(** The nullable and non-nullable text columns held in [texts] *)
Definition text_columns : list string :=
  ["title"; "description"; "category"; "sub_category"; "tracking_number"; "country_code";
   "ai_summary"; "ai_classification"; "case_type"; "issue_summary"; "customer_request";
   "source_chat_id"; "source_dedupe_key"; "required_action"; "missing_fields";
   "last_customer_message"; "customer_update"; "resolution_summary"; "last_human_update";
   "last_ai_update"; "requested_time"; "destination"; "preferred_reply_channel";
   "preferred_reply_contact"].

Module TicketEvent.
Record t := {
  ticket_id : Z; actor_id : option Z; event_type : EventType.t; field_name : option string;
  old_value : option string; new_value : option string; note : option string;
  payload_json : json }.
#[global] Instance eta : Settable t := fun r => {|
  ticket_id := ticket_id r; actor_id := actor_id r; event_type := event_type r;
  field_name := field_name r; old_value := old_value r; new_value := new_value r;
  note := note r; payload_json := payload_json r |}.
End TicketEvent.

Module TicketComment.
Record t := {
  id : Z; ticket_id : Z; author_id : option Z; body : string; visibility : NoteVisibility.t }.
#[global] Instance eta : Settable t := fun r => {|
  id := id r; ticket_id := ticket_id r; author_id := author_id r; body := body r;
  visibility := visibility r |}.
End TicketComment.

Module TicketInternalNote.
Record t := {
  id : Z; ticket_id : Z; author_id : option Z; body : string }.
#[global] Instance eta : Settable t := fun r => {|
  id := id r; ticket_id := ticket_id r; author_id := author_id r; body := body r |}.
End TicketInternalNote.

Module TicketAttachment.
Record t := {
  id : Z; ticket_id : Z; uploaded_by : option Z; file_name : string;
  storage_key : option string; file_path : option string; file_url : option string;
  mime_type : option string; file_size : option Z; visibility : NoteVisibility.t }.
#[global] Instance eta : Settable t := fun r => {|
  id := id r; ticket_id := ticket_id r; uploaded_by := uploaded_by r; file_name := file_name r;
  storage_key := storage_key r; file_path := file_path r; file_url := file_url r;
  mime_type := mime_type r; file_size := file_size r; visibility := visibility r |}.
End TicketAttachment.

Module TicketAIIntake.
Record t := {
  id : Z; ticket_id : Z; summary : string; classification : option string;
  confidence : option float; missing_fields_json : option json;
  recommended_action : option string; suggested_reply : option string;
  raw_payload_json : option json; human_override_reason : option string; created_by : option Z;
  market_id : option Z; country_code : option string }.
#[global] Instance eta : Settable t := fun r => {|
  id := id r; ticket_id := ticket_id r; summary := summary r;
  classification := classification r; confidence := confidence r;
  missing_fields_json := missing_fields_json r; recommended_action := recommended_action r;
  suggested_reply := suggested_reply r; raw_payload_json := raw_payload_json r;
  human_override_reason := human_override_reason r; created_by := created_by r;
  market_id := market_id r; country_code := country_code r |}.
End TicketAIIntake.

Module TicketOutboundMessage.
Record t := {
  id : Z; ticket_id : Z; channel : SourceChannel.t; status : MessageStatus.t;
  subject : option string; body : string; origin : option string;
  runtime_trace_id : option string; runtime_contract_version : option string;
  runtime_signature : option string; runtime_contract_payload_json : option json;
  runtime_contract_payload_sha256 : option string; runtime_reply_type : option string;
  safety_status : option string; provider_status : option string;
  error_message : option string; created_by : option Z; sent_at : option Z; retry_count : Z;
  max_retries : Z; last_attempt_at : option Z; next_retry_at : option Z; locked_at : option Z;
  locked_by : option string; provider_message_id : option string;
  mailbox_thread_id : option string; mailbox_message_id : option string;
  mailbox_references : option string; failure_code : option string;
  failure_reason : option string; delivery_status : option string;
  delivery_event_type : option string; delivery_receipt_provider : option string;
  delivery_receipt_id : option string; delivery_receipt_at : option Z; created_at : Z }.
#[global] Instance eta : Settable t := fun r => {|
  id := id r; ticket_id := ticket_id r; channel := channel r; status := status r;
  subject := subject r; body := body r; origin := origin r;
  runtime_trace_id := runtime_trace_id r;
  runtime_contract_version := runtime_contract_version r;
  runtime_signature := runtime_signature r;
  runtime_contract_payload_json := runtime_contract_payload_json r;
  runtime_contract_payload_sha256 := runtime_contract_payload_sha256 r;
  runtime_reply_type := runtime_reply_type r; safety_status := safety_status r;
  provider_status := provider_status r; error_message := error_message r;
  created_by := created_by r; sent_at := sent_at r; retry_count := retry_count r;
  max_retries := max_retries r; last_attempt_at := last_attempt_at r;
  next_retry_at := next_retry_at r; locked_at := locked_at r; locked_by := locked_by r;
  provider_message_id := provider_message_id r; mailbox_thread_id := mailbox_thread_id r;
  mailbox_message_id := mailbox_message_id r; mailbox_references := mailbox_references r;
  failure_code := failure_code r; failure_reason := failure_reason r;
  delivery_status := delivery_status r; delivery_event_type := delivery_event_type r;
  delivery_receipt_provider := delivery_receipt_provider r;
  delivery_receipt_id := delivery_receipt_id r; delivery_receipt_at := delivery_receipt_at r;
  created_at := created_at r |}.
End TicketOutboundMessage.
#[global] Instance TicketOutboundMessage_eq_dec : EqDecision TicketOutboundMessage.t.
Proof. solve_decision. Defined.

(** ** The database *)

Module Directory.
Record t := {
  tenants : gmap Z Tenant.t; teams : gmap Z Team.t; markets : gmap Z Market.t;
  accounts : gmap Z ChannelAccount.t; users : gmap Z User.t;
  overrides : list UserCapabilityOverride.t;
  (** the setting [tenant_runtime_authority_mode]: enforce or shadow *)
  tenant_runtime_authority_mode : string }.
End Directory.

(** [dir] and [tags] are only read by the ticket domain.  [clock n] and
    [uuid4_hex n] are what the [n]-th reading of the clock and of the random source
    return; [ticks] counts the readings; [zoneinfo] is the time zone database of the
    host. *)
Module Db.
Record t := {
  dir : Directory.t; tags : gset Z; customers : Table Customer.t; tickets : Table Ticket.t;
  events : list TicketEvent.t; ticket_tags : list (Z * Z); policies : Table SLAPolicy.t;
  revisions : Table SLAPolicyRevision.t; assignments : Table TicketSLAAssignment.t;
  pauses : Table TicketSLAPauseInterval.t; targets : Table TicketSLATarget.t;
  comments : Table TicketComment.t; notes : Table TicketInternalNote.t;
  attachments : Table TicketAttachment.t; messages : Table TicketOutboundMessage.t;
  message_attachments : list (Z * Z); ai_intakes : Table TicketAIIntake.t; clock : nat → Z;
  uuid4_hex : nat → string; zoneinfo : string → option Zone; ticks : nat }.
#[global] Instance eta : Settable t := fun r => {|
  dir := dir r; tags := tags r; customers := customers r; tickets := tickets r;
  events := events r; ticket_tags := ticket_tags r; policies := policies r;
  revisions := revisions r; assignments := assignments r; pauses := pauses r;
  targets := targets r; comments := comments r; notes := notes r; attachments := attachments r;
  messages := messages r; message_attachments := message_attachments r;
  ai_intakes := ai_intakes r; clock := clock r; uuid4_hex := uuid4_hex r;
  zoneinfo := zoneinfo r; ticks := ticks r |}.
End Db.

(** [utc_now()] *)
Definition utc_now : M Db.t Z := fun s =>
  (Ok (Db.clock s (Db.ticks s)), s <| Db.ticks ::= S |>).

Definition uuid4 : M Db.t string := fun s =>
  (Ok (Db.uuid4_hex s (Db.ticks s)), s <| Db.ticks ::= S |>).

(** [log_event]: append the event and flush *)
Definition log_event (e : TicketEvent.t) : M Db.t unit :=
  modify (fun s => s <| Db.events ::= fun l => l ++ [e] |>).

(** ** Rows by primary key, and a ticket written through *)

Definition ticket_at (s : Db.t) (i : Z) : option Ticket.t := table_get (Db.tickets s) i.

(** The attribute assignments of the code on the row [i], which the next flush
    writes *)
Definition set_ticket (i : Z) (f : Ticket.t → Ticket.t) : M Db.t unit :=
  modify (fun s => match ticket_at s i with
                   | Some t => s <| Db.tickets ::= table_put i (f t) |>
                   | None => s
                   end).

(** The shared ticket object: its current attributes *)
Definition the_ticket (i : Z) : M Db.t Ticket.t := fun s =>
  match ticket_at s i with
  | Some t => (Ok t, s)
  | None => (Err (HTTPException 404 "Ticket not found"), s)
  end.
