(* ===== verification/Fixtures.v ===== *)
(** * A concrete deployment

    One small database on which the theorems of the ticket domain are
    instantiated: two tenants, a team with four users, a customer, two tickets,
    an SLA policy with one approved revision. *)

From S2P Require Import Prelude Calendar Enums Models.

Module Fix.
Definition acme : Tenant.t :=
  {| Tenant.id := 1; Tenant.tenant_key := "acme"; Tenant.display_name := "Acme";
     Tenant.is_active := true |}.
Definition globex : Tenant.t :=
  {| Tenant.id := 2; Tenant.tenant_key := "globex"; Tenant.display_name := "Globex";
     Tenant.is_active := true |}.

Definition market : Market.t :=
  {| Market.id := 10; Market.tenant_id := Some 1; Market.tenant_assignment_source := None;
     Market.tenant_assignment_version := None; Market.code := "HR"; Market.name := "Croatia";
     Market.country_code := "HR"; Market.language_code := Some "hr";
     Market.timezone := Some "Europe/Zagreb"; Market.is_active := true |}.

Definition team : Team.t :=
  {| Team.id := 20; Team.tenant_id := Some 1; Team.tenant_assignment_source := None;
     Team.tenant_assignment_version := None; Team.name := "Support"; Team.team_type := "support";
     Team.market_id := Some 10; Team.is_active := true |}.

Definition user (i t : Z) (r : UserRole.t) (tm : option Z) : User.t :=
  {| User.id := i; User.tenant_id := Some t; User.tenant_assignment_source := None;
     User.tenant_assignment_version := None; User.username := "u" +:+ pretty i;
     User.display_name := "User " +:+ pretty i; User.email := None; User.role := r;
     User.team_id := tm; User.is_active := true |}.

Definition agent : User.t := user 30 1 UserRole.agent (Some 20).
Definition manager : User.t := user 31 1 UserRole.manager (Some 20).
Definition admin : User.t := user 32 1 UserRole.admin None.
Definition stranger : User.t := user 33 2 UserRole.admin None.

Definition customer : Customer.t :=
  {| Customer.id := 1; Customer.tenant_id := Some 1; Customer.tenant_assignment_source := None;
     Customer.tenant_assignment_version := None; Customer.name := "Ana";
     Customer.email := Some "Ana@example.com"; Customer.email_normalized := Some "ana@example.com";
     Customer.phone := None; Customer.phone_normalized := None;
     Customer.external_ref := Some "C-1" |}.

(** Ticket [i] in status [st], assigned to the agent. *)
Definition ticket (i : Z) (st : TicketStatus.t) : Ticket.t :=
  {| Ticket.id := i; Ticket.tenant_id := Some 1; Ticket.tenant_assignment_source := None;
     Ticket.tenant_assignment_version := None; Ticket.ticket_no := "CS-" +:+ pretty i;
     Ticket.customer_id := Some 1; Ticket.source := TicketSource.manual;
     Ticket.source_channel := SourceChannel.email; Ticket.priority := TicketPriority.medium;
     Ticket.status := st; Ticket.assignee_id := Some 30; Ticket.team_id := Some 20;
     Ticket.created_by := Some 31; Ticket.market_id := Some 10;
     Ticket.conversation_state := ConversationState.human_owned;
     Ticket.channel_account_id := None; Ticket.sla_policy_id := None;
     Ticket.first_response_at := None; Ticket.first_response_due_at := None;
     Ticket.resolution_due_at := None; Ticket.resolved_at := None; Ticket.closed_at := None;
     Ticket.reopen_count := 0; Ticket.resolution_category := ResolutionCategory.solved;
     Ticket.sla_paused := false; Ticket.sla_paused_at := None; Ticket.sla_pause_reason := None;
     Ticket.total_paused_seconds := 0; Ticket.first_response_breached := false;
     Ticket.resolution_breached := false; Ticket.ai_confidence := None;
     Ticket.texts := <["title" := "Parcel lost"]> (<["description" := "Where is it?"]> ∅);
     Ticket.created_at := 0; Ticket.updated_at := 0 |}.

Definition policy : SLAPolicy.t :=
  {| SLAPolicy.id := 1; SLAPolicy.name := "Medium SLA"; SLAPolicy.priority := TicketPriority.medium;
     SLAPolicy.first_response_minutes := 120; SLAPolicy.resolution_minutes := 1440;
     SLAPolicy.pause_on_waiting_customer := true; SLAPolicy.pause_on_waiting_internal := false |}.

Definition revision : SLAPolicyRevision.t :=
  {| SLAPolicyRevision.id := 1; SLAPolicyRevision.policy_id := 1; SLAPolicyRevision.version := 1;
     SLAPolicyRevision.tenant_id := None; SLAPolicyRevision.is_global_template := true;
     SLAPolicyRevision.market_id := None; SLAPolicyRevision.channel_key := None;
     SLAPolicyRevision.scenario_key := None; SLAPolicyRevision.status := "approved";
     SLAPolicyRevision.timezone_name := "UTC"; SLAPolicyRevision.weekly_schedule_json := JObj [];
     SLAPolicyRevision.holidays_json := JArr []; SLAPolicyRevision.first_response_minutes := 120;
     SLAPolicyRevision.resolution_minutes := 1440; SLAPolicyRevision.action_minutes := None;
     SLAPolicyRevision.notification_minutes := None;
     SLAPolicyRevision.risk_window_minutes := 30;
     SLAPolicyRevision.pause_reasons_json := JArr [JStr "waiting_customer"];
     SLAPolicyRevision.effective_from := 0; SLAPolicyRevision.effective_to := None;
     SLAPolicyRevision.approved_by := None; SLAPolicyRevision.created_at := 0 |}.

Definition directory : Directory.t :=
  {| Directory.tenants := <[1 := acme]> (<[2 := globex]> ∅);
     Directory.teams := {[20 := team]}; Directory.markets := {[10 := market]};
     Directory.accounts := ∅;
     Directory.users := <[30 := agent]> (<[31 := manager]> (<[32 := admin]> {[33 := stranger]}));
     Directory.overrides := []; Directory.tenant_runtime_authority_mode := "enforce" |}.

(** Ticket 1 is in progress, ticket 2 is resolved; the clock moves one second per
    reading, starting one hour after the epoch. *)
Definition db : Db.t :=
  {| Db.dir := directory; Db.tags := {[7; 8]};
     Db.customers := {| trows := {[1 := customer]}; tnext := 2 |};
     Db.tickets := {| trows := <[1 := ticket 1 TicketStatus.in_progress]>
                                {[2 := ticket 2 TicketStatus.resolved]}; tnext := 3 |};
     Db.events := []; Db.ticket_tags := [];
     Db.policies := {| trows := {[1 := policy]}; tnext := 2 |};
     Db.revisions := {| trows := {[1 := revision]}; tnext := 2 |};
     Db.assignments := empty_table; Db.pauses := empty_table; Db.targets := empty_table;
     Db.comments := empty_table; Db.notes := empty_table; Db.attachments := empty_table;
     Db.messages := empty_table; Db.message_attachments := []; Db.ai_intakes := empty_table;
     Db.clock := fun n => hours 1 + seconds (Z.of_nat n);
     Db.zoneinfo := Office.zones;
     Db.uuid4_hex := fun _ => "0123456789abcdef"; Db.ticks := 0 |}.
End Fix.
