(* ===== verification/Tenancy.v ===== *)
(** * Tenant authority

    [services/tenant_authority.py]: which tenant an authenticated actor acts for,
    and whether a resource belongs to it.  Nothing here changes a row of the
    database; a refusal is an HTTP error with a code. *)

From S2P Require Import Prelude Enums Models Fixtures.

(** ** Resources that carry a tenant *)

Class HasId (R : Type) := row_id : R → Z.
(** [getattr(value, "tenant_id", None)] and the columns a stamp writes *)
Class TenantBound (R : Type) := {
  _relation_tenant_id : R → option Z;
  stamp_tenant : Z → string → string → R → R;
  stamp_tenant_id : ∀ t src ver r, _relation_tenant_id (stamp_tenant t src ver r) = Some t
}.

#[export] Instance team_id_ : HasId Team.t := Team.id.
#[export] Instance market_id_ : HasId Market.t := Market.id.
#[export] Instance account_id_ : HasId ChannelAccount.t := ChannelAccount.id.
#[export] Instance user_id_ : HasId User.t := User.id.
#[export] Instance customer_id_ : HasId Customer.t := Customer.id.

#[export] Program Instance team_tenant : TenantBound Team.t := {|
  _relation_tenant_id := Team.tenant_id;
  stamp_tenant t src ver r :=
    r <| Team.tenant_id := Some t |> <| Team.tenant_assignment_source := Some src |>
      <| Team.tenant_assignment_version := Some ver |> |}.
Next Obligation. done. Qed.
#[export] Program Instance market_tenant : TenantBound Market.t := {|
  _relation_tenant_id := Market.tenant_id;
  stamp_tenant t src ver r :=
    r <| Market.tenant_id := Some t |> <| Market.tenant_assignment_source := Some src |>
      <| Market.tenant_assignment_version := Some ver |> |}.
Next Obligation. done. Qed.
#[export] Program Instance account_tenant : TenantBound ChannelAccount.t := {|
  _relation_tenant_id := ChannelAccount.tenant_id;
  stamp_tenant t src ver r :=
    r <| ChannelAccount.tenant_id := Some t |>
      <| ChannelAccount.tenant_assignment_source := Some src |>
      <| ChannelAccount.tenant_assignment_version := Some ver |> |}.
Next Obligation. done. Qed.
#[export] Program Instance user_tenant : TenantBound User.t := {|
  _relation_tenant_id := User.tenant_id;
  stamp_tenant t src ver r :=
    r <| User.tenant_id := Some t |> <| User.tenant_assignment_source := Some src |>
      <| User.tenant_assignment_version := Some ver |> |}.
Next Obligation. done. Qed.
#[export] Program Instance customer_tenant : TenantBound Customer.t := {|
  _relation_tenant_id := Customer.tenant_id;
  stamp_tenant t src ver r :=
    r <| Customer.tenant_id := Some t |> <| Customer.tenant_assignment_source := Some src |>
      <| Customer.tenant_assignment_version := Some ver |> |}.
Next Obligation. done. Qed.
#[export] Program Instance ticket_tenant : TenantBound Ticket.t := {|
  _relation_tenant_id := Ticket.tenant_id;
  stamp_tenant t src ver r :=
    r <| Ticket.tenant_id := Some t |> <| Ticket.tenant_assignment_source := Some src |>
      <| Ticket.tenant_assignment_version := Some ver |> |}.
Next Obligation. done. Qed.

Definition RUNTIME_TENANT_ASSIGNMENT_SOURCE : string := "runtime_principal".
Definition RUNTIME_TENANT_ASSIGNMENT_VERSION : string := "nexus.tenant.runtime_authority.v1".

Definition stamp_runtime_tenant {R} `{TenantBound R} (resource : R) (tenant_id : option Z) : R :=
  match tenant_id with
  | None => resource
  | Some t => stamp_tenant t RUNTIME_TENANT_ASSIGNMENT_SOURCE RUNTIME_TENANT_ASSIGNMENT_VERSION
                resource
  end.

(** ** Checks against the directory *)

Definition _raise {A} (error_code message : string) (status_code : Z) : result A :=
  Err (HTTPExceptionCode status_code error_code message).

Section Authority.
Context (d : Directory.t).

Definition mode_is (m : string) : bool :=
  bool_decide (Directory.tenant_runtime_authority_mode d = m).

Definition _active_tenant (tenant_id : Z) (principal : bool) : result Tenant.t :=
  let refused := _raise (if principal then "tenant_principal_inactive"
                         else "tenant_resource_conflict")
                        "Tenant authority is missing or inactive"
                        (if principal then 403 else 409) in
  match Directory.tenants d !! tenant_id with
  | Some t => if Tenant.is_active t then Ok t else refused
  | None => refused
  end.

Definition tenant_key_for_id (tenant_id : Z) : result string :=
  t ← _active_tenant tenant_id false;
  let tenant_key := py_strip (Tenant.tenant_key t) in
  if negb (nonempty tenant_key) || bool_decide (tenant_key = "default")
  then _raise "tenant_resource_conflict" "Tenant boundary key is missing or invalid" 409
  else Ok tenant_key.

Definition _linked_team (user : User.t) : result (option Team.t) :=
  match User.team_id user with
  | None => Ok None
  | Some i =>
      match Directory.teams d !! i with
      | None => _raise "tenant_principal_conflict"
                  "Authenticated principal Team relationship is missing" 403
      | Some team => Ok (Some team)
      end
  end.

Definition _linked_market (team : option Team.t) : result (option Market.t) :=
  match team with
  | None => Ok None
  | Some team =>
      match Team.market_id team with
      | None => Ok None
      | Some i =>
          match Directory.markets d !! i with
          | None => _raise "tenant_principal_conflict"
                      "Authenticated principal Market relationship is missing" 403
          | Some m => Ok (Some m)
          end
      end
  end.

(** One iteration of the loop over [related] *)
Definition check_related {R} `{TenantBound R} (kind : string) (direct : Z) (rel : option R)
    : result unit :=
  match rel with
  | None => Ok tt
  | Some r =>
      match _relation_tenant_id r with
      | None => _raise "tenant_principal_conflict"
                  ("Authenticated principal " +:+ kind +:+ " ownership is missing") 403
      | Some t =>
          if t =? direct then Ok tt
          else _raise "tenant_principal_conflict"
                 ("Authenticated principal " +:+ kind +:+ " ownership conflicts") 403
      end
  end.

Definition resolve_actor_tenant_id (user : User.t) : result (option Z) :=
  team ← _linked_team user;
  market ← _linked_market team;
  let related_present :=
    not_null (team ≫= _relation_tenant_id) || not_null (market ≫= _relation_tenant_id) in
  match _relation_tenant_id user with
  | None =>
      if mode_is "enforce" || related_present
      then _raise "tenant_principal_missing"
             "Authenticated principal has no authoritative Tenant" 403
      else Ok None
  | Some direct =>
      _active_tenant direct true;;
      check_related "team" direct team;;
      check_related "market" direct market;;
      Ok (Some direct)
  end.

Definition ensure_resource_tenant {R} `{TenantBound R} (actor_tenant_id : option Z)
    (resource : R) (resource_kind : string) (conceal_cross_tenant : bool) : result (option Z) :=
  match _relation_tenant_id resource with
  | None =>
      if negb (not_null actor_tenant_id) && mode_is "shadow" then Ok None
      else _raise "tenant_resource_missing"
             (resource_kind +:+ " has no authoritative Tenant") 409
  | Some t =>
      if bool_decide (actor_tenant_id = Some t) then _active_tenant t false;; Ok (Some t)
      else _raise "tenant_resource_not_found"
             (resource_kind +:+ " is not visible for the authenticated Tenant")
             (if conceal_cross_tenant then 404 else 403)
  end.

(** [value] is the relationship attribute the ORM has loaded, [relation_id] the
    foreign key. *)
Definition _ticket_relation {R} `{HasId R} (value : option R) (relation_id : option Z)
    (table : gmap Z R) (relation_kind : string) : result (option R) :=
  match value with
  | Some v =>
      if bool_decide (relation_id = Some (row_id v)) then Ok (Some v)
      else _raise "tenant_resource_conflict"
             ("Ticket " +:+ relation_kind +:+ " relationship identity conflicts") 409
  | None =>
      match relation_id with
      | None => Ok None
      | Some i =>
          match table !! i with
          | None => _raise "tenant_resource_conflict"
                      ("Ticket " +:+ relation_kind +:+ " relationship is missing") 409
          | Some v => Ok (Some v)
          end
      end
  end.
End Authority.

(** The relationship attributes of a ticket as the session has loaded them *)
Record Loaded := {
  l_customer : option Customer.t; l_market : option Market.t; l_team : option Team.t;
  l_channel_account : option ChannelAccount.t; l_assignee : option User.t;
  l_creator : option User.t }.

(** What a fresh load, joined or lazy, puts there *)
Definition load_relations (s : Db.t) (t : Ticket.t) : Loaded :=
  let d := Db.dir s in
  {| l_customer := Ticket.customer_id t ≫= table_get (Db.customers s);
     l_market := Ticket.market_id t ≫= fun i => Directory.markets d !! i;
     l_team := Ticket.team_id t ≫= fun i => Directory.teams d !! i;
     l_channel_account := Ticket.channel_account_id t ≫= fun i => Directory.accounts d !! i;
     l_assignee := Ticket.assignee_id t ≫= fun i => Directory.users d !! i;
     l_creator := Ticket.created_by t ≫= fun i => Directory.users d !! i |}.

Section TicketAuthority.
Context (s : Db.t).
Let d := Db.dir s.

(** The related rows by kind; of a row only its tenant matters. *)
Definition ticket_relations (l : Loaded) (t : Ticket.t)
    : result (list (string * option (option Z))) :=
  let tenant_of {R} `{TenantBound R} (r : option R) := _relation_tenant_id <$> r in
  customer ← _ticket_relation (l_customer l) (Ticket.customer_id t)
               (trows (Db.customers s)) "customer";
  market ← _ticket_relation (l_market l) (Ticket.market_id t)
               (Directory.markets (Db.dir s)) "market";
  team ← _ticket_relation (l_team l) (Ticket.team_id t) (Directory.teams (Db.dir s)) "team";
  account ← _ticket_relation (l_channel_account l) (Ticket.channel_account_id t)
               (Directory.accounts (Db.dir s)) "channel_account";
  assignee ← _ticket_relation (l_assignee l) (Ticket.assignee_id t)
               (Directory.users (Db.dir s)) "assignee";
  creator ← _ticket_relation (l_creator l) (Ticket.created_by t)
               (Directory.users (Db.dir s)) "creator";
  Ok [("customer", tenant_of customer); ("market", tenant_of market);
      ("team", tenant_of team); ("channel_account", tenant_of account);
      ("assignee", tenant_of assignee); ("creator", tenant_of creator)].

(** The loop that compares the owners of the related rows *)
Fixpoint check_relations (ticket_tenant_id : Z) (l : list (string * option (option Z)))
    : result unit :=
  match l with
  | [] => Ok tt
  | (_, None) :: l' => check_relations ticket_tenant_id l'
  | (kind, Some tenant) :: l' =>
      if bool_decide (tenant = Some ticket_tenant_id) then check_relations ticket_tenant_id l'
      else _raise "tenant_resource_conflict"
             ("Ticket " +:+ kind +:+ " Tenant ownership conflicts") 409
  end.

(** [actor]: the tenant of the actor when the caller has resolved it already *)
Definition ensure_ticket_tenant_authority_loaded (l : Loaded) (user : User.t)
    (t : Ticket.t) (actor : option (option Z)) : result (option Z) :=
  actor_tenant_id ← match actor with
                    | Some a => Ok a
                    | None => resolve_actor_tenant_id (Db.dir s) user
                    end;
  relations ← ticket_relations l t;
  let observed := existsb (fun p => not_null (mjoin (snd p))) relations in
  match _relation_tenant_id t with
  | None =>
      if negb (not_null actor_tenant_id) && negb observed && mode_is (Db.dir s) "shadow"
      then Ok None
      else _raise "tenant_resource_missing" "Ticket has no authoritative Tenant" 409
  | Some tid =>
      if bool_decide (actor_tenant_id = Some tid) then
        _active_tenant (Db.dir s) tid false;;
        check_relations tid relations;;
        Ok (Some tid)
      else _raise "tenant_resource_not_found"
             "Ticket is not visible for the authenticated Tenant" 404
  end.

Definition ensure_ticket_tenant_authority (user : User.t) (t : Ticket.t)
    (actor : option (option Z)) : result (option Z) :=
  ensure_ticket_tenant_authority_loaded (load_relations s t) user t actor.
End TicketAuthority.

Section TeamAndUser.
Context (d : Directory.t).

Definition ensure_team_tenant (actor_tenant_id : option Z) (team : Team.t) : result (option Z) :=
  tenant_id ← ensure_resource_tenant d actor_tenant_id team "Team" true;
  match Team.market_id team with
  | None => Ok tenant_id
  | Some i =>
      match Directory.markets d !! i with
      | None => _raise "tenant_resource_conflict" "Team Market relationship is missing" 409
      | Some market =>
          ensure_resource_tenant d actor_tenant_id market "Market" true;;
          if not_null tenant_id && negb (bool_decide (Market.tenant_id market = tenant_id))
          then _raise "tenant_resource_conflict"
                 "Team and Market Tenant ownership conflicts" 409
          else Ok tenant_id
      end
  end.

Definition ensure_user_tenant (actor_tenant_id : option Z) (user : User.t) : result (option Z) :=
  tenant_id ← ensure_resource_tenant d actor_tenant_id user "User" true;
  match User.team_id user with
  | None => Ok tenant_id
  | Some i =>
      match Directory.teams d !! i with
      | None => _raise "tenant_resource_conflict" "User Team relationship is missing" 409
      | Some team =>
          ensure_team_tenant actor_tenant_id team;;
          if not_null tenant_id && negb (bool_decide (Team.tenant_id team = tenant_id))
          then _raise "tenant_resource_conflict"
                 "User and Team Tenant ownership conflicts" 409
          else Ok tenant_id
      end
  end.
End TeamAndUser.

(** ** Facts *)

(** Rows are stored under their primary key. *)
Definition keyed {R} `{HasId R} (table : gmap Z R) : Prop :=
  ∀ i r, table !! i = Some r → row_id r = i.

Definition dir_keyed (s : Db.t) : Prop :=
  keyed (trows (Db.customers s)) ∧ keyed (Directory.markets (Db.dir s)) ∧
  keyed (Directory.teams (Db.dir s)) ∧ keyed (Directory.accounts (Db.dir s)) ∧
  keyed (Directory.users (Db.dir s)).

(** [get_settings] refuses every other value. *)
Definition mode_valid (d : Directory.t) : Prop :=
  mode_is d "enforce" = negb (mode_is d "shadow").

Definition active (d : Directory.t) (tid : Z) : Prop :=
  ∃ t, Directory.tenants d !! tid = Some t ∧ Tenant.is_active t = true.

Lemma active_tenant_Ok d tid p : is_ok (_active_tenant d tid p) = true ↔ active d tid.
Proof.
  unfold _active_tenant, active. destruct (Directory.tenants d !! tid) as [t|].
  - destruct (Tenant.is_active t) eqn:E; split; try done; [by exists t|].
    intros (x & [= <-] & ?). congruence.
  - split; [done | by intros (x & ? & _)].
Qed.

Lemma active_tenant_bind {A} d tid p (k : Tenant.t → result A) (a : A) :
  _active_tenant d tid p ≫= k = Ok a → active d tid.
Proof.
  intros (t & Ht & _)%result_bind_Ok. apply (active_tenant_Ok d tid p). by rewrite Ht.
Qed.

Lemma active_tenant_seq {A} d tid p (m : result A) :
  active d tid → (_active_tenant d tid p ≫= fun _ => m) = m.
Proof.
  intros H. apply (active_tenant_Ok d tid p) in H. by destruct (_active_tenant d tid p).
Qed.

(** The row a foreign key points to exists and belongs to [tid]. *)
Definition belongs {R} `{TenantBound R} (tid : Z) (fk : option Z) (table : gmap Z R) : Prop :=
  ∀ i, fk = Some i → ∃ r, table !! i = Some r ∧ _relation_tenant_id r = Some tid.

Lemma ticket_relation_fresh {R} `{HasId R} fk (table : gmap Z R) kind :
  keyed table →
  _ticket_relation (fk ≫= fun i => table !! i) fk table kind =
  match fk with
  | None => Ok None
  | Some i => match table !! i with
              | None => _raise "tenant_resource_conflict"
                          ("Ticket " +:+ kind +:+ " relationship is missing") 409
              | Some v => Ok (Some v)
              end
  end.
Proof.
  intros Hk. unfold _ticket_relation. destruct fk as [i|]; [|done]. cbn.
  destruct (table !! i) as [v|] eqn:E; [|done].
  apply Hk in E. by rewrite bool_decide_eq_true_2 by (by rewrite E).
Qed.

(** A relation that was found, and the check of its owner *)
Lemma relation_owner {R} `{HasId R, TenantBound R} fk (table : gmap Z R) kind v tid :
  keyed table →
  _ticket_relation (fk ≫= fun i => table !! i) fk table kind = Ok v →
  ((_relation_tenant_id <$> v = None ∨ _relation_tenant_id <$> v = Some (Some tid))
   ↔ belongs tid fk table).
Proof.
  intros Hk. rewrite ticket_relation_fresh by done. unfold belongs.
  destruct fk as [i|]; [|intros [= <-]; split; [intros _ i [=] | by left]].
  destruct (table !! i) as [r|] eqn:E; [|done]. intros [= <-]. cbn. split.
  - intros [?|[= Ht]] j [= <-]; [done | by exists r].
  - intros Hb. right. destruct (Hb i eq_refl) as (x & Hx & Ht). congruence.
Qed.

Lemma relation_found {R} `{HasId R, TenantBound R} fk (table : gmap Z R) kind tid :
  keyed table → belongs tid fk table →
  ∃ v, _ticket_relation (fk ≫= fun i => table !! i) fk table kind = Ok v.
Proof.
  intros Hk Hb. rewrite ticket_relation_fresh by done. destruct fk as [i|]; [|by eexists].
  destruct (Hb i eq_refl) as (r & -> & _). by eexists.
Qed.

Lemma check_relations_Ok tid l :
  check_relations tid l = Ok tt ↔
  Forall (fun p => snd p = None ∨ snd p = Some (Some tid)) l.
Proof.
  induction l as [|[k [t|]] l IH]; simpl.
  - split; [constructor | done].
  - rewrite list.Forall_cons. cbn. case_bool_decide as E.
    + subst. rewrite IH. split; [by intros; split; [right|] | by intros [_ ?]].
    + split; [discriminate|]. intros [[?|[= ?]] _]; congruence.
  - rewrite list.Forall_cons, IH. cbn. split; [by intros; split; [left|] | by intros [_ ?]].
Qed.

(** The relations a ticket may reference all belong to [tid]. *)
Definition relations_belong (s : Db.t) (t : Ticket.t) (tid : Z) : Prop :=
  let d := Db.dir s in
  belongs tid (Ticket.customer_id t) (trows (Db.customers s)) ∧
  belongs tid (Ticket.market_id t) (Directory.markets d) ∧
  belongs tid (Ticket.team_id t) (Directory.teams d) ∧
  belongs tid (Ticket.channel_account_id t) (Directory.accounts d) ∧
  belongs tid (Ticket.assignee_id t) (Directory.users d) ∧
  belongs tid (Ticket.created_by t) (Directory.users d).

Lemma ticket_relations_belong s t l tid :
  dir_keyed s → ticket_relations s (load_relations s t) t = Ok l →
  (check_relations tid l = Ok tt ↔ relations_belong s t tid).
Proof.
  intros (Hc & Hm & Ht & Ha & Hu) H. unfold ticket_relations in H. cbn [load_relations l_customer
    l_market l_team l_channel_account l_assignee l_creator] in H.
  apply result_bind_Ok in H as (r1 & E1 & H). apply result_bind_Ok in H as (r2 & E2 & H).
  apply result_bind_Ok in H as (r3 & E3 & H). apply result_bind_Ok in H as (r4 & E4 & H).
  apply result_bind_Ok in H as (r5 & E5 & H). apply result_bind_Ok in H as (r6 & E6 & H).
  injection H as <-.
  eapply (relation_owner _ _ _ _ tid) in E1, E2, E3, E4, E5, E6; [|done..].
  rewrite check_relations_Ok, !list.Forall_cons. cbn [snd]. rewrite E1, E2, E3, E4, E5, E6.
  unfold relations_belong. split; [tauto|]. intros (? & ? & ? & ? & ? & ?).
  split_and!; auto.
Qed.

Lemma ticket_relations_found s t tid :
  dir_keyed s → relations_belong s t tid →
  ∃ l, ticket_relations s (load_relations s t) t = Ok l.
Proof.
  intros (Hc & Hm & Ht & Ha & Hu) (B1 & B2 & B3 & B4 & B5 & B6).
  unfold ticket_relations. cbn [load_relations l_customer l_market l_team l_channel_account
    l_assignee l_creator].
  eapply (relation_found _ _ "customer") in B1 as [v1 E1]; [|done].
  eapply (relation_found _ _ "market") in B2 as [v2 E2]; [|done].
  eapply (relation_found _ _ "team") in B3 as [v3 E3]; [|done].
  eapply (relation_found _ _ "channel_account") in B4 as [v4 E4]; [|done].
  eapply (relation_found _ _ "assignee") in B5 as [v5 E5]; [|done].
  eapply (relation_found _ _ "creator") in B6 as [v6 E6]; [|done].
  unfold table_get. rewrite E1, E2, E3, E4, E5, E6. by eexists.
Qed.

Lemma no_owner_observed (l : list (string * option (option Z))) :
  existsb (fun p => not_null (mjoin (snd p))) l = false ↔
  ∀ k t, (k, Some (Some t)) ∉ l.
Proof.
  induction l as [|[k o] l IH]; cbn.
  { split; [|done]. intros _ k t. apply not_elem_of_nil. }
  split.
  - intros [Ho Hl]%orb_false_iff k' t [[= <- <-]|?]%elem_of_cons; [done|].
    by apply (proj1 IH Hl k' t).
  - intros H. apply orb_false_iff. split.
    + destruct o as [[t|]|]; [|done..]. exfalso. apply (H k t). left.
    + apply IH. intros k' t Hin. apply (H k' t). by right.
Qed.

(** *** The actor *)

(** The actor's team and the team's market, where there are any, belong to [tid]. *)
Definition actor_chain (d : Directory.t) (user : User.t) (tid : Z) : Prop :=
  belongs tid (User.team_id user) (Directory.teams d) ∧
  (∀ i team, User.team_id user = Some i → Directory.teams d !! i = Some team →
     belongs tid (Team.market_id team) (Directory.markets d)).

Lemma check_related_Ok {R} `{TenantBound R} k tid (r : option R) :
  check_related k tid r = Ok tt ↔ (∀ x, r = Some x → _relation_tenant_id x = Some tid).
Proof.
  unfold check_related. destruct r as [x|]; [|by split; [intros _ x [=]|]].
  destruct (_relation_tenant_id x) as [t|] eqn:E.
  - destruct (Z.eqb_spec t tid) as [->|Hne]; split; [by intros _ ? [= <-]|done|done|].
    intros Hx. specialize (Hx x eq_refl). congruence.
  - split; [done|]. intros Hx. specialize (Hx x eq_refl). congruence.
Qed.

Lemma resolve_actor_Some d user tid :
  resolve_actor_tenant_id d user = Ok (Some tid) ↔
  User.tenant_id user = Some tid ∧ active d tid ∧ actor_chain d user tid.
Proof.
  unfold resolve_actor_tenant_id, actor_chain, belongs. split.
  - intros H. apply result_bind_Ok in H as (team & Ht & H).
    apply result_bind_Ok in H as (market & Hm & H). cbn [_relation_tenant_id user_tenant] in H.
    destruct (User.tenant_id user) as [x|]; [|by destruct (_ || _)].
    apply result_bind_Ok in H as (tn & Ha & H). apply result_bind_Ok in H as ([] & C1 & H).
    apply result_bind_Ok in H as ([] & C2 & [= ->]).
    split; [done|]. split; [apply (active_tenant_Ok d tid true); by rewrite Ha|].
    pose proof (proj1 (check_related_Ok _ _ _) C1) as C1'.
    pose proof (proj1 (check_related_Ok _ _ _) C2) as C2'. unfold _linked_team in Ht. unfold _linked_market in Hm. split.
    + intros i Hi. rewrite Hi in Ht. destruct (Directory.teams d !! i) as [r|]; [|done].
      injection Ht as <-. exists r. split; [done|]. by apply C1'.
    + intros i r Hi Hr j Hj. rewrite Hi, Hr in Ht. injection Ht as <-. cbn in Hm.
      rewrite Hj in Hm. destruct (Directory.markets d !! j) as [m|]; [|done].
      injection Hm as <-. exists m. split; [done|]. by apply C2'.
  - intros (Hu & Ha & Hteam & Hmarket). cbn [_relation_tenant_id user_tenant]. rewrite Hu.
    unfold _linked_team. destruct (User.team_id user) as [i|]; cbn.
    + destruct (Hteam i eq_refl) as (r & Hr & Et). rewrite Hr. cbn.
      destruct (Team.market_id r) as [j|] eqn:Ej; cbn.
      * destruct (Hmarket i r eq_refl Hr j Ej) as (m & Hm & Em). rewrite Hm. cbn.
        rewrite active_tenant_seq by done. cbn in Et, Em. rewrite Et, Em, !Z.eqb_refl. done.
      * rewrite active_tenant_seq by done. cbn in Et. by rewrite Et, !Z.eqb_refl.
    + by rewrite active_tenant_seq.
Qed.

Lemma resolve_actor_None d user :
  resolve_actor_tenant_id d user = Ok None →
  User.tenant_id user = None ∧ mode_is d "enforce" = false.
Proof.
  unfold resolve_actor_tenant_id. intros H.
  apply result_bind_Ok in H as (team & _ & H). apply result_bind_Ok in H as (market & _ & H).
  cbn [_relation_tenant_id user_tenant] in H. destruct (User.tenant_id user) as [x|].
  - apply result_bind_Ok in H as (? & _ & H). apply result_bind_Ok in H as (? & _ & H).
    by apply result_bind_Ok in H as (? & _ & [=]).
  - destruct (mode_is d "enforce"); cbn in H; [done|done].
Qed.

(** an actor acts for tenant [t] exactly when its own tenant is [t], that tenant is
    active, and its team and the team's market exist and belong to [t]; in the
    enforcing mode nobody acts without a tenant. *)
Theorem tenant_actor_resolution d user :
  (∀ t, resolve_actor_tenant_id d user = Ok (Some t) ↔
     User.tenant_id user = Some t ∧ active d t ∧ actor_chain d user t) ∧
  (mode_is d "enforce" = true → resolve_actor_tenant_id d user ≠ Ok None) ∧
  (resolve_actor_tenant_id d user = Ok None →
     User.tenant_id user = None ∧
     ∀ i r, User.team_id user = Some i → Directory.teams d !! i = Some r →
       Team.tenant_id r = None).
Proof.
  split; [intros t; apply resolve_actor_Some|]. split.
  - intros He H. apply resolve_actor_None in H as [_ ?]. congruence.
  - intros H. split; [apply (resolve_actor_None d user H)|]. intros i r Hi Hr.
    unfold resolve_actor_tenant_id, _linked_team in H. rewrite Hi, Hr in H. cbn in H.
    apply result_bind_Ok in H as (m & _ & H). destruct (User.tenant_id user) as [x|].
    + apply result_bind_Ok in H as (? & _ & H). apply result_bind_Ok in H as (? & _ & H).
      by apply result_bind_Ok in H as (? & _ & [=]).
    + destruct (Team.tenant_id r); [|done]. cbn in H. by rewrite orb_true_r in H.
Qed.

(** *** The ticket *)

Lemma ticket_authority_Some s user t tid :
  dir_keyed s →
  ensure_ticket_tenant_authority s user t None = Ok (Some tid) ↔
  resolve_actor_tenant_id (Db.dir s) user = Ok (Some tid) ∧
  Ticket.tenant_id t = Some tid ∧ relations_belong s t tid.
Proof.
  intros Hk. unfold ensure_ticket_tenant_authority, ensure_ticket_tenant_authority_loaded. split.
  - intros H. apply result_bind_Ok in H as (a & Ha & H). apply result_bind_Ok in H as (l & Hl & H).
    cbn [_relation_tenant_id ticket_tenant] in H. destruct (Ticket.tenant_id t) as [x|].
    + case_bool_decide as E; [|done]. apply result_bind_Ok in H as (? & _ & H).
      apply result_bind_Ok in H as ([] & Hc & [= ->]). subst a.
      split; [done|]. split; [done|]. by apply (ticket_relations_belong s t l tid Hk Hl).
    + by destruct (_ && _).
  - intros (Ha & Ht & Hb). rewrite Ha. cbn [mbind result_bind].
    destruct (ticket_relations_found s t tid Hk Hb) as [l Hl]. rewrite Hl.
    cbn [mbind result_bind _relation_tenant_id ticket_tenant]. rewrite Ht.
    rewrite bool_decide_eq_true_2 by done. apply resolve_actor_Some in Ha as (_ & Hact & _).
    apply (ticket_relations_belong s t l tid Hk Hl) in Hb.
    apply (active_tenant_Ok (Db.dir s) tid false) in Hact.
    destruct (_active_tenant (Db.dir s) tid false); [|done]. cbn. by rewrite Hb.
Qed.

(** A refusal is a 403, 404 or 409 with an error code; nothing else is raised. *)
Definition refuses {A} (m : result A) : Prop :=
  match m with
  | Ok _ => True
  | Err (HTTPExceptionCode st c _) =>
      st ∈ [403; 404; 409] ∧
      c ∈ ["tenant_principal_missing"; "tenant_principal_inactive"; "tenant_principal_conflict";
           "tenant_resource_missing"; "tenant_resource_not_found"; "tenant_resource_conflict"]
  | Err _ => False
  end.

Lemma refuses_bind {A B} (m : result A) (k : A → result B) :
  refuses m → (∀ a, refuses (k a)) → refuses (m ≫= k).
Proof. destruct m; [by intros _ H; apply H | done]. Qed.

Lemma refuses_raise {A} c m st :
  bool_decide (st ∈ [403; 404; 409]) &&
  bool_decide (c ∈ ["tenant_principal_missing"; "tenant_principal_inactive";
    "tenant_principal_conflict"; "tenant_resource_missing"; "tenant_resource_not_found";
    "tenant_resource_conflict"]) = true →
  refuses (@_raise A c m st).
Proof. intros [H1%bool_decide_eq_true H2%bool_decide_eq_true]%andb_true_iff. by split. Qed.

(** Follow the program to its raises. *)
Ltac refuses_step :=
  lazymatch goal with
  | |- refuses (mbind _ _) => apply refuses_bind; [| intros ?]
  | |- refuses (_raise _ _ _) => apply refuses_raise; vm_compute; reflexivity
  | |- refuses (match ?x with _ => _ end) => destruct x
  | |- refuses (Ok _) => exact I
  | |- refuses (let _ := _ in _) => progress cbv zeta
  end.
Ltac refuses_tac := repeat refuses_step.

Lemma active_tenant_refuses d t p : refuses (_active_tenant d t p).
Proof. unfold _active_tenant. destruct p; refuses_tac. Qed.

Lemma resolve_actor_refuses d user : refuses (resolve_actor_tenant_id d user).
Proof.
  unfold resolve_actor_tenant_id, _linked_team, _linked_market, check_related.
  refuses_tac; apply active_tenant_refuses.
Qed.

Lemma ticket_relation_refuses {R} `{HasId R} (v : option R) fk table k :
  refuses (_ticket_relation v fk table k).
Proof. unfold _ticket_relation. refuses_tac. Qed.

Lemma check_relations_refuses t l : refuses (check_relations t l).
Proof. induction l as [|[k [o|]] l IH]; cbn [check_relations]; refuses_tac; exact IH. Qed.

Lemma ticket_authority_refuses s user t :
  refuses (ensure_ticket_tenant_authority s user t None).
Proof.
  unfold ensure_ticket_tenant_authority, ensure_ticket_tenant_authority_loaded, ticket_relations.
  refuses_tac; auto using resolve_actor_refuses, ticket_relation_refuses, active_tenant_refuses,
    check_relations_refuses.
Qed.

(** C38: a ticket is let through for tenant [t] exactly when the actor acts for [t], the
    ticket belongs to [t], and every customer, market, team, channel account and
    user it references exists and belongs to [t] too; it is let through without a
    tenant only in shadow mode, for a ticket and related rows that have none; any
    other case is refused with a 403, 404 or 409 and a tenant error code. *)
Theorem tenant_ticket_isolation s user t :
  dir_keyed s →
  (∀ tid, ensure_ticket_tenant_authority s user t None = Ok (Some tid) ↔
     resolve_actor_tenant_id (Db.dir s) user = Ok (Some tid) ∧
     Ticket.tenant_id t = Some tid ∧ relations_belong s t tid) ∧
  (ensure_ticket_tenant_authority s user t None = Ok None →
     mode_is (Db.dir s) "shadow" = true ∧
     resolve_actor_tenant_id (Db.dir s) user = Ok None ∧ Ticket.tenant_id t = None ∧
     ∃ l, ticket_relations s (load_relations s t) t = Ok l ∧ ∀ k x, (k, Some (Some x)) ∉ l) ∧
  refuses (ensure_ticket_tenant_authority s user t None).
Proof.
  intros Hk. split; [intros tid; by apply ticket_authority_Some|].
  split; [|apply ticket_authority_refuses].
  unfold ensure_ticket_tenant_authority, ensure_ticket_tenant_authority_loaded. intros H.
  apply result_bind_Ok in H as (a & Ha & H). apply result_bind_Ok in H as (l & Hl & H).
  cbn [_relation_tenant_id ticket_tenant] in H. destruct (Ticket.tenant_id t) as [x|].
  - case_bool_decide; [|done]. apply result_bind_Ok in H as (? & _ & H).
    by apply result_bind_Ok in H as (? & _ & [=]).
  - destruct (negb _ && negb _ && mode_is _ _) eqn:E; [|done].
    apply andb_true_iff in E as [[Ea%negb_true_iff Eo%negb_true_iff]%andb_true_iff Em].
    destruct a; [done|]. split_and!; try done. exists l. split; [done|].
    by apply no_owner_observed.
Qed.

(** a row that the runtime stamps with the tenant of its actor passes the resource
    check of that actor, and of no actor with another tenant. *)
Theorem tenant_stamp_visible {R} `{TenantBound R} d user a (r : R) kind b :
  mode_valid d → resolve_actor_tenant_id d user = Ok a →
  (a = None → _relation_tenant_id r = None) →
  ensure_resource_tenant d a (stamp_runtime_tenant r a) kind b = Ok a ∧
  (∀ other t, a = Some t → other ≠ a →
     ensure_resource_tenant d other (stamp_runtime_tenant r a) kind b =
     _raise "tenant_resource_not_found"
       (kind +:+ " is not visible for the authenticated Tenant") (if b then 404 else 403)).
Proof.
  intros Hm Ha Hn. unfold ensure_resource_tenant, stamp_runtime_tenant. destruct a as [t|].
  - rewrite stamp_tenant_id. apply resolve_actor_Some in Ha as (_ & Hact & _). split.
    + rewrite bool_decide_eq_true_2 by done. by rewrite active_tenant_seq.
    + intros o t' [= <-] Ho. by rewrite bool_decide_eq_false_2.
  - rewrite Hn by done. apply resolve_actor_None in Ha as [_ He]. unfold mode_valid in Hm.
    rewrite He in Hm. symmetry in Hm. apply negb_false_iff in Hm. by rewrite Hm.
Qed.

(** ** Witnesses *)

Lemma keyed_singleton {R} `{HasId R} (r : R) : keyed {[row_id r := r]}.
Proof. intros i x Hx. by apply lookup_singleton_Some in Hx as [<- <-]. Qed.

Lemma keyed_insert {R} `{HasId R} (r : R) m : keyed m → keyed (<[row_id r := r]> m).
Proof. intros Hm i x. rewrite lookup_insert. case_decide; [by intros [= <-] | apply Hm]. Qed.

Lemma keyed_empty {R} `{HasId R} : keyed (∅ : gmap Z R).
Proof. intros i x Hx. by rewrite lookup_empty in Hx. Qed.

Lemma fix_keyed : dir_keyed Fix.db.
Proof.
  unfold dir_keyed. split_and!.
  - exact (keyed_singleton Fix.customer).
  - exact (keyed_singleton Fix.market).
  - exact (keyed_singleton Fix.team).
  - exact keyed_empty.
  - exact (keyed_insert Fix.agent _ (keyed_insert Fix.manager _ (keyed_insert Fix.admin _
      (keyed_singleton Fix.stranger)))).
Qed.

Lemma tenant_ticket_isolation_witness :
  let t := Fix.ticket 1 TicketStatus.in_progress in
  (ensure_ticket_tenant_authority Fix.db Fix.agent t None = Ok (Some 1)) ∧
  (∀ tid, ensure_ticket_tenant_authority Fix.db Fix.stranger t None = Ok (Some tid) ↔
     resolve_actor_tenant_id (Db.dir Fix.db) Fix.stranger = Ok (Some tid) ∧
     Ticket.tenant_id t = Some tid ∧ relations_belong Fix.db t tid).
Proof.
  split; [by vm_compute|].
  apply (tenant_ticket_isolation Fix.db Fix.stranger (Fix.ticket 1 TicketStatus.in_progress)
           fix_keyed).
Defined.

Lemma tenant_stamp_visible_witness :
  ensure_resource_tenant Fix.directory (Some 1)
    (stamp_runtime_tenant (Fix.customer <| Customer.tenant_id := None |>) (Some 1))
    "Customer" true = Ok (Some 1).
Proof.
  apply (tenant_stamp_visible Fix.directory Fix.agent (Some 1)
           (Fix.customer <| Customer.tenant_id := None |>) "Customer" true);
    [by vm_compute | by vm_compute | discriminate].
Defined.
