(* ===== verification/Permissions.v ===== *)
(** * Capabilities and permission checks

    [services/permissions.py]: role defaults, per-user overrides, and the checks
    every operation of the ticket domain starts with.  A check takes the session
    ([None] when the caller has none) and raises or returns. *)

From S2P Require Import Prelude Enums Models Fixtures Tenancy.

(** ** Capability names *)

Definition CAP_TICKET_READ : string := "ticket.read".
Definition CAP_TICKET_ASSIGN : string := "ticket.assign".
Definition CAP_TICKET_ESCALATE : string := "ticket.escalate".
Definition CAP_TICKET_UPDATE_CORE : string := "ticket.update_core".
Definition CAP_TICKET_STATUS_CHANGE : string := "ticket.status.change".
Definition CAP_TICKET_CLOSE : string := "ticket.close".
Definition CAP_ATTACHMENT_READ_EXTERNAL : string := "attachment.read.external".
Definition CAP_ATTACHMENT_READ_INTERNAL : string := "attachment.read.internal".
Definition CAP_ATTACHMENT_UPLOAD : string := "attachment.upload".
Definition CAP_CUSTOMER_PROFILE_READ : string := "customer_profile.read".
Definition CAP_OUTBOUND_DRAFT_SAVE : string := "outbound.draft.save".
Definition CAP_OUTBOUND_SEND : string := "outbound.send".
Definition CAP_AI_INTAKE_WRITE : string := "ai_intake.write".
Definition CAP_NOTE_WRITE_INTERNAL : string := "note.write.internal".
Definition CAP_NOTE_WRITE_EXTERNAL : string := "note.write.external".
Definition CAP_USER_MANAGE : string := "user.manage".
Definition CAP_CHANNEL_ACCOUNT_MANAGE : string := "channel_account.manage".
Definition CAP_BULLETIN_MANAGE : string := "bulletin.manage".
Definition CAP_AI_CONFIG_READ : string := "ai_config.read".
Definition CAP_AI_CONFIG_MANAGE : string := "ai_config.manage".
Definition CAP_RUNTIME_MANAGE : string := "runtime.manage".
Definition CAP_MARKET_MANAGE : string := "market.manage".
Definition CAP_QA_MANAGE : string := "qa.manage".
Definition CAP_SECURITY_READ : string := "security.read".
Definition CAP_AUDIT_READ : string := "audit.read".
Definition CAP_SPEEDAF_WORK_ORDER_WRITE : string := "tool:speedaf.work_order.create:write".
Definition CAP_SPEEDAF_ADDRESS_UPDATE_WRITE : string := "tool:speedaf.order.update_address:write".
Definition CAP_SPEEDAF_CANCEL_WRITE : string := "tool:speedaf.order.cancel:write".
Definition CAP_SPEEDAF_VOICE_CALLBACK_WRITE : string := "tool:speedaf.voice.callback:write".
Definition CAP_WEBCALL_VOICE_READ : string := "webcall.voice.read".
Definition CAP_WEBCALL_VOICE_QUEUE_VIEW : string := "webcall.voice.queue.view".
Definition CAP_WEBCALL_VOICE_ACCEPT : string := "webcall.voice.accept".
Definition CAP_WEBCALL_VOICE_REJECT : string := "webcall.voice.reject".
Definition CAP_WEBCALL_VOICE_END : string := "webcall.voice.end".
Definition CAP_WEBCALL_VOICE_CONTROL : string := "webcall.voice.control".
Definition CAP_WEBCHAT_HANDOFF_ACCEPT : string := "webchat.handoff.accept".
Definition CAP_WEBCHAT_HANDOFF_DECLINE : string := "webchat.handoff.decline".
Definition CAP_WEBCHAT_HANDOFF_FORCE_TAKEOVER : string := "webchat.handoff.force_takeover".
Definition CAP_WEBCHAT_HANDOFF_RELEASE : string := "webchat.handoff.release".
Definition CAP_WEBCHAT_HANDOFF_RESUME_AI : string := "webchat.handoff.resume_ai".
Definition CAP_WEBCHAT_CONVERSATION_MONITOR_AI : string := "webchat.conversation.monitor_ai".
Definition CAP_OPERATOR_QUEUE_READ : string := "operator_queue.read".

Definition WEBCALL_VOICE_OPERATOR_CAPABILITIES : list string :=
  [CAP_WEBCALL_VOICE_READ; CAP_WEBCALL_VOICE_QUEUE_VIEW; CAP_WEBCALL_VOICE_ACCEPT;
   CAP_WEBCALL_VOICE_REJECT; CAP_WEBCALL_VOICE_END; CAP_WEBCALL_VOICE_CONTROL].

(** [sorted] on strings: by code points *)
Definition sorted : list string → list string := sort_by String.leb.

Definition ALL_CAPABILITIES : list string :=
  [CAP_TICKET_READ; CAP_TICKET_ASSIGN; CAP_TICKET_ESCALATE; CAP_TICKET_UPDATE_CORE;
   CAP_TICKET_STATUS_CHANGE; CAP_TICKET_CLOSE; CAP_ATTACHMENT_READ_EXTERNAL;
   CAP_ATTACHMENT_READ_INTERNAL; CAP_ATTACHMENT_UPLOAD; CAP_CUSTOMER_PROFILE_READ;
   CAP_OUTBOUND_DRAFT_SAVE; CAP_OUTBOUND_SEND; CAP_AI_INTAKE_WRITE; CAP_NOTE_WRITE_INTERNAL;
   CAP_NOTE_WRITE_EXTERNAL; CAP_USER_MANAGE; CAP_CHANNEL_ACCOUNT_MANAGE; CAP_BULLETIN_MANAGE;
   CAP_AI_CONFIG_READ; CAP_AI_CONFIG_MANAGE; CAP_RUNTIME_MANAGE; CAP_MARKET_MANAGE;
   CAP_QA_MANAGE; CAP_SECURITY_READ; CAP_AUDIT_READ; CAP_SPEEDAF_WORK_ORDER_WRITE;
   CAP_SPEEDAF_ADDRESS_UPDATE_WRITE; CAP_SPEEDAF_CANCEL_WRITE;
   CAP_SPEEDAF_VOICE_CALLBACK_WRITE]
  ++ sorted WEBCALL_VOICE_OPERATOR_CAPABILITIES ++
  [CAP_WEBCHAT_HANDOFF_ACCEPT; CAP_WEBCHAT_HANDOFF_DECLINE;
   CAP_WEBCHAT_HANDOFF_FORCE_TAKEOVER; CAP_WEBCHAT_HANDOFF_RELEASE;
   CAP_WEBCHAT_HANDOFF_RESUME_AI; CAP_WEBCHAT_CONVERSATION_MONITOR_AI; CAP_OPERATOR_QUEUE_READ].

Definition ROLE_CAPABILITIES (role : UserRole.t) : gset string :=
  match role with
  | UserRole.admin => list_to_set ALL_CAPABILITIES
  | UserRole.manager => list_to_set (
      [CAP_TICKET_READ; CAP_TICKET_ASSIGN; CAP_TICKET_ESCALATE; CAP_TICKET_UPDATE_CORE;
       CAP_TICKET_STATUS_CHANGE; CAP_TICKET_CLOSE; CAP_ATTACHMENT_READ_EXTERNAL;
       CAP_ATTACHMENT_READ_INTERNAL; CAP_ATTACHMENT_UPLOAD; CAP_CUSTOMER_PROFILE_READ;
       CAP_OUTBOUND_DRAFT_SAVE; CAP_OUTBOUND_SEND; CAP_AI_INTAKE_WRITE;
       CAP_NOTE_WRITE_INTERNAL; CAP_NOTE_WRITE_EXTERNAL; CAP_BULLETIN_MANAGE; CAP_QA_MANAGE;
       CAP_WEBCHAT_HANDOFF_ACCEPT; CAP_WEBCHAT_HANDOFF_DECLINE;
       CAP_WEBCHAT_HANDOFF_FORCE_TAKEOVER; CAP_WEBCHAT_HANDOFF_RELEASE;
       CAP_WEBCHAT_HANDOFF_RESUME_AI; CAP_WEBCHAT_CONVERSATION_MONITOR_AI;
       CAP_OPERATOR_QUEUE_READ]
      ++ WEBCALL_VOICE_OPERATOR_CAPABILITIES)
  | UserRole.lead => list_to_set (
      [CAP_TICKET_READ; CAP_TICKET_ASSIGN; CAP_TICKET_ESCALATE; CAP_TICKET_UPDATE_CORE;
       CAP_TICKET_STATUS_CHANGE; CAP_TICKET_CLOSE; CAP_ATTACHMENT_READ_EXTERNAL;
       CAP_ATTACHMENT_READ_INTERNAL; CAP_ATTACHMENT_UPLOAD; CAP_CUSTOMER_PROFILE_READ;
       CAP_OUTBOUND_DRAFT_SAVE; CAP_OUTBOUND_SEND; CAP_AI_INTAKE_WRITE;
       CAP_NOTE_WRITE_INTERNAL; CAP_NOTE_WRITE_EXTERNAL; CAP_QA_MANAGE;
       CAP_WEBCHAT_HANDOFF_ACCEPT; CAP_WEBCHAT_HANDOFF_DECLINE;
       CAP_WEBCHAT_HANDOFF_FORCE_TAKEOVER; CAP_WEBCHAT_HANDOFF_RELEASE;
       CAP_WEBCHAT_HANDOFF_RESUME_AI; CAP_WEBCHAT_CONVERSATION_MONITOR_AI;
       CAP_OPERATOR_QUEUE_READ]
      ++ WEBCALL_VOICE_OPERATOR_CAPABILITIES)
  | UserRole.agent => list_to_set (
      [CAP_TICKET_READ; CAP_ATTACHMENT_READ_EXTERNAL; CAP_ATTACHMENT_READ_INTERNAL;
       CAP_ATTACHMENT_UPLOAD; CAP_TICKET_STATUS_CHANGE; CAP_OUTBOUND_DRAFT_SAVE;
       CAP_OUTBOUND_SEND; CAP_AI_INTAKE_WRITE; CAP_NOTE_WRITE_INTERNAL;
       CAP_NOTE_WRITE_EXTERNAL; CAP_CUSTOMER_PROFILE_READ; CAP_WEBCHAT_HANDOFF_ACCEPT;
       CAP_WEBCHAT_HANDOFF_DECLINE; CAP_WEBCHAT_HANDOFF_RELEASE;
       CAP_WEBCHAT_CONVERSATION_MONITOR_AI; CAP_OPERATOR_QUEUE_READ]
      ++ WEBCALL_VOICE_OPERATOR_CAPABILITIES)
  | UserRole.auditor => list_to_set (
      [CAP_TICKET_READ; CAP_ATTACHMENT_READ_EXTERNAL; CAP_ATTACHMENT_READ_INTERNAL;
       CAP_CUSTOMER_PROFILE_READ; CAP_SECURITY_READ; CAP_AUDIT_READ; CAP_OPERATOR_QUEUE_READ])
  end.

Definition _GLOBAL_CASE_VISIBILITY : list string := [CAP_TICKET_ASSIGN; CAP_AUDIT_READ; CAP_USER_MANAGE].
Definition _GLOBAL_ADMIN_VISIBILITY : list string := [CAP_AUDIT_READ; CAP_USER_MANAGE].

(** ** Resolution *)

Definition _base_capabilities (role : UserRole.t) : gset string := ROLE_CAPABILITIES role.

Definition apply_override (capabilities : gset string) (o : UserCapabilityOverride.t)
    : gset string :=
  if UserCapabilityOverride.allowed o
  then {[UserCapabilityOverride.capability o]} ∪ capabilities
  else capabilities ∖ {[UserCapabilityOverride.capability o]}.

Definition resolve_capabilities_from_preloaded (user : User.t)
    (overrides : list UserCapabilityOverride.t) : gset string :=
  let capabilities := foldl apply_override (_base_capabilities (User.role user)) overrides in
  filter (fun c => c ∈ ALL_CAPABILITIES) capabilities.

Definition user_overrides (db : Db.t) (user : User.t) : list UserCapabilityOverride.t :=
  filter (fun o => UserCapabilityOverride.user_id o = User.id user)
    (Directory.overrides (Db.dir db)).

Definition resolve_capabilities (user : User.t) (db : option Db.t) : gset string :=
  match db with
  | None => resolve_capabilities_from_preloaded user []
  | Some db => resolve_capabilities_from_preloaded user (user_overrides db user)
  end.

Section Fingerprint.
(** [hashlib.sha256(...).hexdigest()] *)
Variable sha256_hex : string → string.

Definition override_decision (o : UserCapabilityOverride.t) : string :=
  UserCapabilityOverride.capability o +:+ "=" +:+
  (if UserCapabilityOverride.allowed o then "1" else "0").

Definition newline : string := String (Ascii.ascii_of_N 10) EmptyString.

(** The lines that are joined and hashed *)
Definition fingerprint_lines (user : User.t) (overrides : list UserCapabilityOverride.t)
    : list string :=
  let effective := resolve_capabilities_from_preloaded user overrides in
  ["role=" +:+ value (User.role user)]
  ++ ((fun c => "effective=" +:+ c) <$> sorted (elements effective))
  ++ ((fun c => "override=" +:+ c) <$> sorted (override_decision <$> overrides)).

Definition capability_fingerprint (user : User.t) (db : option Db.t) : string :=
  let overrides := match db with None => [] | Some db => user_overrides db user end in
  str_take 16 (sha256_hex (String.concat newline (fingerprint_lines user overrides))).
End Fingerprint.

(** [bool(capabilities & wanted)] *)
Definition meets (capabilities : gset string) (wanted : list string) : bool :=
  existsb (fun c => bool_decide (c ∈ capabilities)) wanted.

Definition has_global_case_visibility (user : User.t) (db : option Db.t) : bool :=
  meets (resolve_capabilities user db) _GLOBAL_CASE_VISIBILITY.
Definition has_global_admin_visibility (user : User.t) (db : option Db.t) : bool :=
  meets (resolve_capabilities user db) _GLOBAL_ADMIN_VISIBILITY.

(** ** Checks *)

Definition ensure_capability (user : User.t) (capability : string) (db : option Db.t)
    (message : string) : result unit :=
  if bool_decide (capability ∈ resolve_capabilities user db) then Ok tt
  else Err (HTTPException 403 message).

Definition not_visible : string := "Ticket not visible for current user".

Definition ensure_ticket_visible (user : User.t) (ticket : Ticket.t) (db : option Db.t)
    : result unit :=
  ensure_capability user CAP_TICKET_READ db not_visible;;
  match db with
  | None => Err (HTTPException 500 "Tenant authority requires a database session")
  | Some s =>
      ensure_ticket_tenant_authority s user ticket None;;
      if has_global_case_visibility user db then Ok tt
      else if bool_decide (Ticket.assignee_id ticket = Some (User.id user)) then Ok tt
      else if truthy_id (User.team_id user) &&
              bool_decide (Ticket.team_id ticket = User.team_id user) then Ok tt
      else Err (HTTPException 403 not_visible)
  end.

(** [ticket]: the relationship attribute of the attachment *)
Definition ensure_attachment_accessible (user : User.t) (attachment : TicketAttachment.t)
    (ticket : option Ticket.t) (db : option Db.t) : result unit :=
  match ticket with
  | None => Err (HTTPException 500 "Attachment ticket relationship is not loaded")
  | Some ticket =>
      ensure_ticket_visible user ticket db;;
      match TicketAttachment.visibility attachment with
      | NoteVisibility.external =>
          ensure_capability user CAP_ATTACHMENT_READ_EXTERNAL db "Attachment is not accessible"
      | NoteVisibility.internal =>
          ensure_capability user CAP_ATTACHMENT_READ_INTERNAL db "Attachment is internal-only"
      end
  end.

Definition ensure_can_assign (user : User.t) (db : option Db.t) : result unit :=
  ensure_capability user CAP_TICKET_ASSIGN db "Only lead or above can assign".
Definition ensure_can_escalate (user : User.t) (db : option Db.t) : result unit :=
  ensure_capability user CAP_TICKET_ESCALATE db "Only lead or above can escalate".
Definition ensure_can_update_core_fields (user : User.t) (db : option Db.t) : result unit :=
  ensure_capability user CAP_TICKET_UPDATE_CORE db "Only lead or above can update core fields".
Definition ensure_can_change_status (user : User.t) (ticket : Ticket.t)
    (new_status : TicketStatus.t) (db : option Db.t) : result unit :=
  ensure_capability user CAP_TICKET_STATUS_CHANGE db "Permission denied";;
  ensure_ticket_visible user ticket db;;
  if bool_decide (new_status ∈ [TicketStatus.closed; TicketStatus.canceled; TicketStatus.escalated])
  then ensure_capability user CAP_TICKET_CLOSE db "Permission denied" else Ok tt.
Definition ensure_can_upload_attachment (user : User.t) (db : option Db.t) : result unit :=
  ensure_capability user CAP_ATTACHMENT_UPLOAD db "Permission denied".
Definition ensure_can_read_customer_profile (user : User.t) (db : option Db.t) : result unit :=
  ensure_capability user CAP_CUSTOMER_PROFILE_READ db "Permission denied".
Definition ensure_can_save_outbound_draft (user : User.t) (db : option Db.t) : result unit :=
  ensure_capability user CAP_OUTBOUND_DRAFT_SAVE db "Permission denied".
Definition ensure_can_send_outbound (user : User.t) (db : option Db.t) : result unit :=
  ensure_capability user CAP_OUTBOUND_SEND db "Permission denied".
Definition ensure_can_write_ai_intake (user : User.t) (db : option Db.t) : result unit :=
  ensure_capability user CAP_AI_INTAKE_WRITE db "Permission denied".
Definition ensure_can_write_internal_note (user : User.t) (db : option Db.t) : result unit :=
  ensure_capability user CAP_NOTE_WRITE_INTERNAL db "Permission denied".
Definition ensure_can_write_external_comment (user : User.t) (db : option Db.t) : result unit :=
  ensure_capability user CAP_NOTE_WRITE_EXTERNAL db "Permission denied".
Definition ensure_can_write_comment (user : User.t) (visibility : NoteVisibility.t)
    (db : option Db.t) : result unit :=
  match visibility with
  | NoteVisibility.internal => ensure_can_write_internal_note user db
  | NoteVisibility.external => ensure_can_write_external_comment user db
  end.
Definition ensure_can_manage_users (user : User.t) (db : option Db.t) : result unit :=
  ensure_capability user CAP_USER_MANAGE db "Not authorized to manage users".
Definition ensure_can_view_security_audit (user : User.t) (db : option Db.t) : result unit :=
  if meets (resolve_capabilities user db) [CAP_USER_MANAGE; CAP_SECURITY_READ; CAP_AUDIT_READ]
  then Ok tt else Err (HTTPException 403 "Not authorized to view security audit").
Definition ensure_can_manage_channel_accounts (user : User.t) (db : option Db.t) : result unit :=
  ensure_capability user CAP_CHANNEL_ACCOUNT_MANAGE db "Not authorized to manage channel accounts".
Definition ensure_can_manage_bulletins (user : User.t) (db : option Db.t) : result unit :=
  ensure_capability user CAP_BULLETIN_MANAGE db "Not authorized to manage bulletins".
Definition ensure_can_read_ai_configs (user : User.t) (db : option Db.t) : result unit :=
  if meets (resolve_capabilities user db) [CAP_AI_CONFIG_READ; CAP_AI_CONFIG_MANAGE]
  then Ok tt else Err (HTTPException 403 "Not authorized to read AI config").
Definition ensure_can_manage_ai_configs (user : User.t) (db : option Db.t) : result unit :=
  ensure_capability user CAP_AI_CONFIG_MANAGE db "Not authorized to manage AI config".
Definition ensure_can_manage_runtime (user : User.t) (db : option Db.t) : result unit :=
  ensure_capability user CAP_RUNTIME_MANAGE db "Not authorized to manage runtime".
Definition ensure_can_manage_markets (user : User.t) (db : option Db.t) : result unit :=
  ensure_capability user CAP_MARKET_MANAGE db "Not authorized to manage markets".
Definition ensure_can_create_speedaf_work_order (user : User.t) (db : option Db.t) : result unit :=
  ensure_capability user CAP_SPEEDAF_WORK_ORDER_WRITE db "speedaf_work_order_requires_capability".
Definition ensure_can_update_speedaf_address (user : User.t) (db : option Db.t) : result unit :=
  ensure_capability user CAP_SPEEDAF_ADDRESS_UPDATE_WRITE db "speedaf_address_update_requires_capability".
Definition ensure_can_cancel_speedaf_order (user : User.t) (db : option Db.t) : result unit :=
  ensure_capability user CAP_SPEEDAF_CANCEL_WRITE db "speedaf_cancel_requires_capability".
Definition ensure_can_send_speedaf_voice_callback (user : User.t) (db : option Db.t) : result unit :=
  ensure_capability user CAP_SPEEDAF_VOICE_CALLBACK_WRITE db "speedaf_voice_callback_requires_capability".
Definition ensure_can_read_webcall_voice (user : User.t) (db : option Db.t) : result unit :=
  ensure_capability user CAP_WEBCALL_VOICE_READ db "webcall_voice_read_requires_capability".
Definition ensure_can_view_webcall_voice_queue (user : User.t) (db : option Db.t) : result unit :=
  ensure_capability user CAP_WEBCALL_VOICE_QUEUE_VIEW db "webcall_voice_queue_requires_capability".
Definition ensure_can_accept_webcall_voice (user : User.t) (db : option Db.t) : result unit :=
  ensure_capability user CAP_WEBCALL_VOICE_ACCEPT db "webcall_voice_accept_requires_capability".
Definition ensure_can_reject_webcall_voice (user : User.t) (db : option Db.t) : result unit :=
  ensure_capability user CAP_WEBCALL_VOICE_REJECT db "webcall_voice_reject_requires_capability".
Definition ensure_can_end_webcall_voice (user : User.t) (db : option Db.t) : result unit :=
  ensure_capability user CAP_WEBCALL_VOICE_END db "webcall_voice_end_requires_capability".
Definition ensure_can_control_webcall_voice (user : User.t) (db : option Db.t) : result unit :=
  ensure_capability user CAP_WEBCALL_VOICE_CONTROL db "webcall_voice_control_requires_capability".
Definition ensure_can_accept_webchat_handoff (user : User.t) (db : option Db.t) : result unit :=
  ensure_capability user CAP_WEBCHAT_HANDOFF_ACCEPT db "webchat_handoff_accept_requires_capability".
Definition ensure_can_decline_webchat_handoff (user : User.t) (db : option Db.t) : result unit :=
  ensure_capability user CAP_WEBCHAT_HANDOFF_DECLINE db "webchat_handoff_decline_requires_capability".
Definition ensure_can_force_takeover_webchat (user : User.t) (db : option Db.t) : result unit :=
  ensure_capability user CAP_WEBCHAT_HANDOFF_FORCE_TAKEOVER db "webchat_handoff_force_takeover_requires_capability".
Definition ensure_can_release_webchat_handoff (user : User.t) (db : option Db.t) : result unit :=
  ensure_capability user CAP_WEBCHAT_HANDOFF_RELEASE db "webchat_handoff_release_requires_capability".
Definition ensure_can_resume_webchat_ai (user : User.t) (db : option Db.t) : result unit :=
  ensure_capability user CAP_WEBCHAT_HANDOFF_RESUME_AI db "webchat_handoff_resume_ai_requires_capability".
Definition ensure_can_monitor_webchat_ai (user : User.t) (db : option Db.t) : result unit :=
  ensure_capability user CAP_WEBCHAT_CONVERSATION_MONITOR_AI db "webchat_monitor_ai_requires_capability".

(** ** Facts *)

#[global] Arguments resolve_capabilities_from_preloaded : simpl never.
#[global] Arguments resolve_capabilities : simpl never.
#[global] Arguments ensure_capability : simpl never.
#[global] Arguments ensure_ticket_visible : simpl never.

Lemma ensure_capability_Ok user c db m :
  ensure_capability user c db m = Ok tt ↔ c ∈ resolve_capabilities user db.
Proof. unfold ensure_capability. by case_bool_decide. Qed.

Lemma meets_spec caps wanted : meets caps wanted = true ↔ ∃ c, c ∈ wanted ∧ c ∈ caps.
Proof.
  unfold meets. rewrite existsb_exists. setoid_rewrite bool_decide_eq_true.
  split; intros (c & ? & ?); exists c; [by rewrite list_elem_of_In | by rewrite <- list_elem_of_In].
Qed.

(** The last override of a capability decides; with one override per capability
    the order is immaterial. *)
Lemma apply_overrides_spec base l c :
  NoDup (UserCapabilityOverride.capability <$> l) →
  c ∈ foldl apply_override base l ↔
  (∃ o, o ∈ l ∧ UserCapabilityOverride.capability o = c ∧ UserCapabilityOverride.allowed o = true) ∨
  (c ∈ base ∧ ∀ o, o ∈ l → UserCapabilityOverride.capability o = c →
     UserCapabilityOverride.allowed o = true).
Proof.
  revert base. induction l as [|o l IH]; intros base; cbn [foldl].
  { intros _. split; [intros Hb; right; split; [done|]; intros o Ho; by apply elem_of_nil in Ho|].
    intros [(o & Ho & _)|[Hb _]]; [by apply elem_of_nil in Ho | done]. }
  rewrite fmap_cons, list.NoDup_cons. intros [Hno Hnd]. rewrite IH by done. setoid_rewrite elem_of_cons.
  assert (∀ o', o' ∈ l → UserCapabilityOverride.capability o' ≠ UserCapabilityOverride.capability o)
    as Hfresh by (intros o' Ho' E; apply Hno; rewrite <- E; by apply list_elem_of_fmap_2).
  unfold apply_override. destruct (UserCapabilityOverride.allowed o) eqn:Ho; split.
  - intros [(x & Hx & Hc & Ha)|[[->%elem_of_singleton|Hb]%elem_of_union Hl]]; [left; exists x; auto| |].
    + left. exists o. auto.
    + right. split; [done|]. intros x [->|Hx]; [done | by apply Hl].
  - intros [(x & [->|Hx] & Hc & Ha)|[Hb Hl]]; [|left; exists x; auto|].
    + right. split; [set_solver|]. intros y Hy Ec. subst c. by apply Hfresh in Ec.
    + right. split; [set_solver|]. intros y Hy. apply Hl. by right.
  - intros [(x & Hx & Hc & Ha)|[[Hb Hne]%elem_of_difference Hl]]; [left; exists x; auto|].
    right. split; [done|]. intros x [->|Hx] E; [set_solver | by apply Hl].
  - intros [(x & [->|Hx] & Hc & Ha)|[Hb Hl]]; [congruence | left; exists x; auto |].
    right. split; [|intros y Hy; apply Hl; by right]. apply elem_of_difference. split; [done|].
    intros ->%elem_of_singleton. rewrite (Hl o) in Ho by auto. done.
Qed.

Lemma resolve_perm user l l' :
  NoDup (UserCapabilityOverride.capability <$> l) → l ≡ₚ l' →
  resolve_capabilities_from_preloaded user l = resolve_capabilities_from_preloaded user l'.
Proof.
  intros Hn Hp. unfold resolve_capabilities_from_preloaded. f_equal. apply set_eq. intros c.
  rewrite !apply_overrides_spec by (done || by rewrite <- Hp).
  by setoid_rewrite Hp.
Qed.

(** *** Sorting is canonical *)

Lemma string_leb_total a b : String.leb a b = true ∨ String.leb b a = true.
Proof. destruct (String.leb_total a b); auto. Qed.

Lemma string_leb_antisym a b : String.leb a b = true → String.leb b a = true → a = b.
Proof. apply String.leb_antisym. Qed.

Lemma string_leb_compare a b : String.leb a b = true ↔ String.compare a b ≠ Gt.
Proof. unfold String.leb. by destruct (String.compare a b). Qed.

Lemma string_leb_trans a b c : String.leb a b = true → String.leb b c = true → String.leb a c = true.
Proof.
  unfold String.leb. revert b c. induction a as [|x a IH]; intros [|y b] [|z c]; cbn; try done.
  unfold Ascii.compare. specialize (IH b c).
  destruct (N.compare_spec (Ascii.N_of_ascii x) (Ascii.N_of_ascii y)) as [E|E|E]; [| |done];
  destruct (N.compare_spec (Ascii.N_of_ascii y) (Ascii.N_of_ascii z)) as [E'|E'|E']; try done;
  destruct (N.compare_spec (Ascii.N_of_ascii x) (Ascii.N_of_ascii z)) as [E''|E''|E'']; try lia;
  try done.
Qed.

Lemma sorted_perm l l' : l ≡ₚ l' → sorted l = sorted l'.
Proof. apply sort_by_perm; [apply string_leb_total | apply string_leb_trans | apply string_leb_antisym]. Qed.

(** with one override per capability (the unique constraint of the table), a user
    holds exactly the known capabilities that are explicitly allowed, or granted
    by the role and not explicitly refused; neither the capabilities nor the text
    of the fingerprint depends on the order of the overrides. *)
Theorem capability_resolution user overrides :
  NoDup (UserCapabilityOverride.capability <$> overrides) →
  (∀ c, c ∈ resolve_capabilities_from_preloaded user overrides ↔
     c ∈ ALL_CAPABILITIES ∧
     ((∃ o, o ∈ overrides ∧ UserCapabilityOverride.capability o = c ∧
        UserCapabilityOverride.allowed o = true) ∨
      (c ∈ ROLE_CAPABILITIES (User.role user) ∧
       ∀ o, o ∈ overrides → UserCapabilityOverride.capability o = c →
         UserCapabilityOverride.allowed o = true))) ∧
  (∀ l, l ≡ₚ overrides →
     resolve_capabilities_from_preloaded user l = resolve_capabilities_from_preloaded user overrides
     ∧ fingerprint_lines user l = fingerprint_lines user overrides).
Proof.
  intros Hn. split.
  - intros c. unfold resolve_capabilities_from_preloaded.
    rewrite elem_of_filter, apply_overrides_spec by done. done.
  - intros l Hp. assert (NoDup (UserCapabilityOverride.capability <$> l)) as Hl by (by rewrite Hp).
    split; [by apply resolve_perm|]. unfold fingerprint_lines.
    rewrite (resolve_perm user l overrides Hl Hp).
    by rewrite (sorted_perm (override_decision <$> l) (override_decision <$> overrides))
      by (by rewrite Hp).
Qed.

(** What an auditor must not be able to do *)
Definition write_capabilities : list string :=
  [CAP_TICKET_ASSIGN; CAP_TICKET_ESCALATE; CAP_TICKET_UPDATE_CORE; CAP_TICKET_STATUS_CHANGE;
   CAP_TICKET_CLOSE; CAP_ATTACHMENT_UPLOAD; CAP_OUTBOUND_DRAFT_SAVE; CAP_OUTBOUND_SEND;
   CAP_AI_INTAKE_WRITE; CAP_NOTE_WRITE_INTERNAL; CAP_NOTE_WRITE_EXTERNAL; CAP_USER_MANAGE;
   CAP_CHANNEL_ACCOUNT_MANAGE; CAP_BULLETIN_MANAGE; CAP_AI_CONFIG_MANAGE; CAP_RUNTIME_MANAGE;
   CAP_MARKET_MANAGE; CAP_QA_MANAGE; CAP_SPEEDAF_WORK_ORDER_WRITE;
   CAP_SPEEDAF_ADDRESS_UPDATE_WRITE; CAP_SPEEDAF_CANCEL_WRITE; CAP_SPEEDAF_VOICE_CALLBACK_WRITE;
   CAP_WEBCALL_VOICE_ACCEPT; CAP_WEBCALL_VOICE_REJECT; CAP_WEBCALL_VOICE_END;
   CAP_WEBCALL_VOICE_CONTROL; CAP_WEBCHAT_HANDOFF_ACCEPT; CAP_WEBCHAT_HANDOFF_DECLINE;
   CAP_WEBCHAT_HANDOFF_FORCE_TAKEOVER; CAP_WEBCHAT_HANDOFF_RELEASE;
   CAP_WEBCHAT_HANDOFF_RESUME_AI].

Definition role_includes (r r' : UserRole.t) : bool :=
  forallb (fun c => bool_decide (c ∈ ROLE_CAPABILITIES r')) (elements (ROLE_CAPABILITIES r)).

Lemma role_includes_spec r r' :
  role_includes r r' = true → ROLE_CAPABILITIES r ⊆ ROLE_CAPABILITIES r'.
Proof.
  unfold role_includes. rewrite forallb_forall. intros H c Hc.
  eapply bool_decide_eq_true_1, H, list_elem_of_In. by apply elem_of_elements.
Qed.

(** the role defaults are a hierarchy: what an agent holds a lead holds, what a lead
    holds a manager holds, and an administrator holds every capability there is;
    no default names an unknown capability; an auditor holds no capability that
    writes; only leads, managers and administrators close, assign or escalate. *)
Theorem role_hierarchy :
  ROLE_CAPABILITIES UserRole.agent ⊆ ROLE_CAPABILITIES UserRole.lead ∧
  ROLE_CAPABILITIES UserRole.lead ⊆ ROLE_CAPABILITIES UserRole.manager ∧
  ROLE_CAPABILITIES UserRole.manager ⊆ ROLE_CAPABILITIES UserRole.admin ∧
  (∀ c, c ∈ ROLE_CAPABILITIES UserRole.admin ↔ c ∈ ALL_CAPABILITIES) ∧
  (∀ r, ROLE_CAPABILITIES r ⊆ ROLE_CAPABILITIES UserRole.admin) ∧
  (∀ c, c ∈ write_capabilities → c ∉ ROLE_CAPABILITIES UserRole.auditor) ∧
  (∀ r c, c ∈ [CAP_TICKET_CLOSE; CAP_TICKET_ASSIGN; CAP_TICKET_ESCALATE] →
     c ∈ ROLE_CAPABILITIES r ↔ r ∈ [UserRole.lead; UserRole.manager; UserRole.admin]).
Proof.
  split_and!.
  - apply role_includes_spec. by vm_compute.
  - apply role_includes_spec. by vm_compute.
  - apply role_includes_spec. by vm_compute.
  - intros c. apply elem_of_list_to_set.
  - intros []; apply role_includes_spec; by vm_compute.
  - intros c Hc. apply (bool_decide_eq_true_1 (c ∉ ROLE_CAPABILITIES UserRole.auditor)).
    revert c Hc. apply list.Forall_forall. repeat constructor; by vm_compute.
  - intros r c Hc. apply (bool_decide_eq_true_1
      (c ∈ ROLE_CAPABILITIES r ↔ r ∈ [UserRole.lead; UserRole.manager; UserRole.admin])).
    revert c Hc. apply list.Forall_forall. destruct r; repeat constructor; by vm_compute.
Qed.

(** a ticket is visible exactly to an actor who may read tickets, passes the tenant
    authority, and either sees all cases, is the assignee, or is in the ticket's
    team; every status change and attachment access implies it, and closing,
    canceling or escalating needs the closing capability on top. *)
Theorem ticket_visibility user t s :
  (ensure_ticket_visible user t (Some s) = Ok tt ↔
     CAP_TICKET_READ ∈ resolve_capabilities user (Some s) ∧
     (∃ r, ensure_ticket_tenant_authority s user t None = Ok r) ∧
     (has_global_case_visibility user (Some s) = true ∨
      Ticket.assignee_id t = Some (User.id user) ∨
      (truthy_id (User.team_id user) = true ∧ Ticket.team_id t = User.team_id user))) ∧
  (∀ st, ensure_can_change_status user t st (Some s) = Ok tt ↔
     CAP_TICKET_STATUS_CHANGE ∈ resolve_capabilities user (Some s) ∧
     ensure_ticket_visible user t (Some s) = Ok tt ∧
     (st ∈ [TicketStatus.closed; TicketStatus.canceled; TicketStatus.escalated] →
      CAP_TICKET_CLOSE ∈ resolve_capabilities user (Some s))) ∧
  (∀ a, ensure_attachment_accessible user a (Some t) (Some s) = Ok tt ↔
     ensure_ticket_visible user t (Some s) = Ok tt ∧
     (if bool_decide (TicketAttachment.visibility a = NoteVisibility.external)
      then CAP_ATTACHMENT_READ_EXTERNAL else CAP_ATTACHMENT_READ_INTERNAL)
       ∈ resolve_capabilities user (Some s)).
Proof.
  split_and!.
  - unfold ensure_ticket_visible. rewrite result_seq_Ok, ensure_capability_Ok, result_bind_Ok_iff.
    apply and_iff_compat_l.
    assert (∀ P Q : Prop, (P ↔ Q) →
      (∃ r, ensure_ticket_tenant_authority s user t None = Ok r ∧ P) ↔
      (∃ r, ensure_ticket_tenant_authority s user t None = Ok r) ∧ Q) as Hex by naive_solver.
    apply Hex. destruct (has_global_case_visibility user (Some s)); [by split; eauto|].
    case_bool_decide as Ha; [by split; eauto|].
    destruct (truthy_id _); cbn [andb]; [case_bool_decide as Ht|]; split; try done; eauto.
    + by intros [?|[?|[_ ?]]].
    + by intros [?|[?|[? _]]].
  - intros st. unfold ensure_can_change_status.
    rewrite !result_seq_Ok, ensure_capability_Ok.
    case_bool_decide as Hs; [rewrite ensure_capability_Ok|]; tauto.
  - intros a. unfold ensure_attachment_accessible. rewrite result_seq_Ok.
    by destruct (TicketAttachment.visibility a); reduce_decide; rewrite ensure_capability_Ok.
Qed.

(** ** Witnesses *)

Definition refuse_close : UserCapabilityOverride.t :=
  {| UserCapabilityOverride.id := 1; UserCapabilityOverride.user_id := 32;
     UserCapabilityOverride.capability := CAP_TICKET_CLOSE;
     UserCapabilityOverride.allowed := false |}.

Lemma capability_resolution_witness :
  bool_decide (CAP_TICKET_CLOSE ∈ resolve_capabilities_from_preloaded Fix.admin []) = true ∧
  CAP_TICKET_CLOSE ∉ resolve_capabilities_from_preloaded Fix.admin [refuse_close].
Proof.
  split; [by vm_compute|]. intros H.
  apply (capability_resolution Fix.admin [refuse_close]) in H;
    [|apply (bool_decide_eq_true_1 (NoDup _)); by vm_compute].
  destruct H as [_ [(o & Ho & _ & Ha)|[_ Ha]]].
  - apply elem_of_cons in Ho as [->|Ho]; [discriminate | by apply elem_of_nil in Ho].
  - specialize (Ha refuse_close (list_elem_of_here _ _) eq_refl). discriminate.
Defined.
