(* ===== verification/Sla.v ===== *)
(** * Service-level agreements

    [services/sla_service.py] over its calendar: which policy revision a ticket is
    assigned, due times and pauses, breach flags.  A ticket is attached to a
    session throughout, so [_runtime_session] always finds one; the detached
    branches are the definitions named [..._detached].

    Relationship attributes ([ticket.sla_policy]) are read afresh from the foreign
    key; of the policy they give, the code uses whether there is one. *)

From S2P Require Import Prelude Calendar Enums Models Fixtures.

(** ** Constants and policies *)

Definition DEFAULT_RISK_WINDOW_MINUTES : Z := 30.
Definition DEFAULT_POLICY_EFFECTIVE_FROM : Z := 0.
Definition DEFAULTS : list (TicketPriority.t * (Z * Z)) :=
  [(TicketPriority.low, (240, 2880)); (TicketPriority.medium, (120, 1440));
   (TicketPriority.high, (60, 720)); (TicketPriority.urgent, (15, 240))].

Definition jopt_num : option Z → json := json_of_option JNum.
Definition jopt_str : option string → json := json_of_option JStr.

Definition _default_snapshot (policy : SLAPolicy.t) (revision_id : option Z) : json :=
  let pause_reasons :=
    (if SLAPolicy.pause_on_waiting_customer policy then [JStr "waiting_customer"] else [])
    ++ (if SLAPolicy.pause_on_waiting_internal policy then [JStr "waiting_internal"] else []) in
  JObj [("schema", JStr "nexus.sla-assignment.v1"); ("policy_id", JNum (SLAPolicy.id policy));
        ("policy_revision_id", jopt_num revision_id); ("policy_version", JNum 1);
        ("priority", JStr (value (SLAPolicy.priority policy))); ("timezone_name", JStr "UTC");
        ("weekly_schedule", JObj []); ("holidays", JArr []);
        ("first_response_minutes", JNum (SLAPolicy.first_response_minutes policy));
        ("resolution_minutes", JNum (SLAPolicy.resolution_minutes policy));
        ("action_minutes", JNull); ("notification_minutes", JNull);
        ("risk_window_minutes", JNum DEFAULT_RISK_WINDOW_MINUTES);
        ("pause_reasons", JArr pause_reasons);
        ("scope", JObj [("global_template", JBool true)])].

Definition _revision_snapshot (r : SLAPolicyRevision.t) (policy : SLAPolicy.t) : json :=
  JObj [("schema", JStr "nexus.sla-assignment.v1"); ("policy_id", JNum (SLAPolicy.id policy));
        ("policy_revision_id", JNum (SLAPolicyRevision.id r));
        ("policy_version", JNum (SLAPolicyRevision.version r));
        ("priority", JStr (value (SLAPolicy.priority policy)));
        ("timezone_name", JStr (SLAPolicyRevision.timezone_name r));
        ("weekly_schedule", json_or (SLAPolicyRevision.weekly_schedule_json r) (JObj []));
        ("holidays", json_or (SLAPolicyRevision.holidays_json r) (JArr []));
        ("first_response_minutes", JNum (SLAPolicyRevision.first_response_minutes r));
        ("resolution_minutes", JNum (SLAPolicyRevision.resolution_minutes r));
        ("action_minutes", jopt_num (SLAPolicyRevision.action_minutes r));
        ("notification_minutes", jopt_num (SLAPolicyRevision.notification_minutes r));
        ("risk_window_minutes", JNum (SLAPolicyRevision.risk_window_minutes r));
        ("pause_reasons", json_or (SLAPolicyRevision.pause_reasons_json r) (JArr []));
        ("scope", JObj [("tenant_id", jopt_num (SLAPolicyRevision.tenant_id r));
                        ("global_template", JBool (SLAPolicyRevision.is_global_template r));
                        ("market_id", jopt_num (SLAPolicyRevision.market_id r));
                        ("channel_key", jopt_str (SLAPolicyRevision.channel_key r));
                        ("scenario_key", jopt_str (SLAPolicyRevision.scenario_key r))])].

Definition find_policy (s : Db.t) (priority : TicketPriority.t) : option SLAPolicy.t :=
  select_first (fun p => bool_decide (SLAPolicy.priority p = priority)) (Db.policies s).

Definition get_policy_for_priority (priority : TicketPriority.t) : M Db.t (option SLAPolicy.t) :=
  gets (fun s => find_policy s priority).

(** [f"{priority.value.title()} SLA"] *)
Definition title_word (s : string) : string :=
  match s with String c s' => String (upper_char c) s' | EmptyString => EmptyString end.

(** One iteration of the loop over [DEFAULTS] *)
Definition seed_priority (entry : TicketPriority.t * (Z * Z)) : M Db.t unit :=
  let '(priority, (first_minutes, resolution_minutes)) := entry in
  existing ← get_policy_for_priority priority;
  policy ← match existing with
           | Some p => mret p
           | None =>
               let mk i := {| SLAPolicy.id := i;
                              SLAPolicy.name := title_word (value priority) +:+ " SLA";
                              SLAPolicy.priority := priority;
                              SLAPolicy.first_response_minutes := first_minutes;
                              SLAPolicy.resolution_minutes := resolution_minutes;
                              SLAPolicy.pause_on_waiting_customer := true;
                              SLAPolicy.pause_on_waiting_internal := false |} in
               p ← gets (fun s => mk (tnext (Db.policies s)));
               modify (fun s => s <| Db.policies ::= fun t => table_add t mk |>);;
               mret p
           end;
  revision ← gets (fun s => select_first
               (fun r => (SLAPolicyRevision.policy_id r =? SLAPolicy.id policy) &&
                         (SLAPolicyRevision.version r =? 1)) (Db.revisions s));
  match revision with
  | Some _ => mret tt
  | None =>
      let snapshot := _default_snapshot policy None in
      now ← utc_now;
      modify (fun s => s <| Db.revisions ::= fun t => table_add t (fun i =>
        {| SLAPolicyRevision.id := i; SLAPolicyRevision.policy_id := SLAPolicy.id policy;
           SLAPolicyRevision.version := 1; SLAPolicyRevision.tenant_id := None;
           SLAPolicyRevision.is_global_template := true; SLAPolicyRevision.market_id := None;
           SLAPolicyRevision.channel_key := None; SLAPolicyRevision.scenario_key := None;
           SLAPolicyRevision.status := "approved"; SLAPolicyRevision.timezone_name := "UTC";
           SLAPolicyRevision.weekly_schedule_json := JObj [];
           SLAPolicyRevision.holidays_json := JArr [];
           SLAPolicyRevision.first_response_minutes := SLAPolicy.first_response_minutes policy;
           SLAPolicyRevision.resolution_minutes := SLAPolicy.resolution_minutes policy;
           SLAPolicyRevision.action_minutes := None;
           SLAPolicyRevision.notification_minutes := None;
           SLAPolicyRevision.risk_window_minutes := DEFAULT_RISK_WINDOW_MINUTES;
           SLAPolicyRevision.pause_reasons_json := json_get "pause_reasons" snapshot;
           SLAPolicyRevision.effective_from := DEFAULT_POLICY_EFFECTIVE_FROM;
           SLAPolicyRevision.effective_to := None; SLAPolicyRevision.approved_by := None;
           SLAPolicyRevision.created_at := now |}) |>)
  end.

Definition seed_default_sla_policies : M Db.t unit := iterM seed_priority DEFAULTS.

(** ** Revision selection *)

Definition text (t : Ticket.t) (column : string) : option string := Ticket.texts t !! column.

Definition _scenario_key (t : Ticket.t) : string :=
  py_lower (py_strip (str_or (text t "case_type") (str_or (text t "sub_category")
    (str_or (text t "category") (str_or (text t "ai_classification") EmptyString))))).

(** The filter of the query, on a revision joined with its policy *)
Definition revision_effective (t : Ticket.t) (at_ : Z) (x : SLAPolicyRevision.t * SLAPolicy.t)
    : bool :=
  let '(r, p) := x in
  bool_decide (SLAPolicy.priority p = Ticket.priority t) &&
  bool_decide (SLAPolicyRevision.status r = "approved") &&
  (SLAPolicyRevision.effective_from r <=? at_) &&
  match SLAPolicyRevision.effective_to r with None => true | Some e => at_ <? e end.

(** [column IS NULL OR column = v] *)
Definition unset_or {A} `{EqDecision A} (column : option A) (v : option A) : bool :=
  match column with None => true | Some _ => bool_decide (column = v) end.

(** The loop body over the selected rows: is the revision meant for this ticket? *)
Definition revision_in_scope (t : Ticket.t) (r : SLAPolicyRevision.t) : bool :=
  (if SLAPolicyRevision.is_global_template r then negb (not_null (SLAPolicyRevision.tenant_id r))
   else not_null (Ticket.tenant_id t) &&
        bool_decide (SLAPolicyRevision.tenant_id r = Ticket.tenant_id t)) &&
  unset_or (SLAPolicyRevision.market_id r) (Ticket.market_id t) &&
  unset_or (SLAPolicyRevision.channel_key r) (Some (value (Ticket.source_channel t))) &&
  unset_or (SLAPolicyRevision.scenario_key r) (Some (_scenario_key t)).

Definition joined_revisions (s : Db.t) : list (SLAPolicyRevision.t * SLAPolicy.t) :=
  omap (fun r => p ← table_get (Db.policies s) (SLAPolicyRevision.policy_id r); Some (r, p))
    (select (fun _ => true) (Db.revisions s)).

Definition _active_revisions (s : Db.t) (t : Ticket.t) (at_ : Z)
    : list (SLAPolicyRevision.t * SLAPolicy.t) :=
  filter (fun x => revision_in_scope t (fst x) = true)
    (filter (fun x => revision_effective t at_ x = true) (joined_revisions s)).

Definition revision_score (r : SLAPolicyRevision.t) : Z :=
  (if not_null (SLAPolicyRevision.tenant_id r) then 16 else 0) +
  (if not_null (SLAPolicyRevision.market_id r) then 8 else 0) +
  (if not_null (SLAPolicyRevision.channel_key r) then 4 else 0) +
  (if not_null (SLAPolicyRevision.scenario_key r) then 2 else 0).

(** [rank(a) < rank(b)], lexicographic on score, start, version and id *)
Definition rank_lt (a b : SLAPolicyRevision.t) : bool :=
  let lex (x y : Z) (rest : bool) := (x <? y) || ((x =? y) && rest) in
  lex (revision_score a) (revision_score b)
    (lex (SLAPolicyRevision.effective_from a) (SLAPolicyRevision.effective_from b)
      (lex (SLAPolicyRevision.version a) (SLAPolicyRevision.version b)
        (SLAPolicyRevision.id a <? SLAPolicyRevision.id b))).

(** [max(rows, key=rank) if rows else None] *)
Definition max_revision (rows : list (SLAPolicyRevision.t * SLAPolicy.t))
    : option (SLAPolicyRevision.t * SLAPolicy.t) :=
  match rows with
  | [] => None
  | x :: rest =>
      Some (foldl (fun best y => if rank_lt (fst best) (fst y) then y else best) x rest)
  end.

(** [value or utc_now()] *)
Definition or_now (at_ : option Z) : M Db.t Z :=
  match at_ with Some t => mret t | None => utc_now end.

Definition select_policy_revision (t : Ticket.t) (at_ : option Z)
    : M Db.t (option (SLAPolicyRevision.t * SLAPolicy.t)) :=
  observed_at ← or_now at_;
  gets (fun s => max_revision (_active_revisions s t observed_at)).

(** ** Assignment *)

Definition find_assignment (s : Db.t) (ticket_id : Z) : option TicketSLAAssignment.t :=
  select_first (fun a => TicketSLAAssignment.ticket_id a =? ticket_id) (Db.assignments s).
Definition _assignment (ticket_id : Z) : M Db.t (option TicketSLAAssignment.t) :=
  gets (fun s => find_assignment s ticket_id).

Definition revision_missing : exc := SLAConfigurationError "approved_sla_revision_missing".

(** [db.add(assignment); db.flush()] *)
Definition add_assignment (mk : Z → TicketSLAAssignment.t) : M Db.t TicketSLAAssignment.t := fun s =>
  (Ok (mk (tnext (Db.assignments s))),
   s <| Db.assignments ::= fun t => table_add t mk |>).

Definition ensure_ticket_sla_assignment (i : Z) (assigned_by at_ : option Z)
    : M Db.t TicketSLAAssignment.t :=
  ticket ← the_ticket i;
  existing ← _assignment i;
  match existing with
  | Some a => mret a
  | None =>
      selected ← select_policy_revision ticket at_;
      match selected with
      | None => raise revision_missing
      | Some (revision, policy) =>
          assigned_at ← or_now at_;
          assignment ← add_assignment (fun id =>
            {| TicketSLAAssignment.id := id; TicketSLAAssignment.ticket_id := i;
               TicketSLAAssignment.policy_revision_id := SLAPolicyRevision.id revision;
               TicketSLAAssignment.snapshot_json := _revision_snapshot revision policy;
               TicketSLAAssignment.assigned_at := assigned_at;
               TicketSLAAssignment.assigned_by := assigned_by |});
          set_ticket i (fun t => t <| Ticket.sla_policy_id := Some (SLAPolicy.id policy) |>);;
          mret assignment
      end
  end.

(** ** Pauses and targets *)

Definition find_open_pause (s : Db.t) (ticket_id : Z) : option TicketSLAPauseInterval.t :=
  select_first (fun p => (TicketSLAPauseInterval.ticket_id p =? ticket_id) &&
                         negb (not_null (TicketSLAPauseInterval.ended_at p))) (Db.pauses s).
Definition _open_pause (ticket_id : Z) : M Db.t (option TicketSLAPauseInterval.t) :=
  gets (fun s => find_open_pause s ticket_id).

(** In the order of [started_at] *)
Definition _pause_intervals (s : Db.t) (ticket_id : Z) : list TicketSLAPauseInterval.t :=
  sort_by (fun a b => TicketSLAPauseInterval.started_at a <=? TicketSLAPauseInterval.started_at b)
    (select (fun p => TicketSLAPauseInterval.ticket_id p =? ticket_id) (Db.pauses s)).

Definition find_target (s : Db.t) (ticket_id : Z) : option TicketSLATarget.t :=
  select_first (fun x => TicketSLATarget.ticket_id x =? ticket_id) (Db.targets s).
Definition _target (ticket_id : Z) : M Db.t (option TicketSLATarget.t) :=
  gets (fun s => find_target s ticket_id).

(** *** Reading a snapshot *)

(** [d[k]] *)
Definition json_item (k : string) (j : json) : result json :=
  match j with
  | JObj l => match assoc_get k l with Some v => Ok v | None => Err (LookupError k) end
  | _ => Err (TypeError "not subscriptable")
  end.

(** [int(v)] *)
Definition json_int (v : json) : result Z :=
  match v with
  | JNum z => Ok z
  | JBool b => Ok (if b then 1 else 0)
  | JFloat (m, e) => Ok (if 0 <=? e then m * 2 ^ e else Z.quot m (2 ^ (- e)))
  | JStr s => match py_int s with Some z => Ok z | None => Err (ValueError "invalid literal") end
  | _ => Err (TypeError "int() argument")
  end.

Definition policy_identity_invalid : exc :=
  SLAConfigurationError "sla_assignment_policy_identity_invalid".

Definition _assigned_policy_id (snapshot : json) : result Z :=
  match (v ← json_item "policy_id" snapshot; json_int v) with
  | Err _ => Err policy_identity_invalid
  | Ok policy_id => if policy_id <=? 0 then Err policy_identity_invalid else Ok policy_id
  end.

Definition timezone_of (snapshot : json) : string :=
  py_str (json_or (json_get "timezone_name" snapshot) (JStr "UTC")).
Definition schedule_of (snapshot : json) : json :=
  json_or (json_get "weekly_schedule" snapshot) (JObj []).
Definition holidays_of (snapshot : json) : json :=
  json_or (json_get "holidays" snapshot) (JArr []).

(** The calendar with the arguments of a snapshot *)
Definition add_seconds_by (tz : string → option Zone) (snapshot : json) (start secs : Z) : result Z :=
  add_business_seconds tz start secs (timezone_of snapshot) (schedule_of snapshot)
    (holidays_of snapshot).
Definition add_minutes_by (tz : string → option Zone) (snapshot : json) (start mins : Z) : result Z :=
  add_business_minutes tz start mins (timezone_of snapshot) (schedule_of snapshot)
    (holidays_of snapshot).

(** The loop of [total_pause_seconds] *)
Fixpoint sum_pauses (tz : string → option Zone) (snapshot : json) (observed_at total : Z)
    (l : list TicketSLAPauseInterval.t) : result Z :=
  match l with
  | [] => Ok total
  | p :: l' =>
      let started := TicketSLAPauseInterval.started_at p in
      let ended := default observed_at (TicketSLAPauseInterval.ended_at p) in
      if ended <? started then sum_pauses tz snapshot observed_at total l'
      else
        n ← business_seconds_between tz started ended (timezone_of snapshot)
              (schedule_of snapshot) (holidays_of snapshot);
        sum_pauses tz snapshot observed_at (total + n) l'
  end.

(** ** Applying the policy *)

(** What [apply_policy_to_ticket] computes before it writes *)
Record DueTimes := { first_due : Z; resolution_due : Z; paused_total : Z; risk_window : Z;
                     source_rev : Z; assigned_policy : Z }.

(** [add_business_seconds] again by the paused time, when there is any *)
Definition shift_by_pause (tz : string → option Zone) (snapshot : json) (paused due : Z) : result Z :=
  if paused =? 0 then Ok due else add_seconds_by tz snapshot due paused.

Definition due_minutes (snapshot : json) (key : string) : result Z :=
  v ← json_item key snapshot; json_int v.

Definition compute_due (tz : string → option Zone) (snapshot : json) (base observed_at : Z)
    (pauses : list TicketSLAPauseInterval.t) : result DueTimes :=
  policy_id ← _assigned_policy_id snapshot;
  fm ← due_minutes snapshot "first_response_minutes";
  first ← add_minutes_by tz snapshot base fm;
  rm ← due_minutes snapshot "resolution_minutes";
  res ← add_minutes_by tz snapshot base rm;
  paused ← sum_pauses tz snapshot observed_at 0 pauses;
  first ← shift_by_pause tz snapshot paused first;
  res ← shift_by_pause tz snapshot paused res;
  risk ← json_int (json_or (json_get "risk_window_minutes" snapshot) (JNum 0));
  rev ← json_int (json_or (json_get "policy_version" snapshot) (JNum 1));
  Ok {| first_due := first; resolution_due := res; paused_total := paused;
        risk_window := minutes (Z.max 0 risk); source_rev := rev; assigned_policy := policy_id |}.

(** The [values] written to the target row, new or existing *)
Definition target_values (a : TicketSLAAssignment.t) (d : DueTimes) (observed_at i id : Z)
    : TicketSLATarget.t :=
  {| TicketSLATarget.id := id; TicketSLATarget.ticket_id := i;
     TicketSLATarget.assignment_id := TicketSLAAssignment.id a;
     TicketSLATarget.first_response_due_at := first_due d;
     TicketSLATarget.resolution_due_at := resolution_due d;
     TicketSLATarget.first_response_risk_at := first_due d - risk_window d;
     TicketSLATarget.resolution_risk_at := resolution_due d - risk_window d;
     TicketSLATarget.paused_seconds := paused_total d;
     TicketSLATarget.calculated_at := observed_at; TicketSLATarget.updated_at := observed_at;
     TicketSLATarget.source_revision := Some (source_rev d) |}.

(** Add the target of ticket [i], or overwrite the one there is *)
Definition put_target (i : Z) (mk : Z → TicketSLATarget.t) : M Db.t unit :=
  modify (fun s =>
    match find_target s i with
    | None => s <| Db.targets ::= fun t => table_add t mk |>
    | Some x => s <| Db.targets ::=
                  table_put (TicketSLATarget.id x) (mk (TicketSLATarget.id x)) |>
    end).

(** The projection of target and open pause on the ticket *)
Definition project_due (d : DueTimes) (open : option TicketSLAPauseInterval.t) (t : Ticket.t)
    : Ticket.t :=
  t <| Ticket.sla_policy_id := Some (assigned_policy d) |>
    <| Ticket.first_response_due_at := Some (first_due d) |>
    <| Ticket.resolution_due_at := Some (resolution_due d) |>
    <| Ticket.total_paused_seconds := paused_total d |>
    <| Ticket.sla_paused := not_null open |>
    <| Ticket.sla_paused_at := TicketSLAPauseInterval.started_at <$> open |>
    <| Ticket.sla_pause_reason := TicketSLAPauseInterval.reason_code <$> open |>.

Definition policy_missing : exc := SLAConfigurationError "sla_policy_missing".

Definition apply_policy_to_ticket (i : Z) (policy : option SLAPolicy.t) (now assigned_by : option Z)
    : M Db.t unit :=
  match policy with
  | None => raise policy_missing
  | Some policy =>
      observed_at ← or_now now;
      ticket ← the_ticket i;
      assignment ← ensure_ticket_sla_assignment i assigned_by (Some observed_at);
      let snapshot := json_or (TicketSLAAssignment.snapshot_json assignment)
                              (_default_snapshot policy None) in
      s ← get;
      d ← lift (compute_due (Db.zoneinfo s) snapshot (Ticket.created_at ticket) observed_at
                  (_pause_intervals s i));
      put_target i (target_values assignment d observed_at i);;
      open_interval ← _open_pause i;
      set_ticket i (project_due d open_interval)
  end.

(** The branch for a ticket outside a session *)
Definition apply_policy_detached (policy : SLAPolicy.t) (base : Z) (t : Ticket.t) : Ticket.t :=
  t <| Ticket.sla_policy_id := Some (SLAPolicy.id policy) |>
    <| Ticket.first_response_due_at :=
         Some (base + minutes (SLAPolicy.first_response_minutes policy)) |>
    <| Ticket.resolution_due_at := Some (base + minutes (SLAPolicy.resolution_minutes policy)) |>.

(** [ticket.sla_policy or get_policy_for_priority(db, ticket.priority)] *)
Definition policy_of_ticket (i : Z) : M Db.t (option SLAPolicy.t) :=
  ticket ← the_ticket i;
  gets (fun s =>
    match (Ticket.sla_policy_id ticket ≫= table_get (Db.policies s)) with
    | Some p => Some p
    | None => find_policy s (Ticket.priority ticket)
    end).

(** ** Pausing and resuming *)

(** [set(snapshot.get("pause_reasons") or [])]; containers do not hash *)
Definition pause_reasons (snapshot : json) : result (list json) :=
  l ← iter_json (json_or (json_get "pause_reasons" snapshot) (JArr []));
  if forallb (fun j => match j with JArr _ | JObj _ => false | _ => true end) l
  then Ok l else Err (TypeError "unhashable type").

Definition has_reason (reason : string) (l : list json) : bool :=
  existsb (fun j => match j with JStr s => bool_decide (s = reason) | _ => false end) l.

Definition add_pause (mk : Z → TicketSLAPauseInterval.t) : M Db.t TicketSLAPauseInterval.t := fun s =>
  (Ok (mk (tnext (Db.pauses s))), s <| Db.pauses ::= fun t => table_add t mk |>).

Definition pause_sla (i : Z) (reason : string) (actor_id : option Z)
    : M Db.t TicketSLAPauseInterval.t :=
  let normalized := str_take 120 (squeeze reason) in
  require (nonempty normalized) (SLAConfigurationError "sla_pause_reason_required");;
  existing ← _open_pause i;
  match existing with
  | Some p =>
      require (bool_decide (TicketSLAPauseInterval.reason_code p = normalized))
        (SLAConfigurationError "sla_pause_already_open");;
      mret p
  | None =>
      assignment ← ensure_ticket_sla_assignment i actor_id None;
      allowed ← lift (pause_reasons (json_or (TicketSLAAssignment.snapshot_json assignment)
                        (JObj [])));
      require (has_reason normalized allowed)
        (SLAConfigurationError "sla_pause_reason_not_allowed");;
      started_at ← utc_now;
      created_at ← utc_now;
      interval ← add_pause (fun id =>
        {| TicketSLAPauseInterval.id := id; TicketSLAPauseInterval.ticket_id := i;
           TicketSLAPauseInterval.reason_code := normalized;
           TicketSLAPauseInterval.started_at := started_at;
           TicketSLAPauseInterval.ended_at := None;
           TicketSLAPauseInterval.started_by := actor_id;
           TicketSLAPauseInterval.ended_by := None;
           TicketSLAPauseInterval.created_at := created_at |});
      policy ← policy_of_ticket i;
      apply_policy_to_ticket i policy None actor_id;;
      mret interval
  end.

Definition _clear_pause_projection (t : Ticket.t) : Ticket.t :=
  t <| Ticket.sla_paused := false |> <| Ticket.sla_paused_at := None |>
    <| Ticket.sla_pause_reason := None |>.

(** [interval.ended_at = ...; interval.ended_by = ...; flush] *)
Definition close_pause (p : TicketSLAPauseInterval.t) (at_ : Z) (actor_id : option Z) : M Db.t unit :=
  modify (fun s => s <| Db.pauses ::= table_put (TicketSLAPauseInterval.id p)
    (p <| TicketSLAPauseInterval.ended_at := Some at_ |>
       <| TicketSLAPauseInterval.ended_by := actor_id |>) |>).

Definition resume_sla (i : Z) (actor_id : option Z) : M Db.t (option TicketSLAPauseInterval.t) :=
  interval ← _open_pause i;
  match interval with
  | None => set_ticket i _clear_pause_projection;; mret None
  | Some p =>
      now ← utc_now;
      close_pause p now actor_id;;
      set_ticket i _clear_pause_projection;;
      policy ← policy_of_ticket i;
      assignment ← _assignment i;
      when (not_null policy && not_null assignment)
        (apply_policy_to_ticket i policy None actor_id);;
      mret (Some p)
  end.

Definition non_blocking (e : exc) : bool :=
  bool_decide (e ∈ [revision_missing; policy_missing]).

(** The assignment, or [None] after the pause has been cleared because no approved
    revision exists *)
Definition assignment_or_unpaused (i : Z) (actor_id : option Z)
    : M Db.t (option TicketSLAAssignment.t) :=
  assignment ← _assignment i;
  match assignment with
  | Some a => mret (Some a)
  | None =>
      try_catch (a ← ensure_ticket_sla_assignment i actor_id None; mret (Some a))
        (fun e =>
           if non_blocking e then
             open ← _open_pause i;
             match open with
             | Some _ => resume_sla i actor_id;; mret None
             | None => set_ticket i _clear_pause_projection;; mret None
             end
           else raise e)
  end.

Definition status_reason (new_status : TicketStatus.t) (reasons : list json) : option string :=
  match new_status with
  | TicketStatus.waiting_customer =>
      if has_reason "waiting_customer" reasons then Some "waiting_customer" else None
  | TicketStatus.waiting_internal =>
      if has_reason "waiting_internal" reasons then Some "waiting_internal" else None
  | _ => None
  end.

Definition update_pause_state_for_status (i : Z) (new_status : TicketStatus.t)
    (actor_id : option Z) : M Db.t unit :=
  assignment ← assignment_or_unpaused i actor_id;
  match assignment with
  | None => mret tt
  | Some a =>
      reasons ← lift (pause_reasons (json_or (TicketSLAAssignment.snapshot_json a) (JObj [])));
      match status_reason new_status reasons with
      | Some reason => pause_sla i reason actor_id;; mret tt
      | None =>
          closed_interval ← resume_sla i actor_id;
          match closed_interval with
          | Some _ => mret tt
          | None =>
              policy ← policy_of_ticket i;
              when (not_null policy) (apply_policy_to_ticket i policy None actor_id)
          end
      end
  end.

Definition update_first_response (i : Z) : M Db.t unit :=
  ticket ← the_ticket i;
  match Ticket.first_response_at ticket with
  | Some _ => mret tt
  | None =>
      now ← utc_now;
      set_ticket i (fun t => t <| Ticket.first_response_at := Some now |>)
  end.

(** ** Breaches *)

(** The due times cached on the ticket *)
Definition cached_due (i : Z) : M Db.t (option Z * option Z) :=
  t ← the_ticket i; mret (Ticket.first_response_due_at t, Ticket.resolution_due_at t).

Definition runtime_non_blocking (e : exc) : bool :=
  bool_decide (e ∈ [revision_missing; SLAConfigurationError "sla_assignment_missing";
                    policy_missing]).

Definition _runtime_due_times (i now : Z) : M Db.t (option Z * option Z) :=
  target ← _target i;
  open ← _open_pause i;
  match target, open with
  | Some x, None => mret (Some (TicketSLATarget.first_response_due_at x),
                          Some (TicketSLATarget.resolution_due_at x))
  | _, _ =>
      policy ← policy_of_ticket i;
      match policy with
      | None => cached_due i
      | Some _ =>
          try_catch
            (apply_policy_to_ticket i policy (Some now) None;;
             target ← _target i;
             mret (TicketSLATarget.first_response_due_at <$> target,
                   TicketSLATarget.resolution_due_at <$> target))
            (fun e => if runtime_non_blocking e then cached_due i else raise e)
      end
  end.

Record Breaches := { first_breached : bool; resolution_breached : bool; overdue : bool }.

Definition past (now : Z) (due : option Z) : bool :=
  match due with Some d => d <? now | None => false end.

Definition open_status (st : TicketStatus.t) : bool :=
  negb (bool_decide (st ∈ [TicketStatus.closed; TicketStatus.canceled])).

(** The flags from the ticket, the time and the due times *)
Definition breaches (t : Ticket.t) (now : Z) (due : option Z * option Z) : Breaches :=
  {| first_breached := Ticket.first_response_breached t ||
                       (negb (not_null (Ticket.first_response_at t)) && past now (fst due));
     resolution_breached := Ticket.resolution_breached t ||
                            (open_status (Ticket.status t) && past now (snd due));
     overdue := open_status (Ticket.status t) && past now (snd due) |}.

Definition compute_sla_snapshot (i : Z) : M Db.t Breaches :=
  now ← utc_now;
  due ← _runtime_due_times i now;
  t ← the_ticket i;
  mret (breaches t now due).

(** The branch for a ticket outside a session *)
Definition compute_sla_snapshot_detached (t : Ticket.t) (now : Z) : Breaches :=
  breaches t now (Ticket.first_response_due_at t, Ticket.resolution_due_at t).

Definition breach_event (i : Z) (scope note : string) : TicketEvent.t :=
  {| TicketEvent.ticket_id := i; TicketEvent.actor_id := None;
     TicketEvent.event_type := EventType.sla_breached; TicketEvent.field_name := None;
     TicketEvent.old_value := None; TicketEvent.new_value := None;
     TicketEvent.note := Some note;
     TicketEvent.payload_json := JObj [("scope", JStr scope)] |}.

Definition first_breach (i : Z) : TicketEvent.t :=
  breach_event i "first_response" "First response SLA breached".
Definition resolution_breach (i : Z) : TicketEvent.t :=
  breach_event i "resolution" "Resolution SLA breached".

Definition evaluate_sla (i : Z) : M Db.t unit :=
  before ← the_ticket i;
  b ← compute_sla_snapshot i;
  set_ticket i (fun t => t <| Ticket.first_response_breached := first_breached b |>
                           <| Ticket.resolution_breached := resolution_breached b |>);;
  when (first_breached b && negb (Ticket.first_response_breached before))
    (log_event (first_breach i));;
  when (resolution_breached b && negb (Ticket.resolution_breached before))
    (log_event (resolution_breach i)).

(** ** What these operations may touch *)

#[global] Arguments find_assignment : simpl never.
#[global] Arguments find_open_pause : simpl never.
#[global] Arguments find_target : simpl never.
#[global] Arguments find_policy : simpl never.
#[global] Arguments compute_due : simpl never.
#[global] Arguments ticket_at : simpl never.

(** A ticket without the columns this module writes *)
Definition sla_core (t : Ticket.t) : Ticket.t :=
  t <| Ticket.sla_policy_id := None |> <| Ticket.first_response_due_at := None |>
    <| Ticket.resolution_due_at := None |> <| Ticket.total_paused_seconds := 0 |>
    <| Ticket.sla_paused := false |> <| Ticket.sla_paused_at := None |>
    <| Ticket.sla_pause_reason := None |> <| Ticket.first_response_breached := false |>
    <| Ticket.resolution_breached := false |> <| Ticket.first_response_at := None |>.

(** The database without the tables this module writes *)
Definition sla_rest (s : Db.t) : Db.t :=
  s <| Db.tickets := empty_table |> <| Db.events := [] |> <| Db.assignments := empty_table |>
    <| Db.pauses := empty_table |> <| Db.targets := empty_table |> <| Db.ticks := 0%nat |>.

(** [s] comes from [s0] by changes of the service-level data of ticket [i]. *)
Record sla_frame (i : Z) (s0 s : Db.t) : Prop := {
  fr_rest : sla_rest s = sla_rest s0;
  fr_next : tnext (Db.tickets s) = tnext (Db.tickets s0);
  fr_other : ∀ j, j ≠ i → ticket_at s j = ticket_at s0 j;
  fr_core : sla_core <$> ticket_at s i = sla_core <$> ticket_at s0 i;
  fr_events : ∃ l, Db.events s = Db.events s0 ++ l ∧
                Forall (fun e => e = first_breach i ∨ e = resolution_breach i) l;
  fr_assigned : ∀ j a, trows (Db.assignments s0) !! j = Some a →
                  trows (Db.assignments s) !! j = Some a;
  fr_closed : ∀ j p, trows (Db.pauses s0) !! j = Some p →
                not_null (TicketSLAPauseInterval.ended_at p) = true →
                trows (Db.pauses s) !! j = Some p;
  fr_ticks : (Db.ticks s0 ≤ Db.ticks s)%nat
}.

(** One assignment, one target and at most one open pause per ticket; pauses do not
    end before they start; the clock does not run backwards. *)
Record sla_wf (s : Db.t) : Prop := {
  wf_assignments : table_wf (Db.assignments s);
  wf_pauses : table_wf (Db.pauses s);
  wf_targets : table_wf (Db.targets s);
  wf_pause_id : ∀ j p, trows (Db.pauses s) !! j = Some p → TicketSLAPauseInterval.id p = j;
  wf_target_id : ∀ j x, trows (Db.targets s) !! j = Some x → TicketSLATarget.id x = j;
  wf_one_assignment : ∀ j k a b, trows (Db.assignments s) !! j = Some a →
    trows (Db.assignments s) !! k = Some b →
    TicketSLAAssignment.ticket_id a = TicketSLAAssignment.ticket_id b → j = k;
  wf_one_target : ∀ j k a b, trows (Db.targets s) !! j = Some a →
    trows (Db.targets s) !! k = Some b →
    TicketSLATarget.ticket_id a = TicketSLATarget.ticket_id b → j = k;
  wf_one_open : ∀ j k a b, trows (Db.pauses s) !! j = Some a → trows (Db.pauses s) !! k = Some b →
    TicketSLAPauseInterval.ended_at a = None → TicketSLAPauseInterval.ended_at b = None →
    TicketSLAPauseInterval.ticket_id a = TicketSLAPauseInterval.ticket_id b → j = k;
  wf_pause_order : ∀ j p, trows (Db.pauses s) !! j = Some p →
    TicketSLAPauseInterval.started_at p ≤ Db.clock s (Db.ticks s) ∧
    ∀ e, TicketSLAPauseInterval.ended_at p = Some e → TicketSLAPauseInterval.started_at p ≤ e;
  wf_clock : ∀ n, Db.clock s n ≤ Db.clock s (S n)
}.

Lemma sla_frame_refl i s : sla_frame i s s.
Proof. split; auto. exists []. by rewrite app_nil_r. Qed.

(** [guarded i s0 s]: the invariant, and the frame since [s0] *)
Definition guarded (i : Z) (s0 s : Db.t) : Prop := sla_wf s ∧ sla_frame i s0 s.

Lemma ticket_at_put s i t j :
  ticket_at (s <| Db.tickets ::= table_put i t |>) j = if decide (i = j) then Some t else ticket_at s j.
Proof. unfold ticket_at, table_get. cbn. apply lookup_table_put. Qed.

(** *** The steps *)

Lemma guarded_tick i s0 s : guarded i s0 s → guarded i s0 (s <| Db.ticks ::= S |>).
Proof.
  intros [W F]. split; [|destruct F; split; cbn; auto with lia].
  destruct W. split; auto. intros j p Hj. destruct (wf_pause_order0 j p Hj) as [H1 H2].
  split; [|done]. cbn in *. specialize (wf_clock0 (Db.ticks s)). lia.
Qed.

Lemma guarded_set i s0 f :
  (∀ t, sla_core (f t) = sla_core t) → preserves (guarded i s0) (set_ticket i f).
Proof.
  intros Hf. apply preserves_modify. intros s H. destruct (ticket_at s i) as [t|] eqn:Et; [|done].
  destruct H as [W F]. split; [by destruct W; split|]. destruct F. split; auto.
  - intros j Hj. rewrite ticket_at_put. case_decide; [congruence | auto].
  - rewrite ticket_at_put. case_decide; [|congruence]. rewrite <- fr_core0, Et. cbn. by rewrite Hf.
Qed.

Lemma guarded_event i s0 e :
  e = first_breach i ∨ e = resolution_breach i → preserves (guarded i s0) (log_event e).
Proof.
  intros He. apply preserves_modify. intros s [W F]. split; [by destruct W; split|].
  destruct F. split; auto. destruct fr_events0 as (l & Hl & Hf). exists (l ++ [e]). cbn.
  rewrite Hl, app_assoc. split; [done|]. apply list.Forall_app. split; [done|]. by constructor.
Qed.

Lemma guarded_the_ticket i s0 j : preserves (guarded i s0) (the_ticket j).
Proof. intros s H. unfold the_ticket. by destruct (ticket_at s j). Qed.

Lemma guarded_now i s0 : preserves (guarded i s0) utc_now.
Proof. intros s H. by apply guarded_tick. Qed.

Lemma guarded_or_now i s0 o : preserves (guarded i s0) (or_now o).
Proof. destruct o; [by intros s | apply guarded_now]. Qed.
#[export] Hint Resolve guarded_set guarded_event guarded_the_ticket guarded_now guarded_or_now : nexus.

Lemma find_assignment_Some s i a :
  find_assignment s i = Some a →
  ∃ j, trows (Db.assignments s) !! j = Some a ∧ TicketSLAAssignment.ticket_id a = i.
Proof.
  intros (j & Hj & Ht%Z.eqb_eq)%select_first_Some. eauto.
Qed.

Lemma find_assignment_intro s i j a :
  sla_wf s → trows (Db.assignments s) !! j = Some a → TicketSLAAssignment.ticket_id a = i →
  find_assignment s i = Some a.
Proof.
  intros W Hj Ht. apply (select_first_unique _ _ j); [done | by apply Z.eqb_eq |].
  intros k b Hk Hb%Z.eqb_eq. assert (j = k) as <- by (eapply wf_one_assignment; eauto; congruence).
  congruence.
Qed.

(** A new assignment for a ticket that has none *)
Lemma guarded_add_assignment i s0 s mk :
  guarded i s0 s → find_assignment s i = None →
  (∀ id, TicketSLAAssignment.ticket_id (mk id) = i) →
  let s' := s <| Db.assignments ::= fun t => table_add t mk |> in
  guarded i s0 s' ∧ find_assignment s' i = Some (mk (tnext (Db.assignments s))).
Proof.
  intros [W F] Hnone Hmk s'.
  assert (Hfresh := table_fresh _ (wf_assignments _ W)).
  assert (sla_wf s') as W'.
  { unfold find_assignment in Hnone. rewrite select_first_None in Hnone.
    destruct W. split; auto; cbn; [by apply table_wf_add|].
    intros j k a b. rewrite !lookup_table_add.
    repeat case_decide; intros Ha Hb Hab; simplify_eq; try done.
    - rewrite Hmk in Hab. pose proof (Hnone k b Hb) as E. apply Z.eqb_neq in E. congruence.
    - rewrite Hmk in Hab. pose proof (Hnone j a Ha) as E. apply Z.eqb_neq in E. congruence.
    - eauto. }
  split.
  - split; [done|]. destruct F. split; auto. intros j a Hj. cbn. rewrite lookup_table_add.
    apply fr_assigned0 in Hj. case_decide; [congruence | done].
  - apply (find_assignment_intro _ _ (tnext (Db.assignments s))); [done| |apply Hmk].
    cbn. rewrite lookup_table_add. by case_decide.
Qed.

Lemma hoare_the_ticket (P : Db.t → Prop) i :
  hoare P (the_ticket i) (fun t s => P s ∧ ticket_at s i = Some t) (fun _ s => P s).
Proof. intros s H. unfold the_ticket. by destruct (ticket_at s i) eqn:E. Qed.

Lemma hoare_now (P : Db.t → Prop) E :
  (∀ s, P s → P (s <| Db.ticks ::= S |>)) → (∀ s, P s → sla_wf s) →
  hoare P utc_now (fun now s => P s ∧ now ≤ Db.clock s (Db.ticks s)) E.
Proof.
  intros Ht HW s H. unfold utc_now. split; [by apply Ht|]. cbn. by apply (wf_clock s (HW s H)).
Qed.

(** Any assertion that does not look at the tick counter survives reading the clock. *)
Lemma hoare_or_now (P : Db.t → Prop) o E :
  (∀ s, P s → P (s <| Db.ticks ::= S |>)) → hoare P (or_now o) (fun _ s => P s) E.
Proof. intros Ht s H. destruct o; [done|]. by apply Ht. Qed.

(** What the assignment step keeps: the invariant, the frame and the pauses *)
Definition keeps (i : Z) (s0 : Db.t) (X : Table TicketSLAPauseInterval.t) (s : Db.t) : Prop :=
  guarded i s0 s ∧ Db.pauses s = X.

Lemma keeps_set i s0 X f :
  (∀ t, sla_core (f t) = sla_core t) → preserves (keeps i s0 X) (set_ticket i f).
Proof.
  intros Hf s [H HX]. split; [by apply guarded_set|]. rewrite <- HX.
  unfold set_ticket, modify. cbn. by destruct (ticket_at s i).
Qed.

Lemma ensure_assignment_hoare i by_ at_ s0 X :
  hoare (keeps i s0 X) (ensure_ticket_sla_assignment i by_ at_)
    (fun a s => keeps i s0 X s ∧ find_assignment s i = Some a)
    (fun _ s => keeps i s0 X s).
Proof.
  unfold ensure_ticket_sla_assignment.
  eapply hoare_bind; [apply hoare_the_ticket|]. intros t.
  eapply hoare_bind.
  { apply (hoare_gets _ _ (fun a s => keeps i s0 X s ∧ find_assignment s i = a)).
    by intros s [H _]. }
  intros [a|]; [by apply hoare_ret|].
  eapply hoare_bind.
  { apply (hoare_bind _ _ _ (fun _ s => keeps i s0 X s ∧ find_assignment s i = None)
             (fun _ s => keeps i s0 X s ∧ find_assignment s i = None)).
    - apply hoare_or_now. intros s [[H HX] Hn]. split; [|done]. split; [by apply guarded_tick | done].
    - intros now. by apply hoare_gets. }
  intros [[r p]|]; [|apply hoare_raise; by intros s [? _]].
  eapply hoare_bind.
  { apply (hoare_or_now (fun s => keeps i s0 X s ∧ find_assignment s i = None)).
    intros s [[H HX] Hn]. split; [|done]. split; [by apply guarded_tick | done]. }
  intros now.
  apply (hoare_bind _ _ _ (fun a s => keeps i s0 X s ∧ find_assignment s i = Some a)).
  { intros s [[H HX] Hn]. unfold add_assignment.
    destruct (guarded_add_assignment i s0 s (fun id =>
            {| TicketSLAAssignment.id := id; TicketSLAAssignment.ticket_id := i;
               TicketSLAAssignment.policy_revision_id := SLAPolicyRevision.id r;
               TicketSLAAssignment.snapshot_json := _revision_snapshot r p;
               TicketSLAAssignment.assigned_at := now;
               TicketSLAAssignment.assigned_by := by_ |}) H Hn ltac:(done)) as [H' Hf].
    split; [|done]. split; [exact H' | exact HX]. }
  intros a.
  apply (hoare_bind _ _ _ (fun _ s => keeps i s0 X s ∧ find_assignment s i = Some a)).
  { intros s [H Hf]. split; [by apply keeps_set|]. rewrite <- Hf.
    unfold set_ticket, modify. cbn. by destruct (ticket_at s i). }
  intros []. by apply hoare_ret.
Qed.

(** *** Targets *)

Lemma find_target_Some s i x :
  sla_wf s → find_target s i = Some x →
  trows (Db.targets s) !! TicketSLATarget.id x = Some x ∧ TicketSLATarget.ticket_id x = i.
Proof.
  intros W (j & Hj & Ht%Z.eqb_eq)%select_first_Some. by rewrite (wf_target_id s W j x Hj).
Qed.

Lemma guarded_put_target i s0 mk :
  (∀ id, TicketSLATarget.id (mk id) = id) → (∀ id, TicketSLATarget.ticket_id (mk id) = i) →
  preserves (guarded i s0) (put_target i mk).
Proof.
  intros Hid Hmk. apply preserves_modify. intros s [W F].
  destruct (find_target s i) as [x|] eqn:Ex.
  - destruct (find_target_Some s i x W Ex) as [Hx Hxi]. split; [|by destruct F; split].
    destruct W. split; auto; cbn; [by apply table_wf_put; [|exists x] | |].
    + intros j y. rewrite lookup_table_put. case_decide; [|apply wf_target_id0].
      intros [= <-]. congruence.
    + intros j k a b. rewrite !lookup_table_put. repeat case_decide; intros Ha Hb Hab; simplify_eq;
        try done; [| |by eauto]; rewrite Hmk in Hab.
      * apply (wf_one_target0 _ _ x b); congruence.
      * apply (wf_one_target0 _ _ a x); congruence.
  - assert (Hfresh := table_fresh _ (wf_targets _ W)). split; [|by destruct F; split].
    unfold find_target in Ex. rewrite select_first_None in Ex.
    destruct W. split; auto; cbn; [by apply table_wf_add | |].
    + intros j y. rewrite lookup_table_add. case_decide; [|apply wf_target_id0].
      intros [= <-]. congruence.
    + intros j k a b. rewrite !lookup_table_add. repeat case_decide; intros Ha Hb Hab; simplify_eq;
        try done; [| |by eauto];
        rewrite Hmk in Hab; [specialize (Ex k b Hb) | specialize (Ex j a Ha)];
        apply Z.eqb_neq in Ex; congruence.
Qed.

(** *** The ticket shows the open pause *)

Definition projected (t : Ticket.t) (open : option TicketSLAPauseInterval.t) : Prop :=
  Ticket.sla_paused t = not_null open ∧
  Ticket.sla_paused_at t = TicketSLAPauseInterval.started_at <$> open ∧
  Ticket.sla_pause_reason t = TicketSLAPauseInterval.reason_code <$> open.

Definition in_step (i : Z) (s : Db.t) : Prop :=
  ∃ t, ticket_at s i = Some t ∧ projected t (find_open_pause s i).

Lemma pauses_find s s' i : Db.pauses s' = Db.pauses s → find_open_pause s' i = find_open_pause s i.
Proof. unfold find_open_pause. by intros ->. Qed.

Lemma set_ticket_pauses i f s : Db.pauses (snd (set_ticket i f s)) = Db.pauses s.
Proof. unfold set_ticket, modify. cbn. by destruct (ticket_at s i). Qed.

(** A write of the projection brings an existing ticket in step. *)
Lemma in_step_set i f s t :
  ticket_at s i = Some t → projected (f t) (find_open_pause s i) →
  in_step i (snd (set_ticket i f s)).
Proof.
  intros Ht Hp. exists (f t). rewrite (pauses_find s _ i (set_ticket_pauses i f s)).
  split; [|done]. unfold set_ticket, modify. cbn. rewrite Ht, ticket_at_put. by case_decide.
Qed.

(** The ticket is not removed: a frame keeps it. *)
Lemma frame_ticket i s0 s t0 :
  sla_frame i s0 s → ticket_at s0 i = Some t0 → ∃ t, ticket_at s i = Some t ∧ sla_core t = sla_core t0.
Proof.
  intros F H. pose proof (fr_core i s0 s F) as E. rewrite H in E.
  destruct (ticket_at s i) as [t|]; [|done]. exists t. split; [done|].
  change (Some (sla_core t) = Some (sla_core t0)) in E. congruence.
Qed.

Lemma keeps_put_target i s0 X mk :
  (∀ id, TicketSLATarget.id (mk id) = id) → (∀ id, TicketSLATarget.ticket_id (mk id) = i) →
  preserves (keeps i s0 X) (put_target i mk).
Proof.
  intros Hid Hmk s [H HX]. split; [by apply guarded_put_target|]. rewrite <- HX.
  unfold put_target, modify. cbn. by destruct (find_target s i).
Qed.

(** Reading the shared ticket shows that the frame started with one. *)
Lemma hoare_ticket_exists i s0 X :
  hoare (keeps i s0 X) (the_ticket i) (fun _ s => is_Some (ticket_at s0 i) ∧ keeps i s0 X s)
    (fun _ s => keeps i s0 X s).
Proof.
  intros s H. unfold the_ticket. destruct (ticket_at s i) as [t|] eqn:E; [|done].
  split; [|done]. destruct H as [[_ F] _]. pose proof (fr_core i s0 s F) as Hc. rewrite E in Hc.
  destruct (ticket_at s0 i); [by eexists | done].
Qed.

Lemma apply_policy_hoare i policy now by_ s0 X :
  hoare (keeps i s0 X) (apply_policy_to_ticket i policy now by_)
    (fun _ s => keeps i s0 X s ∧ in_step i s) (fun _ s => keeps i s0 X s).
Proof.
  unfold apply_policy_to_ticket. destruct policy as [policy|]; [|by apply hoare_raise].
  eapply hoare_bind.
  { apply (hoare_or_now (keeps i s0 X)). intros s [H HX]. split; [by apply guarded_tick | done]. }
  intros at_. eapply hoare_bind.
  { apply hoare_ticket_exists. }
  intros t. cbn beta. apply hoare_pure. intros [t0 Ht0]. eapply hoare_bind.
  { eapply hoare_conseq; [| | | apply (ensure_assignment_hoare i by_ (Some at_) s0 X)];
      [done | intros a s [H _]; exact H | done]. }
  intros a. cbn beta. cbv zeta. eapply hoare_bind.
  { apply (hoare_gets _ (fun s => s) (fun s' s => keeps i s0 X s)). done. }
  intros s1. eapply hoare_bind.
  { apply (hoare_lift _ _ (fun _ s => keeps i s0 X s)); done. }
  intros d. eapply hoare_bind; [by apply hoare_keep, keeps_put_target|].
  intros []. apply (hoare_bind _ _ _ (fun o s => keeps i s0 X s ∧ find_open_pause s i = o)).
  { by apply hoare_gets. }
  intros o s [Hk Ho]. pose proof (keeps_set i s0 X (project_due d o) ltac:(done) s Hk) as Hk'.
  destruct (frame_ticket i s0 s t0 (proj2 (proj1 Hk)) Ht0) as (t1 & Ht1 & _).
  pose proof (in_step_set i (project_due d o) s t1 Ht1) as Hin. rewrite Ho in Hin.
  specialize (Hin ltac:(by split)). unfold set_ticket, modify in *. by split.
Qed.

(** *** Pauses *)

Lemma find_open_Some s i p :
  sla_wf s → find_open_pause s i = Some p →
  trows (Db.pauses s) !! TicketSLAPauseInterval.id p = Some p ∧
  TicketSLAPauseInterval.ticket_id p = i ∧ TicketSLAPauseInterval.ended_at p = None.
Proof.
  intros W (j & Hj & Hp)%select_first_Some. apply andb_true_iff in Hp as [Ht%Z.eqb_eq He].
  rewrite (wf_pause_id s W j p Hj). by destruct (TicketSLAPauseInterval.ended_at p).
Qed.

Lemma find_open_intro s i p :
  sla_wf s → trows (Db.pauses s) !! TicketSLAPauseInterval.id p = Some p →
  TicketSLAPauseInterval.ticket_id p = i → TicketSLAPauseInterval.ended_at p = None →
  find_open_pause s i = Some p.
Proof.
  intros W Hj Ht He. apply (select_first_unique _ _ (TicketSLAPauseInterval.id p)); [done| |].
  - by rewrite He, (proj2 (Z.eqb_eq _ _) Ht).
  - intros k q Hk Hq. apply andb_true_iff in Hq as [Hqt%Z.eqb_eq Hqe].
    assert (TicketSLAPauseInterval.id p = k) as <-; [|congruence].
    eapply wf_one_open; eauto; [|congruence]. by destruct (TicketSLAPauseInterval.ended_at q).
Qed.

(** Opening a pause for a ticket that has none open *)
Lemma guarded_add_pause i s0 s mk :
  guarded i s0 s → find_open_pause s i = None →
  (∀ id, TicketSLAPauseInterval.id (mk id) = id ∧ TicketSLAPauseInterval.ticket_id (mk id) = i ∧
     TicketSLAPauseInterval.ended_at (mk id) = None ∧
     TicketSLAPauseInterval.started_at (mk id) ≤ Db.clock s (Db.ticks s)) →
  let s' := s <| Db.pauses ::= fun t => table_add t mk |> in
  guarded i s0 s' ∧ find_open_pause s' i = Some (mk (tnext (Db.pauses s))).
Proof.
  intros [W F] Hnone Hmk s'. set (n := tnext (Db.pauses s)).
  destruct (Hmk n) as (Hid & Ht & He & Hs).
  assert (Hfresh := table_fresh _ (wf_pauses _ W)). fold n in Hfresh.
  assert (∀ k q, trows (Db.pauses s) !! k = Some q → TicketSLAPauseInterval.ended_at q = None →
    TicketSLAPauseInterval.ticket_id q ≠ i) as Hno.
  { unfold find_open_pause in Hnone. rewrite select_first_None in Hnone. intros k q Hk Hq Hqi.
    specialize (Hnone k q Hk). rewrite Hq, Hqi, Z.eqb_refl in Hnone. done. }
  assert (sla_wf s') as W'.
  { destruct W. split; auto; cbn; [by apply table_wf_add | | |].
    - intros j q. rewrite lookup_table_add. fold n.
      case_decide; [intros [= <-]; congruence | apply wf_pause_id0].
    - intros j k a b. rewrite !lookup_table_add. fold n.
      repeat case_decide; intros Ha Hb Hae Hbe Hab; simplify_eq; try done; [| |by eauto].
      + exfalso. apply (Hno k b Hb Hbe). congruence.
      + exfalso. apply (Hno j a Ha Hae). congruence.
    - intros j q. rewrite lookup_table_add. fold n. case_decide; [|apply wf_pause_order0].
      intros [= <-]. split; [done|]. by rewrite He. }
  split.
  - split; [done|]. destruct F. split; auto. intros j q Hj Hq. cbn. rewrite lookup_table_add.
    fold n. specialize (fr_closed0 j q Hj Hq). case_decide; [congruence | done].
  - apply find_open_intro; [done | | done | done]. cbn. rewrite lookup_table_add. fold n.
    case_decide; congruence.
Qed.

(** Closing the open pause of a ticket *)
Lemma guarded_close i s0 s p now actor :
  guarded i s0 s → find_open_pause s i = Some p → TicketSLAPauseInterval.started_at p ≤ now →
  let s' := snd (close_pause p now actor s) in guarded i s0 s' ∧ find_open_pause s' i = None.
Proof.
  intros [W F] Hp Hnow s'. destruct (find_open_Some s i p W Hp) as (Hl & Ht & He).
  set (p' := p <| TicketSLAPauseInterval.ended_at := Some now |>
               <| TicketSLAPauseInterval.ended_by := actor |>).
  assert (∀ j, trows (Db.pauses s') !! j =
    if decide (TicketSLAPauseInterval.id p = j) then Some p' else trows (Db.pauses s) !! j) as Hs'
    by (intros j; apply lookup_table_put).
  assert (sla_wf s') as W'.
  { destruct W. split; auto.
    - apply table_wf_put; [done | by exists p].
    - intros j q. rewrite Hs'. case_decide; [by intros [= <-] | apply wf_pause_id0].
    - intros j k a b. rewrite !Hs'. repeat case_decide; intros Ha Hb Hae Hbe Hab; simplify_eq; eauto.
    - intros j q. rewrite Hs'. case_decide; [|apply wf_pause_order0].
      intros [= <-]. destruct (wf_pause_order0 _ _ Hl) as [Hst _]. split; [done|].
      cbn. by intros e [= <-]. }
  split.
  - split; [done|]. destruct F. split; auto. intros j q Hj Hq. rewrite Hs'.
    specialize (fr_closed0 j q Hj Hq). case_decide as E; [|done]. rewrite <- E, Hl in fr_closed0.
    injection fr_closed0 as ->. by rewrite He in Hq.
  - destruct (find_open_pause s' i) as [q|] eqn:Eq; [|done].
    destruct (find_open_Some s' i q W' Eq) as (Hlq & Htq & Heq). rewrite Hs' in Hlq.
    case_decide as E; [by injection Hlq as <-|]. exfalso. apply E.
    eapply (wf_one_open s W); eauto. congruence.
Qed.

Definition unpaused (i : Z) (s : Db.t) : Prop := in_step i s ∧ find_open_pause s i = None.

Lemma hoare_policy (P : Db.t → Prop) i (E : exc → Db.t → Prop) :
  (∀ e s, P s → E e s) → hoare P (policy_of_ticket i) (fun _ => P) E.
Proof.
  intros HE s H. unfold policy_of_ticket, mbind, M_bind, the_ticket.
  destruct (ticket_at s i); [done | by apply HE].
Qed.

Lemma clear_projected t : projected (_clear_pause_projection t) None.
Proof. by split. Qed.

(** Clearing the projection of an existing ticket without an open pause *)
Lemma clear_hoare i s0 X :
  is_Some (ticket_at s0 i) →
  hoare (fun s => keeps i s0 X s ∧ find_open_pause s i = None) (set_ticket i _clear_pause_projection)
    (fun _ s => keeps i s0 X s ∧ unpaused i s) (fun _ s => keeps i s0 X s).
Proof.
  intros [t0 Ht0] s [Hk Ho].
  pose proof (keeps_set i s0 X _clear_pause_projection ltac:(done) s Hk) as Hk'.
  destruct (frame_ticket i s0 s t0 (proj2 (proj1 Hk)) Ht0) as (t & Ht & _).
  pose proof (in_step_set i _clear_pause_projection s t Ht) as Hin. rewrite Ho in Hin.
  specialize (Hin (clear_projected t)).
  pose proof (pauses_find s _ i (set_ticket_pauses i _clear_pause_projection s)) as Hp.
  unfold set_ticket, modify in *. cbn in *. split; [done|]. split; [done|]. congruence.
Qed.

(** The application of a policy keeps the open pause, whichever it is. *)
Lemma apply_policy_open i policy now by_ s0 o :
  hoare (fun s => guarded i s0 s ∧ find_open_pause s i = o) (apply_policy_to_ticket i policy now by_)
    (fun _ s => guarded i s0 s ∧ in_step i s ∧ find_open_pause s i = o) (fun _ s => guarded i s0 s).
Proof.
  intros s [H Ho]. pose proof (apply_policy_hoare i policy now by_ s0 (Db.pauses s) s (conj H eq_refl)) as Ha.
  destruct (apply_policy_to_ticket i policy now by_ s) as [[[]|e] s']; [|by destruct Ha].
  destruct Ha as [[H' HX] Hin]. split; [done|]. split; [done|]. by rewrite (pauses_find s s' i HX).
Qed.

Lemma ensure_assignment_open i by_ at_ s0 o :
  hoare (fun s => guarded i s0 s ∧ find_open_pause s i = o) (ensure_ticket_sla_assignment i by_ at_)
    (fun a s => guarded i s0 s ∧ find_open_pause s i = o ∧ find_assignment s i = Some a)
    (fun _ s => guarded i s0 s ∧ find_open_pause s i = o).
Proof.
  intros s [H Ho]. pose proof (ensure_assignment_hoare i by_ at_ s0 (Db.pauses s) s (conj H eq_refl)) as Ha.
  destruct (ensure_ticket_sla_assignment i by_ at_ s) as [[a|e] s'].
  - destruct Ha as [[H' HX] Hf]. by rewrite (pauses_find s s' i HX).
  - destruct Ha as [H' HX]. by rewrite (pauses_find s s' i HX).
Qed.

Lemma guarded_open_tick i s0 o s :
  guarded i s0 s ∧ find_open_pause s i = o →
  guarded i s0 (s <| Db.ticks ::= S |>) ∧ find_open_pause (s <| Db.ticks ::= S |>) i = o.
Proof. intros [H Ho]. split; [by apply guarded_tick | exact Ho]. Qed.

Lemma clear_open_hoare i s0 :
  is_Some (ticket_at s0 i) →
  hoare (fun s => guarded i s0 s ∧ find_open_pause s i = None)
    (set_ticket i _clear_pause_projection)
    (fun _ s => guarded i s0 s ∧ unpaused i s) (fun _ s => guarded i s0 s).
Proof.
  intros Hex s [H Ho].
  pose proof (clear_hoare i s0 (Db.pauses s) Hex s (conj (conj H eq_refl) Ho)) as Hc.
  destruct (set_ticket i _clear_pause_projection s) as [[[]|e] s']; [|by destruct Hc].
  by destruct Hc as [[? _] ?].
Qed.

(** After a resume the ticket exists and shows no pause. *)
Lemma resume_hoare i actor s0 :
  is_Some (ticket_at s0 i) →
  hoare (guarded i s0) (resume_sla i actor) (fun _ s => guarded i s0 s ∧ unpaused i s)
    (fun _ s => guarded i s0 s).
Proof.
  intros Hex. unfold resume_sla.
  apply (hoare_bind _ _ _ (fun o s => guarded i s0 s ∧ find_open_pause s i = o)).
  { by apply hoare_gets. }
  intros [p|].
  2:{ eapply hoare_bind; [by apply clear_open_hoare|]. intros []. by apply hoare_ret. }
  apply (hoare_bind _ _ _ (fun now s => (guarded i s0 s ∧ find_open_pause s i = Some p) ∧
    TicketSLAPauseInterval.started_at p ≤ now)).
  { intros s [H Ho]. destruct (guarded_open_tick i s0 (Some p) s (conj H Ho)) as [H' Ho'].
    split; [done|]. destruct H as [W _]. destruct (find_open_Some s i p W Ho) as (Hl & _).
    exact (proj1 (wf_pause_order s W _ p Hl)). }
  intros now. apply (hoare_bind _ _ _ (fun _ s => guarded i s0 s ∧ find_open_pause s i = None)).
  { intros s [[H Ho] Hst]. by apply guarded_close. }
  intros []. eapply hoare_bind; [by apply clear_open_hoare|].
  intros []. eapply hoare_bind.
  { apply (hoare_policy (fun s => guarded i s0 s ∧ unpaused i s)). by intros _ s [? _]. }
  intros policy. cbn beta. eapply hoare_bind.
  { apply (hoare_gets _ _ (fun _ s => guarded i s0 s ∧ unpaused i s)). done. }
  intros a. cbn beta. apply (hoare_bind _ _ _ (fun _ s => guarded i s0 s ∧ unpaused i s));
    [|intros []; by apply hoare_ret].
  destruct (not_null policy && not_null a); [|by apply hoare_ret].
  eapply hoare_conseq; [| | | apply (apply_policy_open i policy None actor s0 None)];
    [by intros s (? & _ & ?) | by intros [] s (? & ? & ?) | done].
Qed.

(** *** Status-driven pauses *)

Lemma in_step_ensure i by_ at_ : preserves (in_step i) (ensure_ticket_sla_assignment i by_ at_).
Proof.
  assert (∀ s, in_step i s → in_step i (s <| Db.ticks ::= S |>)) as Ht by done.
  assert (∀ o, preserves (in_step i) (or_now o)) as Ho.
  { intros [o|]; [by intros s | intros s H; by apply Ht]. }
  unfold ensure_ticket_sla_assignment. apply preserves_bind.
  { intros s H. unfold the_ticket. by destruct (ticket_at s i). }
  intros t. apply preserves_bind; [apply preserves_gets|]. intros [a|]; [apply preserves_ret|].
  apply preserves_bind; [apply preserves_bind; [apply Ho | intros; apply preserves_gets]|].
  intros [[r p]|]; [|apply preserves_raise]. apply preserves_bind; [apply Ho|]. intros now.
  apply preserves_bind; [by intros s H|]. intros a.
  apply preserves_bind; [|intros; apply preserves_ret].
  intros s (t0 & Ht0 & Hp). by apply (in_step_set i _ s t0).
Qed.

(** [Q]: whether the ticket is known to be in step before *)
Lemma pause_hoare_when (Q : Prop) i reason actor s0 :
  let normalized := str_take 120 (squeeze reason) in
  hoare (fun s => guarded i s0 s ∧ (Q → in_step i s)) (pause_sla i reason actor)
    (fun p s => guarded i s0 s ∧ (Q → in_step i s) ∧ find_open_pause s i = Some p ∧
                TicketSLAPauseInterval.reason_code p = normalized)
    (fun _ s => guarded i s0 s).
Proof.
  intros normalized. unfold pause_sla. fold normalized.
  set (P := fun s => guarded i s0 s ∧ (Q → in_step i s)).
  apply (hoare_bind _ _ _ (fun _ => P)). { destruct (nonempty normalized); [by apply hoare_ret|].
    apply hoare_raise. by intros s [? _]. }
  intros []. apply (hoare_bind _ _ _ (fun o s => P s ∧ find_open_pause s i = o)).
  { by apply hoare_gets. }
  intros [p|].
  { case_bool_decide as Hr; [|intros s [[? _] _]; done]. intros s [[H Hin] Hp]. done. }
  apply (hoare_bind _ _ _ (fun _ s => guarded i s0 s ∧ find_open_pause s i = None)).
  { eapply hoare_conseq; [| | | apply (ensure_assignment_open i actor None s0 None)];
      [by intros s [[? _] ?] | by intros a s (? & ? & _) | by intros e s [? _]]. }
  intros a. set (N := fun s => guarded i s0 s ∧ find_open_pause s i = None).
  apply (hoare_bind _ _ _ (fun _ => N)). { apply hoare_lift; [done | by intros e s _ [? _]]. }
  intros allowed. apply (hoare_bind _ _ _ (fun _ => N)).
  { destruct (has_reason normalized allowed); [by apply hoare_ret|].
    apply hoare_raise. by intros s [? _]. }
  intros []. apply (hoare_bind _ _ _ (fun st s => N s ∧ st ≤ Db.clock s (Db.ticks s))).
  { apply hoare_now; [intros s; apply guarded_open_tick | by intros s [[? _] _]]. }
  intros st. apply (hoare_bind _ _ _ (fun _ s => N s ∧ st ≤ Db.clock s (Db.ticks s))).
  { intros s [[H Hn] Hst]. split; [by apply guarded_open_tick|]. cbn.
    destruct H as [W _]. pose proof (wf_clock s W (Db.ticks s)). lia. }
  intros cr. apply (hoare_bind _ _ _ (fun p s => guarded i s0 s ∧ find_open_pause s i = Some p ∧
    TicketSLAPauseInterval.reason_code p = normalized)).
  { intros s [[H Hn] Hst]. unfold add_pause. cbn -[guarded find_open_pause].
    edestruct (guarded_add_pause i s0 s) as [H' Hf]; [exact H | exact Hn | |].
    2:{ split; [exact H'|]. split; [exact Hf | reflexivity]. }
    by intros id. }
  intros p. eapply hoare_bind.
  { apply (hoare_policy (fun s => guarded i s0 s ∧ find_open_pause s i = Some p ∧
      TicketSLAPauseInterval.reason_code p = normalized)). by intros e s [? _]. }
  intros policy. apply (hoare_bind _ _ _ (fun _ s => guarded i s0 s ∧ (Q → in_step i s) ∧
    find_open_pause s i = Some p ∧ TicketSLAPauseInterval.reason_code p = normalized));
    [|intros []; by apply hoare_ret].
  intros s (H & Hp & Hr).
  pose proof (apply_policy_open i policy None actor s0 (Some p) s (conj H Hp)) as Ha.
  destruct (apply_policy_to_ticket i policy None actor s) as [[[]|e] s']; [|done].
  by destruct Ha as (? & ? & ?).
Qed.

Lemma pause_hoare i reason actor s0 :
  let normalized := str_take 120 (squeeze reason) in
  hoare (fun s => guarded i s0 s ∧ in_step i s) (pause_sla i reason actor)
    (fun p s => guarded i s0 s ∧ in_step i s ∧ find_open_pause s i = Some p ∧
                TicketSLAPauseInterval.reason_code p = normalized)
    (fun _ s => guarded i s0 s).
Proof.
  intros normalized. eapply hoare_conseq; [| | | apply (pause_hoare_when True i reason actor s0)];
    [by intros s [? ?] | intros p s (? & ? & ? & ?); auto | done].
Qed.

Lemma frame_trans i a b c : sla_frame i a b → sla_frame i b c → sla_frame i a c.
Proof.
  intros [] []. split; try congruence; eauto with lia.
  - intros j Hj. rewrite fr_other1, fr_other0; done.
  - destruct fr_events0 as (l & Hl & Hf), fr_events1 as (l' & Hl' & Hf').
    exists (l ++ l'). rewrite Hl', Hl, app_assoc. split; [done|]. by apply list.Forall_app.
Qed.

Lemma guarded_trans i a b c : guarded i a b → guarded i b c → guarded i a c.
Proof. intros [_ F] [W F']. split; [done | by eapply frame_trans]. Qed.

Lemma guarded_refl i s : sla_wf s → guarded i s s.
Proof. intros W. split; [done | apply sla_frame_refl]. Qed.

(** An assignment is never replaced. *)
Lemma guarded_assignment i s0 s j a :
  sla_wf s0 → guarded i s0 s → find_assignment s0 j = Some a → find_assignment s j = Some a.
Proof.
  intros _ [W F] (k & Hk & Ht)%find_assignment_Some.
  by apply (find_assignment_intro s j k a W); [apply (fr_assigned i s0 s F)|].
Qed.

Lemma assignment_or_unpaused_hoare i actor s0 :
  is_Some (ticket_at s0 i) →
  hoare (fun s => guarded i s0 s ∧ in_step i s) (assignment_or_unpaused i actor)
    (fun o s => guarded i s0 s ∧ in_step i s ∧
       match o with None => find_open_pause s i = None | Some a => find_assignment s i = Some a end)
    (fun _ s => guarded i s0 s).
Proof.
  intros Hex. unfold assignment_or_unpaused. set (P := fun s => guarded i s0 s ∧ in_step i s).
  apply (hoare_bind _ _ _ (fun o s => P s ∧ find_assignment s i = o)).
  { by apply hoare_gets. }
  intros [a|]; [apply hoare_ret; by intros s [[? ?] ?]|].
  apply (hoare_try _ _ _ _ _ (fun _ => P)).
  - apply (hoare_bind _ _ _ (fun a s => P s ∧ find_assignment s i = Some a));
      [|intros a; apply hoare_ret; by intros s [[? ?] ?]].
    intros s [[H Hin] _].
    pose proof (ensure_assignment_open i actor None s0 _ s (conj H eq_refl)) as He.
    pose proof (in_step_ensure i actor None s Hin) as Hin'.
    destruct (ensure_ticket_sla_assignment i actor None s) as [[a|e] s']; cbn in Hin'.
    + by destruct He as (? & _ & ?).
    + by destruct He as (? & _).
  - intros e. destruct (non_blocking e); [|apply hoare_raise; by intros s [? _]].
    apply (hoare_bind _ _ _ (fun o s => P s ∧ find_open_pause s i = o)); [by apply hoare_gets|].
    intros [p|]; (eapply hoare_bind; [|intros u; apply hoare_ret; intros s Hs; exact Hs]).
    + eapply hoare_conseq; [| | | by apply (resume_hoare i actor s0)];
        [by intros s [[? _] _] | by intros u s (? & ? & ?) | done].
    + eapply hoare_conseq; [| | | by apply (clear_open_hoare i s0)];
        [by intros s [[? _] ?] | by intros u s (? & ? & ?) | done].
Qed.

(** The reason a status pauses for, by the assignment of the ticket *)
Definition pauses_for (a : TicketSLAAssignment.t) (st : TicketStatus.t) (reason : string) : Prop :=
  ∃ l, pause_reasons (json_or (TicketSLAAssignment.snapshot_json a) (JObj [])) = Ok l ∧
       status_reason st l = Some reason.

Lemma status_reason_normal st l r : status_reason st l = Some r → str_take 120 (squeeze r) = r.
Proof. by destruct st; cbn; try done; destruct (has_reason _ _); intros [= <-]. Qed.

Lemma pauses_for_unique a st r l :
  pause_reasons (json_or (TicketSLAAssignment.snapshot_json a) (JObj [])) = Ok l →
  status_reason st l = None → ¬ pauses_for a st r.
Proof. intros Hl Hs (l' & Hl' & Hs'). congruence. Qed.

Definition pause_tracks (i : Z) (st : TicketStatus.t) (s0 s : Db.t) : Prop :=
  match find_open_pause s i with
  | Some p => ∃ a, find_assignment s i = Some a ∧
                pauses_for a st (TicketSLAPauseInterval.reason_code p)
  | None => ∀ a r, find_assignment s0 i = Some a → ¬ pauses_for a st r
  end.

Lemma guarded_exists i s0 s : guarded i s0 s → is_Some (ticket_at s0 i) → is_Some (ticket_at s i).
Proof. intros [_ F] [t0 Ht]. destruct (frame_ticket i s0 s t0 F Ht) as (t & ? & _). by exists t. Qed.

Lemma update_pause_hoare i st actor s0 :
  sla_wf s0 → in_step i s0 →
  match update_pause_state_for_status i st actor s0 with
  | (Ok _, s) => guarded i s0 s ∧ in_step i s ∧ pause_tracks i st s0 s
  | (Err _, s) => guarded i s0 s
  end.
Proof.
  intros W Hin. assert (is_Some (ticket_at s0 i)) as Hex.
  { destruct Hin as (t & ? & _). by exists t. }
  unfold update_pause_state_for_status.
  pose proof (assignment_or_unpaused_hoare i actor s0 Hex s0 (conj (guarded_refl i s0 W) Hin)) as Ha.
  destruct (assignment_or_unpaused i actor s0) as [[o|e] s1] eqn:E;
    [|by rewrite (bind_run_Err _ _ _ _ _ E)].
  rewrite (bind_run_Ok _ _ _ _ _ E). destruct Ha as (H1 & Hin1 & Ho).
  destruct o as [a|]; cbn -[guarded in_step pause_tracks lift mbind pause_reasons json_or].
  2:{ split; [done|]. split; [done|]. unfold pause_tracks. rewrite Ho.
      intros a r Ha. unfold assignment_or_unpaused, mbind at 1, M_bind at 1, _assignment, gets in E.
      rewrite Ha in E. discriminate E. }
  assert (sla_wf s1) as W1 by apply H1.
  destruct (pause_reasons _) as [l|e] eqn:El; [|done].
  erewrite bind_run_Ok by reflexivity.
  assert (∀ s2, guarded i s1 s2 → find_assignment s2 i = Some a) as Hmono
    by (intros s2 H2; by apply (guarded_assignment i s1)).
  assert (∀ b, find_assignment s0 i = Some b → b = a) as Huniq.
  { intros b Hb. apply (guarded_assignment i s0 s1 i b W H1) in Hb. congruence. }
  destruct (status_reason st l) as [r|] eqn:Er.
  - pose proof (pause_hoare i r actor s1 s1 (conj (guarded_refl i s1 W1) Hin1)) as Hp.
    destruct (pause_sla i r actor s1) as [[p|e] s2] eqn:E2;
      [|rewrite (bind_run_Err _ _ _ _ _ E2); by eapply guarded_trans].
    rewrite (bind_run_Ok _ _ _ _ _ E2). destruct Hp as (H2 & Hin2 & Hp & Hr).
    split; [by eapply guarded_trans|]. split; [done|]. unfold pause_tracks. rewrite Hp.
    exists a. split; [by apply Hmono|]. exists l. split; [done|].
    rewrite Hr. by rewrite (status_reason_normal st l r Er).
  - assert (∀ s2, guarded i s1 s2 ∧ unpaused i s2 →
      guarded i s0 s2 ∧ in_step i s2 ∧ pause_tracks i st s0 s2) as Hdone.
    { intros s2 (H2 & Hin2 & Hn). split; [by eapply guarded_trans|]. split; [done|].
      unfold pause_tracks. rewrite Hn. intros b r Hb. rewrite (Huniq b Hb).
      by eapply pauses_for_unique. }
    pose proof (resume_hoare i actor s1 (guarded_exists i s0 s1 H1 Hex) s1 (guarded_refl i s1 W1)) as Hr.
    destruct (resume_sla i actor s1) as [[o|e] s2] eqn:E2;
      [|rewrite (bind_run_Err _ _ _ _ _ E2); by eapply guarded_trans].
    rewrite (bind_run_Ok _ _ _ _ _ E2). destruct o as [p|]; [by apply Hdone|].
    destruct Hr as [H2 [Hin2 Hn]].
    destruct (policy_of_ticket i s2) as [[policy|e] s3] eqn:E3.
    + assert (s3 = s2) as ->.
      { unfold policy_of_ticket, the_ticket, mbind, M_bind, gets in E3.
        destruct (ticket_at s2 i); by injection E3. }
      rewrite (bind_run_Ok _ _ _ _ _ E3). destruct (not_null policy); [|by apply Hdone].
      cbn [when].
      pose proof (apply_policy_open i policy None actor s1 None s2 (conj H2 Hn)) as Ha'.
      destruct (apply_policy_to_ticket i policy None actor s2) as [[[]|e] s4].
      * apply Hdone. by destruct Ha' as (? & ? & ?).
      * by eapply guarded_trans.
    + rewrite (bind_run_Err _ _ _ _ _ E3).
      assert (s3 = s2) as ->; [|by eapply guarded_trans].
      unfold policy_of_ticket, the_ticket, mbind, M_bind, gets in E3.
      destruct (ticket_at s2 i); by injection E3.
Qed.

(** ** Histories of service-level operations on a ticket *)

Inductive sla_op :=
| OpAssign (assigned_by at_ : option Z)
| OpApply (policy : option SLAPolicy.t) (now assigned_by : option Z)
| OpPause (reason : string) (actor : option Z)
| OpResume (actor : option Z)
| OpStatus (st : TicketStatus.t) (actor : option Z)
| OpFirstResponse
| OpEvaluate.

Definition run_sla (i : Z) (o : sla_op) : M Db.t unit :=
  match o with
  | OpAssign by_ at_ => ensure_ticket_sla_assignment i by_ at_;; mret tt
  | OpApply p now by_ => apply_policy_to_ticket i p now by_
  | OpPause r a => pause_sla i r a;; mret tt
  | OpResume a => resume_sla i a;; mret tt
  | OpStatus st a => update_pause_state_for_status i st a
  | OpFirstResponse => update_first_response i
  | OpEvaluate => evaluate_sla i
  end.

Lemma guarded_ensure i by_ at_ s0 : preserves (guarded i s0) (ensure_ticket_sla_assignment i by_ at_).
Proof.
  intros s H. pose proof (ensure_assignment_hoare i by_ at_ s0 _ s (conj H eq_refl)) as He.
  destruct (ensure_ticket_sla_assignment i by_ at_ s) as [[a|e] s'].
  - by destruct He as [[? _] _].
  - by destruct He as [? _].
Qed.

Lemma guarded_apply i p now by_ s0 : preserves (guarded i s0) (apply_policy_to_ticket i p now by_).
Proof.
  intros s H. pose proof (apply_policy_hoare i p now by_ s0 _ s (conj H eq_refl)) as He.
  destruct (apply_policy_to_ticket i p now by_ s) as [[a|e] s'].
  - by destruct He as [[? _] _].
  - by destruct He as [? _].
Qed.

Lemma guarded_policy i s0 : preserves (guarded i s0) (policy_of_ticket i).
Proof.
  apply preserves_bind; [apply guarded_the_ticket | intros; apply preserves_gets].
Qed.

Lemma guarded_resume i a s0 : preserves (guarded i s0) (resume_sla i a).
Proof.
  intros s H. unfold resume_sla, mbind at 1, M_bind at 1, _open_pause, gets.
  destruct (find_open_pause s i) as [p|] eqn:Ep; revert s H Ep.
  - intros s H Ep. unfold mbind at 1, M_bind at 1, utc_now.
    set (now := Db.clock s (Db.ticks s)). set (s1 := s <| Db.ticks ::= S |>).
    destruct (guarded_open_tick i s0 (Some p) s (conj H Ep)) as [H1 Ep1]. fold s1 in H1, Ep1.
    destruct H as [W F]. destruct (find_open_Some s i p W Ep) as (Hl & _).
    destruct (guarded_close i s0 s1 p now a H1 Ep1 (proj1 (wf_pause_order s W _ p Hl))) as [H2 _].
    unfold close_pause, modify in *. cbn -[guarded resume_sla set_ticket policy_of_ticket _assignment
      apply_policy_to_ticket when mbind s1] in *.
    unfold mbind at 1, M_bind at 1. cbv beta iota.
    match goal with |- guarded _ _ (snd (?m ?x)) =>
      apply (fun Hp : preserves (guarded i s0) m => Hp x H2) end.
    apply preserves_bind; [apply guarded_set; done | intros _].
    apply preserves_bind; [apply guarded_policy | intros policy].
    apply preserves_bind; [apply preserves_gets | intros x].
    apply preserves_bind; [apply preserves_when, guarded_apply | intros _; apply preserves_ret].
  - intros s H _. revert s H.
    apply preserves_bind; [apply guarded_set; done | intros _; apply preserves_ret].
Qed.

Lemma guarded_pause i r a s0 : preserves (guarded i s0) (pause_sla i r a).
Proof.
  intros s H. pose proof (pause_hoare_when False i r a s0 s (conj H (False_ind _))) as Hp.
  destruct (pause_sla i r a s) as [[p|e] s']; [by destruct Hp as [? _] | done].
Qed.

#[export] Hint Resolve guarded_ensure guarded_apply guarded_policy guarded_resume guarded_pause : nexus.

Lemma guarded_update i st a s0 : preserves (guarded i s0) (update_pause_state_for_status i st a).
Proof.
  unfold update_pause_state_for_status, assignment_or_unpaused, _assignment, _open_pause.
  preserve; auto with nexus; apply guarded_set; done.
Qed.

Lemma guarded_first_response i s0 : preserves (guarded i s0) (update_first_response i).
Proof.
  unfold update_first_response. preserve; auto with nexus.
Qed.

Lemma guarded_runtime_due i now s0 : preserves (guarded i s0) (_runtime_due_times i now).
Proof.
  unfold _runtime_due_times, cached_due, _target, _open_pause. preserve; auto with nexus.
Qed.

Lemma guarded_evaluate i s0 : preserves (guarded i s0) (evaluate_sla i).
Proof.
  unfold evaluate_sla, compute_sla_snapshot. preserve; auto using guarded_runtime_due with nexus.
Qed.

Lemma guarded_run i o s0 : preserves (guarded i s0) (run_sla i o).
Proof.
  destruct o; cbn [run_sla]; preserve;
    auto using guarded_update, guarded_first_response, guarded_evaluate with nexus.
Qed.

(** A history of operations on any tickets, each returning or raising *)
Definition run_history (l : list (Z * sla_op)) (s : Db.t) : Db.t :=
  foldl (fun s x => snd (run_sla (fst x) (snd x) s)) s l.

(** C36: whatever service-level operations run, on whichever tickets, and whether they
    return or raise: each ticket has at most one assignment, one target and one
    open pause, and no pause ends before it starts; an assignment, once made, is
    never changed or removed, and neither is a pause that has ended; nothing but
    service-level columns, breach events and service-level rows changes. *)
Theorem sla_reachable_wf l s :
  sla_wf s →
  let s' := run_history l s in
  sla_wf s' ∧
  (∀ j a, trows (Db.assignments s) !! j = Some a → trows (Db.assignments s') !! j = Some a) ∧
  (∀ j p, trows (Db.pauses s) !! j = Some p →
     not_null (TicketSLAPauseInterval.ended_at p) = true →
     trows (Db.pauses s') !! j = Some p) ∧
  (∀ j, sla_core <$> ticket_at s' j = sla_core <$> ticket_at s j) ∧
  sla_rest s' = sla_rest s ∧
  (∃ es, Db.events s' = Db.events s ++ es ∧
     Forall (fun e => TicketEvent.event_type e = EventType.sla_breached) es).
Proof.
  cbv zeta. revert s. induction l as [|[i o] l IH]; intros s W.
  { split; [done|]. split_and!; auto. exists []. by rewrite app_nil_r. }
  pose proof (guarded_run i o s s (guarded_refl i s W)) as [W1 F].
  cbn [run_history foldl fst snd] in *. set (s1 := snd (run_sla i o s)) in *.
  destruct (IH s1 W1) as (W' & Ha & Hp & Ht & Hr & es & He & Hes). destruct F.
  split; [done|]. split_and!; auto.
  - intros j. rewrite Ht. destruct (decide (j = i)) as [->|Hne]; [done|]. by rewrite fr_other0.
  - unfold run_history in Hr. congruence.
  - destruct fr_events0 as (l' & Hl' & Hf). exists (l' ++ es).
    unfold run_history in He. rewrite He, Hl', app_assoc. split; [done|].
    apply list.Forall_app. split; [|done]. eapply Forall_impl; [|exact Hf].
    by intros e [-> | ->].
Qed.

(** C37: a status change brings the pause in line with the status.  If it returns, the
    ticket shows exactly the open pause there is; a pause is open only when the
    assignment of the ticket pauses for that status, for that very reason; and if an
    assignment that was there pauses for the status, a pause is open. *)
Theorem sla_pause_tracks_status i st actor s s' :
  sla_wf s → in_step i s → update_pause_state_for_status i st actor s = (Ok tt, s') →
  in_step i s' ∧
  (∀ p, find_open_pause s' i = Some p →
     ∃ a, find_assignment s' i = Some a ∧ pauses_for a st (TicketSLAPauseInterval.reason_code p)) ∧
  (∀ a r, find_assignment s i = Some a → pauses_for a st r →
     ∃ p, find_open_pause s' i = Some p ∧ TicketSLAPauseInterval.reason_code p = r).
Proof.
  intros W Hin H. pose proof (update_pause_hoare i st actor s W Hin) as Hu. rewrite H in Hu.
  destruct Hu as (G & Hin' & Ht). split; [done|]. unfold pause_tracks in Ht. split.
  - intros p Hp. by rewrite Hp in Ht.
  - intros a r Ha Hr. destruct (find_open_pause s' i) as [p|]; [|by destruct (Ht a r Ha)].
    exists p. split; [done|]. destruct Ht as (b & Hb & l & Hl & Hs).
    rewrite (guarded_assignment i s s' i a W G Ha) in Hb. injection Hb as <-.
    destruct Hr as (l' & Hl' & Hs'). congruence.
Qed.

(** ** Breach flags *)

(** What decides the flags besides the due times, and the events so far *)
Definition flag_state (t : Ticket.t) : bool * bool * TicketStatus.t * option Z :=
  (Ticket.first_response_breached t, Ticket.resolution_breached t, Ticket.status t,
   Ticket.first_response_at t).

Definition flags_are (i : Z) (es : list TicketEvent.t) fl (s : Db.t) : Prop :=
  Db.events s = es ∧ flag_state <$> ticket_at s i = Some fl.

Lemma flags_the_ticket i es fl : preserves (flags_are i es fl) (the_ticket i).
Proof. intros s H. unfold the_ticket. by destruct (ticket_at s i). Qed.

Lemma flags_or_now i es fl o : preserves (flags_are i es fl) (or_now o).
Proof. destruct o; by intros s. Qed.

Lemma flags_now i es fl : preserves (flags_are i es fl) utc_now.
Proof. by intros s. Qed.

Lemma flags_set i es fl f :
  (∀ t, flag_state (f t) = flag_state t) → preserves (flags_are i es fl) (set_ticket i f).
Proof.
  intros Hf. apply preserves_modify. intros s [He Hfl]. destruct (ticket_at s i) as [t|] eqn:Et; [|done].
  split; [exact He|]. rewrite ticket_at_put. case_decide; [|congruence].
  rewrite <- Hfl. change (Some (flag_state (f t)) = Some (flag_state t)). by rewrite Hf.
Qed.

Lemma flags_put_target i es fl mk : preserves (flags_are i es fl) (put_target i mk).
Proof. apply preserves_modify. intros s H. by destruct (find_target s i). Qed.

Lemma flags_add_assignment i es fl mk : preserves (flags_are i es fl) (add_assignment mk).
Proof. by intros s. Qed.
#[export] Hint Resolve flags_the_ticket flags_or_now flags_now flags_set flags_put_target
  flags_add_assignment : nexus.

Lemma flags_ensure i by_ at_ es fl :
  preserves (flags_are i es fl) (ensure_ticket_sla_assignment i by_ at_).
Proof.
  unfold ensure_ticket_sla_assignment, _assignment, select_policy_revision.
  preserve; auto with nexus.
Qed.
#[export] Hint Resolve flags_ensure : nexus.

Lemma flags_apply i p now by_ es fl :
  preserves (flags_are i es fl) (apply_policy_to_ticket i p now by_).
Proof.
  unfold apply_policy_to_ticket, _open_pause. preserve; auto with nexus.
Qed.
#[export] Hint Resolve flags_apply : nexus.

Lemma flags_runtime_due i now es fl : preserves (flags_are i es fl) (_runtime_due_times i now).
Proof.
  unfold _runtime_due_times, cached_due, _target, _open_pause, policy_of_ticket.
  preserve; auto with nexus.
Qed.

(** The flags that get set, and the events that go with them *)
Definition new_breach_events (i : Z) (before after : Ticket.t) : list TicketEvent.t :=
  (if Ticket.first_response_breached after && negb (Ticket.first_response_breached before)
   then [first_breach i] else []) ++
  (if Ticket.resolution_breached after && negb (Ticket.resolution_breached before)
   then [resolution_breach i] else []).

Lemma evaluate_run i s t s' :
  ticket_at s i = Some t → evaluate_sla i s = (Ok tt, s') →
  ∃ due now t',
    ticket_at s' i = Some t' ∧
    Ticket.first_response_breached t' = first_breached (breaches t now due) ∧
    Ticket.resolution_breached t' = resolution_breached (breaches t now due) ∧
    Db.events s' = Db.events s ++ new_breach_events i t t'.
Proof.
  intros Ht H. unfold evaluate_sla in H.
  assert (the_ticket i s = (Ok t, s)) as Hr by (unfold the_ticket; by rewrite Ht).
  rewrite (bind_run_Ok _ _ _ _ _ Hr) in H.
  apply bind_Ok_inv in H as (b & s1 & Hb & H). unfold compute_sla_snapshot in Hb.
  apply bind_Ok_inv in Hb as (now & s2 & Hn & Hb). apply bind_Ok_inv in Hb as (due & s3 & Hd & Hb).
  apply bind_Ok_inv in Hb as (t1 & s4 & Ht1 & Hb).
  unfold mret, M_ret in Hb. injection Hb as <- <-.
  set (fl := flag_state t).
  assert (flags_are i (Db.events s) fl s3) as H3.
  { pose proof (flags_now i (Db.events s) fl s) as F1. rewrite Hn in F1.
    pose proof (flags_runtime_due i now (Db.events s) fl s2) as F2. rewrite Hd in F2.
    apply F2, F1. split; [done|]. by rewrite Ht. }
  assert (s4 = s3 ∧ ticket_at s3 i = Some t1) as [-> Ht3].
  { unfold the_ticket in Ht1. destruct (ticket_at s3 i); [|done]. by injection Ht1 as <- <-. }
  destruct H3 as [He Hfl]. rewrite Ht3 in Hfl.
  change (Some (flag_state t1) = Some (flag_state t)) in Hfl. injection Hfl as E1 E2 E3 E4.
  apply bind_Ok_inv in H as ([] & s5 & Hs & H). unfold set_ticket, modify in Hs.
  rewrite Ht3 in Hs. injection Hs as Hs. apply bind_Ok_inv in H as ([] & s6 & Hf & H).
  unfold breaches in *. cbn [first_breached resolution_breached overdue] in *.
  rewrite E1, E2, E3, E4 in *.
  set (fb := Ticket.first_response_breached t || _) in *.
  set (rb := Ticket.resolution_breached t || _) in *.
  set (t' := t1 <| Ticket.first_response_breached := fb |> <| Ticket.resolution_breached := rb |>).
  assert (ticket_at s5 i = Some t' ∧ Db.events s5 = Db.events s) as [H5 He5].
  { rewrite <- Hs. rewrite ticket_at_put. split; [by case_decide | exact He]. }
  exists due, now, t'.
  assert (ticket_at s' i = ticket_at s5 i ∧ Db.events s' = Db.events s5 ++
    (if fb && negb (Ticket.first_response_breached t) then [first_breach i] else []) ++
    (if rb && negb (Ticket.resolution_breached t) then [resolution_breach i] else [])) as [H6 He6].
  { destruct (fb && _); unfold when, log_event, modify, mret, M_ret in Hf; injection Hf as <-;
    destruct (rb && _); unfold when, log_event, modify, mret, M_ret in H; injection H as <-;
      cbn; rewrite ?app_nil_r, <- ?app_assoc; done. }
  split; [by rewrite H6|]. split; [done|]. split; [done|]. rewrite He6, He5. done.
Qed.

(** an evaluation of the breach flags of a ticket.  A flag that is set stays set; a
    flag that is newly set is logged by exactly one event, and nothing else is
    logged; a closed or canceled ticket is not newly in breach of its resolution
    time, nor a ticket with a first response of its response time. *)
Theorem sla_breach_flags i s t s' :
  ticket_at s i = Some t → evaluate_sla i s = (Ok tt, s') →
  ∃ t', ticket_at s' i = Some t' ∧
    (Ticket.first_response_breached t = true → Ticket.first_response_breached t' = true) ∧
    (Ticket.resolution_breached t = true → Ticket.resolution_breached t' = true) ∧
    Db.events s' = Db.events s ++ new_breach_events i t t' ∧
    (open_status (Ticket.status t) = false →
       Ticket.resolution_breached t' = Ticket.resolution_breached t) ∧
    (not_null (Ticket.first_response_at t) = true →
       Ticket.first_response_breached t' = Ticket.first_response_breached t).
Proof.
  intros Ht H. destruct (evaluate_run i s t s' Ht H) as (due & now & t' & Ht' & Hf & Hr & He).
  exists t'. split; [done|]. rewrite Hf, Hr. unfold breaches. cbn [first_breached resolution_breached].
  split_and!.
  - by intros ->.
  - by intros ->.
  - done.
  - intros ->. by rewrite orb_false_r.
  - intros ->. by rewrite orb_false_r.
Qed.

(** ** Revision selection *)

Definition rank_le (a b : SLAPolicyRevision.t) : bool := negb (rank_lt b a).

Lemma rank_lt_trans a b c : rank_lt a b = true → rank_lt b c = true → rank_lt a c = true.
Proof. unfold rank_lt. rewrite !orb_true_iff, !andb_true_iff. rewrite !orb_true_iff, !andb_true_iff. rewrite !orb_true_iff, !andb_true_iff. lia. Qed.

Lemma rank_lt_total a b :
  rank_lt a b = true ∨ rank_lt b a = true ∨ SLAPolicyRevision.id a = SLAPolicyRevision.id b.
Proof. unfold rank_lt. lia. Qed.

Lemma rank_lt_irrefl a : rank_lt a a = false.
Proof. unfold rank_lt. lia. Qed.

Lemma rank_lt_asym a b : rank_lt a b = true → rank_lt b a = false.
Proof. unfold rank_lt. lia. Qed.

(** The fold behind [max]: the result is among the rows, and none ranks higher. *)
Lemma max_fold x rest :
  let best := foldl (fun best y => if rank_lt (fst best) (fst y) then y else best) x rest in
  best ∈ x :: rest ∧ ∀ y : SLAPolicyRevision.t * SLAPolicy.t, y ∈ x :: rest →
    rank_lt (fst best) (fst y) = false.
Proof.
  revert x. induction rest as [|z rest IH]; intros x; cbn [foldl].
  { split; [left|]. intros y [->|Hy]%elem_of_cons; [apply rank_lt_irrefl | by apply elem_of_nil in Hy]. }
  destruct (rank_lt (fst x) (fst z)) eqn:E.
  - destruct (IH z) as [Hin Hmax]. split; [by right|].
    intros y [->|Hy]%elem_of_cons; [|by apply Hmax].
    destruct (rank_lt _ (fst x)) eqn:Ex; [|done].
    specialize (Hmax z ltac:(left)). rewrite (rank_lt_trans _ _ _ Ex E) in Hmax. done.
  - destruct (IH x) as [Hin Hmax]. split.
    { apply elem_of_cons in Hin as [->|?]; [left | right; by right]. }
    intros y [->|[->|Hy]%elem_of_cons]%elem_of_cons; [apply Hmax; left | | apply Hmax; by right].
    set (best := foldl _ x rest) in *.
    destruct (rank_lt (fst best) (fst z)) eqn:Ez; [|done]. exfalso. specialize (Hmax x ltac:(left)).
    destruct (rank_lt_total (fst best) (fst x)) as [?|[H|Hid]]; [congruence| |].
    + rewrite (rank_lt_trans _ _ _ H Ez) in E. done.
    + revert E Ez Hmax. unfold rank_lt. lia.
Qed.

(** which revision a ticket is assigned: an approved one, in effect, for the
    ticket's priority and scope, such that no eligible one ranks higher; none only
    when none is eligible; and whatever order the database returns the rows in,
    the choice is the same. *)
Theorem sla_revision_choice s t at_ :
  match max_revision (_active_revisions s t at_) with
  | None => ∀ x, x ∈ joined_revisions s →
              revision_effective t at_ x && revision_in_scope t (fst x) = false
  | Some (r, p) =>
      (r, p) ∈ joined_revisions s ∧ revision_effective t at_ (r, p) = true ∧
      revision_in_scope t r = true ∧
      (∀ x, x ∈ joined_revisions s →
         revision_effective t at_ x && revision_in_scope t (fst x) = true →
         rank_lt r (fst x) = false) ∧
      (∀ rows, rows ≡ₚ _active_revisions s t at_ →
         (∀ x y, x ∈ rows → y ∈ rows → SLAPolicyRevision.id (fst x) = SLAPolicyRevision.id (fst y) →
            x = y) →
         max_revision rows = Some (r, p))
  end.
Proof.
  assert (∀ x, x ∈ _active_revisions s t at_ ↔ x ∈ joined_revisions s ∧
    revision_effective t at_ x && revision_in_scope t (fst x) = true) as Hel.
  { intros x. unfold _active_revisions. rewrite !list_elem_of_filter, andb_true_iff. tauto. }
  destruct (_active_revisions s t at_) as [|x rest] eqn:E; cbn [max_revision].
  { intros x Hx. destruct (_ && _) eqn:Ex; [|done].
    assert (x ∈ @nil (SLAPolicyRevision.t * SLAPolicy.t)) as Hn by (by apply Hel).
    by apply elem_of_nil in Hn. }
  destruct (max_fold x rest) as [Hin Hmax]. set (best := foldl _ x rest) in *.
  destruct best as [r p]. cbn [fst] in *. pose proof (proj1 (Hel _) Hin) as [Hj He].
  apply andb_true_iff in He as [He Hs]. split; [done|]. split; [done|]. split; [done|]. split.
  { intros y Hy Hey. apply Hmax. apply Hel. done. }
  intros rows Hp Hid. destruct rows as [|y rows].
  { by apply Permutation_nil in Hp. }
  cbn [max_revision]. destruct (max_fold y rows) as [Hin' Hmax']. f_equal.
  set (best' := foldl _ y rows) in *. apply Hid; [done | by rewrite Hp|]. cbn [fst].
  assert (best' ∈ x :: rest) as Hin2 by (by rewrite <- Hp).
  assert ((r, p) ∈ y :: rows) as Hin3 by (by rewrite Hp).
  apply Hmax in Hin2. apply Hmax' in Hin3. cbn [fst] in Hin3.
  destruct (rank_lt_total (fst best') r) as [?|[?|?]]; congruence.
Qed.

(** ** Due times *)

Lemma find_target_put i mk s :
  sla_wf s → (∀ id, TicketSLATarget.id (mk id) = id) →
  (∀ id, TicketSLATarget.ticket_id (mk id) = i) →
  ∃ id, find_target (snd (put_target i mk s)) i = Some (mk id).
Proof.
  intros W Hid Hmk.
  pose proof (guarded_put_target i s mk Hid Hmk s (guarded_refl i s W)) as [W' _].
  assert (∃ id, trows (Db.targets (snd (put_target i mk s))) !! id = Some (mk id)) as [id Hl].
  { unfold put_target, modify. cbn [snd]. destruct (find_target s i) as [x|].
    - exists (TicketSLATarget.id x). cbn. rewrite lookup_table_put. by case_decide.
    - exists (tnext (Db.targets s)). cbn. rewrite lookup_table_add. by case_decide. }
  exists id. apply (select_first_unique _ _ id); [done | by rewrite Hmk, Z.eqb_refl |].
  intros j y Hj Hy%Z.eqb_eq. assert (j = id) as -> by (eapply (wf_one_target _ W'); eauto; congruence).
  congruence.
Qed.

(** Without a weekly schedule the due times are elapsed time, moved by the pauses. *)
Lemma compute_due_plain tz snapshot base at_ pauses d fm rm :
  truthy (schedule_of snapshot) = false →
  due_minutes snapshot "first_response_minutes" = Ok fm →
  due_minutes snapshot "resolution_minutes" = Ok rm →
  compute_due tz snapshot base at_ pauses = Ok d →
  first_due d = base + minutes fm + seconds (paused_total d) ∧
  resolution_due d = base + minutes rm + seconds (paused_total d).
Proof.
  intros Hs Hfm Hrm H. unfold compute_due in H.
  apply result_bind_Ok in H as (pid & _ & H). rewrite Hfm in H. cbn [mbind result_bind] in H.
  apply result_bind_Ok in H as (f1 & Hf1 & H). rewrite Hrm in H. cbn [mbind result_bind] in H.
  apply result_bind_Ok in H as (r1 & Hr1 & H). apply result_bind_Ok in H as (ps & _ & H).
  apply result_bind_Ok in H as (f2 & Hf2 & H). apply result_bind_Ok in H as (r2 & Hr2 & H).
  apply result_bind_Ok in H as (rw & _ & H). apply result_bind_Ok in H as (rv & _ & [= <-]).
  cbn [first_due resolution_due paused_total].
  assert (∀ st n e, add_seconds_by tz snapshot st n = Ok e → e = st + seconds n) as Hadd.
  { intros st n e. unfold add_seconds_by, add_business_seconds.
    assert (truthy (json_or (schedule_of snapshot) (JObj [])) = false) as ->
      by (unfold json_or; by rewrite Hs).
    destruct (n <? 0); [done|]. destruct (Z.eqb_spec n 0) as [->|]; cbn; intros [= <-];
      unfold seconds; lia. }
  assert (∀ m e, add_minutes_by tz snapshot base m = Ok e → e = base + minutes m) as Hmin.
  { intros m e. unfold add_minutes_by, add_business_minutes. destruct (m <? 0); [done|].
    intros He%Hadd. subst e. unfold minutes. f_equal. f_equal. lia. }
  assert (∀ due e, shift_by_pause tz snapshot ps due = Ok e → e = due + seconds ps) as Hshift.
  { intros due e. unfold shift_by_pause. destruct (Z.eqb_spec ps 0) as [->|]; [|apply Hadd].
    intros [= ->]. unfold seconds. lia. }
  apply Hmin in Hf1 as ->, Hr1 as ->. apply Hshift in Hf2 as ->, Hr2 as ->. done.
Qed.

(** applying the policy.  If it returns, the ticket has one assignment; the target
    row carries the due times computed from the assignment's snapshot, the creation
    of the ticket and its pauses, with the risk times a window earlier; the ticket
    caches the same due times and the pause; and where the snapshot has no weekly
    schedule, a due time is the creation plus the policy's minutes plus the paused
    seconds. *)
Theorem sla_due_times i p now by_ s s' :
  sla_wf s → apply_policy_to_ticket i (Some p) now by_ s = (Ok tt, s') →
  ∃ t at_ a d x t',
    ticket_at s i = Some t ∧ find_assignment s' i = Some a ∧
    let snapshot := json_or (TicketSLAAssignment.snapshot_json a) (_default_snapshot p None) in
    compute_due (Db.zoneinfo s) snapshot (Ticket.created_at t) at_ (_pause_intervals s i) = Ok d ∧
    find_target s' i = Some x ∧
    TicketSLATarget.assignment_id x = TicketSLAAssignment.id a ∧
    TicketSLATarget.first_response_due_at x = first_due d ∧
    TicketSLATarget.resolution_due_at x = resolution_due d ∧
    TicketSLATarget.first_response_risk_at x = first_due d - risk_window d ∧
    TicketSLATarget.resolution_risk_at x = resolution_due d - risk_window d ∧
    ticket_at s' i = Some t' ∧
    Ticket.first_response_due_at t' = Some (first_due d) ∧
    Ticket.resolution_due_at t' = Some (resolution_due d) ∧
    Ticket.total_paused_seconds t' = paused_total d ∧
    Ticket.sla_policy_id t' = Some (assigned_policy d) ∧
    projected t' (find_open_pause s' i) ∧
    (∀ fm rm, truthy (schedule_of snapshot) = false →
       due_minutes snapshot "first_response_minutes" = Ok fm →
       due_minutes snapshot "resolution_minutes" = Ok rm →
       first_due d = Ticket.created_at t + minutes fm + seconds (paused_total d) ∧
       resolution_due d = Ticket.created_at t + minutes rm + seconds (paused_total d)).
Proof.
  intros W H. unfold apply_policy_to_ticket in H.
  apply bind_Ok_inv in H as (at_ & s1 & Hn & H).
  pose proof (guarded_or_now i s now s (guarded_refl i s W)) as G1. rewrite Hn in G1. cbn [snd] in G1.
  assert (Db.pauses s1 = Db.pauses s ∧ ticket_at s1 i = ticket_at s i) as [Hp1 Ht1].
  { destruct now; cbn in Hn; injection Hn as _ <-; done. }
  apply bind_Ok_inv in H as (t & s1' & Ht & H). unfold the_ticket in Ht.
  destruct (ticket_at s1 i) as [t0|] eqn:Et; [|done]. injection Ht as -> <-.
  apply bind_Ok_inv in H as (a & s2 & Ha & H). cbv zeta in H.
  pose proof (ensure_assignment_hoare i by_ (Some at_) s (Db.pauses s) s1 (conj G1 Hp1)) as He.
  rewrite Ha in He. destruct He as [[G2 Hp2] Hfa].
  unfold mbind, M_bind, get, lift, _open_pause, gets in H.
  set (snapshot := json_or (TicketSLAAssignment.snapshot_json a) (_default_snapshot p None)) in *.
  assert (_pause_intervals s2 i = _pause_intervals s i) as Hpi
    by (unfold _pause_intervals; by rewrite Hp2).
  assert (Db.zoneinfo s2 = Db.zoneinfo s) as Hz.
  { pose proof (fr_rest i s s2 (proj2 G2)) as E. by apply (f_equal Db.zoneinfo) in E. }
  rewrite Hpi, Hz in H.
  destruct (compute_due _ _ _ _ _) as [d|e] eqn:Ed; [|done].
  destruct (find_target_put i (target_values a d at_ i) s2 (proj1 G2) ltac:(done) ltac:(done))
    as [id Hft].
  pose proof (guarded_put_target i s (target_values a d at_ i) ltac:(done) ltac:(done) s2 G2) as G3.
  assert (∃ s3, put_target i (target_values a d at_ i) s2 = (Ok tt, s3)) as [s3 H3] by (by eexists).
  rewrite H3 in H, G3, Hft. cbn [snd] in G3, Hft.
  destruct (frame_ticket i s s3 t (proj2 G3) ltac:(congruence)) as (t3 & Ht3 & _).
  unfold set_ticket, modify in H. rewrite Ht3 in H. injection H as <-.
  assert (find_assignment s3 i = Some a) as Hfa3.
  { unfold put_target, modify in H3. injection H3 as <-. by destruct (find_target s2 i). }
  exists t, at_, a, d, (target_values a d at_ i id), (project_due d (find_open_pause s3 i) t3).
  split; [congruence|]. split; [exact Hfa3|]. cbv zeta. fold snapshot. split; [exact Ed|].
  split; [exact Hft|]. do 5 (split; [done|]). split; [rewrite ticket_at_put; by case_decide|].
  do 4 (split; [done|]). split; [by split|]. intros fm rm Hs Hfm Hrm.
  by eapply compute_due_plain.
Qed.

(** ** Without configuration *)

(** Ticket [t] at [i] has no assignment, and no revision is eligible at any time. *)
Definition unconfigured (i : Z) (t : Ticket.t) (s : Db.t) : Prop :=
  ticket_at s i = Some t ∧ find_assignment s i = None ∧ ∀ at_, _active_revisions s t at_ = [].

Definition ticked (s : Db.t) (n : nat) : Db.t := s <| Db.ticks := n |>.

Lemma or_now_run o s : ∃ at_ n, or_now o s = (Ok at_, ticked s n).
Proof.
  destruct o as [x|]; [exists x, (Db.ticks s); by destruct s | eexists _, _; reflexivity].
Qed.

Lemma ensure_unconfigured i t by_ at_ s :
  unconfigured i t s →
  ∃ n, ensure_ticket_sla_assignment i by_ at_ s = (Err revision_missing, ticked s n).
Proof.
  intros (Ht & Ha & Hr). unfold ensure_ticket_sla_assignment.
  assert (the_ticket i s = (Ok t, s)) as E by (unfold the_ticket; by rewrite Ht).
  rewrite (bind_run_Ok _ _ _ _ _ E).
  assert (_assignment i s = (Ok None, s)) as E2 by (unfold _assignment, gets; by rewrite Ha).
  rewrite (bind_run_Ok _ _ _ _ _ E2). destruct (or_now_run at_ s) as (o & n & Eo).
  assert (select_policy_revision t at_ s = (Ok None, ticked s n)) as E3.
  { unfold select_policy_revision. rewrite (bind_run_Ok _ _ _ _ _ Eo). unfold gets.
    change (_active_revisions (ticked s n) t o) with (_active_revisions s t o). by rewrite Hr. }
  rewrite (bind_run_Ok _ _ _ _ _ E3). by exists n.
Qed.

Lemma policy_of_ticket_run i t s : ticket_at s i = Some t → ∃ p, policy_of_ticket i s = (Ok p, s).
Proof.
  intros Ht. unfold policy_of_ticket, mbind, M_bind, the_ticket, gets. rewrite Ht. by eexists.
Qed.

Lemma resume_unconfigured i t a s :
  unconfigured i t s → ∃ o s', resume_sla i a s = (Ok o, s').
Proof.
  intros (Ht & Ha & _). unfold resume_sla, mbind at 1, M_bind at 1, _open_pause, gets.
  destruct (find_open_pause s i) as [p|]; [|by eexists _, _].
  unfold mbind at 1, M_bind at 1, utc_now, mbind at 1, M_bind at 1, close_pause, modify at 1.
  set (s1 := s <| Db.ticks ::= S |> <| Db.pauses ::= _ |>).
  assert (ticket_at s1 i = Some t) as Ht1 by done.
  unfold mbind at 1, M_bind at 1, set_ticket, modify. rewrite Ht1.
  set (s2 := s1 <| Db.tickets ::= _ |>).
  assert (ticket_at s2 i = Some (_clear_pause_projection t)) as Ht2
    by (unfold s2; rewrite ticket_at_put; by case_decide).
  destruct (policy_of_ticket_run i _ s2 Ht2) as [p' Ep]. rewrite (bind_run_Ok _ _ _ _ _ Ep).
  assert (_assignment i s2 = (Ok None, s2)) as Ea.
  { unfold _assignment, gets. change (find_assignment s2 i) with (find_assignment s i). by rewrite Ha. }
  rewrite (bind_run_Ok _ _ _ _ _ Ea). rewrite andb_false_r. by eexists _, _.
Qed.

Lemma apply_unconfigured i t p now by_ s :
  unconfigured i t s →
  ∃ n, apply_policy_to_ticket i (Some p) now by_ s = (Err revision_missing, ticked s n).
Proof.
  intros H. unfold apply_policy_to_ticket. destruct (or_now_run now s) as (o & n & Eo).
  rewrite (bind_run_Ok _ _ _ _ _ Eo).
  assert (unconfigured i t (ticked s n)) as H1 by exact H.
  assert (the_ticket i (ticked s n) = (Ok t, ticked s n)) as E
    by (unfold the_ticket; by rewrite (proj1 H1)).
  rewrite (bind_run_Ok _ _ _ _ _ E).
  destruct (ensure_unconfigured i t by_ (Some o) _ H1) as [m Em].
  rewrite (bind_run_Err _ _ _ _ _ Em). by exists m.
Qed.

Lemma cached_due_run i t s :
  ticket_at s i = Some t →
  cached_due i s = (Ok (Ticket.first_response_due_at t, Ticket.resolution_due_at t), s).
Proof. intros Ht. unfold cached_due, mbind, M_bind, the_ticket. by rewrite Ht. Qed.

Lemma runtime_due_unconfigured i t now s :
  unconfigured i t s → ∃ due n, _runtime_due_times i now s = (Ok due, ticked s n).
Proof.
  intros H. assert (s = ticked s (Db.ticks s)) as Hs by (by destruct s).
  unfold _runtime_due_times, mbind at 1, M_bind at 1, _target, gets, mbind at 1, M_bind at 1,
    _open_pause, gets.
  assert (∃ due n, (policy ← policy_of_ticket i;
    match policy with
    | None => cached_due i
    | Some _ =>
        try_catch
          (apply_policy_to_ticket i policy (Some now) None;;
           target ← _target i;
           mret (TicketSLATarget.first_response_due_at <$> target,
                 TicketSLATarget.resolution_due_at <$> target))
          (fun e => if runtime_non_blocking e then cached_due i else raise e)
    end) s = (Ok due, ticked s n)) as Hslow.
  { destruct (policy_of_ticket_run i t s (proj1 H)) as [p Ep]. rewrite (bind_run_Ok _ _ _ _ _ Ep).
    destruct p as [p|].
    - destruct (apply_unconfigured i t p (Some now) None s H) as [n En]. unfold try_catch.
      rewrite (bind_run_Err _ _ _ _ _ En). change (runtime_non_blocking revision_missing) with true.
      cbv iota. assert (ticket_at (ticked s n) i = Some t) as Ht by apply H.
      rewrite (cached_due_run i t _ Ht). by eexists _, n.
    - rewrite (cached_due_run i t s (proj1 H)). eexists _, (Db.ticks s). by rewrite <- Hs. }
  destruct (find_target s i) as [x|], (find_open_pause s i); try exact Hslow.
  eexists _, (Db.ticks s). by rewrite <- Hs.
Qed.

(** missing configuration does not stop service.  For a ticket without an assignment
    and without any eligible revision, a status change leaves no error and an
    evaluation of the breach flags returns; the explicit assignment fails with the
    configuration error. *)
Theorem sla_missing_config_non_blocking i t st actor s :
  unconfigured i t s →
  (∃ s', update_pause_state_for_status i st actor s = (Ok tt, s') ∧
     (sla_wf s → in_step i s → unpaused i s')) ∧
  (∃ s', evaluate_sla i s = (Ok tt, s')) ∧
  (∀ at_, ∃ s', ensure_ticket_sla_assignment i actor at_ s = (Err revision_missing, s')).
Proof.
  intros H. split; [|split].
  - assert (∃ s', assignment_or_unpaused i actor s = (Ok None, s')) as [s' E].
    { unfold assignment_or_unpaused.
      assert (_assignment i s = (Ok None, s)) as E
        by (unfold _assignment, gets; by rewrite (proj1 (proj2 H))).
      rewrite (bind_run_Ok _ _ _ _ _ E). unfold try_catch.
      destruct (ensure_unconfigured i t actor None s H) as [n En].
      rewrite (bind_run_Err _ _ _ _ _ En). change (non_blocking revision_missing) with true.
      cbv iota. unfold mbind at 1, M_bind at 1, _open_pause, gets.
      destruct (find_open_pause (ticked s n) i); [|by eexists].
      destruct (resume_unconfigured i t actor (ticked s n) H) as (o & s' & Er).
      rewrite (bind_run_Ok _ _ _ _ _ Er). by eexists. }
    exists s'. split.
    + unfold update_pause_state_for_status. by rewrite (bind_run_Ok _ _ _ _ _ E).
    + intros W Hin.
      assert (is_Some (ticket_at s i)) as Hex by (destruct H as [-> _]; by eexists).
      pose proof (assignment_or_unpaused_hoare i actor s Hex s (conj (guarded_refl i s W) Hin)) as Ha.
      rewrite E in Ha. by destruct Ha as (_ & ? & ?).
  - unfold evaluate_sla. assert (the_ticket i s = (Ok t, s)) as E
      by (unfold the_ticket; by rewrite (proj1 H)).
    rewrite (bind_run_Ok _ _ _ _ _ E). unfold compute_sla_snapshot, utc_now.
    set (s1 := s <| Db.ticks ::= S |>). assert (unconfigured i t s1) as H1 by exact H.
    destruct (runtime_due_unconfigured i t (Db.clock s (Db.ticks s)) s1 H1) as (due & n & Ed).
    unfold mbind at 1, M_bind at 1, mbind at 1, M_bind at 1, mbind at 1, M_bind at 1. fold s1.
    rewrite Ed. assert (the_ticket i (ticked s1 n) = (Ok t, ticked s1 n)) as E1
      by (unfold the_ticket; by rewrite (proj1 H1 : ticket_at (ticked s1 n) i = Some t)).
    rewrite (bind_run_Ok _ _ _ _ _ E1). cbn [mret M_ret].
    destruct (first_breached _ && _), (resolution_breached _ && _); by eexists.
  - intros at_. destruct (ensure_unconfigured i t actor at_ s H) as [n ->]. by eexists.
Qed.

(** ** Witnesses *)

Lemma fix_sla_wf : sla_wf Fix.db.
Proof.
  split; cbn; try apply table_wf_empty;
    try (intros j; intros; match goal with H : _ !! _ = Some _ |- _ => by rewrite lookup_empty in H end).
  intros n. unfold seconds, us_per_second. lia.
Qed.

Lemma fix_in_step : in_step 1 Fix.db.
Proof. exists (Fix.ticket 1 TicketStatus.in_progress). by split. Qed.

(** A run that returns, as an equation *)
Lemma ran {A} (m : M Db.t A) s a : fst (m s) = Ok a → m s = (Ok a, snd (m s)).
Proof. intros <-. apply surjective_pairing. Qed.

Lemma sla_reachable_wf_witness :
  sla_wf (run_history [(1, OpStatus TicketStatus.waiting_customer None); (2, OpEvaluate);
                       (1, OpPause "vacation" None); (1, OpResume None)] Fix.db).
Proof. apply (sla_reachable_wf _ Fix.db fix_sla_wf). Defined.

Definition waiting : Db.t :=
  snd (update_pause_state_for_status 1 TicketStatus.waiting_customer (Some 30) Fix.db).

Lemma sla_pause_tracks_status_witness :
  not_null (find_open_pause waiting 1) = true ∧ in_step 1 waiting.
Proof.
  pose proof (ran (update_pause_state_for_status 1 TicketStatus.waiting_customer (Some 30)) Fix.db tt
    ltac:(vm_compute; reflexivity)) as Hrun. fold waiting in Hrun.
  split; [vm_compute; reflexivity|].
  exact (proj1 (sla_pause_tracks_status 1 TicketStatus.waiting_customer (Some 30) Fix.db waiting
                  fix_sla_wf fix_in_step Hrun)).
Defined.

Definition waiting_ticket : Ticket.t :=
  default (Fix.ticket 1 TicketStatus.new) (ticket_at waiting 1).

Lemma sla_breach_flags_witness :
  ∃ t', ticket_at (snd (evaluate_sla 1 waiting)) 1 = Some t' ∧
    Db.events (snd (evaluate_sla 1 waiting)) =
    Db.events waiting ++ new_breach_events 1 waiting_ticket t'.
Proof.
  assert (ticket_at waiting 1 = Some waiting_ticket) as Ht by (vm_compute; reflexivity).
  pose proof (ran (evaluate_sla 1) waiting tt ltac:(vm_compute; reflexivity)) as Hrun.
  destruct (sla_breach_flags 1 waiting waiting_ticket _ Ht Hrun) as (t' & Ht' & _ & _ & He & _).
  exists t'. split; [exact Ht' | exact He].
Defined.

Definition applied : Db.t := snd (apply_policy_to_ticket 1 (Some Fix.policy) None None Fix.db).

Lemma sla_due_times_witness :
  ∃ x, find_target applied 1 = Some x ∧ TicketSLATarget.first_response_due_at x = hours 2.
Proof.
  pose proof (ran (apply_policy_to_ticket 1 (Some Fix.policy) None None) Fix.db tt
    ltac:(vm_compute; reflexivity)) as Hrun. fold applied in Hrun.
  destruct (sla_due_times 1 Fix.policy None None Fix.db applied fix_sla_wf Hrun)
    as (t & at_ & a & d & x & t' & _ & _ & _ & Hx & _).
  exists x. split; [exact Hx|].
  assert (TicketSLATarget.first_response_due_at <$> find_target applied 1 = Some (hours 2)) as E
    by (vm_compute; reflexivity).
  rewrite Hx in E. change (Some (TicketSLATarget.first_response_due_at x) = Some (hours 2)) in E.
  congruence.
Defined.

(** The same deployment with no revision at all *)
Definition bare : Db.t := Fix.db <| Db.revisions := empty_table |>.

Lemma sla_missing_config_non_blocking_witness :
  ∃ s', update_pause_state_for_status 1 TicketStatus.waiting_customer None bare = (Ok tt, s').
Proof.
  destruct (sla_missing_config_non_blocking 1 (Fix.ticket 1 TicketStatus.in_progress)
    TicketStatus.waiting_customer None bare) as [(s' & Hs & _) _].
  - split; [by vm_compute|]. split; [by vm_compute|]. intros at_. by vm_compute.
  - exists s'. exact Hs.
Defined.
