(* ===== verification/Outbox.v ===== *)
(** * Operations-dispatch outbox

    [services/nexus_osr/operations_dispatch_outbox.py] over the table of
    [models_operations_dispatch.py]: a durable queue whose rows are claimed
    under a lease, retried a bounded number of times and dead-lettered. *)

From S2P Require Import Prelude.

(** ** Data *)

Inductive OperationsDispatchStatus :=
| PENDING | PROCESSING | DISPATCHED | RETRYABLE | FAILED | CANCELLED | DEAD_LETTER.

#[export] Instance ods_eq_dec : EqDecision OperationsDispatchStatus.
Proof. solve_decision. Defined.

Record OutboxRow := {
  r_id : Z;
  ticket_id : option Z;
  dispatch_key : string;
  tenant_key : string;
  country_code : string;
  channel_key : string;
  routing_rule_id : Z;
  destination_group_key : string;
  destination_group_hash : string;
  status : OperationsDispatchStatus;
  attempt_count : Z;
  max_attempts : Z;
  next_retry_at : option Z;
  lease_owner : option string;
  lease_expires_at : option Z;
  provider_acknowledgement : option string;
  external_reference_safe : option string;
  error_category : option string;
  error_summary_redacted : option string;
  created_at : Z;
  updated_at : Z;
  dispatched_at : option Z;
  cancelled_at : option Z
}.

#[export] Instance eta_OutboxRow : Settable OutboxRow := fun r =>
  {| r_id := r_id r; ticket_id := ticket_id r; dispatch_key := dispatch_key r;
     tenant_key := tenant_key r; country_code := country_code r;
     channel_key := channel_key r; routing_rule_id := routing_rule_id r;
     destination_group_key := destination_group_key r;
     destination_group_hash := destination_group_hash r;
     status := status r; attempt_count := attempt_count r;
     max_attempts := max_attempts r; next_retry_at := next_retry_at r;
     lease_owner := lease_owner r; lease_expires_at := lease_expires_at r;
     provider_acknowledgement := provider_acknowledgement r;
     external_reference_safe := external_reference_safe r;
     error_category := error_category r;
     error_summary_redacted := error_summary_redacted r;
     created_at := created_at r; updated_at := updated_at r;
     dispatched_at := dispatched_at r; cancelled_at := cancelled_at r |}.

(** The table and the sequence of its primary key. *)
Record Outbox := { rows : gmap Z OutboxRow; next_id : Z }.

#[export] Instance eta_Outbox : Settable Outbox := fun o =>
  {| rows := rows o; next_id := next_id o |}.

(** ** Value normalisation *)

Definition is_scope_char (c : Ascii.ascii) : bool :=
  is_alnum c || (code c =? 46) || (code c =? 95) || (code c =? 58) || (code c =? 45).

(** [_SAFE_SCOPE_RE.fullmatch(text)]: one alphanumeric, then at most 199 of
    [A-Za-z0-9._:-] *)
Definition safe_scope_re (s : string) : bool :=
  match s with
  | EmptyString => false
  | String c s' => is_alnum c && string_forallb is_scope_char s' && (str_len s' <=? 199)
  end.

Definition invalid (field : string) : exc :=
  ValueError ("operations_dispatch_invalid_" +:+ field).

Definition _scope (value : option string) (field : string) (limit : Z) : result string :=
  let text := py_strip (str_or value EmptyString) in
  if negb (nonempty text) || (limit <? str_len text) || negb (safe_scope_re text)
  then Err (invalid field) else Ok text.

(** The argument is the integer [int(value)] of a value that converts. *)
Definition _positive_int (value : Z) (field : string) : result Z :=
  if value <=? 0 then Err (invalid field) else Ok value.

Definition _optional_positive_int (value : option Z) (field : string) : result (option Z) :=
  match value with
  | None => Ok None
  | Some v => x ← _positive_int v field; Ok (Some x)
  end.

Definition is_hex_lower (c : Ascii.ascii) : bool := is_digit c || between 97 102 c.

Definition sha256_prefix : string := "sha256:".

(** [re.fullmatch(r"sha256:[0-9a-f]{64}", text)] *)
Definition digest_re (s : string) : bool :=
  bool_decide (str_take 7 s = sha256_prefix) &&
  (str_len s =? 71) &&
  string_forallb is_hex_lower (String.substring 7 64 s).

Definition _digest (value : option string) (field : string) : result string :=
  let text := py_lower (py_strip (str_or value EmptyString)) in
  if digest_re text then Ok text else Err (invalid field).

(** [30 * 2 ** max(0, attempt_count - 1)] seconds within [30, 3600] *)
Definition _retry_delay (attempt_count : Z) : Z :=
  seconds (Z.min 3600 (Z.max 30 (30 * 2 ^ Z.max 0 (attempt_count - 1)))).

(** ** The dispatch key *)

Section DispatchKey.
(** [hashlib.sha256(...).hexdigest()] and the digest of a case reference *)
Variable sha256_hex : string → string.

Definition dq : string := String (Ascii.ascii_of_N 34) EmptyString.
Definition quoted (s : string) : string := dq +:+ s +:+ dq.
Definition json_field (k v : string) : string := quoted k +:+ ":" +:+ v.
Definition json_str_or_null (o : option string) : string :=
  match o with Some s => quoted s | None => "null" end.
Definition json_int_or_null (o : option Z) : string :=
  match o with Some z => pretty z | None => "null" end.

Definition digest_identifier (value : string) : string :=
  sha256_prefix +:+ sha256_hex value.

Record KeyMaterial := {
  km_tenant_key : string; km_country_code : string; km_channel_key : string;
  km_routing_rule_id : Z; km_ticket_id : option Z; km_case_hash : option string }.

(** [json.dumps(material, sort_keys=True, separators=(",", ":"))]; the scope
    characters need no escape *)
Definition material_json (m : KeyMaterial) : string :=
  "{" +:+ json_field "case_reference_hash" (json_str_or_null (km_case_hash m))
  +:+ "," +:+ json_field "channel_key" (quoted (km_channel_key m))
  +:+ "," +:+ json_field "country_code" (quoted (km_country_code m))
  +:+ "," +:+ json_field "routing_rule_id" (pretty (km_routing_rule_id m))
  +:+ "," +:+ json_field "tenant_key" (quoted (km_tenant_key m))
  +:+ "," +:+ json_field "ticket_id" (json_int_or_null (km_ticket_id m)) +:+ "}".

Definition key_material (tenant country channel : option string) (rule : Z)
    (ticket : option Z) (case_reference : option string) : result KeyMaterial :=
  t ← _scope tenant "tenant_key" 80;
  c ← _scope country "country_code" 16;
  ch ← _scope channel "channel_key" 40;
  r ← _positive_int rule "routing_rule_id";
  tk ← _optional_positive_int ticket "ticket_id";
  Ok {| km_tenant_key := t; km_country_code := py_upper c; km_channel_key := py_lower ch;
        km_routing_rule_id := r; km_ticket_id := tk;
        km_case_hash :=
          match case_reference with
          | Some s => if nonempty s then Some (digest_identifier s) else None
          | None => None
          end |}.

Definition build_operations_dispatch_key (tenant country channel : option string)
    (rule : Z) (ticket : option Z) (case_reference : option string) : result string :=
  m ← key_material tenant country channel rule ticket case_reference;
  Ok ("ops-dispatch:" +:+ sha256_hex (material_json m)).
End DispatchKey.

(** ** Enqueue *)

Record EnqueueRequest := {
  q_dispatch_key : option string; q_tenant_key : option string;
  q_country_code : option string; q_channel_key : option string;
  q_routing_rule_id : Z; q_group_key : option string; q_group_hash : option string;
  q_ticket_id : option Z; q_max_attempts : Z }.

(** [values] of the source, as the row that would be inserted *)
Definition enqueue_values (q : EnqueueRequest) (new_id current : Z) : result OutboxRow :=
  dk ← _scope (q_dispatch_key q) "dispatch_key" 80;
  tk ← _scope (q_tenant_key q) "tenant_key" 80;
  cc ← _scope (q_country_code q) "country_code" 16;
  ck ← _scope (q_channel_key q) "channel_key" 40;
  rr ← _positive_int (q_routing_rule_id q) "routing_rule_id";
  gk ← _scope (q_group_key q) "destination_group_key" 200;
  gh ← _digest (q_group_hash q) "destination_group_hash";
  tid ← _optional_positive_int (q_ticket_id q) "ticket_id";
  Ok {| r_id := new_id; ticket_id := tid; dispatch_key := dk; tenant_key := tk;
        country_code := py_upper cc; channel_key := py_lower ck; routing_rule_id := rr;
        destination_group_key := gk; destination_group_hash := gh;
        status := PENDING; attempt_count := 0;
        max_attempts := Z.min 20 (Z.max 1 (q_max_attempts q));
        next_retry_at := None; lease_owner := None; lease_expires_at := None;
        provider_acknowledgement := None; external_reference_safe := None;
        error_category := None; error_summary_redacted := None;
        created_at := current; updated_at := current;
        dispatched_at := None; cancelled_at := None |}.

(** [query.filter(dispatch_key == key).one_or_none()] *)
Definition find_by_key (o : Outbox) (key : string) : option OutboxRow :=
  match list_find (fun p => dispatch_key (snd p) = key) (map_to_list (rows o)) with
  | Some (_, (_, r)) => Some r
  | None => None
  end.

(** [_assert_same_scope]: the seven immutable scope columns agree *)
Definition same_scope (r v : OutboxRow) : bool :=
  bool_decide (tenant_key r = tenant_key v) &&
  bool_decide (country_code r = country_code v) &&
  bool_decide (channel_key r = channel_key v) &&
  bool_decide (routing_rule_id r = routing_rule_id v) &&
  bool_decide (destination_group_key r = destination_group_key v) &&
  bool_decide (destination_group_hash r = destination_group_hash v) &&
  bool_decide (ticket_id r = ticket_id v).

Definition collision : exc := RuntimeError "operations_dispatch_key_scope_collision".

Definition _assert_same_scope (r v : OutboxRow) : M Outbox unit :=
  require (same_scope r v) collision.

(** The insert of the nested transaction: the unique index on [dispatch_key]
    and the two foreign keys decide whether it succeeds. *)
Definition insert_row (fk_ok : OutboxRow → bool) (v : OutboxRow) (o : Outbox) :
    option (OutboxRow * Outbox) :=
  match find_by_key o (dispatch_key v) with
  | Some _ => None
  | None =>
      if fk_ok v then
        let v := v <| r_id := next_id o |> in
        Some (v, o <| rows ::= <[next_id o := v]> |> <| next_id ::= Z.succ |>)
      else None
  end.

(** [race] is what other sessions commit between the [SELECT] and the [INSERT]. *)
Definition enqueue_operations_dispatch (fk_ok : OutboxRow → bool) (race : Outbox → Outbox)
    (q : EnqueueRequest) (current : Z) : M Outbox (OutboxRow * bool) :=
  v ← lift (enqueue_values q 0 current);
  existing ← gets (fun o => find_by_key o (dispatch_key v));
  match existing with
  | Some r => _assert_same_scope r v;; mret (r, false)
  | None =>
      modify race;;
      o ← get;
      match insert_row fk_ok v o with
      | Some (r, o') => modify (fun _ => o');; mret (r, true)
      | None =>
          winner ← gets (fun o => find_by_key o (dispatch_key v));
          match winner with
          | None => raise (IntegrityError "operations_dispatch_outbox")
          | Some w => _assert_same_scope w v;; mret (w, false)
          end
      end
  end.

(** ** Leases *)

(** SQL comparisons with [NULL] are not true. *)
Definition sql_le (a : option Z) (b : Z) : bool :=
  match a with Some x => x <=? b | None => false end.
Definition sql_gt (a : option Z) (b : Z) : bool :=
  match a with Some x => b <? x | None => false end.

Definition is_status (s : OperationsDispatchStatus) (r : OutboxRow) : bool :=
  bool_decide (status r = s).

(** [UPDATE ... WHERE p SET f] *)
Definition update_where (p : OutboxRow → bool) (f : OutboxRow → OutboxRow) (o : Outbox) : Outbox :=
  o <| rows ::= fmap (fun r => if p r then f r else r) |>.

Definition expired (current : Z) (r : OutboxRow) : bool :=
  is_status PROCESSING r && sql_le (lease_expires_at r) current.
Definition exhausted (r : OutboxRow) : bool := max_attempts r <=? attempt_count r.

Definition to_dead_letter (category : string) (current : Z) (r : OutboxRow) : OutboxRow :=
  r <| status := DEAD_LETTER |> <| next_retry_at := None |> <| lease_owner := None |>
    <| lease_expires_at := None |> <| error_category := Some category |>
    <| error_summary_redacted := None |> <| updated_at := current |>.

Definition to_retryable_expired (current : Z) (r : OutboxRow) : OutboxRow :=
  r <| status := RETRYABLE |> <| next_retry_at := Some current |> <| lease_owner := None |>
    <| lease_expires_at := None |> <| error_category := Some "lease_expired" |>
    <| error_summary_redacted := None |> <| updated_at := current |>.

Definition _recover_expired_leases (current : Z) (o : Outbox) : Outbox :=
  update_where (fun r => expired current r && negb (exhausted r)) (to_retryable_expired current)
    (update_where (fun r => expired current r && exhausted r)
       (to_dead_letter "lease_expired_attempts_exhausted" current) o).

Definition _dead_letter_exhausted_due_rows (current : Z) (o : Outbox) : Outbox :=
  update_where (fun r => (is_status PENDING r || is_status RETRYABLE r) && exhausted r)
    (to_dead_letter "attempts_exhausted" current) o.

Definition due_filter (current : Z) (r : OutboxRow) : bool :=
  is_status PENDING r || (is_status RETRYABLE r && sql_le (next_retry_at r) current).

Definition claimable (current : Z) (r : OutboxRow) : bool :=
  due_filter current r && negb (exhausted r).

(** [ORDER BY created_at, id] *)
Definition row_leb (a b : OutboxRow) : bool :=
  (created_at a <? created_at b) || ((created_at a =? created_at b) && (r_id a <=? r_id b)).

Definition ordered_candidates (p : OutboxRow → bool) (o : Outbox) : list OutboxRow :=
  sort_by row_leb (filter (fun r => p r = true) (snd <$> map_to_list (rows o))).

Definition to_claimed (owner : string) (lease_until current : Z) (r : OutboxRow) : OutboxRow :=
  r <| status := PROCESSING |> <| attempt_count ::= Z.succ |> <| lease_owner := Some owner |>
    <| lease_expires_at := Some lease_until |> <| next_retry_at := None |>
    <| error_category := None |> <| error_summary_redacted := None |>
    <| updated_at := current |>.

Definition put_row (r : OutboxRow) (o : Outbox) : Outbox := o <| rows ::= <[r_id r := r]> |>.

#[global] Arguments put_row : simpl never.

(** The PostgreSQL branch: [locked id] holds of the rows other transactions
    have locked, which [SKIP LOCKED] passes over. *)
Definition claim_next_operations_dispatch (locked : Z → bool) (owner : option string)
    (current lease_seconds : Z) : M Outbox (option OutboxRow) :=
  owner ← lift (_scope owner "lease_owner" 120);
  let lease_until := current + seconds (Z.max 1 lease_seconds) in
  modify (_recover_expired_leases current);;
  modify (_dead_letter_exhausted_due_rows current);;
  candidates ← gets (ordered_candidates
                       (fun r => claimable current r && negb (locked (r_id r))));
  match candidates with
  | [] => mret None
  | r :: _ =>
      let r := to_claimed owner lease_until current r in
      modify (put_row r);; mret (Some r)
  end.

(** The compare-and-swap branch of the other databases: each candidate of the
    first 32 is updated under the same filter, evaluated again; the first
    update that touches its row wins.  [race] is what other sessions commit
    after the candidates were selected. *)
Fixpoint cas_candidates (owner : string) (lease_until current : Z) (ids : list Z)
    : M Outbox (option OutboxRow) :=
  match ids with
  | [] => mret None
  | i :: ids' =>
      row ← gets (fun o => rows o !! i);
      match row with
      | Some r =>
          if claimable current r then
            let r := to_claimed owner lease_until current r in
            modify (put_row r);; mret (Some r)
          else cas_candidates owner lease_until current ids'
      | None => cas_candidates owner lease_until current ids'
      end
  end.

Definition claim_next_operations_dispatch_cas (race : Outbox → Outbox) (owner : option string)
    (current lease_seconds : Z) : M Outbox (option OutboxRow) :=
  owner ← lift (_scope owner "lease_owner" 120);
  let lease_until := current + seconds (Z.max 1 lease_seconds) in
  modify (_recover_expired_leases current);;
  modify (_dead_letter_exhausted_due_rows current);;
  candidates ← gets (ordered_candidates (claimable current));
  modify race;;
  cas_candidates owner lease_until current (r_id <$> take 32 candidates).

Definition _owned_processing_record (o : Outbox) (record_id : Z) (owner : string) (now : Z)
    : option OutboxRow :=
  match rows o !! record_id with
  | Some r =>
      if is_status PROCESSING r && bool_decide (lease_owner r = Some owner)
         && sql_gt (lease_expires_at r) now
      then Some r else None
  | None => None
  end.

Definition lease_lost : exc := RuntimeError "operations_dispatch_lease_lost".

(** Acknowledgement and reference are passed as [_bounded_marker] renders them,
    error category and summary as [_category] and [_redact] render them. *)
Definition to_dispatched (ack ext : option string) (current : Z) (r : OutboxRow) : OutboxRow :=
  r <| status := DISPATCHED |> <| lease_owner := None |> <| lease_expires_at := None |>
    <| next_retry_at := None |> <| provider_acknowledgement := ack |>
    <| external_reference_safe := ext |> <| error_category := None |>
    <| error_summary_redacted := None |> <| dispatched_at := Some current |>
    <| updated_at := current |>.

Definition mark_operations_dispatch_success (record_id : Z) (owner : option string)
    (ack ext : option string) (current : Z) : M Outbox OutboxRow :=
  owner ← lift (_scope owner "lease_owner" 120);
  record ← gets (fun o => _owned_processing_record o record_id owner current);
  match record with
  | None => raise lease_lost
  | Some r =>
      let r := to_dispatched ack ext current r in
      modify (put_row r);; mret r
  end.

Definition to_failed (retryable : bool) (category : string) (summary : option string)
    (current : Z) (r : OutboxRow) : OutboxRow :=
  let exhausted := exhausted r in
  let r :=
    if retryable && negb exhausted then
      r <| status := RETRYABLE |>
        <| next_retry_at := Some (current + _retry_delay (attempt_count r)) |>
    else if exhausted then r <| status := DEAD_LETTER |> <| next_retry_at := None |>
    else r <| status := FAILED |> <| next_retry_at := None |> in
  r <| lease_owner := None |> <| lease_expires_at := None |>
    <| error_category := Some category |> <| error_summary_redacted := summary |>
    <| updated_at := current |>.

Definition mark_operations_dispatch_failure (record_id : Z) (owner : option string)
    (category : string) (summary : option string) (retryable : bool) (current : Z)
    : M Outbox OutboxRow :=
  owner ← lift (_scope owner "lease_owner" 120);
  record ← gets (fun o => _owned_processing_record o record_id owner current);
  match record with
  | None => raise lease_lost
  | Some r =>
      let r := to_failed retryable category summary current r in
      modify (put_row r);; mret r
  end.

Definition to_cancelled (reason : option string) (current : Z) (r : OutboxRow) : OutboxRow :=
  r <| status := CANCELLED |> <| lease_owner := None |> <| lease_expires_at := None |>
    <| next_retry_at := None |> <| cancelled_at := Some current |>
    <| error_category := Some "cancelled" |> <| error_summary_redacted := reason |>
    <| updated_at := current |>.

Definition cancel_operations_dispatch (record_id : Z) (reason : option string) (current : Z)
    : M Outbox OutboxRow :=
  record ← gets (fun o => rows o !! record_id);
  match record with
  | None => raise (LookupError "operations_dispatch_not_found")
  | Some r =>
      require (negb (is_status DISPATCHED r || is_status DEAD_LETTER r))
              (RuntimeError "operations_dispatch_terminal");;
      let r := to_cancelled reason current r in
      modify (put_row r);; mret r
  end.

(** ** Histories of operations *)

Inductive op :=
| OEnqueue (q : EnqueueRequest) (fk_ok : OutboxRow → bool) (now : Z)
| OClaim (locked : Z → bool) (owner : option string) (now lease_seconds : Z)
| OClaimCas (owner : option string) (now lease_seconds : Z)
| OSuccess (id : Z) (owner : option string) (ack ext : option string) (now : Z)
| OFailure (id : Z) (owner : option string) (category : string) (summary : option string)
    (retryable : bool) (now : Z)
| OCancel (id : Z) (reason : option string) (now : Z).

Definition op_now (a : op) : Z :=
  match a with
  | OEnqueue _ _ t | OClaim _ _ t _ | OClaimCas _ t _ | OSuccess _ _ _ _ t
  | OFailure _ _ _ _ _ t | OCancel _ _ t => t
  end.

(** The result of an operation: an error, or the row it returns if any *)
Definition run_op (a : op) : M Outbox (option OutboxRow) :=
  match a with
  | OEnqueue q fk t => p ← enqueue_operations_dispatch fk id q t; mret (Some (fst p))
  | OClaim l o t n => claim_next_operations_dispatch l o t n
  | OClaimCas o t n => claim_next_operations_dispatch_cas id o t n
  | OSuccess i o a e t => r ← mark_operations_dispatch_success i o a e t; mret (Some r)
  | OFailure i o c s b t => r ← mark_operations_dispatch_failure i o c s b t; mret (Some r)
  | OCancel i r t => r ← cancel_operations_dispatch i r t; mret (Some r)
  end.

Definition step (o : Outbox) (a : op) : Outbox := snd (run_op a o).
Definition run_ops (l : list op) (o : Outbox) : Outbox := foldl step o l.
Definition empty_outbox : Outbox := {| rows := ∅; next_id := 1 |}.

(** ** Well-formedness: the CHECK and UNIQUE constraints of the table *)

(** The eight CHECK constraints of [OperationsDispatchOutboxRecord] (the status
    constraint is the type of the column). *)
Definition check_constraints (r : OutboxRow) : bool :=
  (0 <=? attempt_count r) && (1 <=? max_attempts r) && (attempt_count r <=? max_attempts r) &&
  (if is_status PROCESSING r
   then not_null (lease_owner r) && not_null (lease_expires_at r)
   else negb (not_null (lease_owner r)) && negb (not_null (lease_expires_at r))) &&
  (negb (is_status RETRYABLE r) || not_null (next_retry_at r)) &&
  (negb (is_status DISPATCHED r) || not_null (dispatched_at r)) &&
  (negb (is_status CANCELLED r) || not_null (cancelled_at r)).

Definition wf (o : Outbox) : Prop :=
  (∀ i r, rows o !! i = Some r →
     r_id r = i ∧ i < next_id o ∧ check_constraints r = true) ∧
  (∀ i j r r', rows o !! i = Some r → rows o !! j = Some r' →
     dispatch_key r = dispatch_key r' → i = j).

(** A change of a row that keeps its identity and its constraints *)
Definition good_change (r r' : OutboxRow) : Prop :=
  r_id r' = r_id r ∧ dispatch_key r' = dispatch_key r ∧
  (check_constraints r = true → check_constraints r' = true).

Ltac by_row r := destruct r as [? ? ? ? ? ? ? ? ? [] ? ? ? [] [] ? ? ? ? ? ? ? ?];
  unfold check_constraints, is_status, exhausted in *; cbn in *; reduce_decide; intros; unfold Z.succ in *.

Lemma good_dead_letter c t r : good_change r (to_dead_letter c t r).
Proof. repeat split. by_row r; lia. Qed.

Lemma good_retryable_expired t r : good_change r (to_retryable_expired t r).
Proof. repeat split. by_row r; lia. Qed.

Lemma good_claimed w u t r :
  exhausted r = false → good_change r (to_claimed w u t r).
Proof. intros He. repeat split. by_row r; lia. Qed.

Lemma good_dispatched a e t r : good_change r (to_dispatched a e t r).
Proof. repeat split. by_row r; lia. Qed.

Lemma good_failed b c s t r : good_change r (to_failed b c s t r).
Proof.
  unfold to_failed. destruct (exhausted r) eqn:E, b; repeat split; by_row r; lia.
Qed.

Lemma good_cancelled x t r : good_change r (to_cancelled x t r).
Proof. repeat split. by_row r; lia. Qed.

#[export] Hint Resolve good_dead_letter good_retryable_expired good_claimed good_dispatched
  good_failed good_cancelled : nexus.

Lemma wf_update_where p f o :
  (∀ r, good_change r (f r)) → wf o → wf (update_where p f o).
Proof.
  intros Hg [Hr Hu]. unfold update_where. cbn. split; cbn.
  - intros i r'. rewrite lookup_fmap, fmap_Some. intros (r & Hi & ->).
    destruct (Hr i r Hi) as (? & ? & ?), (Hg r) as (? & ? & ?).
    destruct (p r); split_and!; auto; congruence.
  - intros i j r r'. rewrite !lookup_fmap, !fmap_Some.
    intros (x & Hi & ->) (y & Hj & ->) E. apply (Hu i j x y Hi Hj).
    destruct (Hg x) as (_ & Hx & _), (Hg y) as (_ & Hy & _).
    destruct (p x), (p y); congruence.
Qed.

Lemma wf_put_row r r' o :
  rows o !! r_id r = Some r → good_change r r' → wf o → wf (put_row r' o).
Proof.
  intros Hl (Hid & Hk & Hc) [Hr Hu]. unfold put_row. split; cbn.
  - intros i x. rewrite lookup_insert. case_decide; [|apply Hr].
    intros [= <-]. destruct (Hr _ _ Hl) as (? & ? & ?). subst. split_and!; auto; congruence.
  - assert (Hold : ∀ i x, (<[r_id r' := r']> (rows o)) !! i = Some x →
       ∃ y, rows o !! i = Some y ∧ dispatch_key y = dispatch_key x).
    { intros i x. rewrite lookup_insert. case_decide; [|eauto].
      intros [= <-]. exists r. split; congruence. }
    intros i j x y Hi Hj E. apply Hold in Hi as (x' & Hi & Ex), Hj as (y' & Hj & Ey).
    eapply Hu; eauto; congruence.
Qed.

Lemma wf_sweep t o : wf o →
  wf (_dead_letter_exhausted_due_rows t (_recover_expired_leases t o)).
Proof.
  intros Hw. unfold _dead_letter_exhausted_due_rows, _recover_expired_leases.
  repeat apply wf_update_where; auto with nexus.
Qed.

(** A candidate of an ordered selection is a row of the table. *)
Lemma elem_of_candidates p o r :
  wf o → r ∈ ordered_candidates p o → rows o !! r_id r = Some r ∧ p r = true.
Proof.
  intros [Hr _]. unfold ordered_candidates. rewrite elem_of_sort_by, list_elem_of_filter.
  intros [Hp (x & -> & Hx)%list_elem_of_fmap]. split; [|done].
  destruct x as [i r]. apply elem_of_map_to_list in Hx. cbn in *.
  by destruct (Hr _ _ Hx) as [-> _].
Qed.

Lemma find_by_key_Some o k r :
  find_by_key o k = Some r → ∃ i, rows o !! i = Some r ∧ dispatch_key r = k.
Proof.
  unfold find_by_key. destruct (list_find _ _) as [[n [i x]]|] eqn:E; [|done].
  intros [= ->]. apply list_find_Some in E as (Hl & Hk & _).
  exists i. split; [|done]. apply elem_of_map_to_list. by eapply list_elem_of_lookup_2.
Qed.

Lemma find_by_key_None o k :
  find_by_key o k = None → ∀ i r, rows o !! i = Some r → dispatch_key r ≠ k.
Proof.
  unfold find_by_key. destruct (list_find _ _) as [[n [i x]]|] eqn:E; [done|].
  intros _ i r Hi. apply list_find_None in E. rewrite list.Forall_forall in E.
  apply (E (i, r)). by apply elem_of_map_to_list.
Qed.

(** The unique index makes the lookup by key complete. *)
Lemma find_by_key_complete o k i r :
  wf o → rows o !! i = Some r → dispatch_key r = k → find_by_key o k = Some r.
Proof.
  intros [_ Hu] Hi Hk. destruct (find_by_key o k) as [x|] eqn:E.
  - apply find_by_key_Some in E as (j & Hj & Hx). assert (i = j) as <- by eauto with congruence.
    congruence.
  - by eapply find_by_key_None in E.
Qed.

(** ** What an operation does to one row *)

Definition sweep_row (t : Z) (r : OutboxRow) : OutboxRow :=
  let r := if expired t r && exhausted r
           then to_dead_letter "lease_expired_attempts_exhausted" t r else r in
  let r := if expired t r && negb (exhausted r) then to_retryable_expired t r else r in
  if (is_status PENDING r || is_status RETRYABLE r) && exhausted r
  then to_dead_letter "attempts_exhausted" t r else r.

Definition sweep (t : Z) (o : Outbox) : Outbox :=
  _dead_letter_exhausted_due_rows t (_recover_expired_leases t o).

Lemma rows_sweep t o i : rows (sweep t o) !! i = sweep_row t <$> rows o !! i.
Proof.
  unfold sweep, _dead_letter_exhausted_due_rows, _recover_expired_leases, update_where.
  cbn. rewrite !lookup_fmap. by destruct (rows o !! i).
Qed.

#[global] Arguments sweep : simpl never.
#[global] Arguments sweep_row : simpl never.

Lemma next_id_sweep t o : next_id (sweep t o) = next_id o.
Proof. done. Qed.

Lemma good_trans a b c : good_change a b → good_change b c → good_change a c.
Proof. intros (? & ? & ?) (? & ? & ?). repeat split; [congruence | congruence | auto]. Qed.

Lemma good_if (b : bool) (f : OutboxRow → OutboxRow) r :
  (∀ r, good_change r (f r)) → good_change r (if b then f r else r).
Proof. intros H. destruct b; [apply H | by repeat split]. Qed.

Lemma good_sweep t r : good_change r (sweep_row t r).
Proof.
  unfold sweep_row.
  eapply good_trans; [| apply good_if; auto with nexus].
  eapply good_trans; [| apply good_if; auto with nexus].
  apply good_if; auto with nexus.
Qed.
#[export] Hint Resolve good_sweep : nexus.

(** The row-level state machine. [claim_of] holds of the two claim operations. *)
Definition claim_of (a : op) : bool :=
  match a with OClaim _ _ _ _ | OClaimCas _ _ _ => true | _ => false end.

Definition owns (t : Z) (w : string) (r : OutboxRow) : bool :=
  is_status PROCESSING r && bool_decide (lease_owner r = Some w) && sql_gt (lease_expires_at r) t.

Inductive row_event : op → OutboxRow → OutboxRow → Prop :=
| ev_same a r : row_event a r r
| ev_sweep a r : claim_of a = true → row_event a r (sweep_row (op_now a) r)
| ev_claim a r w u :
    claim_of a = true → claimable (op_now a) (sweep_row (op_now a) r) = true →
    row_event a r (to_claimed w u (op_now a) (sweep_row (op_now a) r))
| ev_success r ow w ack ext t :
    _scope ow "lease_owner" 120 = Ok w → owns t w r = true →
    row_event (OSuccess (r_id r) ow ack ext t) r (to_dispatched ack ext t r)
| ev_failure r ow w c s b t :
    _scope ow "lease_owner" 120 = Ok w → owns t w r = true →
    row_event (OFailure (r_id r) ow c s b t) r (to_failed b c s t r)
| ev_cancel r x t :
    is_status DISPATCHED r = false → is_status DEAD_LETTER r = false →
    row_event (OCancel (r_id r) x t) r (to_cancelled x t r).

#[global] Arguments find_by_key : simpl never.
#[global] Arguments insert_row : simpl never.
#[global] Arguments same_scope : simpl never.
#[global] Arguments ordered_candidates : simpl never.
#[global] Arguments _owned_processing_record : simpl never.

(** *** The operations as equations *)

Lemma claim_run l ow t n o :
  claim_next_operations_dispatch l ow t n o =
  match _scope ow "lease_owner" 120 with
  | Err e => (Err e, o)
  | Ok w =>
      match ordered_candidates (fun r => claimable t r && negb (l (r_id r))) (sweep t o) with
      | [] => (Ok None, sweep t o)
      | r :: _ =>
          let r' := to_claimed w (t + seconds (Z.max 1 n)) t r in
          (Ok (Some r'), put_row r' (sweep t o))
      end
  end.
Proof.
  unfold claim_next_operations_dispatch, mbind, M_bind, lift, modify, gets.
  destruct (_scope _ _ _) as [w|e]; [|done]. fold (sweep t o).
  by destruct (ordered_candidates _ _).
Qed.

Lemma success_run i ow a e t o :
  mark_operations_dispatch_success i ow a e t o =
  match _scope ow "lease_owner" 120 with
  | Err x => (Err x, o)
  | Ok w =>
      match _owned_processing_record o i w t with
      | None => (Err lease_lost, o)
      | Some r => let r' := to_dispatched a e t r in (Ok r', put_row r' o)
      end
  end.
Proof.
  unfold mark_operations_dispatch_success, mbind, M_bind, lift, gets, raise, modify.
  destruct (_scope _ _ _) as [w|x]; [|done]. by destruct (_owned_processing_record _ _ _ _).
Qed.

Lemma failure_run i ow c s b t o :
  mark_operations_dispatch_failure i ow c s b t o =
  match _scope ow "lease_owner" 120 with
  | Err x => (Err x, o)
  | Ok w =>
      match _owned_processing_record o i w t with
      | None => (Err lease_lost, o)
      | Some r => let r' := to_failed b c s t r in (Ok r', put_row r' o)
      end
  end.
Proof.
  unfold mark_operations_dispatch_failure, mbind, M_bind, lift, gets, raise, modify.
  destruct (_scope _ _ _) as [w|x]; [|done]. by destruct (_owned_processing_record _ _ _ _).
Qed.

Lemma cancel_run i x t o :
  cancel_operations_dispatch i x t o =
  match rows o !! i with
  | None => (Err (LookupError "operations_dispatch_not_found"), o)
  | Some r =>
      if is_status DISPATCHED r || is_status DEAD_LETTER r
      then (Err (RuntimeError "operations_dispatch_terminal"), o)
      else let r' := to_cancelled x t r in (Ok r', put_row r' o)
  end.
Proof.
  unfold cancel_operations_dispatch, mbind, M_bind, gets, raise, modify, require.
  destruct (rows o !! i) as [r|]; [|done]. by destruct (_ || _).
Qed.

Lemma owned_Some o i w t r :
  _owned_processing_record o i w t = Some r ↔ rows o !! i = Some r ∧ owns t w r = true.
Proof.
  unfold _owned_processing_record. destruct (rows o !! i) as [x|]; [|split; [done | by intros [? _]]].
  fold (owns t w x). destruct (owns t w x) eqn:E; split.
  - by intros [= <-].
  - by intros [[= <-] _].
  - done.
  - intros [[= <-] ?]. congruence.
Qed.

(** The compare-and-swap branch, without interference, takes the row the
    locking branch takes when no row is locked. *)
Lemma cas_first w u t o r rs :
  wf o → ordered_candidates (claimable t) o = r :: rs →
  cas_candidates w u t (r_id <$> take 32 (r :: rs)) o =
  (Ok (Some (to_claimed w u t r)), put_row (to_claimed w u t r) o).
Proof.
  intros Hw Hc. assert (r ∈ ordered_candidates (claimable t) o) as Hr by (rewrite Hc; set_solver).
  apply elem_of_candidates in Hr as [Hl Hp]; [|done].
  cbn. unfold mbind, M_bind, gets. rewrite Hl, Hp. done.
Qed.

Lemma wf_swept t o : wf o → wf (sweep t o).
Proof. apply wf_sweep. Qed.
#[export] Hint Resolve wf_swept : nexus.

Lemma cas_run ow t n o :
  wf o →
  claim_next_operations_dispatch_cas id ow t n o =
  claim_next_operations_dispatch (fun _ => false) ow t n o.
Proof.
  intros Hw. rewrite claim_run.
  unfold claim_next_operations_dispatch_cas, mbind, M_bind, lift, modify, gets.
  destruct (_scope _ _ _) as [w|e]; [|done]. fold (sweep t o).
  assert (ordered_candidates (fun r => claimable t r && negb false) (sweep t o)
          = ordered_candidates (claimable t) (sweep t o)) as ->.
  { unfold ordered_candidates. f_equal. apply list_filter_iff. intros r.
    by rewrite andb_true_r. }
  destruct (ordered_candidates _ _) as [|r rs] eqn:E; [done|].
  exact (cas_first w (t + seconds (Z.max 1 n)) t _ r rs (wf_swept t o Hw) E).
Qed.

Lemma enqueue_run fk race q t o :
  enqueue_operations_dispatch fk race q t o =
  match enqueue_values q 0 t with
  | Err e => (Err e, o)
  | Ok v =>
      match find_by_key o (dispatch_key v) with
      | Some r => if same_scope r v then (Ok (r, false), o) else (Err collision, o)
      | None =>
          match insert_row fk v (race o) with
          | Some (r, o') => (Ok (r, true), o')
          | None =>
              match find_by_key (race o) (dispatch_key v) with
              | None => (Err (IntegrityError "operations_dispatch_outbox"), race o)
              | Some w => if same_scope w v then (Ok (w, false), race o)
                          else (Err collision, race o)
              end
          end
      end
  end.
Proof.
  unfold enqueue_operations_dispatch, _assert_same_scope, mbind, M_bind, lift, modify, gets,
    get, raise, require.
  destruct (enqueue_values _ _ _) as [v|e]; [|done].
  destruct (find_by_key o _) as [r|]; [by destruct (same_scope _ _)|].
  destruct (insert_row _ _ _) as [[r o']|]; [done|].
  destruct (find_by_key (race o) _) as [w|]; [by destruct (same_scope _ _)|done].
Qed.

Lemma enqueue_values_ok q i t v :
  enqueue_values q i t = Ok v → check_constraints v = true.
Proof.
  unfold enqueue_values. intros H.
  repeat (apply result_bind_Ok in H as (? & ? & H)). injection H as <-.
  unfold check_constraints, is_status. cbn. reduce_decide. lia.
Qed.

Lemma insert_row_Some fk v o r o' :
  insert_row fk v o = Some (r, o') →
  find_by_key o (dispatch_key v) = None ∧ fk v = true ∧
  r = v <| r_id := next_id o |> ∧
  rows o' = <[next_id o := r]> (rows o) ∧ next_id o' = Z.succ (next_id o).
Proof.
  unfold insert_row. destruct (find_by_key _ _); [done|]. destruct (fk v); [|done].
  by intros [= <- <-].
Qed.

Lemma fresh_next_id o : wf o → rows o !! next_id o = None.
Proof.
  intros [Hr _]. destruct (rows o !! next_id o) as [r|] eqn:E; [|done].
  destruct (Hr _ _ E) as (_ & ? & _). lia.
Qed.

Lemma wf_insert fk v o r o' :
  wf o → check_constraints v = true → insert_row fk v o = Some (r, o') → wf o'.
Proof.
  intros Hw Hc Hi. pose proof (fresh_next_id o Hw) as Hf.
  apply insert_row_Some in Hi as (Hn & _ & -> & Hro & Hni). destruct Hw as [Hr Hu].
  pose proof (find_by_key_None _ _ Hn) as Hk.
  split; rewrite Hro, ?Hni.
  - intros i x. rewrite lookup_insert. case_decide as Hd; [intros [= <-]|intros Hx].
    + subst. split_and!; [done | lia |]. revert Hc. by destruct v.
    + destruct (Hr _ _ Hx) as (? & ? & ?). split_and!; auto. lia.
  - intros i j x y. rewrite !lookup_insert. do 2 case_decide; try congruence.
    + intros [= <-] Hy E. cbn in E. by destruct (Hk _ _ Hy).
    + intros Hx [= <-] E. cbn in E. by destruct (Hk _ _ Hx).
    + apply Hu.
Qed.

Lemma wf_enqueue fk race q t o :
  (wf o → wf (race o)) → wf o → wf (snd (enqueue_operations_dispatch fk race q t o)).
Proof.
  intros Hrace Hw. rewrite enqueue_run.
  destruct (enqueue_values q 0 t) as [v|e] eqn:E; [|done]. apply enqueue_values_ok in E.
  destruct (find_by_key o _) as [r|]; [by destruct (same_scope _ _)|].
  destruct (insert_row _ _ _) as [[r o']|] eqn:Ei; [exact (wf_insert fk v _ r o' (Hrace Hw) E Ei)|].
  destruct (find_by_key (race o) _) as [w|]; [destruct (same_scope _ _)|]; cbn; auto.
Qed.

Lemma claimable_not_exhausted t r : claimable t r = true → exhausted r = false.
Proof. unfold claimable. destruct (exhausted r); [by rewrite andb_false_r | done]. Qed.

Lemma wf_claim l ow t n o :
  wf o → wf (snd (claim_next_operations_dispatch l ow t n o)).
Proof.
  intros Hw. rewrite claim_run. destruct (_scope _ _ _) as [w|e]; [|done].
  destruct (ordered_candidates _ _) as [|r rs] eqn:E; cbn; [by apply wf_swept|].
  assert (r ∈ r :: rs) as Hr by set_solver. rewrite <- E in Hr.
  apply elem_of_candidates in Hr as [Hl Hp]; [|by apply wf_swept].
  apply (wf_put_row r); [done| |by apply wf_swept].
  apply good_claimed, (claimable_not_exhausted t). by apply andb_true_iff in Hp as [? _].
Qed.

Lemma step_wf a o : wf o → wf (step o a).
Proof.
  intros Hw. unfold step, run_op. destruct a as [q fk t|l ow t n|ow t n|i ow a e t|i ow c s b t|i x t].
  - unfold mbind, M_bind. pose proof (wf_enqueue fk id q t o ltac:(auto) Hw) as H.
    by destruct (enqueue_operations_dispatch _ _ _ _ _) as [[]].
  - by apply wf_claim.
  - rewrite cas_run by done. by apply wf_claim.
  - unfold mbind, M_bind. rewrite success_run. destruct (_scope _ _ _) as [w|z]; [|done].
    destruct (_owned_processing_record _ _ _ _) as [r|] eqn:E; [|done]. cbn.
    apply owned_Some in E as [E _]. destruct (proj1 Hw _ _ E) as [<- _].
    apply (wf_put_row r); auto with nexus.
  - unfold mbind, M_bind. rewrite failure_run. destruct (_scope _ _ _) as [w|z]; [|done].
    destruct (_owned_processing_record _ _ _ _) as [r|] eqn:E; [|done]. cbn.
    apply owned_Some in E as [E _]. destruct (proj1 Hw _ _ E) as [<- _].
    apply (wf_put_row r); auto with nexus.
  - unfold mbind, M_bind. rewrite cancel_run. destruct (rows o !! i) as [r|] eqn:E; [|done].
    destruct (_ || _); [done|]. cbn. destruct (proj1 Hw _ _ E) as [<- _].
    apply (wf_put_row r); auto with nexus.
Qed.

(** *** Every operation moves every row by the row machine *)

Lemma lookup_put_row r o i :
  rows (put_row r o) !! i = if decide (r_id r = i) then Some r else rows o !! i.
Proof. unfold put_row. cbn. by rewrite lookup_insert. Qed.

Lemma claim_row l ow t n o a i r :
  wf o → claim_of a = true → op_now a = t → rows o !! i = Some r →
  ∃ r', rows (snd (claim_next_operations_dispatch l ow t n o)) !! i = Some r' ∧ row_event a r r'.
Proof.
  intros Hw Ha <- Hi. rewrite claim_run.
  destruct (_scope _ _ _) as [w|e]; [|exists r; split; [done | apply ev_same]].
  pose proof (rows_sweep (op_now a) o i) as Hs. rewrite Hi in Hs. cbn in Hs.
  destruct (ordered_candidates _ _) as [|c cs] eqn:E; cbn.
  { exists (sweep_row (op_now a) r). split; [done | by apply ev_sweep]. }
  assert (c ∈ c :: cs) as Hc by set_solver. rewrite <- E in Hc.
  apply elem_of_candidates in Hc as [Hl [Hp _]%andb_true_iff]; [|by apply wf_swept].
  rewrite lookup_put_row. cbn. case_decide as Hd; [|eauto using ev_sweep].
  subst i. rewrite Hs in Hl. injection Hl as <-.
  eexists. split; [done | by apply ev_claim].
Qed.

Lemma step_row a o i r :
  wf o → rows o !! i = Some r → ∃ r', rows (step o a) !! i = Some r' ∧ row_event a r r'.
Proof.
  intros Hw Hi. unfold step, run_op. pose proof (proj1 Hw _ _ Hi) as (Hid & Hlt & _).
  assert (∃ r', Some r = Some r' ∧ row_event a r r') as Hsame by eauto using ev_same.
  destruct a as [q fk t|l ow t n|ow t n|j ow a e t|j ow c s b t|j x t].
  - unfold mbind, M_bind. rewrite enqueue_run.
    destruct (enqueue_values q 0 t) as [v|z]; cbn; [|by rewrite Hi].
    destruct (find_by_key o _) as [y|]; [destruct (same_scope _ _); cbn; by rewrite Hi|].
    destruct (insert_row _ _ _) as [[y o']|] eqn:E.
    + apply insert_row_Some in E as (_ & _ & _ & Hro & _). cbn.
      rewrite Hro, lookup_insert_ne by (unfold id; lia). unfold id. by rewrite Hi.
    + cbn. by rewrite Hi.
  - by eapply claim_row.
  - rewrite cas_run by done. by eapply claim_row.
  - unfold mbind, M_bind. rewrite success_run.
    destruct (_scope _ _ _) as [w|z] eqn:Es; cbn; [|by rewrite Hi].
    destruct (_owned_processing_record _ _ _ _) as [y|] eqn:E; cbn; [|by rewrite Hi].
    apply owned_Some in E as [El Eo]. pose proof (proj1 Hw _ _ El) as (<- & _).
    rewrite lookup_put_row. cbn. case_decide; [|by rewrite Hi].
    assert (y = r) as -> by congruence. eauto using ev_success.
  - unfold mbind, M_bind. rewrite failure_run.
    destruct (_scope _ _ _) as [w|z] eqn:Es; cbn; [|by rewrite Hi].
    destruct (_owned_processing_record _ _ _ _) as [y|] eqn:E; cbn; [|by rewrite Hi].
    apply owned_Some in E as [El Eo]. pose proof (proj1 Hw _ _ El) as (<- & _).
    rewrite lookup_put_row. pose proof (good_failed b c s t y) as (-> & _).
    case_decide; [|by rewrite Hi].
    assert (y = r) as -> by congruence. eauto using ev_failure.
  - unfold mbind, M_bind. rewrite cancel_run.
    destruct (rows o !! j) as [y|] eqn:E; cbn; [|by rewrite Hi].
    destruct (is_status DISPATCHED y || _) eqn:Et; cbn; [by rewrite Hi|].
    apply orb_false_iff in Et as [? ?]. pose proof (proj1 Hw _ _ E) as (<- & _).
    rewrite lookup_put_row. cbn. case_decide; [|by rewrite Hi].
    assert (y = r) as -> by congruence. eauto using ev_cancel.
Qed.

Lemma run_ops_wf l o : wf o → wf (run_ops l o).
Proof.
  unfold run_ops. revert o. induction l as [|a l IH]; intros o Hw; cbn; [done|].
  by apply IH, step_wf.
Qed.

Lemma wf_empty : wf empty_outbox.
Proof. split; intros *; cbn; by rewrite lookup_empty. Qed.

(** A row property kept by every row event is kept along a history. *)
Lemma run_ops_row (P : OutboxRow → OutboxRow → Prop) (Q : op → Prop) l o i r :
  (∀ x, P x x) → (∀ x y z, P x y → P y z → P x z) →
  (∀ a x y, Q a → row_event a x y → P x y) →
  wf o → Forall Q l → rows o !! i = Some r → ∃ r', rows (run_ops l o) !! i = Some r' ∧ P r r'.
Proof.
  intros Hrefl Htrans Hev. unfold run_ops. revert o r.
  induction l as [|a l IH]; intros o r Hw HQ Hi; cbn; [eauto|].
  inversion HQ as [|? ? Ha Hl]; subst.
  destruct (step_row a o i r Hw Hi) as (r1 & Hi1 & He).
  destruct (IH (step o a) r1 (step_wf a o Hw) Hl Hi1) as (r2 & ? & ?); eauto.
Qed.

(** ** Properties *)

(** C39: no history of operations, in any order and at any times, leaves a row
    that violates one of the table's CHECK constraints or two rows with the same
    dispatch key; the attempt counter never exceeds its bound. *)
Theorem outbox_reachable_wf l :
  let o := run_ops l empty_outbox in
  (∀ i r, rows o !! i = Some r → check_constraints r = true) ∧
  (∀ i j r r', rows o !! i = Some r → rows o !! j = Some r' →
     dispatch_key r = dispatch_key r' → i = j).
Proof.
  intros o. pose proof (run_ops_wf l _ wf_empty) as [Hr Hu].
  split; [|exact Hu]. intros i r Hi. by destruct (Hr _ _ Hi) as (_ & _ & ?).
Qed.

(** The transitions of a row's status that one operation can make. *)
Definition may_become (a b : OperationsDispatchStatus) : bool :=
  match a, b with
  | PENDING, (PENDING | PROCESSING | DEAD_LETTER | CANCELLED) => true
  | PROCESSING, (PROCESSING | DISPATCHED | RETRYABLE | FAILED | DEAD_LETTER | CANCELLED) => true
  | RETRYABLE, (RETRYABLE | PROCESSING | DEAD_LETTER | CANCELLED) => true
  | FAILED, (FAILED | CANCELLED) => true
  | CANCELLED, CANCELLED => true
  | DISPATCHED, DISPATCHED => true
  | DEAD_LETTER, DEAD_LETTER => true
  | _, _ => false
  end.

Lemma sweep_row_status t r :
  may_become (status r) (status (sweep_row t r)) = true ∧
  (status r ≠ PENDING → status r ≠ PROCESSING → status r ≠ RETRYABLE → sweep_row t r = r).
Proof.
  destruct r as [? ? ? ? ? ? ? ? ? [] ? ? ? ? [x|] ? ? ? ? ? ? ? ?];
    unfold sweep_row, expired, exhausted, is_status; cbn; reduce_decide;
    repeat (case_match; cbn; reduce_decide); split; intros; done.
Qed.

Definition final_status (r : OutboxRow) : bool := is_status DISPATCHED r || is_status DEAD_LETTER r.

Lemma claimable_sweep_status t r :
  claimable t (sweep_row t r) = true →
  status r = PENDING ∨ status r = PROCESSING ∨ status r = RETRYABLE.
Proof.
  intros H. destruct (sweep_row_status t r) as [_ Hid].
  destruct (status r) eqn:E; auto; exfalso;
    rewrite Hid in H by congruence; unfold claimable, due_filter, is_status in H;
    rewrite E in H; done.
Qed.

Lemma row_event_status a r r' :
  row_event a r r' → may_become (status r) (status r') = true ∧ (final_status r = true → r' = r).
Proof.
  unfold final_status, is_status. destruct 1 as [a r|a r Ha|a r w u Ha Hc|r ow w ack ext t Hs Ho
    |r ow w c s b t Hs Ho|r x t H1 H2].
  - split; [by destruct (status r) | done].
  - destruct (sweep_row_status (op_now a) r) as [H Hid]. split; [done|].
    intros Hf. apply Hid; intros E; by rewrite E in Hf.
  - apply claimable_sweep_status in Hc. split; [by destruct Hc as [->|[->| ->]] |].
    intros Hf. by destruct Hc as [E|[E|E]]; rewrite E in Hf.
  - unfold owns, is_status in Ho. destruct (status r); done.
  - unfold owns, is_status in Ho. unfold to_failed.
    destruct (status r); try done. by destruct b, (exhausted r).
  - unfold is_status in *. by destruct (status r).
Qed.

(** one operation moves a row only along the declared life cycle, and a
    dispatched or dead-lettered row is never changed again by anything. *)
Theorem outbox_row_lifecycle a o i r :
  wf o → rows o !! i = Some r →
  ∃ r', rows (step o a) !! i = Some r' ∧
    may_become (status r) (status r') = true ∧
    (final_status r = true → r' = r).
Proof.
  intros Hw Hi. destruct (step_row a o i r Hw Hi) as (r' & Hi' & He).
  exists r'. split; [done | by eapply row_event_status].
Qed.

(** The lease [w] holds on row [r] until [e]. *)
Definition leased (w : string) (e : Z) (r : OutboxRow) : Prop :=
  status r = PROCESSING ∧ lease_owner r = Some w ∧ lease_expires_at r = Some e.

(** Operations that may end the lease of [w] on row [i] before it expires: a
    cancellation of the row, and a result reported under the owner's name. *)
Definition touches_lease (i : Z) (w : string) (a : op) : bool :=
  match a with
  | OCancel j _ _ => bool_decide (j = i)
  | OSuccess j ow _ _ _ | OFailure j ow _ _ _ _ =>
      bool_decide (j = i) && bool_decide (_scope ow "lease_owner" 120 = Ok w)
  | _ => false
  end.

Lemma sweep_row_leased t w e r : leased w e r → t < e → sweep_row t r = r.
Proof.
  intros (Hs & _ & He) Ht.
  assert (expired t r = false) as Hx by (unfold expired; rewrite He, andb_comm; cbn; lia).
  unfold sweep_row. rewrite Hx. cbn. rewrite Hx. cbn. unfold is_status. rewrite Hs.
  by reduce_decide.
Qed.

Lemma row_event_leased a w e r r' i :
  r_id r = i → leased w e r → op_now a < e → touches_lease i w a = false →
  row_event a r r' → r' = r.
Proof.
  intros Hi Hl Ht Htl He. destruct He as [a r|a r Ha|a r w' u Ha Hc|r ow w' ack ext t Hs Ho
    |r ow w' c s b t Hs Ho|r x t H1 H2]; cbn in *.
  - done.
  - by eapply sweep_row_leased.
  - rewrite (sweep_row_leased _ w e) in Hc by done. destruct Hl as (Hs & _).
    unfold claimable, due_filter, is_status in Hc. by rewrite Hs in Hc.
  - destruct Hl as (_ & Hlo & _). unfold owns in Ho. rewrite Hlo in Ho.
    rewrite !andb_true_iff, bool_decide_eq_true in Ho. destruct Ho as [[_ [= <-]] _].
    rewrite Hs in Htl. rewrite !bool_decide_eq_true_2 in Htl by done. done.
  - destruct Hl as (_ & Hlo & _). unfold owns in Ho. rewrite Hlo in Ho.
    rewrite !andb_true_iff, bool_decide_eq_true in Ho. destruct Ho as [[_ [= <-]] _].
    rewrite Hs in Htl. rewrite !bool_decide_eq_true_2 in Htl by done. done.
  - by rewrite bool_decide_eq_true_2 in Htl.
Qed.

(** mutual exclusion of leases. While a worker's lease on a row has not
    expired, any number of claims, enqueues and results of other workers leave
    the row exactly as the owner left it; in particular nobody else claims it. *)
Theorem outbox_lease_exclusive l o i r w e :
  wf o → rows o !! i = Some r → leased w e r →
  Forall (fun a => op_now a < e ∧ touches_lease i w a = false) l →
  rows (run_ops l o) !! i = Some r.
Proof.
  intros Hw Hi Hl HF.
  assert (∃ r', rows (run_ops l o) !! i = Some r' ∧ (leased w e r ∧ r_id r = i → r' = r))
    as (r' & Hi' & Heq).
  { apply (run_ops_row (fun x y => leased w e x ∧ r_id x = i → y = x)
             (fun a => op_now a < e ∧ touches_lease i w a = false)); auto.
    - intros x y z Hxy Hyz Hx. pose proof (Hxy Hx). subst y. auto.
    - intros a x y [Ht Htl] He [Hlx Hix]. by eapply row_event_leased. }
  rewrite Hi', Heq; [done | split; [done | by destruct (proj1 Hw _ _ Hi)]].
Qed.

(** a result is accepted exactly from the worker that owns the row under an
    unexpired lease; otherwise the report raises and changes nothing. *)
Theorem outbox_result_fenced i ow ack ext t o :
  wf o →
  match mark_operations_dispatch_success i ow ack ext t o with
  | (Ok r', o') =>
      ∃ w r, _scope ow "lease_owner" 120 = Ok w ∧ rows o !! i = Some r ∧
        owns t w r = true ∧ r' = to_dispatched ack ext t r ∧ rows o' = <[i := r']> (rows o)
  | (Err e, o') =>
      o' = o ∧ (∀ w r, _scope ow "lease_owner" 120 = Ok w → rows o !! i = Some r →
                owns t w r = false)
  end.
Proof.
  intros Hw. rewrite success_run.
  destruct (_scope ow "lease_owner" 120) as [w|z]; [|by split].
  destruct (_owned_processing_record o i w t) as [r|] eqn:E.
  - apply owned_Some in E as [Hi Ho]. pose proof (proj1 Hw _ _ Hi) as (<- & _).
    exists w, r. do 4 (split; [first [exact Hi | exact Ho | reflexivity]|]). reflexivity.
  - split; [done|]. intros w' r [= <-] Hi. destruct (owns t w r) eqn:Ho; [|done].
    by rewrite (proj2 (owned_Some o i w t r) (conj Hi Ho)) in E.
Qed.

(** The claims of row [i] in a history *)
Definition claims_row (i : Z) (a : op) (o : Outbox) : bool :=
  claim_of a &&
  match fst (run_op a o) with
  | Ok (Some r) => r_id r =? i
  | _ => false
  end.

Fixpoint claim_count (i : Z) (l : list op) (o : Outbox) : Z :=
  match l with
  | [] => 0
  | a :: l' => (if claims_row i a o then 1 else 0) + claim_count i l' (step o a)
  end.

Definition attempts_left (r : OutboxRow) : Z := max_attempts r - attempt_count r.

(** A projection that the rewrites of the sweep do not write is unchanged. *)
Lemma sweep_row_frame {T} (g : OutboxRow → T) t r :
  (∀ c r, g (to_dead_letter c t r) = g r) → (∀ r, g (to_retryable_expired t r) = g r) →
  g (sweep_row t r) = g r.
Proof.
  intros Hd Hr. unfold sweep_row.
  assert (∀ (b : bool) f r, (∀ r, g (f r) = g r) → g (if b then f r else r) = g r) as Hif
    by (intros [] ? ? ?; auto).
  rewrite !Hif; auto.
Qed.

Lemma sweep_row_attempts t r :
  attempt_count (sweep_row t r) = attempt_count r ∧ max_attempts (sweep_row t r) = max_attempts r.
Proof. split; by apply sweep_row_frame. Qed.

Lemma row_event_attempts a r r' : row_event a r r' → attempts_left r' ≤ attempts_left r.
Proof.
  unfold attempts_left. destruct 1; cbn;
    rewrite ?(proj1 (sweep_row_attempts _ _)), ?(proj2 (sweep_row_attempts _ _)); try lia.
  unfold to_failed. destruct b, (exhausted r); cbn; lia.
Qed.

Lemma claims_row_step i a o r :
  wf o → rows o !! i = Some r → claims_row i a o = true →
  ∃ r', rows (step o a) !! i = Some r' ∧ attempts_left r' = attempts_left r - 1.
Proof.
  intros Hw Hi. unfold claims_row, step.
  assert (Hgo : ∀ l ow t n,
    match fst (claim_next_operations_dispatch l ow t n o) with
    | Ok (Some r) => r_id r =? i | _ => false end = true →
    ∃ r', rows (snd (claim_next_operations_dispatch l ow t n o)) !! i = Some r' ∧
      attempts_left r' = attempts_left r - 1).
  { intros l ow t n. rewrite claim_run. destruct (_scope _ _ _) as [w|e]; [|done].
    destruct (ordered_candidates _ _) as [|c cs] eqn:E; [done|]. cbn. intros Hc%Z.eqb_eq.
    assert (c ∈ c :: cs) as Hin by set_solver. rewrite <- E in Hin.
    apply elem_of_candidates in Hin as [Hl _]; [|by apply wf_swept].
    rewrite lookup_put_row. cbn. rewrite decide_True by done. eexists; split; [done|].
    rewrite Hc, rows_sweep, Hi in Hl. injection Hl as <-. unfold attempts_left. cbn.
    destruct (sweep_row_attempts t r) as [-> ->]. lia. }
  destruct a as [| l ow t n | ow t n | | |]; try done; cbn [claim_of run_op andb]; [by apply Hgo|].
  rewrite cas_run by done. apply Hgo.
Qed.

(** bounded retries. Whatever the history, a row is handed to workers at
    most [max_attempts - attempt_count] more times. *)
Theorem outbox_claims_bounded l o i r :
  wf o → rows o !! i = Some r → claim_count i l o ≤ max_attempts r - attempt_count r.
Proof.
  fold (attempts_left r). revert o r. induction l as [|a l IH]; intros o r Hw Hi; cbn.
  - destruct (proj1 Hw _ _ Hi) as (_ & _ & Hc). unfold check_constraints in Hc.
    rewrite !andb_true_iff in Hc. unfold attempts_left. lia.
  - destruct (claims_row i a o) eqn:E.
    + destruct (claims_row_step i a o r Hw Hi E) as (r' & Hi' & Hr').
      specialize (IH _ _ (step_wf a o Hw) Hi'). lia.
    + destruct (step_row a o i r Hw Hi) as (r' & Hi' & He).
      apply row_event_attempts in He. specialize (IH _ _ (step_wf a o Hw) Hi'). lia.
Qed.

Lemma row_leb_total a b : row_leb a b = true ∨ row_leb b a = true.
Proof. unfold row_leb. lia. Qed.

Lemma row_leb_trans a b c : row_leb a b = true → row_leb b c = true → row_leb a c = true.
Proof. unfold row_leb. lia. Qed.

Lemma candidate_intro p o i r :
  rows o !! i = Some r → p r = true → r ∈ ordered_candidates p o.
Proof.
  intros Hi Hp. unfold ordered_candidates. rewrite elem_of_sort_by, list_elem_of_filter.
  split; [done|]. apply list_elem_of_fmap. exists (i, r). split; [done|].
  by apply elem_of_map_to_list.
Qed.

(** a claim returns nothing exactly when, after expired leases are swept,
    no unlocked row is due with attempts left; otherwise it takes the oldest such
    row by creation time and id, counts the attempt, clears the retry timestamp
    and stores a lease of at least one second under the caller's name. *)
Theorem outbox_claim_takes_oldest_due locked ow w t n o :
  wf o → _scope ow "lease_owner" 120 = Ok w →
  let eligible r := claimable t r && negb (locked (r_id r)) in
  let lease_until := t + seconds (Z.max 1 n) in
  match claim_next_operations_dispatch locked ow t n o with
  | (Ok None, o') => o' = sweep t o ∧ ∀ i r, rows o' !! i = Some r → eligible r = false
  | (Ok (Some r'), o') =>
      ∃ r, rows (sweep t o) !! r_id r = Some r ∧ eligible r = true ∧
        (∀ i x, rows (sweep t o) !! i = Some x → eligible x = true → row_leb r x = true) ∧
        r' = to_claimed w lease_until t r ∧ o' = put_row r' (sweep t o) ∧
        t + us_per_second ≤ lease_until
  | (Err _, _) => False
  end.
Proof.
  intros Hw Hs eligible lease_until. rewrite claim_run, Hs.
  fold eligible. destruct (ordered_candidates _ _) as [|r rs] eqn:E.
  - split; [done|]. intros i r Hi. destruct (eligible r) eqn:Hr; [|done].
    apply (candidate_intro eligible) in Hi; [|done]. rewrite E in Hi. by apply not_elem_of_nil in Hi.
  - assert (r ∈ r :: rs) as Hin by set_solver. rewrite <- E in Hin.
    apply elem_of_candidates in Hin as [Hl Hp]; [|by apply wf_swept].
    exists r. split; [done|]. split; [done|]. split; [|split; [done|split; [done|]]].
    + intros i x Hi Hx. apply (candidate_intro eligible) in Hi; [|done].
      apply (sort_by_head_min row_leb row_leb_total row_leb_trans) in E as [_ Hmin].
      apply Hmin. by apply elem_of_sort_by in Hi.
    + unfold lease_until, seconds, us_per_second. lia.
Qed.

(** C40: the compare-and-swap branch of [claim_next_operations_dispatch] returns
    the same row and leaves the same table as the locking branch when no other
    session interferes. *)
Theorem outbox_claim_branches_agree ow t n o :
  wf o →
  claim_next_operations_dispatch_cas id ow t n o =
  claim_next_operations_dispatch (fun _ => false) ow t n o.
Proof. intros Hw. by apply cas_run. Qed.

(** The immutable scope of a row *)
Definition scope_of (r : OutboxRow) :=
  (r_id r, dispatch_key r,
   (tenant_key r, country_code r, channel_key r, routing_rule_id r),
   (destination_group_key r, destination_group_hash r, ticket_id r)).

Lemma row_event_scope a r r' : row_event a r r' → scope_of r' = scope_of r.
Proof.
  destruct 1; try done; unfold scope_of; cbn.
  1,2: by rewrite !sweep_row_frame.
  unfold to_failed. by destruct b, (exhausted r).
Qed.

Lemma same_scope_of r v :
  scope_of r = scope_of (v <| r_id := r_id r |>) → same_scope r v = true.
Proof.
  unfold scope_of, same_scope. cbn. intros [= ? ? ? ? ? ? ? ?].
  by rewrite !bool_decide_eq_true_2.
Qed.

Lemma enqueue_values_scope q i j t t' v :
  enqueue_values q i t = Ok v →
  ∃ v', enqueue_values q j t' = Ok v' ∧ scope_of v' = scope_of (v <| r_id := j |>).
Proof.
  unfold enqueue_values. intros H.
  repeat (apply result_bind_Ok in H as (? & -> & H); cbn). injection H as <-. eauto.
Qed.

(** enqueue is idempotent. Once a request has created its row, any later
    enqueue of the same request, after any further history and whatever other
    sessions do, returns that row with [created = False] and changes nothing. *)
Theorem outbox_enqueue_idempotent fk fk' race race' q t t' l o r o1 :
  wf o → wf (race o) →
  enqueue_operations_dispatch fk race q t o = (Ok (r, true), o1) →
  ∃ r', enqueue_operations_dispatch fk' race' q t' (run_ops l o1)
        = (Ok (r', false), run_ops l o1) ∧ r_id r' = r_id r ∧ scope_of r' = scope_of r.
Proof.
  intros Hw Hrace. rewrite !enqueue_run.
  destruct (enqueue_values q 0 t) as [v|e] eqn:Ev; [|done].
  destruct (find_by_key o _) as [y|]; [by destruct (same_scope _ _)|].
  destruct (insert_row fk v (race o)) as [[y o']|] eqn:Ei.
  2:{ destruct (find_by_key (race o) _) as [y|]; [by destruct (same_scope _ _)|done]. }
  intros [= <- <-]. pose proof (wf_insert _ _ _ _ _ Hrace (enqueue_values_ok _ _ _ _ Ev) Ei) as Hw1.
  apply insert_row_Some in Ei as (_ & _ & Hy & Hro & _).
  assert (rows o' !! next_id (race o) = Some y) as Hi by (rewrite Hro; apply lookup_insert_eq).
  assert (∃ r', rows (run_ops l o') !! next_id (race o) = Some r' ∧ scope_of r' = scope_of y)
    as (r' & Hi' & Hsc).
  { apply (run_ops_row (fun x y => scope_of y = scope_of x) (fun _ => True)); auto.
    - intros ? ? ? ? ?. congruence.
    - intros a x z _. apply row_event_scope.
    - by apply list.Forall_forall. }
  destruct (enqueue_values_scope q 0 0 t t' v Ev) as (v' & -> & Hv').
  assert (scope_of r' = scope_of (v' <| r_id := r_id r' |>)) as Hs.
  { revert Hsc Hv'. subst y. unfold scope_of. cbn. by intros [= ? ? ? ? ? ? ? ? ?] [= ? ? ? ? ? ? ? ?];
      congruence. }
  rewrite (find_by_key_complete _ _ _ r' (run_ops_wf l _ Hw1) Hi').
  2:{ by unfold scope_of in Hs; cbn in Hs; injection Hs. }
  rewrite same_scope_of by done. exists r'. split; [done|]. split; [|done].
  unfold scope_of in Hsc. by injection Hsc.
Qed.

(** the retry delay doubles with each attempt from 30 seconds, never falls,
    and saturates at one hour from the eighth attempt on. *)
Theorem outbox_retry_delay_schedule n :
  seconds 30 ≤ _retry_delay n ≤ seconds 3600 ∧
  _retry_delay n ≤ _retry_delay (n + 1) ∧
  (1 ≤ n ≤ 7 → _retry_delay n = seconds (30 * 2 ^ (n - 1))) ∧
  (8 ≤ n → _retry_delay n = seconds 3600).
Proof.
  unfold _retry_delay, seconds, us_per_second.
  assert (0 < 2 ^ Z.max 0 (n - 1)) by (apply Z.pow_pos_nonneg; lia).
  assert (2 ^ Z.max 0 (n - 1) ≤ 2 ^ Z.max 0 (n + 1 - 1)) by (apply Z.pow_le_mono_r; lia).
  split; [lia|]. split; [lia|]. split.
  - intros Hn. replace (Z.max 0 (n - 1)) with (n - 1) by lia.
    assert (2 ^ (n - 1) ≤ 2 ^ 6) by (apply Z.pow_le_mono_r; lia).
    assert (2 ^ 0 ≤ 2 ^ (n - 1)) by (apply Z.pow_le_mono_r; lia).
    change (2 ^ 6) with 64 in *. change (2 ^ 0) with 1 in *.
    set (x := 2 ^ (n - 1)) in *. clearbody x. lia.
  - intros Hn. replace (Z.max 0 (n - 1)) with (n - 1) by lia.
    assert (2 ^ 7 ≤ 2 ^ (n - 1)) by (apply Z.pow_le_mono_r; lia).
    change (2 ^ 7) with 128 in *.
    set (x := 2 ^ (n - 1)) in *. clearbody x. lia.
Qed.

(** *** The key material is read back from its JSON text *)

Lemma scope_value v f n s :
  _scope v f n = Ok s → string_forallb is_scope_char s = true ∧ nonempty s = true ∧ str_len s ≤ n.
Proof.
  unfold _scope. destruct (_ || _ || _) eqn:E; [done|]. intros [= <-].
  apply orb_false_iff in E as [[Hne Hlen]%orb_false_iff Hre].
  set (t := py_strip (str_or v EmptyString)) in *. clearbody t.
  destruct (nonempty t); [|done]. split; [|split; [done|lia]].
  destruct (safe_scope_re t) eqn:E; [|done]. destruct t as [|c t]; [done|].
  cbn in *. rewrite !andb_true_iff in E. destruct E as [[Hc Ht] _].
  rewrite Ht, andb_true_r. unfold is_scope_char. by rewrite Hc.
Qed.

Definition material_ok (m : KeyMaterial) : Prop :=
  string_forallb is_scope_char (km_tenant_key m) = true ∧
  string_forallb is_scope_char (km_country_code m) = true ∧
  string_forallb is_scope_char (km_channel_key m) = true ∧
  ∀ h, km_case_hash m = Some h → string_forallb is_scope_char h = true.

Lemma quoted_inj s1 s2 t1 t2 :
  string_forallb is_scope_char s1 = true → string_forallb is_scope_char s2 = true →
  quoted s1 +:+ t1 = quoted s2 +:+ t2 → s1 = s2 ∧ t1 = t2.
Proof.
  intros H1 H2. unfold quoted. rewrite !str_app_assoc. unfold dq. cbn. intros [= E].
  by apply (delimited_inj (Ascii.ascii_of_N 34) is_scope_char).
Qed.

Lemma json_str_or_null_inj o1 o2 t1 t2 :
  (∀ h, o1 = Some h → string_forallb is_scope_char h = true) →
  (∀ h, o2 = Some h → string_forallb is_scope_char h = true) →
  json_str_or_null o1 +:+ t1 = json_str_or_null o2 +:+ t2 → o1 = o2 ∧ t1 = t2.
Proof.
  intros H1 H2. destruct o1 as [a|], o2 as [b|]; unfold json_str_or_null; intros E.
  - apply quoted_inj in E as [-> ->]; auto.
  - by cbn in E.
  - by cbn in E.
  - cbn in E. by injection E.
Qed.

(** A number or [null], up to the character [d] that ends it *)
Lemma json_int_or_null_inj (d : Ascii.ascii) o1 o2 t1 t2 :
  is_int_char d = false →
  string_forallb (fun c => negb (bool_decide (c = d))) "null" = true →
  json_int_or_null o1 +:+ String d t1 = json_int_or_null o2 +:+ String d t2 → o1 = o2 ∧ t1 = t2.
Proof.
  intros Hd Hnull. set (p := fun c => negb (bool_decide (c = d))).
  assert (∀ z : Z, string_forallb p (pretty z) = true) as Hz.
  { intros z. eapply string_forallb_impl; [|apply pretty_Z_chars].
    intros c Hc. unfold p. rewrite bool_decide_eq_false_2; [done | congruence]. }
  intros E. apply (delimited_inj d p) in E as [E ->].
  - split; [|done]. destruct o1 as [x|], o2 as [y|]; cbn in E; try done.
    + f_equal. by apply (inj pretty) in E.
    + pose proof (pretty_Z_chars x) as H. by rewrite E in H.
    + pose proof (pretty_Z_chars y) as H. by rewrite <- E in H.
  - unfold p. by rewrite bool_decide_eq_true_2.
  - destruct o1; [apply Hz | done].
  - destruct o2; [apply Hz | done].
Qed.

Lemma pretty_field_inj (d : Ascii.ascii) (x y : Z) t1 t2 :
  is_int_char d = false →
  (pretty x : string) +:+ String d t1 = pretty y +:+ String d t2 → x = y ∧ t1 = t2.
Proof.
  intros Hd E.
  apply (delimited_inj d is_int_char) in E as [E ->]; auto using pretty_Z_chars.
  by apply (inj pretty) in E as ->.
Qed.

Lemma material_json_inj m1 m2 :
  material_ok m1 → material_ok m2 → material_json m1 = material_json m2 → m1 = m2.
Proof.
  destruct m1 as [t1 c1 k1 r1 i1 h1], m2 as [t2 c2 k2 r2 i2 h2].
  intros (Ht1 & Hc1 & Hk1 & Hh1) (Ht2 & Hc2 & Hk2 & Hh2). cbn in Ht1, Hc1, Hk1, Hh1, Ht2, Hc2, Hk2, Hh2.
  unfold material_json, json_field. cbn [km_tenant_key
    km_country_code km_channel_key km_routing_rule_id km_ticket_id km_case_hash].
  rewrite !str_app_assoc. intros E.
  repeat apply str_app_inv_head in E.
  apply json_str_or_null_inj in E as [-> E]; [|done|done].
  repeat apply str_app_inv_head in E. apply quoted_inj in E as [-> E]; [|done|done].
  repeat apply str_app_inv_head in E. apply quoted_inj in E as [-> E]; [|done|done].
  repeat apply str_app_inv_head in E.
  apply (pretty_field_inj (Ascii.ascii_of_N 44)) in E as [-> E]; [|done].
  repeat apply str_app_inv_head in E.
  apply quoted_inj in E as [-> E]; [|done|done].
  repeat apply str_app_inv_head in E.
  by apply json_int_or_null_inj in E as [-> _].
Qed.

Lemma is_scope_char_code c : is_scope_char c = true → 45 ≤ code c.
Proof. unfold is_scope_char, is_alnum, is_digit, is_upper, is_lower, between. lia. Qed.

Lemma scope_char_upper c : is_scope_char c = true → is_scope_char (upper_char c) = true.
Proof. destruct c as [[] [] [] [] [] [] [] []]; vm_compute; done. Qed.

Lemma scope_char_lower c : is_scope_char c = true → is_scope_char (lower_char c) = true.
Proof. destruct c as [[] [] [] [] [] [] [] []]; vm_compute; done. Qed.

Lemma hex_scope_char c : is_hex_lower c = true → is_scope_char c = true.
Proof. destruct c as [[] [] [] [] [] [] [] []]; vm_compute; done. Qed.

Lemma scope_char_not_space c : is_scope_char c = true → negb (is_space c) = true.
Proof. destruct c as [[] [] [] [] [] [] [] []]; vm_compute; done. Qed.

Section KeyFacts.
Context (sha256_hex : string → string).
(** [hexdigest()] of SHA-256 is 64 lower-case hexadecimal characters. *)
Context (sha256_hex_format : ∀ s,
  str_len (sha256_hex s) = 64 ∧ string_forallb is_hex_lower (sha256_hex s) = true).

Lemma sha256_scope_chars s : string_forallb is_scope_char (sha256_hex s) = true.
Proof using sha256_hex_format.
  eapply string_forallb_impl; [apply hex_scope_char | apply sha256_hex_format].
Qed.

Lemma key_material_ok t c k r i h m :
  key_material sha256_hex t c k r i h = Ok m → material_ok m.
Proof using sha256_hex_format.
  unfold key_material. intros H.
  apply result_bind_Ok in H as (t' & Ht & H). apply result_bind_Ok in H as (c' & Hc & H).
  apply result_bind_Ok in H as (k' & Hk & H). apply result_bind_Ok in H as (r' & Hr & H).
  apply result_bind_Ok in H as (i' & Hi & H). injection H as <-.
  apply scope_value in Ht as [Ht _], Hc as [Hc _], Hk as [Hk _].
  split; [|split; [|split]]; cbn.
  - done.
  - by apply string_forallb_map; [apply scope_char_upper|].
  - by apply string_forallb_map; [apply scope_char_lower|].
  - intros x Hx. destruct h as [s|]; [|done]. destruct (nonempty s); [|done].
    injection Hx as <-. unfold digest_identifier. rewrite string_forallb_app.
    by rewrite sha256_scope_chars.
Qed.

Lemma dispatch_key_scope m :
  let key := "ops-dispatch:" +:+ sha256_hex m in _scope (Some key) "dispatch_key" 80 = Ok key.
Proof using sha256_hex_format.
  intros key.
  assert (string_forallb is_scope_char key = true) as Hc
    by (unfold key; rewrite string_forallb_app, sha256_scope_chars; done).
  assert (str_len key = 77) as Hl
    by (unfold key; rewrite str_len_app, (proj1 (sha256_hex_format m)); done).
  unfold _scope. cbn [str_or].
  change (nonempty key) with true. cbn iota.
  rewrite py_strip_id by (eapply string_forallb_impl; [apply scope_char_not_space | done]).
  change (nonempty key) with true. rewrite Hl.
  replace (safe_scope_re key) with true; [done|].
  symmetry. set (rest := "ps-dispatch:" +:+ sha256_hex m).
  change (true && string_forallb is_scope_char rest && (str_len rest <=? 199) = true).
  unfold rest. rewrite string_forallb_app, str_len_app, sha256_scope_chars.
  by rewrite (proj1 (sha256_hex_format m)).
Qed.
End KeyFacts.

(** for valid arguments the dispatch key is accepted unchanged by enqueue,
    and two calls hash the same JSON text only if they agree on every scope
    component after normalisation (so distinct scopes hash distinct texts). *)
Theorem outbox_dispatch_key_canonical sha256_hex :
  (∀ s, str_len (sha256_hex s) = 64 ∧ string_forallb is_hex_lower (sha256_hex s) = true) →
  (∀ t c k r i h key,
     build_operations_dispatch_key sha256_hex t c k r i h = Ok key →
     _scope (Some key) "dispatch_key" 80 = Ok key) ∧
  (∀ t c k r i h t' c' k' r' i' h' m m',
     key_material sha256_hex t c k r i h = Ok m →
     key_material sha256_hex t' c' k' r' i' h' = Ok m' →
     material_json m = material_json m' → m = m').
Proof.
  intros Hsha. split.
  - intros t c k r i h key H. unfold build_operations_dispatch_key in H.
    apply result_bind_Ok in H as (m & _ & [= <-]). by apply dispatch_key_scope.
  - intros t c k r i h t' c' k' r' i' h' m m' H H'.
    apply material_json_inj; by eapply key_material_ok.
Qed.

(** ** Witnesses: a concrete queue *)

Module Demo.
Definition hash64 : string :=
  "0123456789abcdef0123456789abcdef0123456789abcdef0123456789abcdef".

Definition request : EnqueueRequest :=
  {| q_dispatch_key := Some "ops-dispatch:demo"; q_tenant_key := Some " acme ";
     q_country_code := Some "hr"; q_channel_key := Some "WhatsApp"; q_routing_rule_id := 7;
     q_group_key := Some "ops-hr"; q_group_hash := Some (sha256_prefix +:+ hash64);
     q_ticket_id := Some 42; q_max_attempts := 3 |}.

(** One row enqueued, then claimed by [w1] for two minutes at time 10 s. *)
Definition history : list op :=
  [OEnqueue request (fun _ => true) (seconds 1);
   OClaim (fun _ => false) (Some "w1") (seconds 10) 120].

Definition enqueued : Outbox := run_ops (take 1 history) empty_outbox.
Definition claimed : Outbox := run_ops history empty_outbox.
Definition default_row : OutboxRow :=
  {| r_id := 0; ticket_id := None; dispatch_key := EmptyString; tenant_key := EmptyString; country_code := EmptyString;
     channel_key := EmptyString; routing_rule_id := 0; destination_group_key := EmptyString;
     destination_group_hash := EmptyString; status := PENDING; attempt_count := 0; max_attempts := 1;
     next_retry_at := None; lease_owner := None; lease_expires_at := None;
     provider_acknowledgement := None; external_reference_safe := None;
     error_category := None; error_summary_redacted := None; created_at := 0;
     updated_at := 0; dispatched_at := None; cancelled_at := None |}.
Definition row (o : Outbox) : OutboxRow := default default_row (rows o !! 1).

Lemma enqueued_wf : wf enqueued.
Proof. apply run_ops_wf, wf_empty. Qed.

Lemma claimed_wf : wf claimed.
Proof. apply run_ops_wf, wf_empty. Qed.

Lemma claimed_row : rows claimed !! 1 = Some (row claimed).
Proof. by vm_compute. Qed.
End Demo.

Lemma outbox_row_lifecycle_witness :
  ∃ r', rows (step Demo.claimed (OSuccess 1 (Some "w1") None None (seconds 20))) !! 1 = Some r' ∧
    may_become PROCESSING (status r') = true ∧
    (final_status (Demo.row Demo.claimed) = true → r' = Demo.row Demo.claimed).
Proof.
  apply (outbox_row_lifecycle _ Demo.claimed 1 (Demo.row Demo.claimed));
    [exact Demo.claimed_wf | exact Demo.claimed_row].
Defined.

Lemma outbox_lease_exclusive_witness :
  rows (run_ops [OClaim (fun _ => false) (Some "w2") (seconds 60) 120;
                 OSuccess 1 (Some "w2") None None (seconds 61);
                 OFailure 1 (Some "w3") "timeout" None true (seconds 62)] Demo.claimed) !! 1
  = Some (Demo.row Demo.claimed).
Proof.
  apply (outbox_lease_exclusive _ Demo.claimed 1 (Demo.row Demo.claimed) "w1" (seconds 130));
    [exact Demo.claimed_wf | exact Demo.claimed_row | by vm_compute |].
  repeat constructor; vm_compute; done.
Defined.

Lemma outbox_result_fenced_witness :
  match mark_operations_dispatch_success 1 (Some "w2") None None (seconds 20) Demo.claimed with
  | (Ok r', o') =>
      ∃ w r, _scope (Some "w2") "lease_owner" 120 = Ok w ∧ rows Demo.claimed !! 1 = Some r ∧
        owns (seconds 20) w r = true ∧ r' = to_dispatched None None (seconds 20) r ∧
        rows o' = <[1 := r']> (rows Demo.claimed)
  | (Err e, o') =>
      o' = Demo.claimed ∧ (∀ w r, _scope (Some "w2") "lease_owner" 120 = Ok w →
        rows Demo.claimed !! 1 = Some r → owns (seconds 20) w r = false)
  end.
Proof.
  apply (outbox_result_fenced 1 (Some "w2") None None (seconds 20) Demo.claimed).
  exact Demo.claimed_wf.
Defined.

Lemma outbox_claims_bounded_witness :
  claim_count 1 [OFailure 1 (Some "w1") "timeout" None true (seconds 20);
                 OClaim (fun _ => false) (Some "w2") (seconds 60) 120] Demo.claimed = 1 ∧
  claim_count 1 [OFailure 1 (Some "w1") "timeout" None true (seconds 20);
                 OClaim (fun _ => false) (Some "w2") (seconds 60) 120] Demo.claimed ≤ 3 - 1.
Proof.
  split; [by vm_compute|].
  apply (outbox_claims_bounded _ Demo.claimed 1 (Demo.row Demo.claimed));
    [exact Demo.claimed_wf | exact Demo.claimed_row].
Defined.

Lemma outbox_claim_takes_oldest_due_witness :
  let eligible r := claimable (seconds 10) r && negb false in
  let lease_until := seconds 10 + seconds (Z.max 1 120) in
  match claim_next_operations_dispatch (fun _ => false) (Some "w1") (seconds 10) 120
          Demo.enqueued with
  | (Ok None, o') => o' = sweep (seconds 10) Demo.enqueued ∧
      ∀ i r, rows o' !! i = Some r → eligible r = false
  | (Ok (Some r'), o') =>
      ∃ r, rows (sweep (seconds 10) Demo.enqueued) !! r_id r = Some r ∧ eligible r = true ∧
        (∀ i x, rows (sweep (seconds 10) Demo.enqueued) !! i = Some x → eligible x = true →
           row_leb r x = true) ∧
        r' = to_claimed "w1" lease_until (seconds 10) r ∧
        o' = put_row r' (sweep (seconds 10) Demo.enqueued) ∧
        seconds 10 + us_per_second ≤ lease_until
  | (Err _, _) => False
  end.
Proof.
  apply (outbox_claim_takes_oldest_due (fun _ => false) (Some "w1") "w1" (seconds 10) 120
           Demo.enqueued); [exact Demo.enqueued_wf | by vm_compute].
Defined.

Lemma outbox_claim_branches_agree_witness :
  claim_next_operations_dispatch_cas id (Some "w1") (seconds 10) 120 Demo.enqueued =
  claim_next_operations_dispatch (fun _ => false) (Some "w1") (seconds 10) 120 Demo.enqueued.
Proof. apply outbox_claim_branches_agree. exact Demo.enqueued_wf. Defined.

Lemma outbox_enqueue_idempotent_witness :
  ∃ r', enqueue_operations_dispatch (fun _ => true) id Demo.request (seconds 500)
          (run_ops [OClaim (fun _ => false) (Some "w1") (seconds 10) 120] Demo.enqueued)
        = (Ok (r', false),
           run_ops [OClaim (fun _ => false) (Some "w1") (seconds 10) 120] Demo.enqueued) ∧
    r_id r' = 1 ∧ scope_of r' = scope_of (Demo.row Demo.enqueued).
Proof.
  apply (outbox_enqueue_idempotent (fun _ => true) (fun _ => true) id id Demo.request
           (seconds 1) (seconds 500) _ empty_outbox (Demo.row Demo.enqueued) Demo.enqueued);
    [exact wf_empty | exact wf_empty | by vm_compute].
Defined.

Lemma outbox_dispatch_key_canonical_witness :
  let sha256_hex := fun _ : string => Demo.hash64 in
  (∀ t c k r i h key,
     build_operations_dispatch_key sha256_hex t c k r i h = Ok key →
     _scope (Some key) "dispatch_key" 80 = Ok key) ∧
  (∀ t c k r i h t' c' k' r' i' h' m m',
     key_material sha256_hex t c k r i h = Ok m →
     key_material sha256_hex t' c' k' r' i' h' = Ok m' →
     material_json m = material_json m' → m = m').
Proof.
  apply (outbox_dispatch_key_canonical (fun _ => Demo.hash64)). intros s. by vm_compute.
Defined.
