(* ===== verification/Customers.v ===== *)
(** * Customers of a ticket

    [utils/normalize.py] and the customer part of
    [services/ticket_service_core.py]: the identifiers of a customer in normal
    form, the search for the customer that a new ticket belongs to, and the
    customer it creates when there is none.

    [str.strip], [str.lower] and the regular expression class [\D] are modelled on
    ASCII text. *)

From S2P Require Import Prelude Enums Models Fixtures Tenancy.

(** ** Normal forms *)

Definition normalize_email (value : option string) : option string :=
  match value with
  | None => None
  | Some v =>
      if negb (nonempty v) then None
      else let cleaned := py_lower (py_strip v) in
           if nonempty cleaned then Some cleaned else None
  end.

(** [re.sub(r'\D', '', s)] *)
Fixpoint digits_of (s : string) : string :=
  match s with
  | EmptyString => EmptyString
  | String c s' => if is_digit c then String c (digits_of s') else digits_of s'
  end.

Definition plus : Ascii.ascii := Ascii.ascii_of_N 43.

Definition normalize_phone (value : option string) : option string :=
  match value with
  | None => None
  | Some v =>
      if negb (nonempty v) then None
      else match py_strip v with
           | EmptyString => None
           | String c rest =>
               let digits := if decide (c = plus) then String plus (digits_of rest)
                             else digits_of (String c rest) in
               if nonempty digits then Some digits else None
           end
  end.

(** ** The request *)

Module CustomerInput.
Record t := { name : string; email : option string; phone : option string;
              external_ref : option string }.
End CustomerInput.

Definition _apply_customer_normalization (c : Customer.t) : Customer.t :=
  c <| Customer.email_normalized := normalize_email (Customer.email c) |>
    <| Customer.phone_normalized := normalize_phone (Customer.phone c) |>.

(** ** Matching *)

(** [query.filter(tenant).all()] and the decision on the number of rows *)
Definition match_by (s : Db.t) (tenant_id : option Z) (p : Customer.t → bool) (what : string)
    : result (option Customer.t) :=
  match select (fun c => p c && bool_decide (Customer.tenant_id c = tenant_id)) (Db.customers s) with
  | [] => Ok None
  | [c] => Ok (Some c)
  | _ => Err (HTTPException 409 ("Multiple customers matched " +:+ what))
  end.

(** One stage: search by an identifier that is given, else go on *)
Definition match_stage (s : Db.t) (tenant_id : option Z) (column : Customer.t → option string)
    (identifier : option string) (what : string) (rest : result (option Customer.t))
    : result (option Customer.t) :=
  if truthy_str identifier then
    m ← match_by s tenant_id (fun c => bool_decide (column c = identifier)) what;
    match m with Some c => Ok (Some c) | None => rest end
  else rest.

Definition _customer_match_query (s : Db.t) (email phone external_ref : option string)
    (tenant_id : option Z) : result (option Customer.t) :=
  match_stage s tenant_id Customer.external_ref external_ref "external_ref"
    (match_stage s tenant_id Customer.phone_normalized (normalize_phone phone) "phone"
      (match_stage s tenant_id Customer.email_normalized (normalize_email email) "email"
        (Ok None))).

(** [if value: row.column = value] *)
Definition keep_or (value old : option string) : option string :=
  if truthy_str value then value else old.

Definition update_existing (p : CustomerInput.t) (c : Customer.t) : Customer.t :=
  _apply_customer_normalization
    (c <| Customer.name := str_or (Some (CustomerInput.name p)) (Customer.name c) |>
       <| Customer.email := keep_or (CustomerInput.email p) (Customer.email c) |>
       <| Customer.phone := keep_or (CustomerInput.phone p) (Customer.phone c) |>
       <| Customer.external_ref := keep_or (CustomerInput.external_ref p)
                                     (Customer.external_ref c) |>).

Definition new_customer (p : CustomerInput.t) (tenant_id : option Z) (id : Z) : Customer.t :=
  stamp_runtime_tenant
    (_apply_customer_normalization
      {| Customer.id := id; Customer.tenant_id := None;
         Customer.tenant_assignment_source := None; Customer.tenant_assignment_version := None;
         Customer.name := CustomerInput.name p; Customer.email := CustomerInput.email p;
         Customer.email_normalized := None; Customer.phone := CustomerInput.phone p;
         Customer.phone_normalized := None;
         Customer.external_ref := CustomerInput.external_ref p |})
    tenant_id.

Definition put_customer (c : Customer.t) : M Db.t unit :=
  modify (fun s => s <| Db.customers ::= table_put (Customer.id c) c |>).

(** [db.add(customer); db.flush()] *)
Definition add_customer (mk : Z → Customer.t) : M Db.t Customer.t := fun s =>
  (Ok (mk (tnext (Db.customers s))), s <| Db.customers ::= fun t => table_add t mk |>).

(** The two fields of [TicketCreate] that this function reads: [payload.customer_id] and
    [payload.customer] *)
Definition resolve_customer (customer_id : option Z) (customer : option CustomerInput.t)
    (actor_tenant_id : option Z) : M Db.t (option Customer.t) :=
  if truthy_id customer_id then
    row ← gets (fun s => customer_id ≫= table_get (Db.customers s));
    match row with
    | None => raise (HTTPException 404 "Customer not found")
    | Some c =>
        s ← get;
        _ ← lift (ensure_resource_tenant (Db.dir s) actor_tenant_id c "Customer" true);
        mret (Some c)
    end
  else match customer with
  | None => mret None
  | Some p =>
      s ← get;
      existing ← lift (_customer_match_query s (CustomerInput.email p) (CustomerInput.phone p)
                         (CustomerInput.external_ref p) actor_tenant_id);
      match existing with
      | Some c => put_customer (update_existing p c);; mret (Some (update_existing p c))
      | None => c ← add_customer (new_customer p actor_tenant_id); mret (Some c)
      end
  end.

#[global] Arguments _customer_match_query : simpl never.
#[global] Arguments update_existing : simpl never.
#[global] Arguments new_customer : simpl never.

(** ** Facts *)

Definition in_tenant (s : Db.t) (a : option Z) (c : Customer.t) : Prop :=
  ∃ i, trows (Db.customers s) !! i = Some c ∧ Customer.tenant_id c = a.

(** The stages of the search: the column, the identifier of the request, and its name *)
Definition Stage : Type := (Customer.t → option string) * option string * string.
Definition carries (x : Stage) (c : Customer.t) : Prop := fst (fst x) c = snd (fst x).
Definition given (x : Stage) : bool := truthy_str (snd (fst x)).

Definition stages (p : CustomerInput.t) : list Stage :=
  [(Customer.external_ref, CustomerInput.external_ref p, "external_ref");
   (Customer.phone_normalized, normalize_phone (CustomerInput.phone p), "phone");
   (Customer.email_normalized, normalize_email (CustomerInput.email p), "email")].

(** The identifiers that the request gives, the strongest first *)
Definition identifiers (p : CustomerInput.t) : list Stage :=
  filter (fun x => given x = true) (stages p).

Fixpoint match_all (s : Db.t) (a : option Z) (l : list Stage) : result (option Customer.t) :=
  match l with
  | [] => Ok None
  | x :: l' => match_stage s a (fst (fst x)) (snd (fst x)) (snd x) (match_all s a l')
  end.

Definition match_request (s : Db.t) (a : option Z) (p : CustomerInput.t)
    : result (option Customer.t) :=
  _customer_match_query s (CustomerInput.email p) (CustomerInput.phone p)
    (CustomerInput.external_ref p) a.

Lemma match_request_all s a p : match_request s a p = match_all s a (stages p).
Proof. done. Qed.

Lemma match_by_inv s a q what r :
  match_by s a q what = Ok r →
  (∀ c, r = Some c → in_tenant s a c ∧ q c = true) ∧
  (∀ c, in_tenant s a c → q c = true → r = Some c).
Proof.
  unfold match_by, in_tenant.
  set (l := select _ _). assert (∀ c, c ∈ l ↔ (∃ i, trows (Db.customers s) !! i = Some c ∧
    Customer.tenant_id c = a) ∧ q c = true) as Hl.
  { intros c. unfold l. rewrite elem_of_select. setoid_rewrite andb_true_iff.
    setoid_rewrite bool_decide_eq_true. split; [intros (i & ? & ? & ?) | intros ((i & ? & ?) & ?)];
      eauto. }
  destruct l as [|x [|y l']]; intros [= <-].
  - split; [done|]. intros c Hc Hq. exfalso. apply (elem_of_nil c), Hl. done.
  - split; [intros ? [= <-]; apply Hl; left|]. intros c Hc Hq.
    assert (c ∈ [x]) as Hin by (by apply Hl). by apply list_elem_of_singleton in Hin as ->.
Qed.

Lemma match_by_unique s a q what i c :
  trows (Db.customers s) !! i = Some c → Customer.tenant_id c = a → q c = true →
  (∀ j c', trows (Db.customers s) !! j = Some c' → Customer.tenant_id c' = a → q c' = true →
     j = i) →
  match_by s a q what = Ok (Some c).
Proof.
  intros Hi Ha Hq Hu. unfold match_by.
  rewrite (select_unique _ _ i c); [done | done | | ].
  - by rewrite Hq, bool_decide_eq_true_2.
  - intros j c' Hj [Hc Ht%bool_decide_eq_true]%andb_true_iff. by apply (Hu j c').
Qed.

(** A successful match is a row of the tenant that carries one of the identifiers, and
    whoever carries the strongest identifier is the match. *)
Lemma match_all_inv s a l r :
  match_all s a l = Ok r →
  (∀ c, r = Some c → in_tenant s a c ∧ ∃ x, x ∈ filter (fun x => given x = true) l ∧ carries x c) ∧
  (∀ x l' c, filter (fun x => given x = true) l = x :: l' → in_tenant s a c → carries x c →
     r = Some c).
Proof.
  revert r. induction l as [|x l IH]; intros r; cbn [match_all].
  { intros [= <-]. split; [done|]. intros ? ? ? [=]. }
  unfold match_stage. fold (given x). rewrite filter_cons. destruct (given x) eqn:G.
  - intros H. rewrite decide_True by done. apply result_bind_Ok in H as (m & Hm & H).
    apply match_by_inv in Hm as [Hm1 Hm2]. split.
    + intros c ->. destruct m as [c0|].
      * injection H as ->. destruct (Hm1 c eq_refl) as [Hc Hq%bool_decide_eq_true].
        split; [done|]. exists x. split; [left | done].
      * apply IH in H as [H _]. destruct (H c eq_refl) as (Hc & y & Hy & Hcy).
        split; [done|]. exists y. split; [by right | done].
    + intros y l' c [= -> _] Hc Hcy. specialize (Hm2 c Hc). rewrite bool_decide_eq_true in Hm2.
      rewrite (Hm2 Hcy) in H. by injection H as <-.
  - rewrite decide_False by done. apply IH.
Qed.

(** The only row of the tenant that carries the strongest identifier is found. *)
Lemma match_all_unique s a l x l' i c :
  filter (fun x => given x = true) l = x :: l' →
  trows (Db.customers s) !! i = Some c → Customer.tenant_id c = a → carries x c →
  (∀ j c', trows (Db.customers s) !! j = Some c' → Customer.tenant_id c' = a → carries x c' →
     j = i) →
  match_all s a l = Ok (Some c).
Proof.
  intros Hl Hi Ha Hc Hu. induction l as [|y l IH]; [done|]. cbn [match_all].
  rewrite filter_cons in Hl. unfold match_stage. fold (given y). destruct (given y) eqn:G.
  - rewrite decide_True in Hl by done. injection Hl as -> _.
    rewrite (match_by_unique _ _ _ _ i c); [done | done | done | |].
    + by apply bool_decide_eq_true.
    + intros j c' Hj Ht Hq%bool_decide_eq_true. by apply (Hu j c').
  - rewrite decide_False in Hl by done. by apply IH.
Qed.

Lemma keyed_customer s i c : dir_keyed s → trows (Db.customers s) !! i = Some c → Customer.id c = i.
Proof. intros [Hk _] Hi. by apply (Hk i c). Qed.

(** The columns of a customer that the request decides *)
Lemma update_existing_id p c : Customer.id (update_existing p c) = Customer.id c.
Proof. done. Qed.
Lemma update_existing_tenant p c : Customer.tenant_id (update_existing p c) = Customer.tenant_id c.
Proof. done. Qed.

Lemma keep_or_twice v o : keep_or v (keep_or v o) = keep_or v o.
Proof. unfold keep_or. by destruct (truthy_str v). Qed.

Lemma update_existing_twice p c : update_existing p (update_existing p c) = update_existing p c.
Proof.
  assert (∀ v o, str_or (Some v) (str_or (Some v) o) = str_or (Some v) o) as Hs
    by (intros v o; unfold str_or; by destruct (nonempty v)).
  destruct c. lazy -[str_or keep_or normalize_email normalize_phone].
  by rewrite !keep_or_twice, Hs.
Qed.

Lemma keep_or_same v : keep_or v v = v.
Proof. unfold keep_or. by destruct (truthy_str v). Qed.

Lemma update_new p a i : update_existing p (new_customer p a i) = new_customer p a i.
Proof.
  assert (str_or (Some (CustomerInput.name p)) (CustomerInput.name p) = CustomerInput.name p) as Hn
    by (unfold str_or; by destruct (nonempty _)).
  destruct p, a; lazy -[str_or keep_or normalize_email normalize_phone] in *;
    by rewrite Hn, !keep_or_same.
Qed.

Lemma new_customer_id p a i : Customer.id (new_customer p a i) = i.
Proof. by destruct a. Qed.
Lemma new_customer_tenant p a i : Customer.tenant_id (new_customer p a i) = a.
Proof. by destruct a. Qed.

Lemma update_columns p c :
  Customer.external_ref (update_existing p c) =
    keep_or (CustomerInput.external_ref p) (Customer.external_ref c) ∧
  Customer.phone_normalized (update_existing p c) =
    normalize_phone (keep_or (CustomerInput.phone p) (Customer.phone c)) ∧
  Customer.email_normalized (update_existing p c) =
    normalize_email (keep_or (CustomerInput.email p) (Customer.email c)).
Proof. by destruct c. Qed.

(** The row that the request has been written to carries every identifier it gives. *)
Lemma update_carries p c x : x ∈ identifiers p → carries x (update_existing p c).
Proof.
  unfold identifiers. rewrite list_elem_of_filter. intros [G Hx].
  destruct (update_columns p c) as (E1 & E2 & E3).
  assert (∀ (f : option string → option string) o old, truthy_str (f o) = true → f None = None → f (Some EmptyString) = None →
    f (keep_or o old) = f o) as Hk.
  { intros f o old Hf Hn He. unfold keep_or. destruct o as [[|c' r]|]; [|done|]; cbn.
    - by rewrite He in Hf.
    - by rewrite Hn in Hf. }
  unfold given, carries in *. repeat (apply elem_of_cons in Hx as [-> | Hx]).
  - cbn [fst snd] in *. rewrite E1. unfold keep_or. by rewrite G.
  - cbn [fst snd] in *. rewrite E2. by apply (Hk normalize_phone).
  - cbn [fst snd] in *. rewrite E3. by apply (Hk normalize_email).
  - by apply elem_of_nil in Hx.
Qed.

Lemma resolve_by_id i p a s :
  truthy_id (Some i) = true →
  resolve_customer (Some i) p a s =
  match table_get (Db.customers s) i with
  | None => (Err (HTTPException 404 "Customer not found"), s)
  | Some c =>
      match ensure_resource_tenant (Db.dir s) a c "Customer" true with
      | Ok _ => (Ok (Some c), s)
      | Err e => (Err e, s)
      end
  end.
Proof.
  intros Hi. unfold resolve_customer. rewrite Hi. unfold mbind, M_bind, gets, get, lift. cbn -[table_get].
  destruct (table_get _ _); [|done]. by destruct (ensure_resource_tenant _ _ _ _ _).
Qed.

Lemma resolve_run p a s :
  resolve_customer None (Some p) a s =
  match match_request s a p with
  | Ok (Some c) =>
      (Ok (Some (update_existing p c)),
       s <| Db.customers ::= table_put (Customer.id c) (update_existing p c) |>)
  | Ok None =>
      (Ok (Some (new_customer p a (tnext (Db.customers s)))),
       s <| Db.customers ::= fun T => table_add T (new_customer p a) |>)
  | Err e => (Err e, s)
  end.
Proof.
  unfold resolve_customer, match_request, mbind, M_bind, get, lift. cbn [truthy_id].
  by destruct (_customer_match_query _ _ _ _ _) as [[c|]|e].
Qed.

(** What a successful resolution by contact data does: one row of the tenant, updated or
    new, carries the identifiers; no other row of the tenant carries the strongest. *)
Lemma resolve_inv p a s c s' :
  dir_keyed s → table_wf (Db.customers s) →
  resolve_customer None (Some p) a s = (Ok c, s') →
  ∃ i r, c = Some r ∧ Customer.id r = i ∧ Customer.tenant_id r = a ∧ update_existing p r = r ∧
    s' = s <| Db.customers := Db.customers s' |> ∧
    trows (Db.customers s') = <[i := r]> (trows (Db.customers s)) ∧
    (∀ c0, trows (Db.customers s) !! i = Some c0 → Customer.tenant_id c0 = a) ∧
    (∀ x l j c', identifiers p = x :: l → trows (Db.customers s) !! j = Some c' →
       Customer.tenant_id c' = a → carries x c' → j = i).
Proof.
  intros Hk Hwf. rewrite resolve_run. destruct (match_request s a p) as [r|] eqn:Hm; [|discriminate].
  apply (match_all_inv s a (stages p)) in Hm as [H1 H2]. destruct r as [c0|]; intros [= <- <-].
  - destruct (H1 c0 eq_refl) as [(i & Hi & Ht) _].
    assert (Customer.id c0 = i) as Hid by by apply (keyed_customer s).
    exists i, (update_existing p c0). split_and!; try done.
    + by apply update_existing_twice.
    + cbn. by rewrite Hid.
    + intros c1 Hc1. congruence.
    + intros x l j c' Hx Hj Ht' Hc'.
      assert (Some c0 = Some c') as [= ->] by (apply (H2 x l c' Hx); [by exists j | done]).
      by rewrite <- (keyed_customer s j c' Hk Hj).
  - exists (tnext (Db.customers s)), (new_customer p a (tnext (Db.customers s))). split_and!; try done.
    + apply new_customer_id.
    + apply new_customer_tenant.
    + apply update_new.
    + intros c1 Hc1. by rewrite table_fresh in Hc1.
    + intros x l j c' Hx Hj Ht' Hc'. assert (None = Some c') by (apply (H2 x l c' Hx); [by exists j | done]).
      done.
Qed.

(** ** What the search guarantees *)

Lemma resource_tenant_eq {R} `{TenantBound R} d a (r : R) k b t :
  ensure_resource_tenant d a r k b = Ok t → _relation_tenant_id r = a.
Proof.
  unfold ensure_resource_tenant. destruct (_relation_tenant_id r) as [x|].
  - case_bool_decide; [by intros _ | by destruct b].
  - by destruct a; cbn.
Qed.

(** C6: resolving the customer of a request never reaches across tenants: the customer
    belongs to the tenant of the actor, every other customer row, those of other tenants
    among them, and the rest of the database stay as they are, a customer found or created
    by contact data carries the normal form of its own e-mail and phone, and a refused or
    empty request changes nothing. *)
Theorem customer_resolution_isolated cid p a s r s' :
  dir_keyed s → table_wf (Db.customers s) →
  resolve_customer cid p a s = (r, s') →
  match r with
  | Ok (Some c) =>
      Customer.tenant_id c = a ∧
      s' = s <| Db.customers := Db.customers s' |> ∧
      trows (Db.customers s') = <[Customer.id c := c]> (trows (Db.customers s)) ∧
      (∀ c0, trows (Db.customers s) !! Customer.id c = Some c0 → Customer.tenant_id c0 = a) ∧
      (truthy_id cid = false →
         Customer.email_normalized c = normalize_email (Customer.email c) ∧
         Customer.phone_normalized c = normalize_phone (Customer.phone c))
  | Ok None | Err _ => s' = s
  end.
Proof.
  intros Hk Hwf H. destruct (truthy_id cid) eqn:Hcid.
  - destruct cid as [i|]; [|discriminate Hcid]. rewrite resolve_by_id in H by done.
    destruct (table_get _ _) as [c|] eqn:Hi; [|by injection H as <- <-].
    destruct (ensure_resource_tenant _ _ _ _ _) as [t|e] eqn:Ht; [|by injection H as <- <-].
    injection H as <- <-. pose proof (keyed_customer s i c Hk Hi) as Hid.
    apply resource_tenant_eq in Ht. cbn in Ht. split_and!; try done.
    + by destruct s.
    + by rewrite Hid, insert_id.
    + intros c0. rewrite Hid. unfold table_get in Hi. congruence.
  - assert (resolve_customer cid p a s = resolve_customer None p a s) as E
      by (unfold resolve_customer; by rewrite Hcid). rewrite E in H.
    destruct p as [p|]; [|by injection H as <- <-].
    destruct r as [r|e].
    + destruct (resolve_inv p a s r s' Hk Hwf H) as (i & c & -> & <- & Ht & Hu & Hs & Hr & Ho & _).
      split_and!; try done; by rewrite <- Hu.
    + rewrite resolve_run in H. by destruct (match_request s a p) as [[c|]|e'];
        [discriminate | discriminate | injection H as _ <-].
Qed.

(** a request that gives an identifier resolves to the same customer when it is
    repeated: the second time the row found or created by the first is the only one of the
    tenant that carries the strongest identifier, and nothing changes any more.  An
    identifier on which the search stops is therefore never duplicated by it. *)
Theorem customer_resolution_repeatable p a s c s' :
  dir_keyed s → table_wf (Db.customers s) → identifiers p ≠ [] →
  resolve_customer None (Some p) a s = (Ok c, s') →
  resolve_customer None (Some p) a s' = (Ok c, s').
Proof.
  intros Hk Hwf Hne H.
  destruct (resolve_inv p a s c s' Hk Hwf H) as (i & r & -> & Hid & Ht & Hu & Hs & Hr & _ & Hx).
  destruct (identifiers p) as [|x l] eqn:El; [done|].
  assert (trows (Db.customers s') !! i = Some r) as Hi by by rewrite Hr, lookup_insert_eq.
  assert (match_request s' a p = Ok (Some r)) as Hm.
  { rewrite match_request_all. apply (match_all_unique s' a (stages p) x l i r El Hi Ht).
    - rewrite <- Hu. apply update_carries. rewrite El. left.
    - intros j c'. rewrite Hr, lookup_insert. case_decide; [done|]. by apply (Hx x l). }
  rewrite resolve_run, Hm, Hu, Hid. f_equal.
  destruct s' as [? ? [rows nxt] ? ? ? ? ? ? ? ? ? ? ? ? ? ? ? ? ? ?].
  unfold alter_field, table_put. cbn in *. by rewrite insert_id.
Qed.

(** ** Normal forms *)

Lemma digits_of_digits s : string_forallb is_digit (digits_of s) = true.
Proof. induction s as [|c s IH]; [done|]. cbn. destruct (is_digit c) eqn:E; [cbn; by rewrite E | done]. Qed.

Lemma digits_of_id s : string_forallb is_digit s = true → digits_of s = s.
Proof.
  induction s as [|c s IH]; [done|]. cbn. intros [Hc Hs]%andb_true_iff. by rewrite Hc, IH.
Qed.

Lemma digit_not_space c : is_digit c = true → is_space c = false ∧ c ≠ plus.
Proof. by destruct c as [[] [] [] [] [] [] [] []]. Qed.

Lemma digits_strip s : string_forallb is_digit s = true → py_strip s = s.
Proof.
  intros H. apply py_strip_id. eapply string_forallb_impl; [|exact H].
  intros c Hc. cbn. by destruct (digit_not_space c Hc) as [-> _].
Qed.

(** A phone number in normal form *)
Definition phone_form (d : string) : Prop :=
  nonempty d = true ∧ ∃ digits, string_forallb is_digit digits = true ∧
    (d = digits ∨ d = String plus digits).

Lemma phone_form_fixed d : phone_form d → normalize_phone (Some d) = Some d.
Proof.
  intros (Hne & ds & Hds & [-> | ->]); unfold normalize_phone; rewrite ?Hne; cbn [negb].
  - rewrite digits_strip by done. destruct ds as [|c r]; [done|].
    pose proof Hds as [Hc _]%andb_true_iff. rewrite decide_False by by apply digit_not_space.
    rewrite digits_of_id by done. done.
  - assert (py_strip (String plus ds) = String plus ds) as ->.
    { apply py_strip_id. cbn. eapply string_forallb_impl; [|exact Hds].
      intros c Hc. cbn. by destruct (digit_not_space c Hc) as [-> _]. }
    rewrite decide_True by done. by rewrite digits_of_id by done.
Qed.

(** the normal form of an e-mail address has no upper-case letter and no white space
    at its ends, that of a phone number is an optional plus sign and digits, and each is
    a fixed point of its normalisation, so that matching by normal form is an equivalence.
    A phone number without a digit has no normal form, except that one that starts with a
    plus sign is kept as the bare sign: all such texts count as the same number. *)
Theorem customer_identifiers_normal :
  (∀ v e, normalize_email v = Some e →
     nonempty e = true ∧ py_strip e = e ∧ py_lower e = e ∧ normalize_email (Some e) = Some e) ∧
  (∀ v d, normalize_phone v = Some d → phone_form d ∧ normalize_phone (Some d) = Some d) ∧
  (∀ s, (∀ c r, py_strip s = String c r → c ≠ plus) →
     normalize_phone (Some s) = (if nonempty (digits_of (py_strip s)) then
       Some (digits_of (py_strip s)) else None)) ∧
  normalize_phone (Some "+n/a") = Some "+" ∧ normalize_phone (Some "+unknown") = Some "+".
Proof.
  split_and!; [| | | done | done].
  - intros v e H. unfold normalize_email in H. destruct v as [v|]; [|done].
    destruct (nonempty v); [|done]. cbn [negb] in H. destruct (nonempty (py_lower _)) eqn:E; [|done].
    injection H as <-. assert (py_strip (py_lower (py_strip v)) = py_lower (py_strip v)) as Hs
      by by rewrite py_strip_lower, py_strip_idem.
    split_and!; [done | done | apply py_lower_idem |]. unfold normalize_email.
    rewrite E, Hs, py_lower_idem. cbn [negb]. by rewrite E.
  - intros v d H. enough (phone_form d) by (split; [done | by apply phone_form_fixed]).
    unfold normalize_phone in H. destruct v as [v|]; [|done]. destruct (nonempty v); [|done].
    cbn [negb] in H. destruct (py_strip v) as [|c r]; [done|].
    destruct (nonempty _) eqn:E in H; [|done]. injection H as <-. split; [done|].
    case_decide; [exists (digits_of r); split; [apply digits_of_digits | by right]|].
    exists (digits_of (String c r)). split; [apply digits_of_digits | by left].
  - intros s Hs. unfold normalize_phone. destruct (nonempty s) eqn:E; cbn [negb].
    + destruct (py_strip s) as [|c r] eqn:Ep; [done|]. by rewrite decide_False by by eapply Hs.
    + unfold nonempty in E. apply negb_false_iff, bool_decide_eq_true in E. by subst s.
Qed.

(** ** Witnesses *)

Definition newcomer : CustomerInput.t :=
  {| CustomerInput.name := "Ivo"; CustomerInput.email := Some " Ivo@Example.com";
     CustomerInput.phone := Some "+385 1 234"; CustomerInput.external_ref := None |}.

Lemma fix_customers_wf : table_wf (Db.customers Fix.db).
Proof. intros i r. cbn. intros [<- _]%lookup_singleton_Some. done. Qed.

Lemma customer_resolution_isolated_witness :
  let run := resolve_customer None (Some newcomer) (Some 1) Fix.db in
  ∃ c, fst run = Ok (Some c) ∧ Customer.phone_normalized c = Some "+3851234" ∧
    Customer.tenant_id c = Some 1.
Proof.
  intros run. exists (new_customer newcomer (Some 1) 2). split; [reflexivity|]. split; [reflexivity|].
  exact (proj1 (customer_resolution_isolated None (Some newcomer) (Some 1) Fix.db
    (Ok (Some (new_customer newcomer (Some 1) 2))) (snd run) fix_keyed fix_customers_wf eq_refl)).
Defined.

Lemma customer_resolution_repeatable_witness :
  let s' := snd (resolve_customer None (Some newcomer) (Some 1) Fix.db) in
  resolve_customer None (Some newcomer) (Some 1) s' =
    (Ok (Some (new_customer newcomer (Some 1) 2)), s').
Proof.
  intros s'. apply (customer_resolution_repeatable newcomer (Some 1) Fix.db).
  - exact fix_keyed.
  - exact fix_customers_wf.
  - vm_compute. discriminate.
  - reflexivity.
Defined.
