(* ===== verification/Tickets.v ===== *)
(** * Ticket operations

    The operations of [services/ticket_service_core.py] that write a ticket:
    creation, field updates, assignment, status changes, escalation, reopening,
    comments, internal notes, attachments and AI intakes.  An operation runs on the
    ticket [i] of the session state; the objects that the code shares ([ticket],
    the rows it queries) are read from that state each time.

    The result of [save_upload] is an argument, since it is the outcome of writing
    the file to the storage back end. *)

From S2P Require Import Prelude Calendar Enums Models Fixtures Tenancy Permissions Sla Customers.

Import StateMachine.

(** ** Requests *)

(** The optional string fields of a request are one map by field name. *)
Module TicketCreate.
Record t := {
  title : string; description : string; source : TicketSource.t;
  source_channel : SourceChannel.t; priority : TicketPriority.t; texts : gmap string string;
  team_id : option Z; assignee_id : option Z; market_id : option Z;
  customer : option CustomerInput.t; customer_id : option Z; tag_ids : list Z;
  ai_confidence : option float }.
End TicketCreate.

Module TicketUpdate.
Record t := {
  texts : gmap string string; resolution_category : option ResolutionCategory.t;
  market_id : option Z; priority : option TicketPriority.t; tag_ids : option (list Z) }.
End TicketUpdate.

Module TicketAssignRequest.
Record t := { assignee_id : option Z; team_id : option Z; note : option string }.
End TicketAssignRequest.

Module TicketStatusChangeRequest.
Record t := { new_status : TicketStatus.t; note : option string }.
End TicketStatusChangeRequest.

Module TicketEscalateRequest.
Record t := { team_id : Z; note : string }.
End TicketEscalateRequest.

Module TicketReopenRequest.
Record t := { reason : string; assign_to_previous : bool; restore_team : bool }.
End TicketReopenRequest.

Module CommentCreate.
Record t := { body : string; visibility : NoteVisibility.t }.
End CommentCreate.

Module AIIntakeCreate.
Record t := {
  summary : string; classification : option string; confidence : option float;
  missing_fields : list string; recommended_action : option string;
  suggested_reply : option string; raw_payload : option json;
  human_override_reason : option string; market_id : option Z; country_code : option string }.
End AIIntakeCreate.

Module StoredUpload.
Record t := { stored_name : string; storage_key : string; file_path : string; file_size : Z;
              mime_type : string }.
End StoredUpload.

(** ** Ticket numbers *)

(** [now.strftime("%Y%m%d%H%M%S")] *)
Definition stamp (now : Z) : string :=
  let '(y, m, d) := civil (day_of now) in
  let secs := (now mod day_us) / us_per_second in
  padded 4 y +:+ padded 2 m +:+ padded 2 d +:+
  padded 2 (secs / 3600) +:+ padded 2 (secs / 60 mod 60) +:+ padded 2 (secs mod 60).

Definition generate_ticket_no : M Db.t string :=
  now ← utc_now;
  hex ← uuid4;
  mret ("CS-" +:+ stamp now +:+ "-" +:+ py_upper (str_take 6 hex)).

(** ** Rows by id *)

Definition get_user_or_404 (d : Directory.t) (user_id : Z) : result User.t :=
  match Directory.users d !! user_id with
  | Some u => if User.is_active u then Ok u else Err (HTTPException 404 "User not found")
  | None => Err (HTTPException 404 "User not found")
  end.

Definition get_team_or_404 (d : Directory.t) (team_id : Z) : result Team.t :=
  match Directory.teams d !! team_id with
  | Some x => if Team.is_active x then Ok x else Err (HTTPException 404 "Team not found")
  | None => Err (HTTPException 404 "Team not found")
  end.

Definition get_ticket_or_404 (ticket_id : Z) : M Db.t Ticket.t := the_ticket ticket_id.

(** The two places that look up an active market and check its tenant *)
Definition check_market (d : Directory.t) (actor_tenant_id : option Z) (market_id : option Z)
    : result unit :=
  match market_id with
  | None => Ok tt
  | Some m =>
      match Directory.markets d !! m with
      | Some market =>
          if Market.is_active market
          then ensure_resource_tenant d actor_tenant_id market "Market" true;; Ok tt
          else Err (HTTPException 404 "Market not found")
      | None => Err (HTTPException 404 "Market not found")
      end
  end.

(** ** Tags *)

(** [str] of a list of integers *)
Definition list_str (l : list Z) : string :=
  "[" +:+ String.concat ", " (pretty <$> l) +:+ "]".

Definition missing_tags (s : Db.t) (tag_ids : list Z) : list Z :=
  sort_by Z.leb (elements (list_to_set tag_ids ∖ Db.tags s)).

Definition attach_tags (i : Z) (tag_ids : list Z) : M Db.t unit :=
  modify (fun s => s <| Db.ticket_tags ::= filter (fun x : Z * Z => fst x ≠ i) |>);;
  match tag_ids with
  | [] => mret tt
  | _ =>
      s ← get;
      require (bool_decide (missing_tags s tag_ids = []))
        (HTTPException 404 ("Tag not found: " +:+ list_str (missing_tags s tag_ids)));;
      require (bool_decide (NoDup tag_ids)) (IntegrityError "uq_ticket_tag");;
      modify (fun s => s <| Db.ticket_tags ::= fun l => l ++ (pair i <$> tag_ids) |>)
  end.

(** ** Assignment of people *)

Definition effective_team_id (team_id fallback_team_id : option Z) : option Z :=
  match team_id with Some t => Some t | None => fallback_team_id end.

Definition found {A} (get : Z → result A) (id : option Z) : result (option A) :=
  match id with None => Ok None | Some i => a ← get i; Ok (Some a) end.

Definition validate_assignee_team (d : Directory.t) (assignee_id team_id fallback_team_id : option Z)
    (actor_tenant_id : option Z) : result (option User.t * option Team.t) :=
  team ← found (get_team_or_404 d) (effective_team_id team_id fallback_team_id);
  assignee ← found (get_user_or_404 d) assignee_id;
  match team with Some t => ensure_team_tenant d actor_tenant_id t;; Ok tt | None => Ok tt end;;
  match assignee with Some u => ensure_user_tenant d actor_tenant_id u;; Ok tt | None => Ok tt end;;
  match assignee, team with
  | Some u, Some t =>
      if bool_decide (User.team_id u = Some (Team.id t)) then Ok (assignee, team)
      else Err (HTTPException 400 "Assignee does not belong to selected team")
  | _, _ => Ok (assignee, team)
  end.

(** ** Events *)

Definition event (i : Z) (user : User.t) (ty : EventType.t) (payload : list (string * json))
    : TicketEvent.t :=
  {| TicketEvent.ticket_id := i; TicketEvent.actor_id := Some (User.id user);
     TicketEvent.event_type := ty; TicketEvent.field_name := None; TicketEvent.old_value := None;
     TicketEvent.new_value := None; TicketEvent.note := None;
     TicketEvent.payload_json := JObj payload |}.

Definition jstr (o : option string) : json := json_of_option JStr o.
Definition jnum (o : option Z) : json := json_of_option JNum o.
Definition jfloat (o : option float) : json := json_of_option JFloat o.
Definition jnums (l : list Z) : json := JArr (JNum <$> l).

(** ** Creation *)

(** [a or b] on optional ids *)
Definition id_or (a b : option Z) : option Z := if truthy_id a then a else b.

(** The optional text columns that creation copies from the request *)
Definition created_columns : list string :=
  ["category"; "sub_category"; "tracking_number"; "country_code"; "ai_summary";
   "ai_classification"; "case_type"; "issue_summary"; "customer_request"; "source_chat_id";
   "required_action"; "missing_fields"; "last_customer_message"; "customer_update";
   "resolution_summary"; "last_human_update"; "requested_time"; "destination";
   "preferred_reply_channel"; "preferred_reply_contact"].

Definition created_texts (p : TicketCreate.t) : gmap string string :=
  <["title" := TicketCreate.title p]> (<["description" := TicketCreate.description p]>
    (filter (fun x : string * string => fst x ∈ created_columns) (TicketCreate.texts p))).

(** The constructor call, with the column defaults *)
Definition new_ticket (p : TicketCreate.t) (user : User.t) (customer_id : option Z)
    (ticket_no : string) (created updated id : Z) : Ticket.t :=
  {| Ticket.id := id; Ticket.tenant_id := None; Ticket.tenant_assignment_source := None;
     Ticket.tenant_assignment_version := None; Ticket.ticket_no := ticket_no;
     Ticket.customer_id := customer_id; Ticket.source := TicketCreate.source p;
     Ticket.source_channel := TicketCreate.source_channel p;
     Ticket.priority := TicketCreate.priority p;
     Ticket.status := if truthy_id (TicketCreate.assignee_id p) then TicketStatus.in_progress
                      else TicketStatus.pending_assignment;
     Ticket.assignee_id := TicketCreate.assignee_id p;
     Ticket.team_id := id_or (TicketCreate.team_id p) (User.team_id user);
     Ticket.created_by := Some (User.id user); Ticket.market_id := TicketCreate.market_id p;
     Ticket.conversation_state := ConversationState.ai_active;
     Ticket.channel_account_id := None; Ticket.sla_policy_id := None;
     Ticket.first_response_at := None; Ticket.first_response_due_at := None;
     Ticket.resolution_due_at := None; Ticket.resolved_at := None; Ticket.closed_at := None;
     Ticket.reopen_count := 0; Ticket.resolution_category := ResolutionCategory.none;
     Ticket.sla_paused := false; Ticket.sla_paused_at := None; Ticket.sla_pause_reason := None;
     Ticket.total_paused_seconds := 0; Ticket.first_response_breached := false;
     Ticket.resolution_breached := false; Ticket.ai_confidence := TicketCreate.ai_confidence p;
     Ticket.texts := created_texts p; Ticket.created_at := created;
     Ticket.updated_at := updated |}.

(** [db.add(ticket); db.flush()]: the ticket number is unique *)
Definition add_ticket (mk : Z → Ticket.t) : M Db.t Z := fun s =>
  let i := tnext (Db.tickets s) in
  if bool_decide (Exists (fun t => Ticket.ticket_no t = Ticket.ticket_no (mk i))
                    (select (fun _ => true) (Db.tickets s)))
  then (Err (IntegrityError "tickets.ticket_no"), s)
  else (Ok i, s <| Db.tickets ::= fun T => table_add T mk |>).

(** [policy = get_policy_for_priority(...)] and, if there is one, its application *)
Definition apply_priority_policy (i : Z) (priority : TicketPriority.t) : M Db.t unit :=
  policy ← get_policy_for_priority priority;
  match policy with
  | None => mret tt
  | Some p =>
      set_ticket i (fun t => t <| Ticket.sla_policy_id := Some (SLAPolicy.id p) |>);;
      apply_policy_to_ticket i (Some p) None None
  end.

Definition add_ai_intake_row (mk : Z → TicketAIIntake.t) : M Db.t unit :=
  modify (fun s => s <| Db.ai_intakes ::= fun T => table_add T mk |>).

(** The AI intake captured on creation *)
Definition creation_intake (i : Z) (p : TicketCreate.t) (user : User.t) : M Db.t unit :=
  let text c := TicketCreate.texts p !! c in
  when (truthy_str (text "ai_summary") || truthy_str (text "ai_classification") ||
        not_null (TicketCreate.ai_confidence p))
    (add_ai_intake_row (fun id =>
       {| TicketAIIntake.id := id; TicketAIIntake.ticket_id := i;
          TicketAIIntake.summary := str_or (text "ai_summary") (TicketCreate.description p);
          TicketAIIntake.classification := text "ai_classification";
          TicketAIIntake.confidence := TicketCreate.ai_confidence p;
          TicketAIIntake.missing_fields_json := None; TicketAIIntake.recommended_action := None;
          TicketAIIntake.suggested_reply := None; TicketAIIntake.raw_payload_json := None;
          TicketAIIntake.human_override_reason := None;
          TicketAIIntake.created_by := Some (User.id user);
          TicketAIIntake.market_id := TicketCreate.market_id p;
          TicketAIIntake.country_code := text "country_code" |});;
     log_event (event i user EventType.ai_intake_added
         [("confidence", jfloat (TicketCreate.ai_confidence p));
          ("classification", jstr (text "ai_classification"))]
       <| TicketEvent.note := Some "AI intake captured on ticket creation" |>)).

(** The checks before the first write *)
Definition creation_checks (d : Directory.t) (p : TicketCreate.t) (user : User.t)
    (actor_tenant_id : option Z) : result unit :=
  (if truthy_id (TicketCreate.team_id p) || truthy_id (TicketCreate.assignee_id p) ||
      truthy_id (User.team_id user)
   then validate_assignee_team d (TicketCreate.assignee_id p) (TicketCreate.team_id p)
          (id_or (TicketCreate.team_id p) (User.team_id user)) actor_tenant_id;; Ok tt
   else Ok tt);;
  check_market d actor_tenant_id (TicketCreate.market_id p).

Definition create_ticket (p : TicketCreate.t) (user : User.t) : M Db.t Ticket.t :=
  s ← get;
  actor_tenant_id ← lift (resolve_actor_tenant_id (Db.dir s) user);
  lift (creation_checks (Db.dir s) p user actor_tenant_id);;
  customer ← resolve_customer (TicketCreate.customer_id p) (TicketCreate.customer p)
               actor_tenant_id;
  ticket_no ← generate_ticket_no;
  created ← utc_now;
  updated ← utc_now;
  i ← add_ticket (fun id => stamp_runtime_tenant
        (new_ticket p user (Customer.id <$> customer) ticket_no created updated id)
        actor_tenant_id);
  t ← the_ticket i;
  s ← get;
  _ ← lift (ensure_ticket_tenant_authority s user t None);
  apply_priority_policy i (TicketCreate.priority p);;
  attach_tags i (TicketCreate.tag_ids p);;
  log_event (event i user EventType.ticket_created
      [("ticket_no", JStr (Ticket.ticket_no t));
       ("source", JStr (value (Ticket.source t)));
       ("source_channel", JStr (value (Ticket.source_channel t)))]
    <| TicketEvent.note := Some "Ticket created" |>);;
  creation_intake i p user;;
  get_ticket_or_404 i.

(** ** Opening a ticket: the row, and the caller may see it *)

Definition visible_ticket (i : Z) (user : User.t) : M Db.t Ticket.t :=
  ticket ← get_ticket_or_404 i;
  s ← get;
  lift (ensure_ticket_visible user ticket (Some s));;
  mret ticket.

(** A check of the caller on the current session *)
Definition check (f : option Db.t → result unit) : M Db.t unit :=
  s ← get; lift (f (Some s)).

(** ** Field updates *)

Inductive FieldValue :=
| VText (s : string)
| VInt (z : Z)
| VCategory (c : ResolutionCategory.t).

#[global] Instance FieldValue_eq_dec : EqDecision FieldValue.
Proof. solve_decision. Defined.

(** [str(value)]: a member of a [(str, Enum)] class prints with its class name *)
Definition field_str (v : FieldValue) : string :=
  match v with
  | VText s => s
  | VInt z => pretty z
  | VCategory c => "ResolutionCategory." +:+ value c
  end.

Definition updatable : list string :=
  ["title"; "description"; "category"; "sub_category"; "resolution_category"; "case_type";
   "issue_summary"; "customer_request"; "source_chat_id"; "required_action"; "missing_fields";
   "last_customer_message"; "customer_update"; "resolution_summary"; "last_human_update";
   "requested_time"; "destination"; "preferred_reply_channel"; "preferred_reply_contact";
   "market_id"; "country_code"].

(** [getattr(payload, field)] *)
Definition requested (p : TicketUpdate.t) (field : string) : option FieldValue :=
  if decide (field = "resolution_category") then VCategory <$> TicketUpdate.resolution_category p
  else if decide (field = "market_id") then VInt <$> TicketUpdate.market_id p
  else VText <$> TicketUpdate.texts p !! field.

(** [getattr(ticket, field)] *)
Definition current (t : Ticket.t) (field : string) : option FieldValue :=
  if decide (field = "resolution_category") then Some (VCategory (Ticket.resolution_category t))
  else if decide (field = "market_id") then VInt <$> Ticket.market_id t
  else VText <$> Ticket.texts t !! field.

(** [setattr(ticket, field, value)] *)
Definition assign_field (field : string) (v : FieldValue) (t : Ticket.t) : Ticket.t :=
  match v with
  | VCategory c => t <| Ticket.resolution_category := c |>
  | VInt z => t <| Ticket.market_id := Some z |>
  | VText s => t <| Ticket.texts ::= <[field := s]> |>
  end.

Definition field_event (i : Z) (user : User.t) (field : string) (old : option FieldValue)
    (v : FieldValue) : TicketEvent.t :=
  event i user EventType.field_updated [("summary", JStr (field +:+ " updated"))]
    <| TicketEvent.field_name := Some field |>
    <| TicketEvent.old_value := field_str <$> old |>
    <| TicketEvent.new_value := Some (field_str v) |>.

Definition update_field (i : Z) (user : User.t) (p : TicketUpdate.t) (field : string)
    : M Db.t bool :=
  ticket ← the_ticket i;
  match requested p field with
  | Some v =>
      if bool_decide (current ticket field = Some v) then mret false
      else
        set_ticket i (assign_field field v);;
        log_event (field_event i user field (current ticket field) v);;
        mret true
  | None => mret false
  end.

(** The loop; whether anything changed *)
Fixpoint update_fields (i : Z) (user : User.t) (p : TicketUpdate.t) (fields : list string)
    : M Db.t bool :=
  match fields with
  | [] => mret false
  | f :: rest =>
      changed ← update_field i user p f;
      more ← update_fields i user p rest;
      mret (changed || more)
  end.

Definition priority_event (i : Z) (user : User.t) (old new : TicketPriority.t) : TicketEvent.t :=
  event i user EventType.field_updated
      [("summary", JStr "Priority updated and SLA recalculated")]
    <| TicketEvent.field_name := Some "priority" |>
    <| TicketEvent.old_value := Some (value old) |>
    <| TicketEvent.new_value := Some (value new) |>.

Definition update_priority (i : Z) (user : User.t) (priority : option TicketPriority.t)
    : M Db.t bool :=
  ticket ← the_ticket i;
  match priority with
  | Some q =>
      if bool_decide (Ticket.priority ticket = q) then mret false
      else
        set_ticket i (fun t => t <| Ticket.priority := q |>);;
        apply_priority_policy i q;;
        log_event (priority_event i user (Ticket.priority ticket) q);;
        mret true
  | None => mret false
  end.

Definition update_tags (i : Z) (user : User.t) (tag_ids : option (list Z)) : M Db.t bool :=
  match tag_ids with
  | None => mret false
  | Some ids =>
      attach_tags i ids;;
      log_event (event i user EventType.field_updated [("tag_ids", jnums ids)]
        <| TicketEvent.field_name := Some "tags" |>
        <| TicketEvent.note := Some "Tags updated" |>);;
      mret true
  end.

Definition update_ticket (i : Z) (p : TicketUpdate.t) (user : User.t) : M Db.t Ticket.t :=
  _ ← visible_ticket i user;
  check (ensure_can_update_core_fields user);;
  s ← get;
  actor_tenant_id ← lift (resolve_actor_tenant_id (Db.dir s) user);
  lift (check_market (Db.dir s) actor_tenant_id (TicketUpdate.market_id p));;
  fields ← update_fields i user p updatable;
  priority ← update_priority i user (TicketUpdate.priority p);
  tags ← update_tags i user (TicketUpdate.tag_ids p);
  (if (fields || priority || tags : bool) then
     now ← utc_now;
     set_ticket i (fun t => t <| Ticket.updated_at := now |>)
   else mret tt);;
  get_ticket_or_404 i.

(** ** Assignment *)

Definition jname {A} (name : A → string) (o : option A) : json :=
  json_of_option (fun a => JStr (name a)) o.

Definition assignment_event (i : Z) (user : User.t) (p : TicketAssignRequest.t)
    (before after : Ticket.t) (assignee : option User.t) (team : option Team.t) : TicketEvent.t :=
  event i user EventType.assigned
      [("old_assignee_id", jnum (Ticket.assignee_id before));
       ("new_assignee_id", jnum (Ticket.assignee_id after));
       ("assignee_name", jname User.display_name assignee);
       ("old_team_id", jnum (Ticket.team_id before));
       ("new_team_id", jnum (Ticket.team_id after));
       ("team_name", jname Team.name team);
       ("summary", JStr ("Assigned to " +:+
          match assignee with Some u => User.display_name u | None => "unassigned" end))]
    <| TicketEvent.note := TicketAssignRequest.note p |>.

(** The attribute assignments of the handler *)
Definition assign_row (assignee : option User.t) (team : option Team.t) (t : Ticket.t) : Ticket.t :=
  let t := t <| Ticket.assignee_id := User.id <$> assignee |>
             <| Ticket.team_id := match team with Some x => Some (Team.id x)
                                  | None => Ticket.team_id t end |> in
  if bool_decide (Ticket.status t ∈ [TicketStatus.new; TicketStatus.pending_assignment]) &&
     truthy_id (Ticket.assignee_id t)
  then t <| Ticket.status := TicketStatus.in_progress |> else t.

Definition assign_ticket (i : Z) (p : TicketAssignRequest.t) (user : User.t) : M Db.t Ticket.t :=
  check (ensure_can_assign user);;
  ticket ← visible_ticket i user;
  s ← get;
  actor_tenant_id ← lift (resolve_actor_tenant_id (Db.dir s) user);
  x ← lift (validate_assignee_team (Db.dir s) (TicketAssignRequest.assignee_id p)
              (TicketAssignRequest.team_id p) (Ticket.team_id ticket) actor_tenant_id);
  set_ticket i (assign_row (fst x) (snd x));;
  after ← the_ticket i;
  log_event (assignment_event i user p ticket after (fst x) (snd x));;
  get_ticket_or_404 i.

(** ** Status changes *)

Definition status_event (i : Z) (user : User.t) (old new : TicketStatus.t) (note : option string)
    : TicketEvent.t :=
  event i user EventType.status_changed
      [("summary", JStr ("Status changed from " +:+ value old +:+ " to " +:+ value new))]
    <| TicketEvent.old_value := Some (value old) |> <| TicketEvent.new_value := Some (value new) |>
    <| TicketEvent.note := note |>.

(** The timestamps that go with the new status, and the end of a pause *)
Definition stamp_status (i : Z) (new_status : TicketStatus.t) : M Db.t unit :=
  when (bool_decide (new_status = TicketStatus.resolved))
    (now ← utc_now; set_ticket i (fun t => t <| Ticket.resolved_at := Some now |>));;
  when (bool_decide (new_status = TicketStatus.closed))
    (now ← utc_now; set_ticket i (fun t => t <| Ticket.closed_at := Some now |>);;
     resume_sla i None;; mret tt);;
  when (bool_decide (new_status = TicketStatus.canceled))
    (now ← utc_now; set_ticket i (fun t => t <| Ticket.closed_at := Some now |>);;
     resume_sla i None;; mret tt).

Definition change_status (i : Z) (p : TicketStatusChangeRequest.t) (user : User.t)
    : M Db.t Ticket.t :=
  let new_status := TicketStatusChangeRequest.new_status p in
  let note := TicketStatusChangeRequest.note p in
  ticket ← visible_ticket i user;
  check (ensure_can_change_status user ticket new_status);;
  lift (validate_transition (Ticket.status ticket) new_status);;
  require (negb (requires_note new_status && negb (truthy_str note)))
    (HTTPException 400 "This status change requires a note");;
  require (negb (bool_decide (new_status = TicketStatus.closed) &&
                 bool_decide (Ticket.resolution_category ticket = ResolutionCategory.none)))
    (HTTPException 400 "Resolution category is required before closing a ticket");;
  set_ticket i (fun t => t <| Ticket.status := new_status |>);;
  stamp_status i new_status;;
  update_pause_state_for_status i new_status None;;
  evaluate_sla i;;
  after ← the_ticket i;
  log_event (status_event i user (Ticket.status ticket) (Ticket.status after) note);;
  get_ticket_or_404 i.

(** ** Escalation and reopening *)

Definition escalation_event (i : Z) (user : User.t) (p : TicketEscalateRequest.t) (team : Team.t)
    (before : Ticket.t) : TicketEvent.t :=
  event i user EventType.escalated
      [("team_name", JStr (Team.name team)); ("from_status", JStr (value (Ticket.status before)));
       ("summary", JStr ("Escalated to " +:+ Team.name team))]
    <| TicketEvent.note := Some (TicketEscalateRequest.note p) |>
    <| TicketEvent.old_value :=
         if truthy_id (Ticket.team_id before) then pretty <$> Ticket.team_id before else None |>
    <| TicketEvent.new_value := Some (pretty (Team.id team)) |>.

Definition escalate_row (team : Team.t) (t : Ticket.t) : Ticket.t :=
  t <| Ticket.team_id := Some (Team.id team) |> <| Ticket.assignee_id := None |>
    <| Ticket.status := TicketStatus.escalated |>.

Definition escalate_ticket (i : Z) (p : TicketEscalateRequest.t) (user : User.t)
    : M Db.t Ticket.t :=
  check (ensure_can_escalate user);;
  ticket ← visible_ticket i user;
  s ← get;
  team ← lift (get_team_or_404 (Db.dir s) (TicketEscalateRequest.team_id p));
  actor_tenant_id ← lift (resolve_actor_tenant_id (Db.dir s) user);
  _ ← lift (ensure_team_tenant (Db.dir s) actor_tenant_id team);
  set_ticket i (escalate_row team);;
  evaluate_sla i;;
  log_event (escalation_event i user p team ticket);;
  get_ticket_or_404 i.

Definition reopen_row (p : TicketReopenRequest.t) (t : Ticket.t) : Ticket.t :=
  let back := TicketReopenRequest.assign_to_previous p && truthy_id (Ticket.assignee_id t) in
  t <| Ticket.reopen_count ::= Z.succ |> <| Ticket.closed_at := None |>
    <| Ticket.resolved_at := None |>
    <| Ticket.assignee_id := if back then Ticket.assignee_id t else None |>
    <| Ticket.status := if back then TicketStatus.in_progress
                        else TicketStatus.pending_assignment |>
    <| Ticket.team_id := if TicketReopenRequest.restore_team p && truthy_id (Ticket.team_id t)
                         then Ticket.team_id t else Ticket.team_id t |>.

Definition reopen_event (i : Z) (user : User.t) (p : TicketReopenRequest.t) (before : Ticket.t)
    : TicketEvent.t :=
  event i user EventType.reopened
      [("assign_to_previous", JBool (TicketReopenRequest.assign_to_previous p));
       ("restore_team", JBool (TicketReopenRequest.restore_team p));
       ("restored_assignee_id", if TicketReopenRequest.assign_to_previous p
                                then jnum (Ticket.assignee_id before) else JNull);
       ("restored_team_id", if TicketReopenRequest.restore_team p
                            then jnum (Ticket.team_id before) else JNull);
       ("summary", JStr "Ticket reopened and routed back to active workflow")]
    <| TicketEvent.note := Some (TicketReopenRequest.reason p) |>.

Definition reopen_ticket (i : Z) (p : TicketReopenRequest.t) (user : User.t) : M Db.t Ticket.t :=
  ticket ← visible_ticket i user;
  require (bool_decide (Ticket.status ticket ∈
      [TicketStatus.closed; TicketStatus.canceled; TicketStatus.resolved]))
    (HTTPException 400 "Only resolved, closed, or canceled tickets can be reopened");;
  set_ticket i (reopen_row p);;
  apply_priority_policy i (Ticket.priority ticket);;
  resume_sla i None;;
  evaluate_sla i;;
  log_event (reopen_event i user p ticket);;
  get_ticket_or_404 i.

(** ** Comments, notes, attachments, intakes *)

Definition add_comment_row (mk : Z → TicketComment.t) : M Db.t TicketComment.t := fun s =>
  (Ok (mk (tnext (Db.comments s))), s <| Db.comments ::= fun T => table_add T mk |>).

Definition add_comment (i : Z) (p : CommentCreate.t) (user : User.t) : M Db.t TicketComment.t :=
  let external := bool_decide (CommentCreate.visibility p = NoteVisibility.external) in
  _ ← visible_ticket i user;
  check (ensure_can_write_comment user (CommentCreate.visibility p));;
  comment ← add_comment_row (fun id =>
    {| TicketComment.id := id; TicketComment.ticket_id := i;
       TicketComment.author_id := Some (User.id user); TicketComment.body := CommentCreate.body p;
       TicketComment.visibility := CommentCreate.visibility p |});
  when external (update_first_response i);;
  log_event (event i user EventType.comment_added
      [("visibility", JStr (value (CommentCreate.visibility p)))]
    <| TicketEvent.note := Some (if external then "External comment added"
                                 else "Internal comment added") |>);;
  evaluate_sla i;;
  mret comment.

Definition add_note_row (mk : Z → TicketInternalNote.t) : M Db.t TicketInternalNote.t := fun s =>
  (Ok (mk (tnext (Db.notes s))), s <| Db.notes ::= fun T => table_add T mk |>).

Definition add_internal_note (i : Z) (body : string) (user : User.t) : M Db.t TicketInternalNote.t :=
  _ ← visible_ticket i user;
  check (ensure_can_write_internal_note user);;
  note ← add_note_row (fun id =>
    {| TicketInternalNote.id := id; TicketInternalNote.ticket_id := i;
       TicketInternalNote.author_id := Some (User.id user); TicketInternalNote.body := body |});
  log_event (event i user EventType.internal_note_added []
    <| TicketEvent.note := Some "Internal note added" |>);;
  mret note.

Definition add_attachment_row (mk : Z → TicketAttachment.t) : M Db.t TicketAttachment.t := fun s =>
  (Ok (mk (tnext (Db.attachments s))), s <| Db.attachments ::= fun T => table_add T mk |>).

Definition build_attachment_download_url (attachment_id : Z) : string :=
  "/api/files/" +:+ pretty attachment_id +:+ "/download".

(** [file.filename or stored.stored_name] *)
Definition upload_name (filename : option string) (stored : StoredUpload.t) : string :=
  str_or filename (StoredUpload.stored_name stored).

Definition add_attachment (i : Z) (filename : option string) (save_upload : result StoredUpload.t)
    (visibility : NoteVisibility.t) (user : User.t) : M Db.t TicketAttachment.t :=
  _ ← visible_ticket i user;
  check (ensure_can_upload_attachment user);;
  stored ← lift save_upload;
  row ← add_attachment_row (fun id =>
    {| TicketAttachment.id := id; TicketAttachment.ticket_id := i;
       TicketAttachment.uploaded_by := Some (User.id user);
       TicketAttachment.file_name := upload_name filename stored;
       TicketAttachment.storage_key := Some (StoredUpload.storage_key stored);
       TicketAttachment.file_path := Some (StoredUpload.file_path stored);
       TicketAttachment.file_url := None;
       TicketAttachment.mime_type := Some (StoredUpload.mime_type stored);
       TicketAttachment.file_size := Some (StoredUpload.file_size stored);
       TicketAttachment.visibility := visibility |});
  log_event (event i user EventType.attachment_added
      [("file_name", JStr (TicketAttachment.file_name row)); ("visibility", JStr (value visibility))]
    <| TicketEvent.note := Some "Attachment uploaded" |>);;
  let row := row <| TicketAttachment.file_url :=
      Some (build_attachment_download_url (TicketAttachment.id row)) |> in
  modify (fun s => s <| Db.attachments ::= table_put (TicketAttachment.id row) row |>);;
  mret row.

(** [ticket.column = value] for a nullable text column *)
Definition assign_text (column : string) (v : option string) (t : Ticket.t) : Ticket.t :=
  t <| Ticket.texts ::= match v with Some s => <[column := s]> | None => delete column end |>.

Definition intake_row (p : AIIntakeCreate.t) (t : Ticket.t) : Ticket.t :=
  assign_text "ai_classification" (AIIntakeCreate.classification p)
    (assign_text "ai_summary" (Some (AIIntakeCreate.summary p)) t)
    <| Ticket.ai_confidence := AIIntakeCreate.confidence p |>.

Definition add_ai_intake (i : Z) (p : AIIntakeCreate.t) (user : User.t) : M Db.t unit :=
  ticket ← visible_ticket i user;
  check (ensure_can_write_ai_intake user);;
  add_ai_intake_row (fun id =>
    {| TicketAIIntake.id := id; TicketAIIntake.ticket_id := i;
       TicketAIIntake.summary := AIIntakeCreate.summary p;
       TicketAIIntake.classification := AIIntakeCreate.classification p;
       TicketAIIntake.confidence := AIIntakeCreate.confidence p;
       TicketAIIntake.missing_fields_json := Some (JArr (JStr <$> AIIntakeCreate.missing_fields p));
       TicketAIIntake.recommended_action := AIIntakeCreate.recommended_action p;
       TicketAIIntake.suggested_reply := AIIntakeCreate.suggested_reply p;
       TicketAIIntake.raw_payload_json :=
         Some (json_or (default JNull (AIIntakeCreate.raw_payload p)) (JObj []));
       TicketAIIntake.human_override_reason := AIIntakeCreate.human_override_reason p;
       TicketAIIntake.created_by := Some (User.id user);
       TicketAIIntake.market_id := match AIIntakeCreate.market_id p with
         | Some m => Some m | None => Ticket.market_id ticket end;
       TicketAIIntake.country_code :=
         if truthy_str (AIIntakeCreate.country_code p) then AIIntakeCreate.country_code p
         else text ticket "country_code" |});;
  set_ticket i (intake_row p);;
  log_event (event i user EventType.ai_intake_added
      [("classification", jstr (AIIntakeCreate.classification p));
       ("confidence", jfloat (AIIntakeCreate.confidence p));
       ("summary", JStr (AIIntakeCreate.summary p))]
    <| TicketEvent.note := Some "AI intake added" |>).
