(* ===== verification/Lifecycle.v ===== *)
(** * The life cycle of a ticket

    Theorems about the operations of [Tickets]: who may run them, what a status
    change, an escalation, a reopening, an update and a creation do to the ticket,
    to its audit trail and to the rest of the database, and what holds after any
    history of operations. *)

From S2P Require Import Prelude Calendar Enums Models Fixtures Tenancy Permissions.
From S2P Require Import Sla Customers Tickets.

Import StateMachine.

(** ** Frames

    The service-level operations of an operation on ticket [i] run after the handler
    has assigned attributes of the ticket; an assignment of attributes that those
    operations do not write moves through a frame. *)

Definition put (i : Z) (f : Ticket.t → Ticket.t) (s : Db.t) : Db.t := snd (set_ticket i f s).

Lemma set_ticket_run i f s : set_ticket i f s = (Ok tt, put i f s).
Proof. done. Qed.

Lemma put_at i f s j :
  ticket_at (put i f s) j = (if decide (j = i) then f else id) <$> ticket_at s j.
Proof.
  unfold put, set_ticket, modify. cbn. destruct (ticket_at s i) as [t|] eqn:E.
  - rewrite ticket_at_put. case_decide as D; case_decide as D'; try congruence.
    + subst. by rewrite E.
    + by destruct (ticket_at s j).
  - case_decide as D; [subst; by rewrite E | by destruct (ticket_at s j)].
Qed.

(** [put] touches the ticket table only. *)
Lemma put_tables i f s :
  put i f s = s <| Db.tickets := Db.tickets (put i f s) |> ∧
  tnext (Db.tickets (put i f s)) = tnext (Db.tickets s).
Proof. unfold put, set_ticket, modify. cbn. destruct (ticket_at s i); by destruct s. Qed.

Lemma put_events i f s : Db.events (put i f s) = Db.events s.
Proof. by rewrite (proj1 (put_tables i f s)). Qed.
Lemma put_rest i f s : sla_rest (put i f s) = sla_rest s.
Proof. by rewrite (proj1 (put_tables i f s)). Qed.

Lemma wf_put i f s : sla_wf s → sla_wf (put i f s).
Proof.
  intros W. destruct (put_tables i f s) as [-> _]. by destruct W; split.
Qed.

(** [f] computes the columns outside the service level from those columns. *)
Definition respects (f : Ticket.t → Ticket.t) : Prop :=
  ∀ t t', sla_core t = sla_core t' → sla_core (f t) = sla_core (f t').

Lemma guarded_put i f s0 s : respects f → guarded i s0 s → guarded i (put i f s0) (put i f s).
Proof.
  intros Hf [W F]. split; [by apply wf_put|].
  destruct (put_tables i f s0) as [E0 N0], (put_tables i f s) as [E N]. destruct F. split.
  - rewrite E, E0. exact fr_rest.
  - by rewrite N, N0.
  - intros j Hj. rewrite !put_at, decide_False by done. by rewrite fr_other.
  - rewrite !put_at, decide_True by done.
    destruct (ticket_at s i) as [t|], (ticket_at s0 i) as [t0|]; try discriminate fr_core; [|done].
    change (Some (sla_core (f t)) = Some (sla_core (f t0))). f_equal.
    change (Some (sla_core t) = Some (sla_core t0)) in fr_core. apply Hf. congruence.
  - rewrite E, E0. exact fr_events.
  - rewrite E, E0. exact fr_assigned.
  - rewrite E, E0. exact fr_closed.
  - rewrite E, E0. exact fr_ticks.
Qed.

Lemma put_put i f g s : put i g (put i f s) = put i (fun t => g (f t)) s.
Proof.
  unfold put, set_ticket, modify. cbn. destruct (ticket_at s i) as [t|] eqn:E; [|by rewrite E].
  rewrite ticket_at_put. rewrite decide_True by done. unfold alter_field, table_put.
  cbn. by rewrite insert_insert_eq.
Qed.

(** *** Successful runs of the common steps *)

Lemma the_ticket_Ok i s t s' : the_ticket i s = (Ok t, s') → s' = s ∧ ticket_at s i = Some t.
Proof. unfold the_ticket. destruct (ticket_at s i); [|discriminate]. by intros [= <- <-]. Qed.

Lemma lift_Ok {A} (r : result A) (s s' : Db.t) a : lift r s = (Ok a, s') → r = Ok a ∧ s' = s.
Proof. unfold lift. by intros [= -> ->]. Qed.

Lemma check_Ok f s a s' : check f s = (Ok a, s') → f (Some s) = Ok tt ∧ s' = s.
Proof.
  intros H. unfold check in H. apply bind_Ok_inv in H as (s1 & s2 & H1 & H).
  injection H1 as <- <-. destruct a. by apply lift_Ok in H.
Qed.

Lemma visible_ticket_Ok i user s t s' :
  visible_ticket i user s = (Ok t, s') →
  s' = s ∧ ticket_at s i = Some t ∧ ensure_ticket_visible user t (Some s) = Ok tt.
Proof.
  intros H. unfold visible_ticket in H. apply bind_Ok_inv in H as (x & s1 & H1 & H).
  apply the_ticket_Ok in H1 as [-> Ht]. apply bind_Ok_inv in H as (s2 & s3 & H2 & H).
  injection H2 as <- <-. apply bind_Ok_inv in H as ([] & s4 & H3 & H).
  apply lift_Ok in H3 as [Hv ->]. by injection H as <- <-.
Qed.

Lemma preserves_run {A} (P : Db.t → Prop) (m : M Db.t A) s r s' :
  preserves P m → P s → m s = (r, s') → P s'.
Proof. intros H Hs E. specialize (H s Hs). by rewrite E in H. Qed.

(** A service-level operation that returned *)
Lemma guarded_step {A} i (m : M Db.t A) s r s' :
  (∀ s0, preserves (guarded i s0) m) → sla_wf s → m s = (r, s') → guarded i s s'.
Proof. intros Hm W E. exact (preserves_run _ m s r s' (Hm s) (guarded_refl i s W) E). Qed.

(** ** Status changes *)

(** The timestamp that goes with a status *)
Definition stamped (st : TicketStatus.t) (now : Z) (t : Ticket.t) : Ticket.t :=
  match st with
  | TicketStatus.resolved => t <| Ticket.resolved_at := Some now |>
  | TicketStatus.closed | TicketStatus.canceled => t <| Ticket.closed_at := Some now |>
  | _ => t
  end.

(** [f] does not read service-level columns. *)
Lemma core_commutes f :
  (∀ t, sla_core (f t) = sla_core (f (sla_core t))) → respects f.
Proof. intros H t t' E. by rewrite H, (H t'), E. Qed.

Lemma respects_stamped st now : respects (stamped st now).
Proof. apply core_commutes. intros t. by destruct st, t. Qed.

Lemma respects_compose f g : respects f → respects g → respects (fun t => g (f t)).
Proof. intros Hf Hg t t' E. by apply Hg, Hf. Qed.

Lemma guarded_now_run i s now s' : sla_wf s → utc_now s = (Ok now, s') → guarded i s s'.
Proof. intros W H. exact (guarded_step i utc_now s (Ok now) s' (guarded_now i) W H). Qed.

Lemma put_id i s : put i id s = s.
Proof.
  unfold put, set_ticket, modify. cbn. destruct (ticket_at s i) as [t|] eqn:E; [|done].
  destruct s as [? ? ? [rows nxt] ? ? ? ? ? ? ? ? ? ? ? ? ? ? ? ?].
  unfold alter_field, table_put, ticket_at, table_get in *. cbn in *. by rewrite insert_id.
Qed.

(** Evaluate the closed conditions of a run and the steps they skip. *)
Ltac run_whens H :=
  repeat match type of H with
  | context [@when ?S (bool_decide ?P) ?m] =>
      let v := eval vm_compute in (bool_decide P) in
      change (@when S (bool_decide P) m) with (@when S v m) in H
  end;
  cbn [when] in H;
  repeat match type of H with
  | context [(mret ?a ≫= ?k) ?s] => change ((mret a ≫= k) s) with (k a s) in H; cbv beta in H
  end.

Lemma stamp_status_run i st s s' :
  sla_wf s → stamp_status i st s = (Ok tt, s') → ∃ now, guarded i (put i (stamped st now) s) s'.
Proof.
  intros W H. unfold stamp_status in H.
  assert (∀ f s1, (now ← utc_now; set_ticket i (f now);; resume_sla i None;; mret tt) s = (Ok tt, s1) →
    (∀ now, respects (f now)) → ∃ now, guarded i (put i (f now) s) s1) as Hresume.
  { intros f s1 H1 Hf. apply bind_Ok_inv in H1 as (now & s2 & Hn & H1).
    apply bind_Ok_inv in H1 as ([] & s3 & Hs & H1). rewrite set_ticket_run in Hs. injection Hs as <-.
    apply bind_Ok_inv in H1 as (o & s4 & Hr & H1). injection H1 as <-.
    pose proof (guarded_now_run i s now s2 W Hn) as G. exists now.
    eapply guarded_trans; [by apply guarded_put|].
    eapply guarded_step; [apply guarded_resume | apply wf_put, G | exact Hr]. }
  destruct st; run_whens H; try (injection H as <-; exists 0; change (stamped _ 0) with (@id Ticket.t);
         rewrite put_id; by apply guarded_refl).
  - apply bind_Ok_inv in H as ([] & s2 & Hn & H). injection H as <-.
    apply bind_Ok_inv in Hn as (now & s3 & Hn & H). injection H as <-. exists now.
    apply guarded_put; [apply (respects_stamped TicketStatus.resolved) | by eapply guarded_now_run].
  - apply bind_Ok_inv in H as ([] & s2 & Hn & H). injection H as <-.
    by apply (Hresume (stamped TicketStatus.closed)), respects_stamped.
  - by apply (Hresume (stamped TicketStatus.canceled)), respects_stamped.
Qed.

(** *** What an evaluation leaves alone *)

Lemma preserves_target P i : preserves P (_target i).
Proof. by intros s H. Qed.
Lemma preserves_open_pause P i : preserves P (_open_pause i).
Proof. by intros s H. Qed.
Lemma preserves_assignment P i : preserves P (_assignment i).
Proof. by intros s H. Qed.
#[export] Hint Resolve preserves_target preserves_open_pause preserves_assignment : nexus.

Lemma in_step_the_ticket i j : preserves (in_step i) (the_ticket j).
Proof. intros s H. unfold the_ticket. by destruct (ticket_at s j). Qed.
Lemma in_step_now i : preserves (in_step i) utc_now.
Proof. by intros s H. Qed.
Lemma in_step_or_now i o : preserves (in_step i) (or_now o).
Proof. destruct o; [apply preserves_ret | apply in_step_now]. Qed.
Lemma in_step_put_target i mk : preserves (in_step i) (put_target i mk).
Proof. apply preserves_modify. intros s H. by destruct (find_target s i). Qed.
Lemma in_step_event i e : preserves (in_step i) (log_event e).
Proof. by intros s H. Qed.
Lemma in_step_flags i f :
  (∀ t o, projected t o → projected (f t) o) → preserves (in_step i) (set_ticket i f).
Proof.
  intros Hf s (t & Ht & Hp). rewrite set_ticket_run. apply (in_step_set i f s t Ht). by apply Hf.
Qed.
#[export] Hint Resolve in_step_the_ticket in_step_now in_step_or_now in_step_put_target
  in_step_event in_step_ensure : nexus.

Lemma in_step_apply i p now by_ : preserves (in_step i) (apply_policy_to_ticket i p now by_).
Proof.
  unfold apply_policy_to_ticket. destruct p as [p|]; [|auto with nexus].
  do 6 (apply preserves_bind; [by auto with nexus | intros ?]).
  intros s (t & Ht & _). unfold mbind, M_bind, _open_pause, gets. rewrite set_ticket_run.
  by apply (in_step_set i _ s t Ht).
Qed.
#[export] Hint Resolve in_step_apply : nexus.

Lemma in_step_policy i : preserves (in_step i) (policy_of_ticket i).
Proof. unfold policy_of_ticket. preserve. Qed.
#[export] Hint Resolve in_step_policy : nexus.

Lemma in_step_evaluate i : preserves (in_step i) (evaluate_sla i).
Proof.
  unfold evaluate_sla, compute_sla_snapshot, _runtime_due_times, cached_due. preserve; auto with nexus.
  by apply in_step_flags.
Qed.

(** The pause intervals are a table that an evaluation does not write. *)
Definition pauses_are (X : Table TicketSLAPauseInterval.t) (s : Db.t) : Prop := Db.pauses s = X.

Lemma pauses_the_ticket X j : preserves (pauses_are X) (the_ticket j).
Proof. intros s H. unfold the_ticket. by destruct (ticket_at s j). Qed.
Lemma pauses_or_now X o : preserves (pauses_are X) (or_now o).
Proof. destruct o; [apply preserves_ret | by intros s H]. Qed.
Lemma pauses_set X i f : preserves (pauses_are X) (set_ticket i f).
Proof. apply preserves_modify. intros s H. by destruct (ticket_at s i). Qed.
Lemma pauses_put_target X i mk : preserves (pauses_are X) (put_target i mk).
Proof. apply preserves_modify. intros s H. by destruct (find_target s i). Qed.
Lemma pauses_now X : preserves (pauses_are X) utc_now.
Proof. by intros s H. Qed.
Lemma pauses_event X e : preserves (pauses_are X) (log_event e).
Proof. by intros s H. Qed.
Lemma pauses_add_assignment X mk : preserves (pauses_are X) (add_assignment mk).
Proof. by intros s H. Qed.
#[export] Hint Resolve pauses_the_ticket pauses_or_now pauses_set pauses_put_target pauses_now
  pauses_event pauses_add_assignment : nexus.

Lemma pauses_ensure X i by_ at_ : preserves (pauses_are X) (ensure_ticket_sla_assignment i by_ at_).
Proof. unfold ensure_ticket_sla_assignment, select_policy_revision. preserve; auto with nexus. Qed.
#[export] Hint Resolve pauses_ensure : nexus.
Lemma pauses_apply X i p now by_ : preserves (pauses_are X) (apply_policy_to_ticket i p now by_).
Proof. unfold apply_policy_to_ticket. preserve; auto with nexus. Qed.
#[export] Hint Resolve pauses_apply : nexus.
Lemma pauses_evaluate X i : preserves (pauses_are X) (evaluate_sla i).
Proof.
  unfold evaluate_sla, compute_sla_snapshot, _runtime_due_times, cached_due, policy_of_ticket.
  preserve; auto with nexus.
Qed.

Lemma in_step_resume i actor s o s' :
  sla_wf s → in_step i s → resume_sla i actor s = (Ok o, s') → in_step i s'.
Proof.
  intros W (t & Ht & _) H.
  pose proof (resume_hoare i actor s ltac:(by exists t) s (guarded_refl i s W)) as Hr.
  rewrite H in Hr. apply Hr.
Qed.

Lemma stamp_in_step i st s s' :
  sla_wf s → in_step i s → stamp_status i st s = (Ok tt, s') → in_step i s'.
Proof.
  intros W Hin H. unfold stamp_status in H.
  assert (∀ f s1, (now ← utc_now; set_ticket i (f now);; resume_sla i None;; mret tt) s = (Ok tt, s1) →
    (∀ now t o, projected t o → projected (f now t) o) → in_step i s1) as Hresume.
  { intros f s1 H1 Hf. apply bind_Ok_inv in H1 as (now & s2 & Hn & H1).
    apply bind_Ok_inv in H1 as ([] & s3 & Hs & H1). rewrite set_ticket_run in Hs. injection Hs as <-.
    apply bind_Ok_inv in H1 as (o & s4 & Hr & H1). injection H1 as <-.
    assert (in_step i s2) as H2 by by apply (preserves_run _ utc_now s _ _ (in_step_now i) Hin Hn).
    eapply in_step_resume; [| | exact Hr].
    - apply wf_put. exact (proj1 (guarded_now_run i s now s2 W Hn)).
    - exact (in_step_flags i (f now) (Hf now) s2 H2). }
  destruct st; run_whens H; try (by injection H as <-).
  - apply bind_Ok_inv in H as ([] & s2 & Hn & H). injection H as <-.
    apply bind_Ok_inv in Hn as (now & s3 & Hn & H). injection H as <-.
    apply (in_step_flags i (stamped TicketStatus.resolved now)); [done|].
    by apply (preserves_run _ utc_now s _ _ (in_step_now i) Hin Hn).
  - apply bind_Ok_inv in H as ([] & s2 & Hn & H). injection H as <-.
    by apply (Hresume (stamped TicketStatus.closed)).
  - by apply (Hresume (stamped TicketStatus.canceled)).
Qed.

(** A pause is open only in a status that can pause. *)
Definition paused_only_waiting (i : Z) (st : TicketStatus.t) (s : Db.t) : Prop :=
  ∀ p, find_open_pause s i = Some p → st ∈ PAUSE_CANDIDATES.

Lemma pause_tracks_waiting i st s0 s : pause_tracks i st s0 s → paused_only_waiting i st s.
Proof.
  unfold pause_tracks, paused_only_waiting. intros H p Hp. rewrite Hp in H.
  destruct H as (a & _ & l & _ & Hs). destruct st; try discriminate Hs; set_solver.
Qed.

(** The guards of a status change *)
Definition status_guards (p : TicketStatusChangeRequest.t) (user : User.t) (s : Db.t) (t : Ticket.t)
    : Prop :=
  let st := TicketStatusChangeRequest.new_status p in
  ensure_ticket_visible user t (Some s) = Ok tt ∧
  ensure_can_change_status user t st (Some s) = Ok tt ∧
  transition (Ticket.status t) st ∧
  (requires_note st = true → truthy_str (TicketStatusChangeRequest.note p) = true) ∧
  (st = TicketStatus.closed → Ticket.resolution_category t ≠ ResolutionCategory.none).

(** [t] with a new status and its timestamp *)
Definition moved (st : TicketStatus.t) (now : Z) (t : Ticket.t) : Ticket.t :=
  stamped st now (t <| Ticket.status := st |>).

Lemma respects_moved st now : respects (moved st now).
Proof. apply core_commutes. intros t. by destruct st, t. Qed.

Lemma log_event_run e s : log_event e s = (Ok tt, s <| Db.events ::= fun l => l ++ [e] |>).
Proof. done. Qed.

Lemma change_status_guards i p user s r s' :
  change_status i p user s = (Ok r, s') →
  ∃ t, ticket_at s i = Some t ∧ status_guards p user s t ∧
    (let st := TicketStatusChangeRequest.new_status p in
     set_ticket i (fun t => t <| Ticket.status := st |>);;
     stamp_status i st;; update_pause_state_for_status i st None;; evaluate_sla i;;
     after ← the_ticket i;
     log_event (status_event i user (Ticket.status t) (Ticket.status after)
       (TicketStatusChangeRequest.note p));;
     get_ticket_or_404 i) s = (Ok r, s').
Proof.
  intros H. unfold change_status in H. apply bind_Ok_inv in H as (t & s1 & H1 & H).
  apply visible_ticket_Ok in H1 as (-> & Ht & Hv). apply bind_Ok_inv in H as ([] & s1 & H1 & H).
  apply check_Ok in H1 as [Hc ->]. apply bind_Ok_inv in H as ([] & s1 & H1 & H).
  apply lift_Ok in H1 as [Htr ->]. apply bind_Ok_inv in H as ([] & s1 & H1 & H).
  apply require_Ok_inv in H1 as [Hn ->]. apply bind_Ok_inv in H as ([] & s1 & H1 & H).
  apply require_Ok_inv in H1 as [Hr ->]. exists t. split; [done|]. split; [|exact H].
  split_and!; try done.
  - intros Hreq. rewrite Hreq in Hn. by destruct (truthy_str _).
  - intros Hst Hcat. by rewrite Hst, Hcat in Hr.
Qed.

Lemma change_status_run i p user s r s' :
  sla_wf s → change_status i p user s = (Ok r, s') →
  let st := TicketStatusChangeRequest.new_status p in
  ∃ t now s1, ticket_at s i = Some t ∧ status_guards p user s t ∧
    guarded i (put i (moved st now) s) s1 ∧ ticket_at s1 i = Some r ∧
    s' = s1 <| Db.events ::= fun l => l ++
      [status_event i user (Ticket.status t) (Ticket.status r) (TicketStatusChangeRequest.note p)] |> ∧
    (in_step i s → in_step i s1 ∧ paused_only_waiting i st s1).
Proof.
  intros W H. destruct (change_status_guards i p user s r s' H) as (t & Ht & Hg & H').
  clear H. cbv zeta in *. set (st := TicketStatusChangeRequest.new_status p) in *.
  apply bind_Ok_inv in H' as ([] & s1 & H1 & H). rewrite set_ticket_run in H1. injection H1 as <-.
  set (f := fun t : Ticket.t => t <| Ticket.status := st |>) in *.
  apply bind_Ok_inv in H as ([] & s2 & H2 & H). apply bind_Ok_inv in H as ([] & s3 & H3 & H).
  apply bind_Ok_inv in H as ([] & s4 & H4 & H). apply bind_Ok_inv in H as (t' & s5 & H5 & H).
  apply the_ticket_Ok in H5 as [-> Ht']. apply bind_Ok_inv in H as ([] & s6 & H6 & H).
  rewrite log_event_run in H6. injection H6 as <-. apply the_ticket_Ok in H as [-> Hr].
  assert (t' = r) as -> by (unfold ticket_at in *; cbn in Hr; congruence).
  assert (sla_wf (put i f s)) as W1 by by apply wf_put.
  destruct (stamp_status_run i st _ _ W1 H2) as [now G2]. rewrite put_put in G2.
  pose proof (guarded_step i _ _ _ _ (guarded_update i st None) (proj1 G2) H3) as G3.
  pose proof (guarded_step i _ _ _ _ (guarded_evaluate i) (proj1 G3) H4) as G4.
  exists t, now, s4. split_and!; try done.
  { eapply guarded_trans; [exact G2|]. by eapply guarded_trans. }
  intros I0. assert (in_step i s2) as I2
    by (eapply stamp_in_step; [exact W1 | | exact H2]; by apply (in_step_flags i f)).
  pose proof (update_pause_hoare i st None s2 (proj1 G2) I2) as Hu. rewrite H3 in Hu.
  destruct Hu as (_ & I3 & Hp). split.
  - exact (preserves_run _ _ _ _ _ (in_step_evaluate i) I3 H4).
  - pose proof (preserves_run _ _ _ _ _ (pauses_evaluate (Db.pauses s3) i) eq_refl H4) as Hx.
    apply pause_tracks_waiting in Hp. intros q Hq. apply (Hp q). rewrite <- Hq. symmetry.
    by apply pauses_find.
Qed.

(** ** The contract of an operation on a ticket

    [handled i f e s s' r]: the operation wrote [f] on ticket [i], which is now [r]
    (up to service-level columns), logged breach events and then [e], and touched no
    other ticket and no table outside the service level. *)

Record handled (i : Z) (f : Ticket.t → Ticket.t) (e : TicketEvent.t) (s s' : Db.t) (r : Ticket.t)
    : Prop := {
  h_ticket : ticket_at s' i = Some r;
  h_core : ∃ t, ticket_at s i = Some t ∧ sla_core r = sla_core (f t);
  h_others : ∀ j, j ≠ i → ticket_at s' j = ticket_at s j;
  h_rest : sla_rest s' = sla_rest s;
  h_log : ∃ bs, Db.events s' = Db.events s ++ bs ++ [e] ∧
            Forall (fun x => x = first_breach i ∨ x = resolution_breach i) bs;
  h_wf : sla_wf s'
}.

Lemma wf_event e s : sla_wf s → sla_wf (s <| Db.events ::= fun l => l ++ [e] |>).
Proof. intros W. by destruct W; split. Qed.

Lemma handled_intro i f e s s1 r :
  is_Some (ticket_at s i) → guarded i (put i f s) s1 → ticket_at s1 i = Some r →
  handled i f e s (s1 <| Db.events ::= fun l => l ++ [e] |>) r.
Proof.
  intros [t Ht] [W F] Hr. destruct (put_tables i f s) as [E N]. destruct F. split.
  - exact Hr.
  - exists t. split; [done|]. rewrite Hr, put_at, decide_True, Ht in fr_core by done.
    change (Some (sla_core r) = Some (sla_core (f t))) in fr_core. congruence.
  - intros j Hj. change (ticket_at s1 j = ticket_at s j). rewrite fr_other by done.
    rewrite put_at, decide_False by done. by destruct (ticket_at s j).
  - change (sla_rest s1 = sla_rest s). rewrite fr_rest, E. done.
  - destruct fr_events as (bs & Hb & Hf). exists bs. split; [|done].
    change (Db.events s1 ++ [e] = Db.events s ++ bs ++ [e]). rewrite Hb, E. cbn.
    by rewrite app_assoc.
  - by apply wf_event.
Qed.

(** C2: a status change that returns was allowed: the caller sees the ticket and has the
    capability, the transition is one of the table, a closing or cancellation carries a
    note, a closing a resolution category.  Its effect is the new status with the time
    of resolution or closing, one [status_changed] event with the old and the new status
    after the breach events, and nothing outside the ticket and its service level.  The
    projection of the pause stays in step, and only a waiting status leaves a pause open. *)
Theorem status_change_effect i p user s r s' :
  sla_wf s → change_status i p user s = (Ok r, s') →
  let st := TicketStatusChangeRequest.new_status p in
  ∃ t now, ticket_at s i = Some t ∧ status_guards p user s t ∧
    handled i (moved st now)
      (status_event i user (Ticket.status t) st (TicketStatusChangeRequest.note p)) s s' r ∧
    Ticket.status r = st ∧
    (is_terminal st = true → Ticket.closed_at r = Some now) ∧
    (in_step i s → in_step i s' ∧ paused_only_waiting i st s').
Proof.
  intros W H. destruct (change_status_run i p user s r s' W H)
    as (t & now & s1 & Ht & Hg & G & Hr & -> & Hp). cbv zeta in *.
  set (st := TicketStatusChangeRequest.new_status p) in *.
  assert (handled i (moved st now) (status_event i user (Ticket.status t) (Ticket.status r)
    (TicketStatusChangeRequest.note p)) s _ r) as Hh by (apply handled_intro; [by exists t | done | done]).
  destruct (h_core _ _ _ _ _ _ Hh) as (t0 & Ht0 & Hc). rewrite Ht in Ht0. injection Ht0 as <-.
  assert (Ticket.status r = st) as Hst.
  { pose proof (f_equal Ticket.status Hc) as E. change (Ticket.status r = Ticket.status (moved st now t)) in E.
    rewrite E. by destruct st. }
  rewrite Hst in Hh |- *. exists t, now. split_and!; try done.
  intros Hterm. pose proof (f_equal Ticket.closed_at Hc) as E.
  change (Ticket.closed_at r = Ticket.closed_at (moved st now t)) in E. rewrite E.
  destruct st; try discriminate Hterm; done.
Qed.

(** ** Escalation, reopening, assignment *)

Lemma guarded_priority_policy i q s0 : preserves (guarded i s0) (apply_priority_policy i q).
Proof.
  unfold apply_priority_policy, get_policy_for_priority. preserve; auto with nexus.
Qed.
#[export] Hint Resolve guarded_priority_policy guarded_evaluate guarded_resume : nexus.

(** The tail that the handlers share: the row, service-level steps [m], the event *)
Definition finish {A} (i : Z) (f : Ticket.t → Ticket.t) (m : M Db.t A) (e : TicketEvent.t)
    : M Db.t Ticket.t :=
  set_ticket i f;; m;; log_event e;; get_ticket_or_404 i.

Lemma finish_run {A} i f (m : M Db.t A) e s r s' :
  sla_wf s → is_Some (ticket_at s i) → (∀ s0, preserves (guarded i s0) m) →
  finish i f m e s = (Ok r, s') →
  handled i f e s s' r ∧ ∃ a s1, m (put i f s) = (Ok a, s1) ∧
    s' = s1 <| Db.events ::= fun l => l ++ [e] |>.
Proof.
  intros W Hex Hm H. unfold finish in H. apply bind_Ok_inv in H as ([] & s1 & H1 & H).
  rewrite set_ticket_run in H1. injection H1 as <-. apply bind_Ok_inv in H as (a & s2 & H2 & H).
  apply bind_Ok_inv in H as ([] & s3 & H3 & H). rewrite log_event_run in H3. injection H3 as <-.
  apply the_ticket_Ok in H as [-> Hr].
  pose proof (guarded_step i m _ _ _ Hm (wf_put i f s W) H2) as G. split.
  - by apply handled_intro.
  - by exists a, s2.
Qed.

Lemma escalate_split i p user s r s' :
  escalate_ticket i p user s = (Ok r, s') →
  ∃ t team actor, ticket_at s i = Some t ∧ ensure_can_escalate user (Some s) = Ok tt ∧
    ensure_ticket_visible user t (Some s) = Ok tt ∧
    get_team_or_404 (Db.dir s) (TicketEscalateRequest.team_id p) = Ok team ∧
    resolve_actor_tenant_id (Db.dir s) user = Ok actor ∧
    is_ok (ensure_team_tenant (Db.dir s) actor team) = true ∧
    finish i (escalate_row team) (evaluate_sla i) (escalation_event i user p team t) s = (Ok r, s').
Proof.
  intros H. unfold escalate_ticket in H. apply bind_Ok_inv in H as ([] & s1 & H1 & H).
  apply check_Ok in H1 as [Hc ->]. apply bind_Ok_inv in H as (t & s1 & H1 & H).
  apply visible_ticket_Ok in H1 as (-> & Ht & Hv). apply bind_Ok_inv in H as (d & s1 & H1 & H).
  injection H1 as <- <-. apply bind_Ok_inv in H as (team & s1 & H1 & H).
  apply lift_Ok in H1 as [Hteam ->]. apply bind_Ok_inv in H as (actor & s1 & H1 & H).
  apply lift_Ok in H1 as [Ha ->]. apply bind_Ok_inv in H as (x & s1 & H1 & H).
  apply lift_Ok in H1 as [Htt ->]. exists t, team, actor. split_and!; try done. by rewrite Htt.
Qed.

Lemma get_team_Ok d i x : get_team_or_404 d i = Ok x → Directory.teams d !! i = Some x ∧ Team.is_active x = true.
Proof.
  unfold get_team_or_404. destruct (_ !! i) as [y|]; [|done]. destruct (Team.is_active y) eqn:E; [|done].
  by intros [= ->].
Qed.

Lemma get_user_Ok d i x : get_user_or_404 d i = Ok x → Directory.users d !! i = Some x ∧ User.is_active x = true.
Proof.
  unfold get_user_or_404. destruct (_ !! i) as [y|]; [|done]. destruct (User.is_active y) eqn:E; [|done].
  by intros [= ->].
Qed.

(** The ticket after a handler, through a column outside the service level *)
Lemma handled_column {A} (g : Ticket.t → A) i f e s s' r t :
  (∀ t, g (sla_core t) = g t) → handled i f e s s' r → ticket_at s i = Some t → g r = g (f t).
Proof.
  intros Hg Hh Ht. destruct (h_core _ _ _ _ _ _ Hh) as (t0 & Ht0 & Hc).
  rewrite Ht in Ht0. injection Ht0 as <-. by rewrite <- (Hg r), <- (Hg (f t)), Hc.
Qed.

(** an escalation that returns needed the capability and a visible ticket, and an
    active team of the actor's tenant.  It moves the ticket to that team, takes it from
    its assignee and sets it [escalated], with one [escalated] event.  It does not ask
    the transition table: a ticket in any status can be escalated, and a closed or
    canceled one keeps its time of closing and so is neither open nor closed by it. *)
Theorem escalation_effect i p user s r s' :
  sla_wf s → escalate_ticket i p user s = (Ok r, s') →
  ∃ t team actor, ticket_at s i = Some t ∧ ensure_can_escalate user (Some s) = Ok tt ∧
    ensure_ticket_visible user t (Some s) = Ok tt ∧
    Directory.teams (Db.dir s) !! TicketEscalateRequest.team_id p = Some team ∧
    Team.is_active team = true ∧
    resolve_actor_tenant_id (Db.dir s) user = Ok actor ∧
    is_ok (ensure_team_tenant (Db.dir s) actor team) = true ∧
    handled i (escalate_row team) (escalation_event i user p team t) s s' r ∧
    Ticket.status r = TicketStatus.escalated ∧ Ticket.assignee_id r = None ∧
    Ticket.team_id r = Some (Team.id team) ∧
    Ticket.closed_at r = Ticket.closed_at t ∧ Ticket.resolved_at r = Ticket.resolved_at t.
Proof.
  intros W H. destruct (escalate_split i p user s r s' H)
    as (t & team & actor & Ht & Hc & Hv & Hteam & Ha & Htt & Hf).
  apply get_team_Ok in Hteam as [Hteam Hact].
  destruct (finish_run i _ _ _ s r s' W ltac:(by exists t) (guarded_evaluate i) Hf) as [Hh _].
  exists t, team, actor. split_and!; try done.
  - exact (handled_column Ticket.status _ _ _ _ _ _ _ (fun _ => eq_refl) Hh Ht).
  - exact (handled_column Ticket.assignee_id _ _ _ _ _ _ _ (fun _ => eq_refl) Hh Ht).
  - exact (handled_column Ticket.team_id _ _ _ _ _ _ _ (fun _ => eq_refl) Hh Ht).
  - exact (handled_column Ticket.closed_at _ _ _ _ _ _ _ (fun _ => eq_refl) Hh Ht).
  - exact (handled_column Ticket.resolved_at _ _ _ _ _ _ _ (fun _ => eq_refl) Hh Ht).
Qed.

Definition reopen_steps (i : Z) (q : TicketPriority.t) : M Db.t unit :=
  apply_priority_policy i q;; resume_sla i None;; evaluate_sla i.

Lemma guarded_reopen_steps i q s0 : preserves (guarded i s0) (reopen_steps i q).
Proof. unfold reopen_steps. preserve; auto with nexus. Qed.

Lemma seq_assoc {A B C} (m : M Db.t unit) (f : M Db.t A) (g : M Db.t B) (k : M Db.t C) s :
  ((m;; f;; g);; k) s = (m;; f;; g;; k) s.
Proof.
  unfold mbind, M_bind. destruct (m s) as [[a|e] s1]; [|done]. by destruct (f s1) as [[b|e] s2].
Qed.

Lemma reopen_split i p user s r s' :
  reopen_ticket i p user s = (Ok r, s') →
  ∃ t, ticket_at s i = Some t ∧ ensure_ticket_visible user t (Some s) = Ok tt ∧
    Ticket.status t ∈ [TicketStatus.closed; TicketStatus.canceled; TicketStatus.resolved] ∧
    finish i (reopen_row p) (reopen_steps i (Ticket.priority t)) (reopen_event i user p t) s =
      (Ok r, s').
Proof.
  intros H. unfold reopen_ticket in H. apply bind_Ok_inv in H as (t & s1 & H1 & H).
  apply visible_ticket_Ok in H1 as (-> & Ht & Hv). apply bind_Ok_inv in H as ([] & s1 & H1 & H).
  apply require_Ok_inv in H1 as [Hst%bool_decide_eq_true ->]. exists t. split_and!; try done.
  rewrite (bind_run_Ok _ _ _ _ _ (set_ticket_run _ _ _)) in H. unfold finish.
  rewrite (bind_run_Ok _ _ _ _ _ (set_ticket_run _ _ _)), <- H. apply seq_assoc.
Qed.

Lemma reopen_steps_unpaused i q s a s' :
  sla_wf s → is_Some (ticket_at s i) → reopen_steps i q s = (Ok a, s') →
  in_step i s' ∧ find_open_pause s' i = None.
Proof.
  intros W Hex H. unfold reopen_steps in H. apply bind_Ok_inv in H as ([] & s1 & H1 & H).
  apply bind_Ok_inv in H as (o & s2 & H2 & H).
  pose proof (guarded_step i _ _ _ _ (fun s0 => guarded_priority_policy i q s0) W H1) as G.
  pose proof (resume_hoare i None s1 (guarded_exists i s s1 G Hex) s1 (guarded_refl i s1 (proj1 G))) as Hr.
  rewrite H2 in Hr. destruct Hr as [_ [Hin Ho]].
  pose proof (preserves_run _ _ _ _ _ (in_step_evaluate i) Hin H) as Hin'.
  pose proof (preserves_run _ _ _ _ _ (pauses_evaluate (Db.pauses s2) i) eq_refl H) as Hx.
  split; [done|]. by rewrite (pauses_find s2 s' i Hx).
Qed.

(** a reopening that returns started from a resolved, closed or canceled ticket the
    caller sees.  It counts the reopening, clears the times of resolution and closing, and
    puts the ticket back [in_progress] with its assignee when the request asks for that
    and there is one, else [pending_assignment] without assignee; no pause stays open.
    The team is what it was, whatever [restore_team] says. *)
Theorem reopen_effect i p user s r s' :
  sla_wf s → reopen_ticket i p user s = (Ok r, s') →
  ∃ t, ticket_at s i = Some t ∧ ensure_ticket_visible user t (Some s) = Ok tt ∧
    Ticket.status t ∈ [TicketStatus.closed; TicketStatus.canceled; TicketStatus.resolved] ∧
    handled i (reopen_row p) (reopen_event i user p t) s s' r ∧
    Ticket.reopen_count r = Ticket.reopen_count t + 1 ∧
    Ticket.closed_at r = None ∧ Ticket.resolved_at r = None ∧
    Ticket.team_id r = Ticket.team_id t ∧
    (let back := TicketReopenRequest.assign_to_previous p && truthy_id (Ticket.assignee_id t) in
     Ticket.status r = (if back then TicketStatus.in_progress
                        else TicketStatus.pending_assignment) ∧
     Ticket.assignee_id r = (if back then Ticket.assignee_id t else None)) ∧
    find_open_pause s' i = None ∧ in_step i s'.
Proof.
  intros W H. destruct (reopen_split i p user s r s' H) as (t & Ht & Hv & Hst & Hf).
  destruct (finish_run i _ _ _ s r s' W ltac:(by exists t) (guarded_reopen_steps i _) Hf)
    as [Hh (a & s1 & Hm & ->)].
  assert (∀ A (g : Ticket.t → A), (∀ t, g (sla_core t) = g t) → g r = g (reopen_row p t)) as Hcol
    by (intros A g Hg; by apply (handled_column g i (reopen_row p) _ _ _ _ t Hg Hh)).
  assert (is_Some (ticket_at (put i (reopen_row p) s) i)) as Hex
    by (exists (reopen_row p t); by rewrite put_at, decide_True, Ht).
  destruct (reopen_steps_unpaused i _ _ _ _ (wf_put i _ s W) Hex Hm) as [Hin Ho].
  exists t. split_and!; try done.
  - exact (Hcol _ Ticket.reopen_count (fun _ => eq_refl)).
  - exact (Hcol _ Ticket.closed_at (fun _ => eq_refl)).
  - exact (Hcol _ Ticket.resolved_at (fun _ => eq_refl)).
  - rewrite (Hcol _ Ticket.team_id (fun _ => eq_refl)). cbn. by destruct (_ && _).
  - split; [exact (Hcol _ Ticket.status (fun _ => eq_refl)) |
      exact (Hcol _ Ticket.assignee_id (fun _ => eq_refl))].
Qed.

(** The assignee and the team that a request may name: active, of the actor's tenant, the
    assignee a member of the team when there is one *)
Definition staffed (d : Directory.t) (actor : option Z) (x : option User.t * option Team.t) : Prop :=
  (∀ u, fst x = Some u → Directory.users d !! User.id u = Some u ∧ User.is_active u = true ∧
     is_ok (ensure_user_tenant d actor u) = true) ∧
  (∀ y, snd x = Some y → Directory.teams d !! Team.id y = Some y ∧ Team.is_active y = true ∧
     is_ok (ensure_team_tenant d actor y) = true) ∧
  (∀ u y, x = (Some u, Some y) → User.team_id u = Some (Team.id y)).

Definition people_keyed (d : Directory.t) : Prop := keyed (Directory.users d) ∧ keyed (Directory.teams d).

Lemma found_Ok {A} (get : Z → result A) id o :
  found get id = Ok o →
  match o with Some a => ∃ i, id = Some i ∧ get i = Ok a | None => id = None end.
Proof.
  unfold found. destruct id as [i|]; [|by intros [= <-]].
  intros (a & Ha & [= <-])%result_bind_Ok. by exists i.
Qed.

Lemma validate_Ok d a t fb actor x :
  people_keyed d → validate_assignee_team d a t fb actor = Ok x →
  staffed d actor x ∧ User.id <$> fst x = a ∧ Team.id <$> snd x = effective_team_id t fb.
Proof.
  intros [Hu Ht] H. unfold validate_assignee_team in H.
  apply result_bind_Ok in H as (team & H1 & H). apply result_bind_Ok in H as (assignee & H2 & H).
  apply result_seq_Ok in H as [H3 H]. apply result_seq_Ok in H as [H4 H].
  assert (x = (assignee, team) ∧ ∀ u y, assignee = Some u → team = Some y → User.team_id u = Some (Team.id y))
    as [-> Hm].
  { destruct assignee as [u|], team as [y|]; try (injection H as <-; split; [done|intros; congruence]).
    case_bool_decide as E; [|done]. injection H as <-. split; [done|]. by intros ? ? [= <-] [= <-]. }
  apply found_Ok in H1, H2. unfold staffed. cbn [fst snd]. split_and!.
  - intros u ->. destruct H2 as (i & -> & Hi). apply get_user_Ok in Hi as [Hi Hact].
    pose proof (Hu i u Hi) as Hid. change (User.id u = i) in Hid. rewrite Hid.
    split_and!; [done | done |]. destruct (ensure_user_tenant _ _ _); done.
  - intros y ->. destruct H1 as (i & _ & Hi). apply get_team_Ok in Hi as [Hi Hact].
    pose proof (Ht i y Hi) as Hid. change (Team.id y = i) in Hid. rewrite Hid.
    split_and!; [done | done |]. destruct (ensure_team_tenant _ _ _); done.
  - intros u y [= -> ->]. by apply Hm.
  - destruct assignee as [u|]; [|by symmetry]. destruct H2 as (i & -> & Hi).
    apply get_user_Ok in Hi as [Hi _]. cbn. f_equal. by apply (Hu i u).
  - destruct team as [y|]; [|by symmetry]. destruct H1 as (i & -> & Hi).
    apply get_team_Ok in Hi as [Hi _]. cbn. f_equal. by apply (Ht i y).
Qed.

Lemma assign_split i p user s r s' :
  assign_ticket i p user s = (Ok r, s') →
  ∃ t actor x, ticket_at s i = Some t ∧ ensure_can_assign user (Some s) = Ok tt ∧
    ensure_ticket_visible user t (Some s) = Ok tt ∧
    resolve_actor_tenant_id (Db.dir s) user = Ok actor ∧
    validate_assignee_team (Db.dir s) (TicketAssignRequest.assignee_id p)
      (TicketAssignRequest.team_id p) (Ticket.team_id t) actor = Ok x ∧
    finish i (assign_row (fst x) (snd x)) (mret tt)
      (assignment_event i user p t (assign_row (fst x) (snd x) t) (fst x) (snd x)) s = (Ok r, s').
Proof.
  intros H. unfold assign_ticket in H. apply bind_Ok_inv in H as ([] & s1 & H1 & H).
  apply check_Ok in H1 as [Hc ->]. apply bind_Ok_inv in H as (t & s1 & H1 & H).
  apply visible_ticket_Ok in H1 as (-> & Ht & Hv). apply bind_Ok_inv in H as (d & s1 & H1 & H).
  injection H1 as <- <-. apply bind_Ok_inv in H as (actor & s1 & H1 & H).
  apply lift_Ok in H1 as [Ha ->]. apply bind_Ok_inv in H as (x & s1 & H1 & H).
  apply lift_Ok in H1 as [Hx ->]. exists t, actor, x. split_and!; try done.
  apply bind_Ok_inv in H as ([] & s1 & H1 & H). rewrite set_ticket_run in H1. injection H1 as <-.
  apply bind_Ok_inv in H as (after & s1 & H1 & H). apply the_ticket_Ok in H1 as [-> Hafter].
  rewrite put_at, decide_True, Ht in Hafter by done. injection Hafter as <-.
  unfold finish. by rewrite (bind_run_Ok _ _ _ _ _ (set_ticket_run _ _ _)).
Qed.

(** an assignment that returns gives the ticket people who may work on it: the
    assignee, if one is named, is an active user of the actor's tenant, and a member of the
    ticket's team whenever the ticket has one after the call; the team is an active team of
    the tenant, the requested one or the one the ticket had.  A ticket that was waiting for
    an assignment starts to be worked on exactly when it gets an assignee; every other
    status stays. *)
Theorem assignment_effect i p user s r s' :
  sla_wf s → people_keyed (Db.dir s) → assign_ticket i p user s = (Ok r, s') →
  ∃ t actor assignee team, ticket_at s i = Some t ∧
    resolve_actor_tenant_id (Db.dir s) user = Ok actor ∧
    ensure_can_assign user (Some s) = Ok tt ∧ ensure_ticket_visible user t (Some s) = Ok tt ∧
    staffed (Db.dir s) actor (assignee, team) ∧
    handled i (assign_row assignee team)
      (assignment_event i user p t (assign_row assignee team t) assignee team) s s' r ∧
    Ticket.assignee_id r = TicketAssignRequest.assignee_id p ∧
    Ticket.team_id r = effective_team_id (TicketAssignRequest.team_id p) (Ticket.team_id t) ∧
    (∀ a x, Ticket.assignee_id r = Some a → Ticket.team_id r = Some x →
       ∃ u, Directory.users (Db.dir s) !! a = Some u ∧ User.team_id u = Some x) ∧
    Ticket.status r =
      (if bool_decide (Ticket.status t ∈ [TicketStatus.new; TicketStatus.pending_assignment]) &&
          truthy_id (Ticket.assignee_id r)
       then TicketStatus.in_progress else Ticket.status t).
Proof.
  intros W Hk H. destruct (assign_split i p user s r s' H) as (t & actor & [u y] & Ht & Hc & Hv & Ha & Hx & Hf).
  apply (validate_Ok _ _ _ _ _ _ Hk) in Hx as (Hst & Hu & Hy).
  destruct (finish_run i _ _ _ s r s' W ltac:(by exists t)
    (fun s0 => preserves_ret (guarded i s0) tt) Hf) as [Hh _].
  cbn [fst snd] in *.
  assert (∀ A (g : Ticket.t → A), (∀ t, g (sla_core t) = g t) → g r = g (assign_row u y t)) as Hcol
    by (intros A g Hg; by apply (handled_column g i (assign_row u y) _ _ _ _ t Hg Hh)).
  assert (Ticket.assignee_id r = TicketAssignRequest.assignee_id p) as Ea.
  { rewrite (Hcol _ Ticket.assignee_id (fun _ => eq_refl)), <- Hu. unfold assign_row. by destruct (_ && _). }
  assert (Ticket.team_id r = effective_team_id (TicketAssignRequest.team_id p) (Ticket.team_id t)) as Et.
  { rewrite (Hcol _ Ticket.team_id (fun _ => eq_refl)), <- Hy.
    transitivity (match y with Some x => Some (Team.id x) | None => Ticket.team_id t end);
      [unfold assign_row; by destruct (_ && _) | destruct y as [y|]; [done|]].
    unfold effective_team_id in Hy. by destruct (TicketAssignRequest.team_id p), (Ticket.team_id t). }
  exists t, actor, u, y. split_and!; try done.
  - intros a x E1 E2. rewrite Ea, <- Hu in E1. rewrite Et, <- Hy in E2.
    destruct u as [u|]; [|done]. destruct y as [y|]; [|done]. injection E1 as <-. injection E2 as <-.
    destruct Hst as (Hst & _ & Hm). exists u. split; [by apply Hst | by apply Hm].
  - rewrite Ea, <- Hu, (Hcol _ Ticket.status (fun _ => eq_refl)). unfold assign_row. cbn.
    by destruct (_ && _).
Qed.

(** ** Field updates and their audit trail *)

(** The value a field has after the loop, and the events of the loop *)
Definition updated_value (p : TicketUpdate.t) (t : Ticket.t) (field : string) : option FieldValue :=
  match requested p field with Some v => Some v | None => current t field end.

Definition field_change (i : Z) (user : User.t) (p : TicketUpdate.t) (t : Ticket.t) (field : string)
    : option TicketEvent.t :=
  match requested p field with
  | Some v => if bool_decide (current t field = Some v) then None
              else Some (field_event i user field (current t field) v)
  | None => None
  end.

Definition field_changes (i : Z) (user : User.t) (p : TicketUpdate.t) (t : Ticket.t)
    (fields : list string) : list TicketEvent.t := omap (field_change i user p t) fields.

(** The ticket after one iteration and after the loop *)
Definition apply_field (p : TicketUpdate.t) (t : Ticket.t) (f : string) : Ticket.t :=
  match requested p f with
  | Some v => if bool_decide (current t f = Some v) then t else assign_field f v t
  | None => t
  end.
Definition apply_fields (p : TicketUpdate.t) (fields : list string) (t : Ticket.t) : Ticket.t :=
  foldl (apply_field p) t fields.

Lemma requested_assign p f v t g :
  requested p f = Some v →
  current (assign_field f v t) g = if decide (g = f) then Some v else current t g.
Proof.
  unfold requested, current. intros H.
  destruct (decide (f = "resolution_category")) as [->|H1].
  { destruct (TicketUpdate.resolution_category p) as [c|]; [|done]. injection H as <-. cbn.
    repeat (case_decide; subst; try done). }
  destruct (decide (f = "market_id")) as [->|H2].
  { destruct (TicketUpdate.market_id p) as [c|]; [|done]. injection H as <-. cbn.
    repeat (case_decide; subst; try done). }
  destruct (TicketUpdate.texts p !! f) as [c|]; [|done]. injection H as <-. cbn.
  repeat (case_decide; subst; try done).
  - by rewrite lookup_insert_eq.
  - by rewrite lookup_insert_ne.
Qed.

Lemma apply_field_same p t f : current (apply_field p t f) f = updated_value p t f.
Proof.
  unfold apply_field, updated_value. destruct (requested p f) as [v|] eqn:Er; [|done].
  case_bool_decide; [done|]. rewrite (requested_assign p f v t f Er). by rewrite decide_True.
Qed.

Lemma apply_field_other p t f g : g ≠ f → current (apply_field p t f) g = current t g.
Proof.
  intros Hg. unfold apply_field. destruct (requested p f) as [v|] eqn:Er; [|done].
  case_bool_decide; [done|]. rewrite (requested_assign p f v t g Er). by rewrite decide_False.
Qed.

Lemma apply_fields_current p fields t g :
  NoDup fields →
  current (apply_fields p fields t) g =
    if decide (g ∈ fields) then updated_value p t g else current t g.
Proof.
  revert t. induction fields as [|f fields IH]; intros t; [done|].
  intros [Hf Hn]%list.NoDup_cons. change (apply_fields p (f :: fields) t)
    with (apply_fields p fields (apply_field p t f)). rewrite IH by done. unfold updated_value.
  destruct (decide (g = f)) as [->|Hg].
  - rewrite decide_False by done. rewrite decide_True by by left. apply apply_field_same.
  - rewrite (apply_field_other p t f g Hg). destruct (decide (g ∈ fields)) as [Hin|Hin].
    + by rewrite decide_True by by right.
    + rewrite decide_False; [done|]. intros [?|?]%elem_of_cons; done.
Qed.

Definition add_events (es : list TicketEvent.t) (s : Db.t) : Db.t :=
  s <| Db.events ::= fun l => l ++ es |>.

Lemma add_events_put i f es s : put i f (add_events es s) = add_events es (put i f s).
Proof. unfold put, set_ticket, modify, add_events. cbn. change (ticket_at (alter_field _ _ s) i) with (ticket_at s i). by destruct (ticket_at s i). Qed.

Lemma add_events_app es es' s : add_events es' (add_events es s) = add_events (es ++ es') s.
Proof. unfold add_events, alter_field. cbn. by rewrite app_assoc. Qed.

Lemma add_events_nil s : add_events [] s = s.
Proof. unfold add_events, alter_field. cbn. rewrite app_nil_r. by destruct s. Qed.

Definition updated_row (i : Z) (user : User.t) (p : TicketUpdate.t) (t : Ticket.t)
    (fields : list string) (s : Db.t) : Db.t :=
  add_events (field_changes i user p t fields) (put i (apply_fields p fields) s).

Lemma put_ext i f g s : (∀ t, ticket_at s i = Some t → f t = g t) → put i f s = put i g s.
Proof.
  intros H. unfold put, set_ticket, modify. cbn. destruct (ticket_at s i) as [t|]; [|done].
  by rewrite (H t).
Qed.

Lemma updated_row_nothing i f s : (∀ t, ticket_at s i = Some t → f t = t) → add_events [] (put i f s) = s.
Proof. intros H. rewrite add_events_nil, (put_ext i f id s H). apply put_id. Qed.

Lemma update_field_run i user p t f s :
  ticket_at s i = Some t →
  update_field i user p f s =
    (Ok (not_null (field_change i user p t f)), updated_row i user p t [f] s).
Proof.
  intros Ht. unfold update_field.
  assert (the_ticket i s = (Ok t, s)) as Hr by (unfold the_ticket; by rewrite Ht).
  rewrite (bind_run_Ok _ _ _ _ _ Hr). unfold updated_row, field_changes, field_change, apply_fields.
  cbn [foldl omap list_omap]. unfold apply_field.
  destruct (requested p f) as [v|] eqn:Er; [|rewrite updated_row_nothing by done; done].
  case_bool_decide as Ev; cbn [not_null].
  - rewrite updated_row_nothing; [done|]. intros t0 Ht0.
    by rewrite bool_decide_eq_true_2 by congruence.
  - rewrite (bind_run_Ok _ _ _ _ _ (set_ticket_run _ _ _)).
    set (es := [field_event i user f (current t f) v]).
    change ((@Ok bool true, add_events es (put i (assign_field f v) s)) = (@Ok bool true, add_events es
      (put i (fun t0 => if bool_decide (current t0 f = Some v) then t0 else assign_field f v t0) s))).
    do 2 f_equal. apply put_ext. intros t0 Ht0. by rewrite bool_decide_eq_false_2 by congruence.
Qed.

(** An earlier change of another field does not show in the event of a later one. *)
Lemma field_changes_after i user p t f fields :
  f ∉ fields → field_changes i user p (apply_field p t f) fields = field_changes i user p t fields.
Proof.
  intros Hf. unfold field_changes. induction fields as [|g fields IH]; [done|].
  apply not_elem_of_cons in Hf as [Hg Hf].
  assert (field_change i user p (apply_field p t f) g = field_change i user p t g) as E
    by (unfold field_change; by rewrite (apply_field_other p t f g) by done).
  cbn [omap list_omap]. by rewrite E, (IH Hf).
Qed.

(** The loop never fails and computes the row and the events in one pass. *)
Lemma update_fields_run i user p t fields s :
  NoDup fields → ticket_at s i = Some t →
  update_fields i user p fields s =
    (Ok (negb (bool_decide (field_changes i user p t fields = []))), updated_row i user p t fields s).
Proof.
  revert s t. induction fields as [|f fields IH]; intros s t.
  { intros _ Ht. unfold updated_row. by rewrite updated_row_nothing. }
  intros [Hf Hn]%list.NoDup_cons Ht. cbn [update_fields].
  rewrite (bind_run_Ok _ _ _ _ _ (update_field_run i user p t f s Ht)).
  assert (ticket_at (updated_row i user p t [f] s) i = Some (apply_field p t f)) as Ht1.
  { change (ticket_at (put i (apply_fields p [f]) s) i = Some (apply_field p t f)).
    by rewrite put_at, decide_True, Ht. }
  rewrite (bind_run_Ok _ _ _ _ _ (IH _ _ Hn Ht1)). unfold mret, M_ret. f_equal.
  - rewrite field_changes_after by done. unfold field_changes. cbn.
    by destruct (field_change i user p t f).
  - unfold updated_row. rewrite add_events_put, add_events_app, put_put, field_changes_after by done.
    unfold field_changes. cbn. by destruct (field_change i user p t f).
Qed.

Definition priority_changes (i : Z) (user : User.t) (q : option TicketPriority.t) (t : Ticket.t)
    : list TicketEvent.t :=
  match q with
  | Some q => if bool_decide (Ticket.priority t = q) then []
              else [priority_event i user (Ticket.priority t) q]
  | None => []
  end.

Definition with_priority (q : option TicketPriority.t) (t : Ticket.t) : Ticket.t :=
  t <| Ticket.priority := default (Ticket.priority t) q |>.

Definition breaches_only (i : Z) (bs : list TicketEvent.t) : Prop :=
  Forall (fun x => x = first_breach i ∨ x = resolution_breach i) bs.

(** What a step of the update does to everything but the fields *)
Record stepped (i : Z) (f : Ticket.t → Ticket.t) (es : list TicketEvent.t) (s s' : Db.t) : Prop := {
  st_core : sla_core <$> ticket_at s' i = sla_core <$> (f <$> ticket_at s i);
  st_others : ∀ j, j ≠ i → ticket_at s' j = ticket_at s j;
  st_rest : sla_rest s' = sla_rest s;
  st_log : ∃ bs, Db.events s' = Db.events s ++ bs ++ es ∧ breaches_only i bs;
  st_wf : sla_wf s'
}.

Lemma stepped_refl i s : sla_wf s → stepped i id [] s s.
Proof.
  intros W. split; [by destruct (ticket_at s i) | done | done | | done].
  exists []. split; [by rewrite !app_nil_r | constructor].
Qed.

Lemma handled_stepped i f e s s' r t :
  ticket_at s i = Some t → handled i f e s s' r → stepped i f [e] s s'.
Proof.
  intros Ht [H1 (t0 & Ht0 & H2) H3 H4 H5 H6]. split; try done.
  rewrite H1, Ht. rewrite Ht in Ht0. injection Ht0 as <-.
  change (Some (sla_core r) = Some (sla_core (f t))). congruence.
Qed.

Lemma with_priority_same q t : q = None ∨ q = Some (Ticket.priority t) → with_priority q t = t.
Proof. intros [-> | ->]; by destruct t. Qed.

Lemma update_priority_run i user q s t b s' :
  sla_wf s → ticket_at s i = Some t → update_priority i user q s = (Ok b, s') →
  stepped i (with_priority q) (priority_changes i user q t) s s' ∧
  b = negb (bool_decide (priority_changes i user q t = [])) ∧ (b = false → s' = s).
Proof.
  intros W Ht H. unfold update_priority in H.
  assert (the_ticket i s = (Ok t, s)) as Hr by (unfold the_ticket; by rewrite Ht).
  rewrite (bind_run_Ok _ _ _ _ _ Hr) in H.
  assert (q = None ∨ q = Some (Ticket.priority t) → (Ok b, s') = (Ok false, s) →
    stepped i (with_priority q) [] s s' ∧ b = false ∧ (b = false → s' = s)) as Hsame.
  { intros Hq [= -> ->]. split_and!; try done. destruct (stepped_refl i s W) as [H1 H2 H3 H4 H5].
    split; try done. rewrite Ht. change (Some (sla_core t) = Some (sla_core (with_priority q t))).
    by rewrite with_priority_same. }
  unfold priority_changes. destruct q as [q|]; [|by apply Hsame; [left | ]].
  case_bool_decide as E; [subst q; by apply Hsame; [right |]|].
  apply bind_Ok_inv in H as ([] & s1 & H1 & H). rewrite set_ticket_run in H1. injection H1 as <-.
  apply bind_Ok_inv in H as ([] & s2 & H2 & H). apply bind_Ok_inv in H as ([] & s3 & H3 & H).
  rewrite log_event_run in H3. injection H3 as <-. injection H as <- <-.
  pose proof (guarded_step i _ _ _ _ (fun s0 => guarded_priority_policy i q s0)
    (wf_put i _ s W) H2) as G.
  assert (∃ r, ticket_at s2 i = Some r) as [r Hr2].
  { apply (guarded_exists i _ s2 G). rewrite put_at, decide_True, Ht by done. by eexists. }
  split_and!; [| done | done].
  apply (handled_stepped i (with_priority (Some q)) _ s _ r t Ht).
  by apply (handled_intro i (fun t => t <| Ticket.priority := q |>)); [by exists t | |].
Qed.

Definition tag_changes (i : Z) (user : User.t) (tag_ids : option (list Z)) : list TicketEvent.t :=
  match tag_ids with
  | None => []
  | Some ids => [event i user EventType.field_updated [("tag_ids", jnums ids)]
                   <| TicketEvent.field_name := Some "tags" |>
                   <| TicketEvent.note := Some "Tags updated" |>]
  end.

(** The tag links after a request: those of other tickets, and the requested ones *)
Definition retagged (i : Z) (tag_ids : option (list Z)) (l : list (Z * Z)) : list (Z * Z) :=
  match tag_ids with
  | None => l
  | Some ids => filter (fun x : Z * Z => fst x ≠ i) l ++ (pair i <$> ids)
  end.

Lemma attach_tags_run i ids s s' :
  attach_tags i ids s = (Ok tt, s') →
  s' = s <| Db.ticket_tags ::= retagged i (Some ids) |> ∧ NoDup ids ∧ Forall (.∈ Db.tags s) ids.
Proof.
  intros H. unfold attach_tags in H. apply bind_Ok_inv in H as ([] & s1 & H1 & H).
  injection H1 as <-. destruct ids as [|x ids].
  - injection H as <-. split; [|split; constructor]. unfold alter_field. cbn. by rewrite app_nil_r.
  - apply bind_Ok_inv in H as (s2 & s3 & H2 & H). injection H2 as <- <-.
    apply bind_Ok_inv in H as ([] & s3 & H3 & H). apply require_Ok_inv in H3 as [Hm%bool_decide_eq_true ->].
    apply bind_Ok_inv in H as ([] & s3 & H3 & H). apply require_Ok_inv in H3 as [Hn%bool_decide_eq_true ->].
    injection H as <-. split; [done|]. split; [done|]. unfold missing_tags in Hm.
    apply sort_by_nil in Hm. apply list.Forall_forall. intros y Hy.
    destruct (decide (y ∈ Db.tags s)) as [?|Hy']; [done|]. exfalso.
    apply (elem_of_nil y). rewrite <- Hm. apply elem_of_elements.
    apply elem_of_difference. split; [by apply elem_of_list_to_set | exact Hy'].
Qed.

Lemma update_tags_run i user tag_ids s b s' :
  update_tags i user tag_ids s = (Ok b, s') →
  s' = add_events (tag_changes i user tag_ids) (s <| Db.ticket_tags ::= retagged i tag_ids |>) ∧
  b = negb (bool_decide (tag_changes i user tag_ids = [])).
Proof.
  intros H. unfold update_tags in H. destruct tag_ids as [ids|].
  - apply bind_Ok_inv in H as ([] & s1 & H1 & H). apply attach_tags_run in H1 as [-> _].
    apply bind_Ok_inv in H as ([] & s2 & H2 & H). rewrite log_event_run in H2. injection H2 as <-.
    injection H as <- <-. done.
  - injection H as <- <-. split; [|done]. cbn. rewrite add_events_nil. by destruct s.
Qed.

Lemma updatable_nodup : NoDup updatable.
Proof. apply (bool_decide_unpack _). vm_compute. exact I. Qed.

Lemma update_split i p user s r s' :
  update_ticket i p user s = (Ok r, s') →
  ∃ t b1 b2 s1 s2, ticket_at s i = Some t ∧ ensure_ticket_visible user t (Some s) = Ok tt ∧
    ensure_can_update_core_fields user (Some s) = Ok tt ∧
    update_priority i user (TicketUpdate.priority p) (updated_row i user p t updatable s) =
      (Ok b1, s1) ∧
    update_tags i user (TicketUpdate.tag_ids p) s1 = (Ok b2, s2) ∧
    (if negb (bool_decide (field_changes i user p t updatable = [])) || b1 || b2
     then ∃ now n, s' = put i (fun t => t <| Ticket.updated_at := now |>) (s2 <| Db.ticks := n |>)
     else s' = s2) ∧ ticket_at s' i = Some r.
Proof.
  intros H. unfold update_ticket in H. apply bind_Ok_inv in H as (t & s1 & H1 & H).
  apply visible_ticket_Ok in H1 as (-> & Ht & Hv). apply bind_Ok_inv in H as ([] & s1 & H1 & H).
  apply check_Ok in H1 as [Hc ->]. apply bind_Ok_inv in H as (d & s1 & H1 & H).
  injection H1 as <- <-. apply bind_Ok_inv in H as (actor & s1 & H1 & H).
  apply lift_Ok in H1 as [_ ->]. apply bind_Ok_inv in H as ([] & s1 & H1 & H).
  apply lift_Ok in H1 as [_ ->].
  rewrite (bind_run_Ok _ _ _ _ _ (update_fields_run i user p t updatable s updatable_nodup Ht)) in H.
  apply bind_Ok_inv in H as (b1 & s1 & H1 & H). apply bind_Ok_inv in H as (b2 & s2 & H2 & H).
  apply bind_Ok_inv in H as ([] & s3 & H3 & H). apply the_ticket_Ok in H as [-> Hr].
  exists t, b1, b2, s1, s2. split_and!; try done.
  destruct (_ || _ || b2).
  - apply bind_Ok_inv in H3 as (now & s4 & Hn & H3). injection Hn as <- <-.
    rewrite set_ticket_run in H3. injection H3 as <-. by eexists _, _.
  - by injection H3 as <-.
Qed.

(** A ticket without the columns an update may write *)
Definition update_rest (t : Ticket.t) : Ticket.t :=
  sla_core t <| Ticket.texts := ∅ |> <| Ticket.resolution_category := ResolutionCategory.none |>
    <| Ticket.market_id := None |> <| Ticket.priority := TicketPriority.low |>
    <| Ticket.updated_at := 0 |>.

Lemma update_rest_core t t' : sla_core t = sla_core t' → update_rest t = update_rest t'.
Proof. unfold update_rest. by intros ->. Qed.

Lemma current_core t f : current (sla_core t) f = current t f.
Proof. done. Qed.

Lemma update_rest_priority q t : update_rest (with_priority q t) = update_rest t.
Proof. by destruct t. Qed.
Lemma update_rest_touch t u : update_rest (t <| Ticket.updated_at := u |>) = update_rest t.
Proof. by destruct t. Qed.

Lemma apply_fields_rest p l t :
  update_rest (apply_fields p l t) = update_rest t ∧
  Ticket.priority (apply_fields p l t) = Ticket.priority t.
Proof.
  revert t. induction l as [|f l IH]; [done|].
  intros t. change (apply_fields p (f :: l) t) with (apply_fields p l (apply_field p t f)).
  destruct (IH (apply_field p t f)) as [-> ->]. unfold apply_field.
  destruct (requested p f) as [[]|]; [..|done]; by case_bool_decide.
Qed.

Lemma priority_changes_same i user q t t' :
  Ticket.priority t = Ticket.priority t' → priority_changes i user q t = priority_changes i user q t'.
Proof. unfold priority_changes. by intros ->. Qed.

Lemma wf_events es s : sla_wf s → sla_wf (add_events es s).
Proof. intros W. by destruct W; split. Qed.

(** The last write, of the time of the update, keeps the rest. *)
Lemma touched_inv (i : Z) (b : bool) s1 g s' r :
  (if b then ∃ now n, s' = put i (fun t => t <| Ticket.updated_at := now |>) (g s1 <| Db.ticks := n |>)
   else s' = g s1) →
  ticket_at s' i = Some r →
  (∀ s, Db.tickets (g s) = Db.tickets s) →
  ∃ r1 u, ticket_at s1 i = Some r1 ∧ r = r1 <| Ticket.updated_at := u |> ∧
    (∀ j, j ≠ i → ticket_at s' j = ticket_at s1 j) ∧
    Db.events s' = Db.events (g s1) ∧ sla_rest s' = sla_rest (g s1).
Proof.
  intros H Hr Hg. assert (∀ s j, ticket_at (g s) j = ticket_at s j) as Hat
    by (intros s j; unfold ticket_at; by rewrite Hg).
  destruct b.
  - destruct H as (now & n & ->). rewrite put_at, decide_True in Hr by done.
    change (ticket_at (g s1 <| Db.ticks := n |>) i) with (ticket_at (g s1) i) in Hr. rewrite Hat in Hr.
    destruct (ticket_at s1 i) as [r1|]; [|done]. injection Hr as <-. exists r1, now.
    split_and!; [done | done | | |].
    + intros j Hj. rewrite put_at, decide_False by done.
      change (ticket_at (g s1 <| Db.ticks := n |>) j) with (ticket_at (g s1) j). rewrite Hat.
      by destruct (ticket_at s1 j).
    + by rewrite put_events.
    + by rewrite put_rest.
  - subst s'. rewrite Hat in Hr. exists r, (Ticket.updated_at r). split_and!; try done. by destruct r.
Qed.

Lemma tag_rest es i tags s s0 :
  sla_rest s = sla_rest s0 →
  sla_rest (add_events es (s <| Db.ticket_tags ::= retagged i tags |>)) =
    sla_rest (s0 <| Db.ticket_tags ::= retagged i tags |>).
Proof.
  intros H. change (sla_rest s <| Db.ticket_tags ::= retagged i tags |> =
    sla_rest s0 <| Db.ticket_tags ::= retagged i tags |>). by rewrite H.
Qed.

Lemma no_changes i user p t l : field_changes i user p t l = [] → apply_fields p l t = t.
Proof.
  induction l as [|f l IH]; [done|]. unfold field_changes. cbn [omap list_omap].
  change (apply_fields p (f :: l) t) with (apply_fields p l (apply_field p t f)).
  unfold field_change, apply_field. destruct (requested p f) as [v|]; [|exact IH].
  case_bool_decide; [exact IH | done].
Qed.

(** C4: the audit trail of an update.  When it returns, every field of the update list has
    the requested value or, without one, its old value; the priority and the tag links
    follow the request; nothing else of the ticket changes but its service level and the
    time of the update, nor anything of another ticket.  The events it adds are, in the
    order of the list, one per field whose value differs, with the old and the new value,
    then breach events, then one for a different priority and one for the tags: the trail
    records exactly the changes.  An update without an event leaves the row as it was. *)
Theorem update_audit_trail i p user s r s' :
  sla_wf s → update_ticket i p user s = (Ok r, s') →
  ∃ t bs, ticket_at s i = Some t ∧ ticket_at s' i = Some r ∧
    ensure_ticket_visible user t (Some s) = Ok tt ∧
    ensure_can_update_core_fields user (Some s) = Ok tt ∧
    (∀ f, current r f = if decide (f ∈ updatable) then updated_value p t f else current t f) ∧
    Ticket.priority r = default (Ticket.priority t) (TicketUpdate.priority p) ∧
    update_rest r = update_rest t ∧
    Db.events s' = Db.events s ++ field_changes i user p t updatable ++ bs ++
      priority_changes i user (TicketUpdate.priority p) t ++
      tag_changes i user (TicketUpdate.tag_ids p) ∧ breaches_only i bs ∧
    sla_rest s' = sla_rest (s <| Db.ticket_tags ::= retagged i (TicketUpdate.tag_ids p) |>) ∧
    (∀ j, j ≠ i → ticket_at s' j = ticket_at s j) ∧
    (Db.events s' = Db.events s → r = t).
Proof.
  intros W H. destruct (update_split i p user s r s' H)
    as (t & b1 & b2 & s1 & s2 & Ht & Hv & Hc & H1 & H2 & Hlast & Hr).
  set (t1 := apply_fields p updatable t). set (fs := field_changes i user p t updatable) in *.
  set (s0 := updated_row i user p t updatable s) in *.
  assert (ticket_at s0 i = Some t1) as Ht1.
  { change (ticket_at (put i (apply_fields p updatable) s) i = Some t1).
    by rewrite put_at, decide_True, Ht. }
  assert (sla_wf s0) as W0 by by apply wf_events, wf_put.
  destruct (apply_fields_rest p updatable t) as [Hrest Hprio]. fold t1 in Hrest, Hprio.
  destruct (update_priority_run i user _ s0 t1 b1 s1 W0 Ht1 H1) as ([C1 O1 R1 (bs & E1 & B1) W1] & Eb1 & K1).
  rewrite (priority_changes_same _ _ _ t1 t Hprio) in *.
  apply update_tags_run in H2 as [-> Eb2].
  destruct (touched_inv i _ s1 (fun s1 => add_events (tag_changes i user (TicketUpdate.tag_ids p))
    (s1 <| Db.ticket_tags ::= retagged i (TicketUpdate.tag_ids p) |>)) s' r Hlast Hr (fun _ => eq_refl))
    as (r1 & u & Hr1 & -> & Ho & He & Hrr).
  rewrite Ht1, Hr1 in C1. change (Some (sla_core r1) = Some (sla_core (with_priority (TicketUpdate.priority p) t1))) in C1.
  apply (inj Some) in C1.
  assert (Db.events s' = Db.events s ++ fs ++ bs ++ priority_changes i user (TicketUpdate.priority p) t ++
    tag_changes i user (TicketUpdate.tag_ids p)) as Hev.
  { change (Db.events s' = Db.events s1 ++ tag_changes i user (TicketUpdate.tag_ids p)) in He.
    rewrite He, E1. change (Db.events s0) with (Db.events (put i (apply_fields p updatable) s) ++ fs).
    rewrite put_events, <- !app_assoc. reflexivity. }
  exists t, bs. split_and!; try done.
  - intros f. rewrite <- (apply_fields_current p updatable t f updatable_nodup). fold t1.
    transitivity (current r1 f); [done|]. by rewrite <- (current_core r1 f), C1.
  - transitivity (Ticket.priority r1); [done|].
    pose proof (f_equal Ticket.priority C1) as E. change (Ticket.priority r1 =
      default (Ticket.priority t1) (TicketUpdate.priority p)) in E. by rewrite E, Hprio.
  - rewrite update_rest_touch. rewrite (update_rest_core _ _ C1), <- Hrest.
    apply update_rest_priority.
  - rewrite Hrr. apply tag_rest. rewrite R1. exact (put_rest i (apply_fields p updatable) s).
  - intros j Hj. rewrite Ho by done. rewrite O1 by done.
    change (ticket_at (put i (apply_fields p updatable) s) j = ticket_at s j).
    rewrite put_at, decide_False by done. by destruct (ticket_at s j).
  - intros Hsame. rewrite Hev in Hsame. rewrite <- (app_nil_r (Db.events s)) in Hsame at 2.
    apply app_inv_head in Hsame. apply app_nil in Hsame as [Hfs [_ [Hpc Htc]%app_nil]%app_nil].
    rewrite Hpc in Eb1. rewrite Htc in Eb2. rewrite Hfs in Hlast. subst b1 b2. cbn in Hlast.
    specialize (K1 eq_refl). subst s1. cbn in Hlast. subst s'.
    assert (ticket_at s0 i = Some (r1 <| Ticket.updated_at := u |>)) as Hr' by exact Hr.
    rewrite Ht1 in Hr'. injection Hr' as <-. by apply (no_changes i user).
Qed.

(** ** Witnesses *)

Lemma run_ok {A} (m : M Db.t A) s : is_ok (fst (m s)) = true → ∃ a, m s = (Ok a, snd (m s)).
Proof. destruct (m s) as [[a|e] s']; [|discriminate]. by exists a. Qed.

Definition closing : TicketStatusChangeRequest.t :=
  {| TicketStatusChangeRequest.new_status := TicketStatus.closed;
     TicketStatusChangeRequest.note := Some "done" |}.

Lemma status_change_effect_witness :
  ∃ r s', change_status 2 closing Fix.manager Fix.db = (Ok r, s') ∧
    Ticket.status r = TicketStatus.closed ∧ ∃ now, Ticket.closed_at r = Some now.
Proof.
  destruct (run_ok (change_status 2 closing Fix.manager) Fix.db ltac:(vm_compute; reflexivity)) as [r H].
  exists r, (snd (change_status 2 closing Fix.manager Fix.db)). split; [exact H|].
  destruct (status_change_effect 2 closing Fix.manager Fix.db r _ fix_sla_wf H)
    as (t & now & _ & _ & _ & Hst & Hc & _).
  split; [exact Hst | exists now; apply Hc; reflexivity].
Defined.

Definition to_support : TicketEscalateRequest.t :=
  {| TicketEscalateRequest.team_id := 20; TicketEscalateRequest.note := "urgent" |}.

Definition closed_db : Db.t := snd (change_status 2 closing Fix.manager Fix.db).

Lemma closed_wf : sla_wf closed_db.
Proof.
  destruct (run_ok (change_status 2 closing Fix.manager) Fix.db ltac:(vm_compute; reflexivity)) as [r H].
  destruct (change_status_run 2 closing Fix.manager Fix.db r _ fix_sla_wf H)
    as (t & now & s1 & _ & _ & G & _ & E & _). unfold closed_db. rewrite E. apply wf_event, G.
Qed.

Lemma closed_time : not_null (ticket_at closed_db 2 ≫= Ticket.closed_at) = true.
Proof. vm_compute. reflexivity. Qed.

(** A ticket that was closed, then escalated: escalated, with a time of closing *)
Lemma escalation_effect_witness :
  ∃ r s', escalate_ticket 2 to_support Fix.manager closed_db = (Ok r, s') ∧
    Ticket.status r = TicketStatus.escalated ∧ not_null (Ticket.closed_at r) = true ∧
    ¬ transition TicketStatus.closed TicketStatus.escalated.
Proof.
  destruct (run_ok (escalate_ticket 2 to_support Fix.manager) closed_db
    ltac:(vm_compute; reflexivity)) as [r H].
  exists r, (snd (escalate_ticket 2 to_support Fix.manager closed_db)). split; [exact H|].
  destruct (escalation_effect 2 to_support Fix.manager closed_db r _ closed_wf H)
    as (t & team & actor & Ht & _ & _ & _ & _ & _ & _ & _ & Hst & _ & _ & Hc & _).
  split; [exact Hst|]. split; [|intros E; discriminate E]. rewrite Hc.
  pose proof closed_time as E. rewrite Ht in E. exact E.
Defined.

Definition again : TicketReopenRequest.t :=
  {| TicketReopenRequest.reason := "still broken"; TicketReopenRequest.assign_to_previous := true;
     TicketReopenRequest.restore_team := false |}.

Lemma reopen_effect_witness :
  ∃ r s', reopen_ticket 2 again Fix.manager Fix.db = (Ok r, s') ∧
    Ticket.closed_at r = None ∧ find_open_pause s' 2 = None.
Proof.
  destruct (run_ok (reopen_ticket 2 again Fix.manager) Fix.db ltac:(vm_compute; reflexivity)) as [r H].
  exists r, (snd (reopen_ticket 2 again Fix.manager Fix.db)). split; [exact H|].
  destruct (reopen_effect 2 again Fix.manager Fix.db r _ fix_sla_wf H)
    as (t & _ & _ & _ & _ & _ & Hc & _ & _ & _ & Hp & _).
  split; [exact Hc | exact Hp].
Defined.

Definition to_agent : TicketAssignRequest.t :=
  {| TicketAssignRequest.assignee_id := Some 30; TicketAssignRequest.team_id := None;
     TicketAssignRequest.note := None |}.

Lemma fix_people : people_keyed (Db.dir Fix.db).
Proof. destruct fix_keyed as (_ & _ & Ht & _ & Hu). by split. Qed.

Lemma assignment_effect_witness :
  ∃ r s', assign_ticket 1 to_agent Fix.manager Fix.db = (Ok r, s') ∧
    Ticket.assignee_id r = Some 30 ∧ Ticket.status r = TicketStatus.in_progress.
Proof.
  destruct (run_ok (assign_ticket 1 to_agent Fix.manager) Fix.db ltac:(vm_compute; reflexivity)) as [r H].
  exists r, (snd (assign_ticket 1 to_agent Fix.manager Fix.db)). split; [exact H|].
  destruct (assignment_effect 1 to_agent Fix.manager Fix.db r _ fix_sla_wf fix_people H)
    as (t & actor & u & y & Ht & _ & _ & _ & _ & _ & Ha & _ & _ & Hst).
  split; [exact Ha|]. rewrite Hst. injection Ht as <-. reflexivity.
Defined.

Definition retitle : TicketUpdate.t :=
  {| TicketUpdate.texts := <["title" := "Parcel found"]> {["description" := "Where is it?"]};
     TicketUpdate.resolution_category := None; TicketUpdate.market_id := None;
     TicketUpdate.priority := None; TicketUpdate.tag_ids := Some [7] |}.

(** One event for the new title, none for the same description, one for the tags *)
Lemma update_audit_trail_witness :
  ∃ r s', update_ticket 1 retitle Fix.manager Fix.db = (Ok r, s') ∧
    text r "title" = Some "Parcel found" ∧ length (Db.events s') = 2%nat.
Proof.
  destruct (run_ok (update_ticket 1 retitle Fix.manager) Fix.db ltac:(vm_compute; reflexivity)) as [r H].
  exists r, (snd (update_ticket 1 retitle Fix.manager Fix.db)). split; [exact H|].
  destruct (update_audit_trail 1 retitle Fix.manager Fix.db r _ fix_sla_wf H)
    as (t & bs & Ht & _ & _ & _ & Hf & _).
  split; [|vm_compute; reflexivity]. specialize (Hf "title").
  rewrite decide_True in Hf by (apply (bool_decide_unpack _); vm_compute; exact I).
  change (VText <$> text r "title" = Some (VText "Parcel found")) in Hf.
  destruct (text r "title") as [x|]; [|discriminate Hf]. by injection Hf as ->.
Defined.
