(* ===== verification/TicketHistory.v ===== *)
(** * Histories of ticket operations

    Every operation of [Tickets] as a request by a user, run in a session that is
    committed when it returns and rolled back when it raises ([unit_of_work.py]).  Who
    may run one, what creation makes, and what holds after any history of requests. *)

From S2P Require Import Prelude Calendar Enums Models Fixtures Tenancy Permissions.
From S2P Require Import Sla Customers Tickets Lifecycle.

Import StateMachine.

(** ** Requests *)

Inductive request :=
| DoCreate (p : TicketCreate.t)
| DoUpdate (i : Z) (p : TicketUpdate.t)
| DoAssign (i : Z) (p : TicketAssignRequest.t)
| DoStatus (i : Z) (p : TicketStatusChangeRequest.t)
| DoEscalate (i : Z) (p : TicketEscalateRequest.t)
| DoReopen (i : Z) (p : TicketReopenRequest.t)
| DoComment (i : Z) (p : CommentCreate.t)
| DoNote (i : Z) (body : string)
| DoAttach (i : Z) (filename : option string) (upload : result StoredUpload.t)
    (visibility : NoteVisibility.t)
| DoIntake (i : Z) (p : AIIntakeCreate.t).

Definition discard {A} (m : M Db.t A) : M Db.t unit := _ ← m; mret tt.

Definition serve (user : User.t) (q : request) : M Db.t unit :=
  match q with
  | DoCreate p => discard (create_ticket p user)
  | DoUpdate i p => discard (update_ticket i p user)
  | DoAssign i p => discard (assign_ticket i p user)
  | DoStatus i p => discard (change_status i p user)
  | DoEscalate i p => discard (escalate_ticket i p user)
  | DoReopen i p => discard (reopen_ticket i p user)
  | DoComment i p => discard (add_comment i p user)
  | DoNote i b => discard (add_internal_note i b user)
  | DoAttach i n u v => discard (add_attachment i n u v user)
  | DoIntake i p => add_ai_intake i p user
  end.

(** [with managed_session(db): ...] *)
Definition managed_session {A} (m : M Db.t A) (s : Db.t) : Db.t :=
  match m s with (Ok _, s') => s' | (Err _, _) => s end.

Definition serve_all (l : list (User.t * request)) (s : Db.t) : Db.t :=
  foldl (fun s x => managed_session (serve (fst x) (snd x)) s) s l.

(** ** Who may run a request *)

Definition target (q : request) : option Z :=
  match q with
  | DoCreate _ => None
  | DoUpdate i _ | DoAssign i _ | DoStatus i _ | DoEscalate i _ | DoReopen i _ | DoComment i _
  | DoNote i _ | DoAttach i _ _ _ | DoIntake i _ => Some i
  end.

Definition required (q : request) : list string :=
  match q with
  | DoCreate _ | DoReopen _ _ => []
  | DoUpdate _ _ => [CAP_TICKET_UPDATE_CORE]
  | DoAssign _ _ => [CAP_TICKET_ASSIGN]
  | DoStatus _ p =>
      CAP_TICKET_STATUS_CHANGE ::
      (if bool_decide (TicketStatusChangeRequest.new_status p ∈
            [TicketStatus.closed; TicketStatus.canceled; TicketStatus.escalated])
       then [CAP_TICKET_CLOSE] else [])
  | DoEscalate _ _ => [CAP_TICKET_ESCALATE]
  | DoComment _ p => match CommentCreate.visibility p with
      | NoteVisibility.external => [CAP_NOTE_WRITE_EXTERNAL]
      | NoteVisibility.internal => [CAP_NOTE_WRITE_INTERNAL] end
  | DoNote _ _ => [CAP_NOTE_WRITE_INTERNAL]
  | DoAttach _ _ _ _ => [CAP_ATTACHMENT_UPLOAD]
  | DoIntake _ _ => [CAP_AI_INTAKE_WRITE]
  end.

Definition authorized (user : User.t) (q : request) (i : Z) (s : Db.t) : Prop :=
  ∃ t, ticket_at s i = Some t ∧ ensure_ticket_visible user t (Some s) = Ok tt ∧
    Forall (.∈ resolve_capabilities user (Some s)) (required q).

(** A program that raises without having changed anything *)
Definition refused {A} (m : M Db.t A) (s : Db.t) : Prop := ∃ e, m s = (Err e, s).

Lemma refused_bind {A B} (m : M Db.t A) (k : A → M Db.t B) s : refused m s → refused (m ≫= k) s.
Proof. intros [e H]. exists e. by apply bind_run_Err. Qed.

Lemma refused_then {A B} (m : M Db.t A) (k : A → M Db.t B) s a :
  m s = (Ok a, s) → refused (k a) s → refused (m ≫= k) s.
Proof. intros H [e He]. exists e. by rewrite (bind_run_Ok _ _ _ _ _ H). Qed.

Lemma visible_cases i user s :
  (∃ t, visible_ticket i user s = (Ok t, s) ∧ ticket_at s i = Some t ∧
     ensure_ticket_visible user t (Some s) = Ok tt) ∨ refused (visible_ticket i user) s.
Proof.
  unfold visible_ticket. destruct (ticket_at s i) as [t|] eqn:Ht.
  - assert (get_ticket_or_404 i s = (Ok t, s)) as Hg
      by (unfold get_ticket_or_404, the_ticket; by rewrite Ht).
    destruct (ensure_ticket_visible user t (Some s)) as [[]|e] eqn:Hv.
    + left. exists t. split; [|done]. rewrite (bind_run_Ok _ _ _ _ _ Hg).
      unfold mbind, M_bind, get, lift. by rewrite Hv.
    + right. eapply refused_then; [exact Hg|]. exists e. unfold mbind, M_bind, get, lift. by rewrite Hv.
  - right. apply refused_bind. exists (HTTPException 404 "Ticket not found").
    unfold get_ticket_or_404, the_ticket. by rewrite Ht.
Qed.

Lemma check_cases f s : (check f s = (Ok tt, s) ∧ f (Some s) = Ok tt) ∨ refused (check f) s.
Proof.
  destruct (f (Some s)) as [[]|e] eqn:Hf.
  - left. split; [|done]. unfold check, mbind, M_bind, get, lift. by rewrite Hf.
  - right. exists e. unfold check, mbind, M_bind, get, lift. by rewrite Hf.
Qed.

Lemma refused_discard {A} (m : M Db.t A) s : refused m s → refused (discard m) s.
Proof. apply refused_bind. Qed.

(** Visible first, then a capability *)
Lemma guarded_by {A} user q i s f (k : Ticket.t → M Db.t A) :
  (f user (Some s) = Ok tt → Forall (.∈ resolve_capabilities user (Some s)) (required q)) →
  authorized user q i s ∨ refused (t ← visible_ticket i user; check (f user);; k t) s.
Proof.
  intros Hf. destruct (visible_cases i user s) as [(t & Hr & Ht & Hv)|H]; [|right; by apply refused_bind].
  destruct (check_cases (f user) s) as [[Hc Hok]|H].
  - left. exists t. auto.
  - right. eapply refused_then; [exact Hr|]. by apply refused_bind.
Qed.

(** A capability first, then visible *)
Lemma guarded_by' {A} user q i s f (k : Ticket.t → M Db.t A) :
  (f user (Some s) = Ok tt → Forall (.∈ resolve_capabilities user (Some s)) (required q)) →
  authorized user q i s ∨ refused (check (f user);; t ← visible_ticket i user; k t) s.
Proof.
  intros Hf. destruct (check_cases (f user) s) as [[Hc Hok]|H]; [|right; by apply refused_bind].
  destruct (visible_cases i user s) as [(t & Hr & Ht & Hv)|H].
  - left. exists t. auto.
  - right. eapply refused_then; [exact Hc|]. by apply refused_bind.
Qed.

Lemma one_capability user c db m :
  ensure_capability user c db m = Ok tt → Forall (.∈ resolve_capabilities user db) [c].
Proof. intros H%ensure_capability_Ok. by repeat constructor. Qed.

Lemma status_capabilities user t st db :
  ensure_can_change_status user t st db = Ok tt →
  Forall (.∈ resolve_capabilities user db)
    (CAP_TICKET_STATUS_CHANGE ::
     (if bool_decide (st ∈ [TicketStatus.closed; TicketStatus.canceled; TicketStatus.escalated])
      then [CAP_TICKET_CLOSE] else [])).
Proof.
  unfold ensure_can_change_status. rewrite !result_seq_Ok. intros (H1%ensure_capability_Ok & _ & H2).
  constructor; [done|]. case_bool_decide; [|constructor]. by apply one_capability in H2.
Qed.

Lemma comment_capability user v db :
  ensure_can_write_comment user v db = Ok tt →
  Forall (.∈ resolve_capabilities user db) (match v with
    | NoteVisibility.external => [CAP_NOTE_WRITE_EXTERNAL]
    | NoteVisibility.internal => [CAP_NOTE_WRITE_INTERNAL] end).
Proof. destruct v; apply one_capability. Qed.

Lemma serve_guarded user q i s :
  target q = Some i → authorized user q i s ∨ refused (serve user q) s.
Proof.
  assert (∀ A (m : M Db.t A) (P : Prop), P ∨ refused m s → P ∨ refused (discard m) s) as Hd
    by (intros A m P [?|?]; [by left | right; by apply refused_bind]).
  destruct q; intros [= <-]; cbn [serve]; try apply Hd.
  - by apply guarded_by, one_capability.
  - by apply guarded_by', one_capability.
  - destruct (visible_cases i0 user s) as [(t & Hr & Ht & Hv)|H]; [|right; by apply refused_bind].
    destruct (check_cases (ensure_can_change_status user t (TicketStatusChangeRequest.new_status p)) s)
      as [[_ Hok]|H].
    + left. exists t. split_and!; try done. by eapply status_capabilities.
    + right. eapply refused_then; [exact Hr|]. by apply refused_bind.
  - by apply guarded_by', one_capability.
  - destruct (visible_cases i0 user s) as [(t & Hr & Ht & Hv)|H]; [|right; by apply refused_bind].
    left. exists t. by split_and!.
  - apply (guarded_by user (DoComment i0 p) i0 s
      (fun u => ensure_can_write_comment u (CommentCreate.visibility p))), comment_capability.
  - by apply guarded_by, one_capability.
  - by apply guarded_by, one_capability.
  - by apply guarded_by, one_capability.
Qed.

(** C3: every request on a ticket is authorised before anything happens: when it returns,
    the ticket exists, the caller sees it and has every capability the operation requires;
    when one of these is missing, it raises and the session is exactly as it was. *)
Theorem ticket_requests_authorized user q i s :
  target q = Some i →
  (∀ s', serve user q s = (Ok tt, s') → authorized user q i s) ∧
  (¬ authorized user q i s → ∃ e, serve user q s = (Err e, s)).
Proof.
  intros Ht. destruct (serve_guarded user q i s Ht) as [H|[e H]].
  - split; [done|]. by intros [].
  - split; [|by exists e]. intros s' E. congruence.
Qed.

(** ** What every history keeps *)

(** The columns of a ticket that no operation changes *)
Definition identity (t : Ticket.t) :=
  (Ticket.id t, Ticket.ticket_no t, Ticket.tenant_id t, Ticket.tenant_assignment_source t,
   Ticket.tenant_assignment_version t, Ticket.customer_id t, Ticket.source t,
   Ticket.source_channel t, Ticket.created_by t, Ticket.created_at t).

(** A terminal ticket has a time of closing. *)
Definition closed_stamped (t : Ticket.t) : Prop :=
  is_terminal (Ticket.status t) = true → not_null (Ticket.closed_at t) = true.

(** An assignee belongs to the team of the ticket. *)
Definition well_staffed (d : Directory.t) (t : Ticket.t) : Prop :=
  ∀ a x, Ticket.assignee_id t = Some a → truthy_id (Some a) = true → Ticket.team_id t = Some x →
    ∃ u, Directory.users d !! a = Some u ∧ User.team_id u = Some x.

Definition ticket_ok (d : Directory.t) (t : Ticket.t) : Prop := closed_stamped t ∧ well_staffed d t.

Record db_wf (s : Db.t) : Prop := {
  db_sla : sla_wf s;
  db_next : table_wf (Db.tickets s);
  db_comments : table_wf (Db.comments s);
  db_notes : table_wf (Db.notes s);
  db_id : ∀ i t, ticket_at s i = Some t → Ticket.id t = i;
  db_no : ∀ i j t u, ticket_at s i = Some t → ticket_at s j = Some u →
    Ticket.ticket_no t = Ticket.ticket_no u → i = j;
  db_ok : ∀ i t, ticket_at s i = Some t → ticket_ok (Db.dir s) t;
  (** rows of the directory under their keys; ids count from 1 *)
  db_people : people_keyed (Db.dir s);
  db_zero : Directory.teams (Db.dir s) !! 0 = None
}.

(** How [s] can have come from [s0] *)
Record evolves (s0 s : Db.t) : Prop := {
  ev_tickets : ∀ i t0, ticket_at s0 i = Some t0 → ∃ t, ticket_at s i = Some t ∧
    identity t = identity t0 ∧ Ticket.reopen_count t0 ≤ Ticket.reopen_count t;
  ev_events : ∃ es, Db.events s = Db.events s0 ++ es;
  ev_assigned : ∀ j a, trows (Db.assignments s0) !! j = Some a → trows (Db.assignments s) !! j = Some a;
  ev_paused : ∀ j p, trows (Db.pauses s0) !! j = Some p →
    not_null (TicketSLAPauseInterval.ended_at p) = true → trows (Db.pauses s) !! j = Some p;
  ev_comments : ∀ j c, trows (Db.comments s0) !! j = Some c → trows (Db.comments s) !! j = Some c;
  ev_notes : ∀ j c, trows (Db.notes s0) !! j = Some c → trows (Db.notes s) !! j = Some c;
  ev_dir : Db.dir s = Db.dir s0
}.

#[global] Instance evolves_refl : Reflexive evolves.
Proof.
  intros s. split; try done; [|exists []; by rewrite app_nil_r].
  intros i t H. exists t. split; [done|]. split; [done | lia].
Qed.

#[global] Instance evolves_trans : Transitive evolves.
Proof.
  intros a b c [] []. split; eauto; try congruence.
  - intros i t Ht. destruct (ev_tickets0 i t Ht) as (t1 & H1 & I1 & R1).
    destruct (ev_tickets1 i t1 H1) as (t2 & H2 & I2 & R2). exists t2. split; [done|].
    split; [congruence | lia].
  - destruct ev_events0 as [e1 E1], ev_events1 as [e2 E2]. exists (e1 ++ e2).
    by rewrite E2, E1, app_assoc.
Qed.

Definition tracked (s0 s : Db.t) : Prop := db_wf s ∧ evolves s0 s.

(** A change of one ticket that keeps its identity and leaves it in order *)
Lemma tracked_put s0 s i f :
  (∀ t, ticket_at s i = Some t → ticket_ok (Db.dir s) t → identity (f t) = identity t ∧
     Ticket.reopen_count t ≤ Ticket.reopen_count (f t) ∧ ticket_ok (Db.dir s) (f t)) →
  tracked s0 s → tracked s0 (put i f s).
Proof.
  intros Hf [W V]. assert (evolves s (put i f s)) as V1.
  { destruct (put_tables i f s) as [E N]. rewrite E. split; try done; [|exists []; by rewrite app_nil_r].
    rewrite <- E. intros j t Ht. rewrite put_at, Ht. eexists. split; [done|].
    case_decide; [|done]. subst j. destruct (Hf t Ht (db_ok s W i t Ht)) as (? & ? & _). done. }
  split; [|by etrans]. destruct W. destruct (put_tables i f s) as [E N].
  assert (∀ j t, ticket_at (put i f s) j = Some t → ∃ t0, ticket_at s j = Some t0 ∧
    identity t = identity t0 ∧ ticket_ok (Db.dir s) t) as Hinv.
  { intros j t Ht. rewrite put_at in Ht. destruct (ticket_at s j) as [t0|] eqn:E0; [|done].
    injection Ht as <-. exists t0. split; [done|]. case_decide; [|by eauto].
    subst j. destruct (Hf t0 E0 (db_ok0 i t0 E0)) as (? & _ & ?). done. }
  split; try (rewrite E; done).
  - by apply wf_put.
  - intros j t Ht. rewrite N. destruct (Hinv j t Ht) as (t0 & H0 & _). exact (db_next0 j t0 H0).
  - intros j t Ht. destruct (Hinv j t Ht) as (t0 & H0 & Hi & _). injection Hi as Hid _ _ _ _ _ _ _ _ _.
    rewrite Hid. by apply db_id0.
  - intros j k t u Ht Hu Hno. destruct (Hinv j t Ht) as (t0 & H0 & Hi & _).
    destruct (Hinv k u Hu) as (u0 & Hu0 & Hiu & _).
    injection Hi as _ Hn _ _ _ _ _ _ _ _. injection Hiu as _ Hn' _ _ _ _ _ _ _ _.
    apply (db_no0 j k t0 u0 H0 Hu0). congruence.
  - intros j t Ht. destruct (Hinv j t Ht) as (t0 & H0 & _ & Hok). rewrite E. exact Hok.
Qed.

Lemma ticket_ok_core d t t' : sla_core t = sla_core t' → ticket_ok d t → ticket_ok d t'.
Proof.
  intros E [H1 H2].
  pose proof (f_equal Ticket.status E) as E1. pose proof (f_equal Ticket.closed_at E) as E2.
  pose proof (f_equal Ticket.assignee_id E) as E3. pose proof (f_equal Ticket.team_id E) as E4.
  change (Ticket.status t = Ticket.status t') in E1. change (Ticket.closed_at t = Ticket.closed_at t') in E2.
  change (Ticket.assignee_id t = Ticket.assignee_id t') in E3. change (Ticket.team_id t = Ticket.team_id t') in E4.
  unfold ticket_ok, closed_stamped, well_staffed in *. rewrite <- E1, <- E2, <- E3, <- E4. by split.
Qed.

Lemma identity_core t t' : sla_core t = sla_core t' → identity t = identity t'.
Proof. intros E. exact (f_equal identity E). Qed.

(** Service-level operations *)
Lemma tracked_frame s0 i s s' : guarded i s s' → tracked s0 s → tracked s0 s'.
Proof.
  intros [W' F] [W V].
  assert (∀ j, sla_core <$> ticket_at s' j = sla_core <$> ticket_at s j) as Hc.
  { intros j. destruct (decide (j = i)) as [->|Hj]; [by apply F|]. by rewrite (fr_other i s s' F j Hj). }
  assert (∀ j t', ticket_at s' j = Some t' → ∃ t, ticket_at s j = Some t ∧ sla_core t = sla_core t') as Hinv.
  { intros j t' Ht'. specialize (Hc j). rewrite Ht' in Hc. destruct (ticket_at s j) as [t|]; [|done].
    change (Some (sla_core t') = Some (sla_core t)) in Hc. exists t. split; [done|]. congruence. }
  pose proof (fr_rest i s s' F) as R.
  assert (Db.dir s' = Db.dir s) as Rd by exact (f_equal Db.dir R).
  assert (Db.comments s' = Db.comments s) as Rc by exact (f_equal Db.comments R).
  assert (Db.notes s' = Db.notes s) as Rn by exact (f_equal Db.notes R).
  split.
  - destruct W. split; rewrite ?Rc, ?Rn, ?Rd; try done.
    + intros j t Ht. destruct (Hinv j t Ht) as (t0 & H0 & _). rewrite (fr_next i s s' F).
      exact (db_next0 j t0 H0).
    + intros j t Ht. destruct (Hinv j t Ht) as (t0 & H0 & E).
      rewrite <- (db_id0 j t0 H0). symmetry. exact (f_equal Ticket.id E).
    + intros j k t u Ht Hu Hno. destruct (Hinv j t Ht) as (t0 & H0 & E).
      destruct (Hinv k u Hu) as (u0 & Hu0 & E'). apply (db_no0 j k t0 u0 H0 Hu0).
      transitivity (Ticket.ticket_no t); [exact (f_equal Ticket.ticket_no E)|].
      rewrite Hno. symmetry. exact (f_equal Ticket.ticket_no E').
    + intros j t Ht. destruct (Hinv j t Ht) as (t0 & H0 & E).
      exact (ticket_ok_core _ t0 t E (db_ok0 j t0 H0)).
  - etrans; [exact V|]. split; rewrite ?Rc, ?Rn; try done; try apply F.
    + intros j t Ht. specialize (Hc j). rewrite Ht in Hc.
      destruct (ticket_at s' j) as [t'|]; [|done].
      change (Some (sla_core t') = Some (sla_core t)) in Hc. apply (inj Some) in Hc. exists t'.
      split; [done|]. split; [by apply identity_core|].
      pose proof (f_equal Ticket.reopen_count Hc) as E.
      change (Ticket.reopen_count t' = Ticket.reopen_count t) in E. lia.
    + destruct (fr_events i s s' F) as (l & Hl & _). by exists l.
Qed.

(** *** The steps of the operations *)

Lemma tracked_guarded {A} s0 i (m : M Db.t A) :
  (∀ s1, preserves (guarded i s1) m) → preserves (tracked s0) m.
Proof.
  intros Hm s H. pose proof (Hm s s (guarded_refl i s (db_sla s (proj1 H)))) as G.
  by eapply tracked_frame.
Qed.

(** An attribute assignment that leaves identity, status, closing time and people alone *)
Definition harmless (f : Ticket.t → Ticket.t) : Prop := ∀ t,
  identity (f t) = identity t ∧ Ticket.reopen_count (f t) = Ticket.reopen_count t ∧
  Ticket.status (f t) = Ticket.status t ∧ Ticket.closed_at (f t) = Ticket.closed_at t ∧
  Ticket.assignee_id (f t) = Ticket.assignee_id t ∧ Ticket.team_id (f t) = Ticket.team_id t.

Lemma tracked_set s0 i f : harmless f → preserves (tracked s0) (set_ticket i f).
Proof.
  intros Hf s H. rewrite set_ticket_run. apply tracked_put; [|done].
  intros t Ht [H1 H2]. destruct (Hf t) as (E1 & E2 & E3 & E4 & E5 & E6).
  split; [done|]. split; [lia|]. unfold ticket_ok, closed_stamped, well_staffed in *.
  by rewrite E3, E4, E5, E6.
Qed.

(** A write to tables that no invariant mentions, or that adds an event *)
Lemma tracked_aside s0 f :
  (∀ s, Db.tickets (f s) = Db.tickets s ∧ Db.dir (f s) = Db.dir s ∧
     Db.comments (f s) = Db.comments s ∧ Db.notes (f s) = Db.notes s ∧
     Db.assignments (f s) = Db.assignments s ∧ Db.pauses (f s) = Db.pauses s ∧
     Db.targets (f s) = Db.targets s ∧ Db.clock (f s) = Db.clock s ∧
     Db.ticks (f s) = Db.ticks s ∧ ∃ es, Db.events (f s) = Db.events s ++ es) →
  ∀ s, tracked s0 s → tracked s0 (f s).
Proof.
  intros Hf s [W V]. destruct (Hf s) as (E1 & E2 & E3 & E4 & E5 & E6 & E7 & E8 & E9 & E10).
  assert (∀ i, ticket_at (f s) i = ticket_at s i) as Hat by (intros i; unfold ticket_at; by rewrite E1).
  split.
  - destruct W as [[] ]. split; [split|..]; rewrite ?E1, ?E2, ?E3, ?E4, ?E5, ?E6, ?E7, ?E8, ?E9; try done.
    + intros i t. rewrite Hat. apply db_id0.
    + intros i j t u. rewrite !Hat. apply db_no0.
    + intros i t. rewrite Hat. apply db_ok0.
  - etrans; [exact V|]. split; rewrite ?E3, ?E4, ?E5, ?E6; try done.
    intros i t Ht. exists t. rewrite Hat. split; [done|]. split; [done | lia].
Qed.

Ltac aside := split_and!; try done; exists []; by rewrite app_nil_r.

Lemma tracked_event s0 e : preserves (tracked s0) (log_event e).
Proof.
  apply preserves_modify. apply (tracked_aside s0 (fun s => s <| Db.events ::= fun l => l ++ [e] |>)).
  intros s. split_and!; try done. by exists [e].
Qed.
Lemma tracked_intake s0 mk : preserves (tracked s0) (add_ai_intake_row mk).
Proof. apply preserves_modify, tracked_aside. intros s. aside. Qed.
Lemma tracked_tags s0 f : preserves (tracked s0) (modify (fun s => s <| Db.ticket_tags ::= f |>)).
Proof. apply preserves_modify, tracked_aside. intros s. aside. Qed.
Lemma tracked_attachments s0 f : preserves (tracked s0) (modify (fun s => s <| Db.attachments ::= f |>)).
Proof. apply preserves_modify, tracked_aside. intros s. aside. Qed.
Lemma tracked_add_attachment s0 mk : preserves (tracked s0) (add_attachment_row mk).
Proof.
  intros s H. apply (tracked_aside s0 (fun s => s <| Db.attachments ::= fun T => table_add T mk |>)); [|done].
  intros s1. aside.
Qed.
Lemma tracked_now s0 : preserves (tracked s0) utc_now.
Proof. apply (tracked_guarded s0 0). intros. apply guarded_now. Qed.
Lemma tracked_uuid s0 : preserves (tracked s0) uuid4.
Proof. intros s H. exact (tracked_now s0 s H). Qed.
Lemma tracked_the_ticket s0 i : preserves (tracked s0) (the_ticket i).
Proof. intros s H. unfold the_ticket. by destruct (ticket_at s i). Qed.

Lemma table_add_keeps {R} (T : Table R) mk j r :
  table_wf T → trows T !! j = Some r → trows (table_add T mk) !! j = Some r.
Proof. intros W H. rewrite lookup_table_add. case_decide as E; [|done]. subst j. by rewrite table_fresh in H. Qed.

Lemma tracked_add_comment s0 mk : preserves (tracked s0) (add_comment_row mk).
Proof.
  intros s [[[] ] V]. split.
  - split; try done. by apply table_wf_add.
  - etrans; [exact V|]. split; try done; [| exists []; by rewrite app_nil_r |].
    + intros i t Ht. exists t. split; [done|]. split; [done | lia].
    + intros j c. by apply table_add_keeps.
Qed.
Lemma tracked_add_note s0 mk : preserves (tracked s0) (add_note_row mk).
Proof.
  intros s [[[] ] V]. split.
  - split; try done. by apply table_wf_add.
  - etrans; [exact V|]. split; try done; [| exists []; by rewrite app_nil_r |].
    + intros i t Ht. exists t. split; [done|]. split; [done | lia].
    + intros j c. by apply table_add_keeps.
Qed.

Lemma tracked_visible s0 i user : preserves (tracked s0) (visible_ticket i user).
Proof. unfold visible_ticket, get_ticket_or_404. preserve; apply tracked_the_ticket. Qed.
Lemma tracked_check s0 f : preserves (tracked s0) (check f).
Proof. unfold check. preserve. Qed.
Lemma tracked_evaluate s0 i : preserves (tracked s0) (evaluate_sla i).
Proof. apply (tracked_guarded s0 i), guarded_evaluate. Qed.
Lemma tracked_first s0 i : preserves (tracked s0) (update_first_response i).
Proof. apply (tracked_guarded s0 i), guarded_first_response. Qed.
Lemma tracked_priority_policy s0 i q : preserves (tracked s0) (apply_priority_policy i q).
Proof. apply (tracked_guarded s0 i). intros. apply guarded_priority_policy. Qed.
#[export] Hint Resolve tracked_event tracked_intake tracked_tags tracked_attachments
  tracked_add_attachment tracked_now tracked_uuid tracked_the_ticket tracked_add_comment
  tracked_add_note tracked_visible tracked_check tracked_evaluate tracked_first
  tracked_priority_policy tracked_set : nexus.

Lemma tracked_attach_tags s0 i ids : preserves (tracked s0) (attach_tags i ids).
Proof. unfold attach_tags. preserve; apply tracked_tags. Qed.
#[export] Hint Resolve tracked_attach_tags : nexus.

Lemma harmless_field f v : harmless (assign_field f v).
Proof. intros t. by destruct v. Qed.
Lemma harmless_priority q : harmless (fun t => t <| Ticket.priority := q |>).
Proof. by intros t. Qed.
Lemma harmless_updated u : harmless (fun t => t <| Ticket.updated_at := u |>).
Proof. by intros t. Qed.
Lemma harmless_intake p : harmless (intake_row p).
Proof. intros t. unfold intake_row, assign_text. by destruct (AIIntakeCreate.classification p). Qed.
#[export] Hint Resolve harmless_field harmless_priority harmless_updated harmless_intake : nexus.

Lemma tracked_update s0 i p user : preserves (tracked s0) (update_ticket i p user).
Proof.
  unfold update_ticket, update_priority, update_tags, get_ticket_or_404.
  assert (∀ l, preserves (tracked s0) (update_fields i user p l)) as Hf.
  { induction l as [|f l IH]; cbn [update_fields]; [auto with nexus|].
    unfold update_field. preserve; auto with nexus. }
  preserve; auto with nexus.
Qed.

Lemma tracked_comment s0 i p user : preserves (tracked s0) (add_comment i p user).
Proof. unfold add_comment. cbv zeta. preserve; auto with nexus. Qed.
Lemma tracked_note s0 i b user : preserves (tracked s0) (add_internal_note i b user).
Proof. unfold add_internal_note. preserve; auto with nexus. Qed.
Lemma tracked_attach s0 i n u v user : preserves (tracked s0) (add_attachment i n u v user).
Proof. unfold add_attachment. preserve; auto with nexus. Qed.
Lemma tracked_ai_intake s0 i p user : preserves (tracked s0) (add_ai_intake i p user).
Proof. unfold add_ai_intake. preserve; auto with nexus. Qed.

(** *** Status, people, reopening *)

(** [f] takes a ticket in order to a ticket in order. *)
Definition orderly (d : Directory.t) (f : Ticket.t → Ticket.t) (t : Ticket.t) : Prop :=
  ticket_ok d t → identity (f t) = identity t ∧
  Ticket.reopen_count t ≤ Ticket.reopen_count (f t) ∧ ticket_ok d (f t).

Lemma tracked_finish s0 s i f s1 e t :
  tracked s0 s → ticket_at s i = Some t → orderly (Db.dir s) f t → guarded i (put i f s) s1 →
  tracked s0 (s1 <| Db.events ::= fun l => l ++ [e] |>).
Proof.
  intros H Ht Hf G. apply (tracked_event s0 e s1). apply (tracked_frame s0 i (put i f s) s1 G).
  apply tracked_put; [|done]. intros t' Ht'. rewrite Ht in Ht'. injection Ht' as <-. exact Hf.
Qed.

Lemma orderly_moved d st now t : orderly d (moved st now) t.
Proof.
  intros [H1 H2]. split; [by destruct st|]. split; [destruct st; cbn; lia|]. split.
  - intros Hterm. by destruct st.
  - intros a x Ha Hz Hx. apply (H2 a x); [by destruct st | done | by destruct st].
Qed.

Lemma orderly_escalate d team t : orderly d (escalate_row team) t.
Proof. intros _. split; [done|]. split; [cbn; lia|]. split; [done|]. intros a x Ha. discriminate Ha. Qed.

Lemma orderly_reopen d p t : orderly d (reopen_row p) t.
Proof.
  intros [_ H2]. split; [done|]. split; [cbn; lia|]. split.
  - unfold closed_stamped, reopen_row. cbn. by destruct (_ && truthy_id (Ticket.assignee_id t)).
  - intros a x Ha Hz Hx. apply (H2 a x); [|done|].
    + unfold reopen_row in Ha. cbn in Ha. by destruct (_ && truthy_id (Ticket.assignee_id t)).
    + unfold reopen_row in Hx. cbn in Hx. by destruct (_ && truthy_id (Ticket.team_id t)).
Qed.

Lemma orderly_assign d actor u y t fb ft :
  staffed d actor (u, y) → Team.id <$> y = effective_team_id ft fb → fb = Ticket.team_id t →
  orderly d (assign_row u y) t.
Proof.
  intros (Hu & _ & Hm) Hy -> [H1 H2]. split; [unfold assign_row; by destruct (_ && _)|].
  split; [unfold assign_row; destruct (_ && _); cbn; lia|]. split.
  - unfold closed_stamped, assign_row. cbn. destruct (_ && _); [by intros [=]|]. exact H1.
  - intros a x Ha _ Hx. assert (User.id <$> u = Some a) as Ea.
    { revert Ha. unfold assign_row. cbn. by destruct (_ && _). }
    assert (match y with Some x => Some (Team.id x) | None => Ticket.team_id t end = Some x) as Ex.
    { revert Hx. unfold assign_row. cbn. by destruct (_ && _). }
    destruct u as [u|]; [|done]. injection Ea as <-. exists u. split; [by apply Hu|].
    destruct y as [y|]; [injection Ex as <-; by apply Hm|].
    unfold effective_team_id in Hy. rewrite Ex in Hy. by destruct ft.
Qed.

(** *** Creation *)

Lemma tracked_customers s0 a b c : preserves (tracked s0) (resolve_customer a b c).
Proof.
  unfold resolve_customer, put_customer. preserve; auto with nexus.
  - apply preserves_modify. apply (tracked_aside s0 (fun s => s <| Db.customers ::= _ |>)). intros s. aside.
  - intros s H. apply (tracked_aside s0 (fun s => s <| Db.customers ::= _ |>)); [|done]. intros s1. aside.
Qed.

(** The row that creation adds *)
Definition created_row (p : TicketCreate.t) (user : User.t) (actor : option Z)
    (customer : option Customer.t) (no : string) (c u id : Z) : Ticket.t :=
  stamp_runtime_tenant (new_ticket p user (Customer.id <$> customer) no c u id) actor.

Lemma created_columns_of p user actor customer no c u id :
  let t := created_row p user actor customer no c u id in
  Ticket.id t = id ∧ Ticket.ticket_no t = no ∧ Ticket.tenant_id t = actor ∧
  Ticket.status t = (if truthy_id (TicketCreate.assignee_id p) then TicketStatus.in_progress
                     else TicketStatus.pending_assignment) ∧
  Ticket.assignee_id t = TicketCreate.assignee_id p ∧
  Ticket.team_id t = id_or (TicketCreate.team_id p) (User.team_id user) ∧
  Ticket.customer_id t = Customer.id <$> customer ∧ Ticket.closed_at t = None.
Proof. by destruct actor. Qed.

Lemma creation_staff d p user actor :
  people_keyed d → Directory.teams d !! 0 = None → creation_checks d p user actor = Ok tt →
  ∀ a x, TicketCreate.assignee_id p = Some a → truthy_id (Some a) = true →
    id_or (TicketCreate.team_id p) (User.team_id user) = Some x →
    ∃ u, Directory.users d !! a = Some u ∧ User.team_id u = Some x.
Proof.
  intros Hk H0 H a x Ha Hz Hx. unfold creation_checks in H. apply result_seq_Ok in H as [H _].
  rewrite Ha, Hz, orb_true_r, orb_true_l in H. apply result_bind_Ok in H as ([u y] & H & _).
  rewrite Hx in H. apply (validate_Ok _ _ _ _ _ _ Hk) in H as ((Hu & Hy & Hm) & Eu & Ey).
  cbn [fst snd] in *. destruct u as [u|]; [|done]. injection Eu as <-. exists u.
  split; [by apply Hu|]. unfold effective_team_id in Ey.
  assert (∃ y0, y = Some y0) as [y0 ->]
    by (destruct (TicketCreate.team_id p), y; try discriminate Ey; by eexists).
  rewrite (Hm u y0 eq_refl). change (Some (Team.id y0) = match TicketCreate.team_id p with
    | Some t => Some t | None => Some x end) in Ey. rewrite Ey.
  destruct (TicketCreate.team_id p) as [tm|]; [|done]. rewrite <- Hx. unfold id_or.
  injection Ey as <-. destruct (truthy_id (Some (Team.id y0))) eqn:Et; [done|]. exfalso.
  unfold truthy_id in Et. apply negb_false_iff, Z.eqb_eq in Et.
  destruct (Hy y0 eq_refl) as (E & _). rewrite Et in E. congruence.
Qed.


Lemma add_ticket_Ok mk s i s' :
  add_ticket mk s = (Ok i, s') →
  i = tnext (Db.tickets s) ∧ s' = s <| Db.tickets ::= fun T => table_add T mk |> ∧
  ∀ j t, ticket_at s j = Some t → Ticket.ticket_no t ≠ Ticket.ticket_no (mk i).
Proof.
  unfold add_ticket. case_bool_decide as E; [discriminate|]. intros [= <- <-].
  split; [done|]. split; [done|]. intros j t Ht Hno. apply E. apply list.Exists_exists.
  exists t. split; [|done]. apply elem_of_select. by exists j.
Qed.

Lemma ticket_at_add mk s i :
  ticket_at (s <| Db.tickets ::= fun T => table_add T mk |>) i =
    if decide (tnext (Db.tickets s) = i) then Some (mk i) else ticket_at s i.
Proof.
  unfold ticket_at, table_get. cbn. rewrite lookup_table_add.
  case_decide as E; [by rewrite E | done].
Qed.

(** A new row in order, under a fresh number *)
Lemma tracked_add s0 s mk i s' :
  (∀ id, Ticket.id (mk id) = id) → ticket_ok (Db.dir s) (mk (tnext (Db.tickets s))) →
  add_ticket mk s = (Ok i, s') → tracked s0 s → tracked s0 s'.
Proof.
  intros Hid Hok H [W V]. apply add_ticket_Ok in H as (-> & -> & Hno). split.
  - destruct W as [[] ]. split; try done.
    + by apply table_wf_add.
    + intros i t. rewrite ticket_at_add. case_decide as E; [|apply db_id0]. by intros [= <-].
    + intros i j t u. rewrite !ticket_at_add. case_decide as E; case_decide as E'; [congruence|..].
      * intros [= <-] Hu Hn. subst i. by destruct (Hno j u Hu).
      * intros Ht [= <-] Hn. subst j. by destruct (Hno i t Ht).
      * apply db_no0.
    + intros i t. rewrite ticket_at_add. case_decide as E; [|apply db_ok0]. intros [= <-].
      subst i. exact Hok.
  - etrans; [exact V|]. split; try done; [|exists []; by rewrite app_nil_r].
    intros i t Ht. exists t. rewrite ticket_at_add. case_decide as E.
    + subst i. unfold ticket_at, table_get in Ht. rewrite table_fresh in Ht; [done | apply W].
    + split; [done|]. split; [done | lia].
Qed.

(** The stages of a creation that returned *)
Lemma create_split p user s r s' :
  create_ticket p user s = (Ok r, s') →
  ∃ actor customer s1 no s2 c s3 u s4 i s5 t s6,
    resolve_actor_tenant_id (Db.dir s) user = Ok actor ∧
    creation_checks (Db.dir s) p user actor = Ok tt ∧
    resolve_customer (TicketCreate.customer_id p) (TicketCreate.customer p) actor s =
      (Ok customer, s1) ∧
    generate_ticket_no s1 = (Ok no, s2) ∧ utc_now s2 = (Ok c, s3) ∧ utc_now s3 = (Ok u, s4) ∧
    add_ticket (created_row p user actor customer no c u) s4 = (Ok i, s5) ∧
    ticket_at s5 i = Some t ∧ is_ok (ensure_ticket_tenant_authority s5 user t None) = true ∧
    apply_priority_policy i (TicketCreate.priority p) s5 = (Ok tt, s6) ∧
    (attach_tags i (TicketCreate.tag_ids p);;
     log_event (event i user EventType.ticket_created
         [("ticket_no", JStr (Ticket.ticket_no t)); ("source", JStr (value (Ticket.source t)));
          ("source_channel", JStr (value (Ticket.source_channel t)))]
       <| TicketEvent.note := Some "Ticket created" |>);;
     creation_intake i p user;; get_ticket_or_404 i) s6 = (Ok r, s').
Proof.
  intros H. unfold create_ticket in H. apply bind_Ok_inv in H as (d & s1 & H1 & H).
  injection H1 as <- <-. apply bind_Ok_inv in H as (actor & s1 & H1 & H). apply lift_Ok in H1 as [Ha ->].
  apply bind_Ok_inv in H as ([] & s1 & H1 & H). apply lift_Ok in H1 as [Hc ->].
  apply bind_Ok_inv in H as (customer & s1 & H1 & H). apply bind_Ok_inv in H as (no & s2 & H2 & H).
  apply bind_Ok_inv in H as (c & s3 & H3 & H). apply bind_Ok_inv in H as (u & s4 & H4 & H).
  apply bind_Ok_inv in H as (i & s5 & H5 & H). apply bind_Ok_inv in H as (t & s6 & H6 & H).
  apply the_ticket_Ok in H6 as [-> Ht]. apply bind_Ok_inv in H as (d & s6 & H6 & H).
  injection H6 as <- <-. apply bind_Ok_inv in H as (x & s6 & H6 & H). apply lift_Ok in H6 as [Hx ->].
  apply bind_Ok_inv in H as ([] & s6 & H6 & H).
  exists actor, customer, s1, no, s2, c, s3, u, s4, i, s5, t, s6. split_and!; try done.
  by rewrite Hx.
Qed.

Lemma tracked_number s0 : preserves (tracked s0) generate_ticket_no.
Proof. unfold generate_ticket_no. preserve; auto with nexus. Qed.

Lemma tracked_creation_tail s0 i p user e :
  preserves (tracked s0) (attach_tags i (TicketCreate.tag_ids p);; log_event e;;
    creation_intake i p user;; get_ticket_or_404 i).
Proof. unfold creation_intake, get_ticket_or_404. cbv zeta. preserve; auto with nexus. Qed.

(** The rows and readings before the insertion leave the directory alone. *)
Lemma tracked_dir s0 s : tracked s0 s → Db.dir s = Db.dir s0.
Proof. intros [_ V]. apply V. Qed.

Lemma tracked_create p user s r s' :
  db_wf s → create_ticket p user s = (Ok r, s') → tracked s s'.
Proof.
  intros W H. destruct (create_split p user s r s' H) as (actor & customer & s1 & no & s2 & c & s3 & u &
    s4 & i & s5 & t & s6 & Ha & Hc & H1 & H2 & H3 & H4 & H5 & Ht & _ & H6 & H7).
  assert (tracked s s) as T0 by by split.
  pose proof (preserves_run _ _ _ _ _ (tracked_customers s _ _ _) T0 H1) as T1.
  pose proof (preserves_run _ _ _ _ _ (tracked_number s) T1 H2) as T2.
  pose proof (preserves_run _ _ _ _ _ (tracked_now s) T2 H3) as T3.
  pose proof (preserves_run _ _ _ _ _ (tracked_now s) T3 H4) as T4.
  assert (tracked s s5) as T5.
  { eapply tracked_add; [| | exact H5 | exact T4]; [intros id; by destruct actor|].
    destruct (created_columns_of p user actor customer no c u (tnext (Db.tickets s4)))
      as (_ & _ & _ & Hst & Has & Htm & _ & _). split.
    - intros Hterm. rewrite Hst in Hterm. by destruct (truthy_id _).
    - intros a x Ha1 Hz Hx. rewrite Has in Ha1. rewrite Htm in Hx.
      rewrite (tracked_dir s s4 T4).
      exact (creation_staff _ p user actor (db_people s W) (db_zero s W) Hc a x Ha1 Hz Hx). }
  pose proof (preserves_run _ _ _ _ _ (tracked_priority_policy s i _) T5 H6) as T6.
  exact (preserves_run _ _ _ _ _ (tracked_creation_tail s i p user _) T6 H7).
Qed.

Lemma discard_Ok {A} (m : M Db.t A) s u s' : discard m s = (Ok u, s') → ∃ a, m s = (Ok a, s').
Proof. intros H. apply bind_Ok_inv in H as (a & s1 & H & E). injection E as _ <-. by exists a. Qed.

Lemma tracked_status i p user s r s' :
  db_wf s → change_status i p user s = (Ok r, s') → tracked s s'.
Proof.
  intros W H. destruct (change_status_run i p user s r s' (db_sla s W) H)
    as (t & now & s1 & Ht & _ & G & _ & -> & _).
  by eapply (tracked_finish s s i); [by split | exact Ht | apply orderly_moved | exact G].
Qed.

Lemma tracked_assign i p user s r s' :
  db_wf s → assign_ticket i p user s = (Ok r, s') → tracked s s'.
Proof.
  intros W H. destruct (assign_split i p user s r s' H) as (t & actor & [u y] & Ht & _ & _ & _ & Hx & Hf).
  apply (validate_Ok _ _ _ _ _ _ (db_people s W)) in Hx as (Hst & _ & Hy).
  destruct (finish_run i _ _ _ s r s' (db_sla s W) ltac:(by exists t)
    (fun s0 => preserves_ret (guarded i s0) tt) Hf) as [_ (a & s1 & Hm & ->)]. injection Hm as _ <-.
  eapply (tracked_finish s s i); [by split | exact Ht | by eapply orderly_assign |].
  apply guarded_refl, wf_put, W.
Qed.

Lemma tracked_escalate i p user s r s' :
  db_wf s → escalate_ticket i p user s = (Ok r, s') → tracked s s'.
Proof.
  intros W H. destruct (escalate_split i p user s r s' H) as (t & team & actor & Ht & _ & _ & _ & _ & _ & Hf).
  destruct (finish_run i _ _ _ s r s' (db_sla s W) ltac:(by exists t) (guarded_evaluate i) Hf)
    as [_ (a & s1 & Hm & ->)].
  eapply (tracked_finish s s i); [by split | exact Ht | apply orderly_escalate |].
  eapply guarded_step; [apply guarded_evaluate | apply wf_put, W | exact Hm].
Qed.

Lemma tracked_reopen i p user s r s' :
  db_wf s → reopen_ticket i p user s = (Ok r, s') → tracked s s'.
Proof.
  intros W H. destruct (reopen_split i p user s r s' H) as (t & Ht & _ & _ & Hf).
  destruct (finish_run i _ _ _ s r s' (db_sla s W) ltac:(by exists t) (guarded_reopen_steps i _) Hf)
    as [_ (a & s1 & Hm & ->)].
  eapply (tracked_finish s s i); [by split | exact Ht | apply orderly_reopen |].
  eapply guarded_step; [apply guarded_reopen_steps | apply wf_put, W | exact Hm].
Qed.

Lemma serve_tracked user q s : db_wf s → tracked s (managed_session (serve user q) s).
Proof.
  intros W. assert (tracked s s) as T0 by by split. unfold managed_session.
  destruct (serve user q s) as [[u|e] s'] eqn:H; [|done].
  destruct q; cbn [serve] in H; try (apply discard_Ok in H as [a H]).
  - by eapply tracked_create.
  - exact (preserves_run _ _ _ _ _ (tracked_update s i p user) T0 H).
  - by eapply tracked_assign.
  - by eapply tracked_status.
  - by eapply tracked_escalate.
  - by eapply tracked_reopen.
  - exact (preserves_run _ _ _ _ _ (tracked_comment s i p user) T0 H).
  - exact (preserves_run _ _ _ _ _ (tracked_note s i body user) T0 H).
  - exact (preserves_run _ _ _ _ _ (tracked_attach s i filename upload visibility user) T0 H).
  - exact (preserves_run _ _ _ _ _ (tracked_ai_intake s i p user) T0 H).
Qed.

(** C1: after any history of requests by any users, each committed or rolled back: a
    closed or canceled ticket has a time of closing; an assignee is a member of the team of
    the ticket; ticket numbers and ids are unique; the service-level invariant holds.  No
    ticket disappears or changes its number, tenant, customer, source, channel, creator or
    time of creation, and its count of reopenings does not fall; the audit trail is only
    extended; comments, notes, assignments and ended pauses stay as they were written. *)
Theorem ticket_history_invariant l s :
  db_wf s → db_wf (serve_all l s) ∧ evolves s (serve_all l s).
Proof.
  revert s. induction l as [|[user q] l IH]; intros s W; [by split|].
  change (serve_all ((user, q) :: l) s) with (serve_all l (managed_session (serve user q) s)).
  destruct (serve_tracked user q s W) as [W1 V1]. destruct (IH _ W1) as [W2 V2].
  split; [done|]. by etrans.
Qed.

(** *** What creation does *)

(** The tables that the customer, the number and the clock do not touch *)
Definition case_data (s : Db.t) :=
  (Db.tickets s, Db.events s, Db.ticket_tags s, Db.tags s, Db.dir s).
Definition case_is (s0 s : Db.t) : Prop := case_data s = case_data s0 ∧ sla_wf s.

Lemma case_tick s0 : preserves (case_is s0) utc_now.
Proof.
  intros s [E W]. split; [exact E|]. exact (proj1 (guarded_tick 0 s s (guarded_refl 0 s W))).
Qed.
Lemma case_uuid s0 : preserves (case_is s0) uuid4.
Proof. exact (case_tick s0). Qed.
Lemma case_customers s0 f : preserves (case_is s0) (modify (fun s => s <| Db.customers ::= f |>)).
Proof. intros s [E W]. split; [exact E|]. by destruct W; split. Qed.
Lemma case_add_customer s0 mk : preserves (case_is s0) (add_customer mk).
Proof. intros s [E W]. split; [exact E|]. by destruct W; split. Qed.
#[export] Hint Resolve case_tick case_uuid case_add_customer : nexus.

Lemma case_resolve s0 a b c : preserves (case_is s0) (resolve_customer a b c).
Proof. unfold resolve_customer, put_customer. preserve. apply case_customers. Qed.
Lemma case_number s0 : preserves (case_is s0) generate_ticket_no.
Proof. unfold generate_ticket_no. preserve. Qed.

Lemma resolve_customer_tenant cid p a s c s' :
  dir_keyed s → table_wf (Db.customers s) → resolve_customer cid p a s = (Ok (Some c), s') →
  Customer.tenant_id c = a.
Proof.
  intros Hk Hwf H. destruct (truthy_id cid) eqn:Hcid.
  - destruct cid as [i|]; [|done]. rewrite resolve_by_id in H by done.
    destruct (table_get _ _) as [c'|]; [|done].
    destruct (ensure_resource_tenant _ _ _ _ _) as [t|e] eqn:Ht; [|done].
    injection H as <- _. exact (resource_tenant_eq _ _ _ _ _ _ Ht).
  - assert (resolve_customer cid p a s = resolve_customer None p a s) as E
      by (unfold resolve_customer; by rewrite Hcid). rewrite E in H.
    destruct p as [p|]; [|done].
    destruct (resolve_inv p a s _ s' Hk Hwf H) as (i & r & [= ->] & _ & Ht & _). done.
Qed.

Definition created_event (i : Z) (user : User.t) (t : Ticket.t) : TicketEvent.t :=
  event i user EventType.ticket_created
      [("ticket_no", JStr (Ticket.ticket_no t)); ("source", JStr (value (Ticket.source t)));
       ("source_channel", JStr (value (Ticket.source_channel t)))]
    <| TicketEvent.note := Some "Ticket created" |>.

(** The events of [creation_intake] *)
Definition intake_events (i : Z) (p : TicketCreate.t) (user : User.t) : list TicketEvent.t :=
  let text c := TicketCreate.texts p !! c in
  if truthy_str (text "ai_summary") || truthy_str (text "ai_classification") ||
     not_null (TicketCreate.ai_confidence p)
  then [event i user EventType.ai_intake_added
           [("confidence", jfloat (TicketCreate.ai_confidence p));
            ("classification", jstr (text "ai_classification"))]
         <| TicketEvent.note := Some "AI intake captured on ticket creation" |>]
  else [].

Lemma creation_intake_run i p user s s' :
  creation_intake i p user s = (Ok tt, s') →
  Db.events s' = Db.events s ++ intake_events i p user ∧ Db.tickets s' = Db.tickets s ∧
  Db.ticket_tags s' = Db.ticket_tags s.
Proof.
  unfold creation_intake, intake_events, when. cbv zeta. destruct (_ || _ || _).
  - intros H. apply bind_Ok_inv in H as ([] & s1 & H1 & H). injection H1 as <-.
    rewrite log_event_run in H. injection H as <-. done.
  - intros [= <-]. by rewrite app_nil_r.
Qed.

Lemma creation_tail_run i ids e p user s r s' :
  (attach_tags i ids;; log_event e;; creation_intake i p user;; get_ticket_or_404 i) s = (Ok r, s') →
  ticket_at s' i = Some r ∧ (∀ j, ticket_at s' j = ticket_at s j) ∧
  Db.events s' = Db.events s ++ e :: intake_events i p user ∧
  Db.ticket_tags s' = retagged i (Some ids) (Db.ticket_tags s) ∧ NoDup ids ∧ Forall (.∈ Db.tags s) ids.
Proof.
  intros H. apply bind_Ok_inv in H as ([] & s1 & H1 & H). apply attach_tags_run in H1 as (-> & Hn & Hf).
  apply bind_Ok_inv in H as ([] & s2 & H2 & H). rewrite log_event_run in H2. injection H2 as <-.
  apply bind_Ok_inv in H as ([] & s3 & H3 & H). apply the_ticket_Ok in H as [-> Hr].
  apply creation_intake_run in H3 as (E1 & E2 & E3). split_and!; try done.
  - intros j. unfold ticket_at. by rewrite E2.
  - rewrite E1. cbn. by rewrite <- app_assoc.
Qed.

(** C5: a creation that returns makes one ticket, under the next id and a number no other
    ticket has, in the tenant of the actor and for a customer of that tenant, if any: with
    the requested columns, [in_progress] when an assignee is named and
    [pending_assignment] when not, never closed.  It is linked to exactly the requested
    tags, which exist; the trail gets [ticket_created] after possible breach events, and
    the AI intake when the request carries one; no other ticket changes. *)
Theorem creation_effect p user s r s' :
  db_wf s → dir_keyed s → table_wf (Db.customers s) → create_ticket p user s = (Ok r, s') →
  let i := tnext (Db.tickets s) in
  ∃ actor customer no created updated bs,
    resolve_actor_tenant_id (Db.dir s) user = Ok actor ∧
    (∀ c, customer = Some c → Customer.tenant_id c = actor) ∧
    ticket_at s i = None ∧ ticket_at s' i = Some r ∧
    sla_core r = sla_core (created_row p user actor customer no created updated i) ∧
    Ticket.tenant_id r = actor ∧
    Ticket.status r = (if truthy_id (TicketCreate.assignee_id p) then TicketStatus.in_progress
                       else TicketStatus.pending_assignment) ∧
    (∀ j t, ticket_at s j = Some t → Ticket.ticket_no t ≠ Ticket.ticket_no r) ∧
    (∀ j, j ≠ i → ticket_at s' j = ticket_at s j) ∧
    Db.events s' = Db.events s ++ bs ++ created_event i user r :: intake_events i p user ∧
    breaches_only i bs ∧
    Db.ticket_tags s' = retagged i (Some (TicketCreate.tag_ids p)) (Db.ticket_tags s) ∧
    NoDup (TicketCreate.tag_ids p) ∧ Forall (.∈ Db.tags s) (TicketCreate.tag_ids p).
Proof.
  intros W Hk Hcw H i.
  destruct (create_split p user s r s' H) as (actor & customer & s1 & no & s2 & c & s3 & u &
    s4 & i' & s5 & t & s6 & Ha & Hc & H1 & H2 & H3 & H4 & H5 & Ht & _ & H6 & H7).
  assert (case_is s s) as C0 by (split; [done | apply W]).
  pose proof (preserves_run _ _ _ _ _ (case_resolve s _ _ _) C0 H1) as C1.
  pose proof (preserves_run _ _ _ _ _ (case_number s) C1 H2) as C2.
  pose proof (preserves_run _ _ _ _ _ (case_tick s) C2 H3) as C3.
  destruct (preserves_run _ _ _ _ _ (case_tick s) C3 H4) as [E4 W4].
  injection E4 as Et Ee Ett Eta Ed.
  apply add_ticket_Ok in H5 as (-> & -> & Hno). rewrite Et in *. fold i in Ht, H6, H7, Hno.
  set (mk := created_row p user actor customer no c u) in *.
  assert (ticket_at (s4 <| Db.tickets ::= fun T => table_add T mk |>) i = Some (mk i)) as Hi
    by (rewrite ticket_at_add, Et; by rewrite decide_True).
  rewrite Hi in Ht. injection Ht as <-.
  assert (sla_wf (s4 <| Db.tickets ::= fun T => table_add T mk |>)) as W5 by (by destruct W4; split).
  destruct (guarded_step i _ _ _ _ (fun s0 => guarded_priority_policy i _ s0) W5 H6) as [W6 F].
  apply creation_tail_run in H7 as (Hr & Hat & He & Htags & Hn & Hf).
  assert (sla_core r = sla_core (mk i)) as Hcore.
  { pose proof (fr_core _ _ _ F) as Hfc. rewrite Hi, <- Hat, Hr in Hfc.
    change (Some (sla_core r) = Some (sla_core (mk i))) in Hfc. by apply (inj Some). }
  destruct (fr_events _ _ _ F) as (bs & Hbs & Hbf).
  destruct (created_columns_of p user actor customer no c u i) as (_ & Hnum & Hten & Hst & _).
  fold mk in Hnum, Hten, Hst.
  assert (Ticket.ticket_no r = Ticket.ticket_no (mk i)) as En by exact (f_equal Ticket.ticket_no Hcore).
  assert (Ticket.source r = Ticket.source (mk i)) as Es by exact (f_equal Ticket.source Hcore).
  assert (Ticket.source_channel r = Ticket.source_channel (mk i)) as Ec
    by exact (f_equal Ticket.source_channel Hcore).
  pose proof (fr_rest _ _ _ F) as R.
  exists actor, customer, no, c, u, bs. split_and!; try done.
  - intros x ->. by eapply resolve_customer_tenant.
  - unfold ticket_at, table_get, i. apply table_fresh, W.
  - rewrite <- Hten. exact (f_equal Ticket.tenant_id Hcore).
  - rewrite <- Hst. exact (f_equal Ticket.status Hcore).
  - intros j x Hx. rewrite En. apply (Hno j). unfold ticket_at in *. by rewrite Et.
  - intros j Hj. rewrite Hat, (fr_other _ _ _ F j Hj), ticket_at_add, Et.
    rewrite decide_False by (intros E; by apply Hj). unfold ticket_at. by rewrite Et.
  - rewrite He, Hbs. unfold created_event. rewrite En, Es, Ec.
    change (Db.events (s4 <| Db.tickets ::= fun T => table_add T mk |>)) with (Db.events s4).
    rewrite Ee, <- app_assoc. done.
  - rewrite Htags. f_equal. etrans; [exact (f_equal Db.ticket_tags R) | exact Ett].
  - assert (Db.tags s6 = Db.tags s) as Ex by (etrans; [exact (f_equal Db.tags R) | exact Eta]).
    by rewrite <- Ex.
Qed.

(** ** Witnesses *)

Lemma fix_tickets i t :
  ticket_at Fix.db i = Some t →
  (i = 1 ∧ t = Fix.ticket 1 TicketStatus.in_progress) ∨ (i = 2 ∧ t = Fix.ticket 2 TicketStatus.resolved).
Proof.
  unfold ticket_at, table_get. cbn [Db.tickets Fix.db trows]. intros [[<- <-]|[_ H]]%lookup_insert_Some;
    [by left|]. apply lookup_singleton_Some in H as [<- <-]. by right.
Qed.

Lemma fix_db_wf : db_wf Fix.db.
Proof.
  split; try (intros i r; cbn; by rewrite lookup_empty).
  - exact fix_sla_wf.
  - intros i t Ht. destruct (fix_tickets i t Ht) as [[-> _]|[-> _]]; cbn; lia.
  - intros i t Ht. by destruct (fix_tickets i t Ht) as [[-> ->]|[-> ->]].
  - intros i j t u Ht Hu. destruct (fix_tickets i t Ht) as [[-> ->]|[-> ->]],
      (fix_tickets j u Hu) as [[-> ->]|[-> ->]]; done.
  - intros i t Ht. assert (ticket_ok (Db.dir Fix.db) t); [|done].
    destruct (fix_tickets i t Ht) as [[-> ->]|[-> ->]];
      (split; [done|]); intros a x [= <-] _ [= <-]; exists Fix.agent; by split.
  - exact fix_people.
  - done.
Qed.

Lemma ticket_requests_authorized_witness :
  authorized Fix.manager (DoStatus 2 closing) 2 Fix.db ∧
  ∃ e, serve Fix.stranger (DoStatus 2 closing) Fix.db = (Err e, Fix.db).
Proof.
  split.
  - destruct (run_ok (serve Fix.manager (DoStatus 2 closing)) Fix.db ltac:(vm_compute; reflexivity))
      as [[] H].
    exact (proj1 (ticket_requests_authorized Fix.manager (DoStatus 2 closing) 2 Fix.db eq_refl) _ H).
  - apply (ticket_requests_authorized Fix.stranger (DoStatus 2 closing) 2 Fix.db eq_refl).
    intros (t & Ht & Hv & _). destruct (fix_tickets 2 t Ht) as [[E _]|[_ ->]]; [discriminate E|].
    assert (is_ok (ensure_ticket_visible Fix.stranger (Fix.ticket 2 TicketStatus.resolved)
      (Some Fix.db)) = false) as E by (vm_compute; reflexivity).
    by rewrite Hv in E.
Defined.

(** Close, escalate and reopen the ticket, then create another one. *)
Definition newticket : TicketCreate.t :=
  {| TicketCreate.title := "Late"; TicketCreate.description := "Two days late";
     TicketCreate.source := TicketSource.api; TicketCreate.source_channel := SourceChannel.email;
     TicketCreate.priority := TicketPriority.medium; TicketCreate.texts := {["ai_summary" := "late"]};
     TicketCreate.team_id := None; TicketCreate.assignee_id := Some 30;
     TicketCreate.market_id := Some 10; TicketCreate.customer := Some newcomer;
     TicketCreate.customer_id := None; TicketCreate.tag_ids := [8; 7];
     TicketCreate.ai_confidence := None |}.

Definition a_day : list (User.t * request) :=
  [(Fix.manager, DoStatus 2 closing); (Fix.agent, DoEscalate 1 to_support);
   (Fix.manager, DoReopen 2 again); (Fix.manager, DoCreate newticket)].

Lemma ticket_history_invariant_witness :
  db_wf (serve_all a_day Fix.db) ∧ evolves Fix.db (serve_all a_day Fix.db).
Proof. exact (ticket_history_invariant a_day Fix.db fix_db_wf). Defined.

Lemma creation_effect_witness :
  ∃ r s', create_ticket newticket Fix.manager Fix.db = (Ok r, s') ∧
    ticket_at s' 3 = Some r ∧ Ticket.status r = TicketStatus.in_progress ∧
    Ticket.tenant_id r = Some 1.
Proof.
  destruct (run_ok (create_ticket newticket Fix.manager) Fix.db ltac:(vm_compute; reflexivity)) as [r H].
  exists r, (snd (create_ticket newticket Fix.manager Fix.db)). split; [exact H|].
  destruct (creation_effect newticket Fix.manager Fix.db r _ fix_db_wf fix_keyed fix_customers_wf H)
    as (actor & customer & no & c & u & bs & Ha & _ & _ & Hr & _ & Ht & Hst & _).
  split; [exact Hr|]. split; [exact Hst|]. rewrite Ht.
  assert (resolve_actor_tenant_id (Db.dir Fix.db) Fix.manager = Ok (Some 1)) as E
    by (vm_compute; reflexivity).
  rewrite E in Ha. by injection Ha as <-.
Defined.
