(* ===== verification/Work.v ===== *)
(** * The tables of the background work

    Rows of [models.py] ([BackgroundJob], [OutboundEmailAccount]),
    [models_job_scope.py], [models_agent_routing.py], [models_privacy_runtime.py] and
    [webchat_models.py], one record per class, and the database of the workers: the
    ticket database of Models.v with these tables beside it.

    A JSON text column is held as the value [json.loads] gives for it: every writer
    of these columns stores [json.dumps] of a value. *)

From S2P Require Import Prelude Calendar Enums Models.

(** ** Durable jobs *)

Module BackgroundJob.
Record t := {
  id : Z; queue_name : string; job_type : string; payload_json : json;
  dedupe_key : option string; status : JobStatus.t; attempt_count : Z; max_attempts : Z;
  next_run_at : option Z; locked_at : option Z; locked_by : option string;
  last_error : option string; created_at : Z; updated_at : Z }.
#[global] Instance eta : Settable t := fun r => {|
  id := id r; queue_name := queue_name r; job_type := job_type r;
  payload_json := payload_json r; dedupe_key := dedupe_key r; status := status r;
  attempt_count := attempt_count r; max_attempts := max_attempts r;
  next_run_at := next_run_at r; locked_at := locked_at r; locked_by := locked_by r;
  last_error := last_error r; created_at := created_at r; updated_at := updated_at r |}.
End BackgroundJob.

Module BackgroundJobScope.
Record t := {
  job_id : Z; scope_type : string; tenant_id : option Z; customer_id : option Z;
  purpose : string; resource_type : option string; resource_id : option string;
  source_schema : string }.
#[global] Instance eta : Settable t := fun r => {|
  job_id := job_id r; scope_type := scope_type r; tenant_id := tenant_id r;
  customer_id := customer_id r; purpose := purpose r; resource_type := resource_type r;
  resource_id := resource_id r; source_schema := source_schema r |}.
End BackgroundJobScope.

Module DataProcessingRestriction.
Record t := {
  id : Z; tenant_id : Z; customer_id : Z; status : string; blocked_purposes_json : list string;
  allowed_purposes_json : list string }.
#[global] Instance eta : Settable t := fun r => {|
  id := id r; tenant_id := tenant_id r; customer_id := customer_id r; status := status r;
  blocked_purposes_json := blocked_purposes_json r;
  allowed_purposes_json := allowed_purposes_json r |}.
End DataProcessingRestriction.

(** ** Conversations and AI turns *)

Module WebchatConversation.
Record t := {
  id : Z; public_id : string; tenant_key : string; channel_key : string; ticket_id : option Z;
  visitor_name : option string; status : string; created_at : Z; active_ai_turn_id : option Z;
  active_ai_status : option string; active_ai_for_message_id : option Z;
  active_ai_context_cutoff_message_id : option Z; next_ai_turn_id : option Z;
  active_ai_started_at : option Z; active_ai_updated_at : option Z;
  current_handoff_request_id : option Z; handoff_status : string; active_agent_id : option Z;
  ai_suspended : bool; ai_suspended_at : option Z; ai_suspended_by : option Z;
  ai_suspended_reason : option string; takeover_mode : option string;
  last_handoff_reason : option string; last_seen_at : Z; updated_at : Z }.
#[global] Instance eta : Settable t := fun r => {|
  id := id r; public_id := public_id r; tenant_key := tenant_key r;
  channel_key := channel_key r; ticket_id := ticket_id r; visitor_name := visitor_name r;
  status := status r; created_at := created_at r; active_ai_turn_id := active_ai_turn_id r;
  active_ai_status := active_ai_status r;
  active_ai_for_message_id := active_ai_for_message_id r;
  active_ai_context_cutoff_message_id := active_ai_context_cutoff_message_id r;
  next_ai_turn_id := next_ai_turn_id r; active_ai_started_at := active_ai_started_at r;
  active_ai_updated_at := active_ai_updated_at r;
  current_handoff_request_id := current_handoff_request_id r;
  handoff_status := handoff_status r; active_agent_id := active_agent_id r;
  ai_suspended := ai_suspended r; ai_suspended_at := ai_suspended_at r;
  ai_suspended_by := ai_suspended_by r; ai_suspended_reason := ai_suspended_reason r;
  takeover_mode := takeover_mode r; last_handoff_reason := last_handoff_reason r;
  last_seen_at := last_seen_at r; updated_at := updated_at r |}.
End WebchatConversation.

Module ConversationControl.
Record t := {
  id : Z; conversation_id : Z; customer_id : option Z; tenant_key : string;
  country_code : option string; channel_key : string; outcome : option string;
  closed_at : option Z; closed_by_user_id : option Z; closure_note : option string;
  created_at : Z; updated_at : Z }.
#[global] Instance eta : Settable t := fun r => {|
  id := id r; conversation_id := conversation_id r; customer_id := customer_id r;
  tenant_key := tenant_key r; country_code := country_code r; channel_key := channel_key r;
  outcome := outcome r; closed_at := closed_at r; closed_by_user_id := closed_by_user_id r;
  closure_note := closure_note r; created_at := created_at r; updated_at := updated_at r |}.
End ConversationControl.

Module WebchatMessage.
Record t := {
  id : Z; conversation_id : Z; ticket_id : option Z; direction : string; ai_turn_id : option Z;
  author_label : option string }.
#[global] Instance eta : Settable t := fun r => {|
  id := id r; conversation_id := conversation_id r; ticket_id := ticket_id r;
  direction := direction r; ai_turn_id := ai_turn_id r; author_label := author_label r |}.
End WebchatMessage.

Module WebchatAITurn.
Record t := {
  id : Z; conversation_id : Z; ticket_id : option Z; trigger_message_id : Z;
  latest_visitor_message_id : option Z; context_cutoff_message_id : option Z;
  job_id : option Z; status : string; status_reason : option string;
  reply_message_id : option Z; reply_source : option string; fallback_reason : option string;
  fact_gate_reason : option string; bridge_elapsed_ms : option Z; bridge_timeout_ms : option Z;
  runtime_trace_json : option json; superseded_by_turn_id : option Z;
  is_public_reply_allowed : bool; cancelled_by_user_id : option Z;
  cancellation_reason_code : option string; started_at : option Z; completed_at : option Z;
  created_at : Z; updated_at : Z }.
#[global] Instance eta : Settable t := fun r => {|
  id := id r; conversation_id := conversation_id r; ticket_id := ticket_id r;
  trigger_message_id := trigger_message_id r;
  latest_visitor_message_id := latest_visitor_message_id r;
  context_cutoff_message_id := context_cutoff_message_id r; job_id := job_id r;
  status := status r; status_reason := status_reason r; reply_message_id := reply_message_id r;
  reply_source := reply_source r; fallback_reason := fallback_reason r;
  fact_gate_reason := fact_gate_reason r; bridge_elapsed_ms := bridge_elapsed_ms r;
  bridge_timeout_ms := bridge_timeout_ms r; runtime_trace_json := runtime_trace_json r;
  superseded_by_turn_id := superseded_by_turn_id r;
  is_public_reply_allowed := is_public_reply_allowed r;
  cancelled_by_user_id := cancelled_by_user_id r;
  cancellation_reason_code := cancellation_reason_code r; started_at := started_at r;
  completed_at := completed_at r; created_at := created_at r; updated_at := updated_at r |}.
End WebchatAITurn.

Module WebchatEvent.
Record t := {
  conversation_id : Z; ticket_id : option Z; event_type : string; payload_json : json }.
#[global] Instance eta : Settable t := fun r => {|
  conversation_id := conversation_id r; ticket_id := ticket_id r; event_type := event_type r;
  payload_json := payload_json r |}.
End WebchatEvent.

(** ** The database of the workers

    [mail_accounts] holds the one column the modelled code reads of
    [OutboundEmailAccount] (the market, by account), [address_updates] the status by key
    of [SpeedafAddressUpdateIdempotency]. *)
Module Work.
Record t := {
  core : Db.t; jobs : Table BackgroundJob.t; scopes : gmap Z BackgroundJobScope.t;
  restrictions : Table DataProcessingRestriction.t; address_updates : gmap string string;
  conversations : Table WebchatConversation.t; controls : Table ConversationControl.t;
  mail_accounts : gmap Z (option Z); turns : Table WebchatAITurn.t;
  wmessages : Table WebchatMessage.t; wevents : list WebchatEvent.t }.
#[global] Instance eta : Settable t := fun r => {|
  core := core r; jobs := jobs r; scopes := scopes r; restrictions := restrictions r;
  address_updates := address_updates r; conversations := conversations r;
  controls := controls r; mail_accounts := mail_accounts r; turns := turns r;
  wmessages := wmessages r; wevents := wevents r |}.
End Work.

(** The settings of the job workers *)
Module JobSettings.
Record t := { job_max_retries : Z; job_batch_size : Z; job_lock_seconds : Z }.
End JobSettings.

(** Run an operation of the ticket domain in the database of the workers *)
Definition on_core {A} (m : M Db.t A) : M Work.t A := fun w =>
  let (r, s) := m (Work.core w) in (r, w <| Work.core := s |>).

Definition now : M Work.t Z := on_core utc_now.

Definition job_at (w : Work.t) (i : Z) : option BackgroundJob.t := table_get (Work.jobs w) i.

(** [db.query(ConversationControl).filter(... == conversation_id).first()] *)
Definition control_of (w : Work.t) (conversation_id : Z) : option ConversationControl.t :=
  select_first (fun c => ConversationControl.conversation_id c =? conversation_id) (Work.controls w).
