(* ===== verification/Redaction.v ===== *)
(** * Redaction of finished provider jobs

    [services/speedaf/redactor.py] (hashes, suffixes and masks of personal data) and
    [_scrub_completed_speedaf_job_payload] of [services/background_jobs.py]: what is
    left of the payload of a job that called the Speedaf provider once it is done.

    [sha256_hex] is [hashlib.sha256(text.encode(...)).hexdigest()].  Payload values
    are text, numbers, booleans or objects, as the enqueue functions store them; the
    text of a container or of a float is not modelled ([py_str]). *)

From S2P Require Import Prelude Calendar Enums Models Work.

Definition WEBCHAT_AI_REPLY_JOB : string := "webchat.ai_reply".
Definition WEBCHAT_HANDOFF_SNAPSHOT_JOB : string := "webchat.handoff_snapshot".
Definition WEBCHAT_WHATSAPP_DELIVERY_JOB : string := "webchat.whatsapp_delivery".
Definition SPEEDAF_WORK_ORDER_CREATE_JOB : string := "speedaf.work_order.create".
Definition SPEEDAF_ADDRESS_UPDATE_JOB : string := "speedaf.address_update.submit".
Definition SPEEDAF_VOICE_CALLBACK_JOB : string := "speedaf.voice.callback".
Definition EMAIL_MAILBOX_SYNC_JOB : string := "email.mailbox_sync".
Definition SPEEDAF_WORK_ORDER_DESCRIPTION_MAX_LENGTH : nat := 200.

Definition SPEEDAF_SENSITIVE_JOB_TYPES : list string :=
  [SPEEDAF_WORK_ORDER_CREATE_JOB; SPEEDAF_ADDRESS_UPDATE_JOB; SPEEDAF_VOICE_CALLBACK_JOB].

(** ** Text of a value *)

(** [str(value or "")] *)
Definition text_of (v : json) : string := py_str (json_or v (JStr EmptyString)).

(** [s[-n:]] *)
Definition str_last (n : nat) (s : string) : string :=
  String.substring (String.length s - n) n s.

(** [re.sub(pattern, "", s)] for a pattern that matches runs of characters with [p] *)
Fixpoint drop_chars (p : Ascii.ascii → bool) (s : string) : string :=
  match s with
  | EmptyString => EmptyString
  | String c s' => if p c then drop_chars p s' else String c (drop_chars p s')
  end.

Definition suffix (value : json) : option string :=
  let cleaned := drop_chars is_space (py_strip (text_of value)) in
  if nonempty cleaned then Some (str_last 4 cleaned) else None.

Fixpoint stars (n : nat) : string :=
  match n with O => EmptyString | S n' => "*" +:+ stars n' end.

Definition mask_phone (value : json) : option string :=
  let cleaned := drop_chars (fun c => negb (is_digit c)) (text_of value) in
  if negb (nonempty cleaned) then None
  else if str_len cleaned <=? 4 then Some (stars (String.length cleaned))
  else Some ("***" +:+ str_last 4 cleaned).

Section Redactor.
Context (sha256_hex : string → string).

Definition sha256_prefix (length : nat) (value : json) : option string :=
  let cleaned := py_strip (text_of value) in
  if nonempty cleaned then Some (str_take length (sha256_hex cleaned)) else None.

Definition hash_value (value : json) : option string :=
  match sha256_prefix 64 value with
  | Some prefix => if nonempty prefix then Some ("sha256:" +:+ prefix) else None
  | None => None
  end.

Definition jopt (o : option string) : json := json_of_option JStr o.

Definition safe_caller_payload (caller_id : string) : list (string * json) :=
  [("caller_id_hash", jopt (hash_value (JStr caller_id)));
   ("caller_id_suffix", jopt (suffix (JStr caller_id)))].

Definition safe_waybill_payload (waybill_code : string) : list (string * json) :=
  [("waybill_hash", jopt (hash_value (JStr (py_upper waybill_code))));
   ("waybill_suffix", jopt (suffix (JStr waybill_code)))].

(** ** The scrubbed payload *)

(** [for key in (...): if key in payload: safe_payload[key] = payload.get(key)] *)
Definition kept_ids (payload : list (string * json)) : list (string * json) :=
  omap (fun k => pair k <$> assoc_get k payload) ["ticket_id"; "conversation_id"; "request_id"].

Definition scrubbed_work_order (p : json) : list (string * json) :=
  [("workOrderType", json_get "workOrderType" p);
   ("description_present", JBool (truthy (json_get "description" p)))] ++
  safe_waybill_payload (text_of (json_get "waybillCode" p)) ++
  safe_caller_payload (text_of (json_get "callerID" p)).

Definition scrubbed_address_update (p : json) : list (string * json) :=
  let phone := JStr (text_of (json_get "whatsAppPhone" p)) in
  [("addressUpdateDedupeKey", json_get "addressUpdateDedupeKey" p)] ++
  safe_waybill_payload (text_of (json_get "waybillCode" p)) ++
  safe_caller_payload (text_of (json_get "callerID" p)) ++
  [("whatsapp_phone", JObj [("redacted", JBool true); ("masked", jopt (mask_phone phone));
                            ("sha256_prefix", jopt (sha256_prefix 16 phone))])].

Definition action_of (p : json) : json :=
  match json_get "action" p with JObj l => JObj l | _ => JObj [] end.

Definition scrubbed_voice_callback (p : json) : list (string * json) :=
  let action := action_of p in
  let call := json_get "callSessionId" p in
  let present k := JBool (truthy (json_get k action)) in
  [("voice_session_id", json_get "voice_session_id" p);
   ("voiceCallbackDedupeKey", json_get "voiceCallbackDedupeKey" p);
   ("call_session", JObj [("redacted", JBool true); ("suffix", jopt (suffix call));
                          ("sha256_prefix", jopt (sha256_prefix 16 call))]);
   ("isTransferredToHuman", json_get "isTransferredToHuman" p);
   ("action", JObj ([("action", json_get "action" action);
                     ("actionStatus", json_get "actionStatus" action);
                     ("actionTime_present", present "actionTime");
                     ("aiActionSummary_present", present "aiActionSummary");
                     ("errorCode_present", present "errorCode")] ++
                    safe_waybill_payload (text_of (json_get "waybillCode" action))))].

Definition scrubbed_payload (job_type : string) (payload_json : json) : json :=
  let fields := match payload_json with JObj l => l | _ => [] end in
  let p := JObj fields in
  JObj ([("scrubbed", JBool true); ("scrub_reason", JStr "speedaf_job_completed");
         ("job_type", JStr job_type)] ++ kept_ids fields ++
        (if decide (job_type = SPEEDAF_WORK_ORDER_CREATE_JOB) then scrubbed_work_order p
         else if decide (job_type = SPEEDAF_ADDRESS_UPDATE_JOB) then scrubbed_address_update p
         else scrubbed_voice_callback p)).

Definition _scrub_completed_speedaf_job_payload (job : BackgroundJob.t) : BackgroundJob.t :=
  if bool_decide (BackgroundJob.job_type job ∈ SPEEDAF_SENSITIVE_JOB_TYPES)
  then job <| BackgroundJob.payload_json ::= scrubbed_payload (BackgroundJob.job_type job) |>
  else job.
End Redactor.
