(* ===== verification/Contracts.v ===== *)
(** * The contract of an AI reply

    [services/ai_reply_contract.py]: the signature that a run of the model puts on its
    reply, the payload that is stored with it, their validation, and the check that binds
    the payload to the stored row.

    [sha256_hex] is the hex digest of a text, [hmac_sha256_hex] the one keyed by a secret,
    [dumps] the text of [json.dumps] with sorted keys; the text of a payload is held as
    its value, as in Work.v.  Items of the source lists are texts; of other items only
    the truth value and the text of numbers and booleans are modelled ([py_str]). *)

From S2P Require Import Prelude Calendar Enums Models Redaction.

Definition AI_REPLY_CONTRACT : string := "nexus.ai_reply.v3".
Definition AI_ORIGINS : list string := ["provider_runtime"; "ai_runtime"].
Definition HUMAN_ORIGIN : string := "human_agent".
Definition FORBIDDEN_CUSTOMER_VISIBLE_ORIGINS : list string :=
  ["business_system"; "tool_service"; "knowledge_runtime"; "safety_service"].
Definition VALID_SAFETY_STATUSES : list string := ["passed"; "reviewed"].
Definition VALID_AI_REPLY_CONTRACTS : list string := [AI_REPLY_CONTRACT].
Definition VALID_REPLY_TYPES : list string :=
  ["answer"; "clarifying_question"; "handoff_notice"; "null_reply"].
Definition WEAK_RUNTIME_CONTRACT_SECRETS : list string :=
  [EmptyString; "change-me"; "changeme"; "replace-me"; "replace_this"; "secret"; "default";
   "dev-only"].
Definition HUMAN_REPLY_STATES : list ConversationState.t :=
  [ConversationState.human_owned; ConversationState.ready_to_reply].

(** ** The signing secret *)

Module ContractSettings.
Record t := { app_env : string; runtime_contract_signing_secret : string }.
End ContractSettings.

Definition runtime_contract_secret_problem (secret : string) : option string :=
  let value := py_strip secret in
  if str_len value <? 32 then Some "too_short"
  else if bool_decide (py_lower value ∈ WEAK_RUNTIME_CONTRACT_SECRETS) then Some "placeholder"
  else if String.prefix "dev-only-" value then Some "placeholder"
  else None.

Definition is_development (cfg : ContractSettings.t) : bool :=
  bool_decide (ContractSettings.app_env cfg ∈ ["test"; "development"; "local"]).

Definition runtime_contract_signing_secret (cfg : ContractSettings.t) : result string :=
  let secret := ContractSettings.runtime_contract_signing_secret cfg in
  if is_development cfg && negb (nonempty secret) then Ok "test-runtime-contract-signing-secret"
  else match runtime_contract_secret_problem secret with
       | Some _ => Err (RuntimeError "RUNTIME_CONTRACT_SIGNING_SECRET must be a strong secret")
       | None => Ok secret
       end.

Definition runtime_contract_secret_ready (cfg : ContractSettings.t) : bool :=
  let secret := ContractSettings.runtime_contract_signing_secret cfg in
  match runtime_contract_secret_problem secret with None => true | Some _ => is_development cfg end.

(** ** The payload *)

(** [str(value or "").strip()[:240]] *)
Definition clean_item (v : json) : option string :=
  let item := py_strip (text_of v) in
  if nonempty item then Some (str_take 240 item) else None.

Definition _clean_list (values : json) : result (list string) :=
  if truthy values then iter_json values ≫= (fun l : list json => Ok (omap clean_item l)) else Ok [].

Definition texts (l : list string) : json := JArr (JStr <$> l).

(** [value in {...}]: a list or a dict does not hash *)
Definition in_set (v : json) (l : list string) : result bool :=
  match v with
  | JArr _ | JObj _ => Err (TypeError "unhashable type")
  | JStr s => Ok (bool_decide (s ∈ l))
  | _ => Ok false
  end.

(** What a signature covers besides the body.  The values come from code or from a stored
    payload, where they may be anything. *)
Module Grounds.
Record t := {
  reply_type : json; used_sources : json; unsupported_claims : json; conflicts : json;
  confidence : json; channel : json }.
End Grounds.

Section Contract.
Context (sha256_hex : string → string) (hmac_sha256_hex : string → string → string).
Context (dumps : json → string) (cfg : ContractSettings.t).

Definition _body_sha256 (body : option string) (reply_type : json) : option string :=
  if bool_decide (reply_type = JStr "null_reply") && negb (not_null body) then None
  else Some (sha256_hex (default EmptyString body)).

Definition jtext (o : option string) : json := json_of_option JStr o.

(** The dict that is signed *)
Definition signed_payload (body : option string) (runtime_trace_id contract_version safety_status : json)
    (g : Grounds.t) (used_sources unsupported_claims conflicts : list string) : json :=
  let digest := jtext (_body_sha256 body (Grounds.reply_type g)) in
  JObj [("body_sha256", digest); ("runtime_trace_id", runtime_trace_id);
        ("contract_version", contract_version); ("safety_status", safety_status);
        ("reply", JObj [("type", Grounds.reply_type g); ("text_sha256", digest)]);
        ("grounding", JObj [("used_sources", texts used_sources);
                            ("unsupported_claims", texts unsupported_claims);
                            ("conflicts", texts conflicts)]);
        ("risk", JObj [("confidence", Grounds.confidence g)]); ("channel", Grounds.channel g)].

Definition sign_ai_reply_contract (body : option string)
    (runtime_trace_id contract_version safety_status : json) (g : Grounds.t) : result string :=
  if decide (contract_version = JStr AI_REPLY_CONTRACT) then
    used ← _clean_list (Grounds.used_sources g);
    unsupported ← _clean_list (Grounds.unsupported_claims g);
    conflicts ← _clean_list (Grounds.conflicts g);
    secret ← runtime_contract_signing_secret cfg;
    Ok (hmac_sha256_hex secret
          (dumps (signed_payload body runtime_trace_id contract_version safety_status g
                    used unsupported conflicts)))
  else Err (ValueError "runtime_contract_version_invalid").

Definition is_type (s : string) (g : Grounds.t) : bool := bool_decide (Grounds.reply_type g = JStr s).

(** [condition and _clean_list(values)]: the list is read only when the condition holds *)
Definition some_item (b : bool) (values : json) : result bool :=
  if b then l ← _clean_list values; Ok (negb (bool_decide (l = []))) else Ok false.

Definition validate_ai_reply_payload (g : Grounds.t) (customer_visible : bool) : result (option string) :=
  known ← in_set (Grounds.reply_type g) VALID_REPLY_TYPES;
  if negb known then Ok (Some "ai_reply_type_invalid")
  else if is_type "null_reply" g then
    Ok (if customer_visible then Some "ai_reply_null_reply_not_customer_visible" else None)
  else
    let answer := is_type "answer" g in
    sourced ← some_item answer (Grounds.used_sources g);
    if answer && negb sourced then Ok (Some "ai_reply_answer_requires_used_sources") else
    unsupported ← some_item answer (Grounds.unsupported_claims g);
    if (unsupported : bool) then Ok (Some "ai_reply_unsupported_claims_blocked") else
    conflicting ← some_item answer (Grounds.conflicts g);
    if (conflicting : bool) then Ok (Some "ai_reply_conflicts_blocked") else
    unsupported ← some_item (is_type "handoff_notice" g) (Grounds.unsupported_claims g);
    Ok (if (unsupported : bool) then Some "ai_reply_handoff_notice_unsupported_claims_blocked" else None).

(** [None]: the reply is valid *)
Definition validate_ai_reply_contract (body : option string)
    (runtime_trace_id contract_version runtime_signature safety_status : json) (g : Grounds.t)
    (customer_visible : bool) : result (option string) :=
  if negb (truthy runtime_trace_id) then Ok (Some "runtime_trace_id_required") else
  known ← in_set contract_version VALID_AI_REPLY_CONTRACTS;
  if negb known then Ok (Some "runtime_contract_version_invalid") else
  safe ← in_set safety_status VALID_SAFETY_STATUSES;
  if negb safe then Ok (Some "runtime_safety_status_invalid") else
  violation ← validate_ai_reply_payload g customer_visible;
  match violation with
  | Some v => Ok (Some v)
  | None =>
      match sign_ai_reply_contract body runtime_trace_id contract_version safety_status g with
      | Ok expected => Ok (if decide (runtime_signature = JStr expected) then None
                           else Some "runtime_signature_invalid")
      | Err (ValueError _) => Ok (Some "runtime_contract_version_invalid")
      | Err e => Err e
      end
  end.

Definition build_ai_reply_contract_payload (body : option string)
    (runtime_trace_id contract_version runtime_signature safety_status origin : string)
    (g : Grounds.t) (customer_visible : bool) : result json :=
  if decide (contract_version = AI_REPLY_CONTRACT) then
    used ← _clean_list (Grounds.used_sources g);
    unsupported ← _clean_list (Grounds.unsupported_claims g);
    conflicts ← _clean_list (Grounds.conflicts g);
    Ok (JObj [("runtime_trace_id", JStr runtime_trace_id); ("contract_version", JStr contract_version);
              ("runtime_signature", JStr runtime_signature); ("safety_status", JStr safety_status);
              ("origin", JStr origin);
              ("reply", JObj [("type", Grounds.reply_type g);
                              ("text", if is_type "null_reply" g then JNull else jtext body)]);
              ("customer_visible", JBool customer_visible);
              ("grounding", JObj [("used_sources", texts used); ("unsupported_claims", texts unsupported);
                                  ("conflicts", texts conflicts)]);
              ("risk", JObj [("confidence", Grounds.confidence g)]); ("channel", Grounds.channel g)])
  else Err (ValueError "runtime_contract_version_invalid").

Definition contract_payload_sha256 (payload_json : option json) : option string :=
  (fun p => sha256_hex (dumps p)) <$> payload_json.

Definition validate_contract_payload_hash (payload_json : option json) (expected_sha256 : option string)
    : option string :=
  match payload_json, truthy_str expected_sha256 with
  | None, false => None
  | Some _, true => if decide (contract_payload_sha256 payload_json = expected_sha256) then None
                    else Some "runtime_contract_payload_hash_invalid"
  | _, _ => Some "runtime_contract_payload_hash_missing"
  end.

Definition parse_runtime_contract_payload (payload_json : option json) : json :=
  match payload_json with Some (JObj l) => JObj l | _ => JObj [] end.
End Contract.

(** ** The contract of a run *)

Module AIReplyContract.
Record t := {
  runtime_trace_id : string; contract_version : string; runtime_signature : string;
  safety_status : string; reply_type : string; used_sources : list string;
  unsupported_claims : list string; conflicts : list string; confidence : option float;
  channel : option string }.
End AIReplyContract.

Definition grounds (reply_type : string) (used unsupported conflicts : json) (confidence : option float)
    (channel : option string) : Grounds.t :=
  {| Grounds.reply_type := JStr reply_type; Grounds.used_sources := used;
     Grounds.unsupported_claims := unsupported; Grounds.conflicts := conflicts;
     Grounds.confidence := json_of_option JFloat confidence; Grounds.channel := jtext channel |}.

Definition contract_grounds (c : AIReplyContract.t) : Grounds.t :=
  grounds (str_or (Some (AIReplyContract.reply_type c)) "answer") (texts (AIReplyContract.used_sources c))
    (texts (AIReplyContract.unsupported_claims c)) (texts (AIReplyContract.conflicts c))
    (AIReplyContract.confidence c) (AIReplyContract.channel c).

(** A list argument that may be left out *)
Definition given (l : option (list string)) : json := match l with Some l => texts l | None => JNull end.

(** What [contract_validation_args_from_payload] reads from a payload *)
Module Args.
Record t := {
  runtime_trace_id : json; contract_version : json; runtime_signature : json; safety_status : json;
  origin : json; body : json; grounds : Grounds.t; customer_visible : bool }.
End Args.

(** [payload.get(k) if isinstance(payload.get(k), dict) else {}] *)
Definition sub_dict (k : string) (payload : json) : json :=
  match json_get k payload with JObj l => JObj l | _ => JObj [] end.

Definition contract_validation_args_from_payload (payload : json) : Args.t :=
  let reply := sub_dict "reply" payload in
  let grounding := sub_dict "grounding" payload in
  {| Args.runtime_trace_id := json_get "runtime_trace_id" payload;
     Args.contract_version := json_get "contract_version" payload;
     Args.runtime_signature := json_get "runtime_signature" payload;
     Args.safety_status := json_get "safety_status" payload;
     Args.origin := json_get "origin" payload; Args.body := json_get "text" reply;
     Args.grounds :=
       {| Grounds.reply_type := json_or (json_get "type" reply) (JStr "answer");
          Grounds.used_sources := json_get "used_sources" grounding;
          Grounds.unsupported_claims := json_get "unsupported_claims" grounding;
          Grounds.conflicts := json_get "conflicts" grounding;
          Grounds.confidence := json_get "confidence" (sub_dict "risk" payload);
          Grounds.channel := json_get "channel" payload |};
     Args.customer_visible := match payload with
                              | JObj l => truthy (default (JBool true) (assoc_get "customer_visible" l))
                              | _ => true
                              end |}.

Section Build.
Context (sha256_hex : string → string) (hmac_sha256_hex : string → string → string).
Context (dumps : json → string) (cfg : ContractSettings.t).

#[local] Abbreviation sign := (sign_ai_reply_contract sha256_hex hmac_sha256_hex dumps cfg).

(** The first of the keys with a text that is not blank *)
Fixpoint first_text (keys : list string) (trace : json) : option string :=
  match keys with
  | [] => None
  | k :: keys => match json_get k trace with
                 | JStr s => if nonempty (py_strip s) then Some (str_take 120 (py_strip s))
                             else first_text keys trace
                 | _ => first_text keys trace
                 end
  end.

(** [uuid4_hex] is the random text used for an empty trace *)
Definition _trace_id (uuid4_hex : string) (trace : json) : string :=
  match first_text ["runtime_trace_id"; "trace_id"; "request_id"] trace with
  | Some s => s
  | None => if truthy trace then str_take 32 (sha256_hex (dumps trace)) else "rt_" +:+ uuid4_hex
  end.

Definition build_ai_reply_contract (uuid4_hex : string) (body : option string) (runtime_trace : json)
    (safety_status contract_version reply_type : string)
    (used_sources unsupported_claims conflicts : option (list string))
    (confidence : option float) (channel : option string) : result AIReplyContract.t :=
  let trace := match runtime_trace with JObj l => JObj l | _ => JObj [] end in
  let trace_id := _trace_id uuid4_hex trace in
  let g := grounds reply_type (given used_sources) (given unsupported_claims) (given conflicts)
             confidence channel in
  if decide (contract_version = AI_REPLY_CONTRACT) then
    violation ← validate_ai_reply_payload g (negb (bool_decide (reply_type = "null_reply")));
    match violation with
    | Some v => Err (ValueError v)
    | None =>
        signature ← sign body (JStr trace_id) (JStr contract_version) (JStr safety_status) g;
        used ← _clean_list (given used_sources);
        unsupported ← _clean_list (given unsupported_claims);
        conflicts ← _clean_list (given conflicts);
        Ok {| AIReplyContract.runtime_trace_id := trace_id;
              AIReplyContract.contract_version := contract_version;
              AIReplyContract.runtime_signature := signature;
              AIReplyContract.safety_status := safety_status;
              AIReplyContract.reply_type := reply_type;
              AIReplyContract.used_sources := used;
              AIReplyContract.unsupported_claims := unsupported;
              AIReplyContract.conflicts := conflicts;
              AIReplyContract.confidence := confidence;
              AIReplyContract.channel := channel |}
    end
  else Err (ValueError "runtime_contract_version_invalid").

Definition payload_dict (c : AIReplyContract.t) (body : option string) (origin : string)
    (customer_visible : bool) : result json :=
  build_ai_reply_contract_payload body (AIReplyContract.runtime_trace_id c)
    (AIReplyContract.contract_version c) (AIReplyContract.runtime_signature c)
    (AIReplyContract.safety_status c) origin
    (contract_grounds c) customer_visible.

(** *** The binding of a stored row *)

Definition normal_origin (o : string) : string := py_lower (py_strip o).

(** [model_value is not None and args.get(key) != model_value] *)
Definition column_agrees (column : option string) (v : json) : bool :=
  match column with Some s => bool_decide (v = JStr s) | None => true end.

Definition validate_persisted_ai_payload_binding (target : TicketOutboundMessage.t) : result unit :=
  let origin := normal_origin (str_or (TicketOutboundMessage.origin target) EmptyString) in
  let payload_json := TicketOutboundMessage.runtime_contract_payload_json target in
  if negb (bool_decide (origin ∈ AI_ORIGINS)) then Ok tt else
  match validate_contract_payload_hash sha256_hex dumps payload_json
          (TicketOutboundMessage.runtime_contract_payload_sha256 target) with
  | Some v => Err (ValueError v)
  | None =>
      match payload_json with
      | None => Ok tt
      | Some _ =>
          let payload := parse_runtime_contract_payload payload_json in
          let args := contract_validation_args_from_payload payload in
          if negb (truthy payload) then Err (ValueError "runtime_contract_payload_invalid")
          else if negb (bool_decide (normal_origin (text_of (Args.origin args)) = origin))
          then Err (ValueError "runtime_contract_payload_origin_mismatch")
          else if negb (bool_decide (Args.body args = JStr (TicketOutboundMessage.body target)))
          then Err (ValueError "runtime_contract_payload_body_mismatch")
          else if negb (column_agrees (TicketOutboundMessage.runtime_trace_id target) (Args.runtime_trace_id args))
          then Err (ValueError "runtime_contract_payload_trace_mismatch")
          else if negb (column_agrees (TicketOutboundMessage.runtime_contract_version target) (Args.contract_version args))
          then Err (ValueError "runtime_contract_payload_version_mismatch")
          else if negb (column_agrees (TicketOutboundMessage.runtime_signature target) (Args.runtime_signature args))
          then Err (ValueError "runtime_contract_payload_signature_mismatch")
          else if negb (column_agrees (TicketOutboundMessage.safety_status target) (Args.safety_status args))
          then Err (ValueError "runtime_contract_payload_safety_mismatch")
          else if negb (column_agrees (TicketOutboundMessage.runtime_reply_type target)
                          (Grounds.reply_type (Args.grounds args)))
          then Err (ValueError "runtime_contract_payload_reply_type_mismatch")
          else Ok tt
      end
  end.
End Build.

(** ** Lists as they are cleaned *)

Lemma text_of_str s : text_of (JStr s) = s.
Proof. unfold text_of, json_or, truthy. by case_bool_decide; subst. Qed.

Lemma clean_list_texts l : _clean_list (texts l) = Ok (omap clean_item (JStr <$> l)).
Proof. by destruct l. Qed.

(** Items that cleaning leaves as they are *)
Definition clean (l : list string) : Prop := Forall (fun s => clean_item (JStr s) = Some s) l.
(** Items that are not cut *)
Definition short (o : option (list string)) : Prop :=
  Forall (fun s => str_len (py_strip s) ≤ 240) (default [] o).

Lemma str_take_long n s : str_len s ≤ Z.of_nat n → str_take n s = s.
Proof.
  unfold str_len. intros H%Nat2Z.inj_le. revert n H.
  induction s as [|c s IH]; intros [|n] H; cbn in H; try done; [lia|].
  cbn. rewrite IH; [done|lia].
Qed.

Lemma clean_item_short s y :
  str_len (py_strip s) ≤ 240 → clean_item (JStr s) = Some y → clean_item (JStr y) = Some y.
Proof.
  intros Hs. unfold clean_item. rewrite !text_of_str. cbv zeta. rewrite (str_take_long 240) by done.
  destruct (nonempty (py_strip s)) eqn:E; [|done]. intros [= <-].
  rewrite py_strip_idem, E. by rewrite (str_take_long 240).
Qed.

Lemma clean_texts l : clean l → _clean_list (texts l) = Ok l.
Proof.
  intros H. rewrite clean_list_texts. f_equal. induction H as [|s l Hs _ IH]; [done|].
  cbn [fmap list_fmap omap list_omap]. rewrite Hs. f_equal. exact IH.
Qed.

Lemma clean_given o l : short o → _clean_list (given o) = Ok l → clean l.
Proof.
  unfold short, given. destruct o as [items|]; [|intros _ [= <-]; constructor].
  rewrite clean_list_texts. cbn [from_option id]. intros H [= <-].
  induction H as [|s rest Hs _ IH]; [constructor|].
  cbn [fmap list_fmap omap list_omap]. destruct (clean_item (JStr s)) as [y|] eqn:E; [|exact IH].
  constructor; [by eapply clean_item_short|exact IH].
Qed.

(** Grounds that a signature does not tell apart *)
Record same_grounds (g g' : Grounds.t) : Prop := {
  same_type : Grounds.reply_type g = Grounds.reply_type g';
  same_used : _clean_list (Grounds.used_sources g) = _clean_list (Grounds.used_sources g');
  same_unsupported :
    _clean_list (Grounds.unsupported_claims g) = _clean_list (Grounds.unsupported_claims g');
  same_conflicts : _clean_list (Grounds.conflicts g) = _clean_list (Grounds.conflicts g');
  same_confidence : Grounds.confidence g = Grounds.confidence g';
  same_channel : Grounds.channel g = Grounds.channel g' }.

Section ContractFacts.
Context (sha256_hex : string → string) (hmac_sha256_hex : string → string → string).
Context (dumps : json → string) (cfg : ContractSettings.t).

#[local] Abbreviation sign := (sign_ai_reply_contract sha256_hex hmac_sha256_hex dumps cfg).
#[local] Abbreviation validate := (validate_ai_reply_contract sha256_hex hmac_sha256_hex dumps cfg).
#[local] Abbreviation build := (build_ai_reply_contract sha256_hex hmac_sha256_hex dumps cfg).
#[local] Abbreviation binding := (validate_persisted_ai_payload_binding sha256_hex dumps).

Lemma sign_same body t v s g g' : same_grounds g g' → sign body t v s g = sign body t v s g'.
Proof.
  intros [H1 H2 H3 H4 H5 H6]. unfold sign_ai_reply_contract, signed_payload. by rewrite H1, H2, H3, H4, H5, H6.
Qed.

Lemma some_item_same b x y : _clean_list x = _clean_list y → some_item b x = some_item b y.
Proof. unfold some_item. by intros ->. Qed.

Lemma validate_payload_same g g' v :
  same_grounds g g' → validate_ai_reply_payload g v = validate_ai_reply_payload g' v.
Proof.
  intros [H1 H2 H3 H4 _ _]. unfold validate_ai_reply_payload, is_type. rewrite H1.
  by rewrite !(some_item_same _ _ _ H2), !(some_item_same _ _ _ H3), !(some_item_same _ _ _ H4).
Qed.

(** A contract that has been built *)
Lemma build_inv uuid body trace safety version rt used unsupported conflicts confidence channel c :
  build uuid body trace safety version rt used unsupported conflicts confidence channel = Ok c →
  let g := grounds rt (given used) (given unsupported) (given conflicts) confidence channel in
  version = AI_REPLY_CONTRACT ∧
  validate_ai_reply_payload g (negb (bool_decide (rt = "null_reply"))) = Ok None ∧
  sign body (JStr (AIReplyContract.runtime_trace_id c)) (JStr version)
    (JStr safety) g = Ok (AIReplyContract.runtime_signature c) ∧
  _clean_list (given used) = Ok (AIReplyContract.used_sources c) ∧
  _clean_list (given unsupported) = Ok (AIReplyContract.unsupported_claims c) ∧
  _clean_list (given conflicts) = Ok (AIReplyContract.conflicts c) ∧
  AIReplyContract.contract_version c = version ∧ AIReplyContract.safety_status c = safety ∧
  AIReplyContract.reply_type c = rt ∧ AIReplyContract.confidence c = confidence ∧
  AIReplyContract.channel c = channel ∧
  AIReplyContract.runtime_trace_id c =
    _trace_id sha256_hex dumps uuid (match trace with JObj l => JObj l | _ => JObj [] end).
Proof.
  unfold build_ai_reply_contract. cbv zeta. case_decide as Hv; [|done].
  intros H. apply result_bind_Ok in H as ([v|] & Hp & H); [done|].
  apply result_bind_Ok in H as (sg & Hs & H). apply result_bind_Ok in H as (u & Hu & H).
  apply result_bind_Ok in H as (un & Hun & H). apply result_bind_Ok in H as (cf & Hcf & [= <-]).
  split_and!; done.
Qed.

(** *** Acceptance *)

Lemma first_text_nonempty keys trace s : first_text keys trace = Some s → nonempty s = true.
Proof.
  induction keys as [|k keys IH]; cbn [first_text]; [done|].
  destruct (json_get k trace) as [| | | |x| |]; try exact IH.
  destruct (nonempty (py_strip x)) eqn:E; [|exact IH]. intros [= <-]. by destruct (py_strip x).
Qed.

Context (digest_text : ∀ s, nonempty (sha256_hex s) = true).

Lemma trace_id_nonempty uuid trace : nonempty (_trace_id sha256_hex dumps uuid trace) = true.
Proof using digest_text.
  unfold _trace_id. destruct (first_text _ trace) as [s|] eqn:E; [by eapply first_text_nonempty|].
  destruct (truthy trace); [|done]. specialize (digest_text (dumps trace)).
  by destruct (sha256_hex (dumps trace)).
Qed.

Lemma payload_hash_ok p :
  validate_contract_payload_hash sha256_hex dumps (Some p)
    (contract_payload_sha256 sha256_hex dumps (Some p)) = None.
Proof using digest_text.
  unfold validate_contract_payload_hash. cbn. rewrite digest_text. by rewrite decide_True.
Qed.

(** The stored payload of a contract, as it is read back *)
Lemma payload_args c b origin p :
  payload_dict c (Some b) origin true = Ok p → AIReplyContract.reply_type c ≠ "null_reply" →
  nonempty (AIReplyContract.reply_type c) = true →
  clean (AIReplyContract.used_sources c) → clean (AIReplyContract.unsupported_claims c) →
  clean (AIReplyContract.conflicts c) →
  (∃ l, p = JObj l ∧ l ≠ []) ∧ contract_validation_args_from_payload p =
    {| Args.runtime_trace_id := JStr (AIReplyContract.runtime_trace_id c);
       Args.contract_version := JStr (AIReplyContract.contract_version c);
       Args.runtime_signature := JStr (AIReplyContract.runtime_signature c);
       Args.safety_status := JStr (AIReplyContract.safety_status c);
       Args.origin := JStr origin; Args.body := JStr b; Args.grounds := contract_grounds c;
       Args.customer_visible := true |}.
Proof.
  unfold payload_dict, build_ai_reply_contract_payload. intros H Hn Hne H1 H2 H3. case_decide; [|done].
  unfold contract_grounds, grounds in H. cbn [Grounds.used_sources Grounds.unsupported_claims Grounds.conflicts] in H.
  rewrite !clean_texts in H by done. cbn [mbind result_bind] in H. injection H as <-.
  unfold str_or. rewrite Hne. split; [by eexists|].
  unfold is_type. cbn [Grounds.reply_type]. rewrite bool_decide_eq_false_2 by congruence.
  assert (json_or (JStr (AIReplyContract.reply_type c)) (JStr "answer") = JStr (AIReplyContract.reply_type c)) as Ht.
  { unfold json_or. change (truthy (JStr (AIReplyContract.reply_type c)))
      with (nonempty (AIReplyContract.reply_type c)). by rewrite Hne. }
  unfold contract_grounds, grounds, str_or. rewrite Hne. unfold contract_validation_args_from_payload.
  f_equal. f_equal. exact Ht.
Qed.

Lemma in_set_true v l : in_set v l = Ok true → ∃ s, v = JStr s ∧ s ∈ l.
Proof.
  destruct v as [| | | |s| |]; cbn; try done. intros [= H]. exists s. split; [done|by apply bool_decide_eq_true in H].
Qed.

(** What validation has checked *)
Record grounded (g : Grounds.t) (customer_visible : bool) : Prop := {
  grounded_type : ∃ rt, Grounds.reply_type g = JStr rt ∧ rt ∈ VALID_REPLY_TYPES;
  grounded_null : is_type "null_reply" g = true → customer_visible = false;
  grounded_answer : is_type "answer" g = true →
    (∃ used, _clean_list (Grounds.used_sources g) = Ok used ∧ used ≠ []) ∧
    _clean_list (Grounds.unsupported_claims g) = Ok [] ∧ _clean_list (Grounds.conflicts g) = Ok [];
  grounded_notice : is_type "handoff_notice" g = true →
    _clean_list (Grounds.unsupported_claims g) = Ok [] }.

Lemma some_item_inv b v r :
  some_item b v = Ok r → b = true →
  ∃ l, _clean_list v = Ok l ∧ (r = false → l = []) ∧ (r = true → l ≠ []).
Proof.
  unfold some_item. intros H ->. apply result_bind_Ok in H as (l & Hl & [= <-]). exists l.
  split; [done|]. case_bool_decide; cbn; split; done.
Qed.

Lemma validate_payload_inv g v : validate_ai_reply_payload g v = Ok None → grounded g v.
Proof.
  unfold validate_ai_reply_payload. intros H.
  apply result_bind_Ok in H as ([] & Ht & H); [|done]. apply in_set_true in Ht.
  cbn [negb] in H. destruct (is_type "null_reply" g) eqn:En.
  { unfold is_type in En. apply bool_decide_eq_true in En. destruct v; [done|].
    split; [done|done|..]; unfold is_type; rewrite En; by intros ?%bool_decide_eq_true. }
  apply result_bind_Ok in H as (sourced & Hs & H).
  destruct (is_type "answer" g && negb sourced) eqn:Ea; [done|].
  apply result_bind_Ok in H as ([] & Hu & H); [done|]. apply result_bind_Ok in H as ([] & Hc & H); [done|].
  apply result_bind_Ok in H as ([] & Hh & H); [done|]. split; [done|by rewrite En| |].
  - intros E. rewrite E in *. destruct sourced; [|done].
    destruct (some_item_inv _ _ _ Hs eq_refl) as (l & Hl & _ & Hn).
    destruct (some_item_inv _ _ _ Hu eq_refl) as (l1 & Hl1 & N1 & _).
    destruct (some_item_inv _ _ _ Hc eq_refl) as (l2 & Hl2 & N2 & _).
    rewrite Hl1, Hl2, N1, N2 by done. split; [|done]. exists l. auto.
  - intros E. destruct (some_item_inv _ _ _ Hh E) as (l & Hl & N & _). by rewrite Hl, N.
Qed.

Lemma texts_inj (l l' : list string) : JStr <$> l = JStr <$> l' → l = l'.
Proof.
  revert l'. induction l as [|s l IH]; intros [|s' l']; try done. cbn. intros [= -> H]. by rewrite (IH l' H).
Qed.

(** The message under a signature *)
Definition signs (secret : string) (body : string) (t v s : json) (g : Grounds.t) (m : json) : Prop :=
  runtime_contract_signing_secret cfg = Ok secret ∧
  ∃ used unsupported conflicts, _clean_list (Grounds.used_sources g) = Ok used ∧
    _clean_list (Grounds.unsupported_claims g) = Ok unsupported ∧
    _clean_list (Grounds.conflicts g) = Ok conflicts ∧
    m = signed_payload sha256_hex (Some body) t v s g used unsupported conflicts.

Lemma sign_inv body t v s g sg :
  sign (Some body) t v s g = Ok sg →
  v = JStr AI_REPLY_CONTRACT ∧ ∃ secret m, signs secret body t v s g m ∧ sg = hmac_sha256_hex secret (dumps m).
Proof.
  unfold sign_ai_reply_contract. case_decide as Hv; [|done]. intros H. split; [done|].
  apply result_bind_Ok in H as (u & Hu & H). apply result_bind_Ok in H as (un & Hun & H).
  apply result_bind_Ok in H as (cf & Hcf & H). apply result_bind_Ok in H as (secret & Hs & [= <-]).
  exists secret. eexists. split; [|reflexivity]. split; [done|]. by exists u, un, cf.
Qed.

Lemma validate_inv body t v sig s g cv :
  validate (Some body) t v sig s g cv = Ok None →
  truthy t = true ∧ v = JStr AI_REPLY_CONTRACT ∧ (∃ st, s = JStr st ∧ st ∈ VALID_SAFETY_STATUSES) ∧
  grounded g cv ∧
  ∃ secret m, signs secret body t v s g m ∧ sig = JStr (hmac_sha256_hex secret (dumps m)).
Proof.
  unfold validate_ai_reply_contract. destruct (truthy t); cbn [negb]; [|done]. intros H.
  apply result_bind_Ok in H as ([] & Hv & H); [|done]. apply result_bind_Ok in H as ([] & Hs & H); [|done].
  cbn [negb] in H. apply result_bind_Ok in H as ([?|] & Hp & H); [done|].
  destruct (sign (Some body) t v s g) as [sg|e] eqn:Es; [|by destruct e].
  destruct (decide (sig = JStr sg)) as [->|]; [|done].
  destruct (sign_inv _ _ _ _ _ _ Es) as (-> & secret & m & Hm & ->).
  split_and!; [done|done|by apply in_set_true|by apply validate_payload_inv|]. by exists secret, m.
Qed.

(** C31: A signature binds one reply.  A reply that validation accepts has a trace, the
    version of the contract, a passed or reviewed safety check, a known type, sources and
    no unsupported claim or conflict if it is an answer, and the keyed digest of exactly
    these facts and its text as its signature.  Two accepted replies with one signature
    therefore agree in all of them, text included, or the two signed messages are a
    collision of the keyed digest, or the two texts one of the digest. *)
Theorem reply_signature_binds b b' t t' v v' s s' sig g g' cv cv' :
  validate (Some b) t v sig s g cv = Ok None → validate (Some b') t' v' sig s' g' cv' = Ok None →
  (grounded g cv ∧ (∃ st, s = JStr st ∧ st ∈ VALID_SAFETY_STATUSES) ∧ truthy t = true) ∧
  ∃ secret m m', signs secret b t v s g m ∧ signs secret b' t' v' s' g' m' ∧
    sig = JStr (hmac_sha256_hex secret (dumps m)) ∧
    ((b = b' ∧ t = t' ∧ s = s' ∧ same_grounds g g') ∨
     (b ≠ b' ∧ sha256_hex b = sha256_hex b') ∨
     (m ≠ m' ∧ hmac_sha256_hex secret (dumps m) = hmac_sha256_hex secret (dumps m'))).
Proof using Type.
  intros H H'. destruct (validate_inv _ _ _ _ _ _ _ H) as (Ht & -> & Hs & Hg & secret & m & Hm & ->).
  destruct (validate_inv _ _ _ _ _ _ _ H') as (_ & -> & _ & _ & secret' & m' & Hm' & [= Heq]).
  split; [done|]. exists secret, m, m'. assert (secret' = secret) as -> by (destruct Hm, Hm'; congruence).
  split_and!; [done..|]. destruct (decide (m = m')) as [<-|Hne]; [|right; right; done].
  destruct Hm as (_ & u & un & cf & Hu & Hun & Hcf & ->), Hm' as (_ & u' & un' & cf' & Hu' & Hun' & Hcf' & Em).
  unfold signed_payload, texts in Em. cbv zeta in Em. injection Em as Ed -> -> Erp _ Eu Eun Ecf Ec Ech.
  apply texts_inj in Eu as <-, Eun as <-, Ecf as <-.
  assert (same_grounds g g') as Hgg by (split; congruence).
  destruct (decide (b = b')) as [<-|Hb]; [by left|right; left]. split; [done|].
  unfold _body_sha256 in Ed. cbn [not_null negb] in Ed. rewrite !andb_false_r in Ed. by injection Ed.
Qed.

(** *** A contract survives storage *)

(** A row that stores a reply with its contract *)
Record carries (c : AIReplyContract.t) (p : json) (origin body : string) (r : TicketOutboundMessage.t)
    : Prop := {
  carries_origin : TicketOutboundMessage.origin r = Some origin;
  carries_body : TicketOutboundMessage.body r = body;
  carries_trace : TicketOutboundMessage.runtime_trace_id r = Some (AIReplyContract.runtime_trace_id c);
  carries_version :
    TicketOutboundMessage.runtime_contract_version r = Some (AIReplyContract.contract_version c);
  carries_signature :
    TicketOutboundMessage.runtime_signature r = Some (AIReplyContract.runtime_signature c);
  carries_payload : TicketOutboundMessage.runtime_contract_payload_json r = Some p;
  carries_digest : TicketOutboundMessage.runtime_contract_payload_sha256 r =
    contract_payload_sha256 sha256_hex dumps (Some p);
  carries_type : TicketOutboundMessage.runtime_reply_type r = Some (AIReplyContract.reply_type c);
  carries_safety : TicketOutboundMessage.safety_status r = Some (AIReplyContract.safety_status c) }.

Lemma str_or_empty s : str_or (Some s) EmptyString = s.
Proof. unfold str_or, nonempty. by case_bool_decide; subst. Qed.

Lemma column_agrees_refl s : column_agrees (Some s) (JStr s) = true.
Proof. unfold column_agrees. by apply bool_decide_eq_true. Qed.

Lemma carries_binding c p origin body r :
  payload_dict c (Some body) origin true = Ok p → AIReplyContract.reply_type c ≠ "null_reply" →
  nonempty (AIReplyContract.reply_type c) = true →
  clean (AIReplyContract.used_sources c) → clean (AIReplyContract.unsupported_claims c) →
  clean (AIReplyContract.conflicts c) → carries c p origin body r → binding r = Ok tt.
Proof using digest_text.
  intros Hp Hn Hne H1 H2 H3 [Ho Hb Ht Hv Hs Hpl Hd Hty Hsf].
  destruct (payload_args _ _ _ _ Hp Hn Hne H1 H2 H3) as ((l & El & Hl) & Ha).
  unfold validate_persisted_ai_payload_binding. rewrite Ho, Hb, Ht, Hv, Hs, Hpl, Hd, Hty, Hsf, str_or_empty.
  case_bool_decide; [|done]. cbn [negb]. rewrite payload_hash_ok.
  assert (parse_runtime_contract_payload (Some p) = p) as -> by (by rewrite El).
  assert (truthy p = true) as -> by (rewrite El; by destruct l).
  rewrite Ha. unfold contract_grounds, grounds, str_or. rewrite Hne.
  cbn [negb Args.origin Args.body Args.runtime_trace_id Args.contract_version Args.runtime_signature
    Args.safety_status Args.grounds Grounds.reply_type].
  rewrite text_of_str, !column_agrees_refl, !bool_decide_eq_true_2 by done. done.
Qed.

Lemma valid_type_nonempty g v rt : grounded g v → Grounds.reply_type g = JStr rt → nonempty rt = true.
Proof.
  intros [(rt' & -> & Hin) _ _ _] [= <-]. unfold VALID_REPLY_TYPES in Hin. rewrite !elem_of_cons in Hin.
  destruct Hin as [->|[->|[->|[->|Hin]]]]; [done..|by apply elem_of_nil in Hin].
Qed.

End ContractFacts.

(** ** A concrete contract

    The digests are readable texts here. *)
Module FixContract.
Definition sha (s : string) : string := "sha:" +:+ s.
Definition hmac (secret s : string) : string := secret +:+ ":" +:+ s.
Fixpoint dumps (j : json) : string :=
  match j with
  | JNull => "null"
  | JBool b => if b then "true" else "false"
  | JNum z => pretty z
  | JFloat (m, e) => pretty m +:+ "e" +:+ pretty e
  | JStr s => "'" +:+ s +:+ "'"
  | JArr l => "[" +:+ String.concat "," (map dumps l) +:+ "]"
  | JObj l => "{" +:+ String.concat "," (map (fun x => fst x +:+ ":" +:+ dumps (snd x)) l) +:+ "}"
  end.
Definition cfg : ContractSettings.t :=
  {| ContractSettings.app_env := "production";
     ContractSettings.runtime_contract_signing_secret := "0123456789abcdef0123456789abcdef" |}.

Definition body : string := "Your parcel arrives tomorrow.".
Definition build (sources : list string) : result AIReplyContract.t :=
  build_ai_reply_contract sha hmac dumps cfg "0f" (Some body) (JObj [("trace_id", JStr "t-1")]) "passed"
    AI_REPLY_CONTRACT "answer" (Some sources) None None None (Some "whatsapp").

Definition unbuilt : AIReplyContract.t :=
  {| AIReplyContract.runtime_trace_id := EmptyString; AIReplyContract.contract_version := EmptyString;
     AIReplyContract.runtime_signature := EmptyString; AIReplyContract.safety_status := EmptyString;
     AIReplyContract.reply_type := EmptyString; AIReplyContract.used_sources := [];
     AIReplyContract.unsupported_claims := []; AIReplyContract.conflicts := [];
     AIReplyContract.confidence := None; AIReplyContract.channel := None |}.
Definition built (sources : list string) : AIReplyContract.t :=
  match build sources with Ok c => c | Err _ => unbuilt end.
Definition contract : AIReplyContract.t := built ["tracking:123"].
Definition payload (c : AIReplyContract.t) : json :=
  match payload_dict c (Some body) "provider_runtime" true with Ok p => p | Err _ => JNull end.

(** The verdict on what has been stored *)
Definition verdict (c : AIReplyContract.t) (body : string) : result (option string) :=
  let a := contract_validation_args_from_payload (payload c) in
  validate_ai_reply_contract sha hmac dumps cfg (Some body) (Args.runtime_trace_id a)
    (Args.contract_version a) (Args.runtime_signature a) (Args.safety_status a) (Args.grounds a)
    (Args.customer_visible a).

Fixpoint repeated (n : nat) (s : string) : string :=
  match n with O => EmptyString | S n => s +:+ repeated n s end.
(** 239 letters, a blank, and one more letter *)
Definition long_source : string := repeated 239 "a" +:+ " b".
End FixContract.

Example tampered_reply_refused :
  FixContract.verdict FixContract.contract FixContract.body = Ok None ∧
  FixContract.verdict FixContract.contract "Send your password." = Ok (Some "runtime_signature_invalid").
Proof. split; vm_compute; reflexivity. Qed.

(** The cut of a source leaves a blank at its end; the second cleaning, for the payload,
    removes it, so the payload of a contract that was just built does not validate. *)
Example long_source_refused :
  is_ok (FixContract.build [FixContract.long_source]) = true ∧
  FixContract.verdict (FixContract.built [FixContract.long_source]) FixContract.body =
    Ok (Some "runtime_signature_invalid").
Proof. split; vm_compute; reflexivity. Qed.


Lemma reply_signature_binds_witness :
  ∃ secret, runtime_contract_signing_secret FixContract.cfg = Ok secret.
Proof.
  assert (FixContract.verdict FixContract.contract FixContract.body = Ok None) as H by (vm_compute; reflexivity).
  destruct (reply_signature_binds FixContract.sha FixContract.hmac FixContract.dumps FixContract.cfg
    _ _ _ _ _ _ _ _ _ _ _ _ _ H H) as (_ & secret & _ & _ & (Hs & _) & _).
  exists secret. exact Hs.
Defined.
