(* ===== verification/JobScope.v ===== *)
(** * Execution envelopes of background jobs

    [services/background_job_scope.py] and the checks of
    [services/background_job_execution_scope.py]: which tenant a job works for,
    derived from the rows its payload names, recorded when the job is inserted and
    compared again before the job runs. *)

From S2P Require Import Prelude Calendar Enums Models Fixtures Work Tenancy Sla.

Definition SCOPE_SCHEMA : string := "nexus.background-job-scope.v1".

Definition PURPOSE_BY_JOB_TYPE : list (string * string) :=
  [("webchat.ai_reply", "automated_ai"); ("webchat.handoff_snapshot", "human_support");
   ("webchat.whatsapp_delivery", "human_support");
   ("speedaf.work_order.create", "provider_tool_execution");
   ("speedaf.address_update.submit", "provider_tool_execution");
   ("speedaf.voice.callback", "provider_tool_execution");
   ("email.mailbox_sync", "human_support")].

Definition PLATFORM_JOB_TYPES : gset string := ∅.

Module JobScopeValues.
Record t := {
  scope_type : string; tenant_id : option Z; customer_id : option Z; purpose : string;
  resource_type : option string; resource_id : option string }.
#[global] Instance eq_dec : EqDecision t.
Proof. solve_decision. Defined.
End JobScopeValues.

(** What the payload has shown so far: the local variables of the derivation *)
Module Seen.
Record t := {
  tenant_candidates : gset Z; customer_candidates : gset Z; resource : option (string * string);
  observed_source : bool; shadow_source : bool; invalid_source : bool }.
#[global] Instance eta : Settable t := fun r => {|
  tenant_candidates := tenant_candidates r; customer_candidates := customer_candidates r;
  resource := resource r; observed_source := observed_source r;
  shadow_source := shadow_source r; invalid_source := invalid_source r |}.
End Seen.

Definition _payload (job : BackgroundJob.t) : json :=
  match BackgroundJob.payload_json job with JObj l => JObj l | _ => JObj [] end.

Definition _positive_int (v : json) : option Z :=
  match v with
  | JBool _ => None
  | _ => match json_int v with
         | Ok parsed => if 0 <? parsed then Some parsed else None
         | Err _ => None
         end
  end.

(** [str(value or "").strip().lower()] *)
Definition key_text (v : json) : string := py_lower (py_strip (py_str (json_or v (JStr EmptyString)))).

Module ConversationScope.
Record t := { tenant_id : option Z; customer_id : option Z; shadow : bool }.
End ConversationScope.

Section Scope.
Context (w : Work.t).
Let d := Db.dir (Work.core w).

(** A row of the directory that is active *)
Definition active_tenant_id (i : Z) : bool :=
  match Directory.tenants d !! i with Some t => Tenant.is_active t | None => false end.

Definition _tenant_for_key (normalized : string) : option Z :=
  if negb (nonempty normalized) || bool_decide (normalized = "default") then None
  else fst <$> head (filter (fun x : Z * Tenant.t =>
         Tenant.tenant_key (snd x) = normalized ∧ Tenant.is_active (snd x) = true)
         (map_to_list (Directory.tenants d))).

(** The scope functions return [None] for a missing row. *)
Definition _ticket_scope (ticket_id : Z) : option (option Z * option Z) :=
  t ← ticket_at (Work.core w) ticket_id; Some (Ticket.tenant_id t, Ticket.customer_id t).

Definition _conversation_scope (conversation_id : Z) : option ConversationScope.t :=
  c ← table_get (Work.conversations w) conversation_id;
  let normalized_key := py_lower (py_strip (WebchatConversation.tenant_key c)) in
  let is_shadow := negb (nonempty normalized_key) || bool_decide (normalized_key = "default") in
  match WebchatConversation.ticket_id c with
  | Some ticket_id =>
      match _ticket_scope ticket_id with
      | None => Some {| ConversationScope.tenant_id := None; ConversationScope.customer_id := None;
                        ConversationScope.shadow := is_shadow |}
      | Some (tenant_id, customer_id) =>
          Some {| ConversationScope.tenant_id := tenant_id;
                  ConversationScope.customer_id := customer_id;
                  ConversationScope.shadow := negb (not_null tenant_id) |}
      end
  | None =>
      Some {| ConversationScope.tenant_id := _tenant_for_key normalized_key;
              ConversationScope.customer_id :=
                control_of w conversation_id ≫= ConversationControl.customer_id;
              ConversationScope.shadow := is_shadow |}
  end.

Definition _customer_scope (customer_id : Z) : option (option Z) :=
  Customer.tenant_id <$> table_get (Db.customers (Work.core w)) customer_id.

Definition _email_account_scope (account_id : Z) : option (option Z) :=
  market_id ← Work.mail_accounts w !! account_id;
  Some (m ← market_id; market ← Directory.markets d !! m; Market.tenant_id market).

Definition _channel_account_scope (account_id : Z) : option (option Z) :=
  ChannelAccount.tenant_id <$> Directory.accounts d !! account_id.

(** *** The sources of ownership, in the order of the code *)

Definition add_tenant (t : Z) (a : Seen.t) : Seen.t := a <| Seen.tenant_candidates ::= union {[t]} |>.
Definition add_customer (c : option Z) (a : Seen.t) : Seen.t :=
  match c with Some c => a <| Seen.customer_candidates ::= union {[c]} |> | None => a end.
Definition mark_shadow (a : Seen.t) : Seen.t := a <| Seen.shadow_source := true |>.
Definition mark_invalid (a : Seen.t) : Seen.t := a <| Seen.invalid_source := true |>.
Definition mark_observed (a : Seen.t) : Seen.t := a <| Seen.observed_source := true |>.
(** [if resource_type is None] *)
Definition name_resource (kind : string) (i : Z) (a : Seen.t) : Seen.t :=
  match Seen.resource a with
  | None => a <| Seen.resource := Some (kind, pretty i) |>
  | Some _ => a
  end.

(** A row that exists or not, with its tenant *)
Definition see_owner (owner : option (option Z)) : Seen.t → Seen.t :=
  match owner with
  | None => mark_invalid
  | Some (Some t) => add_tenant t
  | Some None => mark_shadow
  end.

(** [x = _positive_int(payload.get(key)); if x is not None: ...] *)
Definition source (payload : json) (key : string) (see : Z → Seen.t → Seen.t) (a : Seen.t) : Seen.t :=
  match _positive_int (json_get key payload) with
  | Some i => see i (mark_observed a)
  | None => a
  end.

Definition see_tenant_id (i : Z) : Seen.t → Seen.t :=
  if active_tenant_id i then add_tenant i else mark_invalid.

Definition see_tenant_key (payload : json) (a : Seen.t) : Seen.t :=
  match payload with
  | JObj l =>
      match assoc_get "tenant_key" l with
      | None => a
      | Some v =>
          let raw_key := key_text v in
          match _tenant_for_key raw_key with
          | Some t => add_tenant t (mark_observed a)
          | None => (if negb (nonempty raw_key) || bool_decide (raw_key = "default")
                     then mark_shadow else mark_invalid) (mark_observed a)
          end
      end
  | _ => a
  end.

Definition see_ticket (i : Z) (a : Seen.t) : Seen.t :=
  let scope := _ticket_scope i in
  add_customer (scope ≫= snd) (see_owner (fst <$> scope) a)
    <| Seen.resource := Some ("ticket", pretty i) |>.

Definition see_conversation (i : Z) (a : Seen.t) : Seen.t :=
  name_resource "conversation" i
    match _conversation_scope i with
    | None => mark_invalid a
    | Some c =>
        add_customer (ConversationScope.customer_id c)
          match ConversationScope.tenant_id c with
          | Some t => add_tenant t a
          | None => if ConversationScope.shadow c then mark_shadow a else mark_invalid a
          end
    end.

Definition see_customer (i : Z) (a : Seen.t) : Seen.t :=
  let owner := _customer_scope i in
  name_resource "customer" i
    (add_customer (if not_null owner then Some i else None) (see_owner owner a)).

Definition see_mail_account (i : Z) (a : Seen.t) : Seen.t :=
  name_resource "outbound_email_account" i (see_owner (_email_account_scope i) a).

Definition see_channel_account (i : Z) (a : Seen.t) : Seen.t :=
  name_resource "channel_account" i (see_owner (_channel_account_scope i) a).

Definition nothing_seen : Seen.t :=
  {| Seen.tenant_candidates := ∅; Seen.customer_candidates := ∅; Seen.resource := None;
     Seen.observed_source := false; Seen.shadow_source := false; Seen.invalid_source := false |}.

Definition observe (job : BackgroundJob.t) : Seen.t :=
  let p := _payload job in
  source p "channel_account_id" see_channel_account
    ((if decide (BackgroundJob.job_type job = "email.mailbox_sync")
      then source p "account_id" see_mail_account else id)
      (source p "customer_id" see_customer
        (source p "conversation_id" see_conversation
          (source p "ticket_id" see_ticket
            (see_tenant_key p (source p "tenant_id" see_tenant_id nothing_seen)))))).

(** *** The envelope *)

(** The customers among the candidates whose row has this tenant, if there is one *)
Definition only_customer (tenant : option Z) (candidates : gset Z) : option Z :=
  match elements (filter (fun c => _customer_scope c = Some tenant) candidates) with
  | [c] => Some c
  | _ => None
  end.

Definition purpose_of (job : BackgroundJob.t) : string :=
  default "unclassified" (assoc_get (BackgroundJob.job_type job) PURPOSE_BY_JOB_TYPE).

Definition scope_values (job : BackgroundJob.t) (a : Seen.t) (scope_type : string)
    (tenant customer : option Z) : JobScopeValues.t :=
  {| JobScopeValues.scope_type := scope_type; JobScopeValues.tenant_id := tenant;
     JobScopeValues.customer_id := customer; JobScopeValues.purpose := purpose_of job;
     JobScopeValues.resource_type := fst <$> Seen.resource a;
     JobScopeValues.resource_id := snd <$> Seen.resource a |}.

(** The scopes without a tenant *)
Definition tenantless_scope (job : BackgroundJob.t) (a : Seen.t) : JobScopeValues.t :=
  if bool_decide (Seen.tenant_candidates a = ∅) && negb (Seen.invalid_source a) &&
     negb (bool_decide (purpose_of job = "unclassified")) && mode_is d "shadow" &&
     (Seen.shadow_source a || negb (Seen.observed_source a))
  then scope_values job a "shadow" None (only_customer None (Seen.customer_candidates a))
  else if bool_decide (Seen.tenant_candidates a = ∅) && negb (Seen.observed_source a) &&
          bool_decide (BackgroundJob.job_type job ∈ PLATFORM_JOB_TYPES)
  then scope_values job a "platform" None None
  else scope_values job a "unresolved" None None.

Definition derive_job_scope_values (job : BackgroundJob.t) : JobScopeValues.t :=
  let a := observe job in
  match elements (Seen.tenant_candidates a) with
  | [t] => if negb (Seen.shadow_source a) && negb (Seen.invalid_source a)
           then scope_values job a "tenant" (Some t)
                  (only_customer (Some t) (Seen.customer_candidates a))
           else tenantless_scope job a
  | _ => tenantless_scope job a
  end.

Definition scope_row (job : BackgroundJob.t) : BackgroundJobScope.t :=
  let v := derive_job_scope_values job in
  {| BackgroundJobScope.job_id := BackgroundJob.id job;
     BackgroundJobScope.scope_type := JobScopeValues.scope_type v;
     BackgroundJobScope.tenant_id := JobScopeValues.tenant_id v;
     BackgroundJobScope.customer_id := JobScopeValues.customer_id v;
     BackgroundJobScope.purpose := JobScopeValues.purpose v;
     BackgroundJobScope.resource_type := JobScopeValues.resource_type v;
     BackgroundJobScope.resource_id := JobScopeValues.resource_id v;
     BackgroundJobScope.source_schema := SCOPE_SCHEMA |}.

(** ** Restrictions on the processing of a customer's data *)

Definition ALLOWED_PURPOSES_WHEN_RESTRICTED : list string :=
  ["human_support"; "legal_obligation"; "security"; "fraud_prevention"; "dsar"; "retention"].

Definition active_processing_restriction (customer_id : option Z)
    : option DataProcessingRestriction.t :=
  c ← customer_id;
  select_first (fun r => (DataProcessingRestriction.customer_id r =? c) &&
                         bool_decide (DataProcessingRestriction.status r = "active"))
    (Work.restrictions w).

Definition ensure_data_processing_allowed (customer_id : option Z) (purpose : string) : result unit :=
  let normalized := squeeze (py_lower (py_strip purpose)) in
  if negb (nonempty normalized) then Err (ValueError "processing_purpose_required")
  else if bool_decide (normalized ∈ ALLOWED_PURPOSES_WHEN_RESTRICTED) then Ok tt
  else match active_processing_restriction customer_id with
       | None => Ok tt
       | Some r =>
           if bool_decide (normalized ∈ DataProcessingRestriction.blocked_purposes_json r) ||
              negb (bool_decide (normalized ∈ DataProcessingRestriction.allowed_purposes_json r))
           then Err (DataProcessingRestricted normalized (DataProcessingRestriction.id r))
           else Ok tt
       end.

(** ** Whether a job may run *)

(** The SQL predicate on a job and its envelope *)
Definition executable_background_job_scope_filter (job : BackgroundJob.t)
    (scope : BackgroundJobScope.t) : bool :=
  let ty := BackgroundJobScope.scope_type scope in
  let no_tenant := negb (not_null (BackgroundJobScope.tenant_id scope)) in
  (BackgroundJobScope.job_id scope =? BackgroundJob.id job) &&
  bool_decide (BackgroundJobScope.source_schema scope = SCOPE_SCHEMA) &&
  bool_decide (BackgroundJobScope.purpose scope = purpose_of job) &&
  negb (bool_decide (BackgroundJobScope.purpose scope = "unclassified")) &&
  ((bool_decide (ty = "tenant") && negb no_tenant) ||
   (mode_is d "shadow" && bool_decide (ty = "shadow") && no_tenant) ||
   (negb (bool_decide (PLATFORM_JOB_TYPES = ∅)) && bool_decide (ty = "platform") && no_tenant &&
    bool_decide (BackgroundJob.job_type job ∈ PLATFORM_JOB_TYPES))).

(** The envelope of a job, when it is executable *)
Definition executable (job : BackgroundJob.t) : bool :=
  match Work.scopes w !! BackgroundJob.id job with
  | Some scope => executable_background_job_scope_filter job scope
  | None => false
  end.

Definition scope_error {A} (code : string) : result A := Err (BackgroundJobExecutionScopeError code).

(** The checks of the scope type *)
Definition check_scope_type (job : BackgroundJob.t) (scope : BackgroundJobScope.t) : result unit :=
  let ty := BackgroundJobScope.scope_type scope in
  let tenant := BackgroundJobScope.tenant_id scope in
  if decide (ty = "platform") then
    if negb (bool_decide (BackgroundJob.job_type job ∈ PLATFORM_JOB_TYPES)) || not_null tenant
    then scope_error "background_job_platform_scope_not_authorized" else Ok tt
  else if decide (ty = "tenant") then
    if not_null tenant then Ok tt else scope_error "background_job_tenant_scope_missing"
  else if decide (ty = "shadow") then
    if negb (mode_is d "shadow") || not_null tenant
    then scope_error "background_job_shadow_scope_not_authorized" else Ok tt
  else scope_error "background_job_scope_unresolved".

Definition stored_signature (scope : BackgroundJobScope.t) : JobScopeValues.t :=
  {| JobScopeValues.scope_type := BackgroundJobScope.scope_type scope;
     JobScopeValues.tenant_id := BackgroundJobScope.tenant_id scope;
     JobScopeValues.customer_id := BackgroundJobScope.customer_id scope;
     JobScopeValues.purpose := BackgroundJobScope.purpose scope;
     JobScopeValues.resource_type := BackgroundJobScope.resource_type scope;
     JobScopeValues.resource_id := BackgroundJobScope.resource_id scope |}.

Definition require_executable_background_job_scope (job : BackgroundJob.t)
    : result BackgroundJobScope.t :=
  match Work.scopes w !! BackgroundJob.id job with
  | None => scope_error "background_job_scope_missing"
  | Some scope =>
      if negb (bool_decide (BackgroundJobScope.source_schema scope = SCOPE_SCHEMA))
      then scope_error "background_job_scope_schema_stale"
      else if negb (bool_decide (assoc_get (BackgroundJob.job_type job) PURPOSE_BY_JOB_TYPE =
                                 Some (BackgroundJobScope.purpose scope)))
      then scope_error "background_job_purpose_mismatch"
      else
        check_scope_type job scope;;
        if negb (bool_decide (stored_signature scope = derive_job_scope_values job))
        then scope_error "background_job_scope_drift"
        else
          match BackgroundJobScope.customer_id scope with
          | None => Ok scope
          | Some c => ensure_data_processing_allowed (Some c) (BackgroundJobScope.purpose scope);;
                      Ok scope
          end
  end.
End Scope.

(** ** Recording the envelope *)

(** The listener on the insertion of a job *)
Definition _insert_scope (job : BackgroundJob.t) (w : Work.t) : Work.t :=
  match Work.scopes w !! BackgroundJob.id job with
  | Some _ => w
  | None => w <| Work.scopes ::= <[BackgroundJob.id job := scope_row w job]> |>
  end.

(** [db.add(job); db.flush()] *)
Definition add_job (mk : Z → BackgroundJob.t) (w : Work.t) : BackgroundJob.t * Work.t :=
  let job := mk (tnext (Work.jobs w)) in
  (job, _insert_scope job (w <| Work.jobs ::= fun T => table_add T mk |>)).

Definition reconcile_missing_background_job_scopes (limit : Z) (w : Work.t) : Z * Work.t :=
  let rows := take (Z.to_nat (Z.max 1 (Z.min limit 5000)))
                (select (fun j => negb (not_null (Work.scopes w !! BackgroundJob.id j)))
                   (Work.jobs w)) in
  (Z.of_nat (length rows),
   w <| Work.scopes ::= fun m =>
     foldr (fun job => <[BackgroundJob.id job := scope_row w job]>) m rows |>).

Definition background_job_ids_for_tenant (tenant_id : Z) (w : Work.t) : list Z :=
  fst <$> filter (fun x : Z * BackgroundJobScope.t =>
    BackgroundJobScope.scope_type (snd x) = "tenant" ∧
    BackgroundJobScope.tenant_id (snd x) = Some tenant_id) (map_to_list (Work.scopes w)).

(** ** The specification: owners

    Each row a payload names belongs to a tenant, to none yet, or does not exist.
    A job works for a tenant when every row it names belongs to that tenant. *)

Inductive Owner :=
| Missing
| Unowned
| Owned (t : Z).

#[global] Instance Owner_eq_dec : EqDecision Owner.
Proof. solve_decision. Defined.

Definition owner_of (owner : option (option Z)) : Owner :=
  match owner with None => Missing | Some None => Unowned | Some (Some t) => Owned t end.

Section Owners.
Context (w : Work.t).

Definition tenant_key_owner (payload : json) : list Owner :=
  match payload with
  | JObj l =>
      match assoc_get "tenant_key" l with
      | None => []
      | Some v =>
          match _tenant_for_key w (key_text v) with
          | Some t => [Owned t]
          | None => [if negb (nonempty (key_text v)) || bool_decide (key_text v = "default")
                     then Unowned else Missing]
          end
      end
  | _ => []
  end.

Definition named (payload : json) (key : string) (owner : Z → Owner) : list Owner :=
  match _positive_int (json_get key payload) with Some i => [owner i] | None => [] end.

Definition conversation_owner (i : Z) : Owner :=
  match _conversation_scope w i with
  | None => Missing
  | Some c => match ConversationScope.tenant_id c with
              | Some t => Owned t
              | None => if ConversationScope.shadow c then Unowned else Missing
              end
  end.

Definition owners (job : BackgroundJob.t) : list Owner :=
  let p := _payload job in
  named p "tenant_id" (fun i => if active_tenant_id w i then Owned i else Missing) ++
  tenant_key_owner p ++
  named p "ticket_id" (fun i => owner_of (fst <$> _ticket_scope w i)) ++
  named p "conversation_id" conversation_owner ++
  named p "customer_id" (fun i => owner_of (_customer_scope w i)) ++
  (if decide (BackgroundJob.job_type job = "email.mailbox_sync")
   then named p "account_id" (fun i => owner_of (_email_account_scope w i)) else []) ++
  named p "channel_account_id" (fun i => owner_of (_channel_account_scope w i)).
End Owners.

(** The accumulator says what the owners seen so far are. *)
Record accounts (l : list Owner) (a : Seen.t) : Prop := {
  acc_tenants : ∀ t, t ∈ Seen.tenant_candidates a ↔ Owned t ∈ l;
  acc_shadow : Seen.shadow_source a = bool_decide (Unowned ∈ l);
  acc_invalid : Seen.invalid_source a = bool_decide (Missing ∈ l);
  acc_observed : Seen.observed_source a = negb (bool_decide (l = [])) }.

(** A step that adds one owner *)
Definition sees (o : Owner) (f : Seen.t → Seen.t) : Prop :=
  ∀ l a, accounts l a → accounts (l ++ [o]) (f (mark_observed a)).

Definition view (a : Seen.t) : gset Z * bool * bool * bool :=
  (Seen.tenant_candidates a, Seen.shadow_source a, Seen.invalid_source a, Seen.observed_source a).

Lemma accounts_view l a b : view a = view b → accounts l a → accounts l b.
Proof.
  intros [= Ht Hs Hi Ho] [Ha ? ? ?]. split; [|congruence..].
  intros t. rewrite <- Ht. apply Ha.
Qed.

Lemma view_add_customer c a : view (add_customer c a) = view a.
Proof. by destruct c. Qed.

Lemma view_name_resource k i a : view (name_resource k i a) = view a.
Proof. unfold name_resource. by destruct (Seen.resource a). Qed.

Lemma accounts_nothing : accounts [] nothing_seen.
Proof. split; [|done..]. intros t. set_solver. Qed.

Lemma bool_decide_snoc {A} `{EqDecision A} (x o : A) l :
  bool_decide (x ∈ l ++ [o]) = bool_decide (x ∈ l) || bool_decide (x = o).
Proof.
  rewrite <- bool_decide_or. apply bool_decide_ext.
  by rewrite elem_of_app, list_elem_of_singleton.
Qed.

Lemma sees_intro o f :
  (∀ a, view (f a) = match o with
                     | Owned t => view (add_tenant t a)
                     | Unowned => view (mark_shadow a)
                     | Missing => view (mark_invalid a)
                     end) → sees o f.
Proof.
  intros Hf l a [Ht Hs Hi Ho].
  assert (negb (bool_decide (l ++ [o] = [])) = true) as Hn by (by destruct l).
  specialize (Hf (mark_observed a)).
  destruct o as [| |t0]; (eapply accounts_view; [symmetry; exact Hf|]);
    (split; [intros t; rewrite elem_of_app, list_elem_of_singleton, <- Ht; cbn; clear;
              rewrite ?elem_of_union, ?elem_of_singleton; intuition congruence
            |rewrite bool_decide_snoc, <- ?Hs; cbn..|by rewrite Hn]);
    rewrite <- ?Hs, <- ?Hi, ?orb_true_r, ?orb_false_r; done.
Qed.

Lemma sees_owner owner : sees (owner_of owner) (see_owner owner).
Proof. apply sees_intro. by destruct owner as [[t|]|]. Qed.

Lemma sees_ext o f g : (∀ a, view (f a) = view (g a)) → sees o f → sees o g.
Proof. intros E H l a Ha. eapply accounts_view; [apply E | by apply H]. Qed.

Lemma source_accounts p key see owner l a :
  (∀ i, sees (owner i) (see i)) → accounts l a →
  accounts (l ++ named p key owner) (source p key see a).
Proof.
  intros H Ha. unfold source, named. destruct (_positive_int _); [by apply H|].
  by rewrite app_nil_r.
Qed.

Lemma tenant_key_accounts w p l a :
  accounts l a → accounts (l ++ tenant_key_owner w p) (see_tenant_key w p a).
Proof.
  intros Ha. unfold tenant_key_owner, see_tenant_key.
  destruct p as [| | | | | | fields]; rewrite ?app_nil_r; try done.
  destruct (assoc_get "tenant_key" fields) as [v|]; [|by rewrite app_nil_r].
  destruct (_tenant_for_key w (key_text v)) as [t|].
  - by apply (sees_intro (Owned t) (add_tenant t)).
  - case_match; [by apply (sees_intro Unowned mark_shadow)|by apply (sees_intro Missing mark_invalid)].
Qed.

Lemma observe_accounts w job : accounts (owners w job) (observe w job).
Proof.
  unfold owners, observe. cbv zeta. rewrite !app_assoc.
  apply source_accounts.
  { intros i. eapply sees_ext; [|apply sees_owner]. intros a. symmetry. apply view_name_resource. }
  assert (∀ l a, accounts l a → accounts
    (l ++ (if decide (BackgroundJob.job_type job = "email.mailbox_sync")
           then named (_payload job) "account_id" (fun i => owner_of (_email_account_scope w i))
           else []))
    ((if decide (BackgroundJob.job_type job = "email.mailbox_sync")
      then source (_payload job) "account_id" (see_mail_account w) else id) a)) as Hmail.
  { intros l a Ha. case_decide; [|by rewrite app_nil_r]. apply source_accounts; [|done].
    intros i. eapply sees_ext; [|apply sees_owner]. intros b. symmetry. apply view_name_resource. }
  apply Hmail, source_accounts.
  { intros i. eapply sees_ext; [|apply sees_owner]. intros a. symmetry. unfold see_customer.
    by rewrite view_name_resource, view_add_customer. }
  apply source_accounts.
  { intros i. apply sees_intro. intros a. unfold see_conversation, conversation_owner.
    rewrite view_name_resource. destruct (_conversation_scope w i) as [c|]; [|done].
    rewrite view_add_customer. destruct (ConversationScope.tenant_id c); [done|].
    by destruct (ConversationScope.shadow c). }
  apply source_accounts.
  { intros i. eapply sees_ext; [|apply sees_owner]. intros a. symmetry. unfold see_ticket.
    etrans; [|apply (view_add_customer (_ticket_scope w i ≫= snd))]. done. }
  apply tenant_key_accounts. change (named _ _ _) with ([] ++ named (_payload job) "tenant_id"
    (fun i => if active_tenant_id w i then Owned i else Missing)).
  apply source_accounts; [|apply accounts_nothing].
  intros i. apply sees_intro. intros a. unfold see_tenant_id. by destruct (active_tenant_id w i).
Qed.

(** *** The derivation meets the specification *)

Definition works_for (w : Work.t) (job : BackgroundJob.t) (t : Z) : Prop :=
  owners w job ≠ [] ∧ Forall (Owned t =.) (owners w job).
Definition ownerless (w : Work.t) (job : BackgroundJob.t) : Prop :=
  Forall (Unowned =.) (owners w job).

Lemma tenants_of_works_for w job t :
  works_for w job t ↔
  elements (Seen.tenant_candidates (observe w job)) = [t] ∧
  Seen.shadow_source (observe w job) = false ∧ Seen.invalid_source (observe w job) = false.
Proof.
  unfold works_for. destruct (observe_accounts w job) as [Ht -> -> _].
  set (l := owners w job) in *. rewrite !bool_decide_eq_false.
  rewrite list.Forall_forall. split.
  - intros [Hne Hall]. split_and!.
    + apply singleton_list; [apply NoDup_elements| |].
      * rewrite elem_of_elements, Ht. destruct l as [|o l']; [done|].
        rewrite (Hall o) by left. left.
      * intros b. rewrite elem_of_elements, Ht. intros [= ->]%Hall. done.
    + by intros ?%Hall.
    + by intros ?%Hall.
  - intros (He & Hs & Hm).
    assert (∀ x, Owned x ∈ l ↔ x = t) as Hx.
    { intros x. by rewrite <- Ht, <- elem_of_elements, He, list_elem_of_singleton. }
    split; [intros ->; pose proof (proj2 (Hx t) eq_refl) as H; by apply elem_of_nil in H|].
    intros [| |x] Ho; [done..|]. by apply Hx in Ho as ->.
Qed.

Lemma ownerless_seen w job :
  ownerless w job ↔
  Seen.tenant_candidates (observe w job) = ∅ ∧ Seen.invalid_source (observe w job) = false ∧
  Seen.shadow_source (observe w job) || negb (Seen.observed_source (observe w job)) = true.
Proof.
  unfold ownerless. destruct (observe_accounts w job) as [Ht -> -> ->].
  set (l := owners w job) in *.
  rewrite list.Forall_forall, bool_decide_eq_false, negb_involutive, orb_true_iff, !bool_decide_eq_true.
  split.
  - intros Hall. split_and!.
    + apply set_eq. intros t. rewrite Ht. split; [by intros ?%Hall|set_solver].
    + by intros ?%Hall.
    + destruct l as [|o l']; [by right|left]. rewrite (Hall o) by left. left.
  - intros (He & Hm & _) [| |x] Ho; [done..|]. apply Ht in Ho. rewrite He in Ho. set_solver.
Qed.

Lemma only_customer_scope w tn X c :
  only_customer w tn X = Some c → _customer_scope w c = Some tn.
Proof.
  unfold only_customer. destruct (elements _) as [|c' [|]] eqn:E; try discriminate.
  intros [= ->]. assert (c ∈ filter (fun c => _customer_scope w c = Some tn) X) as Hc.
  { apply elem_of_elements. rewrite E. left. }
  apply elem_of_filter in Hc. by destruct Hc.
Qed.

Lemma works_for_owned w job t t' : works_for w job t → works_for w job t' → t = t'.
Proof.
  rewrite !tenants_of_works_for. intros [E _] [E' _]. congruence.
Qed.

Lemma works_for_ownerless w job t : works_for w job t → ¬ ownerless w job.
Proof.
  unfold works_for, ownerless. intros [Hn Ht]. destruct (owners w job) as [|o l]; [done|].
  intros Ho. apply list.Forall_cons in Ht as [<- _]. by apply list.Forall_cons in Ho as [? _].
Qed.

(** What a scope without a tenant says *)
Definition tenantless (w : Work.t) (job : BackgroundJob.t) (v : JobScopeValues.t) : Prop :=
  JobScopeValues.scope_type v ∈ ["shadow"; "unresolved"] ∧ JobScopeValues.tenant_id v = None ∧
  (JobScopeValues.scope_type v = "shadow" ↔
     mode_is (Db.dir (Work.core w)) "shadow" = true ∧ purpose_of job ≠ "unclassified" ∧
     ownerless w job) ∧
  (∀ c, JobScopeValues.customer_id v = Some c →
     _customer_scope w c = Some (JobScopeValues.tenant_id v)).

Lemma tenantless_scope_spec w job : tenantless w job (tenantless_scope w job (observe w job)).
Proof.
  pose proof (ownerless_seen w job) as HO. unfold tenantless, tenantless_scope.
  set (a := observe w job) in *. clearbody a.
  rewrite (bool_decide_eq_false_2 (_ ∈ PLATFORM_JOB_TYPES)), andb_false_r by set_solver.
  case_match eqn:E; cbn.
  - repeat (apply andb_true_iff in E as [E ?]). split_and!; [by left|done| |].
    + split; [|done]. intros _. rewrite HO. rewrite bool_decide_eq_true in E.
      rewrite !negb_true_iff, bool_decide_eq_false in *. by split_and!.
    + intros c. apply only_customer_scope.
  - split_and!; [by right; left|done| |done]. split; [done|]. intros (Hm & Hp & (He & Hi & Hs)%HO).
    by rewrite bool_decide_eq_true_2, Hi, bool_decide_eq_false_2, Hm, Hs in E.
Qed.

Lemma derive_cases w job :
  (∃ t, works_for w job t ∧ derive_job_scope_values w job =
     scope_values job (observe w job) "tenant" (Some t)
       (only_customer w (Some t) (Seen.customer_candidates (observe w job)))) ∨
  ((∀ t, ¬ works_for w job t) ∧ tenantless w job (derive_job_scope_values w job)).
Proof.
  pose proof (tenants_of_works_for w job) as HW. pose proof (tenantless_scope_spec w job) as HT.
  unfold derive_job_scope_values. set (a := observe w job) in *.
  assert (∀ l, elements (Seen.tenant_candidates a) = l →
    (∀ t, l ≠ [t]) → ∀ t, ¬ works_for w job t) as Hno.
  { intros l El Hl t (E & _)%HW. by apply (Hl t); rewrite <- El. }
  destruct (elements (Seen.tenant_candidates a)) as [|t [|t' l]] eqn:E.
  - right. split; [by apply (Hno []) | done].
  - destruct (Seen.shadow_source a) eqn:Es, (Seen.invalid_source a) eqn:Ei; cbn.
    1-3: right; split; [|done]; intros t'; rewrite HW; by intros (_ & ? & ?).
    left. exists t. split; [by apply HW | done].
  - right. split; [by apply (Hno (t :: t' :: l)) | done].
Qed.

(** The parts of the specification that its users need *)
Lemma scope_values_of w job :
  let v := derive_job_scope_values w job in
  (∀ t, JobScopeValues.tenant_id v = Some t → works_for w job t) ∧
  (JobScopeValues.scope_type v = "shadow" → ownerless w job) ∧
  (∀ c, JobScopeValues.customer_id v = Some c →
     _customer_scope w c = Some (JobScopeValues.tenant_id v)).
Proof.
  destruct (derive_cases w job) as [(t & Ht & ->) | (_ & _ & Htn & Hsh & Hc)]; cbn.
  - split_and!; [by intros ? [= <-] | done | intros c; apply only_customer_scope].
  - split_and!; [by rewrite Htn | by intros (_ & _ & ?)%Hsh | done].
Qed.

(** C10: The envelope of a job says which tenant it works for: the tenant scope
    names [t] exactly when the payload names at least one row and every row it names
    exists, is active and belongs to [t]; the shadow scope is given exactly in shadow
    mode, to a known kind of job all of whose rows belong to no tenant; every other job
    is unresolved.  The customer of an envelope belongs to the tenant of the envelope. *)
Theorem job_scope_sound w job :
  let v := derive_job_scope_values w job in
  (∀ t, JobScopeValues.tenant_id v = Some t ↔ works_for w job t) ∧
  (JobScopeValues.scope_type v = "tenant" ↔ ∃ t, works_for w job t) ∧
  (JobScopeValues.scope_type v = "shadow" ↔
     mode_is (Db.dir (Work.core w)) "shadow" = true ∧ purpose_of job ≠ "unclassified" ∧
     ownerless w job) ∧
  (JobScopeValues.scope_type v ∈ ["tenant"; "shadow"; "unresolved"]) ∧
  (∀ c, JobScopeValues.customer_id v = Some c →
     _customer_scope w c = Some (JobScopeValues.tenant_id v)).
Proof.
  cbv zeta. destruct (derive_cases w job) as [(t & Ht & ->) | (Hnone & Hty & Htn & Hsh & Hc)].
  - pose proof (works_for_owned w job t) as Hu. cbn. split_and!.
    + intros t'. split; [by intros [= <-] | by intros <-%(Hu t' Ht)].
    + split; [by exists t|done].
    + split; [done|]. intros (_ & _ & Ho). by destruct (works_for_ownerless w job t).
    + set_solver.
    + intros c. apply only_customer_scope.
  - split_and!; [| |done| |done].
    + intros t. rewrite Htn. split; [done|]. by intros ?%Hnone.
    + split; [|by intros [t ?%Hnone]]. intros E. rewrite E, !elem_of_cons in Hty.
      by destruct Hty as [?|[?|?%elem_of_nil]].
    + by right.
Qed.

(** *** The check before execution *)

Lemma known_purpose job p :
  assoc_get (BackgroundJob.job_type job) PURPOSE_BY_JOB_TYPE = Some p →
  purpose_of job = p ∧ p ≠ "unclassified" ∧ squeeze (py_lower (py_strip p)) = p ∧ nonempty p = true.
Proof.
  intros E. unfold purpose_of. rewrite E. cbn [default]. split; [done|].
  unfold PURPOSE_BY_JOB_TYPE in E. cbn [assoc_get] in E.
  repeat (case_decide; [injection E as <-; by vm_compute|]). done.
Qed.

Lemma check_scope_type_Ok w job scope :
  check_scope_type w job scope = Ok tt →
  (BackgroundJobScope.scope_type scope = "tenant" ∧ is_Some (BackgroundJobScope.tenant_id scope)) ∨
  (BackgroundJobScope.scope_type scope = "shadow" ∧
   mode_is (Db.dir (Work.core w)) "shadow" = true ∧ BackgroundJobScope.tenant_id scope = None).
Proof.
  unfold check_scope_type. repeat case_decide; [|left|right|done]; case_match eqn:E; try done.
  - split; [done|]. by destruct (BackgroundJobScope.tenant_id scope).
  - apply orb_false_iff in E as [?%negb_false_iff ?]. split_and!; [done..|].
    by destruct (BackgroundJobScope.tenant_id scope).
Qed.

Lemma require_Ok w job scope :
  require_executable_background_job_scope w job = Ok scope →
  Work.scopes w !! BackgroundJob.id job = Some scope ∧
  BackgroundJobScope.source_schema scope = SCOPE_SCHEMA ∧
  assoc_get (BackgroundJob.job_type job) PURPOSE_BY_JOB_TYPE = Some (BackgroundJobScope.purpose scope) ∧
  check_scope_type w job scope = Ok tt ∧
  stored_signature scope = derive_job_scope_values w job ∧
  (∀ c, BackgroundJobScope.customer_id scope = Some c →
     ensure_data_processing_allowed w (Some c) (BackgroundJobScope.purpose scope) = Ok tt).
Proof.
  unfold require_executable_background_job_scope.
  destruct (Work.scopes w !! BackgroundJob.id job) as [sc|]; [|done].
  case_match eqn:E1; [done|]. case_match eqn:E2; [done|].
  rewrite negb_false_iff, bool_decide_eq_true in *.
  intros [Hc H]%result_seq_Ok. case_match eqn:E3; [done|].
  rewrite negb_false_iff, bool_decide_eq_true in *.
  destruct (BackgroundJobScope.customer_id sc) as [c|] eqn:Ec.
  - apply result_seq_Ok in H as [Ha [= <-]]. split_and!; try done. intros c'.
    rewrite Ec. by intros [= <-].
  - injection H as <-. split_and!; try done. by rewrite Ec.
Qed.


(** ** A concrete queue

    The deployment of Fixtures.v with one conversation of tenant 1 and a pending job
    that names its ticket and its conversation. *)
Module FixWork.
Definition conversation : WebchatConversation.t :=
  {| WebchatConversation.id := 5; WebchatConversation.public_id := "wc_5";
     WebchatConversation.visitor_name := None; WebchatConversation.status := "open";
     WebchatConversation.created_at := 0; WebchatConversation.tenant_key := "acme";
     WebchatConversation.channel_key := "default"; WebchatConversation.ticket_id := Some 1;
     WebchatConversation.active_ai_turn_id := None; WebchatConversation.active_ai_status := None;
     WebchatConversation.active_ai_for_message_id := None;
     WebchatConversation.active_ai_context_cutoff_message_id := None;
     WebchatConversation.next_ai_turn_id := None;
     WebchatConversation.active_ai_started_at := None;
     WebchatConversation.active_ai_updated_at := None;
     WebchatConversation.current_handoff_request_id := None;
     WebchatConversation.handoff_status := "none"; WebchatConversation.active_agent_id := None;
     WebchatConversation.ai_suspended := false; WebchatConversation.ai_suspended_at := None;
     WebchatConversation.ai_suspended_by := None; WebchatConversation.ai_suspended_reason := None;
     WebchatConversation.takeover_mode := None; WebchatConversation.last_handoff_reason := None;
     WebchatConversation.last_seen_at := 0; WebchatConversation.updated_at := 0 |}.

Definition job (i : Z) : BackgroundJob.t :=
  {| BackgroundJob.id := i; BackgroundJob.queue_name := "webchat_ai_reply";
     BackgroundJob.job_type := "webchat.ai_reply";
     BackgroundJob.payload_json := JObj [("conversation_id", JNum 5); ("ticket_id", JNum 1);
                                         ("visitor_message_id", JNum 9)];
     BackgroundJob.dedupe_key := Some ("webchat-ai-reply:" +:+ pretty i);
     BackgroundJob.status := JobStatus.pending; BackgroundJob.attempt_count := 0;
     BackgroundJob.max_attempts := 3; BackgroundJob.next_run_at := None;
     BackgroundJob.locked_at := None; BackgroundJob.locked_by := None;
     BackgroundJob.last_error := None; BackgroundJob.created_at := 0;
     BackgroundJob.updated_at := 0 |}.

Definition idle : Work.t :=
  {| Work.core := Fix.db; Work.jobs := empty_table; Work.scopes := ∅;
     Work.restrictions := empty_table; Work.address_updates := ∅;
     Work.conversations := {| trows := {[5 := conversation]}; tnext := 6 |};
     Work.controls := empty_table; Work.mail_accounts := ∅; Work.turns := empty_table;
     Work.wmessages := empty_table; Work.wevents := [] |}.

Definition queued : Work.t := snd (add_job job idle).
Definition settings : JobSettings.t :=
  {| JobSettings.job_max_retries := 3; JobSettings.job_batch_size := 25;
     JobSettings.job_lock_seconds := 300 |}.
Definition envelope : BackgroundJobScope.t := scope_row idle (job 1).
End FixWork.

