(* ===== verification/Jobs.v ===== *)
(** * The queue of background jobs

    [services/background_jobs.py] and the claim of
    [services/background_job_execution_scope.py]: insertion with deduplication, the
    claim of due jobs by a worker, the outcome of an attempt, and the dispatch of a job
    to its handler.  The handlers of other components and the provider are arguments
    ([Handlers]). *)

From stdpp Require Import sorting.
From S2P Require Import Prelude Calendar Enums Models Fixtures Work Tenancy Sla Redaction JobScope.

(** ** Insertion *)

Definition active (job : BackgroundJob.t) : bool :=
  bool_decide (BackgroundJob.status job ∈ [JobStatus.pending; JobStatus.processing]).

Definition has_key (key : string) (job : BackgroundJob.t) : bool :=
  bool_decide (BackgroundJob.dedupe_key job = Some key).

Definition _find_active_dedupe_job (key : string) (w : Work.t) : option BackgroundJob.t :=
  list.last (select (fun j => has_key key j && active j) (Work.jobs w)).

Definition _find_recent_dedupe_job (key : string) (statuses : list JobStatus.t) (ttl : Z)
    : M Work.t (option BackgroundJob.t) :=
  now ← now;
  gets (fun w => list.last (select (fun j =>
    has_key key j && bool_decide (BackgroundJob.status j ∈ statuses) &&
    (now - ttl <=? BackgroundJob.created_at j)) (Work.jobs w))).

Definition find_recent_speedaf_voice_callback_job (key : string)
    : M Work.t (option BackgroundJob.t) :=
  _find_recent_dedupe_job key [JobStatus.pending; JobStatus.processing; JobStatus.done] (hours 24).

(** The unique index on [dedupe_key] of the active jobs *)
Definition key_taken (key : option string) (w : Work.t) : bool :=
  match key with
  | None => false
  | Some k => not_null (select_first (fun j => has_key k j && active j) (Work.jobs w))
  end.

(** [with db.begin_nested(): db.add(job); db.flush()] for a pending job *)
Definition insert_job (key : option string) (mk : Z → BackgroundJob.t) : M Work.t BackgroundJob.t :=
  fun w =>
    if key_taken key w
    then (Err (IntegrityError "uq_background_jobs_active_dedupe_key"), w)
    else let (job, w') := add_job mk w in (Ok job, w').

(** [a or b] on integers *)
Definition int_or (a : option Z) (b : Z) : Z := if truthy_id a then default b a else b.

Section Enqueue.
Context (cfg : JobSettings.t) (sha256_hex : string → string).

Definition new_job (queue_name job_type : string) (payload : json) (max_attempts : option Z)
    (next_run_at : option Z) (dedupe_key : option string) (created updated id : Z)
    : BackgroundJob.t :=
  {| BackgroundJob.id := id; BackgroundJob.queue_name := queue_name;
     BackgroundJob.job_type := job_type; BackgroundJob.payload_json := payload;
     BackgroundJob.dedupe_key := dedupe_key; BackgroundJob.status := JobStatus.pending;
     BackgroundJob.attempt_count := 0;
     BackgroundJob.max_attempts := int_or max_attempts (JobSettings.job_max_retries cfg);
     BackgroundJob.next_run_at := next_run_at; BackgroundJob.locked_at := None;
     BackgroundJob.locked_by := None; BackgroundJob.last_error := None;
     BackgroundJob.created_at := created; BackgroundJob.updated_at := updated |}.

Definition enqueue_background_job (queue_name job_type : string) (payload : json)
    (max_attempts next_run_at : option Z) (dedupe_key : option string)
    : M Work.t BackgroundJob.t :=
  let lookup w := if truthy_str dedupe_key
                  then key ← dedupe_key; _find_active_dedupe_job key w else None in
  w ← get;
  match lookup w with
  | Some existing => mret existing
  | None =>
      created ← now;
      updated ← now;
      try_catch
        (insert_job dedupe_key
           (new_job queue_name job_type payload max_attempts next_run_at dedupe_key created updated))
        (fun e => w ← get;
                  match lookup w with Some existing => mret existing | None => raise e end)
  end.

Definition enqueue_webchat_ai_reply_job (conversation_id : Z) (ticket_id : option Z)
    (visitor_message_id : Z) : M Work.t BackgroundJob.t :=
  enqueue_background_job "webchat_ai_reply" WEBCHAT_AI_REPLY_JOB
    (JObj [("conversation_id", JNum conversation_id); ("ticket_id", json_of_option JNum ticket_id);
           ("visitor_message_id", JNum visitor_message_id)])
    None None (Some ("webchat-ai-reply:" +:+ pretty visitor_message_id)).

Definition _stable_hash_prefix (value : string) : string :=
  str_take 16 (sha256_hex (py_upper (py_strip value))).

Definition enqueue_speedaf_work_order_create_job (ticket_id : Z)
    (waybill_code caller_id description work_order_type : string) (conversation_id : option Z)
    : M Work.t BackgroundJob.t :=
  enqueue_background_job "speedaf_work_order" SPEEDAF_WORK_ORDER_CREATE_JOB
    (JObj [("ticket_id", JNum ticket_id);
           ("conversation_id", json_of_option JNum conversation_id);
           ("waybillCode", JStr waybill_code); ("callerID", JStr caller_id);
           ("workOrderType", JStr work_order_type);
           ("description", JStr (str_take SPEEDAF_WORK_ORDER_DESCRIPTION_MAX_LENGTH description))])
    None None
    (Some ("speedaf-workorder:ticket:" +:+ pretty ticket_id +:+ ":waybill:" +:+
           _stable_hash_prefix waybill_code +:+ ":type:" +:+ work_order_type)).

Definition enqueue_speedaf_address_update_job (ticket_id : Z)
    (waybill_code caller_id whatsapp_phone dedupe_key : string) (request_id : option string)
    : M Work.t BackgroundJob.t :=
  enqueue_background_job "speedaf_address_update" SPEEDAF_ADDRESS_UPDATE_JOB
    (JObj [("ticket_id", JNum ticket_id); ("waybillCode", JStr waybill_code);
           ("callerID", JStr caller_id); ("whatsAppPhone", JStr whatsapp_phone);
           ("addressUpdateDedupeKey", JStr dedupe_key);
           ("request_id", json_of_option JStr request_id)])
    None None (Some dedupe_key).

Definition enqueue_speedaf_voice_callback_job (ticket_id voice_session_id : Z)
    (call_session_id : string) (is_transferred_to_human : bool) (action : json)
    (dedupe_key : string) (request_id : option string) : M Work.t BackgroundJob.t :=
  existing ← find_recent_speedaf_voice_callback_job dedupe_key;
  match existing with
  | Some job => mret job
  | None =>
      enqueue_background_job "speedaf_voice_callback" SPEEDAF_VOICE_CALLBACK_JOB
        (JObj [("ticket_id", JNum ticket_id); ("voice_session_id", JNum voice_session_id);
               ("callSessionId", JStr call_session_id);
               ("isTransferredToHuman", JNum (if is_transferred_to_human then 1 else 0));
               ("action", action); ("voiceCallbackDedupeKey", JStr dedupe_key);
               ("request_id", json_of_option JStr request_id)])
        None None (Some dedupe_key)
  end.
End Enqueue.

(** ** The claim *)

Section Claim.
Context (cfg : JobSettings.t).

Definition _pending_filters (now : Z) (job_types : list string) (job : BackgroundJob.t) : bool :=
  let due := match BackgroundJob.next_run_at job with None => true | Some t => t <=? now end in
  let stale := match BackgroundJob.locked_at job with
               | None => true
               | Some t => t <? now - seconds (JobSettings.job_lock_seconds cfg)
               end in
  ((bool_decide (BackgroundJob.status job = JobStatus.pending) && due) ||
   (bool_decide (BackgroundJob.status job = JobStatus.processing) && stale)) &&
  (bool_decide (job_types = []) || bool_decide (BackgroundJob.job_type job ∈ job_types)).

Definition normalized_types (job_types : list string) : list string :=
  filter (fun t => nonempty t = true) (py_strip <$> job_types).

Definition bounded_limit (limit : option Z) : Z :=
  Z.max 1 (Z.min (int_or limit (JobSettings.job_batch_size cfg)) 1000).

Definition claimable (w : Work.t) (now : Z) (types : list string) (job : BackgroundJob.t) : bool :=
  _pending_filters now types job && executable w job.

(** [ORDER BY created_at, id] *)
Definition older (a b : BackgroundJob.t) : bool :=
  (BackgroundJob.created_at a <? BackgroundJob.created_at b) ||
  ((BackgroundJob.created_at a =? BackgroundJob.created_at b) &&
   (BackgroundJob.id a <=? BackgroundJob.id b)).

(** The rows of the [SELECT], without those other transactions have locked *)
Definition candidates (locked : Z → bool) (limit : option Z) (now : Z) (types : list string)
    (w : Work.t) : list BackgroundJob.t :=
  take (Z.to_nat (bounded_limit limit))
    (sort_by older (select (fun j => claimable w now types j && negb (locked (BackgroundJob.id j)))
                      (Work.jobs w))).

Definition to_claimed (lease_token : string) (now : Z) (job : BackgroundJob.t) : BackgroundJob.t :=
  job <| BackgroundJob.status := JobStatus.processing |> <| BackgroundJob.locked_at := Some now |>
      <| BackgroundJob.locked_by := Some lease_token |> <| BackgroundJob.updated_at := now |>.

Definition put_job (i : Z) (job : BackgroundJob.t) (w : Work.t) : Work.t :=
  w <| Work.jobs ::= table_put i job |>.

(** [UPDATE background_jobs ... WHERE id = :id AND <filters>]: the row count *)
Definition update_claimed (lease_token : string) (now : Z) (types : list string) (id : Z)
    (w : Work.t) : bool * Work.t :=
  match job_at w id with
  | Some job => if claimable w now types job then (true, put_job id (to_claimed lease_token now job) w)
                else (false, w)
  | None => (false, w)
  end.

(** One [UPDATE] per id, in order; the ids whose row was updated *)
Fixpoint update_each (lease_token : string) (now : Z) (types : list string) (ids : list Z)
    (w : Work.t) : list Z * Work.t :=
  match ids with
  | [] => ([], w)
  | i :: rest =>
      let (hit, w1) := update_claimed lease_token now types i w in
      let (claimed, w2) := update_each lease_token now types rest w1 in
      (if hit then i :: claimed else claimed, w2)
  end.

(** The final query: the claimed rows in order *)
Definition claimed_rows (ids : list Z) (w : Work.t) : list BackgroundJob.t :=
  sort_by older (select (fun j => bool_decide (BackgroundJob.id j ∈ ids)) (Work.jobs w)).

(** The branch for PostgreSQL.  [w] is what the [SELECT] has seen, [w'] the database
    at the [UPDATE]: the selected rows are locked in between, their envelopes are not. *)
Definition claim_executable_background_jobs (locked : Z → bool) (limit : option Z)
    (lease_token : string) (job_types : list string) (now : Z) (w w' : Work.t)
    : result (list BackgroundJob.t) * Work.t :=
  let types := normalized_types job_types in
  let claimed_ids := BackgroundJob.id <$> candidates locked limit now types w in
  match claimed_ids with
  | [] => (Ok [], w')
  | _ =>
      let (hit, w2) := update_each lease_token now types claimed_ids w' in
      if bool_decide (length hit = length claimed_ids) then (Ok (claimed_rows claimed_ids w2), w2)
      else (Err (BackgroundJobExecutionScopeError "background_job_scope_changed_during_claim"), w')
  end.

(** The other branch: no locks, each row is claimed by a conditional [UPDATE]. *)
Definition claim_executable_background_jobs_cas (limit : option Z) (lease_token : string)
    (job_types : list string) (now : Z) (w w' : Work.t)
    : result (list BackgroundJob.t) * Work.t :=
  let types := normalized_types job_types in
  let candidate_ids := BackgroundJob.id <$> candidates (fun _ => false) limit now types w in
  let (claimed_ids, w2) := update_each lease_token now types candidate_ids w' in
  match claimed_ids with
  | [] => (Ok [], w')
  | _ => (Ok (claimed_rows claimed_ids w2), w2)
  end.
End Claim.

(** ** The outcome of an attempt *)

Definition _mark_done (sha256_hex : string → string) (now : Z) (job : BackgroundJob.t)
    : BackgroundJob.t :=
  _scrub_completed_speedaf_job_payload sha256_hex job
    <| BackgroundJob.status := JobStatus.done |> <| BackgroundJob.locked_at := None |>
    <| BackgroundJob.locked_by := None |> <| BackgroundJob.next_run_at := None |>
    <| BackgroundJob.last_error := None |> <| BackgroundJob.updated_at := now |>.

(** [now], [now']: the two readings of the clock *)
Definition _mark_retry (reason : string) (now now' : Z) (job : BackgroundJob.t) : BackgroundJob.t :=
  let attempts := BackgroundJob.attempt_count job + 1 in
  let dead := BackgroundJob.max_attempts job <=? attempts in
  job <| BackgroundJob.attempt_count := attempts |>
      <| BackgroundJob.last_error := Some (str_take 500 reason) |>
      <| BackgroundJob.locked_at := None |> <| BackgroundJob.locked_by := None |>
      <| BackgroundJob.status := if dead then JobStatus.dead else JobStatus.pending |>
      <| BackgroundJob.next_run_at := if dead then None
                                      else Some (now + minutes (backoff attempts 30)) |>
      <| BackgroundJob.updated_at := now' |>.

(** The shared job object: its attributes, and their assignment *)
Definition the_job (i : Z) : M Work.t BackgroundJob.t := fun w =>
  match job_at w i with
  | Some j => (Ok j, w)
  | None => (Err (RuntimeError "ObjectDeletedError"), w)
  end.
Definition set_job (i : Z) (f : BackgroundJob.t → BackgroundJob.t) : M Work.t unit :=
  modify (fun w => match job_at w i with
                   | Some j => w <| Work.jobs ::= table_put i (f j) |>
                   | None => w
                   end).

Definition mark_done (sha256_hex : string → string) (i : Z) : M Work.t unit :=
  now ← now; set_job i (_mark_done sha256_hex now).

(** The clock is read once more when the job is retried than when it dies *)
Definition mark_retry (i : Z) (reason : string) : M Work.t unit :=
  job ← the_job i;
  (if BackgroundJob.max_attempts job <=? BackgroundJob.attempt_count job + 1
   then now ← now; set_job i (_mark_retry reason now now)
   else now1 ← now; now2 ← now; set_job i (_mark_retry reason now1 now2)).

(** [str(exc)] *)
Definition exc_text (e : exc) : string :=
  match e with
  | HTTPException st detail => pretty st +:+ ": " +:+ detail
  | HTTPExceptionCode st code _ => pretty st +:+ ": " +:+ code
  | LookupError k => "'" +:+ k +:+ "'"
  | SLAConfigurationError c | ValueError c | TypeError c | RuntimeError c | OverflowError c
  | BackgroundJobExecutionScopeError c | IntegrityError c => c
  | DataProcessingRestricted p _ => p
  | OperatorQueueError _ c | AttributeError c => c
  | PendingRollbackError =>
      "This Session's transaction has been rolled back due to a previous exception during flush."
  end.

(** ** Handlers *)

Module SpeedafResult.
Record t := {
  ok : bool; status : string; external_id : option string; error_code : option string;
  error_message : option string; safe_payload : json; retryable : bool }.
End SpeedafResult.

Inductive SpeedafOutcome :=
| Disabled (message : string)
| Returned (r : SpeedafResult.t)
| Raised (e : exc).

(** What the dispatch calls: the job services of other components, and the provider
    with its arguments after the ticket and the job ([SpeedafActionService]) *)
Module Handlers.
Record t := {
  webchat_ai_reply : Z → option Z → Z → M Work.t unit;
  handoff_snapshot : json → M Work.t unit;
  whatsapp_delivery : Z → json → M Work.t unit;
  mailbox_sync : Z → M Work.t unit;
  create_work_order : Z → Z → json → string → string → string → string → SpeedafOutcome;
  submit_update_address_flow : Z → Z → string → string → string → string → SpeedafOutcome;
  send_voice_callback : Z → Z → string → json → SpeedafOutcome }.
End Handlers.

Definition _append_ticket_event (ticket_id : Z) (note field_name new_value : string)
    (payload : list (string * json)) : M Work.t unit :=
  _ ← now;
  on_core (log_event
    {| TicketEvent.ticket_id := ticket_id; TicketEvent.actor_id := None;
       TicketEvent.event_type := EventType.field_updated;
       TicketEvent.field_name := Some field_name; TicketEvent.old_value := None;
       TicketEvent.new_value := Some new_value; TicketEvent.note := Some note;
       TicketEvent.payload_json := JObj payload |}).

Definition _int_or_none (v : json) : json :=
  match v with
  | JNum _ | JBool _ => v
  | JStr s => if nonempty s && string_forallb is_digit s
              then json_of_option JNum (py_int s) else JNull
  | _ => JNull
  end.

Definition _update_speedaf_address_idempotency_status (dedupe_key status_value : string)
    : M Work.t unit :=
  w ← get;
  require (not_null (Work.address_updates w !! dedupe_key))
    (RuntimeError "speedaf_address_update_idempotency_reservation_missing");;
  _ ← now;
  modify (fun w => w <| Work.address_updates ::= <[dedupe_key := status_value]> |>).

(** [d[k]], and [d.get(k)] on a dict *)
Definition item (k : string) (payload : json) : M Work.t json := lift (json_item k payload).
Definition int_item (k : string) (payload : json) : M Work.t Z :=
  lift (v ← json_item k payload; json_int v).
Definition str_item (k : string) (payload : json) : M Work.t string :=
  lift (v ← json_item k payload; Ok (py_str v)).

Definition disabled_fields (message : string) : list (string * json) :=
  [("ok", JBool false); ("status", JStr "disabled");
   ("error_code", JStr "SpeedafActionDisabled"); ("error_message", JStr message)].

Definition result_fields (r : SpeedafResult.t) : list (string * json) :=
  [("ok", JBool (SpeedafResult.ok r)); ("status", JStr (SpeedafResult.status r));
   ("error_code", jopt (SpeedafResult.error_code r));
   ("error_message", jopt (SpeedafResult.error_message r));
   ("safe_payload", SpeedafResult.safe_payload r)].

(** [if not result.ok and result.retryable: raise RuntimeError(...)] *)
Definition raise_retryable (r : SpeedafResult.t) (default_code : string) : M Work.t unit :=
  require (negb (negb (SpeedafResult.ok r) && SpeedafResult.retryable r))
    (RuntimeError (str_or (SpeedafResult.error_code r) default_code)).

Section Process.
Context (sha256_hex : string → string) (h : Handlers.t).

(** What the three provider jobs do with the outcome: an event, and for a disabled
    provider the end of the job *)
Definition record_outcome (i ticket_id : Z) (field_name what failure_code : string)
    (done_note failed_note : string) (base : list (string * json)) (outcome : SpeedafOutcome)
    (set_status : string → M Work.t unit) : M Work.t unit :=
  match outcome with
  | Raised e => raise e
  | Disabled message =>
      set_status "skipped";;
      _append_ticket_event ticket_id (what +:+ " skipped by feature gate.") field_name "skipped"
        (base ++ disabled_fields message);;
      mark_done sha256_hex i
  | Returned r =>
      set_status (if SpeedafResult.ok r then "success" else "failed");;
      _append_ticket_event ticket_id (if SpeedafResult.ok r then done_note else failed_note)
        field_name (if SpeedafResult.ok r then "completed" else "failed")
        (base ++ result_fields r);;
      raise_retryable r failure_code
  end.

Definition _process_speedaf_work_order_create_job (i : Z) (payload : json) : M Work.t unit :=
  ticket_id ← int_item "ticket_id" payload;
  let conversation_id := _int_or_none (json_get "conversation_id" payload) in
  let work_order_type := json_or (json_get "workOrderType" payload) (JStr "WT0103-05") in
  waybill_code ← str_item "waybillCode" payload;
  let description := str_take SPEEDAF_WORK_ORDER_DESCRIPTION_MAX_LENGTH
                       (text_of (json_get "description" payload)) in
  caller_id ← str_item "callerID" payload;
  let outcome := Handlers.create_work_order h ticket_id i conversation_id waybill_code
                   (py_str work_order_type) description caller_id in
  record_outcome i ticket_id "speedaf_work_order" "Speedaf work order creation"
    "speedaf_work_order_create_failed" "Speedaf work order creation completed."
    "Speedaf work order creation failed."
    ([("job_id", JNum i); ("job_type", JStr SPEEDAF_WORK_ORDER_CREATE_JOB);
      ("ticket_id", JNum ticket_id); ("conversation_id", conversation_id);
      ("workOrderType", work_order_type)] ++
     match outcome with
     | Returned r => [("external_id", jopt (SpeedafResult.external_id r))]
     | _ => []
     end)
    outcome (fun _ => mret tt).

Definition _process_speedaf_address_update_job (i : Z) (payload : json) : M Work.t unit :=
  ticket_id ← int_item "ticket_id" payload;
  dedupe_key ← str_item "addressUpdateDedupeKey" payload;
  phone ← str_item "whatsAppPhone" payload;
  waybill_code ← str_item "waybillCode" payload;
  caller_id ← str_item "callerID" payload;
  record_outcome i ticket_id "speedaf_address_update"
    "Speedaf address update confirmation request" "speedaf_address_update_failed"
    "Speedaf address update confirmation request completed. Final Speedaf confirmation may still be required."
    "Speedaf address update confirmation request failed."
    ([("job_id", JNum i); ("job_type", JStr SPEEDAF_ADDRESS_UPDATE_JOB);
      ("ticket_id", JNum ticket_id); ("dedupe_key", JStr dedupe_key)] ++
     safe_waybill_payload sha256_hex waybill_code ++
     [("whatsapp_phone", JObj [("redacted", JBool true); ("suffix", JStr (str_last 4 phone))])])
    (Handlers.submit_update_address_flow h ticket_id i dedupe_key waybill_code phone caller_id)
    (_update_speedaf_address_idempotency_status dedupe_key).

Definition _process_speedaf_voice_callback_job (i : Z) (payload : json) : M Work.t unit :=
  job ← the_job i;
  ticket_id ← int_item "ticket_id" payload;
  let dedupe_key := text_of (json_or (json_get "voiceCallbackDedupeKey" payload)
        (json_or (jopt (BackgroundJob.dedupe_key job))
                 (JStr ("speedaf-voice-callback:" +:+ pretty i)))) in
  let action := action_of payload in
  transferred ← lift (json_int (json_or (json_get "isTransferredToHuman" payload) (JNum 0)));
  record_outcome i ticket_id "speedaf_voice_callback" "Speedaf voice callback"
    "speedaf_voice_callback_failed" "Speedaf voice callback completed."
    "Speedaf voice callback failed."
    ([("job_id", JNum i); ("job_type", JStr SPEEDAF_VOICE_CALLBACK_JOB);
      ("ticket_id", JNum ticket_id);
      ("voice_session_id", _int_or_none (json_get "voice_session_id" payload));
      ("dedupe_key", JStr dedupe_key)] ++
     safe_waybill_payload sha256_hex (text_of (json_get "waybillCode" action)))
    (Handlers.send_voice_callback h ticket_id i dedupe_key
       (JObj [("callSessionId", JStr (text_of (json_get "callSessionId" payload)));
              ("isTransferredToHuman", JNum transferred); ("action", action)]))
    (fun _ => mret tt).

(** The dispatch on the type of the job *)
Definition run_handler (i : Z) (job_type : string) (payload : json) : M Work.t unit :=
  if decide (job_type = WEBCHAT_AI_REPLY_JOB) then
    conversation_id ← int_item "conversation_id" payload;
    ticket_id ← match json_get "ticket_id" payload with
                | JNull => mret None
                | v => z ← lift (json_int v); mret (Some z)
                end;
    visitor_message_id ← int_item "visitor_message_id" payload;
    Handlers.webchat_ai_reply h conversation_id ticket_id visitor_message_id
  else if decide (job_type = WEBCHAT_HANDOFF_SNAPSHOT_JOB) then
    match json_get "snapshot" payload with
    | JObj l => Handlers.handoff_snapshot h (JObj l)
    | _ => raise (RuntimeError "webchat handoff snapshot payload is required")
    end
  else if decide (job_type = WEBCHAT_WHATSAPP_DELIVERY_JOB) then
    Handlers.whatsapp_delivery h i payload
  else if decide (job_type = SPEEDAF_WORK_ORDER_CREATE_JOB) then
    _process_speedaf_work_order_create_job i payload
  else if decide (job_type = SPEEDAF_ADDRESS_UPDATE_JOB) then
    _process_speedaf_address_update_job i payload
  else if decide (job_type = SPEEDAF_VOICE_CALLBACK_JOB) then
    _process_speedaf_voice_callback_job i payload
  else if decide (job_type = EMAIL_MAILBOX_SYNC_JOB) then
    account_id ← int_item "account_id" payload; Handlers.mailbox_sync h account_id
  else raise (RuntimeError ("Unsupported job type: " +:+ job_type)).

(** Everything an attempt raises ends as a retry, on top of what it has written. *)
Definition process_background_job (i : Z) : M Work.t unit :=
  job ← the_job i;
  try_catch
    (run_handler i (BackgroundJob.job_type job) (BackgroundJob.payload_json job);;
     mark_done sha256_hex i)
    (fun e => mark_retry i (exc_text e)).
End Process.

(** ** What a claim does *)

Definition keyed (w : Work.t) : Prop := ∀ i j, job_at w i = Some j → BackgroundJob.id j = i.

Lemma job_at_put i x w j : job_at (put_job i x w) j = if decide (i = j) then Some x else job_at w j.
Proof. apply lookup_table_put. Qed.

Lemma update_claimed_at cfg tk now types i w j :
  job_at (snd (update_claimed cfg tk now types i w)) j =
  match job_at w j with
  | Some job => if bool_decide (i = j) && claimable cfg w now types job
                then Some (to_claimed tk now job) else Some job
  | None => None
  end.
Proof.
  unfold update_claimed. destruct (job_at w i) as [x|] eqn:E; cbn [snd].
  - destruct (claimable cfg w now types x) eqn:Ec; cbn [snd].
    + rewrite job_at_put. case_decide as Hij; [subst j; rewrite E, Ec|].
      * by rewrite bool_decide_eq_true_2.
      * rewrite bool_decide_eq_false_2 by done. by destruct (job_at w j).
    + destruct (job_at w j) as [y|] eqn:Ej; [|done]. case_bool_decide; [|done]. subst j.
      replace y with x by congruence. by rewrite Ec.
  - destruct (job_at w j) as [y|] eqn:Ej; [|done]. case_bool_decide; [congruence|done].
Qed.

(** A claim writes the rows of jobs, nothing else. *)
Definition same_rest (w w' : Work.t) : Prop :=
  w <| Work.jobs := empty_table |> = w' <| Work.jobs := empty_table |> ∧
  tnext (Work.jobs w') = tnext (Work.jobs w).

Lemma same_rest_refl w : same_rest w w.
Proof. done. Qed.

Lemma same_rest_trans w1 w2 w3 : same_rest w1 w2 → same_rest w2 w3 → same_rest w1 w3.
Proof. intros [? ?] [? ?]. split; congruence. Qed.

Lemma update_claimed_same cfg tk now types i w : same_rest w (snd (update_claimed cfg tk now types i w)).
Proof. unfold update_claimed. destruct (job_at w i); [|done]. by destruct (claimable cfg w now types _). Qed.

Lemma same_rest_claimable cfg w w' now types job :
  same_rest w w' → claimable cfg w' now types job = claimable cfg w now types job.
Proof.
  intros [E _]. unfold claimable, executable, executable_background_job_scope_filter.
  destruct w, w'. injection E. intros. subst. done.
Qed.

(** An update of claimable rows hits each of them once. *)
Lemma update_each_exact cfg tk now types ids w :
  NoDup ids → Forall (fun i => ∃ job, job_at w i = Some job ∧ claimable cfg w now types job = true) ids →
  let r := update_each cfg tk now types ids w in
  fst r = ids ∧ same_rest w (snd r) ∧
  (∀ j, job_at (snd r) j = if decide (j ∈ ids) then to_claimed tk now <$> job_at w j else job_at w j).
Proof.
  cbv zeta. revert w. induction ids as [|i ids IH]; intros w; [done|].
  intros [Hi Hnd]%list.NoDup_cons [(job & Ej & Hc) Hall]%list.Forall_cons. cbn [update_each].
  pose proof (update_claimed_at cfg tk now types i w) as Hat.
  pose proof (update_claimed_same cfg tk now types i w) as Hsame.
  assert (fst (update_claimed cfg tk now types i w) = true) as Hhit
    by (unfold update_claimed; by rewrite Ej, Hc).
  destruct (update_claimed cfg tk now types i w) as [hit w1]. cbn in Hat, Hsame, Hhit. subst hit.
  assert (∀ j, job_at w1 j = if decide (i = j) then to_claimed tk now <$> job_at w j else job_at w j) as Hat'.
  { intros j. rewrite Hat. case_decide as Hij.
    - subst j. rewrite Ej, Hc. by rewrite bool_decide_eq_true_2.
    - destruct (job_at w j); [|done]. by rewrite bool_decide_eq_false_2. }
  destruct (IH w1) as (H1 & H2 & H3); [done| |].
  { rewrite list.Forall_forall in Hall. apply list.Forall_forall. intros j Hj.
    destruct (Hall j Hj) as (y & Ey & Hy). exists y. rewrite Hat', decide_False by congruence.
    split; [done|]. by rewrite (same_rest_claimable cfg w). }
  destruct (update_each cfg tk now types ids w1) as [l w2]. cbn in *. subst l. split_and!.
  - done.
  - by eapply same_rest_trans.
  - intros j. rewrite H3, Hat'. destruct (decide (i = j)) as [->|Hij].
    + rewrite !decide_False, decide_True by (done || by left). done.
    + destruct (decide (j ∈ ids)); [by rewrite decide_True by (by right)|].
      rewrite decide_False; [done|]. by intros [?|?]%elem_of_cons.
Qed.


(** The selected rows are distinct, sorted and claimable. *)
Lemma candidates_spec cfg locked limit now types w :
  keyed w → let cs := candidates cfg locked limit now types w in
  NoDup (BackgroundJob.id <$> cs) ∧
  (∀ job, job ∈ cs → job_at w (BackgroundJob.id job) = Some job ∧
     claimable cfg w now types job = true ∧ locked (BackgroundJob.id job) = false).
Proof.
  intros Hk. unfold candidates. set (p := fun j => _).
  assert (∀ job, job ∈ sort_by older (select p (Work.jobs w)) →
    job_at w (BackgroundJob.id job) = Some job ∧ p job = true) as Hin.
  { intros job Hj. rewrite elem_of_sort_by, elem_of_select in Hj. destruct Hj as (i & Hi & Hp).
    split; [|done]. by rewrite (Hk i job Hi). }
  split.
  - rewrite fmap_take. eapply sublist_NoDup; [|apply sublist_take].
    rewrite sort_by_Permutation. by apply select_NoDup.
  - intros job (k & Hl & _)%elem_of_take. apply list_elem_of_lookup_2, Hin in Hl as [Hj Hp].
    apply andb_true_iff in Hp as [Hc Hl]. by apply negb_true_iff in Hl.
Qed.

Lemma older_total a b : older a b = true ∨ older b a = true.
Proof. unfold older. rewrite !orb_true_iff, !andb_true_iff, !Z.ltb_lt, !Z.eqb_eq, !Z.leb_le. lia. Qed.

Lemma older_trans a b c : older a b = true → older b c = true → older a c = true.
Proof. unfold older. rewrite !orb_true_iff, !andb_true_iff, !Z.ltb_lt, !Z.eqb_eq, !Z.leb_le. lia. Qed.

(** Whoever is not selected waits behind a full batch of older jobs. *)
Lemma candidates_oldest cfg locked limit now types w i job :
  job_at w i = Some job → claimable cfg w now types job = true →
  locked (BackgroundJob.id job) = false →
  let cs := candidates cfg locked limit now types w in
  job ∈ cs ∨ (Z.of_nat (length cs) = bounded_limit cfg limit ∧ ∀ c, c ∈ cs → older c job = true).
Proof.
  intros Hj Hc Hl. unfold candidates. set (p := fun j => _). set (l := sort_by _ _).
  assert (job ∈ l) as Hin.
  { unfold l. rewrite elem_of_sort_by, elem_of_select. exists i. split; [exact Hj|].
    unfold p. by rewrite Hc, Hl. }
  assert (0 ≤ bounded_limit cfg limit) as Hpos by (unfold bounded_limit; lia).
  rewrite <- (take_drop (Z.to_nat (bounded_limit cfg limit)) l), elem_of_app in Hin.
  destruct Hin as [?|Hin]; [by left|right]. split.
  - rewrite length_take. apply list_elem_of_lookup_1 in Hin as [k Hk].
    rewrite lookup_drop in Hk. apply lookup_lt_Some in Hk. lia.
  - intros c Hcin. pose proof (sort_by_sorted older older_total older_trans (select p (Work.jobs w))) as Hs.
    fold l in Hs. rewrite <- (take_drop (Z.to_nat (bounded_limit cfg limit)) l) in Hs.
    by apply (StronglySorted_app_1_elem_of _ _ _ c job Hs).
Qed.

Lemma claimed_id tk now job : BackgroundJob.id (to_claimed tk now job) = BackgroundJob.id job.
Proof. done. Qed.

Lemma claimed_rows_nil w : claimed_rows [] w = [].
Proof.
  unfold claimed_rows. rewrite (proj2 (select_nil _ _)); [done|]. intros i r _.
  apply bool_decide_eq_false. by intros ?%elem_of_nil.
Qed.

(** The final query returns the claimed rows. *)
Lemma claimed_rows_spec tk now cs w w2 :
  keyed w → NoDup (BackgroundJob.id <$> cs) →
  (∀ job, job ∈ cs → job_at w (BackgroundJob.id job) = Some job) →
  (∀ j, job_at w2 j = if decide (j ∈ BackgroundJob.id <$> cs) then to_claimed tk now <$> job_at w j
                      else job_at w j) →
  claimed_rows (BackgroundJob.id <$> cs) w2 ≡ₚ to_claimed tk now <$> cs.
Proof.
  intros Hk Hnd Hcs Hw2. unfold claimed_rows. rewrite sort_by_Permutation.
  assert (∀ i r, trows (Work.jobs w2) !! i = Some r → BackgroundJob.id r = i) as Hk2.
  { intros i r. change (job_at w2 i = Some r → BackgroundJob.id r = i). rewrite Hw2.
    case_decide; [|apply Hk]. destruct (job_at w i) as [y|] eqn:E; [|done]. intros [= <-].
    exact (Hk i y E). }
  apply NoDup_Permutation.
  - by eapply NoDup_fmap_1, (select_NoDup BackgroundJob.id).
  - apply (NoDup_fmap_1 BackgroundJob.id).
    assert (BackgroundJob.id <$> (to_claimed tk now <$> cs) = BackgroundJob.id <$> cs) as ->; [|done].
    clear. induction cs as [|c cs IH]; [done|]. cbn. by f_equal.
  - intros x. rewrite elem_of_select, (list_elem_of_fmap (to_claimed tk now)). split.
    + intros (i & Hi & Hp%bool_decide_eq_true). pose proof (Hk2 i x Hi) as <-.
      change (job_at w2 (BackgroundJob.id x) = Some x) in Hi. rewrite Hw2, decide_True in Hi by done.
      apply list_elem_of_fmap in Hp as (job & E & Hjob). rewrite E, (Hcs job Hjob) in Hi.
      injection Hi as <-. by exists job.
    + intros (job & -> & Hjob). exists (BackgroundJob.id job).
      assert (BackgroundJob.id job ∈ BackgroundJob.id <$> cs) as Hid by (by apply list_elem_of_fmap_2).
      split; [|by apply bool_decide_eq_true]. change (job_at w2 (BackgroundJob.id job) = Some (to_claimed tk now job)).
      rewrite Hw2, decide_True, (Hcs job Hjob) by done. done.
Qed.

(** A claim without interference takes exactly the oldest claimable jobs: the
    selected rows are claimable and not locked by others, at most [limit] of them, and a
    claimable job that is left out waits behind a full batch of older ones.  Every
    selected row, and nothing else in the database, is changed, to processing under the
    token of the worker; the claim returns these rows in order.  The branch without row
    locks computes the same. *)
Theorem job_claim_takes_oldest cfg locked limit tk job_types now w :
  keyed w →
  let types := normalized_types job_types in
  let cs := candidates cfg locked limit now types w in
  ∃ jobs w',
    claim_executable_background_jobs cfg locked limit tk job_types now w w = (Ok jobs, w') ∧
    ((∀ i, locked i = false) →
     claim_executable_background_jobs_cas cfg limit tk job_types now w w = (Ok jobs, w')) ∧
    jobs ≡ₚ to_claimed tk now <$> cs ∧ StronglySorted (le_by older) jobs ∧ same_rest w w' ∧
    (∀ j, job_at w' j = if decide (j ∈ BackgroundJob.id <$> cs) then to_claimed tk now <$> job_at w j
                        else job_at w j) ∧
    (∀ job, job ∈ cs → claimable cfg w now types job = true ∧ locked (BackgroundJob.id job) = false) ∧
    Z.of_nat (length cs) ≤ bounded_limit cfg limit ∧
    (∀ i job, job_at w i = Some job → claimable cfg w now types job = true →
       locked (BackgroundJob.id job) = false →
       job ∈ cs ∨
       (Z.of_nat (length cs) = bounded_limit cfg limit ∧ ∀ c, c ∈ cs → older c job = true)).
Proof.
  intros Hk. cbv zeta. set (types := normalized_types job_types).
  destruct (candidates_spec cfg locked limit now types w Hk) as [Hnd Hcs].
  pose proof (candidates_oldest cfg locked limit now types w) as Hold.
  assert (Z.of_nat (length (candidates cfg locked limit now types w)) ≤ bounded_limit cfg limit) as Hlen.
  { unfold candidates. rewrite length_take. unfold bounded_limit. lia. }
  assert ((∀ i, locked i = false) → candidates cfg (fun _ => false) limit now types w =
    candidates cfg locked limit now types w) as Hcas.
  { intros Hl. unfold candidates. do 2 f_equal. apply select_ext. intros j. by rewrite Hl. }
  set (cs := candidates cfg locked limit now types w) in *.
  destruct (update_each_exact cfg tk now types (BackgroundJob.id <$> cs) w Hnd) as (H1 & H2 & H3).
  { apply list.Forall_forall. intros i (job & -> & Hj)%list_elem_of_fmap.
    destruct (Hcs job Hj) as (? & ? & _). eauto. }
  destruct (update_each cfg tk now types (BackgroundJob.id <$> cs) w) as [hit w2] eqn:E.
  cbn in H1, H2, H3. subst hit.
  assert (∀ job, job ∈ cs → job_at w (BackgroundJob.id job) = Some job) as Hrow by (intros ? ?; by apply Hcs).
  exists (claimed_rows (BackgroundJob.id <$> cs) w2), w2. split_and!; try done.
  - unfold claim_executable_background_jobs. fold types. fold cs. rewrite E.
    rewrite bool_decide_eq_true_2 by done.
    destruct (BackgroundJob.id <$> cs) eqn:Ei; [|done]. injection E as <-. by rewrite claimed_rows_nil.
  - intros Hl. unfold claim_executable_background_jobs_cas. fold types. rewrite (Hcas Hl). fold cs.
    rewrite E. destruct (BackgroundJob.id <$> cs) eqn:Ei; [|done]. injection E as <-.
    by rewrite claimed_rows_nil.
  - by apply (claimed_rows_spec tk now cs w).
  - apply sort_by_sorted; [apply older_total | apply older_trans].
  - intros job Hj. by apply Hcs.
Qed.

(** ** Deduplication *)

Definition keeps_key (k : string) (j : BackgroundJob.t) : bool := has_key k j && active j.

(** The unique index *)
Definition unique_keys (w : Work.t) : Prop :=
  ∀ k i j a b, job_at w i = Some a → job_at w j = Some b → keeps_key k a = true →
    keeps_key k b = true → i = j.

Lemma find_active_Some k w i job :
  unique_keys w → job_at w i = Some job → keeps_key k job = true →
  _find_active_dedupe_job k w = Some job.
Proof.
  intros Hu Hi Hk. change (list.last (select (keeps_key k) (Work.jobs w)) = Some job).
  rewrite (select_unique (keeps_key k) (Work.jobs w) i job); [done..|].
  intros j r Hj Hr. by eapply (Hu k j i).
Qed.

Lemma find_active_inv k w job :
  _find_active_dedupe_job k w = Some job → ∃ i, job_at w i = Some job ∧ keeps_key k job = true.
Proof.
  intros H. apply (elem_of_select (keeps_key k) (Work.jobs w)). by apply last_Some_elem_of.
Qed.

Lemma key_taken_find k w : key_taken (Some k) w = false ↔ _find_active_dedupe_job k w = None.
Proof.
  unfold key_taken, _find_active_dedupe_job. rewrite list.last_None, select_nil.
  rewrite <- select_first_None. by destruct (select_first _ _).
Qed.

Lemma insert_scope_jobs job w : Work.jobs (_insert_scope job w) = Work.jobs w.
Proof. unfold _insert_scope. by destruct (Work.scopes w !! BackgroundJob.id job). Qed.

Lemma insert_scope_has job w : is_Some (Work.scopes (_insert_scope job w) !! BackgroundJob.id job).
Proof.
  unfold _insert_scope. destruct (Work.scopes w !! BackgroundJob.id job) eqn:E; [by rewrite E|].
  cbn. by rewrite lookup_insert_eq.
Qed.

(** A fresh key: the job is inserted with its envelope. *)
Lemma enqueue_fresh cfg q ty p ma nr k w :
  table_wf (Work.jobs w) → _find_active_dedupe_job k w = None →
  ∃ job w', enqueue_background_job cfg q ty p ma nr (Some k) w = (Ok job, w') ∧
    keeps_key k job = true ∧ job_at w (BackgroundJob.id job) = None ∧
    BackgroundJob.status job = JobStatus.pending ∧ BackgroundJob.attempt_count job = 0 ∧
    BackgroundJob.payload_json job = p ∧ BackgroundJob.job_type job = ty ∧
    BackgroundJob.next_run_at job = nr ∧
    is_Some (Work.scopes w' !! BackgroundJob.id job) ∧
    ∀ j, job_at w' j = if decide (BackgroundJob.id job = j) then Some job else job_at w j.
Proof.
  intros Hwf Hf.
  set (w1 := w <| Work.core := Work.core w <| Db.ticks ::= S |> <| Db.ticks ::= S |> |>).
  set (created := Db.clock (Work.core w) (Db.ticks (Work.core w))).
  set (updated := Db.clock (Work.core w) (S (Db.ticks (Work.core w)))).
  set (mk := new_job cfg q ty p ma nr (Some k) created updated).
  set (job := mk (tnext (Work.jobs w))).
  set (w2 := _insert_scope job (w1 <| Work.jobs ::= fun T => table_add T mk |>)).
  assert (enqueue_background_job cfg q ty p ma nr (Some k) w = (Ok job, w2)) as E.
  { unfold enqueue_background_job, get. unfold mbind at 1, M_bind. cbn [option_bind].
    assert ((if truthy_str (Some k) then key ← Some k; _find_active_dedupe_job key w else None) = None)
      as -> by (cbn; by destruct (nonempty k)).
    change (try_catch (insert_job (Some k) mk) (fun e => w ← get; match (if truthy_str (Some k)
      then key ← Some k; _find_active_dedupe_job key w else None) with
      | Some existing => mret existing | None => raise e end) w1 = (Ok job, w2)).
    unfold try_catch, insert_job. replace (key_taken (Some k) w1) with false
      by (symmetry; by apply key_taken_find). done. }
  exists job, w2. split; [exact E|].
  assert (job_at w (tnext (Work.jobs w)) = None) as Hnone by (by apply table_fresh).
  split_and!; try done.
  - unfold keeps_key, has_key, active. cbn. by rewrite bool_decide_eq_true_2.
  - apply insert_scope_has.
  - intros j. unfold job_at, table_get, w2. rewrite insert_scope_jobs. cbn. by rewrite lookup_table_add.
Qed.

(** Enqueueing deduplicates.  While a job with the key is pending or processing, it is
    returned and the database stays as it is; otherwise exactly one job is added, pending,
    with no attempt used and an envelope.  At most one active job has a key, before and
    after, and enqueueing again returns the same job. *)
Theorem job_enqueue_dedup cfg q ty p ma nr k w :
  table_wf (Work.jobs w) → unique_keys w → nonempty k = true →
  ∃ job w',
    enqueue_background_job cfg q ty p ma nr (Some k) w = (Ok job, w') ∧
    keeps_key k job = true ∧ unique_keys w' ∧
    (_find_active_dedupe_job k w = Some job ∧ w' = w ∨
     _find_active_dedupe_job k w = None ∧ job_at w (BackgroundJob.id job) = None ∧
     BackgroundJob.status job = JobStatus.pending ∧ BackgroundJob.attempt_count job = 0 ∧
     BackgroundJob.payload_json job = p ∧ BackgroundJob.job_type job = ty ∧
     is_Some (Work.scopes w' !! BackgroundJob.id job) ∧
     ∀ j, job_at w' j = if decide (BackgroundJob.id job = j) then Some job else job_at w j) ∧
    ∀ q' ty' p' ma' nr', enqueue_background_job cfg q' ty' p' ma' nr' (Some k) w' = (Ok job, w').
Proof.
  intros Hwf Hu Hk.
  assert (∀ job w' q' ty' p' ma' nr', _find_active_dedupe_job k w' = Some job →
    enqueue_background_job cfg q' ty' p' ma' nr' (Some k) w' = (Ok job, w')) as Hhit.
  { intros job w' q' ty' p' ma' nr' E. unfold enqueue_background_job, get. unfold mbind at 1, M_bind.
    cbn. by rewrite Hk, E. }
  destruct (_find_active_dedupe_job k w) as [job|] eqn:Ef.
  - exists job, w. pose proof (find_active_inv k w job Ef) as (i & _ & Hkk).
    split_and!; [by apply Hhit|done|done|by left|]. intros. by apply Hhit.
  - destruct (enqueue_fresh cfg q ty p ma nr k w Hwf Ef) as (job & w' & E & Hkk & Hno & Hst & Ha & Hp & Ht & _ & Hs & Hat).
    assert (unique_keys w') as Hu'.
    { intros k' i j a b. rewrite !Hat. intros Hi Hj Hka Hkb.
      assert (∀ i x, job_at w i = Some x → keeps_key k' job = true → keeps_key k' x = true → False) as Hfree.
      { intros i' x Hx Hkj Hkx. assert (k' = k) as ->.
        { unfold keeps_key, has_key in Hkk, Hkj. rewrite !andb_true_iff, !bool_decide_eq_true in Hkk, Hkj.
          destruct Hkk as [E1 _], Hkj as [E2 _]. congruence. }
        rewrite (find_active_Some k w i' x Hu Hx Hkx) in Ef. done. }
      destruct (decide (BackgroundJob.id job = i)) as [<-|], (decide (BackgroundJob.id job = j)) as [<-|];
        simplify_eq; [done| | |by eapply Hu].
      + destruct (Hfree j b Hj Hka Hkb).
      + destruct (Hfree i a Hi Hkb Hka). }
    exists job, w'. split_and!; [done..|by right|]. intros. apply Hhit.
    apply (find_active_Some k w' (BackgroundJob.id job)); [done| |done]. rewrite Hat. by rewrite decide_True.
Qed.

(** ** The theorems at a concrete database *)

Lemma queued_at i :
  job_at FixWork.queued i = if decide (1 = i) then Some (FixWork.job 1) else None.
Proof.
  unfold job_at, table_get, FixWork.queued, add_job. cbn [fst snd]. rewrite insert_scope_jobs.
  change (trows (table_add empty_table FixWork.job) !! i = if decide (1 = i) then Some (FixWork.job 1) else None).
  by rewrite lookup_table_add.
Qed.

Lemma queued_keyed : keyed FixWork.queued.
Proof. intros i job. rewrite queued_at. case_decide; [|done]. by intros [= <-]. Qed.

Lemma queued_unique : unique_keys FixWork.queued.
Proof. intros k i j a b. rewrite !queued_at. repeat case_decide; congruence. Qed.

Lemma queued_wf : table_wf (Work.jobs FixWork.queued).
Proof.
  intros i r H. change (job_at FixWork.queued i = Some r) in H. rewrite queued_at in H.
  case_decide; [|done]. subst i. vm_compute. done.
Qed.

Lemma job_claim_takes_oldest_witness :
  keyed FixWork.queued ∧
  ∃ jobs w', claim_executable_background_jobs FixWork.settings (fun _ => false) None "w1" [] 100
    FixWork.queued FixWork.queued = (Ok jobs, w') ∧
    jobs ≡ₚ [to_claimed "w1" 100 (FixWork.job 1)].
Proof.
  split; [exact queued_keyed|].
  destruct (job_claim_takes_oldest FixWork.settings (fun _ => false) None "w1" [] 100 FixWork.queued
    queued_keyed) as (jobs & w' & H & _ & Hp & _).
  exists jobs, w'. split; [exact H|].
  replace (candidates FixWork.settings (fun _ => false) None 100 (normalized_types []) FixWork.queued)
    with [FixWork.job 1] in Hp by (vm_compute; reflexivity).
  exact Hp.
Defined.

Lemma job_enqueue_dedup_witness :
  unique_keys FixWork.queued ∧
  ∃ job, fst (enqueue_background_job FixWork.settings "q" "t" JNull None None
    (Some "webchat-ai-reply:1") FixWork.queued) = Ok job ∧ keeps_key "webchat-ai-reply:1" job = true.
Proof.
  split; [exact queued_unique|].
  destruct (job_enqueue_dedup FixWork.settings "q" "t" JNull None None "webchat-ai-reply:1"
    FixWork.queued queued_wf queued_unique eq_refl) as (job & w' & H & Hk & _).
  exists job. rewrite H. split; [reflexivity | exact Hk].
Defined.
