(* ===== verification/Workers.v ===== *)
(** * Workers on the queue

    [services/background_job_transaction_boundary.py]: leases, heartbeats, and the
    transactions of one attempt, as the steps of a system of workers that share one
    database.

    An attempt holds a session.  The session keeps the job as it was when the lease was
    refreshed ([expire_on_commit=False]), writes nothing before it commits
    ([autoflush=False]), and the flush of the commit writes the changed columns of the
    changed rows.  The ownership of the lease is read on another connection, in a
    transaction of its own, before the commit. *)

From S2P Require Import Prelude Calendar Enums Models Fixtures Work Tenancy Sla Redaction JobScope.
From S2P Require Import Jobs.

(** ** Leases *)

Definition _claim_token (worker_id : option string) (uuid4_hex : string) : string :=
  let prefix := py_strip (str_or worker_id "job-worker") in
  str_take 80 (if nonempty prefix then prefix else "job-worker") +:+ ":" +:+ uuid4_hex.

Definition holds (token : string) (job : BackgroundJob.t) : bool :=
  bool_decide (BackgroundJob.status job = JobStatus.processing) &&
  bool_decide (BackgroundJob.locked_by job = Some token).

Definition _owns_job_lease (token : string) (i : Z) (w : Work.t) : bool :=
  match job_at w i with Some job => holds token job | None => false end.

Definition renewed (locked updated : Z) (job : BackgroundJob.t) : BackgroundJob.t :=
  job <| BackgroundJob.locked_at := Some locked |> <| BackgroundJob.updated_at := updated |>.

(** [UPDATE ... WHERE id AND status = processing AND locked_by = token] *)
Definition renew (token : string) (i : Z) (locked updated : Z) (w : Work.t) : bool * Work.t :=
  match job_at w i with
  | Some job => if holds token job
                then (true, w <| Work.jobs ::= table_put i (renewed locked updated job) |>)
                else (false, w)
  | None => (false, w)
  end.

Definition _refresh_job_lease (token : string) (i : Z) (now : Z) (w : Work.t) : bool * Work.t :=
  renew token i now now w.
Definition _heartbeat_job_lease (token : string) (i : Z) (now now' : Z) (w : Work.t)
    : bool * Work.t := renew token i now now' w.

(** The pause between two heartbeats, in microseconds *)
Definition _lease_heartbeat_interval (cfg : JobSettings.t) : Z :=
  let lock_seconds := Z.max 3 (int_or (Some (JobSettings.job_lock_seconds cfg)) 300) in
  Z.max (seconds 1) (Z.min (seconds 30) (seconds lock_seconds / 3)).

(** ** The flush of a session

    A column is written when the session has changed it. *)

Definition written {A} `{EqDecision A} (f : BackgroundJob.t → A) (before after current : BackgroundJob.t)
    : A := if decide (f before = f after) then f current else f after.

Definition flush_row (b a c : BackgroundJob.t) : BackgroundJob.t :=
  {| BackgroundJob.id := BackgroundJob.id c;
     BackgroundJob.queue_name := written BackgroundJob.queue_name b a c;
     BackgroundJob.job_type := written BackgroundJob.job_type b a c;
     BackgroundJob.payload_json := written BackgroundJob.payload_json b a c;
     BackgroundJob.dedupe_key := written BackgroundJob.dedupe_key b a c;
     BackgroundJob.status := written BackgroundJob.status b a c;
     BackgroundJob.attempt_count := written BackgroundJob.attempt_count b a c;
     BackgroundJob.max_attempts := written BackgroundJob.max_attempts b a c;
     BackgroundJob.next_run_at := written BackgroundJob.next_run_at b a c;
     BackgroundJob.locked_at := written BackgroundJob.locked_at b a c;
     BackgroundJob.locked_by := written BackgroundJob.locked_by b a c;
     BackgroundJob.last_error := written BackgroundJob.last_error b a c;
     BackgroundJob.created_at := written BackgroundJob.created_at b a c;
     BackgroundJob.updated_at := written BackgroundJob.updated_at b a c |}.

(** Row by row: the rows of the session, new or changed, over the current ones.  Two
    sessions never insert the same id, which comes from a sequence of the database; the
    model draws it from the snapshot of the session, and keeps the committed row if
    there is one. *)
Definition flush_jobs (b a c : Table BackgroundJob.t) : Table BackgroundJob.t :=
  {| trows := merge (fun x y => match y with
                                | None => fst <$> x
                                | Some y => match x with
                                            | Some (x, Some x0) => Some (flush_row x0 x y)
                                            | _ => Some y
                                            end
                                end)
                (map_imap (fun i x => Some (x, trows b !! i)) (trows a)) (trows c);
     tnext := Z.max (tnext a) (tnext c) |}.

(** ** Attempts *)

Inductive Phase :=
| Started (loaded : BackgroundJob.t)   (** the lease is refreshed *)
| Cleared (loaded : BackgroundJob.t)   (** the envelope allows the execution *)
| Refused (e : exc) (loaded : BackgroundJob.t)
| Finished (before after : Work.t)     (** the handler has run, nothing is written *)
| Failed (e : exc)                     (** an exception has left the handler: rolled back *)
| Recovering (e : exc)
| Checked (before after : Work.t).     (** the lease was still held *)

Record Attempt := { a_job : Z; a_phase : Phase }.

Definition _exception_reason (e : exc) : string :=
  "Unhandled background job exception: " +:+ exc_name e.

(** [except (BackgroundJobExecutionScopeError, DataProcessingRestricted)] *)
Definition is_scope_refusal (e : exc) : bool :=
  match e with
  | BackgroundJobExecutionScopeError _ | DataProcessingRestricted _ _ => true
  | _ => false
  end.

(** The row that [_reject_execution_scope] writes *)
Definition rejected (e : exc) (now : Z) (job : BackgroundJob.t) : BackgroundJob.t :=
  job <| BackgroundJob.status := JobStatus.dead |>
      <| BackgroundJob.last_error :=
           Some (str_take 500 ("background_job_execution_scope_rejected:" +:+ exc_name e)) |>
      <| BackgroundJob.next_run_at := None |> <| BackgroundJob.locked_at := None |>
      <| BackgroundJob.locked_by := None |> <| BackgroundJob.updated_at := now |>.

(** The types of the two dispatch loops *)
Definition BACKGROUND_JOB_TYPES : list string :=
  [WEBCHAT_HANDOFF_SNAPSHOT_JOB; WEBCHAT_WHATSAPP_DELIVERY_JOB; SPEEDAF_WORK_ORDER_CREATE_JOB;
   SPEEDAF_ADDRESS_UPDATE_JOB; SPEEDAF_VOICE_CALLBACK_JOB; EMAIL_MAILBOX_SYNC_JOB].
Definition AI_REPLY_JOB_TYPES : list string := [WEBCHAT_AI_REPLY_JOB].

Section Boundary.
Context (cfg : JobSettings.t) (sha256_hex : string → string) (h : Handlers.t).
(** [finalize_dead_webchat_ai_job] on the job *)
Context (finalize : Z → M Work.t unit).
(** The flush of the tables that are not the queue *)
Context (flush_rest : Work.t → Work.t → Work.t → Work.t).

Definition flush (before after current : Work.t) : Work.t :=
  flush_rest before after current
    <| Work.jobs := flush_jobs (Work.jobs before) (Work.jobs after) (Work.jobs current) |>
    <| Work.scopes := Work.scopes after ∪ Work.scopes current |>.

(** What the session of an attempt sees: the database, and its own copy of the job *)
Definition session (i : Z) (loaded : BackgroundJob.t) (w : Work.t) : Work.t :=
  w <| Work.jobs ::= table_put i loaded |>.

(** The next transaction of an attempt: the database after it, and the attempt unless it
    has ended *)
Definition advance (token : string) (now : Z) (a : Attempt) (w : Work.t) : Work.t * option Attempt :=
  let i := a_job a in
  let go phase := (w, Some {| a_job := i; a_phase := phase |}) in
  let ended := (w, None) in
  match a_phase a with
  | Started loaded =>
      match require_executable_background_job_scope w loaded with
      | Ok _ => go (Cleared loaded)
      | Err e => if is_scope_refusal e then go (Refused e loaded) else ended
      end
  | Refused e loaded =>
      if _owns_job_lease token i w
      then go (Checked (session i loaded w) (session i (rejected e now loaded) w))
      else ended
  | Cleared loaded =>
      match (process_background_job sha256_hex h i;; finalize i) (session i loaded w) with
      | (Ok _, after) => go (Finished (session i loaded w) after)
      | (Err e, _) => go (Failed e)
      end
  | Finished before after => if _owns_job_lease token i w then go (Checked before after) else ended
  | Failed e => if _owns_job_lease token i w then go (Recovering e) else ended
  | Recovering e =>
      match (mark_retry i (_exception_reason e);; finalize i) w with
      | (Ok _, after) => go (Checked w after)
      | (Err _, _) => ended
      end
  | Checked before after => (flush before after w, None)
  end.

(** ** The system *)

Record System := { db : Work.t; attempts : gmap string Attempt }.

Inductive op :=
(** the claim of a dispatch, with locks or without *)
| Claim (locked : option (Z → bool)) (limit : option Z) (token : string) (types : list string)
    (now : Z)
| Begin (token : string) (i : Z) (now : Z)
| Beat (token : string) (i : Z) (now now' : Z)
| Advance (token : string) (now : Z)
(** a transaction of another component *)
| Other (f : Work.t → Work.t).

Definition claim (locked : option (Z → bool)) (limit : option Z) (token : string)
    (types : list string) (now : Z) (w : Work.t) : result (list BackgroundJob.t) * Work.t :=
  match locked with
  | Some l => claim_executable_background_jobs cfg l limit token types now w w
  | None => claim_executable_background_jobs_cas cfg limit token types now w w
  end.

Definition begin (token : string) (i : Z) (now : Z) (s : System) : System :=
  let (held, w) := _refresh_job_lease token i now (db s) in
  match job_at w i with
  | Some job => if held then {| db := w; attempts := <[token := {| a_job := i; a_phase := Started job |}]>
                                                       (attempts s) |}
                else s
  | None => s
  end.

Definition run_op (o : op) (s : System) : System :=
  match o with
  | Claim locked limit token types now =>
      {| db := snd (claim locked limit token types now (db s)); attempts := attempts s |}
  | Begin token i now => begin token i now s
  | Beat token i now now' =>
      {| db := snd (_heartbeat_job_lease token i now now' (db s)); attempts := attempts s |}
  | Advance token now =>
      match attempts s !! token with
      | None => s
      | Some a => let (w, a') := advance token now a (db s) in
                  {| db := w; attempts := partial_alter (fun _ => a') token (attempts s) |}
      end
  | Other f => {| db := f (db s); attempts := attempts s |}
  end.

Definition run_ops (l : list op) (s : System) : System := foldl (fun s o => run_op o s) s l.

(** [_process_claimed_jobs_with_attempt_boundary] on one job, undisturbed: refresh, check
    of the envelope, handler, check of the lease, commit *)
Definition attempt (token : string) (i : Z) (now : Z) : list op :=
  Begin token i now :: repeat (Advance token now) 5.

End Boundary.

Arguments claim : simpl never.
Arguments advance : simpl never.

(** ** What a session leaves alone *)

Definition row_is (j : Z) (job : BackgroundJob.t) (w : Work.t) : Prop := job_at w j = Some job.

(** A row that has at most been released: its lease is the old one or gone *)
Definition tame (b a : BackgroundJob.t) : Prop :=
  (BackgroundJob.locked_by a = BackgroundJob.locked_by b ∨ BackgroundJob.locked_by a = None) ∧
  (BackgroundJob.status a = BackgroundJob.status b ∨ BackgroundJob.status a ≠ JobStatus.processing).
Definition tame_row (i : Z) (b : BackgroundJob.t) (w : Work.t) : Prop :=
  ∃ a, job_at w i = Some a ∧ tame b a.

(** A property of the row of the job alone *)
Definition row_has (i : Z) (Q : BackgroundJob.t → Prop) (w : Work.t) : Prop :=
  ∃ x, job_at w i = Some x ∧ Q x.

(** A row that is as it was, or of a job that was active and has been cancelled *)
Definition spared (b a : BackgroundJob.t) : Prop :=
  a = b ∨
  active b = true ∧ BackgroundJob.status a = JobStatus.dead ∧ BackgroundJob.locked_by a = None ∧
  BackgroundJob.attempt_count a = BackgroundJob.attempt_count b ∧
  BackgroundJob.max_attempts a = BackgroundJob.max_attempts b.
Definition spares {A} (m : M Work.t A) : Prop := ∀ j b, preserves (row_has j (spared b)) m.

(** The contract of the code that an attempt calls: handlers may cancel active jobs, as a
    handoff does, and otherwise do not touch their rows; the finalisation touches only its
    job and at most releases it. *)
Class Quiet (h : Handlers.t) (finalize : Z → M Work.t unit) : Prop := {
  quiet_reply : ∀ c t m, spares (Handlers.webchat_ai_reply h c t m);
  quiet_snapshot : ∀ p, spares (Handlers.handoff_snapshot h p);
  quiet_delivery : ∀ i p, spares (Handlers.whatsapp_delivery h i p);
  quiet_sync : ∀ a, spares (Handlers.mailbox_sync h a);
  quiet_finalize_other : ∀ i j job, j ≠ i → preserves (row_is j job) (finalize i);
  quiet_finalize_own : ∀ i b, preserves (tame_row i b) (finalize i) }.

Lemma tame_refl b : tame b b.
Proof. split; by left. Qed.

Lemma tame_trans a b c : tame a b → tame b c → tame a c.
Proof. unfold tame. intros [[-> | ->] [-> | ?]] [[-> | ->] [-> | ?]]; tauto. Qed.

Lemma tame_released b a :
  BackgroundJob.locked_by a = None → BackgroundJob.status a ≠ JobStatus.processing → tame b a.
Proof. split; by right. Qed.

Lemma row_is_tame i b w : row_is i b w → tame_row i b w.
Proof. intros H. exists b. split; [exact H | apply tame_refl]. Qed.

Lemma spared_refl b : spared b b.
Proof. by left. Qed.

Lemma dead_inactive x : BackgroundJob.status x = JobStatus.dead → active x = false.
Proof. unfold active. by intros ->. Qed.

Lemma spared_trans a b c : spared a b → spared b c → spared a c.
Proof.
  intros [->|(Ha & Hd & Hr)] [->|(Hb & Hr')]; [by left|by right|by right|].
  by rewrite dead_inactive in Hb.
Qed.

Lemma spared_tame b a : spared b a → tame b a.
Proof. intros [->|(_ & Hd & Hl & _)]; [apply tame_refl|]. apply tame_released; [done|]. by rewrite Hd. Qed.

Lemma row_has_keep {A} (m : M Work.t A) j Q :
  (∀ job, preserves (row_is j job) m) → preserves (row_has j Q) m.
Proof. intros H w (x & Hx & HQ). exists x. split; [by apply H|done]. Qed.

(** A program that leaves the rows alone spares them. *)
Lemma rows_spares {A} (m : M Work.t A) : (∀ j job, preserves (row_is j job) m) → spares m.
Proof. intros H j b. by apply row_has_keep. Qed.

Lemma on_core_rows {A} (m : M Db.t A) j job : preserves (row_is j job) (on_core m).
Proof. intros w H. unfold on_core. by destruct (m (Work.core w)). Qed.

Lemma now_rows j job : preserves (row_is j job) now.
Proof. apply on_core_rows. Qed.

Lemma the_job_rows i j job : preserves (row_is j job) (the_job i).
Proof. intros w H. unfold the_job. by destruct (job_at w i). Qed.

Lemma append_event_rows t n f v p j job :
  preserves (row_is j job) (_append_ticket_event t n f v p).
Proof. unfold _append_ticket_event. apply preserves_bind; [apply now_rows|intros _; apply on_core_rows]. Qed.

Lemma update_status_rows k v j job :
  preserves (row_is j job) (_update_speedaf_address_idempotency_status k v).
Proof.
  unfold _update_speedaf_address_idempotency_status. preserve; [apply now_rows|].
  by apply preserves_modify.
Qed.

Lemma set_job_other i j job f : j ≠ i → preserves (row_is j job) (set_job i f).
Proof.
  intros Hj. apply preserves_modify. intros w H. unfold row_is, job_at in *.
  destruct (table_get (Work.jobs w) i) as [x|] eqn:E; [|done].
  unfold table_get. cbn. rewrite lookup_table_put. by rewrite decide_False.
Qed.

(** A property of the queue that the handler of an attempt on [i] keeps: every program
    that spares the rows keeps it, and so does finishing the job. *)
Record stable (i : Z) (P : Work.t → Prop) : Prop := {
  stable_rows : ∀ A (m : M Work.t A), spares m → preserves P m;
  stable_set : ∀ sha n, preserves P (set_job i (_mark_done sha n)) }.

(** It also survives a retry. *)
Definition survives_retry (i : Z) (P : Work.t → Prop) : Prop :=
  ∀ reason n n', preserves P (set_job i (_mark_retry reason n n')).

Lemma set_job_row i (Q Q' : BackgroundJob.t → Prop) f w :
  (∀ x, Q x → Q' (f x)) → row_has i Q w → row_has i Q' (snd (set_job i f w)).
Proof.
  intros Hf (x & Hx & HQ). unfold set_job, modify. cbn. rewrite Hx. exists (f x).
  split; [|by apply Hf]. unfold job_at, table_get. cbn. rewrite lookup_table_put. by rewrite decide_True.
Qed.

Lemma stable_row i (Q : BackgroundJob.t → Prop) :
  (∀ x y, spared x y → Q x → Q y) → (∀ sha n x, Q x → Q (_mark_done sha n x)) →
  stable i (row_has i Q).
Proof.
  intros Hs HQ. split.
  - intros A m H w (x & Hx & Hq). destruct (H i x w) as (y & Hy & Hxy).
    { exists x. split; [done|apply spared_refl]. }
    exists y. split; [done|]. by apply (Hs x).
  - intros sha n w. apply set_job_row. intros x. apply HQ.
Qed.

Lemma stable_other i j job : j ≠ i → stable i (row_has j (spared job)).
Proof.
  intros Hj. split; [intros A m H; apply H|].
  intros sha n. apply row_has_keep. intros x. by apply set_job_other.
Qed.

Lemma tame_done sha now x : tame x (_mark_done sha now x).
Proof. by apply tame_released. Qed.

Lemma tame_retry reason n n' x : tame x (_mark_retry reason n n' x).
Proof. apply tame_released; [done|]. unfold _mark_retry. cbn. by case_match. Qed.

Lemma stable_own i b : stable i (tame_row i b).
Proof.
  apply (stable_row i (tame b)); [|intros sha n x Hx; eapply tame_trans, tame_done; exact Hx].
  intros x y Hxy Hx. eapply tame_trans; [exact Hx|by apply spared_tame].
Qed.

Lemma retry_other i j job : j ≠ i → survives_retry i (row_has j (spared job)).
Proof. intros Hj reason n n'. apply row_has_keep. intros x. by apply set_job_other. Qed.

Lemma retry_own i b : survives_retry i (tame_row i b).
Proof.
  intros reason n n' w. apply (set_job_row i (tame b) (tame b)). intros x Hx.
  eapply tame_trans, tame_retry. exact Hx.
Qed.

#[export] Hint Resolve rows_spares now_rows the_job_rows append_event_rows update_status_rows on_core_rows
  stable_own stable_other retry_own retry_other : nexus.

Section Session.
Context (sha256_hex : string → string) (h : Handlers.t) (finalize : Z → M Work.t unit).
Context `{!Quiet h finalize} (i : Z) (P : Work.t → Prop) (HP : stable i P).

Lemma stable_now : preserves P now.
Proof. apply (stable_rows _ _ HP). auto with nexus. Qed.

Lemma stable_done : preserves P (mark_done sha256_hex i).
Proof.
  unfold mark_done. apply preserves_bind; [apply stable_now|]. intros n.
  apply (stable_set _ _ HP).
Qed.

Lemma stable_retry reason : survives_retry i P → preserves P (mark_retry i reason).
Proof.
  intros Hr. unfold mark_retry. apply preserves_bind; [apply (stable_rows _ _ HP); auto with nexus|].
  intros job. case_match; repeat (apply preserves_bind; [apply stable_now|intros ?]); apply Hr.
Qed.

Lemma stable_outcome t f what c d e base outcome set_status :
  (∀ v, spares (set_status v)) →
  preserves P (record_outcome sha256_hex i t f what c d e base outcome set_status).
Proof.
  intros Hs. unfold record_outcome. destruct outcome; [|preserve|apply preserves_raise].
  - apply preserves_bind; [apply (stable_rows _ _ HP), Hs|intros _].
    apply preserves_bind; [apply (stable_rows _ _ HP); auto with nexus|intros _; apply stable_done].
  - apply (stable_rows _ _ HP), Hs.
  - apply (stable_rows _ _ HP); auto with nexus.
  - apply preserves_require.
Qed.

Lemma stable_run_handler ty p : preserves P (run_handler sha256_hex h i ty p).
Proof.
  assert (∀ m : M Work.t unit, spares m → preserves P m) as Hr
    by apply (stable_rows _ _ HP).
  unfold run_handler, int_item, str_item.
  repeat case_decide; [| | | unfold _process_speedaf_work_order_create_job, str_item, int_item
    | unfold _process_speedaf_address_update_job, str_item, int_item
    | unfold _process_speedaf_voice_callback_job, int_item | |]; preserve.
  - apply Hr, quiet_reply.
  - apply Hr, quiet_snapshot.
  - apply Hr, quiet_delivery.
  - apply stable_outcome. intros v. apply rows_spares. intros j job. apply preserves_ret.
  - apply stable_outcome. auto with nexus.
  - apply (stable_rows _ _ HP); auto with nexus.
  - apply stable_outcome. intros v. apply rows_spares. intros j job. apply preserves_ret.
  - apply Hr, quiet_sync.
Qed.

Lemma stable_process :
  survives_retry i P → preserves P (process_background_job sha256_hex h i).
Proof.
  intros Hr. unfold process_background_job. apply preserves_bind; [apply (stable_rows _ _ HP); auto with nexus|].
  intros job. apply preserves_try; [|intros e; by apply stable_retry].
  apply preserves_bind; [apply stable_run_handler|intros _; apply stable_done].
Qed.
End Session.

(** The two computations of an attempt *)
Section Body.
Context (sha256_hex : string → string) (h : Handlers.t) (finalize : Z → M Work.t unit).
Context `{!Quiet h finalize} (i : Z).

Lemma body_other j job :
  j ≠ i → preserves (row_has j (spared job)) (process_background_job sha256_hex h i;; finalize i).
Proof.
  intros Hj. apply preserves_bind;
    [|intros _; apply row_has_keep; intros x; by apply quiet_finalize_other].
  apply (stable_process _ _ finalize); auto with nexus.
Qed.

Lemma body_own b : preserves (tame_row i b) (process_background_job sha256_hex h i;; finalize i).
Proof.
  apply preserves_bind; [|intros _; apply quiet_finalize_own].
  apply (stable_process _ _ finalize); auto with nexus.
Qed.

Lemma recovery_other reason j job :
  j ≠ i → preserves (row_has j (spared job)) (mark_retry i reason;; finalize i).
Proof.
  intros Hj. apply preserves_bind;
    [|intros _; apply row_has_keep; intros x; by apply quiet_finalize_other].
  apply stable_retry; auto with nexus.
Qed.

Lemma recovery_own reason b : preserves (tame_row i b) (mark_retry i reason;; finalize i).
Proof.
  apply preserves_bind; [|intros _; apply quiet_finalize_own].
  apply stable_retry; auto with nexus.
Qed.
End Body.

(** ** One step, seen from a row *)

Lemma claimable_put cfg i x w now types job :
  claimable cfg (put_job i x w) now types job = claimable cfg w now types job.
Proof. done. Qed.

Lemma update_claimed_rest cfg tk now types i w now' types' job :
  claimable cfg (snd (update_claimed cfg tk now types i w)) now' types' job =
  claimable cfg w now' types' job.
Proof. unfold update_claimed. destruct (job_at w i); [|done]. by destruct (claimable cfg w now types _). Qed.

(** A row after the claim of several ids: claimed, if it was claimable, or as it was *)
Lemma update_each_at cfg tk now types ids w j :
  job_at (snd (update_each cfg tk now types ids w)) j = job_at w j ∨
  ∃ job, job_at w j = Some job ∧ j ∈ ids ∧ claimable cfg w now types job = true ∧
    job_at (snd (update_each cfg tk now types ids w)) j = Some (to_claimed tk now job).
Proof.
  revert w. induction ids as [|i ids IH]; intros w; [by left|]. cbn [update_each].
  pose proof (update_claimed_at cfg tk now types i w j) as H1.
  pose proof (update_claimed_rest cfg tk now types i w now types) as Hr.
  destruct (update_claimed cfg tk now types i w) as [hit w1]. cbn [snd] in H1, Hr.
  specialize (IH w1). destruct (update_each cfg tk now types ids w1) as [l w2]. cbn [snd] in *.
  destruct (job_at w j) as [job|] eqn:Ej.
  - case_match eqn:Eb; rewrite H1 in IH.
    + apply andb_true_iff in Eb as [->%bool_decide_eq_true Ec]. right. exists job.
      split_and!; [done|by left|done|].
      destruct IH as [->|(x & [= <-] & _ & _ & ->)]; done.
    + destruct IH as [->|(x & [= <-] & Hin & Hc & ->)]; [by left|right]. exists job.
      rewrite Hr in Hc. split_and!; [done|by right|done|done].
  - rewrite H1 in IH. left. by destruct IH as [->|(x & [=] & _)].
Qed.

Lemma claim_at cfg locked limit tk types now w j :
  let w' := snd (claim cfg locked limit tk types now w) in
  job_at w' j = job_at w j ∨
  ∃ job, job_at w j = Some job ∧ claimable cfg w now (normalized_types types) job = true ∧
    job_at w' j = Some (to_claimed tk now job).
Proof.
  cbv zeta. unfold claim. destruct locked as [l|].
  - unfold claim_executable_background_jobs. set (ids := BackgroundJob.id <$> _).
    pose proof (update_each_at cfg tk now (normalized_types types) ids w j) as H. clearbody ids.
    destruct ids as [|i0 ids]; [by left|].
    destruct (update_each _ _ _ _ _ _) as [hit w2]. case_match; cbn [snd] in *; [|by left].
    destruct H as [?|(x & ? & _ & ? & ?)]; [by left|right; eauto].
  - unfold claim_executable_background_jobs_cas. set (ids := BackgroundJob.id <$> _).
    pose proof (update_each_at cfg tk now (normalized_types types) ids w j) as H. clearbody ids.
    destruct (update_each _ _ _ _ _ _) as [[|i0 hit] w2]; cbn [snd] in *; [by left|].
    destruct H as [?|(x & ? & _ & ? & ?)]; [by left|right; eauto].
Qed.

(** A job whose lease is fresh is not claimable. *)
Lemma leased_not_claimable cfg w now types token job t0 :
  holds token job = true → BackgroundJob.locked_at job = Some t0 →
  now ≤ t0 + seconds (JobSettings.job_lock_seconds cfg) → claimable cfg w now types job = false.
Proof.
  intros [Hs _]%andb_true_iff Hl Hnow. apply bool_decide_eq_true in Hs.
  unfold claimable, _pending_filters. rewrite Hs, Hl.
  by rewrite bool_decide_eq_false_2, (proj2 (Z.ltb_ge _ _)), andb_false_r by (done || lia).
Qed.

Lemma renew_at tk i n n' w j :
  job_at (snd (renew tk i n n' w)) j =
  match job_at w j with
  | Some job => if bool_decide (i = j) && holds tk job then Some (renewed n n' job) else Some job
  | None => None
  end.
Proof.
  unfold renew. destruct (job_at w i) as [x|] eqn:E.
  - destruct (holds tk x) eqn:Eh; cbn [snd].
    + unfold job_at at 1, table_get. cbn. rewrite lookup_table_put.
      case_decide as Hij; [subst j; rewrite E, Eh; by rewrite bool_decide_eq_true_2|].
      rewrite bool_decide_eq_false_2 by done. unfold job_at, table_get. by destruct (trows _ !! j).
    + destruct (job_at w j) as [y|] eqn:Ej; [|done]. case_bool_decide; [|done]. subst j.
      replace y with x by congruence. by rewrite Eh.
  - destruct (job_at w j) as [y|] eqn:Ej; [|done]. case_bool_decide; [congruence|done].
Qed.

Lemma written_same {A} `{EqDecision A} (f : BackgroundJob.t → A) x y : written f x x y = f y.
Proof. unfold written. by rewrite decide_True. Qed.

Lemma flush_row_same x y : flush_row x x y = y.
Proof. unfold flush_row. rewrite !written_same. by destruct y. Qed.

(** A flush of a released row leaves the row released or as it is. *)
Lemma flush_row_tame b a c : tame b a → tame c (flush_row b a c).
Proof.
  intros [Hl Hs]. split; cbn; unfold written; case_decide; [by left| |by left|].
  - right. by destruct Hl.
  - right. by destruct Hs.
Qed.

Lemma flush_at rest b a c j :
  job_at (flush rest b a c) j =
  match job_at c j with
  | Some y => Some (match job_at a j, job_at b j with
                    | Some x, Some x0 => flush_row x0 x y
                    | _, _ => y
                    end)
  | None => job_at a j
  end.
Proof.
  unfold job_at, table_get, flush, flush_jobs. cbn [Work.jobs trows alter_field].
  cbn. rewrite lookup_merge, map_lookup_imap.
  destruct (trows (Work.jobs a) !! j) as [x|]; cbn; destruct (trows (Work.jobs c) !! j) as [y|]; cbn;
    try done.
  by destruct (trows (Work.jobs b) !! j).
Qed.

(** ** Attempts whose session is sound *)

(** What the session changes: its own job, at most released, jobs it cancels, and new rows *)
Definition changes_own (i : Z) (b a : Work.t) : Prop :=
  (∀ j job, j ≠ i → job_at b j = Some job → row_has j (spared job) a) ∧
  (∀ x, job_at b i = Some x → tame_row i x a).

Definition sound (a : Attempt) : Prop :=
  match a_phase a with
  | Finished before after | Checked before after => changes_own (a_job a) before after
  | _ => True
  end.

(** The lease has been checked. *)
Definition past_check (a : Attempt) : bool :=
  match a_phase a with Recovering _ | Checked _ _ => true | _ => false end.

Definition all_sound (s : System) : Prop := ∀ tk a, attempts s !! tk = Some a → sound a.

Section Steps.
Context (cfg : JobSettings.t) (sha256_hex : string → string) (h : Handlers.t).
Context (finalize : Z → M Work.t unit) (flush_rest : Work.t → Work.t → Work.t → Work.t).
Context `{!Quiet h finalize}.

#[local] Abbreviation advance := (advance sha256_hex h finalize flush_rest).
#[local] Abbreviation run_op := (run_op cfg sha256_hex h finalize flush_rest).
#[local] Abbreviation run_ops := (run_ops cfg sha256_hex h finalize flush_rest).

Lemma session_changes i loaded x w :
  tame loaded x → changes_own i (session i loaded w) (session i x w).
Proof.
  intros Ht. unfold changes_own, session, job_at, table_get. cbn. split.
  - intros j job Hj. rewrite lookup_table_put, decide_False by done. intros E. exists job.
    split; [|apply spared_refl]. unfold job_at, table_get. cbn. by rewrite lookup_table_put, decide_False.
  - intros y. rewrite lookup_table_put, decide_True by done. intros [= <-]. exists x.
    split; [|done]. unfold job_at, table_get. cbn. rewrite lookup_table_put. by rewrite decide_True.
Qed.

Lemma body_changes i (m : M Work.t unit) w after :
  (∀ j job, j ≠ i → preserves (row_has j (spared job)) m) → (∀ b, preserves (tame_row i b) m) →
  m w = (Ok tt, after) → changes_own i w after.
Proof.
  intros Ho Hown E. assert (after = snd (m w)) as -> by (by rewrite E). split.
  - intros j job Hj H. apply (Ho j job Hj w). exists job. split; [done|apply spared_refl].
  - intros x Hx. apply Hown. by apply row_is_tame.
Qed.

(** A transaction of an attempt is its commit, or it writes nothing. *)
Lemma advance_cases token now a w w' o :
  sound a → advance token now a w = (w', o) →
  (∃ b a', a_phase a = Checked b a' ∧ changes_own (a_job a) b a' ∧ o = None ∧
     w' = flush flush_rest b a' w) ∨
  (w' = w ∧ ∀ a', o = Some a' → a_job a' = a_job a ∧ sound a' ∧
     (past_check a' = true → past_check a = true ∨ _owns_job_lease token (a_job a) w = true)).
Proof.
  destruct a as [i phase]. unfold Workers.advance, sound. cbn [a_job a_phase]. intros Ha E.
  destruct phase as [loaded|loaded|e loaded|b a|e|e|b a].
  - destruct (require_executable_background_job_scope w loaded) as [sc|e];
      [|destruct (is_scope_refusal e)]; injection E as <- <-; right; split; try done;
      intros a' [= <-]; done.
  - destruct ((process_background_job sha256_hex h i;; finalize i) (session i loaded w)) as [[[]|e] after] eqn:Er; injection E as <- <-;
      right; (split; [done|]); intros a' [= <-]; split_and!; try done. cbn.
    eapply body_changes; [..|exact Er]; [by apply body_other|by apply body_own].
  - destruct (_owns_job_lease token i w) eqn:Eo; injection E as <- <-; right; (split; [done|]);
      intros a' [= <-]; split_and!; try done; [|by right].
    apply session_changes, tame_released; done.
  - destruct (_owns_job_lease token i w) eqn:Eo; injection E as <- <-; right; (split; [done|]);
      intros a' [= <-]; split_and!; try done; by right.
  - destruct (_owns_job_lease token i w) eqn:Eo; injection E as <- <-; right; (split; [done|]);
      intros a' [= <-]; split_and!; try done; by right.
  - destruct ((mark_retry i (_exception_reason e);; finalize i) w) as [[[]|e'] after] eqn:Er; injection E as <- <-; right; (split; [done|]);
      intros a' [= <-]; split_and!; try done; [|by left].
    eapply body_changes; [..|exact Er]; [by apply (recovery_other h finalize)|by apply (recovery_own h finalize)].
  - injection E as <- <-. left. by exists b, a.
Qed.

Lemma begin_cases token i now s :
  begin token i now s = s ∨
  (_owns_job_lease token i (db s) = true ∧ ∃ job,
     begin token i now s = {| db := snd (renew token i now now (db s));
       attempts := <[token := {| a_job := i; a_phase := Started job |}]> (attempts s) |}).
Proof.
  unfold begin, _refresh_job_lease, renew, _owns_job_lease.
  destruct (job_at (db s) i) as [x|] eqn:E; [|rewrite E; by left].
  destruct (holds token x); [|rewrite E; by left]. right. split; [done|]. cbn [snd].
  unfold job_at at 1, table_get. cbn. rewrite lookup_table_put, decide_True by done. eauto.
Qed.

Lemma run_op_sound o s : all_sound s → all_sound (run_op o s).
Proof.
  intros H. destruct o as [locked limit tk types now|tk i now|tk i now now'|tk now|f]; cbn; try exact H.
  - destruct (begin_cases tk i now s) as [->|(_ & job & ->)]; [done|].
    intros tk' a. cbn. rewrite lookup_insert_Some. intros [[_ <-]|[_ ?]]; [done|by eapply H].
  - destruct (attempts s !! tk) as [a|] eqn:Ea; [|done].
    destruct (advance tk now a (db s)) as [w o] eqn:E. intros tk' a'. cbn.
    rewrite lookup_partial_alter. case_decide as Htk; [|apply H]. intros ->.
    destruct (advance_cases _ _ _ _ _ _ (H _ _ Ea) E) as [(b & a2 & _ & _ & ? & _)|[_ Hn]]; [done|].
    by destruct (Hn a' eq_refl) as (_ & ? & _).
Qed.

Lemma run_ops_sound l s : all_sound s → all_sound (run_ops l s).
Proof.
  revert s. induction l as [|o l IH]; intros s H; [done|]. apply IH. by apply run_op_sound.
Qed.

(** *** The lease *)

Lemma heartbeat_in_time :
  1 ≤ JobSettings.job_lock_seconds cfg →
  _lease_heartbeat_interval cfg ≤ seconds (JobSettings.job_lock_seconds cfg).
Proof.
  unfold _lease_heartbeat_interval, int_or, truthy_id. destruct (JobSettings.job_lock_seconds cfg) as [|n|n];
    [lia| |lia].
  intros _. cbn [negb Z.eqb default id]. unfold seconds, us_per_second.
  Z.div_mod_to_equations. lia.
Qed.

(** As it was, or cancelled *)
Definition kept (job x : BackgroundJob.t) : Prop := x = job ∨ BackgroundJob.status x = JobStatus.dead.

(** A step of another worker or component: claims happen before [until], and other
    components leave the job alone or cancel it. *)
Definition by_others (token : string) (i until : Z) (o : op) : Prop :=
  match o with
  | Claim _ _ _ _ now => now ≤ until
  | Begin tk _ _ | Beat tk _ _ _ | Advance tk _ => tk ≠ token
  | Other f => ∀ job w, row_has i (kept job) w → row_has i (kept job) (f w)
  end.

(** No other attempt on the job is between its check and its commit. *)
Definition no_rival (token : string) (i : Z) (s : System) : Prop :=
  ∀ tk a, tk ≠ token → attempts s !! tk = Some a → a_job a = i → past_check a = false.

Lemma holds_unique tk tk' job : holds tk job = true → holds tk' job = true → tk = tk'.
Proof. unfold holds. rewrite !andb_true_iff, !bool_decide_eq_true. intros [_ ->] [_ [= ->]]. done. Qed.

Lemma kept_holds token tk job x :
  tk ≠ token → holds token job = true → kept job x → holds tk x = false.
Proof.
  intros Htk Hh [->|Hd]; [|unfold holds; by rewrite Hd].
  apply not_true_iff_false. intros H. by destruct Htk, (holds_unique tk token job).
Qed.

Lemma renew_by_other token tk i j n n' job w :
  tk ≠ token → holds token job = true → row_has i (kept job) w →
  row_has i (kept job) (snd (renew tk j n n' w)).
Proof.
  intros Htk Hh (x & E & Hx). exists x. rewrite renew_at, E.
  by rewrite (kept_holds token tk job x), andb_false_r.
Qed.

Lemma kept_not_claimable w now types token job t0 x :
  holds token job = true → BackgroundJob.locked_at job = Some t0 →
  now ≤ t0 + seconds (JobSettings.job_lock_seconds cfg) → kept job x →
  claimable cfg w now types x = false.
Proof.
  intros Hh Hl Hn [->|Hd]; [by eapply leased_not_claimable|].
  unfold claimable, _pending_filters. by rewrite Hd.
Qed.

(** A session that has spared a row leaves it as it is or cancelled. *)
Lemma flush_row_kept job b a c : spared b a → kept job c → kept job (flush_row b a c).
Proof.
  intros [->|(Ha & Hd & _)] Hc; [by rewrite flush_row_same|]. right. cbn. unfold written.
  case_decide as Hb; [|done]. rewrite dead_inactive in Ha; congruence.
Qed.

Lemma lease_step token i job t0 o s :
  holds token job = true → BackgroundJob.locked_at job = Some t0 →
  by_others token i (t0 + seconds (JobSettings.job_lock_seconds cfg)) o →
  all_sound s → no_rival token i s → row_has i (kept job) (db s) →
  no_rival token i (run_op o s) ∧ row_has i (kept job) (db (run_op o s)) ∧
  attempts (run_op o s) !! token = attempts s !! token.
Proof.
  intros Hh Hl Ho Hs Hr Hi.
  destruct o as [locked limit tk types now|tk j now|tk j now now'|tk now|f]; cbn in Ho |- *.
  - split_and!; [exact Hr| |done]. destruct Hi as (y & Ey & Hy). exists y. split; [|done].
    destruct (claim_at cfg locked limit tk types now (db s) i) as [->|(x & E & Hc & _)]; [done|].
    replace x with y in Hc by congruence.
    by rewrite (kept_not_claimable _ _ _ token job t0) in Hc.
  - destruct (begin_cases tk j now s) as [->|(_ & x & ->)]; [done|]. cbn. split_and!.
    + intros tk' a Htk'. cbn. rewrite lookup_insert_Some. intros [[<- <-]|[_ ?]]; [done|by eapply Hr].
    + by apply (renew_by_other token).
    + by rewrite lookup_insert_ne.
  - split_and!; [exact Hr| |done]. by apply (renew_by_other token).
  - destruct (attempts s !! tk) as [a|] eqn:Ea; [|done].
    destruct (advance tk now a (db s)) as [w o] eqn:E. cbn.
    pose proof (advance_cases _ _ _ _ _ _ (Hs _ _ Ea) E) as Hc. split_and!.
    + intros tk' a' Htk'. cbn. rewrite lookup_partial_alter. case_decide as Heq; [|by apply Hr].
      subst tk'. intros -> Hj. destruct Hc as [(? & ? & _ & _ & ? & _)|[_ Hn]]; [done|].
      destruct (Hn a' eq_refl) as (Hja & _ & Hp). rewrite Hja in Hj. specialize (Hr tk a Ho Ea Hj).
      apply not_true_iff_false. intros [?|Hown]%Hp; [congruence|].
      destruct Hi as (y & Ey & Hy). unfold _owns_job_lease in Hown. rewrite Hj, Ey in Hown.
      by rewrite (kept_holds token tk job y) in Hown.
    + destruct Hc as [(b & a' & Hph & [Hoth _] & _ & ->)|[-> _]]; [|done].
      destruct Hi as (y & Ey & Hy). unfold row_has. rewrite flush_at, Ey. eexists. split; [done|].
      destruct (decide (i = a_job a)) as [->|Hne].
      * specialize (Hr tk a Ho Ea eq_refl). unfold past_check in Hr. by rewrite Hph in Hr.
      * destruct (job_at a' i) as [x'|] eqn:Ea'; [|done]. destruct (job_at b i) as [x|] eqn:Eb; [|done].
        destruct (Hoth i x Hne Eb) as (z & Ez & Hz). replace z with x' in Hz by congruence.
        by apply flush_row_kept.
    + by rewrite lookup_partial_alter_ne.
  - split_and!; [exact Hr|by apply Ho|done].
Qed.

Lemma run_commit token i now b a s :
  attempts s !! token = Some {| a_job := i; a_phase := Checked b a |} →
  db (run_op (Advance token now) s) = flush flush_rest b a (db s).
Proof. intros E. unfold Workers.run_op. by rewrite E. Qed.


(** *** A worker without the lease *)

Definition lost (token : string) (i : Z) (w : Work.t) : Prop :=
  ∃ job, job_at w i = Some job ∧ holds token job = false.

Lemma lost_owns token i w : lost token i w → _owns_job_lease token i w = false.
Proof. intros (job & E & H). unfold _owns_job_lease. by rewrite E. Qed.

(** Nobody hands the lease back: tokens are claimed once, other components do not set
    leases, and this worker goes on with its attempt only. *)
Definition no_regain (token : string) (i : Z) (o : op) : Prop :=
  match o with
  | Claim _ _ tk _ _ | Begin tk _ _ => tk ≠ token
  | Beat tk j _ _ => tk = token → j = i
  | Advance _ _ => True
  | Other f => ∀ w, lost token i w → lost token i (f w)
  end.

Definition mine (token : string) (o : op) : bool :=
  match o with Beat tk _ _ _ | Advance tk _ => bool_decide (tk = token) | _ => false end.

(** The attempt of the worker has ended, or works on [i] and is not past its check. *)
Definition unchecked (token : string) (i : Z) (s : System) : Prop :=
  ∀ a, attempts s !! token = Some a → a_job a = i ∧ past_check a = false.

Lemma tame_lost token y x : tame y x → holds token y = false → holds token x = false.
Proof.
  unfold tame, holds. rewrite !andb_false_iff, !bool_decide_eq_false.
  intros [[-> | ->] [-> | ?]]; intuition congruence.
Qed.

Lemma flush_lost token i b a w :
  changes_own (a_job a) b (match a_phase a with Checked _ a' => a' | _ => b end) →
  lost token i w → lost token i (flush flush_rest b (match a_phase a with Checked _ a' => a' | _ => b end) w).
Proof.
  set (a' := match a_phase a with Checked _ a' => a' | _ => b end). intros [Ho Hown] (y & Ey & Hy).
  unfold lost. rewrite flush_at, Ey. eexists. split; [done|].
  destruct (job_at a' i) as [x|] eqn:Ea; [|done]. destruct (job_at b i) as [x0|] eqn:Eb; [|done].
  destruct (decide (i = a_job a)) as [->|Hne].
  - destruct (Hown x0 Eb) as (x' & Ex' & Ht). replace x' with x in Ht by congruence.
    eapply tame_lost; [by apply flush_row_tame|done].
  - destruct (Ho i x0 Hne Eb) as (x' & Ex' & Hs). replace x' with x in Hs by congruence.
    eapply tame_lost; [by apply flush_row_tame, spared_tame|done].
Qed.

Lemma renew_lost token i tk j n n' w : lost token i w → lost token i (snd (renew tk j n n' w)).
Proof.
  intros (y & Ey & Hy). unfold lost. rewrite renew_at, Ey.
  destruct (bool_decide (j = i) && holds tk y); eexists; (split; [done | exact Hy]).
Qed.

Lemma lost_step token i o s :
  all_sound s → no_regain token i o → lost token i (db s) → lost token i (db (run_op o s)).
Proof.
  intros Hs Ho Hl.
  destruct o as [locked limit tk types now|tk j now|tk j now now'|tk now|f]; cbn in Ho |- *.
  - destruct Hl as (y & Ey & Hy). unfold lost.
    destruct (claim_at cfg locked limit tk types now (db s) i) as [->|(x & E & _ & ->)]; [eauto|].
    eexists. split; [done|]. unfold holds. cbn.
    rewrite (bool_decide_eq_false_2 (Some tk = Some token)) by congruence. by rewrite andb_false_r.
  - destruct (begin_cases tk j now s) as [->|(_ & x & ->)]; [done|]. by apply renew_lost.
  - by apply renew_lost.
  - destruct (attempts s !! tk) as [a|] eqn:Ea; [|done].
    destruct (advance tk now a (db s)) as [w o] eqn:E. cbn.
    destruct (advance_cases _ _ _ _ _ _ (Hs _ _ Ea) E) as [(b & a' & Hph & Hc & _ & ->)|[-> _]]; [|done].
    pose proof (flush_lost token i b a (db s)) as H. rewrite Hph in H. by apply H.
  - by apply Ho.
Qed.

(** Two systems that differ in the attempt of one worker only *)
Definition same_but (token : string) (s s' : System) : Prop :=
  db s = db s' ∧ ∀ tk, tk ≠ token → attempts s !! tk = attempts s' !! tk.

Lemma same_but_step token o s s' :
  mine token o = false → same_but token s s' → same_but token (run_op o s) (run_op o s').
Proof.
  intros Hm [Hd Ha]. destruct o as [locked limit tk types now|tk j now|tk j now now'|tk now|f];
    cbn in Hm |- *; unfold same_but; cbn; rewrite <- ?Hd; try done.
  - unfold begin. rewrite <- ?Hd. destruct (_refresh_job_lease tk j now (db s)) as [held w].
    destruct (job_at w j); [|done]. destruct held; [|done]. cbn. split; [done|].
    intros tk' Htk. destruct (decide (tk = tk')) as [->|?];
      [by rewrite !lookup_insert_eq | rewrite !lookup_insert_ne by done; by apply Ha].
  - apply bool_decide_eq_false in Hm. rewrite <- (Ha tk Hm), <- ?Hd.
    destruct (attempts s !! tk) as [a|]; [|done].
    destruct (advance tk now a (db s)) as [w o]. cbn. split; [done|].
    intros tk' Htk. destruct (decide (tk = tk')) as [->|?];
      [by rewrite !lookup_partial_alter_eq, ?Ha | rewrite !lookup_partial_alter_ne by done; by apply Ha].
Qed.

(** A step of the worker without the lease leaves the database alone. *)
Lemma lost_mine token i o s :
  all_sound s → no_regain token i o → lost token i (db s) → unchecked token i s →
  mine token o = true →
  db (run_op o s) = db s ∧ unchecked token i (run_op o s) ∧
  (∀ tk, tk ≠ token → attempts (run_op o s) !! tk = attempts s !! tk).
Proof.
  intros Hs Ho Hl Hu Hm. pose proof (lost_owns _ _ _ Hl) as Hown.
  destruct o as [locked limit tk types now|tk j now|tk j now now'|tk now|f]; cbn in Ho, Hm |- *;
    try done; apply bool_decide_eq_true in Hm; subst tk.
  - rewrite (Ho eq_refl). split_and!; [|done..].
    unfold _heartbeat_job_lease, renew. destruct Hl as (y & -> & Hy). by rewrite Hy.
  - destruct (attempts s !! token) as [a|] eqn:Ea; [|done]. destruct (Hu a Ea) as [Hj Hp].
    destruct (advance token now a (db s)) as [w o] eqn:E. cbn.
    destruct (advance_cases _ _ _ _ _ _ (Hs _ _ Ea) E) as [(b & a' & Hph & _)|[-> Hn]].
    { unfold past_check in Hp. by rewrite Hph in Hp. }
    split_and!; [done| |by intros tk Htk; rewrite lookup_partial_alter_ne].
    intros a'. cbn. rewrite lookup_partial_alter_eq. intros ->.
    destruct (Hn a' eq_refl) as (Hja & _ & Hpa). split; [congruence|].
    apply not_true_iff_false. rewrite Hj in Hpa. intros [?|?]%Hpa; congruence.
Qed.

Lemma unchecked_step token i o s :
  no_regain token i o → mine token o = false → unchecked token i s → unchecked token i (run_op o s).
Proof.
  intros Ho Hm Hu. destruct o as [locked limit tk types now|tk j now|tk j now now'|tk now|f];
    cbn in Ho, Hm |- *; try exact Hu.
  - destruct (begin_cases tk j now s) as [->|(_ & x & ->)]; [done|].
    intros a. cbn. rewrite lookup_insert_ne by done. apply Hu.
  - apply bool_decide_eq_false in Hm. destruct (attempts s !! tk) as [a|]; [|done].
    destruct (advance tk now a (db s)) as [w o]. intros a'. cbn.
    rewrite lookup_partial_alter_ne by done. apply Hu.
Qed.

End Steps.

(** ** Progress

    What one attempt does to its job, when nobody interferes. *)

Definition settled (x : BackgroundJob.t) : Prop :=
  BackgroundJob.status x = JobStatus.done ∨ BackgroundJob.status x = JobStatus.dead.

(** Waiting for the next attempt, of which [m - n] are left *)
Definition waiting (n m : Z) (x : BackgroundJob.t) : Prop :=
  BackgroundJob.status x = JobStatus.pending ∧ BackgroundJob.attempt_count x = n ∧
  BackgroundJob.max_attempts x = m ∧ n < m.

Definition counts (n m : Z) (x : BackgroundJob.t) : Prop :=
  BackgroundJob.attempt_count x = n ∧ BackgroundJob.max_attempts x = m.

Lemma mark_done_counts n m sha t x : counts n m x → counts n m (_mark_done sha t x).
Proof.
  intros H. unfold _mark_done, _scrub_completed_speedaf_job_payload. by case_match.
Qed.

Lemma spared_counts n m x y : spared x y → counts n m x → counts n m y.
Proof. intros [->|(_ & _ & _ & Ha & Hm)]; [done|]. unfold counts. by rewrite Ha, Hm. Qed.

(** The finalisation returns, does nothing to a job that is not dead, and settles a dead
    one. *)
Class Finalizes (finalize : Z → M Work.t unit) : Prop := {
  finalize_live : ∀ i w x, job_at w i = Some x → BackgroundJob.status x ≠ JobStatus.dead →
    finalize i w = (Ok tt, w);
  finalize_dead : ∀ i w x, job_at w i = Some x → BackgroundJob.status x = JobStatus.dead →
    ∃ w', finalize i w = (Ok tt, w') ∧ row_has i settled w' }.

Lemma row_has_impl i (Q Q' : BackgroundJob.t → Prop) w :
  (∀ x, Q x → Q' x) → row_has i Q w → row_has i Q' w.
Proof. intros H (x & Hx & HQ). exists x. auto. Qed.

Lemma now_run w : ∃ t w', now w = (Ok t, w') ∧ Work.jobs w' = Work.jobs w.
Proof. by eexists _, _. Qed.

Lemma row_has_jobs i Q w w' : Work.jobs w' = Work.jobs w → row_has i Q w → row_has i Q w'.
Proof. unfold row_has, job_at. by intros ->. Qed.

Lemma mark_done_run sha i Q w :
  row_has i Q w → ∃ w', mark_done sha i w = (Ok tt, w') ∧ row_has i settled w'.
Proof.
  intros H. destruct (now_run w) as (t & w1 & E & Hj). unfold mark_done.
  rewrite (bind_run_Ok _ _ _ _ _ E). eexists. split; [done|].
  apply (set_job_row i Q settled); [intros x _; by left|]. by eapply row_has_jobs.
Qed.

Lemma mark_retry_run i reason n m w :
  row_has i (counts n m) w →
  ∃ w', mark_retry i reason w = (Ok tt, w') ∧
    row_has i (fun x => settled x ∨ waiting (n + 1) m x) w'.
Proof.
  intros H. pose proof H as (x & Hx & Hn & Hm).
  destruct (now_run w) as (t & w1 & E & Hj). destruct (now_run w1) as (t2 & w2 & E2 & Hj2).
  unfold mark_retry, the_job. unfold mbind at 1, M_bind. rewrite Hx, Hn, Hm.
  assert (∀ r a b w', Work.jobs w' = Work.jobs w → row_has i (fun x => settled x ∨ waiting (n + 1) m x)
    (snd (set_job i (_mark_retry r a b) w'))) as Hset.
  { intros r a b w' Hjw. apply (set_job_row i (counts n m)); [|by eapply row_has_jobs].
    intros y [Hy1 Hy2]. unfold settled, waiting, _mark_retry. cbn. rewrite Hy1, Hy2.
    destruct (m <=? n + 1) eqn:Em; [left; by right|right]. apply Z.leb_gt in Em. by split_and!. }
  destruct (m <=? n + 1).
  - rewrite (bind_run_Ok _ _ _ _ _ E). eexists. split; [done|]. by apply Hset.
  - rewrite (bind_run_Ok _ _ _ _ _ E), (bind_run_Ok _ _ _ _ _ E2). eexists. split; [done|].
    apply Hset. congruence.
Qed.

Section Progress.
Context (cfg : JobSettings.t) (sha256_hex : string → string) (h : Handlers.t).
Context (finalize : Z → M Work.t unit) (flush_rest : Work.t → Work.t → Work.t → Work.t).
Context `{!Quiet h finalize, !Finalizes finalize}.

#[local] Abbreviation run_ops := (run_ops cfg sha256_hex h finalize flush_rest).
#[local] Abbreviation run_op := (run_op cfg sha256_hex h finalize flush_rest).

Definition progressed (n m : Z) (x : BackgroundJob.t) : Prop := settled x ∨ waiting (n + 1) m x.

Lemma process_run i n m w :
  row_has i (counts n m) w →
  ∃ w', process_background_job sha256_hex h i w = (Ok tt, w') ∧ row_has i (progressed n m) w'.
Proof.
  intros H. pose proof H as (x & Hx & _).
  unfold process_background_job, the_job. unfold mbind at 1, M_bind. rewrite Hx.
  set (ty := BackgroundJob.job_type x). set (p := BackgroundJob.payload_json x).
  assert (stable i (row_has i (counts n m))) as HP
    by (apply stable_row; [apply spared_counts|apply mark_done_counts]).
  pose proof (stable_run_handler sha256_hex h finalize i _ HP ty p w H) as Hh.
  unfold try_catch. destruct (run_handler sha256_hex h i ty p w) as [[[]|e] w1] eqn:E; cbn in Hh.
  - destruct (mark_done_run sha256_hex i _ w1 Hh) as (w2 & E2 & Hw2).
    rewrite (bind_run_Ok _ _ _ _ _ E), E2. exists w2. split; [done|].
    eapply row_has_impl; [|exact Hw2]. by left.
  - rewrite (bind_run_Err _ _ _ _ _ E). by apply mark_retry_run.
Qed.

Lemma body_run i n m w :
  row_has i (counts n m) w →
  ∃ w', (process_background_job sha256_hex h i;; finalize i) w = (Ok tt, w') ∧
    row_has i (progressed n m) w'.
Proof.
  intros H. destruct (process_run i n m w H) as (w1 & E & x & Hx & Hp).
  rewrite (bind_run_Ok _ _ _ _ _ E). destruct (decide (BackgroundJob.status x = JobStatus.dead)) as [Hd|Hd].
  - destruct (finalize_dead i w1 x Hx Hd) as (w2 & E2 & Hw2). exists w2. split; [done|].
    eapply row_has_impl; [|exact Hw2]. by left.
  - exists w1. split; [by eapply finalize_live|by exists x].
Qed.

Lemma require_refusal w job e :
  require_executable_background_job_scope w job = Err e → is_scope_refusal e = true.
Proof.
  unfold require_executable_background_job_scope, scope_error.
  destruct (Work.scopes w !! BackgroundJob.id job) as [sc|]; [|by intros [= <-]].
  case_match; [by intros [= <-]|]. case_match eqn:Ep; [by intros [= <-]|].
  apply negb_false_iff, bool_decide_eq_true, known_purpose in Ep as (_ & _ & Hn & Hne).
  unfold check_scope_type, scope_error. destruct (BackgroundJobScope.customer_id sc) as [c|];
    unfold ensure_data_processing_allowed; rewrite ?Hn, ?Hne; cbn;
    repeat case_match; intros [=]; by subst.
Qed.

Lemma written_base {A} `{EqDecision A} (f : BackgroundJob.t → A) b a : written f b a b = f a.
Proof. unfold written. by case_decide. Qed.

Lemma flush_progressed n m b a : progressed n m a → progressed n m (flush_row b a b).
Proof. unfold progressed, settled, waiting. cbn. by rewrite !written_base. Qed.

Lemma advance_ended token t k s :
  attempts s !! token = None → run_ops (repeat (Advance token t) k) s = s.
Proof.
  intros E. induction k as [|k IH]; [done|]. cbn [repeat].
  change (run_ops (repeat (Advance token t) k) (run_op (Advance token t) s) = s).
  assert (run_op (Advance token t) s = s) as -> by (unfold Workers.run_op; by rewrite E). exact IH.
Qed.

(** The state of the system while the attempt of [token] goes on undisturbed *)
Definition working (token : string) (i : Z) (loaded : BackgroundJob.t) (phase : Phase) (s : System)
    : Prop :=
  row_is i loaded (db s) ∧ attempts s !! token = Some {| a_job := i; a_phase := phase |}.

Lemma working_step token i loaded phase t s :
  working token i loaded phase s →
  run_op (Advance token t) s =
  let (w, a') := advance sha256_hex h finalize flush_rest token t {| a_job := i; a_phase := phase |} (db s) in
  {| db := w; attempts := partial_alter (fun _ => a') token (attempts s) |}.
Proof. intros [_ E]. unfold Workers.run_op. by rewrite E. Qed.

Lemma working_next token i loaded phase phase' t s :
  working token i loaded phase s →
  advance sha256_hex h finalize flush_rest token t {| a_job := i; a_phase := phase |} (db s) =
    (db s, Some {| a_job := i; a_phase := phase' |}) →
  working token i loaded phase' (run_op (Advance token t) s).
Proof.
  intros Hw E. rewrite (working_step _ _ _ _ t _ Hw), E. destruct Hw as [Hr _].
  split; [exact Hr|]. cbn. by rewrite lookup_partial_alter_eq.
Qed.

(** A commit on the unchanged row *)
Lemma commit_run token i loaded b a t k n m s :
  working token i loaded (Checked b a) s → row_is i loaded b → row_has i (progressed n m) a →
  row_has i (progressed n m) (db (run_ops (repeat (Advance token t) (S k)) s)).
Proof.
  intros Hw Hb (x & Hx & Hp). cbn [repeat].
  change (row_has i (progressed n m)
    (db (run_ops (repeat (Advance token t) k) (run_op (Advance token t) s)))).
  rewrite (working_step _ _ _ _ t _ Hw). unfold Workers.advance. cbn [a_phase].
  rewrite advance_ended by apply lookup_partial_alter_eq.
  destruct Hw as [Hr _]. unfold row_is in *. exists (flush_row loaded x loaded). split.
  - cbn [db]. by rewrite flush_at, Hr, Hx, Hb.
  - by apply flush_progressed.
Qed.

Lemma session_row i loaded w : row_is i loaded (session i loaded w).
Proof.
  unfold row_is, session, job_at, table_get. cbn. rewrite lookup_table_put. by rewrite decide_True.
Qed.

Lemma begin_run token i t s job :
  row_is i job (db s) → holds token job = true →
  let loaded := renewed t t job in
  working token i loaded (Started loaded) (run_op (Begin token i t) s) ∧ holds token loaded = true.
Proof.
  intros Hr Hh loaded. split; [|exact Hh].
  assert (_refresh_job_lease token i t (db s) = (true, db s <| Work.jobs ::= table_put i loaded |>)) as E.
  { unfold _refresh_job_lease, renew. unfold row_is in Hr. by rewrite Hr, Hh. }
  unfold Workers.run_op, begin. rewrite E.
  change (db s <| Work.jobs ::= table_put i loaded |>) with (session i loaded (db s)).
  rewrite (session_row i loaded (db s)). split; [apply session_row | apply lookup_insert_eq].
Qed.

Lemma working_owns token i loaded phase s :
  holds token loaded = true → working token i loaded phase s → _owns_job_lease token i (db s) = true.
Proof. intros Hh [E _]. unfold _owns_job_lease. by rewrite E. Qed.

(** The rest of an attempt that may execute, and of one that may not *)
Lemma cleared_run token i loaded t n m s :
  holds token loaded = true → counts n m loaded → working token i loaded (Cleared loaded) s →
  row_has i (progressed n m) (db (run_ops (repeat (Advance token t) 4) s)).
Proof.
  intros Hh Hc H1. destruct (body_run i n m (session i loaded (db s))) as (after & Eb & Ha);
    [exists loaded; split; [apply session_row|exact Hc]|].
  assert (working token i loaded (Finished (session i loaded (db s)) after) (run_op (Advance token t) s))
    as H2 by (eapply working_next; [exact H1|]; unfold Workers.advance; cbn [a_phase a_job]; by rewrite Eb).
  pose proof (working_owns _ _ _ _ _ Hh H2) as Ho2.
  assert (working token i loaded (Checked (session i loaded (db s)) after)
            (run_op (Advance token t) (run_op (Advance token t) s))) as H3
    by (eapply working_next; [exact H2|]; unfold Workers.advance; cbn [a_phase a_job]; by rewrite Ho2).
  exact (commit_run token i loaded _ _ t 1 n m _ H3 (session_row _ _ _) Ha).
Qed.

Lemma refused_run token i loaded e t n m s :
  holds token loaded = true → working token i loaded (Refused e loaded) s →
  row_has i (progressed n m) (db (run_ops (repeat (Advance token t) 4) s)).
Proof.
  intros Hh H1. pose proof (working_owns _ _ _ _ _ Hh H1) as Ho1.
  assert (working token i loaded
    (Checked (session i loaded (db s)) (session i (rejected e t loaded) (db s)))
    (run_op (Advance token t) s)) as H2
    by (eapply working_next; [exact H1|]; unfold Workers.advance; cbn [a_phase a_job]; by rewrite Ho1).
  refine (commit_run token i loaded _ _ t 2 n m _ H2 (session_row _ _ _) _).
  exists (rejected e t loaded). split; [apply session_row|left; by right].
Qed.

(** An undisturbed attempt settles its job or uses up one of its attempts. *)
Lemma attempt_run token i t n m s job :
  row_is i job (db s) → holds token job = true → counts n m job →
  row_has i (progressed n m) (db (run_ops (attempt token i t) s)).
Proof.
  intros Hr Hh Hc. destruct (begin_run token i t s job Hr Hh) as [H0 Hl].
  assert (counts n m (renewed t t job)) as Hc' by exact Hc.
  revert H0 Hl Hc'. generalize (renewed t t job). intros loaded H0 Hl Hc'.
  change (row_has i (progressed n m) (db (run_ops (repeat (Advance token t) 4)
    (run_op (Advance token t) (run_op (Begin token i t) s))))).
  revert H0. generalize (run_op (Begin token i t) s). intros s0 H0.
  destruct (require_executable_background_job_scope (db s0) loaded) as [sc|e] eqn:Eq.
  - apply (cleared_run token i loaded); [done..|]. eapply working_next; [exact H0|].
    unfold Workers.advance. cbn [a_phase]. by rewrite Eq.
  - apply (refused_run token i loaded e); [done|]. eapply working_next; [exact H0|].
    unfold Workers.advance. cbn [a_phase]. by rewrite Eq, (require_refusal _ _ _ Eq).
Qed.

(** [n] attempts in a row: each time a claim takes the job and the worker works on it *)
Inductive tries (i : Z) : nat → System → System → Prop :=
| tries_O s : tries i 0 s s
| tries_S n s locked limit token types t s' :
    let s1 := run_op (Claim locked limit token types t) s in
    _owns_job_lease token i (db s1) = true →
    tries i n (run_ops (attempt token i t) s1) s' → tries i (S n) s s'.

(** A claim that takes the job finds it waiting. *)
Lemma claimed_waiting locked limit token types t i c m s :
  let s1 := run_op (Claim locked limit token types t) s in
  row_has i (fun x => settled x ∨ waiting c m x) (db s) → _owns_job_lease token i (db s1) = true →
  c < m ∧ ∃ job, row_is i job (db s1) ∧ holds token job = true ∧ counts c m job.
Proof.
  cbv zeta. intros (x & Hx & Hq) Ho. unfold _owns_job_lease in Ho. cbn in Ho.
  destruct (claim_at cfg locked limit token types t (db s) i) as [E|(y & Hy & Hc & E)].
  - exfalso. rewrite E, Hx in Ho. apply andb_true_iff in Ho as [Hs _].
    apply bool_decide_eq_true in Hs. unfold settled, waiting in Hq. intuition congruence.
  - replace y with x in * by congruence. destruct Hq as [Hq|(Hs & Hn & Hm & Hlt)].
    + exfalso. apply andb_true_iff in Hc as [[Hc _]%andb_true_iff _]. unfold settled in Hq.
      apply orb_true_iff in Hc as [[Hp _]%andb_true_iff|[Hp _]%andb_true_iff];
        apply bool_decide_eq_true in Hp; intuition congruence.
    + split; [done|]. exists (to_claimed token t x). split; [exact E|].
      split; [|by split]. apply andb_true_iff; split; by apply bool_decide_eq_true.
Qed.

Lemma tries_bound i m n s s' :
  tries i n s s' → ∀ c, row_has i (fun x => settled x ∨ waiting c m x) (db s) →
  (c + Z.of_nat n ≤ m ∨ n = 0%nat) ∧
  row_has i (fun x => settled x ∨ waiting (c + Z.of_nat n) m x) (db s').
Proof.
  induction 1 as [s|n s locked limit token types t s' s1 Ho _ IH]; intros c Hr.
  - split; [by right|]. by rewrite Z.add_0_r.
  - destruct (claimed_waiting locked limit token types t i c m s Hr Ho) as (Hlt & job & Hj & Hh & Hc).
    destruct (IH (c + 1) (attempt_run token i t c m s1 job Hj Hh Hc)) as [Hn Hs].
    replace (c + Z.of_nat (S n)) with (c + 1 + Z.of_nat n) by lia.
    split; [left; destruct Hn; lia|exact Hs].
Qed.

End Progress.

(** ** A concrete worker pool

    Settings with a lease of 300 seconds, handlers that do nothing but for AI replies,
    which fail, and the queue of JobScope.v. *)
Module Pool.
Definition cfg : JobSettings.t := FixWork.settings.
Definition sha (s : string) : string := s.
Definition down : SpeedafOutcome := Disabled "speedaf_work_order_create_disabled".
Definition handlers : Handlers.t :=
  {| Handlers.webchat_ai_reply := fun _ _ _ => raise (RuntimeError "provider down");
     Handlers.handoff_snapshot := fun _ => mret tt; Handlers.whatsapp_delivery := fun _ _ => mret tt;
     Handlers.mailbox_sync := fun _ => mret tt;
     Handlers.create_work_order := fun _ _ _ _ _ _ _ => down;
     Handlers.submit_update_address_flow := fun _ _ _ _ _ _ => down;
     Handlers.send_voice_callback := fun _ _ _ _ => down |}.
Definition finalize (_ : Z) : M Work.t unit := mret tt.
Definition flush_rest (_ after _ : Work.t) : Work.t := after.

#[global] Instance quiet : Quiet handlers finalize.
Proof.
  split; intros; try (apply rows_spares; intros j job); apply preserves_ret || apply preserves_raise.
Qed.

#[global] Instance finalizes : Finalizes finalize.
Proof.
  split; [done|]. intros i w x Hx Hd. exists w. split; [done|]. exists x. split; [done|by right].
Qed.

Definition run (l : list op) (s : System) : System := run_ops cfg sha handlers finalize flush_rest l s.
Definition start : System := {| db := FixWork.queued; attempts := ∅ |}.
Definition dispatch (token : string) (t : Z) : op := Claim (Some (fun _ => false)) None token AI_REPLY_JOB_TYPES t.

(** Worker A has claimed the job at second 10 and begun. *)
Definition begun : System := run [dispatch "A" (seconds 10); Begin "A" 1 (seconds 10)] start.
Definition leased : BackgroundJob.t := default (FixWork.job 1) (job_at (db begun) 1).

(** Worker B takes over after 400 seconds. *)
Definition taken_over : System :=
  run [Advance "A" 0; Advance "A" 0; dispatch "B" (seconds 410); Begin "B" 1 (seconds 410)] begun.

Lemma start_sound : all_sound start.
Proof. intros tk a. cbn. by rewrite lookup_empty. Qed.
Lemma begun_sound : all_sound begun.
Proof. apply (run_ops_sound cfg sha handlers finalize flush_rest), start_sound. Qed.
Lemma taken_over_sound : all_sound taken_over.
Proof. apply (run_ops_sound cfg sha handlers finalize flush_rest), begun_sound. Qed.

Definition retaken : BackgroundJob.t := default (FixWork.job 1) (job_at (db taken_over) 1).
Definition intruders : list op :=
  [dispatch "B" (seconds 300); Begin "B" 1 (seconds 301); Beat "B" 1 (seconds 302) (seconds 302);
   Advance "B" 0].

Lemma only_a : no_rival "A" 1 begun.
Proof.
  intros tk a Htk E _. unfold begun, run in E.
  assert (map_Forall (fun k x => k = "A" ∨ past_check x = false) (attempts begun)) as H
    by (apply (bool_decide_unpack _); vm_compute; exact I).
  destruct (H tk a E) as [->|Hp]; [contradiction|exact Hp].
Qed.

Lemma a_unchecked : unchecked "A" 1 taken_over.
Proof.
  intros a E.
  assert (map_Forall (fun k x => a_job x = 1 ∧ past_check x = false) (attempts taken_over)) as H
    by (apply (bool_decide_unpack _); vm_compute; exact I).
  exact (H "A" a E).
Qed.

Definition round (token : string) (t : Z) (s : System) : System :=
  run (attempt token 1 t) (run_op cfg sha handlers finalize flush_rest (dispatch token t) s).
Definition first : System := round "A" (seconds 10) start.
Definition second : System := round "B" (hours 8) first.
Definition third : System := round "C" (hours 9) second.

Definition claims (token : string) (t : Z) (s : System) : bool :=
  _owns_job_lease token 1 (db (run_op cfg sha handlers finalize flush_rest (dispatch token t) s)).

Lemma tries_round n token t s s1 s' :
  claims token t s = true → round token t s = s1 →
  tries cfg sha handlers finalize flush_rest 1 n s1 s' →
  tries cfg sha handlers finalize flush_rest 1 (S n) s s'.
Proof.
  intros Hc <-. unfold claims, round, run, dispatch in *. intros Ht.
  exact (tries_S cfg sha handlers finalize flush_rest 1 n s (Some (fun _ => false)) None token
           AI_REPLY_JOB_TYPES t s' Hc Ht).
Qed.

Lemma three_tries : tries cfg sha handlers finalize flush_rest 1 3 start third.
Proof.
  assert (claims "A" (seconds 10) start = true) as HA by (vm_compute; reflexivity).
  assert (claims "B" (hours 8) first = true) as HB by (vm_compute; reflexivity).
  assert (claims "C" (hours 9) second = true) as HC by (vm_compute; reflexivity).
  assert (round "A" (seconds 10) start = first) as EA by (unfold first; reflexivity).
  assert (round "B" (hours 8) first = second) as EB by (unfold second; reflexivity).
  assert (round "C" (hours 9) second = third) as EC by (unfold third; reflexivity).
  exact (tries_round 2 _ _ _ _ _ HA EA (tries_round 1 _ _ _ _ _ HB EB
    (tries_round 0 _ _ _ _ _ HC EC (tries_O _ _ _ _ _ _ _)))).
Qed.
End Pool.




(** The check of the lease and the commit are two transactions.  Here A has passed the
    check when its lease runs out and B takes the job over; A's commit still goes through
    and releases the row under B. *)
Definition overtaken : System :=
  Pool.run [Advance "A" 0; Advance "A" 0; Advance "A" 0;
            Pool.dispatch "B" (seconds 410); Begin "B" 1 (seconds 410)] Pool.begun.

Example commit_race :
  _owns_job_lease "B" 1 (db overtaken) = true ∧
  _owns_job_lease "B" 1 (db (Pool.run [Advance "A" 0] overtaken)) = false.
Proof. split; vm_compute; reflexivity. Qed.
