(* ===== verification/Messages.v ===== *)
(** * Outbound messages

    The rows of the outbox of customer messages: [services/outbound_semantics.py],
    [services/email_mailbox_identity.py], the guard of
    [services/processing_purpose_enforcement.py], the queue of
    [services/message_dispatch.py], [create_customer_visible_outbound] of
    [services/customer_visible_message_service.py], and the drafts and replies of agents in
    [services/ticket_service_core.py].  The dispatch to providers is in Dispatch.v.

    Every write of a row runs the listeners of the mapper ([before_write]): the check of
    the binding of an AI payload always, the guard of processing purposes in a process
    that has installed it ([guarded]). *)

From stdpp Require Import sorting.
From S2P Require Import Prelude Calendar Enums Models Fixtures Tenancy Permissions Sla Customers Tickets.
From S2P Require Import Work Redaction Contracts JobScope Jobs.

#[local] Abbreviation Message := TicketOutboundMessage.t.

Module OutboundSettings.
Record t := {
  enable_outbound_dispatch : bool; outbound_provider : string;
  outbound_email_production_pilot_enabled : bool; outbox_batch_size : Z; outbox_lock_seconds : Z;
  outbox_max_retries : Z; allow_legacy_originless_outbound : bool }.
End OutboundSettings.

(** ** The kinds of messages *)

Definition EXTERNAL_OUTBOUND_CHANNELS : list SourceChannel.t :=
  [SourceChannel.whatsapp; SourceChannel.telegram; SourceChannel.sms; SourceChannel.email].
Definition WEBCHAT_LOCAL_ACK_PROVIDER_STATUSES : list string := ["webchat_delivered"].
Definition WEBCHAT_CARD_PROVIDER_STATUSES : list string := ["webchat_card_delivered"].
Definition WEBCHAT_HANDOFF_PROVIDER_STATUSES : list string := ["webchat_handoff_ack_delivered"].
Definition WEBCHAT_AI_DELIVERED_PROVIDER_STATUSES : list string := ["webchat_ai_delivered"].
Definition WEBCHAT_LOCAL_ONLY_PROVIDER_STATUSES : list string :=
  WEBCHAT_LOCAL_ACK_PROVIDER_STATUSES ++ WEBCHAT_CARD_PROVIDER_STATUSES ++
  WEBCHAT_HANDOFF_PROVIDER_STATUSES ++ WEBCHAT_AI_DELIVERED_PROVIDER_STATUSES.

Definition is_external_outbound_channel (channel : SourceChannel.t) : bool :=
  bool_decide (channel ∈ EXTERNAL_OUTBOUND_CHANNELS).
Definition is_external_outbound_message (m : Message) : bool :=
  is_external_outbound_channel (TicketOutboundMessage.channel m).

Definition has_status (st : MessageStatus.t) (m : Message) : bool :=
  bool_decide (TicketOutboundMessage.status m = st).
(** [_value(message.provider_status)] *)
Definition provider_value (m : Message) : string :=
  py_strip (str_or (TicketOutboundMessage.provider_status m) EmptyString).
Definition is_web_chat (m : Message) : bool :=
  bool_decide (TicketOutboundMessage.channel m = SourceChannel.web_chat).
(** A message of the web chat that was delivered with one of the provider statuses *)
Definition delivered_as (statuses : list string) (m : Message) : bool :=
  is_web_chat m && has_status MessageStatus.sent m && bool_decide (provider_value m ∈ statuses).

Definition is_webchat_local_ack : Message → bool := delivered_as WEBCHAT_LOCAL_ACK_PROVIDER_STATUSES.
Definition is_webchat_card_delivery : Message → bool := delivered_as WEBCHAT_CARD_PROVIDER_STATUSES.
Definition is_webchat_handoff_ack : Message → bool := delivered_as WEBCHAT_HANDOFF_PROVIDER_STATUSES.
Definition is_webchat_ai_delivered : Message → bool := delivered_as WEBCHAT_AI_DELIVERED_PROVIDER_STATUSES.
Definition is_webchat_local_only_message (m : Message) : bool :=
  is_web_chat m && bool_decide (provider_value m ∈ WEBCHAT_LOCAL_ONLY_PROVIDER_STATUSES).
Definition is_external_pending_message (m : Message) : bool :=
  is_external_outbound_message m && has_status MessageStatus.pending m.
Definition is_external_dead_message (m : Message) : bool :=
  is_external_outbound_message m && has_status MessageStatus.dead m.

Definition outbound_ui_label (channel : SourceChannel.t) (status : MessageStatus.t)
    (provider_status : option string) : string :=
  let web := bool_decide (channel = SourceChannel.web_chat) in
  let external := is_external_outbound_channel channel in
  let provider := py_strip (str_or provider_status EmptyString) in
  if web && bool_decide (provider ∈ WEBCHAT_LOCAL_ACK_PROVIDER_STATUSES) then "Local WebChat ACK"
  else if web && bool_decide (provider ∈ WEBCHAT_CARD_PROVIDER_STATUSES) then "Local WebChat Card"
  else if web && bool_decide (provider ∈ WEBCHAT_HANDOFF_PROVIDER_STATUSES) then "Local WebChat Handoff ACK"
  else if web && bool_decide (provider ∈ WEBCHAT_AI_DELIVERED_PROVIDER_STATUSES) then "Local WebChat AI Reply"
  else if bool_decide (status = MessageStatus.draft) then "Draft"
  else if external && bool_decide (status = MessageStatus.pending) then "External Send Pending"
  else if external && bool_decide (status = MessageStatus.sent) then "External Send Sent"
  else if external && bool_decide (status = MessageStatus.dead) then "External Send Failed"
  else if web then "Local WebChat Message"
  else "Outbound Message".

(** [query.filter(...).count()] *)
Definition count (p : Message → bool) (w : Work.t) : Z :=
  Z.of_nat (length (select p (Db.messages (Work.core w)))).
(** The column itself is compared in a query, without the white space stripped *)
Definition sent_as (statuses : list string) (m : Message) : bool :=
  is_web_chat m && has_status MessageStatus.sent m &&
  match TicketOutboundMessage.provider_status m with
  | Some s => bool_decide (s ∈ statuses)
  | None => false
  end.
Definition count_outbound_semantics (w : Work.t) : list (string * Z) :=
  [("external_pending_outbound", count is_external_pending_message w);
   ("external_dead_outbound", count is_external_dead_message w);
   ("webchat_local_ack_sent", count (sent_as WEBCHAT_LOCAL_ACK_PROVIDER_STATUSES) w);
   ("webchat_card_sent", count (sent_as WEBCHAT_CARD_PROVIDER_STATUSES) w);
   ("webchat_handoff_ack_sent", count (sent_as WEBCHAT_HANDOFF_PROVIDER_STATUSES) w);
   ("webchat_ai_delivered_sent", count (sent_as WEBCHAT_AI_DELIVERED_PROVIDER_STATUSES) w)].

(** ** The mailbox identity of an email *)

Definition MAILBOX_ID_DOMAIN : string := "nexusdesk.local".

Definition has_char (p : Ascii.ascii → bool) (s : string) : bool :=
  negb (string_forallb (fun c => negb (p c)) s).
Definition is_angle (c : Ascii.ascii) : bool := (code c =? 60) || (code c =? 62).

Fixpoint lstrip_by (p : Ascii.ascii → bool) (s : string) : string :=
  match s with String c s' => if p c then lstrip_by p s' else s | EmptyString => EmptyString end.
Fixpoint rstrip_by (p : Ascii.ascii → bool) (s : string) : string :=
  match s with
  | EmptyString => EmptyString
  | String c s' => match rstrip_by p s' with
                   | EmptyString => if p c then EmptyString else String c EmptyString
                   | r => String c r
                   end
  end.

(** [text[1:-1] if text.startswith("<") and text.endswith(">") else text.strip("<>")] *)
Definition bare_id (text : string) : string :=
  let n := String.length text in
  if String.prefix "<" text && bool_decide (str_last 1 text = ">") then String.substring 1 (n - 2) text
  else rstrip_by is_angle (lstrip_by is_angle text).

Definition _header_id (value : option string) : option string :=
  let text := py_strip (str_or value EmptyString) in
  if negb (nonempty text) || has_char (fun c => (code c =? 13) || (code c =? 10)) text then None
  else let bare := bare_id text in
       if negb (nonempty bare) || negb (has_char (fun c => code c =? 64) bare) || has_char is_space bare
       then None else Some ("<" +:+ bare +:+ ">").

Definition _references (value : option string) : option string :=
  match omap (fun token => _header_id (Some token)) (split_words EmptyString (str_or value EmptyString)) with
  | [] => None
  | ids => Some (String.concat " " ids)
  end.

Definition build_mailbox_thread_id (ticket_id : Z) : string :=
  "<nexusdesk-ticket-" +:+ pretty ticket_id +:+ "@" +:+ MAILBOX_ID_DOMAIN +:+ ">".
Definition build_mailbox_message_id (ticket_id outbound_message_id : Z) : string :=
  "<nexusdesk-ticket-" +:+ pretty ticket_id +:+ "-outbound-" +:+ pretty outbound_message_id +:+ "@" +:+
  MAILBOX_ID_DOMAIN +:+ ">".
Definition build_inbound_mailbox_message_id (ticket_id inbound_message_id : Z) : string :=
  "<nexusdesk-ticket-" +:+ pretty ticket_id +:+ "-inbound-" +:+ pretty inbound_message_id +:+ "@" +:+
  MAILBOX_ID_DOMAIN +:+ ">".

(** [ticket_id]: the id of the ticket that is passed, else the column of the message *)
Definition _ticket_id (m : Message) (ticket : option Ticket.t) : Z :=
  int_or (Ticket.id <$> ticket) (TicketOutboundMessage.ticket_id m).

Definition ensure_outbound_mailbox_identity (ticket : option Ticket.t) (include_message_id : bool)
    (m : Message) : Message :=
  let ticket_id := _ticket_id m ticket in
  let thread := default (build_mailbox_thread_id ticket_id)
                  (_header_id (TicketOutboundMessage.mailbox_thread_id m)) in
  let references := default thread (_references (TicketOutboundMessage.mailbox_references m)) in
  let m := m <| TicketOutboundMessage.mailbox_thread_id := Some thread |>
             <| TicketOutboundMessage.mailbox_references := Some references |> in
  if include_message_id && negb (TicketOutboundMessage.id m =? 0) then
    m <| TicketOutboundMessage.mailbox_message_id ::= fun old =>
           Some (default (build_mailbox_message_id ticket_id (TicketOutboundMessage.id m)) (_header_id old)) |>
  else m.

(** ** Who may speak to a customer *)

(** The columns of a message that prove where an AI reply comes from *)
Module Stamp.
Record t := {
  runtime_trace_id : option string; runtime_contract_version : option string;
  runtime_signature : option string; runtime_contract_payload_json : option json;
  runtime_contract_payload_sha256 : option string; runtime_reply_type : option string;
  safety_status : option string }.
End Stamp.

Definition stamp_of (m : Message) : Stamp.t :=
  {| Stamp.runtime_trace_id := TicketOutboundMessage.runtime_trace_id m;
     Stamp.runtime_contract_version := TicketOutboundMessage.runtime_contract_version m;
     Stamp.runtime_signature := TicketOutboundMessage.runtime_signature m;
     Stamp.runtime_contract_payload_json := TicketOutboundMessage.runtime_contract_payload_json m;
     Stamp.runtime_contract_payload_sha256 := TicketOutboundMessage.runtime_contract_payload_sha256 m;
     Stamp.runtime_reply_type := TicketOutboundMessage.runtime_reply_type m;
     Stamp.safety_status := TicketOutboundMessage.safety_status m |}.

Definition unstamped : Stamp.t :=
  {| Stamp.runtime_trace_id := None; Stamp.runtime_contract_version := None;
     Stamp.runtime_signature := None; Stamp.runtime_contract_payload_json := None;
     Stamp.runtime_contract_payload_sha256 := None; Stamp.runtime_reply_type := None;
     Stamp.safety_status := None |}.

(** The empty dict, with the defaults of [payload_args.get] *)
Definition no_args : Args.t :=
  {| Args.runtime_trace_id := JNull; Args.contract_version := JNull; Args.runtime_signature := JNull;
     Args.safety_status := JNull; Args.origin := JNull; Args.body := JNull;
     Args.grounds := {| Grounds.reply_type := JStr "answer"; Grounds.used_sources := JNull;
                        Grounds.unsupported_claims := JNull; Grounds.conflicts := JNull;
                        Grounds.confidence := JNull; Grounds.channel := JNull |};
     Args.customer_visible := true |}.

Definition _normalize_customer_visible_origin (origin : option string) (created_by : option Z) : string :=
  let cleaned := normal_origin (str_or origin EmptyString) in
  if nonempty cleaned then cleaned
  else if not_null created_by then HUMAN_ORIGIN else "business_system".

(** [if violation: raise ValueError(violation)] *)
Definition refuse (violation : option string) : result unit :=
  match violation with Some v => Err (ValueError v) | None => Ok tt end.

Definition in_state (ticket : option Ticket.t) (states : list ConversationState.t) : bool :=
  match ticket with Some t => bool_decide (Ticket.conversation_state t ∈ states) | None => false end.

Module CustomerVisibleMessageResult.
Record t := {
  outbound_message : option Message; customer_visible : bool; provider_status : string }.
End CustomerVisibleMessageResult.

Section Authority.
Context (sha256_hex : string → string) (hmac_sha256_hex : string → string → string).
Context (dumps : json → string) (contract : ContractSettings.t).

Definition payload_args (s : Stamp.t) : Args.t :=
  let payload := parse_runtime_contract_payload (Stamp.runtime_contract_payload_json s) in
  if truthy payload then contract_validation_args_from_payload payload else no_args.

(** The branch for AI origins *)
Definition enforce_ai_origin (body : string) (ticket : option Ticket.t) (s : Stamp.t) : result unit :=
  if in_state ticket HUMAN_REPLY_STATES then Err (ValueError "human_active_blocks_ai_autoreply") else
  refuse (validate_contract_payload_hash sha256_hex dumps (Stamp.runtime_contract_payload_json s)
            (Stamp.runtime_contract_payload_sha256 s));;
  let args := payload_args s in
  if bool_decide (Stamp.runtime_reply_type s = Some "null_reply") || is_type "null_reply" (Args.grounds args)
  then Err (ValueError "ai_reply_null_reply_not_customer_visible") else
  violation ← validate_ai_reply_contract sha256_hex hmac_sha256_hex dumps contract (Some body)
    (json_or (Args.runtime_trace_id args) (jtext (Stamp.runtime_trace_id s)))
    (json_or (Args.contract_version args) (jtext (Stamp.runtime_contract_version s)))
    (json_or (Args.runtime_signature args) (jtext (Stamp.runtime_signature s)))
    (json_or (Args.safety_status args) (jtext (Stamp.safety_status s)))
    (Args.grounds args) (Args.customer_visible args);
  refuse violation.

Definition _enforce_customer_visible_origin (body origin : string) (ticket : option Ticket.t)
    (created_by : option Z) (s : Stamp.t) : result unit :=
  if bool_decide (origin ∈ FORBIDDEN_CUSTOMER_VISIBLE_ORIGINS)
  then Err (ValueError (origin +:+ "_cannot_queue_customer_visible_text"))
  else if bool_decide (origin ∈ AI_ORIGINS) then enforce_ai_origin body ticket s
  else if bool_decide (origin = HUMAN_ORIGIN) then
    if negb (not_null created_by) then Err (ValueError "human_agent_origin_requires_actor")
    else if in_state ticket [ConversationState.ai_active]
    then Err (ValueError "human_agent_reply_requires_handoff_or_takeover")
    else Ok tt
  else Err (ValueError "unsupported_customer_visible_origin").

(** ** The listeners of the mapper *)

Definition PURPOSE_AUTOMATIC_OUTBOUND : string := "automatic_outbound".
Definition _CUSTOMER_DELIVERY_CHANNELS : list SourceChannel.t := EXTERNAL_OUTBOUND_CHANNELS.

Definition _automatic_outbound (m : Message) : bool :=
  let origin := normal_origin (str_or (TicketOutboundMessage.origin m) EmptyString) in
  let provider_status := normal_origin (str_or (TicketOutboundMessage.provider_status m) EmptyString) in
  if String.prefix "privacy_handoff" provider_status then false
  else bool_decide (TicketOutboundMessage.channel m ∈ _CUSTOMER_DELIVERY_CHANNELS) &&
       negb (not_null (TicketOutboundMessage.created_by m)) &&
       negb (bool_decide (origin ∈ ["human_agent"; "human"])).

Definition _outbound_requires_guard (m : Message) : bool :=
  bool_decide (TicketOutboundMessage.status m ∈ [MessageStatus.pending; MessageStatus.sent]) &&
  _automatic_outbound m.

(** The rows come in the order of their ids here; the query does not say. *)
Definition _active_restriction_for_customer (w : Work.t) (customer_id : option Z) (purpose : string)
    : option DataProcessingRestriction.t :=
  customer ← customer_id;
  let normalized := normal_origin purpose in
  select_first (fun r =>
    (DataProcessingRestriction.customer_id r =? customer) &&
    bool_decide (DataProcessingRestriction.status r = "active") &&
    (bool_decide (normalized ∈ (normal_origin <$> DataProcessingRestriction.blocked_purposes_json r)) ||
     negb (bool_decide (normalized ∈ (normal_origin <$> DataProcessingRestriction.allowed_purposes_json r)))))
    (Work.restrictions w).

Definition customer_of (w : Work.t) (ticket_id : Z) : option Z :=
  ticket ← ticket_at (Work.core w) ticket_id; Ticket.customer_id ticket.

Definition _guard_outbound_effect (w : Work.t) (m : Message) : result unit :=
  if _outbound_requires_guard m then
    match _active_restriction_for_customer w (customer_of w (TicketOutboundMessage.ticket_id m))
            PURPOSE_AUTOMATIC_OUTBOUND with
    | Some r => Err (DataProcessingRestricted PURPOSE_AUTOMATIC_OUTBOUND (DataProcessingRestriction.id r))
    | None => Ok tt
    end
  else Ok tt.

Context (guarded : bool).

Definition before_write (m : Message) : M Work.t unit := fun w =>
  (validate_persisted_ai_payload_binding sha256_hex dumps m;;
   if guarded then _guard_outbound_effect w m else Ok tt, w).

Definition message_at (w : Work.t) (i : Z) : option Message := table_get (Db.messages (Work.core w)) i.

Definition insert_message (mk : Z → Message) : M Work.t Message := fun w =>
  (Ok (mk (tnext (Db.messages (Work.core w)))),
   w <| Work.core ::= fun s => s <| Db.messages ::= fun T => table_add T mk |> |>).

(** [db.add(message); db.flush()] for a message that [mk] makes from its creation time and
    its id: the listeners run before either is known. *)
Definition add_message (mk : Z → Z → Message) : M Work.t Message :=
  before_write (mk 0 0);;
  created_at ← now;
  insert_message (mk created_at).

(** The flush of a changed message *)
Definition flush_message (m : Message) : M Work.t unit :=
  before_write m;;
  modify (fun w => w <| Work.core ::= fun s =>
    s <| Db.messages ::= table_put (TicketOutboundMessage.id m) m |> |>).

(** ** The queue *)

Context (cfg : OutboundSettings.t).

Definition new_message (ticket_id : Z) (channel : SourceChannel.t) (status : MessageStatus.t)
    (subject : option string) (body : string) (origin : option string) (s : Stamp.t)
    (provider_status : option string) (created_by : option Z) (sent_at : option Z) (max_retries : Z)
    (created_at id : Z) : Message :=
  {| TicketOutboundMessage.id := id; TicketOutboundMessage.ticket_id := ticket_id;
     TicketOutboundMessage.channel := channel; TicketOutboundMessage.status := status;
     TicketOutboundMessage.subject := subject; TicketOutboundMessage.body := body;
     TicketOutboundMessage.origin := origin;
     TicketOutboundMessage.runtime_trace_id := Stamp.runtime_trace_id s;
     TicketOutboundMessage.runtime_contract_version := Stamp.runtime_contract_version s;
     TicketOutboundMessage.runtime_signature := Stamp.runtime_signature s;
     TicketOutboundMessage.runtime_contract_payload_json := Stamp.runtime_contract_payload_json s;
     TicketOutboundMessage.runtime_contract_payload_sha256 := Stamp.runtime_contract_payload_sha256 s;
     TicketOutboundMessage.runtime_reply_type := Stamp.runtime_reply_type s;
     TicketOutboundMessage.safety_status := Stamp.safety_status s;
     TicketOutboundMessage.provider_status := provider_status;
     TicketOutboundMessage.error_message := None; TicketOutboundMessage.created_by := created_by;
     TicketOutboundMessage.sent_at := sent_at; TicketOutboundMessage.retry_count := 0;
     TicketOutboundMessage.max_retries := max_retries; TicketOutboundMessage.last_attempt_at := None;
     TicketOutboundMessage.next_retry_at := None; TicketOutboundMessage.locked_at := None;
     TicketOutboundMessage.locked_by := None; TicketOutboundMessage.provider_message_id := None;
     TicketOutboundMessage.mailbox_thread_id := None; TicketOutboundMessage.mailbox_message_id := None;
     TicketOutboundMessage.mailbox_references := None; TicketOutboundMessage.failure_code := None;
     TicketOutboundMessage.failure_reason := None; TicketOutboundMessage.delivery_status := None;
     TicketOutboundMessage.delivery_event_type := None;
     TicketOutboundMessage.delivery_receipt_provider := None;
     TicketOutboundMessage.delivery_receipt_id := None; TicketOutboundMessage.delivery_receipt_at := None;
     TicketOutboundMessage.created_at := created_at |}.

(** [if payload_json and not payload_sha256: payload_sha256 = ...] *)
Definition complete_stamp (s : Stamp.t) : Stamp.t :=
  if not_null (Stamp.runtime_contract_payload_json s) &&
     negb (truthy_str (Stamp.runtime_contract_payload_sha256 s))
  then {| Stamp.runtime_trace_id := Stamp.runtime_trace_id s;
          Stamp.runtime_contract_version := Stamp.runtime_contract_version s;
          Stamp.runtime_signature := Stamp.runtime_signature s;
          Stamp.runtime_contract_payload_json := Stamp.runtime_contract_payload_json s;
          Stamp.runtime_contract_payload_sha256 :=
            contract_payload_sha256 sha256_hex dumps (Stamp.runtime_contract_payload_json s);
          Stamp.runtime_reply_type := Stamp.runtime_reply_type s;
          Stamp.safety_status := Stamp.safety_status s |}
  else s.

Definition queue_outbound_message (ticket_id : Z) (channel : SourceChannel.t) (body : string)
    (created_by : option Z) (subject : option string) (provider_status : string)
    (origin : option string) (stamp : Stamp.t) : M Work.t Message :=
  let stamp := complete_stamp stamp in
  ticket ← gets (fun w => ticket_at (Work.core w) ticket_id);
  let normalized := _normalize_customer_visible_origin origin created_by in
  lift (_enforce_customer_visible_origin body normalized ticket created_by stamp);;
  m ← add_message (new_message ticket_id channel MessageStatus.pending subject body (Some normalized)
                     stamp (Some provider_status) created_by None
                     (OutboundSettings.outbox_max_retries cfg));
  if bool_decide (channel = SourceChannel.email) then
    let m := ensure_outbound_mailbox_identity None true m in
    flush_message m;; mret m
  else mret m.

Definition contract_stamp (c : AIReplyContract.t) (payload : json) : Stamp.t :=
  {| Stamp.runtime_trace_id := Some (AIReplyContract.runtime_trace_id c);
     Stamp.runtime_contract_version := Some (AIReplyContract.contract_version c);
     Stamp.runtime_signature := Some (AIReplyContract.runtime_signature c);
     Stamp.runtime_contract_payload_json := Some payload;
     Stamp.runtime_contract_payload_sha256 := contract_payload_sha256 sha256_hex dumps (Some payload);
     Stamp.runtime_reply_type := Some (AIReplyContract.reply_type c);
     Stamp.safety_status := Some (AIReplyContract.safety_status c) |}.

Definition stamp_for (ai_contract : option AIReplyContract.t) (body origin : string) : result Stamp.t :=
  match ai_contract with
  | None => Ok unstamped
  | Some c => payload ← payload_dict c (Some body) origin true; Ok (contract_stamp c payload)
  end.

Definition is_null_reply (ai_contract : option AIReplyContract.t) : bool :=
  match ai_contract with
  | Some c => bool_decide (AIReplyContract.reply_type c = "null_reply")
  | None => false
  end.

Definition create_customer_visible_outbound (ticket : Ticket.t) (channel : SourceChannel.t)
    (body origin : string) (created_by : option Z) (provider_status : string)
    (ai_contract : option AIReplyContract.t) (status : option MessageStatus.t)
    (subject : option string) : M Work.t CustomerVisibleMessageResult.t :=
  let result m := {| CustomerVisibleMessageResult.outbound_message := Some m;
                     CustomerVisibleMessageResult.customer_visible := true;
                     CustomerVisibleMessageResult.provider_status := provider_status |} in
  if is_null_reply ai_contract
  then mret {| CustomerVisibleMessageResult.outbound_message := None;
               CustomerVisibleMessageResult.customer_visible := false;
               CustomerVisibleMessageResult.provider_status := "runtime_null_reply_not_sent" |}
  else
    stamp ← lift (stamp_for ai_contract body origin);
    lift (_enforce_customer_visible_origin body
            (_normalize_customer_visible_origin (Some origin) created_by) (Some ticket) created_by stamp);;
    if bool_decide (status = Some MessageStatus.sent) || bool_decide (channel = SourceChannel.web_chat)
    then sent_at ← now;
         m ← add_message (new_message (Ticket.id ticket) channel MessageStatus.sent subject body
                            (Some origin) stamp (Some provider_status) created_by (Some sent_at) 0);
         mret (result m)
    else m ← queue_outbound_message (Ticket.id ticket) channel body created_by subject provider_status
                (Some origin) stamp;
         mret (result m).

(** *** Drafts and replies of agents *)

Definition MAX_OUTBOUND_ATTACHMENTS : Z := 10.

(** [text.splitlines()] *)
Definition is_break (c : Ascii.ascii) : bool := between 10 13 c || between 28 30 c.
Fixpoint splitlines (line s : string) : list string :=
  match s with
  | EmptyString => if nonempty line then [line] else []
  | String c s' =>
      if is_break c then
        line :: match s' with
                | String d s'' => if (code c =? 13) && (code d =? 10) then splitlines EmptyString s''
                                  else splitlines EmptyString s'
                | EmptyString => []
                end
      else splitlines (line +:+ String c EmptyString) s'
  end.

Definition clean_email_subject (value : option string) : option string :=
  let text := py_strip (String.concat " " (splitlines EmptyString (str_or value EmptyString))) in
  if nonempty text then Some (str_take 255 text) else None.

Definition _resolve_outbound_subject (ticket : Ticket.t) (channel : SourceChannel.t)
    (subject : option string) : result (option string) :=
  if negb (bool_decide (channel = SourceChannel.email)) then Ok None
  else match clean_email_subject subject with
       | Some s => Ok (Some s)
       | None => match clean_email_subject (Ticket.texts ticket !! "title") with
                 | Some s => Ok (Some s)
                 | None => Err (HTTPExceptionCode 400 "email_subject_required" "Email subject is required")
                 end
       end.

Fixpoint dedupe_positive (seen ids : list Z) : result (list Z) :=
  match ids with
  | [] => Ok seen
  | i :: ids => if i <=? 0 then Err (HTTPException 400 "Unsupported attachment id")
                else dedupe_positive (if bool_decide (i ∈ seen) then seen else seen ++ [i]) ids
  end.

Definition _dedupe_attachment_ids (ids : list Z) : result (list Z) :=
  deduped ← dedupe_positive [] ids;
  if MAX_OUTBOUND_ATTACHMENTS <? Z.of_nat (length deduped)
  then Err (HTTPException 400 ("Email outbound supports at most " +:+ pretty MAX_OUTBOUND_ATTACHMENTS +:+
                               " attachments"))
  else Ok deduped.

Definition sendable (ticket : Ticket.t) (a : TicketAttachment.t) : result TicketAttachment.t :=
  if negb (TicketAttachment.ticket_id a =? Ticket.id ticket)
  then Err (HTTPException 400 "Attachment does not belong to this ticket")
  else if negb (bool_decide (TicketAttachment.visibility a = NoteVisibility.external))
  then Err (HTTPException 400 "Only external attachments can be sent to customers")
  else if negb (truthy_str (TicketAttachment.file_path a))
  then Err (HTTPException 400 "Attachment file is not available for outbound send")
  else Ok a.

Definition _resolve_outbound_attachments (s : Db.t) (ticket : Ticket.t) (ids : list Z)
    (channel : SourceChannel.t) : result (list TicketAttachment.t) :=
  ids ← _dedupe_attachment_ids ids;
  match ids with
  | [] => Ok []
  | _ =>
      if negb (bool_decide (channel = SourceChannel.email))
      then Err (HTTPException 400 "Outbound attachments are supported only for email")
      else rows ← result_mapM (fun i => match table_get (Db.attachments s) i with
                                        | Some a => Ok a
                                        | None => Err (HTTPException 404 "Attachment not found")
                                        end) ids;
           result_mapM (sendable ticket) rows
  end.

(** The association rows are written by the next flush, the one of [log_event]. *)
Definition _attach_outbound_message (m : Message) (attachments : list TicketAttachment.t)
    : M Db.t unit :=
  modify (fun s => s <| Db.message_attachments ::= fun l =>
    l ++ ((fun a => (TicketOutboundMessage.id m, TicketAttachment.id a)) <$> attachments) |>).

Definition outbound_event (m : Message) (user : User.t) (t : EventType.t) (note : string)
    (payload : list (string * json)) : TicketEvent.t :=
  {| TicketEvent.ticket_id := TicketOutboundMessage.ticket_id m;
     TicketEvent.actor_id := Some (User.id user); TicketEvent.event_type := t;
     TicketEvent.field_name := None; TicketEvent.old_value := None; TicketEvent.new_value := None;
     TicketEvent.note := Some note; TicketEvent.payload_json := JObj payload |}.

Definition attachment_facts (m : Message) (attachments : list TicketAttachment.t) : list (string * json) :=
  [("attachment_ids", JArr ((fun a => JNum (TicketAttachment.id a)) <$> attachments));
   ("attachments_count", JNum (Z.of_nat (length attachments)));
   ("mailbox_thread_id", jopt (TicketOutboundMessage.mailbox_thread_id m))].

Definition visible_ticket (i : Z) (user : User.t) : M Work.t Ticket.t :=
  ticket ← on_core (get_ticket_or_404 i);
  s ← gets Work.core;
  lift (ensure_ticket_visible user ticket (Some s));;
  mret ticket.

Definition save_outbound_draft (i : Z) (channel : SourceChannel.t) (subject : option string)
    (body : string) (attachment_ids : list Z) (user : User.t) : M Work.t Message :=
  ticket ← visible_ticket i user;
  s ← gets Work.core;
  lift (ensure_can_save_outbound_draft user (Some s));;
  attachments ← lift (_resolve_outbound_attachments s ticket attachment_ids channel);
  subject ← lift (_resolve_outbound_subject ticket channel subject);
  draft ← add_message (new_message (Ticket.id ticket) channel MessageStatus.draft subject body None
                         unstamped (Some "draft_saved") (Some (User.id user)) None 3);
  let draft := if bool_decide (channel = SourceChannel.email)
               then ensure_outbound_mailbox_identity (Some ticket) false draft else draft in
  on_core (_attach_outbound_message draft attachments);;
  when (bool_decide (channel = SourceChannel.email)) (flush_message draft);;
  on_core (log_event (outbound_event draft user EventType.outbound_draft_saved "Reply draft saved"
    ([("channel", JStr (value channel)); ("summary", JStr ("Draft saved for " +:+ value channel))] ++
     attachment_facts draft attachments ++
     [("mailbox_references", jopt (TicketOutboundMessage.mailbox_references draft))])));;
  mret draft.

Definition send_outbound_message (i : Z) (channel : SourceChannel.t) (subject : option string)
    (body : string) (attachment_ids : list Z) (user : User.t) : M Work.t Message :=
  ticket ← visible_ticket i user;
  s ← gets Work.core;
  lift (ensure_can_send_outbound user (Some s));;
  subject ← lift (_resolve_outbound_subject ticket channel subject);
  attachments ← lift (_resolve_outbound_attachments s ticket attachment_ids channel);
  m ← queue_outbound_message (Ticket.id ticket) channel body (Some (User.id user)) subject "queued"
        (Some "human_agent")
        {| Stamp.runtime_trace_id := None; Stamp.runtime_contract_version := None;
           Stamp.runtime_signature := None; Stamp.runtime_contract_payload_json := None;
           Stamp.runtime_contract_payload_sha256 := None; Stamp.runtime_reply_type := None;
           Stamp.safety_status := Some "passed" |};
  on_core (_attach_outbound_message m attachments);;
  on_core (update_first_response i);;
  on_core (evaluate_sla i);;
  on_core (log_event (outbound_event m user EventType.outbound_queued "Reply queued for dispatch"
    ([("channel", JStr (value channel)); ("provider_status", JStr "queued");
      ("subject_configured", JBool (truthy_str subject))] ++ attachment_facts m attachments ++
     [("mailbox_message_id", jopt (TicketOutboundMessage.mailbox_message_id m));
      ("mailbox_references", jopt (TicketOutboundMessage.mailbox_references m))])));;
  mret m.
(** ** The outcome of an attempt *)

Definition unlocked (m : Message) : Message :=
  m <| TicketOutboundMessage.locked_at := None |> <| TicketOutboundMessage.locked_by := None |>.

(** [now]: the reading of the clock for the attempt, [now']: the one for the next *)
Definition _mark_retry (reason : string) (failure_code : option string) (now now' : Z) (m : Message)
    : Message :=
  let retries := TicketOutboundMessage.retry_count m + 1 in
  let backoff_minutes := backoff retries 30 in
  let m := unlocked m <| TicketOutboundMessage.retry_count := retries |>
             <| TicketOutboundMessage.error_message := Some reason |>
             <| TicketOutboundMessage.failure_reason := Some reason |>
             <| TicketOutboundMessage.last_attempt_at := Some now |> in
  if TicketOutboundMessage.max_retries m <=? retries then
    let code := str_or failure_code "max_retries" in
    m <| TicketOutboundMessage.status := MessageStatus.dead |>
      <| TicketOutboundMessage.failure_code := Some code |>
      <| TicketOutboundMessage.provider_status := Some ("dead:" +:+ code) |>
      <| TicketOutboundMessage.next_retry_at := None |>
  else
    let code := str_or failure_code "retryable_dispatch_error" in
    m <| TicketOutboundMessage.status := MessageStatus.pending |>
      <| TicketOutboundMessage.failure_code := Some code |>
      <| TicketOutboundMessage.provider_status :=
           Some ("retry_scheduled:" +:+ pretty backoff_minutes +:+ "m" +:+
                 (if truthy_str failure_code then ":" +:+ code else EmptyString)) |>
      <| TicketOutboundMessage.next_retry_at := Some (now' + minutes backoff_minutes) |>.

Definition _mark_dead (reason failure_code : string) (now : Z) (m : Message) : Message :=
  unlocked m <| TicketOutboundMessage.status := MessageStatus.dead |>
    <| TicketOutboundMessage.provider_status := Some ("dead:" +:+ failure_code) |>
    <| TicketOutboundMessage.error_message := Some reason |>
    <| TicketOutboundMessage.failure_code := Some failure_code |>
    <| TicketOutboundMessage.failure_reason := Some reason |>
    <| TicketOutboundMessage.last_attempt_at := Some now |>
    <| TicketOutboundMessage.next_retry_at := None |>.

(** [sent_at] is set: to the time of the provider or to a reading of the clock *)
Definition _mark_sent (provider_status : option string) (sent_at now : Z)
    (provider_message_id receipt_provider : option string) (m : Message) : Message :=
  let m := unlocked m <| TicketOutboundMessage.status := MessageStatus.sent |>
    <| TicketOutboundMessage.provider_status := provider_status |>
    <| TicketOutboundMessage.sent_at := Some sent_at |>
    <| TicketOutboundMessage.error_message := None |> <| TicketOutboundMessage.failure_code := None |>
    <| TicketOutboundMessage.failure_reason := None |>
    <| TicketOutboundMessage.last_attempt_at := Some now |>
    <| TicketOutboundMessage.next_retry_at := None |>
    <| TicketOutboundMessage.delivery_status := Some "sent" |>
    <| TicketOutboundMessage.delivery_event_type := Some "sent" |>
    <| TicketOutboundMessage.delivery_receipt_at := Some sent_at |> in
  let m := if truthy_str provider_message_id
           then m <| TicketOutboundMessage.provider_message_id := provider_message_id |>
                  <| TicketOutboundMessage.delivery_receipt_id := provider_message_id |>
           else m in
  if truthy_str receipt_provider
  then m <| TicketOutboundMessage.delivery_receipt_provider := receipt_provider |> else m.

(** The clock is read once more when the message is tried again than when it dies. *)
Definition retried (reason : string) (failure_code : option string) (m : Message) : M Work.t Message :=
  now1 ← now;
  if TicketOutboundMessage.max_retries m <=? TicketOutboundMessage.retry_count m + 1
  then mret (_mark_retry reason failure_code now1 now1 m)
  else now2 ← now; mret (_mark_retry reason failure_code now1 now2 m).

Definition requeue_dead_outbound_message (message_id : Z) : M Work.t Message :=
  found ← gets (fun w => message_at w message_id);
  match found with
  | None => raise (HTTPException 404 "Outbound message not found")
  | Some m =>
      require (has_status MessageStatus.dead m)
        (HTTPException 400 "Only dead outbound messages can be requeued");;
      require (is_external_outbound_message m)
        (HTTPException 400 "Only external outbound messages can be requeued");;
      now ← now;
      let m := unlocked m <| TicketOutboundMessage.status := MessageStatus.pending |>
        <| TicketOutboundMessage.provider_status := Some "requeued_by_admin" |>
        <| TicketOutboundMessage.retry_count := 0 |> <| TicketOutboundMessage.error_message := None |>
        <| TicketOutboundMessage.failure_code := None |>
        <| TicketOutboundMessage.failure_reason := None |>
        <| TicketOutboundMessage.next_retry_at := Some now |>
        <| TicketOutboundMessage.last_attempt_at := None |> in
      flush_message m;;
      mret m
  end.

(** ** A restriction stops what is under way *)

Definition update_messages (f : Message → Message) (w : Work.t) : Work.t :=
  w <| Work.core ::= fun s => s <| Db.messages ::= fun T => {| trows := f <$> trows T; tnext := tnext T |} |> |>.

(** The tickets of the restricted customer *)
Definition is_subject (r : DataProcessingRestriction.t) (w : Work.t) (ticket_id : Z) : bool :=
  match ticket_at (Work.core w) ticket_id with
  | Some t => bool_decide (Ticket.tenant_id t = Some (DataProcessingRestriction.tenant_id r)) &&
              bool_decide (Ticket.customer_id t = Some (DataProcessingRestriction.customer_id r))
  | None => false
  end.

Definition stops_message (r : DataProcessingRestriction.t) (w : Work.t) (m : Message) : bool :=
  is_subject r w (TicketOutboundMessage.ticket_id m) && has_status MessageStatus.pending m &&
  negb (not_null (TicketOutboundMessage.created_by m)) &&
  bool_decide (TicketOutboundMessage.channel m ∈ _CUSTOMER_DELIVERY_CHANNELS).

Definition stopped_message (m : Message) : Message :=
  unlocked m <| TicketOutboundMessage.status := MessageStatus.dead |>
    <| TicketOutboundMessage.provider_status := Some "dead:data_processing_restricted" |>
    <| TicketOutboundMessage.failure_code := Some "data_processing_restricted" |>
    <| TicketOutboundMessage.failure_reason :=
         Some "Automatic outbound blocked by active processing restriction" |>
    <| TicketOutboundMessage.error_message :=
         Some "Automatic outbound blocked by active processing restriction" |>
    <| TicketOutboundMessage.next_retry_at := None |>.

Definition blocked_job_purposes (blocked : list string) : list string :=
  filter (fun p => p ∈ ["automated_ai"; "provider_tool_execution"; PURPOSE_AUTOMATIC_OUTBOUND]) blocked.

Definition stops_job (r : DataProcessingRestriction.t) (purposes : list string) (w : Work.t)
    (job : BackgroundJob.t) : bool :=
  bool_decide (BackgroundJob.status job = JobStatus.pending) &&
  match Work.scopes w !! BackgroundJob.id job with
  | Some s => bool_decide (BackgroundJobScope.scope_type s = "tenant") &&
              bool_decide (BackgroundJobScope.tenant_id s = Some (DataProcessingRestriction.tenant_id r)) &&
              bool_decide (BackgroundJobScope.customer_id s = Some (DataProcessingRestriction.customer_id r)) &&
              bool_decide (BackgroundJobScope.purpose s ∈ purposes)
  | None => false
  end.

Definition stopped_job (now : Z) (job : BackgroundJob.t) : BackgroundJob.t :=
  job <| BackgroundJob.status := JobStatus.dead |>
      <| BackgroundJob.last_error := Some "data_processing_restricted" |>
      <| BackgroundJob.next_run_at := None |> <| BackgroundJob.locked_at := None |>
      <| BackgroundJob.locked_by := None |> <| BackgroundJob.updated_at := now |>.

Definition update_jobs (f : BackgroundJob.t → BackgroundJob.t) (w : Work.t) : Work.t :=
  w <| Work.jobs ::= fun T => {| trows := f <$> trows T; tnext := tnext T |} |>.

Definition _cancel_pending_restricted_effects (r : DataProcessingRestriction.t) : M Work.t unit :=
  let blocked := normal_origin <$> DataProcessingRestriction.blocked_purposes_json r in
  let purposes := blocked_job_purposes blocked in
  when (bool_decide (DataProcessingRestriction.status r = "active"))
    (when (bool_decide (PURPOSE_AUTOMATIC_OUTBOUND ∈ blocked))
       (_ ← now;
        modify (fun w => update_messages (fun m => if stops_message r w m then stopped_message m else m) w));;
     when (negb (bool_decide (purposes = [])))
       (now ← now;
        modify (fun w => update_jobs (fun j => if stops_job r purposes w j then stopped_job now j else j) w))).

Definition insert_restriction (mk : Z → DataProcessingRestriction.t)
    : M Work.t DataProcessingRestriction.t := fun w =>
  (Ok (mk (tnext (Work.restrictions w))), w <| Work.restrictions ::= fun T => table_add T mk |>).

(** The flush of a new restriction, in a process that has installed the listener *)
Definition add_restriction (mk : Z → DataProcessingRestriction.t) : M Work.t unit :=
  r ← insert_restriction mk;
  when guarded (_cancel_pending_restricted_effects r).
End Authority.

(** ** Facts *)

(** Refute a decidable hypothesis by computation. *)
Ltac refute H := apply (bool_decide_eq_true_2 _) in H; vm_compute in H; discriminate H.

Lemma normal_origin_idem s : normal_origin (normal_origin s) = normal_origin s.
Proof. unfold normal_origin. by rewrite py_strip_lower, py_strip_idem, py_lower_idem. Qed.

Lemma normalize_normalized origin created_by :
  let o := _normalize_customer_visible_origin origin created_by in
  _normalize_customer_visible_origin (Some o) created_by = o.
Proof.
  cbv zeta. unfold _normalize_customer_visible_origin.
  destruct (nonempty (normal_origin (str_or origin EmptyString))) eqn:E.
  - cbn [str_or]. by rewrite E, normal_origin_idem, E.
  - by destruct created_by.
Qed.

Definition put_message (m : Message) (w : Work.t) : Work.t :=
  w <| Work.core ::= fun s => s <| Db.messages ::= table_put (TicketOutboundMessage.id m) m |> |>.

(** The flush of a message writes it, or raises and writes nothing. *)
Lemma flush_message_cases sha256_hex dumps guarded m w :
  flush_message sha256_hex dumps guarded m w = (Ok tt, put_message m w) ∨
  ∃ e, flush_message sha256_hex dumps guarded m w = (Err e, w).
Proof.
  unfold flush_message, mbind, M_bind. destruct (before_write _ _ _ m w) as [[[]|e] w1] eqn:E;
    apply (f_equal snd) in E; cbn in E; subst w1; [by left|right; by exists e].
Qed.

Lemma message_at_put m w : message_at (put_message m w) (TicketOutboundMessage.id m) = Some m.
Proof. unfold message_at, table_get, put_message. cbn. rewrite lookup_table_put. by rewrite decide_True. Qed.

Section MessageFacts.
Context (sha256_hex : string → string) (hmac_sha256_hex : string → string → string).
Context (dumps : json → string) (contract : ContractSettings.t) (guarded : bool).
Context (cfg : OutboundSettings.t).

#[local] Abbreviation enforce := (_enforce_customer_visible_origin sha256_hex hmac_sha256_hex dumps contract).

(** What passes with a ticket passes without. *)
Lemma enforce_without_ticket body origin ticket created_by s :
  enforce body origin ticket created_by s = Ok tt → enforce body origin None created_by s = Ok tt.
Proof using Type.
  unfold _enforce_customer_visible_origin, enforce_ai_origin. cbn [in_state].
  destruct (bool_decide (origin ∈ FORBIDDEN_CUSTOMER_VISIBLE_ORIGINS)); [done|].
  destruct (bool_decide (origin ∈ AI_ORIGINS)); [by destruct (in_state ticket HUMAN_REPLY_STATES)|].
  destruct (bool_decide (origin = HUMAN_ORIGIN)); [|done].
  by destruct created_by, (in_state ticket [ConversationState.ai_active]).
Qed.

(** A message is a draft or speaks in the name of its origin. *)
Definition authorised (m : Message) : Prop :=
  TicketOutboundMessage.status m = MessageStatus.draft ∨
  enforce (TicketOutboundMessage.body m)
    (_normalize_customer_visible_origin (TicketOutboundMessage.origin m) (TicketOutboundMessage.created_by m))
    None (TicketOutboundMessage.created_by m) (stamp_of m) = Ok tt.

(** A message that is still to be sent *)
Definition live (m : Message) : Prop :=
  TicketOutboundMessage.status m ∈ [MessageStatus.pending; MessageStatus.processing].

Record bounded (m : Message) : Prop := {
  count_nonnegative : 0 ≤ TicketOutboundMessage.retry_count m;
  count_at_most : TicketOutboundMessage.retry_count m ≤ TicketOutboundMessage.max_retries m;
  live_below : live m → TicketOutboundMessage.retry_count m < TicketOutboundMessage.max_retries m;
  dead_positive : has_status MessageStatus.dead m = true → 0 < TicketOutboundMessage.max_retries m }.

Definition row_ok (m : Message) : Prop := authorised m ∧ bounded m.

Definition rows_ok (w : Work.t) : Prop :=
  ∀ i m, message_at w i = Some m → TicketOutboundMessage.id m = i ∧ row_ok m.

(** *** Writes *)

Definition messages_are (T : Table Message) (w : Work.t) : Prop := Db.messages (Work.core w) = T.

Lemma rows_ok_same w w' : messages_are (Db.messages (Work.core w)) w' → rows_ok w → rows_ok w'.
Proof using Type. unfold messages_are, rows_ok, message_at. by intros ->. Qed.

(** What keeps the table keeps the invariant. *)
Lemma rows_ok_kept {A} (m : M Work.t A) :
  (∀ T, preserves (messages_are T) m) → preserves rows_ok m.
Proof using Type. intros H w Hw. eapply rows_ok_same; [|exact Hw]. by apply H. Qed.

Lemma kept_now T : preserves (messages_are T) now.
Proof using Type. by intros w. Qed.
Lemma kept_log_event T e : preserves (messages_are T) (on_core (log_event e)).
Proof using Type. by intros w. Qed.
Lemma kept_before_write T m : preserves (messages_are T) (before_write sha256_hex dumps guarded m).
Proof using Type. by intros w. Qed.

Lemma rows_ok_put m w : row_ok m → rows_ok w → rows_ok (put_message m w).
Proof using Type.
  intros Hm Hw i m'. unfold put_message, message_at, table_get. cbn [Work.core Db.messages alter_field].
  rewrite lookup_table_put. case_decide as E; [by intros [= <-]|apply Hw].
Qed.

Lemma flush_message_ok m : row_ok m → preserves rows_ok (flush_message sha256_hex dumps guarded m).
Proof using Type.
  intros Hm w Hw. destruct (flush_message_cases sha256_hex dumps guarded m w) as [->|[e ->]]; [|done].
  by apply rows_ok_put.
Qed.

Lemma add_message_ok mk :
  (∀ c i, TicketOutboundMessage.id (mk c i) = i ∧ row_ok (mk c i)) →
  hoare rows_ok (add_message sha256_hex dumps guarded mk) (fun m w => row_ok m ∧ rows_ok w) (fun _ => rows_ok).
Proof using Type.
  intros Hmk. unfold add_message.
  eapply hoare_bind; [apply hoare_keep, rows_ok_kept; intros; apply kept_before_write|]. intros [].
  eapply hoare_bind; [apply hoare_keep, rows_ok_kept; intros; apply kept_now|]. intros c w Hw.
  unfold insert_message. split; [apply Hmk|]. intros i m'. unfold message_at, table_get.
  cbn [Work.core Db.messages alter_field]. rewrite lookup_table_add.
  case_decide as E; [intros [= <-]; rewrite <- E; apply Hmk|apply Hw].
Qed.

(** *** The operations of the ticket domain write no message *)

Definition core_messages (T : Table Message) (s : Db.t) : Prop := Db.messages s = T.

Lemma on_core_kept {A} T (m : M Db.t A) : preserves (core_messages T) m → preserves (messages_are T) (on_core m).
Proof using Type.
  intros H w Hw. unfold on_core, messages_are. specialize (H (Work.core w) Hw).
  by destruct (m (Work.core w)) as [r s].
Qed.

Lemma cm_the_ticket T j : preserves (core_messages T) (the_ticket j).
Proof using Type. intros s H. unfold the_ticket. by destruct (ticket_at s j). Qed.
Lemma cm_or_now T o : preserves (core_messages T) (or_now o).
Proof using Type. destruct o; [apply preserves_ret | by intros s H]. Qed.
Lemma cm_set T i f : preserves (core_messages T) (set_ticket i f).
Proof using Type. apply preserves_modify. intros s H. by destruct (ticket_at s i). Qed.
Lemma cm_put_target T i mk : preserves (core_messages T) (put_target i mk).
Proof using Type. apply preserves_modify. intros s H. by destruct (find_target s i). Qed.
Lemma cm_now T : preserves (core_messages T) utc_now.
Proof using Type. by intros s H. Qed.
Lemma cm_event T e : preserves (core_messages T) (log_event e).
Proof using Type. by intros s H. Qed.
Lemma cm_add_assignment T mk : preserves (core_messages T) (add_assignment mk).
Proof using Type. by intros s H. Qed.
Lemma cm_attach T m l : preserves (core_messages T) (_attach_outbound_message m l).
Proof using Type. by intros s H. Qed.
#[local] Hint Resolve cm_the_ticket cm_or_now cm_set cm_put_target cm_now cm_event cm_add_assignment cm_attach : nexus.

Lemma cm_ensure T i by_ at_ : preserves (core_messages T) (ensure_ticket_sla_assignment i by_ at_).
Proof using Type. unfold ensure_ticket_sla_assignment, select_policy_revision. preserve; auto with nexus; by intros s H. Qed.
#[local] Hint Resolve cm_ensure : nexus.
Lemma cm_apply T i p now by_ : preserves (core_messages T) (apply_policy_to_ticket i p now by_).
Proof using Type. unfold apply_policy_to_ticket. preserve; auto with nexus; by intros s H. Qed.
#[local] Hint Resolve cm_apply : nexus.
Lemma cm_evaluate T i : preserves (core_messages T) (evaluate_sla i).
Proof using Type.
  unfold evaluate_sla, compute_sla_snapshot, _runtime_due_times, cached_due, policy_of_ticket.
  preserve; auto with nexus; by intros s H.
Qed.
Lemma cm_first_response T i : preserves (core_messages T) (update_first_response i).
Proof using Type. unfold update_first_response. preserve; auto with nexus; by intros s H. Qed.
#[local] Hint Resolve cm_evaluate cm_first_response : nexus.

Lemma core_ok {A} (m : M Db.t A) : (∀ T, preserves (core_messages T) m) → preserves rows_ok (on_core m).
Proof using Type. intros H. apply rows_ok_kept. intros T. by apply on_core_kept. Qed.

(** *** New messages *)

Lemma stamp_of_new ticket_id channel st subject body origin s provider_status created_by sent_at retries c i :
  stamp_of (new_message ticket_id channel st subject body origin s provider_status created_by sent_at retries c i) = s.
Proof using Type. by destruct s. Qed.

Lemma new_message_ok ticket_id channel st subject body origin s provider_status created_by sent_at retries c i :
  st = MessageStatus.draft ∨
  enforce body (_normalize_customer_visible_origin origin created_by) None created_by s = Ok tt →
  st ∈ [MessageStatus.draft; MessageStatus.pending; MessageStatus.sent] →
  0 ≤ retries → (st = MessageStatus.pending → 0 < retries) →
  let m := new_message ticket_id channel st subject body origin s provider_status created_by sent_at retries c i in
  TicketOutboundMessage.id m = i ∧ row_ok m.
Proof using Type.
  intros Ha Hst Hr Hp m. split; [done|]. split.
  - destruct Ha as [->|Ha]; [by left|right]. unfold m. by rewrite stamp_of_new.
  - split; cbn; [done|done| |].
    + unfold live. cbn. intros Hl. apply Hp. by destruct st; try refute Hl; try refute Hst.
    + unfold has_status. rewrite bool_decide_eq_true. cbn. intros ->. refute Hst.
Qed.

Lemma identity_ok t b m : row_ok m → row_ok (ensure_outbound_mailbox_identity t b m).
Proof using Type.
  unfold ensure_outbound_mailbox_identity. cbv zeta.
  destruct (b && negb (TicketOutboundMessage.id _ =? 0)); intros [Ha [Hb1 Hb2 Hb3 Hb4]]; (split; [exact Ha|by split]).
Qed.

Context (positive : 0 < OutboundSettings.outbox_max_retries cfg).

Lemma queue_ok ticket_id channel body created_by subject provider_status origin stamp :
  hoare rows_ok
    (queue_outbound_message sha256_hex hmac_sha256_hex dumps contract guarded cfg ticket_id channel body
       created_by subject provider_status origin stamp)
    (fun _ => rows_ok) (fun _ => rows_ok).
Proof using positive.
  unfold queue_outbound_message. cbv zeta.
  eapply hoare_bind; [apply (hoare_gets _ _ (fun _ => rows_ok)); done|]. intros ticket.
  eapply hoare_bind.
  { apply (hoare_lift _ _ (fun _ w => enforce body (_normalize_customer_visible_origin origin created_by) None
      created_by (complete_stamp sha256_hex dumps stamp) = Ok tt ∧ rows_ok w)); [|done].
    intros [] w H Hw. split; [by eapply enforce_without_ticket|done]. }
  intros []. apply hoare_pure. intros Ha.
  eapply hoare_bind.
  { apply add_message_ok. intros c i. apply new_message_ok.
    - right. by rewrite normalize_normalized.
    - set_solver.
    - lia.
    - done. }
  intros m. apply hoare_pure. intros Hm. case_bool_decide; [|by apply hoare_ret].
  eapply hoare_bind; [by apply hoare_keep, flush_message_ok, identity_ok|]. intros []. by apply hoare_ret.
Qed.

Lemma create_ok ticket channel body origin created_by provider_status ai_contract status subject :
  preserves rows_ok
    (create_customer_visible_outbound sha256_hex hmac_sha256_hex dumps contract guarded cfg ticket channel body
       origin created_by provider_status ai_contract status subject).
Proof using positive.
  apply hoare_preserves. unfold create_customer_visible_outbound. cbv zeta.
  destruct (is_null_reply ai_contract); [by apply hoare_ret|].
  eapply hoare_bind; [apply (hoare_lift _ _ (fun _ => rows_ok)); done|]. intros stamp.
  eapply hoare_bind.
  { apply (hoare_lift _ _ (fun _ w => enforce body (_normalize_customer_visible_origin (Some origin) created_by)
      None created_by stamp = Ok tt ∧ rows_ok w)); [|done].
    intros [] w H Hw. split; [by eapply enforce_without_ticket|done]. }
  intros []. apply hoare_pure. intros Ha.
  destruct (_ || _).
  - eapply hoare_bind; [apply hoare_keep, rows_ok_kept; intros; apply kept_now|]. intros sent_at.
    eapply hoare_bind.
    { apply add_message_ok. intros c i. apply new_message_ok; [by right|set_solver|lia|done]. }
    intros m. apply hoare_ret. by intros w [_ Hw].
  - eapply hoare_bind; [apply queue_ok|]. intros m. by apply hoare_ret.
Qed.

Lemma visible_ticket_ok i user : preserves rows_ok (visible_ticket i user).
Proof using Type.
  unfold visible_ticket, get_ticket_or_404. preserve. apply core_ok. auto with nexus.
Qed.

Lemma draft_ok i channel subject body ids user :
  preserves rows_ok (save_outbound_draft sha256_hex dumps guarded i channel subject body ids user).
Proof using Type.
  unfold save_outbound_draft. apply preserves_bind; [apply visible_ticket_ok|intros ticket].
  do 4 (apply preserves_bind; [auto with nexus|intros ?]). apply hoare_preserves.
  eapply hoare_bind.
  { apply add_message_ok. intros c j. apply new_message_ok; [by left|left|done|done]. }
  intros m. cbv zeta. apply hoare_pure. intros Hm. apply hoare_preserves. preserve.
  - apply core_ok. auto with nexus.
  - apply flush_message_ok. case_bool_decide; [by apply identity_ok|done].
  - apply core_ok. auto with nexus.
Qed.

Lemma send_ok i channel subject body ids user :
  preserves rows_ok
    (send_outbound_message sha256_hex hmac_sha256_hex dumps contract guarded cfg i channel subject body ids user).
Proof using positive.
  unfold send_outbound_message. apply preserves_bind; [apply visible_ticket_ok|intros ticket].
  do 4 (apply preserves_bind; [auto with nexus|intros ?]).
  apply preserves_bind; [apply hoare_preserves, queue_ok|intros m].
  preserve; apply core_ok; auto with nexus.
Qed.

(** *** Outcomes *)

Lemma live_authorised m : live m → authorised m →
  enforce (TicketOutboundMessage.body m)
    (_normalize_customer_visible_origin (TicketOutboundMessage.origin m) (TicketOutboundMessage.created_by m))
    None (TicketOutboundMessage.created_by m) (stamp_of m) = Ok tt.
Proof using Type. intros Hl [Hd|Ha]; [|done]. unfold live in Hl. rewrite Hd in Hl. refute Hl. Qed.

Lemma live_below_max m : row_ok m → live m →
  0 ≤ TicketOutboundMessage.retry_count m < TicketOutboundMessage.max_retries m.
Proof using Type. intros [_ [H0 _ Hl _]] H. specialize (Hl H). lia. Qed.

Lemma mark_retry_ok reason code n n' m : row_ok m → live m → row_ok (_mark_retry reason code n n' m).
Proof using Type.
  intros Hm Hl. pose proof (live_below_max m Hm Hl) as Hb. destruct Hm as [Ha _].
  apply (live_authorised m Hl) in Ha. unfold _mark_retry. cbv zeta.
  destruct (TicketOutboundMessage.max_retries _ <=? _) eqn:E; cbn in E;
    [apply Z.leb_le in E|apply Z.leb_gt in E]; (split; [right; exact Ha|]); split; cbn; intros; try lia.
  unfold live in *. cbn in *. match goal with H : _ |- _ => refute H end.
Qed.

Lemma mark_dead_ok reason code n m : row_ok m → live m → row_ok (_mark_dead reason code n m).
Proof using Type.
  intros Hm Hl. pose proof (live_below_max m Hm Hl) as Hb. destruct Hm as [Ha [H0 H1 _ _]].
  apply (live_authorised m Hl) in Ha. split; [right; exact Ha|]. split; [exact H0|exact H1| |].
  - intros H. unfold live in H. cbn in H. refute H.
  - cbn. lia.
Qed.

Lemma retried_ok reason code m : row_ok m → live m →
  hoare rows_ok (retried reason code m)
    (fun m' w => (TicketOutboundMessage.id m' = TicketOutboundMessage.id m ∧ row_ok m') ∧ rows_ok w)
    (fun _ => rows_ok).
Proof using Type.
  intros Hm Hl. assert (∀ n n', TicketOutboundMessage.id (_mark_retry reason code n n' m) =
    TicketOutboundMessage.id m) as Hid.
  { intros. unfold _mark_retry. cbv zeta. by destruct (_ <=? _). }
  pose proof (mark_retry_ok reason code) as Hok.
  unfold retried. eapply hoare_bind; [apply hoare_keep, rows_ok_kept; intros; apply kept_now|]. intros n.
  destruct (_ <=? _); [apply hoare_ret; auto|].
  eapply hoare_bind; [apply hoare_keep, rows_ok_kept; intros; apply kept_now|]. intros n'. apply hoare_ret. auto.
Qed.

Lemma requeue_ok i : preserves rows_ok (requeue_dead_outbound_message sha256_hex dumps guarded i).
Proof using Type.
  apply hoare_preserves. unfold requeue_dead_outbound_message.
  eapply hoare_bind.
  { apply (hoare_gets _ _ (fun o w => (∀ m, o = Some m → row_ok m) ∧ rows_ok w)).
    intros w Hw. split; [|done]. intros m Hm. by apply (Hw i). }
  intros [m|]; [|apply hoare_raise; by intros w []]. apply hoare_pure. intros Hm. specialize (Hm m eq_refl).
  destruct (has_status MessageStatus.dead m) eqn:Hd; [|intros w Hw; exact Hw].
  do 2 (eapply hoare_bind; [apply hoare_keep, preserves_require|]; intros []).
  eapply hoare_bind; [apply hoare_keep, rows_ok_kept; intros; apply kept_now|]. intros n.
  apply hoare_preserves, preserves_bind; [|intros []; apply preserves_ret]. apply flush_message_ok.
  destruct Hm as [Ha [_ _ _ Hp]]. specialize (Hp Hd). split.
  - right. destruct Ha as [Ha|Ha]; [|exact Ha]. apply bool_decide_eq_true in Hd. congruence.
  - split; cbn; intros; try lia; done.
Qed.

Lemma update_messages_ok f w : (∀ m, row_ok m → TicketOutboundMessage.id (f m) = TicketOutboundMessage.id m ∧ row_ok (f m)) →
  rows_ok w → rows_ok (update_messages f w).
Proof using Type.
  intros Hf Hw i m'. unfold message_at, table_get, update_messages. cbn [Work.core Db.messages alter_field trows].
  rewrite lookup_fmap. intros (m & Hm & ->)%fmap_Some. destruct (Hw i m Hm) as [<- Hok]. by apply Hf.
Qed.

Lemma stopped_ok m : row_ok m → live m → row_ok (stopped_message m).
Proof using Type.
  intros Hm Hl. destruct (mark_dead_ok EmptyString EmptyString 0 m Hm Hl) as [Ha [H0 H1 H2 H3]].
  split; [exact Ha|by split].
Qed.

Lemma restriction_ok mk : preserves rows_ok (add_restriction guarded mk).
Proof using Type.
  unfold add_restriction, insert_restriction. apply preserves_bind; [by intros w|]. intros r.
  apply preserves_when. unfold _cancel_pending_restricted_effects. cbv zeta. apply preserves_when, preserves_bind.
  - apply preserves_when, preserves_bind; [apply rows_ok_kept; intros; apply kept_now|]. intros n.
    apply preserves_modify. intros w. apply update_messages_ok. intros m Hm.
    destruct (stops_message r w m) eqn:E; [|done]. split; [done|]. apply stopped_ok; [done|].
    unfold stops_message in E. rewrite !andb_true_iff in E. destruct E as [[[_ E] _] _].
    apply bool_decide_eq_true in E. unfold live. rewrite E. left.
  - intros []. apply preserves_when, preserves_bind; [apply rows_ok_kept; intros; apply kept_now|]. intros n.
    apply preserves_modify. by intros w.
Qed.
End MessageFacts.

(** ** What a restriction of processing stops *)

(** The state after the messages are stopped; the jobs are another table. *)
Lemma restriction_cancel_run r w u w' :
  _cancel_pending_restricted_effects r w = (Ok u, w') →
  DataProcessingRestriction.status r = "active" →
  PURPOSE_AUTOMATIC_OUTBOUND ∈ normal_origin <$> DataProcessingRestriction.blocked_purposes_json r →
  Db.tickets (Work.core w') = Db.tickets (Work.core w) ∧ Work.restrictions w' = Work.restrictions w ∧
  ∀ i m, message_at w' i = Some m → ∃ m0, m = if stops_message r w m0 then stopped_message m0 else m0.
Proof.
  intros H Hs Hb. unfold _cancel_pending_restricted_effects in H. cbv zeta in H.
  rewrite bool_decide_eq_true_2 in H by done. cbn [when] in H. minv H.
  rewrite bool_decide_eq_true_2 in Hm by done. cbn [when] in Hm. minv Hm.
  apply (f_equal snd) in Hm0. cbn [snd] in Hm0. rewrite <- Hm0 in *. unfold message_at, table_get.
  assert (∀ w1, Db.messages (Work.core w') = Db.messages (Work.core w1) →
    Db.tickets (Work.core w') = Db.tickets (Work.core w1) → Work.restrictions w' = Work.restrictions w1 →
    w1 = update_messages (fun m => if stops_message r (snd (now w)) m then stopped_message m else m) (snd (now w)) →
    Db.tickets (Work.core w') = Db.tickets (Work.core w) ∧ Work.restrictions w' = Work.restrictions w ∧
    ∀ i m, trows (Db.messages (Work.core w')) !! i = Some m →
      ∃ m0, m = if stops_message r w m0 then stopped_message m0 else m0) as Hgo.
  { intros w1 Em Et Er ->. split_and!; [by rewrite Et|by rewrite Er|]. intros i m. rewrite Em.
    unfold update_messages. cbn [Work.core Db.messages alter_field trows].
    rewrite lookup_fmap. intros (m0 & _ & ->)%fmap_Some. by exists m0. }
  destruct (negb _); cbn [when] in H; minv H; [|by eapply Hgo].
  apply (f_equal snd) in Hm. cbn [snd] in Hm. subst s. eapply Hgo; [..|reflexivity]; reflexivity.
Qed.

Lemma stopped_not_pending r w m0 m :
  m = (if stops_message r w m0 then stopped_message m0 else m0) →
  is_subject r w (TicketOutboundMessage.ticket_id m) = true →
  TicketOutboundMessage.created_by m = None → is_external_outbound_message m = true →
  TicketOutboundMessage.status m ≠ MessageStatus.pending.
Proof.
  destruct (stops_message r w m0) eqn:E; intros ->; [done|]. intros Ht Hc Hx Hst.
  unfold stops_message, has_status in E. rewrite Ht, Hc, Hst in E. unfold is_external_outbound_message, is_external_outbound_channel in Hx.
  unfold _CUSTOMER_DELIVERY_CHANNELS in E. by rewrite Hx in E.
Qed.


(** ** A concrete outbox *)

Module FixMessages.
Definition cfg : OutboundSettings.t :=
  {| OutboundSettings.enable_outbound_dispatch := true; OutboundSettings.outbound_provider := "native";
     OutboundSettings.outbound_email_production_pilot_enabled := false;
     OutboundSettings.outbox_batch_size := 25; OutboundSettings.outbox_lock_seconds := 300;
     OutboundSettings.outbox_max_retries := 3;
     OutboundSettings.allow_legacy_originless_outbound := false |}.

(** The signed reply of FixContract, waiting for delivery on ticket 1 *)
Definition automatic : Message :=
  new_message 1 SourceChannel.whatsapp MessageStatus.pending None FixContract.body (Some "provider_runtime")
    (contract_stamp FixContract.sha FixContract.dumps FixContract.contract
       (FixContract.payload FixContract.contract))
    (Some "queued") None None 3 0 1.
Definition waiting : Work.t :=
  FixWork.idle <| Work.core ::= fun s =>
    s <| Db.messages := {| trows := {[1 := automatic]}; tnext := 2 |} |> |>.

Definition restriction (id : Z) : DataProcessingRestriction.t :=
  {| DataProcessingRestriction.id := id; DataProcessingRestriction.tenant_id := 1;
     DataProcessingRestriction.customer_id := 1; DataProcessingRestriction.status := "active";
     DataProcessingRestriction.blocked_purposes_json := ["Automatic_Outbound"];
     DataProcessingRestriction.allowed_purposes_json := ["human_support"] |}.
Definition restricted : Work.t := snd (add_restriction true restriction waiting).
Definition stopped : Message := stopped_message automatic.
End FixMessages.

