(* ===== verification/Dispatch.v ===== *)
(** * The dispatch of outbound messages

    [services/message_dispatch.py] from the claim on and
    [services/outbound_dispatch_transaction_boundary.py]: the claim of due messages under a
    lease, the attempt on one message, its outcome, the recovery of leases that lapsed, and
    the loop of the worker.

    An attempt runs in one transaction of the session of the worker: [base] is what is
    committed, [view] what the transaction has flushed, [row] the shared message object and
    [ticket] the ticket that was loaded with it; [broken] after a flush has failed.  The adapters that call a provider are
    arguments.  The session is bound to an engine ([_is_sqlalchemy_session]), as in the
    worker; a rollback does not count the readings of the clock. *)

From stdpp Require Import sorting.
From S2P Require Import Prelude Calendar Policy Enums Models Fixtures Tenancy Permissions Sla Customers Tickets.
From S2P Require Import Work Redaction Contracts JobScope Jobs Messages.

#[local] Abbreviation Message := TicketOutboundMessage.t.

(** ** Gates *)

Definition ALLOWED_OUTBOUND_PROVIDERS : list string := ["native"; "smtp"; "email"].

Section Gates.
Context (cfg : OutboundSettings.t).

(** The failure code and the reason *)
Definition _external_dispatch_block_reason : option (string * string) :=
  if negb (OutboundSettings.enable_outbound_dispatch cfg)
  then Some ("outbound_dispatch_disabled", "ENABLE_OUTBOUND_DISPATCH=false blocks external dispatch")
  else if bool_decide (OutboundSettings.outbound_provider cfg = "disabled")
  then Some ("outbound_provider_disabled", "OUTBOUND_PROVIDER=disabled blocks external dispatch")
  else if negb (bool_decide (OutboundSettings.outbound_provider cfg ∈ ALLOWED_OUTBOUND_PROVIDERS))
  then Some ("unsupported_outbound_provider",
             "Unsupported OUTBOUND_PROVIDER: " +:+ OutboundSettings.outbound_provider cfg)
  else None.

Definition ensure_external_dispatch_allowed : result unit :=
  match _external_dispatch_block_reason with
  | Some (_, reason) => Err (RuntimeError reason)
  | None => Ok tt
  end.

Definition is_email_provider : bool :=
  bool_decide (OutboundSettings.outbound_provider cfg ∈ ["email"; "smtp"]).
Definition pilot_disabled : string * string :=
  ("outbound_email_pilot_disabled",
   "OUTBOUND_EMAIL_PRODUCTION_PILOT_ENABLED=false blocks SMTP dispatch").

Definition _runtime_dispatch_block_reason : option (string * string) :=
  match _external_dispatch_block_reason with
  | Some blocked => Some blocked
  | None =>
      if is_email_provider && negb (OutboundSettings.outbound_email_production_pilot_enabled cfg)
      then Some pilot_disabled else None
  end.

Definition _message_dispatch_block_reason (m : Message) : option (string * string) :=
  if negb (bool_decide (TicketOutboundMessage.channel m = SourceChannel.email)) then None
  else if negb is_email_provider
  then Some ("outbound_email_provider_not_authorized",
             "Email dispatch requires OUTBOUND_PROVIDER=email or smtp")
  else if negb (OutboundSettings.outbound_email_production_pilot_enabled cfg)
  then Some pilot_disabled else None.
End Gates.

(** ** The channel account of a ticket *)

Definition provider_values : list string := ["whatsapp"; "telegram"; "sms"].
Definition native_account (a : ChannelAccount.t) : bool :=
  bool_decide (ChannelAccount.provider a ∈ provider_values) && ChannelAccount.is_active a.

(** [query.first()], in the order of the ids where the code states none *)
Definition accounts (s : Db.t) (p : ChannelAccount.t → bool) : list ChannelAccount.t :=
  select p {| trows := Directory.accounts (Db.dir s); tnext := 0 |}.
(** [ORDER BY priority, id] *)
Definition preferred (a b : ChannelAccount.t) : bool :=
  (ChannelAccount.priority a <? ChannelAccount.priority b) ||
  ((ChannelAccount.priority a =? ChannelAccount.priority b) &&
   (ChannelAccount.id a <=? ChannelAccount.id b)).

(** [a] or the next row *)
Definition or_else {A} (a b : option A) : option A := match a with Some x => Some x | None => b end.

Definition _resolve_channel_account (s : Db.t) (market_id : option Z) (account_id : option string)
    : option ChannelAccount.t :=
  let named := if truthy_str account_id
               then head (accounts s (fun a => bool_decide (Some (ChannelAccount.account_id a) = account_id) &&
                                               native_account a))
               else None in
  let of_market m := head (sort_by preferred (accounts s (fun a =>
                       native_account a && bool_decide (ChannelAccount.market_id a = m)))) in
  or_else named (or_else (match market_id with Some _ => of_market market_id | None => None end)
                         (of_market None)).

Definition _resolve_first_send_channel_account (s : Db.t) (ticket : option Ticket.t)
    : option ChannelAccount.t :=
  match ticket with
  | None => None
  | Some t =>
      or_else (if truthy_id (Ticket.channel_account_id t)
               then head (accounts s (fun a =>
                      bool_decide (Some (ChannelAccount.id a) = Ticket.channel_account_id t) &&
                      ChannelAccount.is_active a))
               else None)
              (_resolve_channel_account s (Ticket.market_id t) None)
  end.

(** ** The claim *)

(** [ORDER BY created_at], in the order of the ids where it leaves a choice *)
Definition earlier (a b : Message) : bool :=
  TicketOutboundMessage.created_at a <=? TicketOutboundMessage.created_at b.
Definition in_order (p : Message → bool) (w : Work.t) : list Message :=
  sort_by earlier (select p (Db.messages (Work.core w))).

Section Claim.
Context (cfg : OutboundSettings.t).

Definition lock_deadline (now : Z) : Z := now - seconds (OutboundSettings.outbox_lock_seconds cfg).
Definition batch (limit : option Z) : nat :=
  Z.to_nat (int_or limit (OutboundSettings.outbox_batch_size cfg)).

Definition lapsed (now : Z) (m : Message) : bool :=
  match TicketOutboundMessage.locked_at m with None => true | Some t => t <? lock_deadline now end.
Definition due (now : Z) (m : Message) : bool :=
  match TicketOutboundMessage.next_retry_at m with None => true | Some t => t <=? now end.
Definition pending_filters (now : Z) (m : Message) : bool :=
  is_external_outbound_message m && has_status MessageStatus.pending m && due now m && lapsed now m.

Definition claimed_by (worker_id : string) (now : Z) (m : Message) : Message :=
  m <| TicketOutboundMessage.status := MessageStatus.processing |>
    <| TicketOutboundMessage.locked_at := Some now |>
    <| TicketOutboundMessage.locked_by := Some worker_id |>.

Definition candidate_ids (locked : Z → bool) (limit : option Z) (now : Z) (w : Work.t) : list Z :=
  TicketOutboundMessage.id <$>
    take (batch limit)
      (in_order (fun m => pending_filters now m && negb (locked (TicketOutboundMessage.id m))) w).

(** The rows that the caller gets *)
Definition claimed_rows (ids : list Z) (w : Work.t) : list Message :=
  in_order (fun m => bool_decide (TicketOutboundMessage.id m ∈ ids)) w.

(** The branch for PostgreSQL: the rows that other transactions have locked are skipped,
    the others stay locked until they are updated. *)
Definition claim_pending_messages (locked : Z → bool) (limit : option Z) (worker_id : string)
    : M Work.t (list Message) := fun w =>
  let at_time := Db.clock (Work.core w) (Db.ticks (Work.core w)) in
  match candidate_ids locked limit at_time w with
  | [] => (Ok [], w)
  | ids =>
      let w := update_messages (fun m => if bool_decide (TicketOutboundMessage.id m ∈ ids)
                                         then claimed_by worker_id at_time m else m)
                 (snd (now w)) in
      (Ok (claimed_rows ids w), w)
  end.

(** The other branch: no locks; a row is claimed by an [UPDATE] that checks it again in [w'],
    the database at the update, after the query has seen [w]. *)
Definition claim_pending_messages_cas (limit : option Z) (worker_id : string) (at_time : Z)
    (w w' : Work.t) : list Message * Work.t :=
  let ids := candidate_ids (fun _ => false) limit at_time w in
  let free m := bool_decide (TicketOutboundMessage.id m ∈ ids) && pending_filters at_time m in
  match TicketOutboundMessage.id <$> select free (Db.messages (Work.core w')) with
  | [] => ([], w')
  | hits =>
      let w2 := update_messages (fun m => if free m then claimed_by worker_id at_time m else m) w' in
      (claimed_rows hits w2, w2)
  end.
End Claim.

(** ** The session of an attempt *)

Module Session.
Record t := {
  base : Work.t; view : Work.t; row : Message; ticket : option Ticket.t; dirty : bool; broken : bool }.
#[global] Instance eta : Settable t := fun r => {|
  base := base r; view := view r; row := row r; ticket := ticket r; dirty := dirty r;
  broken := broken r |}.
End Session.

(** Attribute assignments on the message object *)
Definition assign (f : Message → Message) : M Session.t unit :=
  modify (fun s => s <| Session.row ::= f |> <| Session.dirty := true |>).

(** Run against the state of the transaction *)
Definition on_view {A} (m : M Work.t A) : M Session.t A := fun s =>
  let (r, w) := m (Session.view s) in (r, s <| Session.view := w |>).

Definition clock : M Session.t Z := on_view now.

(** [db.rollback()] *)
Definition rollback (s : Session.t) : Session.t :=
  s <| Session.view := Session.base s |> <| Session.broken := false |>.

(** A statement in a session whose flush has failed raises until a rollback. *)
Definition usable : M Session.t unit :=
  s ← get; require (negb (Session.broken s)) PendingRollbackError.

(** What an adapter reports *)
Module DispatchResult.
Record t := {
  status : MessageStatus.t; provider_status : option string; sent_at : option Z;
  route_context : list (string * json) }.
End DispatchResult.

(** The adapters of the providers: they get the session with the message and the ticket, and
    the idempotency key *)
Module Adapters.
Record t := {
  whatsapp : string → M Session.t DispatchResult.t;
  email : string → M Session.t DispatchResult.t }.
End Adapters.

Definition as_text (v : json) : option string := match v with JStr s => Some s | _ => None end.
Definition some_text (s : string) : option string := if nonempty s then Some s else None.

Definition _provider_idempotency_key (m : Message) : string :=
  "nexusdesk-outbound-" +:+ pretty (TicketOutboundMessage.id m).

Section Dispatch.
Context (sha256_hex : string → string) (hmac_sha256_hex : string → string → string).
Context (dumps : json → string) (contract : ContractSettings.t) (guarded : bool).
Context (cfg : OutboundSettings.t).

#[local] Abbreviation flush_message := (flush_message sha256_hex dumps guarded).
#[local] Abbreviation enforce := (_enforce_customer_visible_origin sha256_hex hmac_sha256_hex dumps contract).

(** [db.flush()] *)
Definition flush : M Session.t unit :=
  usable;;
  s ← get;
  when (Session.dirty s)
    (try_catch (on_view (flush_message (Session.row s)))
       (fun e => modify (fun s => rollback s <| Session.broken := true |>);; raise e);;
     modify (fun s => s <| Session.dirty := false |>)).

(** [log_event], which flushes the session *)
Definition log (t : EventType.t) (note : string) (payload : list (string * json)) : M Session.t unit :=
  m ← gets Session.row;
  flush;;
  on_view (on_core (log_event
    {| TicketEvent.ticket_id := TicketOutboundMessage.ticket_id m;
       TicketEvent.actor_id := TicketOutboundMessage.created_by m; TicketEvent.event_type := t;
       TicketEvent.field_name := None; TicketEvent.old_value := None; TicketEvent.new_value := None;
       TicketEvent.note := Some note;
       TicketEvent.payload_json := JObj (("message_id", JNum (TicketOutboundMessage.id m)) :: payload) |})).

Definition mark_dead (reason failure_code : string) : M Session.t unit :=
  now ← clock; assign (_mark_dead reason failure_code now).

Definition mark_retry (reason : string) (failure_code : option string) : M Session.t unit :=
  m ← gets Session.row;
  m ← on_view (retried reason failure_code m);
  assign (fun _ => m).

(** The type of the event after [_mark_retry] *)
Definition retry_event : M Session.t EventType.t :=
  gets (fun s => if has_status MessageStatus.dead (Session.row s)
                 then EventType.outbound_dead else EventType.outbound_retry_scheduled).

(** *** The outcome that an adapter reports *)

Definition mark_sent (r : DispatchResult.t) : M Session.t unit :=
  let route := JObj (DispatchResult.route_context r) in
  let transport := py_strip (text_of (json_get "transport" route)) in
  sent_at ← (match DispatchResult.sent_at r with Some t => mret t | None => clock end);
  now ← clock;
  assign (_mark_sent (DispatchResult.provider_status r) sent_at now
            (some_text (py_strip (text_of (json_get "provider_message_id" route))))
            (Some (if nonempty transport then "whatsapp_" +:+ transport
                   else py_str (json_or (json_get "adapter" route) (JStr "provider"))))).

Definition waits_for_customer (t : Ticket.t) : Ticket.t :=
  t <| Ticket.conversation_state := ConversationState.waiting_customer |>.

Definition _handle_dispatch_result (r : DispatchResult.t) : M Session.t unit :=
  let route := JObj (DispatchResult.route_context r) in
  if decide (DispatchResult.status r = MessageStatus.sent) then
    mark_sent r;;
    s ← get;
    (match Session.ticket s with
     | Some t => on_view (on_core (set_ticket (Ticket.id t) waits_for_customer));;
                 modify (fun s => s <| Session.ticket := Some (waits_for_customer t) |>)
     | None => mret tt
     end);;
    log EventType.outbound_sent "Queued outbound message sent"
      [("provider_status", jopt (DispatchResult.provider_status r)); ("route", route)]
  else
    let error := as_text (json_get "error" route) in
    let reason := if truthy_str error then str_or error EmptyString
                  else str_or (DispatchResult.provider_status r) "Dispatch failed" in
    let failure_code := as_text (json_get "failure_code" route) in
    event ←
      (if decide (json_get "retryable" route = JBool false)
       then mark_dead reason (default "non_retryable_dispatch_error" failure_code);;
            mret (EventType.outbound_dead,
                  "Queued outbound message failed dispatch with non-retryable error")
       else mark_retry reason failure_code;;
            t ← retry_event;
            mret (t, "Queued outbound message failed dispatch"));
    m ← gets Session.row;
    log (fst event) (snd event)
      [("error", jopt (TicketOutboundMessage.failure_reason m));
       ("retry_count", JNum (TicketOutboundMessage.retry_count m)); ("route", route)].

(** *** The attempt *)

(** Also the outcome [_mark_origin_blocked] *)
Definition block (reason failure_code : string) (t : EventType.t) (note : string)
    (payload : Message → list (string * json)) : M Session.t unit :=
  mark_dead reason failure_code;;
  m ← gets Session.row;
  log t note (payload m).

Definition texts_of (l : list string) : json := JArr (JStr <$> l).

(** [true]: the message may be sent *)
Definition _enforce_customer_visible_policy : M Session.t bool :=
  m ← gets Session.row;
  let decision := evaluate_customer_visible_policy (TicketOutboundMessage.body m) in
  let level := JStr (CustomerVisiblePolicyDecision.level decision) in
  let reasons := texts_of (CustomerVisiblePolicyDecision.reasons decision) in
  if negb (CustomerVisiblePolicyDecision.allowed decision) then
    block (format_policy_reasons decision) "customer_visible_policy_blocked" EventType.outbound_failed
      "Customer-visible content policy blocked outbound message"
      (fun _ => [("policy_level", level); ("reasons", reasons)]);;
    mret false
  else
    let origin := _normalize_customer_visible_origin (TicketOutboundMessage.origin m)
                    (TicketOutboundMessage.created_by m) in
    let body := CustomerVisiblePolicyDecision.normalized_body decision in
    if bool_decide (origin ∈ AI_ORIGINS) && truthy_str (TicketOutboundMessage.runtime_signature m) then
      if bool_decide (body = TicketOutboundMessage.body m) then mret true
      else
        block "Signed AI outbound body changed after runtime signature" "runtime_signed_body_mutation"
          EventType.outbound_failed "Signed AI outbound body mutation blocked"
          (fun _ => [("safety_level", level); ("reasons", reasons)]);;
        mret false
    else assign (fun m => m <| TicketOutboundMessage.body := body |>);; mret true.

Context (adapters : Adapters.t).

Definition _dispatch_email_message (key : string) : M Session.t DispatchResult.t :=
  try_catch
    (s ← get;
     assign (ensure_outbound_mailbox_identity (Session.ticket s) true);;
     flush;;
     Adapters.email adapters key)
    (fun e => match e with
              | ValueError code =>
                  mret {| DispatchResult.status := MessageStatus.failed;
                          DispatchResult.provider_status := Some code; DispatchResult.sent_at := None;
                          DispatchResult.route_context :=
                            [("channel", JStr "email"); ("adapter", JStr "smtp");
                             ("idempotency_key", JStr key); ("failure_code", JStr code);
                             ("error", JStr code)] |}
              | _ => raise e
              end).

Definition text_of_ticket (k : string) (t : Ticket.t) : option string := Ticket.texts t !! k.

(** [ticket.source_chat_id or ticket.preferred_reply_contact or customer.phone] *)
Definition target_of (s : Db.t) (ticket : option Ticket.t) : option string :=
  match ticket with
  | None => None
  | Some t =>
      if truthy_str (text_of_ticket "source_chat_id" t) then text_of_ticket "source_chat_id" t
      else if truthy_str (text_of_ticket "preferred_reply_contact" t)
      then text_of_ticket "preferred_reply_contact" t
      else customer ← (c ← Ticket.customer_id t; table_get (Db.customers s) c); Customer.phone customer
  end.

Definition no_target (key : string) : M Session.t unit :=
  mark_retry "No target address available" None;;
  t ← retry_event;
  m ← gets Session.row;
  log t "Queued outbound message could not resolve target"
    [("idempotency_key", JStr key); ("error", jopt (TicketOutboundMessage.failure_reason m));
     ("retry_count", JNum (TicketOutboundMessage.retry_count m))].

(** The channels without a provider of their own *)
Definition unsupported_channel (key : string) : M Session.t unit :=
  s ← get;
  let db := Work.core (Session.view s) in
  let channel := value (TicketOutboundMessage.channel (Session.row s)) in
  match target_of db (Session.ticket s) with
  | Some target =>
      if nonempty target then
        let account := _resolve_first_send_channel_account db (Session.ticket s) in
        _handle_dispatch_result
          {| DispatchResult.status := MessageStatus.failed;
             DispatchResult.provider_status := Some "unsupported_delivery_channel";
             DispatchResult.sent_at := None;
             DispatchResult.route_context :=
               [("channel", JStr channel); ("account_id", jopt (ChannelAccount.account_id <$> account));
                ("target", JStr target); ("idempotency_key", JStr key);
                ("source", JStr "ticket_or_market"); ("adapter", JStr "unsupported_delivery_channel");
                ("failure_code", JStr "unsupported_delivery_channel");
                ("error", JStr ("No native dispatcher is configured for channel " +:+ channel));
                ("retryable", JBool false)] |}
      else no_target key
  | None => no_target key
  end.

(** The message may go out in the name of its origin *)
Definition check_origin (m : Message) (ticket : option Ticket.t) : result unit :=
  let has_origin_contract := truthy_str (TicketOutboundMessage.origin m) ||
                             truthy_str (TicketOutboundMessage.runtime_contract_version m) ||
                             not_null (TicketOutboundMessage.created_by m) in
  if negb has_origin_contract then
    if OutboundSettings.allow_legacy_originless_outbound cfg then Ok tt
    else Err (ValueError "missing_customer_visible_origin_contract")
  else enforce (TicketOutboundMessage.body m)
         (_normalize_customer_visible_origin (TicketOutboundMessage.origin m)
            (TicketOutboundMessage.created_by m))
         ticket (TicketOutboundMessage.created_by m) (stamp_of m).

(** The call of the adapter of the channel *)
Definition call_provider (channel : SourceChannel.t) (key : string) : M Session.t unit :=
  match channel with
  | SourceChannel.whatsapp => r ← Adapters.whatsapp adapters key; _handle_dispatch_result r
  | SourceChannel.email => r ← _dispatch_email_message key; _handle_dispatch_result r
  | _ => unsupported_channel key
  end.

Definition process_outbound_message : M Session.t unit :=
  s ← get;
  let m := Session.row s in
  if has_status MessageStatus.sent m then mret tt
  else if negb (is_external_outbound_message m) then
    block "Non-external outbound row is not eligible for provider dispatch"
      "non_external_outbound_not_dispatchable" EventType.outbound_dead
      "Non-external outbound row was blocked from provider dispatch"
      (fun m => [("channel", JStr (value (TicketOutboundMessage.channel m)));
                 ("provider_status", jopt (TicketOutboundMessage.provider_status m))])
  else match check_origin m (Session.ticket s) with
  | Err (ValueError reason) =>
      block reason reason EventType.outbound_dead
        "Customer-visible outbound origin contract blocked dispatch"
        (fun m => [("origin", jopt (TicketOutboundMessage.origin m)); ("failure_code", JStr reason);
                   ("required_contract", JStr AI_REPLY_CONTRACT)])
  | Err e => raise e
  | Ok _ =>
      match _external_dispatch_block_reason cfg with
      | Some (failure_code, reason) =>
          block reason failure_code EventType.outbound_dead
            "External outbound dispatch blocked by runtime kill switch"
            (fun _ => [("failure_code", JStr failure_code);
                       ("outbound_provider", JStr (OutboundSettings.outbound_provider cfg));
                       ("enable_outbound_dispatch", JBool (OutboundSettings.enable_outbound_dispatch cfg))])
      | None =>
          allowed ← _enforce_customer_visible_policy;
          if (allowed : bool)
          then call_provider (TicketOutboundMessage.channel m) (_provider_idempotency_key m)
          else mret tt
      end
  end.

(** ** The transactions of the worker *)

Definition _claim_token (worker_id : option string) (uuid4_hex : string) : string :=
  let prefix := py_strip (str_or worker_id "outbound-worker") in
  str_take 80 (if nonempty prefix then prefix else "outbound-worker") +:+ ":" +:+ uuid4_hex.

Definition _exception_reason (e : exc) : string := "Unhandled dispatch exception: " +:+ exc_name e.

Definition _owns_message_lease (lease_token : string) (message_id : Z) (w : Work.t) : bool :=
  match message_at w message_id with
  | Some m => bool_decide (TicketOutboundMessage.locked_by m = Some lease_token) &&
              has_status MessageStatus.processing m
  | None => false
  end.

(** The conditional [UPDATE], and its commit or rollback *)
Definition _refresh_message_lease (lease_token : string) (message_id : Z) (w : Work.t) : bool * Work.t :=
  let at_time := Db.clock (Work.core w) (Db.ticks (Work.core w)) in
  if _owns_message_lease lease_token message_id w then
    (true, update_messages (fun m => if decide (TicketOutboundMessage.id m = message_id)
                                     then m <| TicketOutboundMessage.locked_at := Some at_time |> else m)
             (snd (now w)))
  else (false, w).

(** Some message was written, none was, or an exception has left the worker; the database as
    it is committed *)
Definition Committed : Type := result bool * Work.t.

(** [db.commit()]: flush and commit *)
Definition commit (body : M Session.t unit) (s : Session.t) : Committed :=
  match (body;; flush) s with
  | (Ok _, s') => (Ok true, Session.view s')
  | (Err e, s') => (Err e, Session.base s')
  end.

Definition open_session (m : Message) (ticket : option Ticket.t) (w : Work.t) : Session.t :=
  {| Session.base := w; Session.view := w; Session.row := m; Session.ticket := ticket;
     Session.dirty := false; Session.broken := false |}.

(** After the rollback, in the same session *)
Definition _recover_unhandled_dispatch_exception (message_id : Z) (lease_token : string) (e : exc)
    (w : Work.t) : Committed :=
  if _owns_message_lease lease_token message_id w then
    match message_at w message_id with
    | None => (Ok false, w)
    | Some m =>
        commit (mark_retry (_exception_reason e) None;;
                t ← retry_event;
                m ← gets Session.row;
                log t "Queued outbound message failed dispatch with unhandled exception"
                  [("error_type", JStr (exc_name e));
                   ("failure_code", jopt (TicketOutboundMessage.failure_code m));
                   ("retry_count", JNum (TicketOutboundMessage.retry_count m))])
          (open_session m None w)
    end
  else (Ok false, w).

Definition _mark_runtime_blocked_message (failure_code reason : string) : M Session.t unit :=
  block reason failure_code EventType.outbound_dead
    "External outbound message blocked by runtime capability authority"
    (fun _ => [("failure_code", JStr failure_code);
               ("outbound_provider", JStr (OutboundSettings.outbound_provider cfg));
               ("outbound_email_production_pilot_enabled",
                JBool (OutboundSettings.outbound_email_production_pilot_enabled cfg))]).

Definition try_message (lease_token : string) (s : Session.t) : Committed :=
  let id := TicketOutboundMessage.id (Session.row s) in
  match process_outbound_message s with
  | (Ok _, s') =>
      if Session.broken s'
      then _recover_unhandled_dispatch_exception id lease_token PendingRollbackError (Session.base s')
      else if _owns_message_lease lease_token id (Session.view s') then commit (mret tt) s'
      else (Ok false, Session.base s')
  | (Err e, s') => _recover_unhandled_dispatch_exception id lease_token e (Session.base s')
  end.

(** One turn of the loop, for a message and its ticket as the worker has loaded them.  The
    message is read again after the refresh: while the lease holds, no other session writes
    the row. *)
Definition attempt (lease_token : string) (m : Message) (ticket : option Ticket.t) (w : Work.t)
    : Committed :=
  let id := TicketOutboundMessage.id m in
  let (held, w) := _refresh_message_lease lease_token id w in
  if held then
    let m := default m (message_at w id) in
    match _message_dispatch_block_reason cfg m with
    | Some (failure_code, reason) =>
        commit (_mark_runtime_blocked_message failure_code reason) (open_session m ticket w)
    | None => try_message lease_token (open_session m ticket w)
    end
  else (Ok false, w).

(** *** Leases that lapsed *)

Definition stale (now : Z) (m : Message) : bool :=
  is_external_outbound_message m && has_status MessageStatus.processing m && lapsed cfg now m.
Definition stale_batch (locked : Z → bool) (limit : option Z) (now : Z) (w : Work.t) : list Message :=
  take (batch cfg limit) (in_order (fun m => stale now m && negb (locked (TicketOutboundMessage.id m))) w).

(** [json.dumps] of a column of type [DateTime] *)
Definition json_of_time (t : option Z) : result json :=
  match t with
  | None => Ok JNull
  | Some _ => Err (TypeError "Object of type datetime is not JSON serializable")
  end.

Definition reclaim (m : Message) : M Work.t unit :=
  m' ← retried "Previous outbound worker lease expired before a terminal result"
         (Some "worker_lease_expired") m;
  previous_locked_at ← lift (json_of_time (TicketOutboundMessage.locked_at m));
  flush_message m';;
  on_core (log_event
    {| TicketEvent.ticket_id := TicketOutboundMessage.ticket_id m';
       TicketEvent.actor_id := TicketOutboundMessage.created_by m';
       TicketEvent.event_type := if has_status MessageStatus.dead m' then EventType.outbound_dead
                                 else EventType.outbound_retry_scheduled;
       TicketEvent.field_name := None; TicketEvent.old_value := None; TicketEvent.new_value := None;
       TicketEvent.note := Some "Expired outbound processing attempt was recovered";
       TicketEvent.payload_json := JObj
         [("message_id", JNum (TicketOutboundMessage.id m'));
          ("failure_code", jopt (TicketOutboundMessage.failure_code m'));
          ("retry_count", JNum (TicketOutboundMessage.retry_count m'));
          ("previous_worker", jopt (TicketOutboundMessage.locked_by m));
          ("previous_locked_at", previous_locked_at)] |}).

(** One transaction *)
Definition reclaim_stale_processing_messages (locked : Z → bool) (limit : option Z) (w : Work.t)
    : result Z * Work.t :=
  let at_time := Db.clock (Work.core w) (Db.ticks (Work.core w)) in
  let rows := stale_batch locked limit at_time w in
  match iterM reclaim rows (snd (now w)) with
  | (Ok _, w') => (Ok (Z.of_nat (length rows)), w')
  | (Err e, _) => (Err e, w)
  end.

(** *** The loop *)

(** The ids of the messages that were processed, in order *)
Fixpoint attempts (lease_token : string) (ms : list Message) (w : Work.t) : result (list Z) * Work.t :=
  match ms with
  | [] => (Ok [], w)
  | m :: ms =>
      match attempt lease_token m (ticket_at (Work.core w) (TicketOutboundMessage.ticket_id m)) w with
      | (Err e, w) => (Err e, w)
      | (Ok written, w) =>
          match attempts lease_token ms w with
          | (Err e, w) => (Err e, w)
          | (Ok ids, w) => (Ok (if (written : bool) then TicketOutboundMessage.id m :: ids else ids), w)
          end
      end
  end.

Definition dispatch_pending_messages (locked : Z → bool) (limit : option Z) (worker_id : option string)
    (uuid4_hex : string) (w : Work.t) : result (list Z) * Work.t :=
  match _runtime_dispatch_block_reason cfg with
  | Some _ => (Ok [], w)
  | None =>
      match reclaim_stale_processing_messages locked limit w with
      | (Err e, w) => (Err e, w)
      | (Ok _, w) =>
          let token := _claim_token worker_id uuid4_hex in
          match claim_pending_messages cfg locked limit token w with
          | (Err e, w) => (Err e, w)
          | (Ok ms, w) => attempts token ms w
          end
      end
  end.
End Dispatch.

(** ** Facts *)

(** What the dispatch relies on: an adapter does not commit, and keeps the message in the
    session. *)
Definition fixed (b : Work.t) (i : Z) (s : Session.t) : Prop :=
  Session.base s = b ∧ TicketOutboundMessage.id (Session.row s) = i.
Class AdapterLaws (adapters : Adapters.t) : Prop := {
  whatsapp_fixed key b i : preserves (fixed b i) (Adapters.whatsapp adapters key);
  email_fixed key b i : preserves (fixed b i) (Adapters.email adapters key) }.

Section DispatchFacts.
Context (sha256_hex : string → string) (hmac_sha256_hex : string → string → string).
Context (dumps : json → string) (contract : ContractSettings.t) (guarded : bool).
Context (cfg : OutboundSettings.t) (adapters : Adapters.t).

#[local] Abbreviation flush := (flush sha256_hex dumps guarded).
#[local] Abbreviation log := (log sha256_hex dumps guarded).
#[local] Abbreviation block := (block sha256_hex dumps guarded).
#[local] Abbreviation handle := (_handle_dispatch_result sha256_hex dumps guarded).
#[local] Abbreviation policy := (_enforce_customer_visible_policy sha256_hex dumps guarded).
#[local] Abbreviation process :=
  (process_outbound_message sha256_hex hmac_sha256_hex dumps contract guarded cfg adapters).

(** *** The committed state and the identity of the message *)

Lemma fixed_on_view {A} b i (m : M Work.t A) : preserves (fixed b i) (on_view m).
Proof using Type. intros s Hs. unfold on_view. by destruct (m (Session.view s)). Qed.
Lemma fixed_clock b i : preserves (fixed b i) clock.
Proof using Type. apply fixed_on_view. Qed.
Lemma fixed_assign b i f :
  (∀ m, TicketOutboundMessage.id (f m) = TicketOutboundMessage.id m) → preserves (fixed b i) (assign f).
Proof using Type. intros H s [Hb Hi]. split; [done|]. cbn. by rewrite H. Qed.
Lemma fixed_flush b i : preserves (fixed b i) flush.
Proof using Type.
  unfold Dispatch.flush, usable. preserve; try apply fixed_on_view; apply preserves_modify; by intros s [Hb Hi].
Qed.
#[local] Hint Resolve fixed_on_view fixed_clock fixed_flush : nexus.
Lemma fixed_log b i t note payload : preserves (fixed b i) (log t note payload).
Proof using Type. unfold Dispatch.log. preserve. Qed.
Lemma fixed_mark_dead b i reason code : preserves (fixed b i) (mark_dead reason code).
Proof using Type. unfold mark_dead. preserve. by apply fixed_assign. Qed.

Lemma id_mark_retry reason code n n' m :
  TicketOutboundMessage.id (_mark_retry reason code n n' m) = TicketOutboundMessage.id m.
Proof using Type. unfold _mark_retry. cbv zeta. by destruct (_ <=? _). Qed.

Lemma retried_id reason code m :
  hoare (fun _ => True) (retried reason code m)
    (fun m' _ => TicketOutboundMessage.id m' = TicketOutboundMessage.id m ∧
                 TicketOutboundMessage.locked_by m' = None) (fun _ _ => True).
Proof using Type.
  assert (∀ n n', TicketOutboundMessage.id (_mark_retry reason code n n' m) = TicketOutboundMessage.id m ∧
    TicketOutboundMessage.locked_by (_mark_retry reason code n n' m) = None) as H.
  { intros. split; [apply id_mark_retry|]. unfold _mark_retry. cbv zeta. by destruct (_ <=? _). }
  intros w _. unfold retried, now, on_core, utc_now, mbind, M_bind. cbn.
  by destruct (_ <=? _); apply H.
Qed.

Lemma fixed_mark_retry b i reason code : preserves (fixed b i) (mark_retry reason code).
Proof using Type.
  unfold mark_retry. intros s [Hb Hi]. unfold mbind, M_bind, gets, on_view.
  pose proof (retried_id reason code (Session.row s) (Session.view s) I) as H.
  destruct (retried _ _ _ _) as [[m'|e] w]; cbn; [|by split]. destruct H as [H _]. split; cbn; congruence.
Qed.
Lemma fixed_retry_event b i : preserves (fixed b i) retry_event.
Proof using Type. apply preserves_gets. Qed.
#[local] Hint Resolve fixed_log fixed_mark_dead fixed_mark_retry fixed_retry_event : nexus.
Lemma fixed_block b i reason code t note payload : preserves (fixed b i) (block reason code t note payload).
Proof using Type. unfold Dispatch.block. preserve. Qed.
#[local] Hint Resolve fixed_block : nexus.

Lemma fixed_mark_sent b i r : preserves (fixed b i) (mark_sent r).
Proof using Type.
  unfold mark_sent. preserve. apply fixed_assign. intros m. unfold _mark_sent. cbv zeta.
  by destruct (truthy_str _), (truthy_str _).
Qed.
#[local] Hint Resolve fixed_mark_sent : nexus.
Lemma fixed_handle b i r : preserves (fixed b i) (handle r).
Proof using Type. unfold _handle_dispatch_result. preserve. apply preserves_modify. by intros s [Hb Hi]. Qed.
#[local] Hint Resolve fixed_handle : nexus.
Lemma fixed_policy b i : preserves (fixed b i) policy.
Proof using Type. unfold _enforce_customer_visible_policy. preserve. by apply fixed_assign. Qed.
#[local] Hint Resolve fixed_policy : nexus.

Lemma fixed_process `{!AdapterLaws adapters} b i : preserves (fixed b i) process.
Proof using Type.
  unfold process_outbound_message, call_provider, unsupported_channel, no_target, _dispatch_email_message.
  preserve; try apply whatsapp_fixed; try apply email_fixed.
  apply fixed_assign. intros m. unfold ensure_outbound_mailbox_identity. cbv zeta. by destruct (_ && _).
Qed.

(** *** An attempt that returns has released the message and flushed it *)

Definition released (s : Session.t) : Prop :=
  Session.dirty s = true ∧ TicketOutboundMessage.locked_by (Session.row s) = None.
Definition settled (s : Session.t) : Prop :=
  Session.broken s = false ∧ TicketOutboundMessage.locked_by (Session.row s) = None ∧
  message_at (Session.view s) (TicketOutboundMessage.id (Session.row s)) = Some (Session.row s).

Lemma flush_settles : hoare released flush (fun _ => settled) (fun _ _ => True).
Proof using Type.
  intros [b w m t d br] [Hd Hl]. cbn in Hd, Hl. subst d. destruct br; [done|].
  unfold Dispatch.flush, usable, try_catch, on_view, mbind, M_bind, get, require, when, modify, mret, M_ret. cbn.
  destruct (flush_message_cases sha256_hex dumps guarded m w) as [->|[e ->]]; [|done].
  split_and!; [done|done|apply message_at_put].
Qed.

Lemma log_settles t note payload : hoare released (log t note payload) (fun _ => settled) (fun _ _ => True).
Proof using Type.
  unfold Dispatch.log. eapply hoare_bind; [apply (hoare_gets _ _ (fun _ => released)); done|]. intros m.
  eapply hoare_bind; [apply flush_settles|]. intros [] s Hs. exact Hs.
Qed.

Lemma mark_dead_releases P reason code : hoare P (mark_dead reason code) (fun _ => released) (fun _ _ => True).
Proof using Type. by intros s _. Qed.

Lemma mark_retry_releases P reason code : hoare P (mark_retry reason code) (fun _ => released) (fun _ _ => True).
Proof using Type.
  intros s _. unfold mark_retry, mbind, M_bind, gets, on_view.
  pose proof (retried_id reason code (Session.row s) (Session.view s) I) as H.
  destruct (retried _ _ _ _) as [[m'|e] w]; [|done]. by destruct H.
Qed.

Lemma mark_sent_releases P r : hoare P (mark_sent r) (fun _ => released) (fun _ _ => True).
Proof using Type.
  assert (∀ ps t n a b m, TicketOutboundMessage.locked_by (_mark_sent ps t n a b m) = None) as H.
  { intros. unfold _mark_sent. cbv zeta. by destruct (truthy_str _), (truthy_str _). }
  intros s _. unfold mark_sent. cbv zeta. destruct (DispatchResult.sent_at r); (split; [done|apply H]).
Qed.

Lemma block_settles P reason code t note payload :
  hoare P (block reason code t note payload) (fun _ => settled) (fun _ _ => True).
Proof using Type.
  unfold Dispatch.block. eapply hoare_bind; [apply mark_dead_releases|]. intros [].
  eapply hoare_bind; [apply (hoare_gets _ _ (fun _ => released)); done|]. intros m. apply log_settles.
Qed.

Lemma handle_settles P r : hoare P (handle r) (fun _ => settled) (fun _ _ => True).
Proof using Type.
  unfold _handle_dispatch_result. cbv zeta. case_decide.
  - eapply hoare_bind; [apply mark_sent_releases|]. intros [].
    eapply hoare_bind; [apply (hoare_gets _ (fun s => s) (fun _ => released)); done|]. intros s.
    apply (hoare_bind _ _ _ (fun _ => released)); [|intros []; apply log_settles].
    destruct (Session.ticket s) as [t|]; [|by apply hoare_ret].
    apply (hoare_bind _ _ _ (fun _ => released)); [|intros []; by apply (hoare_modify released)].
    intros s1 H1. unfold on_view. by destruct (on_core _ _) as [[]].
  - eapply hoare_bind.
    { instantiate (1 := fun _ => released). case_decide.
      - eapply hoare_bind; [apply mark_dead_releases|]. intros []. by apply hoare_ret.
      - eapply hoare_bind; [apply mark_retry_releases|]. intros [].
        eapply hoare_bind; [apply (hoare_gets _ _ (fun _ => released)); done|]. intros t. by apply hoare_ret. }
    intros ev. eapply hoare_bind; [apply (hoare_gets _ _ (fun _ => released)); done|]. intros m. apply log_settles.
Qed.

Lemma no_target_settles P key : hoare P (no_target sha256_hex dumps guarded key) (fun _ => settled) (fun _ _ => True).
Proof using Type.
  unfold no_target. eapply hoare_bind; [apply mark_retry_releases|]. intros [].
  eapply hoare_bind; [apply (hoare_gets _ _ (fun _ => released)); done|]. intros t.
  eapply hoare_bind; [apply (hoare_gets _ _ (fun _ => released)); done|]. intros m. apply log_settles.
Qed.

Lemma policy_settles P :
  hoare P policy (fun allowed s => allowed = false → settled s) (fun _ _ => True).
Proof using Type.
  unfold _enforce_customer_visible_policy. eapply hoare_bind; [apply (hoare_gets _ _ (fun _ _ => True)); done|].
  intros m. cbv zeta. destruct (negb _).
  { eapply hoare_bind; [apply block_settles|]. intros []. by apply hoare_ret. }
  destruct (_ && _); [case_bool_decide; [by apply hoare_ret|]|].
  - eapply hoare_bind; [apply block_settles|]. intros []. by apply hoare_ret.
  - eapply hoare_bind; [by apply (hoare_modify _ _ (fun _ _ => True))|]. intros []. by apply hoare_ret.
Qed.

Lemma skip {A B} P (m : M Session.t A) (k : A → M Session.t B) Q :
  (∀ a, hoare (fun _ => True) (k a) Q (fun _ _ => True)) → hoare P (m ≫= k) Q (fun _ _ => True).
Proof using Type.
  intros H. eapply hoare_bind; [|exact H]. intros s _. by destruct (m s) as [[]].
Qed.

Lemma call_settles P channel key :
  hoare P (call_provider sha256_hex dumps guarded adapters channel key) (fun _ => settled) (fun _ _ => True).
Proof using Type.
  unfold call_provider, unsupported_channel.
  destruct channel; apply skip; intros; cbv zeta; try apply handle_settles;
    (destruct (target_of _ _); [case_ifs; [apply handle_settles|]|]; apply no_target_settles).
Qed.

Lemma process_settles :
  hoare (fun s => has_status MessageStatus.sent (Session.row s) = false) process
    (fun _ => settled) (fun _ _ => True).
Proof using Type.
  unfold process_outbound_message.
  eapply hoare_bind.
  { by apply (hoare_gets _ (fun s => s) (fun a _ => has_status MessageStatus.sent (Session.row a) = false)). }
  intros s0. cbv zeta. destruct (has_status MessageStatus.sent (Session.row s0)) eqn:E; [intros s Hs; cbv beta in Hs; congruence|].
  destruct (negb _); [apply block_settles|].
  destruct (check_origin _ _ _ _ _ _ _) as [u|[]]; try (apply hoare_raise; done); [|apply block_settles].
  destruct (_external_dispatch_block_reason cfg) as [[code reason]|]; [apply block_settles|].
  eapply hoare_bind; [apply policy_settles|]. intros [].
  - apply call_settles.
  - apply hoare_ret. auto.
Qed.

(** *** Leases *)

Lemma message_at_update f w i : message_at (update_messages f w) i = f <$> message_at w i.
Proof using Type. unfold message_at, table_get, update_messages. cbn. by rewrite lookup_fmap. Qed.

Lemma owns_inv token i w : _owns_message_lease token i w = true →
  ∃ m, message_at w i = Some m ∧ TicketOutboundMessage.locked_by m = Some token ∧
       TicketOutboundMessage.status m = MessageStatus.processing.
Proof using Type.
  unfold _owns_message_lease, has_status. destruct (message_at w i) as [m|]; [|done].
  rewrite andb_true_iff, !bool_decide_eq_true. intros [? ?]. by exists m.
Qed.

Lemma refresh_inv token i w w1 : _refresh_message_lease token i w = (true, w1) →
  _owns_message_lease token i w1 = true.
Proof using Type.
  unfold _refresh_message_lease. destruct (_owns_message_lease token i w) eqn:E; [|done]. intros [= <-].
  unfold _owns_message_lease in *. rewrite message_at_update.
  match goal with |- context [message_at ?x i] => change (message_at x i) with (message_at w i) end. destruct (message_at w i) as [m|]; [|done].
  cbn [fmap option_fmap option_map]. destruct (decide (TicketOutboundMessage.id m = i)); exact E.
Qed.

Context `{!AdapterLaws adapters}.

#[local] Abbreviation attempt := (attempt sha256_hex hmac_sha256_hex dumps contract guarded cfg adapters).
#[local] Abbreviation try_message := (try_message sha256_hex hmac_sha256_hex dumps contract guarded cfg adapters).
#[local] Abbreviation recover := (_recover_unhandled_dispatch_exception sha256_hex dumps guarded).

(** A process that returns never holds the lease in its own transaction. *)
Lemma returned_without_lease token row ticket w s' :
  has_status MessageStatus.sent row = false → process (open_session row ticket w) = (Ok tt, s') →
  Session.broken s' = false ∧ Session.base s' = w ∧
  _owns_message_lease token (TicketOutboundMessage.id row) (Session.view s') = false.
Proof using All.
  intros Hs H. pose proof (process_settles (open_session row ticket w) Hs) as Hp. rewrite H in Hp.
  pose proof (fixed_process w (TicketOutboundMessage.id row) (open_session row ticket w) ltac:(done)) as Hf.
  rewrite H in Hf. destruct Hp as (Hb & Hl & Ha), Hf as [Hbase Hid]. cbn in Hid. split_and!; [done|done|].
  unfold _owns_message_lease. rewrite <- Hid, Ha, Hl. by rewrite bool_decide_eq_false_2.
Qed.

Lemma try_message_cases token row ticket w :
  has_status MessageStatus.sent row = false →
  try_message token (open_session row ticket w) = (Ok false, w) ∨
  ∃ e, try_message token (open_session row ticket w) = recover (TicketOutboundMessage.id row) token e w.
Proof using All.
  intros Hs. unfold Dispatch.try_message.
  pose proof (fixed_process w (TicketOutboundMessage.id row) (open_session row ticket w) ltac:(done)) as [Hf _].
  destruct (process (open_session row ticket w)) as [[[]|e] s'] eqn:E; cbn in Hf; [|right; exists e; by rewrite Hf].
  destruct (returned_without_lease token row ticket w s' Hs E) as (-> & -> & Ho). left.
  change (Session.row (open_session row ticket w)) with row. by rewrite Ho.
Qed.

(** *** The rows *)

#[local] Abbreviation rows_ok := (rows_ok sha256_hex hmac_sha256_hex dumps contract).
#[local] Abbreviation row_ok := (row_ok sha256_hex hmac_sha256_hex dumps contract).

Record sess_ok (s : Session.t) : Prop := {
  base_ok : rows_ok (Session.base s); view_ok : rows_ok (Session.view s);
  message_ok : row_ok (Session.row s) }.
Definition sess_live (s : Session.t) : Prop := live (Session.row s) ∧ sess_ok s.

Lemma sess_ok_view {A} (m : M Work.t A) : preserves rows_ok m → preserves sess_ok (on_view m).
Proof using Type.
  intros H s [Hb Hv Hr]. unfold on_view. specialize (H _ Hv). destruct (m (Session.view s)) as [r w]. by split.
Qed.

Lemma keep {A} P (m : M Session.t A) : preserves P m → hoare P m (fun _ => P) (fun _ _ => True).
Proof using Type. intros H s Hs. specialize (H s Hs). by destruct (m s) as [[]]. Qed.

Lemma mark_dead_sess reason code : hoare sess_live (mark_dead reason code) (fun _ => sess_ok) (fun _ _ => True).
Proof using Type. intros s (Hl & [Hb Hv Hr]). split; [exact Hb|exact Hv|by apply mark_dead_ok]. Qed.

Lemma mark_retry_sess reason code : hoare sess_live (mark_retry reason code) (fun _ => sess_ok) (fun _ _ => True).
Proof using Type.
  intros s (Hl & [Hb Hv Hr]). unfold mark_retry, mbind, M_bind, gets, on_view.
  pose proof (retried_ok _ _ _ _ reason code _ Hr Hl (Session.view s) Hv) as H.
  destruct (retried _ _ _ _) as [[m'|e] w]; [|done]. destruct H as [[_ Hm'] Hw]. by split.
Qed.

Lemma flush_sess : preserves sess_ok flush.
Proof using Type.
  intros [b w m t d br] [Hb Hv Hr]. unfold Dispatch.flush, usable, try_catch, on_view, mbind, M_bind, get, require,
    when, modify, mret, M_ret. cbn in *. destruct br; [by split|]. cbn. destruct d; [|by split]. cbn.
  destruct (flush_message_cases sha256_hex dumps guarded m w) as [->|[e ->]]; [|by split].
  split; [exact Hb|by apply rows_ok_put|exact Hr].
Qed.

Lemma log_sess t note payload : preserves sess_ok (log t note payload).
Proof using Type.
  unfold Dispatch.log. apply preserves_bind; [apply preserves_gets|intros m].
  apply preserves_bind; [apply flush_sess|intros []]. apply sess_ok_view, rows_ok_kept. intros T. apply kept_log_event.
Qed.

Lemma block_sess reason code t note payload :
  hoare sess_live (block reason code t note payload) (fun _ => sess_ok) (fun _ _ => True).
Proof using Type.
  unfold Dispatch.block. eapply hoare_bind; [apply mark_dead_sess|]. intros [].
  eapply hoare_bind; [apply keep, preserves_gets|]. intros m. apply keep, log_sess.
Qed.

Lemma commit_ok body w m ticket :
  hoare sess_live body (fun _ => sess_ok) (fun _ _ => True) →
  (∀ b i, preserves (fixed b i) body) → rows_ok w → row_ok m → live m →
  rows_ok (snd (commit sha256_hex dumps guarded body (open_session m ticket w))).
Proof using Type.
  intros Hbody Hfix Hw Hm Hl. unfold commit, mbind, M_bind.
  assert (sess_live (open_session m ticket w)) as Hs by (by split; [exact Hl|split]).
  pose proof (Hbody _ Hs) as H.
  pose proof (Hfix w (TicketOutboundMessage.id m) (open_session m ticket w) ltac:(done)) as [Hb _].
  destruct (body (open_session m ticket w)) as [[[]|e] s1]; cbn in Hb; [|by cbn; rewrite Hb].
  pose proof (flush_sess s1 H) as Hf. pose proof (fixed_flush w _ s1 (conj Hb eq_refl)) as [Hb' _].
  destruct (flush s1) as [[u|e] s2]; cbn in *; [apply Hf|by rewrite Hb'].
Qed.

Lemma owned_live token i w m : rows_ok w → _owns_message_lease token i w = true → message_at w i = Some m →
  row_ok m ∧ live m ∧ has_status MessageStatus.sent m = false ∧ TicketOutboundMessage.id m = i.
Proof using Type.
  intros Hw (m' & Hm' & _ & Hst)%owns_inv Hm. assert (m' = m) as -> by congruence.
  destruct (Hw i m Hm) as [Hi Hok]. unfold live, has_status. rewrite Hst. split_and!; [exact Hok| |done|done].
  right. left.
Qed.

Lemma recover_ok i token e w : rows_ok w → rows_ok (snd (recover i token e w)).
Proof using Type.
  intros Hw. unfold _recover_unhandled_dispatch_exception.
  destruct (_owns_message_lease token i w) eqn:Ho; [|done].
  destruct (message_at w i) as [m|] eqn:Hm; [|done].
  destruct (owned_live token i w m Hw Ho Hm) as (Hok & Hl & _). apply commit_ok; [| |done..].
  - eapply hoare_bind; [apply mark_retry_sess|]. intros [].
    do 2 (eapply hoare_bind; [apply keep, preserves_gets|]; intros ?). apply keep, log_sess.
  - intros b j. preserve.
Qed.

Lemma refresh_ok token i w : rows_ok w → rows_ok (snd (_refresh_message_lease token i w)).
Proof using Type.
  intros Hw. unfold _refresh_message_lease. destruct (_owns_message_lease token i w); [|done].
  apply update_messages_ok; [|exact Hw]. intros m Hm. case_decide; [|done]. split; [done|].
  destruct Hm as [Ha [H0 H1 H2 H3]]. split; [exact Ha|by split].
Qed.

Lemma attempt_ok token m ticket w : rows_ok w → rows_ok (snd (attempt token m ticket w)).
Proof using All.
  intros Hw. unfold Dispatch.attempt. cbv zeta. pose proof (refresh_ok token (TicketOutboundMessage.id m) w Hw) as Hw1.
  destruct (_refresh_message_lease token (TicketOutboundMessage.id m) w) as [[] w1] eqn:E; [|done]. cbn in Hw1.
  apply refresh_inv in E. destruct (message_at w1 (TicketOutboundMessage.id m)) as [row|] eqn:Hrow.
  2:{ unfold _owns_message_lease in E. by rewrite Hrow in E. }
  destruct (owned_live _ _ _ _ Hw1 E Hrow) as (Hok & Hl & Hs & Hid). cbn [default from_option]. change (id row) with row.
  destruct (_message_dispatch_block_reason cfg row) as [[code reason]|].
  - apply commit_ok; [apply block_sess|intros; apply fixed_block|done..].
  - destruct (try_message_cases token row ticket w1 Hs) as [->|[e ->]]; [done|by apply recover_ok].
Qed.

(** *** Claims and lapsed leases *)

Lemma elem_of_in_order p w m : m ∈ in_order p w ↔ ∃ i, message_at w i = Some m ∧ p m = true.
Proof using Type. unfold in_order. rewrite elem_of_sort_by. apply elem_of_select. Qed.

Lemma elem_of_take {A} (n : nat) (l : list A) x : x ∈ take n l → x ∈ l.
Proof using Type. intros (i & H)%list_elem_of_lookup. apply lookup_take_Some in H as [H _]. by eapply list_elem_of_lookup_2. Qed.

Lemma pending_live now m : pending_filters cfg now m = true → live m.
Proof using Type.
  unfold pending_filters, has_status, live. rewrite !andb_true_iff, bool_decide_eq_true.
  intros [[[_ ->] _] _]. left.
Qed.

Lemma stale_live now m : stale cfg now m = true → live m.
Proof using Type.
  unfold stale, has_status, live. rewrite !andb_true_iff, bool_decide_eq_true. intros [[_ ->] _]. right. left.
Qed.

Lemma claimed_ok worker n m : row_ok m → live m →
  TicketOutboundMessage.id (claimed_by worker n m) = TicketOutboundMessage.id m ∧ row_ok (claimed_by worker n m).
Proof using Type.
  intros Hm Hl. split; [done|]. pose proof (live_below_max _ _ _ _ m Hm Hl) as Hb. destruct Hm as [Ha [H0 H1 _ _]].
  apply (live_authorised _ _ _ _ m Hl) in Ha. split; [right; exact Ha|]. split; [exact H0|exact H1| |]; cbn; lia.
Qed.

Lemma candidate_pending locked limit n w m i :
  rows_ok w → message_at w i = Some m → TicketOutboundMessage.id m ∈ candidate_ids cfg locked limit n w →
  pending_filters cfg n m = true.
Proof using Type.
  intros Hw Hm Hin. unfold candidate_ids in Hin. apply list_elem_of_fmap in Hin as (m' & Hid & Hin).
  apply elem_of_take, elem_of_in_order in Hin as (j & Hj & Hp). apply andb_true_iff in Hp as [Hp _].
  destruct (Hw i m Hm) as [Hi _], (Hw j m' Hj) as [Hj' _]. assert (m' = m) as -> by congruence. done.
Qed.

Lemma claim_ok locked limit worker w : rows_ok w → rows_ok (snd (claim_pending_messages cfg locked limit worker w)).
Proof using Type.
  intros Hw. unfold claim_pending_messages. set (n := Db.clock _ _).
  destruct (candidate_ids cfg locked limit n w) as [|i ids] eqn:E; [done|]. cbn [snd]. rewrite <- E.
  intros j m. rewrite message_at_update. change (message_at (snd (now w)) j) with (message_at w j).
  intros (m0 & H0 & ->)%fmap_Some. destruct (Hw j m0 H0) as [Hj Hok].
  case_bool_decide as Hin; [|by split].
  pose proof (claimed_ok worker n m0 Hok (pending_live n m0 (candidate_pending _ _ _ _ _ _ Hw H0 Hin))) as [Hid ?].
  by rewrite Hid.
Qed.

Lemma claim_cas_ok limit worker n w w' : rows_ok w' → rows_ok (snd (claim_pending_messages_cas cfg limit worker n w w')).
Proof using Type.
  intros Hw. unfold claim_pending_messages_cas.
  match goal with |- rows_ok (snd (match ?l with _ => _ end)) => destruct l end; [done|].
  intros j m. cbn [snd]. rewrite message_at_update. intros (m0 & H0 & ->)%fmap_Some.
  destruct (Hw j m0 H0) as [Hj Hok]. destruct (_ && _) eqn:E; [|by split]. apply andb_true_iff in E as [_ E].
  pose proof (claimed_ok worker n m0 Hok (pending_live n m0 E)) as [Hid ?]. by rewrite Hid.
Qed.

Lemma reclaim_row_ok m : row_ok m → live m → preserves rows_ok (reclaim sha256_hex dumps guarded m).
Proof using Type.
  intros Hm Hl. apply hoare_preserves. unfold reclaim. eapply hoare_bind; [by apply retried_ok|]. intros m'.
  apply hoare_pure. intros [_ Hm']. apply hoare_preserves. preserve; [by apply flush_message_ok|].
  apply rows_ok_kept. intros T. apply kept_log_event.
Qed.

Lemma reclaim_ok locked limit w : rows_ok w → rows_ok (snd (reclaim_stale_processing_messages sha256_hex dumps guarded cfg locked limit w)).
Proof using Type.
  intros Hw. unfold reclaim_stale_processing_messages. set (n := Db.clock _ _).
  assert (Forall (fun m => row_ok m ∧ live m) (stale_batch cfg locked limit n w)) as Hl.
  { apply list.Forall_forall. intros m (i & Hi & Hp)%elem_of_take%elem_of_in_order.
    apply andb_true_iff in Hp as [Hp _]. split; [by apply (Hw i)|by eapply stale_live]. }
  assert (preserves rows_ok (iterM (reclaim sha256_hex dumps guarded) (stale_batch cfg locked limit n w))) as Hp.
  { induction Hl as [|m l [Hm Hml] _ IH]; cbn; [apply preserves_ret|].
    apply preserves_bind; [by apply reclaim_row_ok|]. by intros []. }
  specialize (Hp (snd (now w)) Hw). destruct (iterM _ _ _) as [[u|e] w']; [exact Hp|exact Hw].
Qed.

(** *** The outcome of an attempt is lost

    The check of the lease before the commit reads the transaction of the attempt itself,
    where [log_event] has flushed the released message. *)

(** C32: A delivery is never recorded.  When the attempt on a message under the lease returns,
    whatever the provider has done and reported, the transaction is rolled back: what is
    committed is the message as it was before the attempt, still processing under the lease,
    and the message is not counted as processed. *)
Theorem dispatch_outcome_lost token m ticket w w1 row s' :
  rows_ok w →
  _refresh_message_lease token (TicketOutboundMessage.id m) w = (true, w1) →
  message_at w1 (TicketOutboundMessage.id m) = Some row →
  _message_dispatch_block_reason cfg row = None →
  process (open_session row ticket w1) = (Ok tt, s') →
  attempt token m ticket w = (Ok false, w1) ∧ TicketOutboundMessage.locked_by row = Some token ∧
  TicketOutboundMessage.status row = MessageStatus.processing.
Proof using All.
  intros Hw Hr Hrow Hblock Hp. pose proof (refresh_ok token (TicketOutboundMessage.id m) w Hw) as Hw1.
  rewrite Hr in Hw1. pose proof (refresh_inv _ _ _ _ Hr) as Ho.
  destruct (owned_live _ _ _ _ Hw1 Ho Hrow) as (_ & _ & Hs & Hid).
  destruct (owns_inv _ _ _ Ho) as (row' & Hrow' & Hl & Hst). assert (row' = row) as -> by congruence.
  split; [|done]. unfold Dispatch.attempt. cbv zeta. rewrite Hr, Hrow. cbn [default from_option].
  change (id row) with row. rewrite Hblock. unfold Dispatch.try_message. rewrite Hp.
  destruct (returned_without_lease token row ticket w1 s' Hs Hp) as (-> & -> & Hno).
  change (Session.row (open_session row ticket w1)) with row. by rewrite Hno.
Qed.

(** *** A lease that lapsed stops the outbox *)

Lemma iterM_stops {A} (f : A → M Work.t unit) l w a :
  a ∈ l → (∀ w, ∃ e, fst (f a w) = Err e) → ∃ e w', iterM f l w = (Err e, w').
Proof using Type.
  intros Ha Hf. revert w. induction l as [|b l IH]; intros w; [by apply elem_of_nil in Ha|].
  cbn [iterM]. unfold mbind, M_bind. apply elem_of_cons in Ha as [<-|Ha].
  - destruct (Hf w) as [e He]. destruct (f a w) as [[u|e'] w']; [done|]. by exists e', w'.
  - destruct (f b w) as [[u|e] w']; [by apply IH|]. by exists e, w'.
Qed.

Lemma reclaim_raises m w : not_null (TicketOutboundMessage.locked_at m) = true →
  ∃ e, fst (reclaim sha256_hex dumps guarded m w) = Err e.
Proof using Type.
  intros H. unfold reclaim, mbind, M_bind. destruct (retried _ _ m w) as [[m'|e] w']; [|by exists e].
  unfold lift, json_of_time. destruct (TicketOutboundMessage.locked_at m); [|done]. by eexists.
Qed.

(** A lapsed lease jams the outbox.  If one of the messages whose lease has lapsed, in the
    batch that the dispatch recovers first, has a lock time, as every claimed message has,
    then the dispatch raises: its audit event holds a time, which is not JSON.  Nothing is
    written, so this message is in the way of every later dispatch too. *)
Theorem lapsed_lease_jams locked limit worker_id uuid w m :
  m ∈ stale_batch cfg locked limit (Db.clock (Work.core w) (Db.ticks (Work.core w))) w →
  not_null (TicketOutboundMessage.locked_at m) = true →
  _runtime_dispatch_block_reason cfg = None →
  ∃ e, dispatch_pending_messages sha256_hex hmac_sha256_hex dumps contract guarded cfg adapters
         locked limit worker_id uuid w = (Err e, w).
Proof using Type.
  intros Hm Hl Hb. unfold dispatch_pending_messages, reclaim_stale_processing_messages. rewrite Hb. cbv zeta.
  destruct (iterM_stops (reclaim sha256_hex dumps guarded) _ (snd (now w)) m Hm) as (e & w' & ->); [|by exists e].
  intros w1. by apply reclaim_raises.
Qed.

(** *** Who may call a provider *)

(** The message speaks in the name of a person, of a run of the model whose reply it signed,
    or is older than the contracts. *)
Inductive speaks (m : Message) (ticket : option Ticket.t) : Prop :=
| legacy :
    OutboundSettings.allow_legacy_originless_outbound cfg = true →
    truthy_str (TicketOutboundMessage.origin m) = false →
    truthy_str (TicketOutboundMessage.runtime_contract_version m) = false →
    TicketOutboundMessage.created_by m = None → speaks m ticket
| person :
    _normalize_customer_visible_origin (TicketOutboundMessage.origin m) (TicketOutboundMessage.created_by m) =
      HUMAN_ORIGIN →
    not_null (TicketOutboundMessage.created_by m) = true →
    in_state ticket [ConversationState.ai_active] = false → speaks m ticket
| model :
    _normalize_customer_visible_origin (TicketOutboundMessage.origin m) (TicketOutboundMessage.created_by m)
      ∈ AI_ORIGINS →
    in_state ticket HUMAN_REPLY_STATES = false →
    validate_contract_payload_hash sha256_hex dumps (TicketOutboundMessage.runtime_contract_payload_json m)
      (TicketOutboundMessage.runtime_contract_payload_sha256 m) = None →
    (let args := payload_args (stamp_of m) in
     validate_ai_reply_contract sha256_hex hmac_sha256_hex dumps contract
       (Some (TicketOutboundMessage.body m))
       (json_or (Args.runtime_trace_id args) (jtext (TicketOutboundMessage.runtime_trace_id m)))
       (json_or (Args.contract_version args) (jtext (TicketOutboundMessage.runtime_contract_version m)))
       (json_or (Args.runtime_signature args) (jtext (TicketOutboundMessage.runtime_signature m)))
       (json_or (Args.safety_status args) (jtext (TicketOutboundMessage.safety_status m)))
       (Args.grounds args) (Args.customer_visible args) = Ok None) →
    speaks m ticket.

Lemma check_origin_speaks m ticket u :
  check_origin sha256_hex hmac_sha256_hex dumps contract cfg m ticket = Ok u → speaks m ticket.
Proof using Type.
  unfold check_origin. cbv zeta. destruct (negb _) eqn:E.
  { rewrite negb_true_iff, !orb_false_iff in E. destruct E as [[Eo Ev] Ec].
    destruct (OutboundSettings.allow_legacy_originless_outbound cfg) eqn:El; [|done]. intros _.
    apply legacy; [done..|]. by destruct (TicketOutboundMessage.created_by m). }
  unfold _enforce_customer_visible_origin. set (o := _normalize_customer_visible_origin _ _).
  destruct (bool_decide (o ∈ FORBIDDEN_CUSTOMER_VISIBLE_ORIGINS)); [done|].
  case_bool_decide as Ho.
  - unfold enforce_ai_origin. destruct (in_state ticket HUMAN_REPLY_STATES) eqn:Es; [done|].
    intros ([] & Hh & H)%result_bind_Ok. cbv beta zeta in H.
    match type of H with (if ?b then _ else _) = _ => destruct b end; [done|].
    apply result_bind_Ok in H as ([v|] & Hv & H); [done|]. apply model; [exact Ho|exact Es| |exact Hv].
    cbn in Hh. by destruct (validate_contract_payload_hash _ _ _ _).
  - destruct (bool_decide (o = HUMAN_ORIGIN)) eqn:Eo; [|done]. apply bool_decide_eq_true in Eo.
    destruct (not_null _) eqn:Ec; [|done]. cbn [negb].
    destruct (in_state ticket [ConversationState.ai_active]) eqn:Es; [done|]. intros _. by apply person.
Qed.

(** A call of a provider that the rules allow *)
Record permitted (channel : SourceChannel.t) (key : string) (s : Session.t) : Prop := {
  switched_on : _external_dispatch_block_reason cfg = None;
  right_channel : TicketOutboundMessage.channel (Session.row s) = channel;
  right_key : key = _provider_idempotency_key (Session.row s);
  right_text : presentable (TicketOutboundMessage.body (Session.row s));
  right_speaker : speaks (Session.row s) (Session.ticket s) }.

Lemma policy_allows s s1 : policy s = (Ok true, s1) →
  presentable (TicketOutboundMessage.body (Session.row s)) ∧ Session.row s1 = Session.row s ∧
  Session.ticket s1 = Session.ticket s.
Proof using Type.
  unfold _enforce_customer_visible_policy. unfold mbind at 1, M_bind at 1, gets. cbv zeta.
  set (d := evaluate_customer_visible_policy _).
  destruct (CustomerVisiblePolicyDecision.allowed d) eqn:Ha; cbn [negb].
  2:{ unfold mbind, M_bind. by destruct (block _ _ _ _ _ s) as [[[]|e] s']. }
  apply evaluate_allowed in Ha. unfold d. rewrite evaluate_keeps_body.
  rewrite (bool_decide_eq_true_2 (TicketOutboundMessage.body _ = _)) by done.
  destruct (_ && _); [by intros [= <-]|]. destruct s as [b v row t dt br], row. by intros [= <-].
Qed.

Lemma permitted_identity channel key s f :
  (∀ m, stamp_of (f m) = stamp_of m ∧ TicketOutboundMessage.id (f m) = TicketOutboundMessage.id m ∧
     TicketOutboundMessage.channel (f m) = TicketOutboundMessage.channel m ∧
     TicketOutboundMessage.body (f m) = TicketOutboundMessage.body m ∧
     TicketOutboundMessage.origin (f m) = TicketOutboundMessage.origin m ∧
     TicketOutboundMessage.created_by (f m) = TicketOutboundMessage.created_by m) →
  permitted channel key s → permitted channel key (s <| Session.row ::= f |>).
Proof using Type.
  intros Hf [H1 H2 H3 H4 H5]. destruct (Hf (Session.row s)) as (Es & Ei & Ec & Eb & Eo & Ecb).
  split; cbn; unfold _provider_idempotency_key; rewrite ?Ei, ?Ec, ?Eb; [done..|].
  unfold stamp_of in Es. injection Es as E1 E2 E3 E4 E5 E6 E7.
  destruct H5 as [L1 L2 L3 L4|P1 P2 P3|M1 M2 M3 M4].
  - apply legacy; by rewrite ?Eo, ?E2, ?Ecb.
  - apply person; by rewrite ?Eo, ?Ecb.
  - apply model; cbv zeta; rewrite ?Eo, ?Ecb, ?E4, ?E5, ?Eb, ?E1, ?E2, ?E3, ?E7; [done..|].
    unfold stamp_of. by rewrite E1, E2, E3, E4, E5, E6, E7.
Qed.

Lemma flush_same s : Session.row (snd (flush s)) = Session.row s ∧ Session.ticket (snd (flush s)) = Session.ticket s.
Proof using Type.
  destruct s as [b w m t d br]. unfold Dispatch.flush, usable, try_catch, on_view, mbind, M_bind, get, require,
    when, modify, mret, M_ret. destruct br; [done|]. cbn. destruct d; [|done]. cbn.
  by destruct (flush_message_cases sha256_hex dumps guarded m w) as [->|[e ->]].
Qed.

(** The session at the call depends on the message and its ticket only. *)
Lemma permitted_same channel key s s1 :
  Session.row s1 = Session.row s → Session.ticket s1 = Session.ticket s →
  permitted channel key s → permitted channel key s1.
Proof using Type. intros Er Et [H1 H2 H3 H4 H5]. split; by rewrite ?Er, ?Et. Qed.

(** Two worlds that agree on the calls that are allowed *)
Definition agree (other : Adapters.t) : Prop :=
  (∀ key s, permitted SourceChannel.whatsapp key s → Adapters.whatsapp other key s = Adapters.whatsapp adapters key s) ∧
  (∀ key s, permitted SourceChannel.email key s → Adapters.email other key s = Adapters.email adapters key s).

Lemma email_agrees other key s : agree other → permitted SourceChannel.email key s →
  _dispatch_email_message sha256_hex dumps guarded other key s =
  _dispatch_email_message sha256_hex dumps guarded adapters key s.
Proof using Type.
  intros [_ H] Hp. unfold _dispatch_email_message, try_catch, mbind, M_bind, get, assign, modify.
  set (s2 := s <| Session.row ::= ensure_outbound_mailbox_identity (Session.ticket s) true |>
               <| Session.dirty := true |>).
  pose proof (flush_same s2) as [Er Et]. destruct (flush s2) as [[[]|e] s3]; [|done]. cbn in Er, Et.
  rewrite (H key s3); [done|]. eapply (permitted_same _ _ s2); [done..|].
  eapply (permitted_same _ _ (s <| Session.row ::= _ |>)); [done..|]. apply permitted_identity; [|done].
  intros m. unfold ensure_outbound_mailbox_identity. cbv zeta. by destruct (_ && _).
Qed.

(** C29: No provider is called without authority.  The adapters are called only while the
    dispatch is switched on, for the channel of the message, with its idempotency key, for
    text that the policy lets through, and for a message of a person whose ticket is not in
    the hands of the AI, or of a run of the model that signed exactly this reply and whose
    ticket no person has taken over, or, if the setting allows it, of the time before the
    contracts: adapters that agree on such calls give the same attempt. *)
Theorem provider_call_guarded other s : agree other →
  process_outbound_message sha256_hex hmac_sha256_hex dumps contract guarded cfg other s = process s.
Proof using Type.
  intros Hag. unfold process_outbound_message. unfold mbind at 1 3, M_bind at 1 3, get. cbv zeta.
  destruct (has_status _ _); [done|]. destruct (negb _); [done|].
  destruct (check_origin _ _ _ _ _ _ _) as [u|[]] eqn:Ho; try done.
  destruct (_external_dispatch_block_reason cfg) as [[code reason]|] eqn:Eb; [done|].
  unfold mbind, M_bind. destruct (policy s) as [[[]|e] s1] eqn:Ep; [|done..].
  destruct (policy_allows s s1 Ep) as (Hbody & Er & Et). apply check_origin_speaks in Ho.
  assert (permitted (TicketOutboundMessage.channel (Session.row s)) (_provider_idempotency_key (Session.row s)) s1) as Hp.
  { split; rewrite ?Er, ?Et; done. }
  unfold call_provider. destruct (TicketOutboundMessage.channel (Session.row s)); try done; unfold mbind, M_bind.
  - by rewrite (proj1 Hag _ _ Hp).
  - by rewrite (email_agrees other _ _ Hag Hp).
Qed.
End DispatchFacts.

(** ** Histories of the outbox

    One step is one transaction of some process: an operation of the program on the messages,
    committed or left as it was when it raised, or anything that writes no message. *)

Section History.
Context (sha256_hex : string → string) (hmac_sha256_hex : string → string → string).
Context (dumps : json → string) (contract : ContractSettings.t) (cfg : OutboundSettings.t).
Context (adapters : Adapters.t) `{!AdapterLaws adapters}.

Inductive outbox_step (w : Work.t) : Work.t → Prop :=
| queue_step guarded ticket_id channel body created_by subject provider_status origin stamp :
    outbox_step w (snd (queue_outbound_message sha256_hex hmac_sha256_hex dumps contract guarded cfg
      ticket_id channel body created_by subject provider_status origin stamp w))
| create_step guarded ticket channel body origin created_by provider_status ai_contract status subject :
    outbox_step w (snd (create_customer_visible_outbound sha256_hex hmac_sha256_hex dumps contract guarded
      cfg ticket channel body origin created_by provider_status ai_contract status subject w))
| draft_step guarded i channel subject body ids user :
    outbox_step w (snd (save_outbound_draft sha256_hex dumps guarded i channel subject body ids user w))
| send_step guarded i channel subject body ids user :
    outbox_step w (snd (send_outbound_message sha256_hex hmac_sha256_hex dumps contract guarded cfg
      i channel subject body ids user w))
| requeue_step guarded i : outbox_step w (snd (requeue_dead_outbound_message sha256_hex dumps guarded i w))
| restriction_step guarded mk : outbox_step w (snd (add_restriction guarded mk w))
| reclaim_step guarded locked limit :
    outbox_step w (snd (reclaim_stale_processing_messages sha256_hex dumps guarded cfg locked limit w))
| claim_step locked limit worker : outbox_step w (snd (claim_pending_messages cfg locked limit worker w))
| claim_cas_step limit worker n seen :
    outbox_step w (snd (claim_pending_messages_cas cfg limit worker n seen w))
| attempt_step guarded token m ticket :
    outbox_step w (snd (attempt sha256_hex hmac_sha256_hex dumps contract guarded cfg adapters token m ticket w))
| other_step w' : messages_are (Db.messages (Work.core w)) w' → outbox_step w w'.

Context (positive : 0 < OutboundSettings.outbox_max_retries cfg).

#[local] Abbreviation rows_ok := (rows_ok sha256_hex hmac_sha256_hex dumps contract).

Lemma step_ok w w' : outbox_step w w' → rows_ok w → rows_ok w'.
Proof using All.
  intros H Hw. destruct H.
  - pose proof (queue_ok sha256_hex hmac_sha256_hex dumps contract guarded cfg positive ticket_id channel body
      created_by subject provider_status origin stamp w Hw) as H. by destruct (queue_outbound_message _ _ _ _ _ _ _ _ _ _ _ _ _ _ w) as [[]].
  - by apply create_ok.
  - by apply draft_ok.
  - by apply send_ok.
  - by apply requeue_ok.
  - by apply restriction_ok.
  - by apply reclaim_ok.
  - by apply claim_ok.
  - by apply claim_cas_ok.
  - by apply attempt_ok.
  - by eapply rows_ok_same.
Qed.

Lemma history_ok w0 w : rtc outbox_step w0 w → Db.messages (Work.core w0) = empty_table → rows_ok w.
Proof using All.
  intros H H0. assert (rows_ok w0) as Hw.
  { intros i m. unfold message_at. rewrite H0. unfold table_get, empty_table. cbn. by rewrite lookup_empty. }
  clear H0. induction H as [w|w w1 w2 Hs _ IH]; [exact Hw|]. by eapply IH, step_ok.
Qed.

(** C28: Every message has an author.  In every history of the outbox, a stored message is a
    draft or passes the check of its origin: a person wrote it, or a run of the model signed
    exactly this text with its grounds.  No transaction of the queue, the agents, the
    dispatch, the recovery, the administrators or a restriction breaks this. *)
Theorem outbox_authority w0 w i m :
  rtc outbox_step w0 w → Db.messages (Work.core w0) = empty_table → message_at w i = Some m →
  TicketOutboundMessage.id m = i ∧ authorised sha256_hex hmac_sha256_hex dumps contract m.
Proof using All. intros H H0 Hm. destruct (history_ok w0 w H H0 i m Hm) as (Hi & Ha & _). by split. Qed.

(** C30: Attempts are bounded.  In every history the count of the failed attempts of a message
    is between 0 and its maximum, and below the maximum while the message waits or is
    processed.  The next failure makes it dead exactly when the count reaches the maximum, and
    otherwise delays the next attempt by 1 to 30 minutes, twice as long each time. *)
Theorem outbox_attempts_bounded w0 w i m :
  rtc outbox_step w0 w → Db.messages (Work.core w0) = empty_table → message_at w i = Some m →
  0 ≤ TicketOutboundMessage.retry_count m ≤ TicketOutboundMessage.max_retries m ∧
  (live m →
   TicketOutboundMessage.retry_count m < TicketOutboundMessage.max_retries m ∧
   ∀ reason code n n', let m' := _mark_retry reason code n n' m in
     TicketOutboundMessage.retry_count m' = TicketOutboundMessage.retry_count m + 1 ∧
     (TicketOutboundMessage.status m' = MessageStatus.dead ↔
      TicketOutboundMessage.retry_count m' = TicketOutboundMessage.max_retries m') ∧
     (TicketOutboundMessage.status m' ≠ MessageStatus.dead →
      let delay := backoff (TicketOutboundMessage.retry_count m') 30 in
      TicketOutboundMessage.status m' = MessageStatus.pending ∧
      TicketOutboundMessage.next_retry_at m' = Some (n' + minutes delay) ∧ 1 ≤ delay ≤ 30 ∧
      delay = Z.min (2 ^ TicketOutboundMessage.retry_count m) 30)).
Proof using All.
  intros H H0 Hm. destruct (history_ok w0 w H H0 i m Hm) as (_ & Hok). split.
  { by destruct Hok as [_ []]. }
  intros Hl. pose proof (live_below_max _ _ _ _ m Hok Hl) as Hb. split; [lia|]. intros reason code n n'.
  cbv zeta. unfold _mark_retry. cbv zeta. destruct (_ <=? _) eqn:E; cbn in E |- *.
  - apply Z.leb_le in E. split_and!; [done|split; [lia|done]|done].
  - apply Z.leb_gt in E. split_and!; [done|split; [done|lia]|]. intros _.
    split_and!; [done|done|by apply backoff_bounds..|]. unfold backoff. f_equal. f_equal. lia.
Qed.
End History.

(** ** A concrete dispatch *)

Module FixDispatch.
(** A provider that accepts every message *)
Definition accept (key : string) : M Session.t DispatchResult.t :=
  mret {| DispatchResult.status := MessageStatus.sent; DispatchResult.provider_status := Some "accepted";
          DispatchResult.sent_at := None;
          DispatchResult.route_context := [("provider_message_id", JStr ("p-" +:+ key))] |}.
Definition accepting : Adapters.t := {| Adapters.whatsapp := accept; Adapters.email := accept |}.
#[global] Instance accepting_laws : AdapterLaws accepting.
Proof. split; intros; apply preserves_ret. Qed.
(** One that raises *)
Definition failing : Adapters.t :=
  {| Adapters.whatsapp := fun _ => raise (RuntimeError "timeout");
     Adapters.email := fun _ => raise (RuntimeError "timeout") |}.

Definition queue : M Work.t Message :=
  queue_outbound_message FixContract.sha FixContract.hmac FixContract.dumps FixContract.cfg true
    FixMessages.cfg 1 SourceChannel.whatsapp "Your parcel arrives tomorrow." (Some 30) None "queued" None unstamped.
Definition queued : Work.t := snd (queue FixWork.idle).
Definition token : string := "worker:1".
Definition claimed : Work.t :=
  snd (claim_pending_messages FixMessages.cfg (fun _ => false) None token queued).
Definition refreshed : Work.t := snd (_refresh_message_lease token 1 claimed).
Definition ticket : option Ticket.t := Some (Fix.ticket 1 TicketStatus.in_progress).
Definition message_in (w : Work.t) : Message := default FixMessages.automatic (message_at w 1).
Definition process (adapters : Adapters.t) (cfg : OutboundSettings.t) (w : Work.t) : result unit * Session.t :=
  process_outbound_message FixContract.sha FixContract.hmac FixContract.dumps FixContract.cfg false cfg
    adapters (open_session (message_in w) ticket w).
Definition attempted (adapters : Adapters.t) (w : Work.t) : Committed :=
  attempt FixContract.sha FixContract.hmac FixContract.dumps FixContract.cfg false FixMessages.cfg adapters
    token (message_in w) ticket w.
Definition later (w : Work.t) : Work.t :=
  w <| Work.core ::= fun s => s <| Db.clock := fun _ => hours 5 |> |>.
End FixDispatch.

(** The provider accepted the message, and it is still processing; a provider that raises is
    the case that is recorded. *)
Example accepted_message_stays :
  TicketOutboundMessage.status (Session.row (snd (FixDispatch.process FixDispatch.accepting FixMessages.cfg
    FixDispatch.refreshed))) = MessageStatus.sent ∧
  fst (FixDispatch.attempted FixDispatch.accepting FixDispatch.claimed) = Ok false ∧
  TicketOutboundMessage.status (FixDispatch.message_in
    (snd (FixDispatch.attempted FixDispatch.accepting FixDispatch.claimed))) = MessageStatus.processing ∧
  fst (FixDispatch.attempted FixDispatch.failing FixDispatch.claimed) = Ok true ∧
  TicketOutboundMessage.provider_status (FixDispatch.message_in
    (snd (FixDispatch.attempted FixDispatch.failing FixDispatch.claimed))) = Some "retry_scheduled:1m".
Proof. split_and!; vm_compute; reflexivity. Qed.

Lemma pair_eta {A B} (p : A * B) (a : A) : fst p = a → p = (a, snd p).
Proof. intros <-. by destruct p. Qed.

Definition fix_step : Work.t → Work.t → Prop :=
  outbox_step FixContract.sha FixContract.hmac FixContract.dumps FixContract.cfg FixMessages.cfg FixDispatch.accepting.

Lemma queued_reachable : rtc fix_step FixWork.idle FixDispatch.queued.
Proof. apply rtc_once. unfold FixDispatch.queued. apply queue_step. Qed.

Lemma claimed_reachable : rtc fix_step FixWork.idle FixDispatch.claimed.
Proof. eapply rtc_r; [exact queued_reachable|]. apply claim_step. Qed.

Lemma outbox_authority_witness :
  authorised FixContract.sha FixContract.hmac FixContract.dumps FixContract.cfg
    (FixDispatch.message_in FixDispatch.claimed) ∧
  TicketOutboundMessage.status (FixDispatch.message_in FixDispatch.claimed) = MessageStatus.processing.
Proof.
  split; [|vm_compute; reflexivity].
  apply (outbox_authority FixContract.sha FixContract.hmac FixContract.dumps FixContract.cfg FixMessages.cfg
    FixDispatch.accepting ltac:(done) FixWork.idle FixDispatch.claimed 1).
  - exact claimed_reachable.
  - reflexivity.
  - vm_compute. reflexivity.
Defined.

Lemma outbox_attempts_bounded_witness :
  TicketOutboundMessage.retry_count (FixDispatch.message_in FixDispatch.claimed) <
  TicketOutboundMessage.max_retries (FixDispatch.message_in FixDispatch.claimed).
Proof.
  assert (live (FixDispatch.message_in FixDispatch.claimed)) as Hl.
  { apply (bool_decide_unpack _). vm_compute. exact I. }
  apply (proj2 (outbox_attempts_bounded FixContract.sha FixContract.hmac FixContract.dumps FixContract.cfg
    FixMessages.cfg FixDispatch.accepting ltac:(done) FixWork.idle FixDispatch.claimed 1
    (FixDispatch.message_in FixDispatch.claimed) claimed_reachable eq_refl ltac:(vm_compute; reflexivity)) Hl).
Defined.

Lemma claimed_message_id : TicketOutboundMessage.id (FixDispatch.message_in FixDispatch.claimed) = 1.
Proof. vm_compute. reflexivity. Qed.

Lemma dispatch_outcome_lost_witness :
  FixDispatch.attempted FixDispatch.accepting FixDispatch.claimed = (Ok false, FixDispatch.refreshed) ∧
  TicketOutboundMessage.status (Session.row (snd (FixDispatch.process FixDispatch.accepting FixMessages.cfg
    FixDispatch.refreshed))) = MessageStatus.sent.
Proof.
  split; [|vm_compute; reflexivity].
  apply (dispatch_outcome_lost FixContract.sha FixContract.hmac FixContract.dumps FixContract.cfg false
    FixMessages.cfg FixDispatch.accepting FixDispatch.token (FixDispatch.message_in FixDispatch.claimed)
    FixDispatch.ticket FixDispatch.claimed FixDispatch.refreshed
    (FixDispatch.message_in FixDispatch.refreshed)
    (snd (FixDispatch.process FixDispatch.accepting FixMessages.cfg FixDispatch.refreshed))).
  - apply (history_ok FixContract.sha FixContract.hmac FixContract.dumps FixContract.cfg FixMessages.cfg
      FixDispatch.accepting ltac:(done) FixWork.idle); [exact claimed_reachable|reflexivity].
  - rewrite claimed_message_id. unfold FixDispatch.refreshed. apply pair_eta. vm_compute. reflexivity.
  - rewrite claimed_message_id. vm_compute. reflexivity.
  - vm_compute. reflexivity.
  - change (FixDispatch.process FixDispatch.accepting FixMessages.cfg FixDispatch.refreshed =
      (Ok tt, snd (FixDispatch.process FixDispatch.accepting FixMessages.cfg FixDispatch.refreshed))).
    apply pair_eta. vm_compute. reflexivity.
Defined.

Lemma lapsed_lease_jams_witness :
  ∃ e, dispatch_pending_messages FixContract.sha FixContract.hmac FixContract.dumps FixContract.cfg false
    FixMessages.cfg FixDispatch.accepting (fun _ => false) None None "0f" (FixDispatch.later FixDispatch.claimed) =
    (Err e, FixDispatch.later FixDispatch.claimed).
Proof.
  apply (lapsed_lease_jams FixContract.sha FixContract.hmac FixContract.dumps FixContract.cfg false
    FixMessages.cfg FixDispatch.accepting (fun _ => false) None None "0f" (FixDispatch.later FixDispatch.claimed)
    (FixDispatch.message_in FixDispatch.claimed)).
  - apply (bool_decide_unpack _). vm_compute. exact I.
  - vm_compute. reflexivity.
  - vm_compute. reflexivity.
Defined.

(** The dispatch is switched off: any two worlds agree. *)
Lemma provider_call_guarded_witness :
  let off := {| OutboundSettings.enable_outbound_dispatch := false; OutboundSettings.outbound_provider := "native";
                OutboundSettings.outbound_email_production_pilot_enabled := false;
                OutboundSettings.outbox_batch_size := 25; OutboundSettings.outbox_lock_seconds := 300;
                OutboundSettings.outbox_max_retries := 3;
                OutboundSettings.allow_legacy_originless_outbound := false |} in
  FixDispatch.process FixDispatch.failing off FixDispatch.refreshed =
  FixDispatch.process FixDispatch.accepting off FixDispatch.refreshed.
Proof.
  intros off. apply (provider_call_guarded FixContract.sha FixContract.hmac FixContract.dumps FixContract.cfg
    false off FixDispatch.accepting FixDispatch.failing).
  split; intros key s [H _ _ _ _]; discriminate H.
Defined.
