(* ===== verification/AiTurns.v ===== *)
(** * AI turns of a conversation

    [services/webchat_ai_turn_service.py] and the turn handling of
    [services/webchat_ai_orchestration_service.py]: one turn answers one or more visitor
    messages; the conversation caches which turn is active and which comes next.

    Rows are read and assigned by their ids, as the shared ORM objects of one session.
    [delivered] says whether the savepoint of a best-effort event is kept: it is rolled
    back when the insert or the publication fails.  Metrics and log lines are not
    modelled, nor is the snapshot that scheduling returns beside its verdict (a read of
    the conversation). *)

From S2P Require Import Prelude Calendar Enums Models Work Tenancy Sla Redaction JobScope Jobs.

Definition AI_TURN_OPEN_STATUSES : list string :=
  ["queued"; "processing"; "bridge_calling"; "fallback_generating"].
Definition AI_TURN_TERMINAL_STATUSES : list string :=
  ["completed"; "superseded"; "failed"; "timeout"; "cancelled"].
(** One second *)
Definition DEFAULT_AI_TURN_DEBOUNCE : Z := seconds 1.

Definition open_turn (t : WebchatAITurn.t) : bool :=
  bool_decide (WebchatAITurn.status t ∈ AI_TURN_OPEN_STATUSES).
Definition terminal_turn (t : WebchatAITurn.t) : bool :=
  bool_decide (WebchatAITurn.status t ∈ AI_TURN_TERMINAL_STATUSES).

(** ** The trace that is kept of a run of the model *)

Definition AI_TURN_RUNTIME_TRACE_KEYS : list string :=
  ["latency_class"; "prompt_profile"; "prompt_chars"; "output_contract_repair_applied";
   "output_contract_repair_reason"; "output_contract_soft_accept_reason"; "grounding_validation";
   "grounding_violation"; "error_code"; "elapsed_ms"; "timeout_seconds"; "model"; "model_policy";
   "model_reason"; "contract_repair_model"; "chat_mode"; "request_shape"; "ai_decision_policy_ok";
   "ai_decision_policy_violation_codes"; "ai_decision_policy_warning_count";
   "ai_decision_checked_tools"; "ai_decision_intent"; "ai_decision_next_action";
   "ai_decision_handoff_required"; "ai_decision_confidence"; "ollama_keep_alive";
   "ollama_num_predict"; "ollama_num_ctx"; "max_contract_repair_attempts"].

Definition runtime_usage_keys : list string :=
  ["prompt_eval_count"; "eval_count"; "total_duration_ms"; "load_duration_ms";
   "prompt_eval_duration_ms"; "eval_duration_ms"].

(** [isinstance(v, (int, float))]: booleans are integers *)
Definition is_number (v : json) : bool :=
  match v with JBool _ | JNum _ | JFloat _ => true | _ => false end.

Definition trace_item (v : json) : option json :=
  match v with
  | JBool _ | JNum _ | JFloat _ => Some v
  | JStr s => Some (JStr (str_take 160 s))
  | _ => None
  end.

Definition pick (f : json → option json) (value : json) (key : string) : option (string * json) :=
  v ← f (json_get key value); Some (key, v).

Definition used_source (v : json) : option json :=
  match v with
  | JStr s => if nonempty (py_strip s) then Some (JStr (str_take 240 s)) else None
  | _ => None
  end.

Definition sanitized_ai_turn_runtime_trace (value : json) : option json :=
  match value with
  | JObj _ =>
      let trace := omap (pick trace_item value) AI_TURN_RUNTIME_TRACE_KEYS ++
        match json_get "runtime_usage" value with
        | JObj u => [("runtime_usage",
            JObj (omap (pick (fun v => if is_number v then Some v else None) (JObj u))
                    runtime_usage_keys))]
        | _ => []
        end ++
        match json_get "ai_decision_used_sources" value with
        | JArr l => [("ai_decision_used_sources", JArr (omap used_source (take 20 l)))]
        | _ => []
        end in
      if bool_decide (trace = []) then None else Some (JObj trace)
  | _ => None
  end.

(** ** Rows *)

Definition turn_at (w : Work.t) (i : Z) : option WebchatAITurn.t := table_get (Work.turns w) i.
Definition conversation_at (w : Work.t) (i : Z) : option WebchatConversation.t :=
  table_get (Work.conversations w) i.

Definition the_turn (i : Z) : M Work.t WebchatAITurn.t := fun w =>
  match turn_at w i with
  | Some t => (Ok t, w)
  | None => (Err (RuntimeError "ObjectDeletedError"), w)
  end.
Definition the_conversation (i : Z) : M Work.t WebchatConversation.t := fun w =>
  match conversation_at w i with
  | Some c => (Ok c, w)
  | None => (Err (RuntimeError "ObjectDeletedError"), w)
  end.

Definition upd_turn (i : Z) (f : WebchatAITurn.t → WebchatAITurn.t) (w : Work.t) : Work.t :=
  match turn_at w i with
  | Some t => w <| Work.turns ::= table_put i (f t) |>
  | None => w
  end.
Definition upd_conversation (i : Z) (f : WebchatConversation.t → WebchatConversation.t) (w : Work.t)
    : Work.t :=
  match conversation_at w i with
  | Some c => w <| Work.conversations ::= table_put i (f c) |>
  | None => w
  end.
Definition set_turn (i : Z) (f : WebchatAITurn.t → WebchatAITurn.t) : M Work.t unit :=
  modify (upd_turn i f).
Definition set_conversation (i : Z) (f : WebchatConversation.t → WebchatConversation.t)
    : M Work.t unit := modify (upd_conversation i f).

Definition jid (o : option Z) : json := json_of_option JNum o.

(** [turn.latest_visitor_message_id or turn.trigger_message_id] *)
Definition latest_or_trigger (t : WebchatAITurn.t) : Z :=
  int_or (WebchatAITurn.latest_visitor_message_id t) (WebchatAITurn.trigger_message_id t).

Definition is_ai_suspended_for_handoff (c : WebchatConversation.t) : bool :=
  WebchatConversation.ai_suspended c ||
  bool_decide (WebchatConversation.handoff_status c ∈ ["requested"; "accepted"]) ||
  truthy_id (WebchatConversation.active_agent_id c).

Definition latest_visitor_message_id (conversation_id : Z) (w : Work.t) : option Z :=
  WebchatMessage.id <$> list.last (select (fun m =>
    (WebchatMessage.conversation_id m =? conversation_id) &&
    bool_decide (WebchatMessage.direction m = "visitor")) (Work.wmessages w)).

(** The row that [cancel_open_ai_turns_for_handoff] leaves of an active job *)
Definition cancelled_job (reason : string) (now : Z) (job : BackgroundJob.t) : BackgroundJob.t :=
  job <| BackgroundJob.status := JobStatus.dead |> <| BackgroundJob.last_error := Some reason |>
      <| BackgroundJob.locked_at := None |> <| BackgroundJob.locked_by := None |>
      <| BackgroundJob.next_run_at := None |> <| BackgroundJob.updated_at := now |>.

Definition cleared (now : Z) (c : WebchatConversation.t) : WebchatConversation.t :=
  c <| WebchatConversation.active_ai_turn_id := None |>
    <| WebchatConversation.active_ai_status := None |>
    <| WebchatConversation.active_ai_for_message_id := None |>
    <| WebchatConversation.active_ai_context_cutoff_message_id := None |>
    <| WebchatConversation.active_ai_started_at := None |>
    <| WebchatConversation.active_ai_updated_at := Some now |>.

Definition activated (tid : Z) (t : WebchatAITurn.t) (now : Z) (c : WebchatConversation.t)
    : WebchatConversation.t :=
  c <| WebchatConversation.active_ai_turn_id := Some tid |>
    <| WebchatConversation.active_ai_status := Some (WebchatAITurn.status t) |>
    <| WebchatConversation.active_ai_for_message_id := Some (latest_or_trigger t) |>
    <| WebchatConversation.active_ai_context_cutoff_message_id :=
         WebchatAITurn.context_cutoff_message_id t |>
    <| WebchatConversation.active_ai_started_at :=
         Some (default now (WebchatAITurn.started_at t)) |>
    <| WebchatConversation.active_ai_updated_at := Some now |>
    <| WebchatConversation.updated_at := now |>.

(** ** Operations *)

Section Turns.
Context (delivered : Z → string → bool).

Definition safe_write_webchat_event (conversation_id : Z) (ticket_id : option Z)
    (event_type : string) (payload : list (string * json)) : M Work.t unit :=
  _ ← now;
  when (delivered conversation_id event_type)
    (modify (fun w => w <| Work.wevents ::= fun l => l ++
       [{| WebchatEvent.conversation_id := conversation_id; WebchatEvent.ticket_id := ticket_id;
           WebchatEvent.event_type := event_type; WebchatEvent.payload_json := JObj payload |}] |>)).

Definition _clear_active_snapshot (cid : Z) : M Work.t unit :=
  now ← now; set_conversation cid (cleared now).

Definition clear_active_ai_snapshot_if_current (cid tid : Z) : M Work.t bool :=
  c ← the_conversation cid;
  if decide (WebchatConversation.active_ai_turn_id c = Some tid)
  then _clear_active_snapshot cid;; mret true
  else mret false.

Definition _activate_turn (cid tid : Z) : M Work.t unit :=
  now ← now;
  t ← the_turn tid;
  set_conversation cid (activated tid t now).

Definition _promote_next_turn (cid : Z) : M Work.t (option Z) :=
  c ← the_conversation cid;
  if negb (truthy_id (WebchatConversation.next_ai_turn_id c)) then mret None
  else
    w ← get;
    let next_turn := tid ← WebchatConversation.next_ai_turn_id c; t ← turn_at w tid; Some (tid, t) in
    set_conversation cid (fun c => c <| WebchatConversation.next_ai_turn_id := None |>);;
    match next_turn with
    | Some (tid, t) =>
        if open_turn t then
          _activate_turn cid tid;;
          safe_write_webchat_event cid (WebchatConversation.ticket_id c) "ai_turn.queued"
            [("ai_turn_id", JNum tid); ("promoted_from_next", JBool true)];;
          mret (Some tid)
        else _clear_active_snapshot cid;; mret None
    | None => _clear_active_snapshot cid;; mret None
    end.

(** The end of the active turn: the next one takes its place *)
Definition release_active (cid tid : Z) : M Work.t unit :=
  c ← the_conversation cid;
  when (bool_decide (WebchatConversation.active_ai_turn_id c = Some tid))
    (if truthy_id (WebchatConversation.next_ai_turn_id c)
     then _ ← _promote_next_turn cid; mret tt
     else _clear_active_snapshot cid).

(** An event with the ticket of the turn *)
Definition turn_event (cid tid : Z) (event_type : string) (payload : list (string * json))
    : M Work.t unit :=
  t ← the_turn tid; safe_write_webchat_event cid (WebchatAITurn.ticket_id t) event_type payload.

Definition mark_ai_turn_processing (cid tid : Z) : M Work.t unit :=
  now ← now;
  set_turn tid (fun t => t <| WebchatAITurn.status := "processing" |>
    <| WebchatAITurn.started_at ::= fun o => Some (default now o) |>
    <| WebchatAITurn.updated_at := now |>);;
  set_conversation cid (fun c =>
    if decide (WebchatConversation.active_ai_turn_id c = Some tid)
    then c <| WebchatConversation.active_ai_status := Some "processing" |>
           <| WebchatConversation.active_ai_updated_at := Some now |>
    else c);;
  turn_event cid tid "ai_turn.processing"
    [("ai_turn_id", JNum tid)].

Definition mark_ai_turn_bridge_calling (cid tid : Z) (cutoff : option Z) : M Work.t unit :=
  now ← now;
  set_turn tid (fun t => t <| WebchatAITurn.status := "bridge_calling" |>
    <| WebchatAITurn.context_cutoff_message_id := cutoff |> <| WebchatAITurn.updated_at := now |>);;
  set_conversation cid (fun c =>
    if decide (WebchatConversation.active_ai_turn_id c = Some tid)
    then c <| WebchatConversation.active_ai_status := Some "bridge_calling" |>
           <| WebchatConversation.active_ai_context_cutoff_message_id := cutoff |>
           <| WebchatConversation.active_ai_updated_at := Some now |>
    else c);;
  turn_event cid tid "ai_turn.bridge_calling"
    [("ai_turn_id", JNum tid); ("context_cutoff_message_id", jid cutoff)].

(** The common body of [mark_ai_turn_failed] and [mark_ai_turn_timeout] *)
Definition end_turn (status event_type : string) (cid tid : Z) (reason : string) : M Work.t unit :=
  now ← now;
  set_turn tid (fun t => t <| WebchatAITurn.status := status |>
    <| WebchatAITurn.status_reason := Some reason |> <| WebchatAITurn.completed_at := Some now |>
    <| WebchatAITurn.updated_at := now |>);;
  turn_event cid tid event_type
    [("ai_turn_id", JNum tid); ("reason", JStr reason)];;
  _ ← clear_active_ai_snapshot_if_current cid tid;
  mret tt.

Definition mark_ai_turn_failed : Z → Z → string → M Work.t unit := end_turn "failed" "ai_turn.failed".
Definition mark_ai_turn_timeout : Z → Z → string → M Work.t unit :=
  end_turn "timeout" "ai_turn.timeout".

Definition supersede_ai_turn (cid tid : Z) (superseded_by : option Z) (reason : option string)
    : M Work.t unit :=
  now ← now;
  let why := str_or reason "newer_visitor_message_present" in
  set_turn tid (fun t => t <| WebchatAITurn.status := "superseded" |>
    <| WebchatAITurn.status_reason := Some why |>
    <| WebchatAITurn.superseded_by_turn_id := superseded_by |>
    <| WebchatAITurn.is_public_reply_allowed := false |>
    <| WebchatAITurn.completed_at := Some now |> <| WebchatAITurn.updated_at := now |>);;
  turn_event cid tid "ai_turn.superseded"
    [("ai_turn_id", JNum tid); ("superseded_by_turn_id", jid superseded_by); ("reason", JStr why)];;
  release_active cid tid.

Definition should_suppress_stale_reply (cid : Z) (turn : option Z) (w : Work.t) : bool :=
  match conversation_at w cid with
  | Some c =>
      is_ai_suspended_for_handoff c ||
      match t ← turn; turn_at w t with
      | None => false
      | Some t =>
          negb (WebchatAITurn.is_public_reply_allowed t) || terminal_turn t ||
          let cutoff := int_or (WebchatAITurn.context_cutoff_message_id t) (latest_or_trigger t) in
          match latest_visitor_message_id cid w with
          | Some latest => cutoff <? latest
          | None => false
          end
      end
  | None => false
  end.

Definition suppress_stale_reply_if_needed (cid : Z) (turn : option Z) (reason : string)
    : M Work.t bool :=
  w ← get;
  match turn with
  | Some tid =>
      if should_suppress_stale_reply cid turn w then
        supersede_ai_turn cid tid None (Some reason);;
        w ← get;
        turn_event cid tid "webchat_ai_reply_suppressed_stale"
          [("ai_turn_id", JNum tid); ("reason", JStr reason);
           ("latest_visitor_message_id", jid (latest_visitor_message_id cid w))];;
        mret true
      else mret false
  | None => mret false
  end.

(** *** Cancellation by a handoff *)

Definition cancelled_turn (actor : option Z) (reason : string) (now : Z) (t : WebchatAITurn.t)
    : WebchatAITurn.t :=
  t <| WebchatAITurn.status := "cancelled" |> <| WebchatAITurn.status_reason := Some reason |>
    <| WebchatAITurn.is_public_reply_allowed := false |>
    <| WebchatAITurn.cancelled_by_user_id := actor |>
    <| WebchatAITurn.cancellation_reason_code := Some reason |>
    <| WebchatAITurn.completed_at := Some now |> <| WebchatAITurn.updated_at := now |>.

(** [if turn.job_id: ...] *)
Definition cancel_job (job_id : option Z) (reason : string) (now : Z) : M Work.t unit :=
  match job_id with
  | Some j => when (negb (j =? 0))
                (set_job j (fun job => if active job then cancelled_job reason now job else job))
  | None => mret tt
  end.

Definition cancel_turn (cid : Z) (actor : option Z) (reason : string) (now : Z) (t : WebchatAITurn.t)
    : M Work.t unit :=
  set_turn (WebchatAITurn.id t) (cancelled_turn actor reason now);;
  cancel_job (WebchatAITurn.job_id t) reason now;;
  safe_write_webchat_event cid (WebchatAITurn.ticket_id t) "ai_turn.cancelled_by_handoff"
    [("ai_turn_id", JNum (WebchatAITurn.id t)); ("actor_id", jid actor); ("reason", JStr reason)].

Definition open_turns (cid : Z) (w : Work.t) : list WebchatAITurn.t :=
  select (fun t => (WebchatAITurn.conversation_id t =? cid) && open_turn t) (Work.turns w).

Definition cancel_open_ai_turns_for_handoff (cid : Z) (actor : option Z) (reason : string)
    : M Work.t Z :=
  now ← now;
  w ← get;
  let turns := open_turns cid w in
  iterM (cancel_turn cid actor reason now) turns;;
  set_conversation cid (fun c => c <| WebchatConversation.next_ai_turn_id := None |>);;
  c ← the_conversation cid;
  when (negb (bool_decide (turns = [])) || truthy_id (WebchatConversation.active_ai_turn_id c))
    (_clear_active_snapshot cid);;
  mret (Z.of_nat (length turns)).
End Turns.

(** *** The end of a run *)

(** The dict that the run of the model returns *)
Module Reply.
Record t := {
  status : option string; reason : option string; message_id : option Z;
  reply_source : option string; fallback_reason : option string; fact_gate_reason : option string;
  bridge_elapsed_ms : option Z; bridge_wait_timeout_ms : option Z; runtime_trace : json;
  turn_finalized : bool }.
#[global] Instance eta : Settable t := fun r => {|
  status := status r; reason := reason r; message_id := message_id r;
  reply_source := reply_source r; fallback_reason := fallback_reason r;
  fact_gate_reason := fact_gate_reason r; bridge_elapsed_ms := bridge_elapsed_ms r;
  bridge_wait_timeout_ms := bridge_wait_timeout_ms r; runtime_trace := runtime_trace r;
  turn_finalized := turn_finalized r |}.
Definition empty : t :=
  {| status := None; reason := None; message_id := None; reply_source := None;
     fallback_reason := None; fact_gate_reason := None; bridge_elapsed_ms := None;
     bridge_wait_timeout_ms := None; runtime_trace := JNull; turn_finalized := false |}.
End Reply.

Definition status_is (r : Reply.t) (l : list string) : bool :=
  match Reply.status r with Some s => bool_decide (s ∈ l) | None => false end.

(** [if wait_timeout_ms is not None: turn.bridge_timeout_ms = int(wait_timeout_ms)] *)
Definition with_timeout (r : Reply.t) (t : WebchatAITurn.t) : WebchatAITurn.t :=
  match Reply.bridge_wait_timeout_ms r with
  | Some ms => t <| WebchatAITurn.bridge_timeout_ms := Some ms |>
  | None => t
  end.

Definition unanswered_turn (r : Reply.t) (t : WebchatAITurn.t) : WebchatAITurn.t :=
  with_timeout r
    (t <| WebchatAITurn.runtime_trace_json := sanitized_ai_turn_runtime_trace (Reply.runtime_trace r) |>
       <| WebchatAITurn.reply_source := Reply.reply_source r |>
       <| WebchatAITurn.fallback_reason := Reply.fallback_reason r |>
       <| WebchatAITurn.bridge_elapsed_ms := Reply.bridge_elapsed_ms r |>).

Definition answered_turn (r : Reply.t) (now : Z) (t : WebchatAITurn.t) : WebchatAITurn.t :=
  with_timeout r
    (t <| WebchatAITurn.status := "completed" |>
       <| WebchatAITurn.reply_message_id := Reply.message_id r |>
       <| WebchatAITurn.reply_source := Reply.reply_source r |>
       <| WebchatAITurn.fallback_reason := Reply.fallback_reason r |>
       <| WebchatAITurn.fact_gate_reason := Reply.fact_gate_reason r |>
       <| WebchatAITurn.bridge_elapsed_ms := Reply.bridge_elapsed_ms r |>)
    <| WebchatAITurn.runtime_trace_json := sanitized_ai_turn_runtime_trace (Reply.runtime_trace r) |>
    <| WebchatAITurn.completed_at := Some now |> <| WebchatAITurn.updated_at := now |>.

Section Complete.
Context (delivered : Z → string → bool).

Definition complete_ai_turn_with_reply (cid tid : Z) (r : Reply.t) : M Work.t unit :=
  if status_is r ["superseded"] then
    supersede_ai_turn delivered cid tid None (Some (str_or (Reply.reason r) "reply_suppressed"))
  else if status_is r ["null_reply"; "review_required"; "failed_no_public_reply"] then
    set_turn tid (unanswered_turn r);;
    mark_ai_turn_failed delivered cid tid
      (str_or (Reply.reason r) (str_or (Reply.fallback_reason r) "ai_failed_no_public_reply"))
  else
    now ← now;
    set_turn tid (answered_turn r now);;
    turn_event delivered cid tid "message.created"
      [("message_id", jid (Reply.message_id r)); ("direction", JStr "agent"); ("ai_turn_id", JNum tid)];;
    turn_event delivered cid tid
      (if truthy_str (Reply.fallback_reason r) then "ai_turn.fallback" else "ai_turn.completed")
      [("ai_turn_id", JNum tid); ("message_id", jid (Reply.message_id r));
       ("reply_source", jopt (Reply.reply_source r)); ("fallback_reason", jopt (Reply.fallback_reason r))];;
    release_active delivered cid tid.
End Complete.

(** *** Scheduling *)

Inductive Scheduled :=
| Suppressed
| Coalesced (turn : Z)
| QueuedNext (turn : Z)
| Queued (turn : Z).
#[global] Instance Scheduled_eq_dec : EqDecision Scheduled.
Proof. solve_decision. Defined.

Definition new_turn (cid : Z) (ticket_id : option Z) (message now id : Z) : WebchatAITurn.t :=
  {| WebchatAITurn.id := id; WebchatAITurn.conversation_id := cid;
     WebchatAITurn.ticket_id := ticket_id; WebchatAITurn.trigger_message_id := message;
     WebchatAITurn.latest_visitor_message_id := Some message;
     WebchatAITurn.context_cutoff_message_id := None; WebchatAITurn.job_id := None;
     WebchatAITurn.status := "queued"; WebchatAITurn.status_reason := None;
     WebchatAITurn.reply_message_id := None; WebchatAITurn.reply_source := None;
     WebchatAITurn.fallback_reason := None; WebchatAITurn.fact_gate_reason := None;
     WebchatAITurn.bridge_elapsed_ms := None; WebchatAITurn.bridge_timeout_ms := None;
     WebchatAITurn.runtime_trace_json := None; WebchatAITurn.superseded_by_turn_id := None;
     WebchatAITurn.is_public_reply_allowed := true; WebchatAITurn.cancelled_by_user_id := None;
     WebchatAITurn.cancellation_reason_code := None; WebchatAITurn.started_at := None;
     WebchatAITurn.completed_at := None; WebchatAITurn.created_at := now;
     WebchatAITurn.updated_at := now |}.

Definition trigger_taken (message : Z) (w : Work.t) : bool :=
  not_null (select_first (fun t => WebchatAITurn.trigger_message_id t =? message) (Work.turns w)).

(** [db.add(turn); db.flush()] under the unique constraint on the trigger message *)
Definition insert_turn (mk : Z → WebchatAITurn.t) : M Work.t Z := fun w =>
  let t := mk (tnext (Work.turns w)) in
  if trigger_taken (WebchatAITurn.trigger_message_id t) w
  then (Err (IntegrityError "uq_webchat_ai_turn_trigger_message"), w)
  else (Ok (WebchatAITurn.id t), w <| Work.turns ::= fun T => table_add T mk |>).

Section Schedule.
Context (delivered : Z → string → bool).
(** The callback that enqueues the job of a turn: payload, dedupe key, start *)
Context (create_job : json → string → Z → M Work.t BackgroundJob.t).

#[local] Abbreviation write_event := (safe_write_webchat_event delivered).

(** A turn with its job *)
Definition add_turn (cid : Z) (ticket_id : option Z) (message now at_ : Z) : M Work.t Z :=
  tid ← insert_turn (new_turn cid ticket_id message now);
  job ← create_job
          (JObj [("conversation_id", JNum cid); ("ticket_id", jid ticket_id);
                 ("visitor_message_id", JNum message); ("ai_turn_id", JNum tid)])
          ("webchat-ai-turn:" +:+ pretty tid) at_;
  set_turn tid (fun t => t <| WebchatAITurn.job_id := Some (BackgroundJob.id job) |>);;
  mret tid.

(** The message joins the queued turn, whose job is put off *)
Definition coalesce (cid : Z) (ticket_id : option Z) (message now at_ tid : Z) (job_id : option Z)
    : M Work.t Scheduled :=
  set_turn tid (fun t => t <| WebchatAITurn.latest_visitor_message_id := Some message |>
                           <| WebchatAITurn.updated_at := now |>);;
  set_conversation cid (fun c => c <| WebchatConversation.active_ai_for_message_id := Some message |>
                                   <| WebchatConversation.active_ai_updated_at := Some now |>);;
  match job_id with
  | Some j => when (negb (j =? 0))
                (set_job j (fun job => job <| BackgroundJob.next_run_at := Some at_ |>
                                           <| BackgroundJob.updated_at := now |>))
  | None => mret tt
  end;;
  write_event cid ticket_id "ai_turn.coalesced"
    [("ai_turn_id", JNum tid); ("latest_visitor_message_id", JNum message)];;
  mret (Coalesced tid).

(** A turn for after the active one *)
Definition queue_next (cid : Z) (ticket_id : option Z) (message now at_ tid : Z) : M Work.t Scheduled :=
  next ← add_turn cid ticket_id message now at_;
  set_conversation cid (fun c =>
    c <| WebchatConversation.next_ai_turn_id := Some next |>
      <| WebchatConversation.active_ai_updated_at := Some now |>);;
  write_event cid ticket_id "ai_turn.queued"
    [("ai_turn_id", JNum next); ("queued_as_next", JBool true); ("active_ai_turn_id", JNum tid)];;
  mret (QueuedNext next).

(** A turn that becomes the active one *)
Definition start_turn (cid : Z) (ticket_id : option Z) (message now at_ : Z) : M Work.t Scheduled :=
  new ← add_turn cid ticket_id message now at_;
  _activate_turn cid new;;
  write_event cid ticket_id "ai_turn.queued"
    [("ai_turn_id", JNum new); ("trigger_message_id", JNum message)];;
  mret (Queued new).

(** The turn of the snapshot, unless it has ended: then the snapshot is cleared *)
Definition active_turn (cid : Z) : M Work.t (option (Z * WebchatAITurn.t)) :=
  c ← the_conversation cid;
  if truthy_id (WebchatConversation.active_ai_turn_id c) then
    w ← get;
    match tid ← WebchatConversation.active_ai_turn_id c; t ← turn_at w tid; Some (tid, t) with
    | Some (tid, t) =>
        if terminal_turn t
        then _ ← clear_active_ai_snapshot_if_current cid tid; mret None
        else mret (Some (tid, t))
    | None => mret None
    end
  else mret None.

Definition schedule_webchat_ai_turn (cid : Z) (ticket_id : option Z) (message : WebchatMessage.t)
    (debounce : Z) : M Work.t Scheduled :=
  let m := WebchatMessage.id message in
  now ← now;
  let debounce_at := now + Z.max 0 debounce in
  write_event cid ticket_id "message.created"
    [("message_id", JNum m); ("direction", JStr (WebchatMessage.direction message))];;
  c ← the_conversation cid;
  if is_ai_suspended_for_handoff c then
    write_event cid ticket_id "ai_turn.suppressed_by_handoff"
      [("trigger_message_id", JNum m); ("handoff_status", JStr (WebchatConversation.handoff_status c));
       ("current_handoff_request_id", jid (WebchatConversation.current_handoff_request_id c));
       ("ai_suspended_reason", jopt (WebchatConversation.ai_suspended_reason c))];;
    mret Suppressed
  else
    active ← active_turn cid;
    match active with
    | Some (tid, t) =>
        if decide (WebchatAITurn.status t = "queued")
        then coalesce cid ticket_id m now debounce_at tid (WebchatAITurn.job_id t)
        else if bool_decide (WebchatAITurn.status t ∈
                  ["processing"; "bridge_calling"; "fallback_generating"])
        then queue_next cid ticket_id m now debounce_at tid
        else start_turn cid ticket_id m now debounce_at
    | None => start_turn cid ticket_id m now debounce_at
    end.
End Schedule.

(** The callback of [api/webchat_public.py] and [services/whatsapp_inbound.py] *)
Definition create_turn_job (cfg : JobSettings.t) (payload : json) (dedupe_key : string)
    (scheduled_at : Z) : M Work.t BackgroundJob.t :=
  enqueue_background_job cfg "webchat_ai_reply" WEBCHAT_AI_REPLY_JOB payload None (Some scheduled_at)
    (Some dedupe_key).

(** ** The job of an AI reply *)

Definition AI_AUTHOR_LABEL : string := "AI Assistant".

Definition message_at (w : Work.t) (i : Z) : option WebchatMessage.t :=
  table_get (Work.wmessages w) i.

Definition set_message (i : Z) (f : WebchatMessage.t → WebchatMessage.t) : M Work.t unit :=
  modify (fun w => match message_at w i with
                   | Some m => w <| Work.wmessages ::= table_put i (f m) |>
                   | None => w
                   end).

Definition found {A} (o : option A) (message : string) : M Work.t A :=
  match o with Some a => mret a | None => raise (RuntimeError message) end.

(** The ticket of the conversation and of the message agree *)
Definition _load_context (cid : Z) (ticket_id : option Z) (message_id : Z) : M Work.t unit :=
  w ← get;
  c ← found (conversation_at w cid) ("webchat conversation not found: conversation_id=" +:+ pretty cid);
  m ← found (message_at w message_id)
        ("visitor message not found: visitor_message_id=" +:+ pretty message_id);
  require (WebchatMessage.conversation_id m =? cid) (RuntimeError "webchat job payload mismatch");;
  match WebchatConversation.ticket_id c with
  | None =>
      let ticket := match ticket_id with Some i => ticket_at (Work.core w) i | None => None end in
      require (negb (not_null ticket) && negb (not_null (WebchatMessage.ticket_id m)))
        (RuntimeError "ticketless webchat job payload mismatch")
  | Some i =>
      require (match ticket_id with Some i' => i' =? i | None => true end)
        (RuntimeError "ticket-backed webchat job payload mismatch");;
      _ ← found (ticket_at (Work.core w) i) "conversation ticket not found";
      match WebchatMessage.ticket_id m with
      | None => set_message message_id (fun m => m <| WebchatMessage.ticket_id := Some i |>)
      | Some i' => require (i' =? i) (RuntimeError "ticket-backed webchat job payload mismatch")
      end
  end.

Definition answers (c : WebchatConversation.t) (message_id : Z) (t : WebchatAITurn.t) : bool :=
  (WebchatAITurn.trigger_message_id t =? message_id) ||
  bool_decide (WebchatAITurn.latest_visitor_message_id t = Some message_id) ||
  bool_decide (WebchatConversation.active_ai_turn_id c = Some (WebchatAITurn.id t)).

Definition _open_turn_for_message (cid message_id : Z) (w : Work.t) : option Z :=
  c ← conversation_at w cid;
  WebchatAITurn.id <$> head (filter (fun t => answers c message_id t = true) (open_turns cid w)).

Definition _agent_reply_exists (cid message_id : Z) (w : Work.t) : bool :=
  not_null (select_first (fun m =>
    (WebchatMessage.conversation_id m =? cid) && bool_decide (WebchatMessage.direction m = "agent") &&
    (message_id <? WebchatMessage.id m) &&
    bool_decide (WebchatMessage.author_label m = Some AI_AUTHOR_LABEL)) (Work.wmessages w)).

Definition no_public_outcome_statuses : list string :=
  ["null_reply"; "review_required"; "failed_no_public_reply"].

(** [_require_customer_terminal_outcome]: raised when the run has no outcome for the
    customer, so that the job is retried *)
Definition safe_reason_char (c : Ascii.ascii) : bool :=
  is_alnum c || bool_decide (code c ∈ [95; 45; 46; 58]).
Definition _require_customer_terminal_outcome (r : Reply.t) : M Work.t unit :=
  let status := py_lower (py_strip (str_or (Reply.status r) EmptyString)) in
  let reason := py_strip (str_or (Reply.reason r) (str_or (Reply.fallback_reason r) status)) in
  let filtered := drop_chars (fun c => negb (safe_reason_char c)) (str_take 120 reason) in
  let safe_reason := if nonempty filtered then filtered else status in
  require (negb (bool_decide (status ∈ no_public_outcome_statuses)) || Reply.turn_finalized r)
    (RuntimeError ("webchat_ai_customer_outcome_required:" +:+ status +:+ ":" +:+ safe_reason)).

Section ReplyJob.
Context (delivered : Z → string → bool).
(** Conversation, message and turn: the customer's answer to a pending confirmation and
    the tool it releases ([_resolve_customer_confirmation], [_execute_confirmed_action]) *)
Context (confirmed_action : Z → Z → option Z → M Work.t unit).
(** Conversation, ticket, message and turn: the run of the model
    ([webchat_ai_service.process_webchat_ai_reply_job]) *)
Context (_run_agent_reply : Z → option Z → Z → option Z → M Work.t Reply.t).
(** [request_webchat_handoff] for the mode without automatic replies *)
Context (request_handoff : Z → option Z → Z → option Z → M Work.t unit).
(** [settings.webchat_ai_auto_reply_mode] is off *)
Context (auto_reply_disabled : bool).

Definition _complete_turn (cid : Z) (turn : option Z) (r : Reply.t) : M Work.t unit :=
  match turn with
  | Some tid => when (negb (Reply.turn_finalized r)) (complete_ai_turn_with_reply delivered cid tid r)
  | None => mret tt
  end.

Definition _record_disabled (cid : Z) (ticket_id : option Z) (message_id : Z) (turn : option Z)
    : M Work.t unit :=
  let payload := JObj [("conversation_id", JNum cid); ("visitor_message_id", JNum message_id);
                       ("ai_turn_id", jid turn)] in
  _ ← now;
  match ticket_id with
  | Some i =>
      on_core (log_event
        {| TicketEvent.ticket_id := i; TicketEvent.actor_id := None;
           TicketEvent.event_type := EventType.internal_note_added; TicketEvent.field_name := None;
           TicketEvent.old_value := None; TicketEvent.new_value := None;
           TicketEvent.note := Some "Webchat AI auto reply disabled";
           TicketEvent.payload_json := payload |})
  | None =>
      modify (fun w => w <| Work.wevents ::= fun l => l ++
        [{| WebchatEvent.conversation_id := cid; WebchatEvent.ticket_id := None;
            WebchatEvent.event_type := "ai_turn.disabled"; WebchatEvent.payload_json := payload |}] |>)
  end.

(** The ticket of the conversation, as the job sees it *)
Definition current_ticket (cid : Z) (w : Work.t) : option Z :=
  c ← conversation_at w cid; i ← WebchatConversation.ticket_id c;
  (fun _ => i) <$> ticket_at (Work.core w) i.

(** A queued turn goes to the provider, with the latest message as its cutoff. *)
Definition begin_turn (cid tid : Z) : M Work.t unit :=
  t ← the_turn tid;
  when (bool_decide (WebchatAITurn.status t = "queued"))
    (mark_ai_turn_processing delivered cid tid;;
     w ← get;
     mark_ai_turn_bridge_calling delivered cid tid (latest_visitor_message_id cid w)).

Definition skipped (why source : string) : Reply.t :=
  Reply.empty <| Reply.status := Some "skipped" |> <| Reply.reason := Some why |>
              <| Reply.reply_source := Some source |>.

(** The reply, once nothing stands against it *)
Definition reply (cid message_id : Z) (turn : option Z) : M Work.t unit :=
  w ← get;
  let ticket_id := current_ticket cid w in
  r ← (if auto_reply_disabled
       then _record_disabled cid ticket_id message_id turn;;
            mret (skipped "webchat_ai_auto_reply_off" "off")
       else _run_agent_reply cid ticket_id message_id turn);
  _require_customer_terminal_outcome r;;
  _complete_turn cid turn r;;
  when auto_reply_disabled (request_handoff cid ticket_id message_id turn).

Definition process_webchat_ai_reply_job (cid : Z) (ticket_id : option Z) (message_id : Z)
    : M Work.t unit :=
  _load_context cid ticket_id message_id;;
  w ← get;
  let turn := _open_turn_for_message cid message_id w in
  confirmed_action cid message_id turn;;
  c ← the_conversation cid;
  if is_ai_suspended_for_handoff c
  then _ ← cancel_open_ai_turns_for_handoff delivered cid None "handoff_ai_suspended_before_runtime";
       mret tt
  else
    match turn with Some tid => begin_turn cid tid | None => mret tt end;;
    w ← get;
    if _agent_reply_exists cid message_id w
    then _complete_turn cid turn (skipped "agent_reply_already_exists" "existing_reply")
    else
      stale ← suppress_stale_reply_if_needed delivered cid turn "newer_message_before_reply";
      when (negb stale) (reply cid message_id turn).
End ReplyJob.
