(* ===== verification/TurnRules.v ===== *)
(** * Rules for AI turns

    The invariant of turns and snapshots, the triples of the operations of AiTurns.v under
    it, what the job of a reply leaves alone, and when it runs the model. *)

From S2P Require Import Prelude Calendar Enums Models Work Tenancy Sla Redaction JobScope Jobs.
From S2P Require Import AiTurns.

(** ** The invariant of turns and snapshots *)

Definition no_reply_yet (t : WebchatAITurn.t) : Prop :=
  open_turn t = true ∧ WebchatAITurn.completed_at t = None ∧
  WebchatAITurn.is_public_reply_allowed t = true.
Definition ended (t : WebchatAITurn.t) : Prop :=
  terminal_turn t = true ∧ is_Some (WebchatAITurn.completed_at t).

(** The snapshot of a conversation: the active turn is an open turn of the conversation
    with the status that the snapshot shows, except for the turns of [ex]; the next turn
    is a turn of the conversation. *)
Definition snapshot_ok (ex : Z → Z → Prop) (w : Work.t) (cid : Z) (c : WebchatConversation.t) : Prop :=
  (∀ tid, WebchatConversation.active_ai_turn_id c = Some tid →
     ex cid tid ∨
     ∃ t, turn_at w tid = Some t ∧ WebchatAITurn.conversation_id t = cid ∧ open_turn t = true ∧
       WebchatConversation.active_ai_status c = Some (WebchatAITurn.status t)) ∧
  (∀ tid, WebchatConversation.next_ai_turn_id c = Some tid →
     ∃ t, turn_at w tid = Some t ∧ WebchatAITurn.conversation_id t = cid).

Record turns_ok (ex : Z → Z → Prop) (w : Work.t) : Prop := {
  turns_fresh : table_wf (Work.turns w);
  turns_rows : ∀ i t, turn_at w i = Some t → WebchatAITurn.id t = i ∧ (no_reply_yet t ∨ ended t) ∧
    is_Some (conversation_at w (WebchatAITurn.conversation_id t));
  turns_snapshots : ∀ cid c, conversation_at w cid = Some c → snapshot_ok ex w cid c }.

Definition nowhere (_ _ : Z) : Prop := False.
Definition only (cid tid c i : Z) : Prop := c = cid ∧ i = tid.

(** A turn of the conversation with a property *)
Definition has_turn (cid tid : Z) (Q : WebchatAITurn.t → Prop) (w : Work.t) : Prop :=
  ∃ t, turn_at w tid = Some t ∧ WebchatAITurn.conversation_id t = cid ∧ Q t.

Definition same_turns (w w' : Work.t) : Prop :=
  Work.turns w' = Work.turns w ∧ Work.conversations w' = Work.conversations w.
(** A property of the turns and conversations alone *)
Definition of_turns (P : Work.t → Prop) : Prop := ∀ w w', same_turns w w' → P w → P w'.

Lemma turns_ok_of ex : of_turns (turns_ok ex).
Proof.
  intros w w' [Ht Hc] [H1 H2 H3].
  split; unfold snapshot_ok, turn_at, conversation_at in *; by rewrite ?Ht, ?Hc.
Qed.

Lemma has_turn_of cid tid Q : of_turns (has_turn cid tid Q).
Proof. intros w w' [Ht _] (t & E & H). exists t. unfold turn_at. rewrite Ht. by split. Qed.

Lemma of_turns_and P Q : of_turns P → of_turns Q → of_turns (fun w => P w ∧ Q w).
Proof. intros HP HQ w w' H [H1 H2]. split; [by eapply HP|by eapply HQ]. Qed.

#[export] Hint Resolve turns_ok_of has_turn_of of_turns_and : nexus.

Lemma turn_at_upd i f w j :
  turn_at (upd_turn i f w) j = if decide (i = j) then f <$> turn_at w j else turn_at w j.
Proof.
  unfold upd_turn. destruct (turn_at w i) as [t|] eqn:E.
  - unfold turn_at at 1, table_get. cbn. rewrite lookup_table_put.
    case_decide as Hj; [subst j; by rewrite E|done].
  - case_decide as Hj; [subst j; by rewrite E|done].
Qed.

Lemma conversation_at_turn i f w j : conversation_at (upd_turn i f w) j = conversation_at w j.
Proof. unfold upd_turn. by destruct (turn_at w i). Qed.

Lemma turn_at_conversation i f w j : turn_at (upd_conversation i f w) j = turn_at w j.
Proof. unfold upd_conversation. by destruct (conversation_at w i). Qed.

Lemma conversation_at_upd i f w j :
  conversation_at (upd_conversation i f w) j =
  if decide (i = j) then f <$> conversation_at w j else conversation_at w j.
Proof.
  unfold upd_conversation. destruct (conversation_at w i) as [t|] eqn:E.
  - unfold conversation_at at 1, table_get. cbn. rewrite lookup_table_put.
    case_decide as Hj; [subst j; by rewrite E|done].
  - case_decide as Hj; [subst j; by rewrite E|done].
Qed.

(** Assigning attributes of a turn: the snapshot may be out of date afterwards. *)
Lemma upd_turn_ok cid tid (f : WebchatAITurn.t → WebchatAITurn.t) w :
  (∀ t, WebchatAITurn.id (f t) = WebchatAITurn.id t) →
  (∀ t, WebchatAITurn.conversation_id (f t) = WebchatAITurn.conversation_id t) →
  (∀ t, turn_at w tid = Some t → WebchatAITurn.conversation_id t = cid ∧ (no_reply_yet (f t) ∨ ended (f t))) →
  turns_ok nowhere w → turns_ok (only cid tid) (upd_turn tid f w).
Proof.
  intros Hid Hconv Hf [H1 H2 H3]. split.
  - unfold upd_turn. destruct (turn_at w tid) as [t|] eqn:E; [|done]. apply table_wf_put; [done|].
    unfold turn_at in E. unfold table_get in E. by rewrite E.
  - intros i t. rewrite turn_at_upd, conversation_at_turn. case_decide as Hi.
    + subst i. destruct (turn_at w tid) as [t0|] eqn:E; [|done]. intros [= <-].
      destruct (H2 tid t0 E) as (? & _ & ?). rewrite Hid, Hconv. split_and!; [done| |done].
      by apply Hf.
    + apply H2.
  - intros c' c. rewrite conversation_at_turn. intros Hc. destruct (H3 c' c Hc) as [Ha Hn]. split.
    + intros i Hi. destruct (Ha i Hi) as [[]|(t & E & Et & Ho & Hs)].
      destruct (decide (i = tid)) as [->|Hne].
      * left. split; [|done]. destruct (Hf t E) as [<- _]. done.
      * right. exists t. rewrite turn_at_upd, decide_False by done. done.
    + intros i Hi. destruct (Hn i Hi) as (t & E & Et). rewrite turn_at_upd.
      case_decide; [subst i; rewrite E; exists (f t); by rewrite Hconv|by exists t].
Qed.

(** Attributes the invariant does not read *)
Definition same_state (t t' : WebchatAITurn.t) : Prop :=
  WebchatAITurn.id t' = WebchatAITurn.id t ∧
  WebchatAITurn.conversation_id t' = WebchatAITurn.conversation_id t ∧
  WebchatAITurn.status t' = WebchatAITurn.status t ∧
  WebchatAITurn.completed_at t' = WebchatAITurn.completed_at t ∧
  WebchatAITurn.is_public_reply_allowed t' = WebchatAITurn.is_public_reply_allowed t.

Lemma same_state_ok t t' : same_state t t' → no_reply_yet t ∨ ended t → no_reply_yet t' ∨ ended t'.
Proof.
  intros (_ & _ & Hs & Hc & Hp). unfold no_reply_yet, ended, open_turn, terminal_turn.
  by rewrite Hs, Hc, Hp.
Qed.

Lemma upd_turn_same ex tid f w :
  (∀ t, same_state t (f t)) → turns_ok ex w → turns_ok ex (upd_turn tid f w).
Proof.
  intros Hf [H1 H2 H3].
  assert (∀ i t, turn_at w i = Some t → ∃ t', turn_at (upd_turn tid f w) i = Some t' ∧ same_state t t') as Hat.
  { intros i t E. rewrite turn_at_upd, E. case_decide; [by exists (f t)|by exists t]. }
  split.
  - unfold upd_turn. destruct (turn_at w tid) as [t|] eqn:E; [|done]. apply table_wf_put; [done|].
    unfold turn_at, table_get in E. by rewrite E.
  - intros i t'. rewrite turn_at_upd, conversation_at_turn. intros E.
    assert (∃ t, turn_at w i = Some t ∧ same_state t t') as (t & Et & Hs).
    { case_decide; [|by exists t']. destruct (turn_at w i) as [t|]; [|done]. injection E as <-. by exists t. }
    destruct (H2 i t Et) as (Hi & Hr & Hc). pose proof Hs as (-> & -> & _).
    split_and!; [done| |done]. by eapply same_state_ok.
  - intros c' c. rewrite conversation_at_turn. intros Hc. destruct (H3 c' c Hc) as [Ha Hn]. split.
    + intros i Hi. destruct (Ha i Hi) as [?|(t & E & Et & Ho & Hst)]; [by left|right].
      destruct (Hat i t E) as (t' & E' & Hs). exists t'. pose proof Hs as (_ & Hcv & Hs' & _).
      unfold open_turn in *. rewrite Hcv, Hs'. done.
    + intros i Hi. destruct (Hn i Hi) as (t & E & Et). destruct (Hat i t E) as (t' & E' & _ & Hcv & _).
      exists t'. by rewrite Hcv.
Qed.

(** Assigning attributes of the conversation may repair its snapshot. *)
Lemma upd_conversation_ok ex ex' cid f w :
  (∀ c i, c ≠ cid → ex c i → ex' c i) →
  (∀ c, conversation_at w cid = Some c → snapshot_ok ex' w cid (f c)) →
  turns_ok ex w → turns_ok ex' (upd_conversation cid f w).
Proof.
  intros Hex Hf [H1 H2 H3]. split.
  - unfold upd_conversation. by destruct (conversation_at w cid).
  - intros i t. rewrite turn_at_conversation, conversation_at_upd. intros E.
    destruct (H2 i t E) as (? & ? & [c Hc]). split_and!; [done..|]. rewrite Hc.
    by case_decide.
  - intros c' c. rewrite conversation_at_upd. unfold snapshot_ok. setoid_rewrite turn_at_conversation.
    case_decide as Hi.
    + subst c'. destruct (conversation_at w cid) as [c0|] eqn:E; [|done]. intros [= <-]. by apply Hf.
    + intros Hc. destruct (H3 c' c Hc) as [Ha Hn]. split; [|done]. intros i Hi'.
      destruct (Ha i Hi') as [?|?]; [left; by apply Hex|by right].
Qed.

(** A snapshot that shows another turn is up to date. *)
Lemma turns_ok_other cid tid c w :
  turns_ok (only cid tid) w → conversation_at w cid = Some c →
  WebchatConversation.active_ai_turn_id c ≠ Some tid → turns_ok nowhere w.
Proof.
  intros [H1 H2 H3] Hc Hne. split; [done|done|]. intros c' x Hx. destruct (H3 c' x Hx) as [Ha Hn].
  split; [|done]. intros i Hi. destruct (Ha i Hi) as [[-> ->]|?]; [|by right]. congruence.
Qed.

(** *** Triples of programs that do not raise *)

Definition runs {A} (P : Work.t → Prop) (m : M Work.t A) (Q : A → Work.t → Prop) : Prop :=
  hoare P m Q (fun _ _ => False).

Lemma runs_ret {A} (P : Work.t → Prop) (a : A) Q : (∀ w, P w → Q a w) → runs P (mret a) Q.
Proof. apply hoare_ret. Qed.
Lemma runs_get (P : Work.t → Prop) Q : (∀ w, P w → Q w w) → runs P get Q.
Proof. intros H w Hw. by apply H. Qed.
Lemma runs_modify (P : Work.t → Prop) f (Q : unit → Work.t → Prop) :
  (∀ w, P w → Q tt (f w)) → runs P (modify f) Q.
Proof. apply hoare_modify. Qed.
Lemma runs_bind {A B} P (m : M Work.t A) (k : A → M Work.t B) R Q :
  runs P m R → (∀ a, runs (R a) (k a) Q) → runs P (m ≫= k) Q.
Proof. apply hoare_bind. Qed.
Lemma runs_seq {A B} P R (m : M Work.t A) (k : A → M Work.t B) Q :
  runs P m (fun _ => R) → (∀ a, runs R (k a) Q) → runs P (m ≫= k) Q.
Proof. apply hoare_bind. Qed.
Lemma runs_when P b m Q : (b = true → runs P m Q) → (b = false → ∀ w, P w → Q tt w) → runs P (when b m) Q.
Proof. destruct b; intros H1 H2; [by apply H1|]. apply runs_ret. by apply H2. Qed.
Lemma runs_pre {A} (P P' : Work.t → Prop) (m : M Work.t A) Q :
  (∀ w, P w → P' w) → runs P' m Q → runs P m Q.
Proof. intros H1 H2. eapply hoare_conseq; [exact H1| | |exact H2]; done. Qed.
Lemma runs_post {A} P (m : M Work.t A) (Q Q' : A → Work.t → Prop) :
  runs P m Q → (∀ a w, Q a w → Q' a w) → runs P m Q'.
Proof. intros H1 H2. eapply hoare_conseq; [| | |exact H1]; [done|exact H2|done]. Qed.
Lemma runs_fact {A} (φ : Prop) P (m : M Work.t A) Q :
  (∀ w, P w → φ) → (φ → runs P m Q) → runs P m Q.
Proof. intros H1 H2 w Hw. by apply H2; [eapply H1|]. Qed.

Lemma runs_now P : of_turns P → runs P now (fun _ => P).
Proof. intros HP w Hw. eapply HP; [|exact Hw]. by split. Qed.

Lemma runs_event P d c t e l : of_turns P → runs P (safe_write_webchat_event d c t e l) (fun _ => P).
Proof.
  intros HP. eapply runs_bind; [by apply runs_now|]. intros n. apply runs_when; [|done].
  intros _. apply runs_modify. intros w. apply HP. by split.
Qed.

Lemma runs_the_turn cid tid Q P :
  (∀ w, P w → has_turn cid tid Q w) →
  runs P (the_turn tid) (fun t w => P w ∧ turn_at w tid = Some t ∧
                                    WebchatAITurn.conversation_id t = cid ∧ Q t).
Proof. intros H w Hw. destruct (H w Hw) as (t & E & Ht). unfold the_turn. by rewrite E. Qed.

Lemma runs_the_conversation ex cid tid Q P :
  (∀ w, P w → turns_ok ex w ∧ has_turn cid tid Q w) →
  runs P (the_conversation cid) (fun c w => P w ∧ conversation_at w cid = Some c).
Proof.
  intros H w Hw. destruct (H w Hw) as [[_ Hr _] (t & E & Ht & _)].
  destruct (Hr tid t E) as (_ & _ & c & Hc). rewrite Ht in Hc. unfold the_conversation. by rewrite Hc.
Qed.

(** Assigning attributes of a turn of the conversation *)
Lemma runs_set_turn cid tid f (Q Q' : WebchatAITurn.t → Prop) :
  (∀ t, WebchatAITurn.id (f t) = WebchatAITurn.id t) →
  (∀ t, WebchatAITurn.conversation_id (f t) = WebchatAITurn.conversation_id t) →
  (∀ t, Q t → (no_reply_yet t ∨ ended t) → Q' (f t) ∧ (no_reply_yet (f t) ∨ ended (f t))) →
  runs (fun w => turns_ok nowhere w ∧ has_turn cid tid Q w) (set_turn tid f)
    (fun _ w => turns_ok (only cid tid) w ∧ has_turn cid tid Q' w).
Proof.
  intros Hid Hconv Hf. apply runs_modify. intros w [Hok (t & E & Ht & HQ)].
  destruct (turns_rows _ _ Hok tid t E) as (_ & Hrow & _). destruct (Hf t HQ Hrow) as [HQ' Hrow'].
  split.
  - apply upd_turn_ok; [done..| |done]. intros t'. rewrite E. by intros [= <-].
  - exists (f t). rewrite turn_at_upd, decide_True, E by done. by rewrite Hconv.
Qed.

Lemma runs_set_conversation (P R : Work.t → Prop) ex ex' cid f :
  (∀ c i, c ≠ cid → ex c i → ex' c i) →
  (∀ w, P w → turns_ok ex w ∧ R w) →
  (∀ w, R w → R (upd_conversation cid f w)) →
  (∀ w c, P w → conversation_at w cid = Some c → snapshot_ok ex' w cid (f c)) →
  runs P (set_conversation cid f) (fun _ w => turns_ok ex' w ∧ R w).
Proof.
  intros Hex HP HR Hf. apply runs_modify. intros w Hw. destruct (HP w Hw) as [Hok Hr]. split.
  - eapply upd_conversation_ok; [exact Hex| |exact Hok]. intros c. by apply Hf.
  - by apply HR.
Qed.

Lemma has_turn_conversation cid tid Q c f w :
  has_turn cid tid Q w → has_turn cid tid Q (upd_conversation c f w).
Proof. intros (t & E & H). exists t. by rewrite turn_at_conversation. Qed.

(** A conversation without an active turn *)
Lemma snapshot_cleared ex w cid c n :
  snapshot_ok ex w cid c → snapshot_ok nowhere w cid (cleared n c).
Proof. intros [_ Hn]. by split. Qed.

Section TurnTriples.
Context (delivered : Z → string → bool) (cid : Z).

(** The turns that an assertion remembers *)
Definition keeps_turns (R : Work.t → Prop) : Prop :=
  of_turns R ∧ ∀ c f w, R w → R (upd_conversation c f w).

Lemma keeps_has_turn tid Q : keeps_turns (has_turn cid tid Q).
Proof. split; [apply has_turn_of|]. intros c f w. apply has_turn_conversation. Qed.

Lemma keeps_and R R' : keeps_turns R → keeps_turns R' → keeps_turns (fun w => R w ∧ R' w).
Proof.
  intros [H1 H2] [H3 H4]. split; [by apply of_turns_and|]. intros c f w [? ?]. split; auto.
Qed.

Lemma runs_clear (R : Work.t → Prop) ex :
  keeps_turns R → (∀ c i, ex c i → c = cid) →
  runs (fun w => turns_ok ex w ∧ R w) (_clear_active_snapshot cid) (fun _ w => turns_ok nowhere w ∧ R w).
Proof.
  intros [HR HR'] Hex. eapply runs_bind; [apply runs_now; auto with nexus|]. intros n. cbn beta.
  eapply (runs_set_conversation _ _ ex); [|done|intros w; apply HR'|].
  - intros c i Hne Hx. by destruct Hne, (Hex c i Hx).
  - intros w c [Hok _] Hc. eapply snapshot_cleared. by eapply (turns_snapshots _ _ Hok).
Qed.

Lemma runs_activate (R : Work.t → Prop) ex tid :
  keeps_turns R → (∀ c i, ex c i → c = cid) →
  (∀ w, R w → has_turn cid tid (fun t => open_turn t = true) w) →
  runs (fun w => turns_ok ex w ∧ R w) (_activate_turn cid tid) (fun _ w => turns_ok nowhere w ∧ R w).
Proof.
  intros [HR HR'] Hex Hopen. eapply runs_bind; [apply runs_now; auto with nexus|]. intros n. cbn beta.
  eapply runs_bind; [apply (runs_the_turn cid tid (fun t => open_turn t = true)); intros w [_ ?]; auto|].
  intros t. cbn beta. eapply (runs_set_conversation _ _ ex); [| |intros w; apply HR'|].
  - intros c i Hne Hx. by destruct Hne, (Hex c i Hx).
  - by intros w [? _].
  - intros w c [[Hok _] (Et & Ht & Ho)] Hc. destruct (turns_snapshots _ _ Hok cid c Hc) as [_ Hn].
    split; [|exact Hn]. intros i [= <-]. right. by exists t.
Qed.

Lemma runs_promote (R : Work.t → Prop) tid Q :
  keeps_turns R → (∀ w, R w → has_turn cid tid Q w) →
  runs (fun w => turns_ok (only cid tid) w ∧ R w ∧
                 ∃ c, conversation_at w cid = Some c ∧ WebchatConversation.active_ai_turn_id c = Some tid ∧
                      truthy_id (WebchatConversation.next_ai_turn_id c) = true)
    (_promote_next_turn delivered cid) (fun _ w => turns_ok nowhere w ∧ R w).
Proof.
  intros HR HQ.
  eapply runs_bind; [apply (runs_the_conversation (only cid tid) cid tid Q); intros w (? & ? & _); auto|].
  intros c. cbn beta. eapply (runs_fact (truthy_id (WebchatConversation.next_ai_turn_id c) = true)).
  { intros w [(_ & _ & c' & Hc' & _ & ?) Hc]. congruence. }
  intros ->. cbn [negb].
  eapply runs_bind; [apply (runs_get _ (fun w0 w => w0 = w ∧ turns_ok (only cid tid) w ∧ R w ∧
    conversation_at w cid = Some c)); intros w [(? & ? & _) ?]; auto|].
  intros w0. cbn beta zeta.
  set (next := WebchatConversation.next_ai_turn_id c ≫= (fun i => turn_at w0 i ≫= fun t => Some (i, t))).
  assert (∀ c0 i, only cid tid c0 i → c0 = cid) as Hex by (by intros ? ? [-> _]).
  assert (∀ P, (∀ w, P w → turns_ok (only cid tid) w ∧ R w) → runs P
    (set_conversation cid (fun c => c <| WebchatConversation.next_ai_turn_id := None |>))
    (fun _ w => turns_ok (only cid tid) w ∧ R w)) as Hset.
  { intros P HP. eapply (runs_set_conversation _ _ (only cid tid)); [done|exact HP|intros w; apply HR|].
    intros w c' Hw Hc'. destruct (turns_snapshots _ _ (proj1 (HP w Hw)) cid c' Hc') as [Ha _].
    by split. }
  destruct next as [[i t]|] eqn:En; subst next; [destruct (open_turn t) eqn:Eo|].
  - assert (∀ w, w0 = w ∧ turns_ok (only cid tid) w ∧ R w ∧ conversation_at w cid = Some c →
      turns_ok (only cid tid) w ∧ R w ∧ has_turn cid i (fun t => open_turn t = true) w) as Hn.
    { intros w (-> & Hok & Hw & Hc). split_and!; [done|done|].
      destruct (WebchatConversation.next_ai_turn_id c) as [j|] eqn:Ej; [|done]. cbn in En.
      destruct (turns_snapshots _ _ Hok cid c Hc) as [_ Hnx]. destruct (Hnx j Ej) as (t' & Et & Ht).
      rewrite Et in En. cbn in En. injection En as <- <-. by exists t'. }
    eapply runs_seq.
    { eapply (runs_set_conversation _ (fun w => R w ∧ has_turn cid i (fun t => open_turn t = true) w)
        (only cid tid)); [done|exact Hn| |].
      - intros w. apply (keeps_and _ _ HR (keeps_has_turn i _)).
      - intros w c' Hw Hc'. destruct (Hn w Hw) as [Hok _].
        destruct (turns_snapshots _ _ Hok cid c' Hc') as [Ha _]. by split. }
    intros _. eapply runs_seq.
    { apply (runs_activate _ (only cid tid) i); [apply keeps_and; [done|apply keeps_has_turn]|done|].
      by intros w [_ ?]. }
    intros _. eapply runs_seq.
    { apply runs_event. apply of_turns_and; [apply turns_ok_of|].
      apply (keeps_and _ _ HR (keeps_has_turn i _)). }
    intros _. apply runs_ret. by intros w (? & ? & _).
  - eapply runs_seq; [apply Hset; by intros w (_ & ? & ? & _)|]. intros _.
    eapply runs_seq; [by apply (runs_clear R (only cid tid))|]. intros _. by apply runs_ret.
  - eapply runs_seq; [apply Hset; by intros w (_ & ? & ? & _)|]. intros _.
    eapply runs_seq; [by apply (runs_clear R (only cid tid))|]. intros _. by apply runs_ret.
Qed.

(** The end of a turn repairs the snapshot. *)
Lemma runs_release tid Q :
  runs (fun w => turns_ok (only cid tid) w ∧ has_turn cid tid Q w) (release_active delivered cid tid)
    (fun _ w => turns_ok nowhere w ∧ has_turn cid tid Q w).
Proof.
  eapply runs_bind; [by apply (runs_the_conversation (only cid tid) cid tid Q)|].
  intros c. cbn beta. apply runs_when.
  - intros Ha%bool_decide_eq_true. destruct (truthy_id _) eqn:En.
    + eapply runs_seq; [|intros ?; apply runs_ret; intros w H; exact H].
      eapply runs_pre; [|apply (runs_promote (has_turn cid tid Q) tid Q); [apply keeps_has_turn|done]].
      intros w [[? ?] ?]. eauto 6.
    + eapply runs_pre; [|apply (runs_clear (has_turn cid tid Q) (only cid tid));
        [apply keeps_has_turn|by intros ? ? [-> _]]].
      by intros w [? _].
  - intros Ha%bool_decide_eq_false w [[Hok ?] Hc]. split; [|done]. by eapply turns_ok_other.
Qed.

(** Reading the turn does not matter to the assertion. *)
Lemma runs_turn_event ex tid Q e l :
  runs (fun w => turns_ok ex w ∧ has_turn cid tid Q w)
    (turn_event delivered cid tid e l)
    (fun _ w => turns_ok ex w ∧ has_turn cid tid Q w).
Proof.
  eapply runs_seq; [eapply runs_post; [by apply (runs_the_turn cid tid Q); intros w [_ ?]|]|].
  - intros t w [H _]. exact H.
  - intros t. apply runs_event. auto with nexus.
Qed.

Lemma runs_clear_current tid Q :
  runs (fun w => turns_ok (only cid tid) w ∧ has_turn cid tid Q w)
    (clear_active_ai_snapshot_if_current cid tid) (fun _ w => turns_ok nowhere w ∧ has_turn cid tid Q w).
Proof.
  eapply runs_bind; [by apply (runs_the_conversation (only cid tid) cid tid Q)|].
  intros c. cbn beta. case_decide as Ha.
  - eapply runs_seq; [eapply runs_pre; [|apply (runs_clear (has_turn cid tid Q) (only cid tid));
      [apply keeps_has_turn|by intros ? ? [-> _]]]; by intros w [? _]|].
    intros ?. by apply runs_ret.
  - apply runs_ret. intros w [[Hok ?] Hc]. split; [|done]. by eapply turns_ok_other.
Qed.

Definition any_turn (_ : WebchatAITurn.t) : Prop := True.
Abbreviation ok_with tid Q := (fun w => turns_ok nowhere w ∧ has_turn cid tid Q w).

Lemma runs_end_turn status e tid why :
  status ∈ AI_TURN_TERMINAL_STATUSES →
  runs (ok_with tid any_turn) (end_turn delivered status e cid tid why) (fun _ => ok_with tid ended).
Proof.
  intros Hs. eapply runs_bind; [apply runs_now; auto with nexus|]. intros n. cbn beta.
  eapply runs_seq.
  { apply (runs_set_turn cid tid _ any_turn ended); [done..|]. intros t _ _.
    assert (ended (t <| WebchatAITurn.status := status |> <| WebchatAITurn.status_reason := Some why |>
      <| WebchatAITurn.completed_at := Some n |> <| WebchatAITurn.updated_at := n |>)) as He.
    { split; [by apply bool_decide_eq_true|by exists n]. }
    split; [done|by right]. }
  intros _. eapply runs_seq; [apply runs_turn_event|]. intros _.
  eapply runs_seq; [apply runs_clear_current|]. intros _. by apply runs_ret.
Qed.

(** An open turn moves on, and the snapshot with it. *)
Lemma runs_progress tid status f g e l :
  (∀ t, WebchatAITurn.id (f t) = WebchatAITurn.id t) →
  (∀ t, WebchatAITurn.conversation_id (f t) = WebchatAITurn.conversation_id t) →
  (∀ t, no_reply_yet t → no_reply_yet (f t) ∧ WebchatAITurn.status (f t) = status) →
  (∀ c, WebchatConversation.active_ai_turn_id (g c) = WebchatConversation.active_ai_turn_id c) →
  (∀ c, WebchatConversation.next_ai_turn_id (g c) = WebchatConversation.next_ai_turn_id c) →
  (∀ c, WebchatConversation.active_ai_status (g c) =
        if decide (WebchatConversation.active_ai_turn_id c = Some tid) then Some status
        else WebchatConversation.active_ai_status c) →
  runs (ok_with tid no_reply_yet)
    (set_turn tid f;; set_conversation cid g;; turn_event delivered cid tid e l)
    (fun _ => ok_with tid no_reply_yet).
Proof.
  intros Hid Hconv Hf Ha Hn Hs.
  set (Q := fun t => no_reply_yet t ∧ WebchatAITurn.status t = status).
  eapply runs_seq.
  { apply (runs_set_turn cid tid f no_reply_yet Q); [done..|]. intros t Ht _.
    split; [by apply Hf|left; by apply Hf]. }
  intros _. eapply runs_seq.
  { apply (runs_set_conversation _ (has_turn cid tid Q) (only cid tid) nowhere); [|done|apply has_turn_conversation|].
    - by intros c i Hne [-> _].
    - intros w c [Hok (t & E & Ht & [Hr Hst])] Hc.
      destruct (turns_snapshots _ _ Hok cid c Hc) as [Hsa Hsn]. unfold snapshot_ok.
      rewrite Ha, Hn, Hs. split; [|done]. intros i Hi. right. rewrite Hi. case_decide as Hd.
      + injection Hd as ->. exists t. split_and!; [done|done|apply Hr|by rewrite Hst].
      + destruct (Hsa i Hi) as [[_ ->]|?]; done. }
  intros _. eapply runs_post; [apply runs_turn_event|].
  intros _ w [? (t & ? & ? & [? _])]. split; [done|]. by exists t.
Qed.

Lemma runs_processing tid :
  runs (ok_with tid no_reply_yet) (mark_ai_turn_processing delivered cid tid)
    (fun _ => ok_with tid no_reply_yet).
Proof.
  eapply runs_bind; [apply runs_now; auto with nexus|]. intros n. cbn beta.
  apply (runs_progress tid "processing"); try done.
  - intros t (_ & Hc & Hp). split_and!; done.
  - intros c. by case_decide.
  - intros c. by case_decide.
  - intros c. by case_decide.
Qed.

Lemma runs_bridge_calling tid cutoff :
  runs (ok_with tid no_reply_yet) (mark_ai_turn_bridge_calling delivered cid tid cutoff)
    (fun _ => ok_with tid no_reply_yet).
Proof.
  eapply runs_bind; [apply runs_now; auto with nexus|]. intros n. cbn beta.
  apply (runs_progress tid "bridge_calling"); try done.
  - intros t (_ & Hc & Hp). split_and!; done.
  - intros c. by case_decide.
  - intros c. by case_decide.
  - intros c. by case_decide.
Qed.

Lemma runs_supersede tid by_ why :
  runs (ok_with tid any_turn) (supersede_ai_turn delivered cid tid by_ why) (fun _ => ok_with tid ended).
Proof.
  eapply runs_bind; [apply runs_now; auto with nexus|]. intros n. cbn beta zeta.
  eapply runs_seq.
  { apply (runs_set_turn cid tid _ any_turn ended); [done..|]. intros t _ _.
    split; [|right]; (split; [done|by exists n]). }
  intros _. eapply runs_seq; [apply runs_turn_event|]. intros _. apply runs_release.
Qed.

Lemma runs_suppress tid why :
  runs (ok_with tid any_turn) (suppress_stale_reply_if_needed delivered cid (Some tid) why)
    (fun _ => ok_with tid any_turn).
Proof.
  eapply runs_seq; [apply runs_get; intros w H; exact H|]. intros w0. cbn beta.
  destruct (should_suppress_stale_reply cid (Some tid) w0); [|by apply runs_ret].
  eapply runs_seq; [apply runs_supersede|]. intros _.
  eapply runs_seq; [apply runs_get; intros w H; exact H|]. intros w1.
  eapply runs_seq; [apply runs_turn_event|]. intros _. apply runs_ret.
  intros w [? (t & ? & ? & _)]. split; [done|]. by exists t.
Qed.

Lemma runs_complete tid r :
  runs (ok_with tid any_turn) (complete_ai_turn_with_reply delivered cid tid r)
    (fun _ => ok_with tid ended).
Proof.
  unfold complete_ai_turn_with_reply. destruct (status_is r ["superseded"]); [apply runs_supersede|].
  destruct (status_is r _).
  - eapply runs_seq; [|intros _; apply runs_end_turn; set_solver].
    apply runs_modify. intros w [Hok (t & E & Ht & _)].
    assert (∀ t, same_state t (unanswered_turn r t)) as Hs.
    { intros t0. unfold unanswered_turn, with_timeout. by destruct (Reply.bridge_wait_timeout_ms r). }
    split; [by apply upd_turn_same|]. exists (unanswered_turn r t).
    rewrite turn_at_upd, decide_True, E by done. split; [done|]. by destruct (Hs t) as (_ & -> & _).
  - eapply runs_bind; [apply runs_now; auto with nexus|]. intros n. cbn beta.
    eapply runs_seq.
    { apply (runs_set_turn cid tid _ any_turn ended).
      - intros t. unfold answered_turn, with_timeout. by destruct (Reply.bridge_wait_timeout_ms r).
      - intros t. unfold answered_turn, with_timeout. by destruct (Reply.bridge_wait_timeout_ms r).
      - intros t _ _. unfold answered_turn, with_timeout.
        destruct (Reply.bridge_wait_timeout_ms r); (split; [|right]); (split; [done|by exists n]). }
    intros _. eapply runs_seq; [apply runs_turn_event|].
    intros _. eapply runs_seq; [apply runs_turn_event|]. intros _. apply runs_release.
Qed.
End TurnTriples.

(** ** What the job leaves alone

    A property that survives every assignment of the turn code survives the job. *)

Record framed (P : Work.t → Prop) : Prop := {
  framed_core : ∀ (m : M Db.t unit), preserves P (on_core m);
  framed_now : preserves P now;
  framed_events : ∀ f w, P w → P (w <| Work.wevents ::= f |>);
  framed_turn : ∀ i f w, P w → P (upd_turn i f w);
  framed_conversation : ∀ i f w, P w → P (upd_conversation i f w);
  framed_message : ∀ i f, preserves P (set_message i f);
  framed_cancel : ∀ j why n, preserves P (cancel_job j why n) }.

Section Framed.
Context (delivered : Z → string → bool) (P : Work.t → Prop) (HP : framed P).

Lemma framed_set_turn i f : preserves P (set_turn i f).
Proof. apply preserves_modify. intros w. apply (framed_turn _ HP). Qed.
Lemma framed_set_conversation i f : preserves P (set_conversation i f).
Proof. apply preserves_modify. intros w. apply (framed_conversation _ HP). Qed.
Lemma framed_the_turn i : preserves P (the_turn i).
Proof. intros w H. unfold the_turn. by destruct (turn_at w i). Qed.
Lemma framed_the_conversation i : preserves P (the_conversation i).
Proof. intros w H. unfold the_conversation. by destruct (conversation_at w i). Qed.
Lemma framed_event c t e l : preserves P (safe_write_webchat_event delivered c t e l).
Proof.
  unfold safe_write_webchat_event. preserve; [apply (framed_now _ HP)|].
  apply preserves_modify. intros w. apply (framed_events _ HP).
Qed.

#[local] Hint Resolve framed_set_turn framed_set_conversation framed_the_turn framed_the_conversation
  framed_event framed_now framed_cancel framed_message framed_core : nexus.

Lemma framed_turn_event cid tid e l : preserves P (turn_event delivered cid tid e l).
Proof. unfold turn_event. preserve. Qed.
Lemma framed_clear cid : preserves P (_clear_active_snapshot cid).
Proof. unfold _clear_active_snapshot. preserve. Qed.
#[local] Hint Resolve framed_turn_event framed_clear : nexus.

Lemma framed_clear_current cid tid : preserves P (clear_active_ai_snapshot_if_current cid tid).
Proof. unfold clear_active_ai_snapshot_if_current. preserve. Qed.
Lemma framed_activate cid tid : preserves P (_activate_turn cid tid).
Proof. unfold _activate_turn. preserve. Qed.
#[local] Hint Resolve framed_clear_current framed_activate : nexus.

Lemma framed_promote cid : preserves P (_promote_next_turn delivered cid).
Proof. unfold _promote_next_turn. preserve. Qed.
#[local] Hint Resolve framed_promote : nexus.

Lemma framed_release cid tid : preserves P (release_active delivered cid tid).
Proof. unfold release_active. preserve. Qed.
#[local] Hint Resolve framed_release : nexus.

Lemma framed_supersede cid tid by_ why : preserves P (supersede_ai_turn delivered cid tid by_ why).
Proof. unfold supersede_ai_turn. preserve. Qed.
Lemma framed_end_turn status e cid tid why : preserves P (end_turn delivered status e cid tid why).
Proof. unfold end_turn. preserve. Qed.
#[local] Hint Resolve framed_supersede framed_end_turn : nexus.

Lemma framed_suppress cid turn why : preserves P (suppress_stale_reply_if_needed delivered cid turn why).
Proof. unfold suppress_stale_reply_if_needed. preserve. Qed.
Lemma framed_complete cid tid r : preserves P (complete_ai_turn_with_reply delivered cid tid r).
Proof. unfold complete_ai_turn_with_reply, mark_ai_turn_failed. preserve. Qed.
Lemma framed_begin cid tid : preserves P (begin_turn delivered cid tid).
Proof. unfold begin_turn, mark_ai_turn_processing, mark_ai_turn_bridge_calling. preserve. Qed.
Lemma framed_cancel_turns cid actor why :
  preserves P (cancel_open_ai_turns_for_handoff delivered cid actor why).
Proof. unfold cancel_open_ai_turns_for_handoff, cancel_turn. preserve. Qed.
#[local] Hint Resolve framed_suppress framed_complete framed_begin framed_cancel_turns : nexus.

Lemma framed_process confirmed_action run request_handoff off cid ticket_id message_id :
  (∀ c m t, preserves P (confirmed_action c m t)) →
  (∀ c i m t, preserves P (run c i m t)) →
  (∀ c i m t, preserves P (request_handoff c i m t)) →
  preserves P (process_webchat_ai_reply_job delivered confirmed_action run request_handoff off
                 cid ticket_id message_id).
Proof.
  intros H1 H2 H3.
  unfold process_webchat_ai_reply_job, _load_context, found, reply, _record_disabled, _complete_turn,
    _require_customer_terminal_outcome.
  preserve. apply preserves_modify. intros w. apply (framed_events _ HP).
Qed.
End Framed.

(** The conversation does not go away. *)
Lemma conversation_framed cid : framed (fun w => is_Some (conversation_at w cid)).
Proof.
  split.
  - intros m w H. unfold on_core. by destruct (m (Work.core w)).
  - by intros w H.
  - by intros f w H.
  - intros i f w H. by rewrite conversation_at_turn.
  - intros i f w H. rewrite conversation_at_upd. case_decide; [by apply fmap_is_Some|done].
  - intros i f. apply preserves_modify. intros w H. by destruct (message_at w i).
  - intros [j|] why n; [|apply preserves_ret]. apply preserves_when, preserves_modify.
    intros w H. by destruct (job_at w j).
Qed.

(** ** When the model is run *)

Section Guard.
Context (delivered : Z → string → bool) (confirmed_action : Z → Z → option Z → M Work.t unit).
Context (run_agent_reply : Z → option Z → Z → option Z → M Work.t Reply.t).
Context (request_handoff : Z → option Z → Z → option Z → M Work.t unit) (auto_reply_disabled : bool).

(** No human owns the conversation, the message has no reply yet, and the turn is open for
    a public reply to the newest message. *)
Definition may_reply (cid message_id : Z) (turn : option Z) (w : Work.t) : bool :=
  match conversation_at w cid with
  | Some c => negb (is_ai_suspended_for_handoff c)
  | None => false
  end &&
  negb (_agent_reply_exists cid message_id w) && negb (should_suppress_stale_reply cid turn w).

Definition guarded_run (cid : Z) (ticket_id : option Z) (message_id : Z) (turn : option Z)
    : M Work.t Reply.t := fun w =>
  if may_reply cid message_id turn w then run_agent_reply cid ticket_id message_id turn w
  else (Err (RuntimeError "unreachable"), w).

Lemma bind_ext {A B} (m : M Work.t A) (k k' : A → M Work.t B) w :
  (∀ a w', m w = (Ok a, w') → k a w' = k' a w') → (m ≫= k) w = (m ≫= k') w.
Proof. intros H. unfold mbind, M_bind. destruct (m w) as [[a|e] w'] eqn:E; [by apply H|done]. Qed.

Lemma reply_guarded cid message_id turn w :
  may_reply cid message_id turn w = true →
  reply delivered run_agent_reply request_handoff auto_reply_disabled cid message_id turn w =
  reply delivered guarded_run request_handoff auto_reply_disabled cid message_id turn w.
Proof.
  intros H. unfold reply, get. unfold mbind at 1 3, M_bind. cbn beta iota zeta.
  destruct auto_reply_disabled; [done|]. unfold mbind, M_bind, guarded_run. by rewrite H.
Qed.

End Guard.
