(* ===== verification/TurnHistory.v ===== *)
(** * Handoffs, scheduling and histories of AI turns

    What a handoff does to the turns of a conversation, what the arrival of a message
    adds, and the invariant of TurnRules.v along every history of transactions. *)

From S2P Require Import Prelude Calendar Enums Models Work Tenancy Sla Redaction JobScope Jobs.
From S2P Require Import AiTurns TurnRules.

(** ** A handoff takes over *)

Section Handoff.
Context (delivered : Z → string → bool) (cid : Z) (actor : option Z) (reason : string) (n : Z).

Definition cancel_row (job : BackgroundJob.t) : BackgroundJob.t :=
  if active job then cancelled_job reason n job else job.

Lemma cancel_row_idem job : cancel_row (cancel_row job) = cancel_row job.
Proof. unfold cancel_row. by destruct (active job) eqn:E; cbn; rewrite ?E. Qed.

Lemma cancelled_turn_idem t :
  cancelled_turn actor reason n (cancelled_turn actor reason n t) = cancelled_turn actor reason n t.
Proof. destruct t. vm_compute. reflexivity. Qed.

(** Two databases that agree on all but turns, jobs, events and the clock *)
Definition beside (w w' : Work.t) : Prop :=
  Work.conversations w' = Work.conversations w ∧ Work.wmessages w' = Work.wmessages w ∧
  Work.scopes w' = Work.scopes w ∧ tnext (Work.turns w') = tnext (Work.turns w).

Lemma event_run c t e l w :
  ∃ w', safe_write_webchat_event delivered c t e l w = (Ok tt, w') ∧
    beside w w' ∧ Work.turns w' = Work.turns w ∧ Work.jobs w' = Work.jobs w.
Proof.
  unfold safe_write_webchat_event. destruct (delivered c e); eexists; (split; [reflexivity|done]).
Qed.

Lemma beside_trans w1 w2 w3 : beside w1 w2 → beside w2 w3 → beside w1 w3.
Proof. intros (? & ? & ? & ?) (? & ? & ? & ?). split_and!; congruence. Qed.

Lemma cancel_turn_run t w :
  ∃ w', cancel_turn delivered cid actor reason n t w = (Ok tt, w') ∧ beside w w' ∧
    (∀ j, turn_at w' j = if decide (WebchatAITurn.id t = j) then cancelled_turn actor reason n <$> turn_at w j
                         else turn_at w j) ∧
    (∀ j, job_at w' j = if decide (WebchatAITurn.job_id t = Some j ∧ j ≠ 0) then cancel_row <$> job_at w j
                        else job_at w j).
Proof.
  unfold cancel_turn, set_turn, modify. unfold mbind at 1, M_bind. cbn beta iota.
  set (w1 := upd_turn _ _ w).
  assert (beside w w1 ∧ Work.jobs w1 = Work.jobs w) as [B1 J1].
  { unfold w1, upd_turn. by destruct (turn_at w _). }
  assert (∃ w2, cancel_job (WebchatAITurn.job_id t) reason n w1 = (Ok tt, w2) ∧
    beside w1 w2 ∧ Work.turns w2 = Work.turns w1 ∧
    ∀ j, job_at w2 j = if decide (WebchatAITurn.job_id t = Some j ∧ j ≠ 0) then cancel_row <$> job_at w1 j
                        else job_at w1 j) as (w2 & E2 & B2 & T2 & J2).
  { unfold cancel_job. destruct (WebchatAITurn.job_id t) as [i|].
    - destruct (Z.eqb_spec i 0) as [->|Hi]; cbn [negb when].
      + exists w1. split_and!; [done|done|done|]. intros j. rewrite decide_False; [done|]. intros [[= <-] ?]. done.
      + unfold set_job, modify. eexists. split; [done|]. destruct (job_at w1 i) as [x|] eqn:Ex.
        * split_and!; [done..|]. intros j. unfold job_at at 1, table_get. cbn. rewrite lookup_table_put.
          destruct (decide (i = j)) as [<-|Hne].
          -- rewrite decide_True by done. by rewrite Ex.
          -- rewrite decide_False; [done|]. intros [[= ?] _]. done.
        * split_and!; [done..|]. intros j. case_decide as Hj; [|done]. destruct Hj as [[= <-] _]. by rewrite Ex.
    - exists w1. split_and!; [done..|]. intros j. by rewrite decide_False by (by intros [? _]). }
  rewrite (bind_run_Ok _ _ _ _ _ E2).
  assert (∀ j, turn_at w2 j = if decide (WebchatAITurn.id t = j) then cancelled_turn actor reason n <$> turn_at w j
    else turn_at w j) as Ht.
  { intros j. unfold turn_at at 1. rewrite T2. change (turn_at w1 j = if decide (WebchatAITurn.id t = j)
      then cancelled_turn actor reason n <$> turn_at w j else turn_at w j). apply turn_at_upd. }
  assert (∀ j, job_at w2 j = if decide (WebchatAITurn.job_id t = Some j ∧ j ≠ 0) then cancel_row <$> job_at w j
    else job_at w j) as Hj.
  { intros j. rewrite J2. unfold job_at. by rewrite J1. }
  destruct (event_run cid (WebchatAITurn.ticket_id t) "ai_turn.cancelled_by_handoff"
    [("ai_turn_id", JNum (WebchatAITurn.id t)); ("actor_id", jid actor); ("reason", JStr reason)] w2)
    as (w3 & E3 & B3 & T3 & J3).
  exists w3. split; [exact E3|]. split; [by eapply beside_trans; [|eapply beside_trans]|].
  unfold turn_at, job_at in *. rewrite T3, J3. by split.
Qed.

Lemma cancel_turns_run l w :
  ∃ w', iterM (cancel_turn delivered cid actor reason n) l w = (Ok tt, w') ∧ beside w w' ∧
    (∀ j, turn_at w' j = if decide (j ∈ WebchatAITurn.id <$> l) then cancelled_turn actor reason n <$> turn_at w j
                         else turn_at w j) ∧
    (∀ j, job_at w' j = if decide (Some j ∈ WebchatAITurn.job_id <$> l ∧ j ≠ 0) then cancel_row <$> job_at w j
                        else job_at w j).
Proof.
  revert w. induction l as [|t l IH]; intros w.
  - exists w. split_and!; [done|done| |]; intros j; rewrite decide_False; try done.
    + apply not_elem_of_nil.
    + intros [?%not_elem_of_nil _]. done.
  - destruct (cancel_turn_run t w) as (w1 & E1 & B1 & T1 & J1). destruct (IH w1) as (w2 & E2 & B2 & T2 & J2).
    exists w2. cbn [iterM]. rewrite (bind_run_Ok _ _ _ _ _ E1). split; [exact E2|]. split.
    { by eapply beside_trans. }
    split; intros j; rewrite ?T2, ?T1, ?J2, ?J1, fmap_cons.
    + destruct (decide (j ∈ WebchatAITurn.id <$> l)) as [Hin|Hin].
      * rewrite (decide_True (P := j ∈ _ :: _)) by (by right).
        case_decide; [|done]. destruct (turn_at w j) as [x|]; [|done].
        exact (f_equal Some (cancelled_turn_idem x)).
      * destruct (decide (WebchatAITurn.id t = j)) as [<-|Hne].
        -- by rewrite decide_True by (by left).
        -- rewrite decide_False; [done|]. by intros [?|?]%elem_of_cons.
    + destruct (decide (Some j ∈ WebchatAITurn.job_id <$> l ∧ j ≠ 0)) as [[Hin Hj]|Hin].
      * rewrite (decide_True (P := _ ∈ _ :: _ ∧ _)) by (split; [by right|done]).
        case_decide; [|done]. destruct (job_at w j) as [x|]; [|done].
        exact (f_equal Some (cancel_row_idem x)).
      * destruct (decide (WebchatAITurn.job_id t = Some j ∧ j ≠ 0)) as [[<- ?]|Hne].
        -- rewrite decide_True; [done|]. split; [by left|done].
        -- rewrite decide_False; [done|]. intros [[?|?]%elem_of_cons ?]; [by apply Hne|by apply Hin].
Qed.
End Handoff.

Lemma elem_of_open_turns cid w t :
  t ∈ open_turns cid w ↔ ∃ i, turn_at w i = Some t ∧ WebchatAITurn.conversation_id t = cid ∧ open_turn t = true.
Proof.
  unfold open_turns. rewrite elem_of_select. setoid_rewrite andb_true_iff. setoid_rewrite Z.eqb_eq. done.
Qed.

Lemma cancelled_ended actor why n t : ended (cancelled_turn actor why n t).
Proof. split; [done|by exists n]. Qed.

Lemma terminal_not_open t : terminal_turn t = true → open_turn t = false.
Proof.
  unfold terminal_turn, open_turn. rewrite bool_decide_eq_true. intros H. apply bool_decide_eq_false.
  unfold AI_TURN_TERMINAL_STATUSES in H. rewrite !elem_of_cons in H.
  destruct H as [->|[->|[->|[->|[->|H]]]]]; [..|by apply elem_of_nil in H];
    unfold AI_TURN_OPEN_STATUSES; rewrite !elem_of_cons; intros [|[|[|[|H]]]]; try done;
    by apply elem_of_nil in H.
Qed.

Section Cancelled.
Context (cid : Z) (actor : option Z) (why : string) (n : Z) (w w1 : Work.t).
Context (Hok : turns_ok nowhere w) (Hb : beside w w1).
Context (Ht : ∀ j, turn_at w1 j =
  if decide (j ∈ WebchatAITurn.id <$> open_turns cid w) then cancelled_turn actor why n <$> turn_at w j
  else turn_at w j).

Lemma open_turn_in j t : turn_at w j = Some t →
  j ∈ WebchatAITurn.id <$> open_turns cid w ↔ WebchatAITurn.conversation_id t = cid ∧ open_turn t = true.
Proof.
  intros E. rewrite list_elem_of_fmap. split.
  - intros (t' & -> & Hin). apply elem_of_open_turns in Hin as (i & Ei & ? & ?).
    destruct (turns_rows _ _ Hok i t' Ei) as (Hi & _). replace t' with t in * by congruence. done.
  - intros [? ?]. exists t. split; [by destruct (turns_rows _ _ Hok j t E)|].
    apply elem_of_open_turns. by exists j.
Qed.

Lemma cancelled_at j t : turn_at w j = Some t →
  turn_at w1 j = Some (if (WebchatAITurn.conversation_id t =? cid) && open_turn t
                       then cancelled_turn actor why n t else t).
Proof.
  intros E. rewrite Ht, E. case_decide as Hin; rewrite (open_turn_in j t E) in Hin.
  - destruct Hin as [-> ->]. by rewrite Z.eqb_refl.
  - case_match eqn:Eb; [|done]. apply andb_true_iff in Eb as [?%Z.eqb_eq ?]. by destruct Hin.
Qed.

Lemma cancelled_back j t1 : turn_at w1 j = Some t1 →
  ∃ t, turn_at w j = Some t ∧ t1 = if (WebchatAITurn.conversation_id t =? cid) && open_turn t
                                   then cancelled_turn actor why n t else t.
Proof.
  intros E. assert (is_Some (turn_at w j)) as [t Et].
  { rewrite Ht in E. case_decide; [|by rewrite E]. by destruct (turn_at w j). }
  exists t. split; [done|]. rewrite (cancelled_at j t Et) in E. congruence.
Qed.

Lemma cancelled_rows_closed j t1 :
  turn_at w1 j = Some t1 → WebchatAITurn.conversation_id t1 = cid → ended t1.
Proof.
  intros E Hc. destruct (cancelled_back j t1 E) as (t & Et & ->).
  destruct (turns_rows _ _ Hok j t Et) as (_ & Hr & _). case_match eqn:Eb; [apply cancelled_ended|].
  rewrite Hc, Z.eqb_refl in Eb. cbn in Eb. destruct Hr as [[Ho _]|?]; [congruence|done].
Qed.

(** Everything but the conversation itself is in order, and its snapshot is stale. *)
Lemma cancelled_ok : turns_ok (fun c _ => c = cid) w1.
Proof.
  destruct Hb as (Hc & _ & _ & Hnext). split.
  - intros i r E. rewrite Hnext. destruct (cancelled_back i r E) as (t & Et & _).
    by apply (turns_fresh _ _ Hok i t).
  - intros i t1 E. destruct (cancelled_back i t1 E) as (t & Et & ->).
    destruct (turns_rows _ _ Hok i t Et) as (? & ? & ?). unfold conversation_at in *. rewrite Hc.
    case_match; split_and!; try done. right. apply cancelled_ended.
  - intros c' c E. unfold conversation_at in E. rewrite Hc in E.
    destruct (turns_snapshots _ _ Hok c' c E) as [Ha Hn]. split.
    + intros i Hi. destruct (decide (c' = cid)) as [->|Hne]; [by left|right].
      destruct (Ha i Hi) as [[]|(t & Et & Hcv & Ho & Hs)]. exists t. rewrite (cancelled_at i t Et).
      rewrite (proj2 (Z.eqb_neq _ _)) by congruence. done.
    + intros i Hi. destruct (Hn i Hi) as (t & Et & Hcv). rewrite (cancelled_at i t Et).
      eexists. split; [done|]. by case_match.
Qed.
End Cancelled.

Section Takeover.
Context (delivered : Z → string → bool).

(** The conversation without a turn to come *)
Definition idle_conversation (c : WebchatConversation.t) : Prop :=
  WebchatConversation.active_ai_turn_id c = None ∧ WebchatConversation.next_ai_turn_id c = None.

Lemma suppressed_when_ended cid tid t w :
  is_Some (conversation_at w cid) → turn_at w tid = Some t → ended t →
  should_suppress_stale_reply cid (Some tid) w = true.
Proof.
  intros [c Hc] Et [Ht _]. unfold should_suppress_stale_reply. rewrite Hc. cbn. rewrite Et. cbn.
  by rewrite Ht, orb_true_r, orb_true_r.
Qed.

Lemma set_conversation_run cid f w :
  set_conversation cid f w = (Ok tt, upd_conversation cid f w).
Proof. done. Qed.

(** The end of the cancellation: the conversation is idle. *)
Lemma close_conversation_run cid c (some_open : bool) w :
  conversation_at w cid = Some c →
  (some_open = false → WebchatConversation.active_ai_turn_id c = None) →
  ∃ f w', (set_conversation cid (fun c => c <| WebchatConversation.next_ai_turn_id := None |>);;
           c ← the_conversation cid;
           when (some_open || truthy_id (WebchatConversation.active_ai_turn_id c))
             (_clear_active_snapshot cid)) w = (Ok tt, w') ∧
    idle_conversation (f c) ∧ Work.turns w' = Work.turns w ∧ Work.jobs w' = Work.jobs w ∧
    (∀ j, conversation_at w' j = if decide (cid = j) then f <$> conversation_at w j else conversation_at w j).
Proof.
  intros Hc Ha. set (g := fun c => c <| WebchatConversation.next_ai_turn_id := None |>).
  set (w1 := upd_conversation cid g w).
  assert (∀ j, conversation_at w1 j = if decide (cid = j) then g <$> conversation_at w j else conversation_at w j)
    as H1 by (intros j; apply conversation_at_upd).
  assert (Work.turns w1 = Work.turns w ∧ Work.jobs w1 = Work.jobs w) as [HT HJ].
  { unfold w1, upd_conversation. by destruct (conversation_at w cid). }
  assert (conversation_at w1 cid = Some (g c)) as E1 by (by rewrite H1, decide_True, Hc).
  rewrite (bind_run_Ok _ _ _ _ _ (set_conversation_run cid g w)). fold w1.
  assert (the_conversation cid w1 = (Ok (g c), w1)) as E2 by (unfold the_conversation; by rewrite E1).
  rewrite (bind_run_Ok _ _ _ _ _ E2).
  change (WebchatConversation.active_ai_turn_id (g c)) with (WebchatConversation.active_ai_turn_id c).
  destruct (some_open || truthy_id (WebchatConversation.active_ai_turn_id c)) eqn:Eb.
  - set (m := Db.clock (Work.core w1) (Db.ticks (Work.core w1))).
    set (w2 := w1 <| Work.core := Work.core w1 <| Db.ticks ::= S |> |>).
    exists (fun c => cleared m (g c)), (upd_conversation cid (cleared m) w2). split; [reflexivity|].
    split; [done|].
    assert (Work.turns (upd_conversation cid (cleared m) w2) = Work.turns w1 ∧
            Work.jobs (upd_conversation cid (cleared m) w2) = Work.jobs w1) as [-> ->].
    { unfold upd_conversation. by destruct (conversation_at w2 cid). }
    split_and!; [done|done|]. intros j. rewrite conversation_at_upd.
    change (conversation_at w2 j) with (conversation_at w1 j). rewrite H1.
    case_decide; [|done]. by destruct (conversation_at w j).
  - exists g, w1. apply orb_false_iff in Eb as [Es Et]. split_and!; [done| |done|done|exact H1].
    split; [by apply Ha|done].
Qed.

Lemma no_open_no_active cid c w :
  turns_ok nowhere w → conversation_at w cid = Some c →
  negb (bool_decide (open_turns cid w = [])) = false → WebchatConversation.active_ai_turn_id c = None.
Proof.
  intros Hok Hc Hn%negb_false_iff%bool_decide_eq_true.
  destruct (WebchatConversation.active_ai_turn_id c) as [tid|] eqn:Ea; [|done].
  destruct (proj1 (turns_snapshots _ _ Hok cid c Hc) tid Ea) as [[]|(t & Et & Hcv & Ho & _)].
  assert (t ∈ open_turns cid w) as Hin by (apply elem_of_open_turns; eauto).
  rewrite Hn in Hin. by apply elem_of_nil in Hin.
Qed.

(** An idle conversation has no stale snapshot. *)
Lemma idle_ok cid c f w w' :
  turns_ok (fun c _ => c = cid) w → conversation_at w cid = Some c → idle_conversation (f c) →
  Work.turns w' = Work.turns w →
  (∀ j, conversation_at w' j = if decide (cid = j) then f <$> conversation_at w j else conversation_at w j) →
  turns_ok nowhere w'.
Proof.
  intros [H1 H2 H3] Hc [Ha Hn] HT HC.
  assert (∀ j, turn_at w' j = turn_at w j) as HT' by (intros j; unfold turn_at; by rewrite HT).
  split.
  - by rewrite HT.
  - intros i t. rewrite HT', HC. intros E. destruct (H2 i t E) as (? & ? & [x Hx]).
    split_and!; [done..|]. rewrite Hx. by case_decide.
  - intros j x. rewrite HC. unfold snapshot_ok. setoid_rewrite HT'. case_decide as Hj.
    + subst j. rewrite Hc. intros [= <-]. split; intros i; congruence.
    + intros E. destruct (H3 j x E) as [Hsa Hsn]. split; [|done].
      intros i Hi. destruct (Hsa i Hi) as [->|?]; [done|by right].
Qed.

Definition taken_over_turn (cid : Z) (actor : option Z) (why : string) (n : Z) (t : WebchatAITurn.t)
    : WebchatAITurn.t :=
  if (WebchatAITurn.conversation_id t =? cid) && open_turn t then cancelled_turn actor why n t else t.

Lemma takeover_run cid actor why w c :
  turns_ok nowhere w → conversation_at w cid = Some c →
  ∃ n w' c',
    cancel_open_ai_turns_for_handoff delivered cid actor why w =
      (Ok (Z.of_nat (length (open_turns cid w))), w') ∧
    turns_ok nowhere w' ∧ conversation_at w' cid = Some c' ∧ idle_conversation c' ∧
    (∀ j, j ≠ cid → conversation_at w' j = conversation_at w j) ∧
    (∀ j, turn_at w' j = taken_over_turn cid actor why n <$> turn_at w j) ∧
    (∀ j job, job_at w j = Some job →
       job_at w' j = Some (if decide (Some j ∈ WebchatAITurn.job_id <$> open_turns cid w ∧ j ≠ 0)
                           then cancel_row why n job else job)).
Proof.
  intros Hok Hc. set (n := Db.clock (Work.core w) (Db.ticks (Work.core w))).
  set (w0 := w <| Work.core := Work.core w <| Db.ticks ::= S |> |>).
  destruct (cancel_turns_run delivered cid actor why n (open_turns cid w) w0) as (w1 & E1 & B1 & T1 & J1).
  assert (beside w w1) as B by (eapply beside_trans; [|exact B1]; done).
  assert (conversation_at w1 cid = Some c) as Hc1.
  { unfold conversation_at. destruct B as (-> & _). exact Hc. }
  destruct (close_conversation_run cid c _ w1 Hc1 (no_open_no_active cid c w Hok Hc))
    as (f & w' & E2 & Hidle & HT & HJ & HC).
  pose proof (cancelled_ok cid actor why n w w1 Hok B T1) as Hok1.
  exists n, w', (f c). split.
  { unfold cancel_open_ai_turns_for_handoff. unfold mbind at 1, M_bind.
    change (now w) with (Ok n : result Z, w0). cbn beta iota.
    unfold get. unfold mbind at 1, M_bind. cbn beta iota zeta.
    change (open_turns cid w0) with (open_turns cid w). rewrite (bind_run_Ok _ _ _ _ _ E1).
    unfold mbind, M_bind in E2 |- *. cbn beta iota in E2 |- *. destruct (set_conversation cid _ w1) as [[[]|] w2]; [|done].
    destruct (the_conversation cid w2) as [[c2|] w3]; [|done]. by rewrite E2. }
  split_and!; [exact (idle_ok cid c f w1 w' Hok1 Hc1 Hidle HT HC)|by rewrite HC, decide_True, Hc1|exact Hidle| | |].
  - intros j Hj. rewrite HC, decide_False by done. unfold conversation_at. by destruct B as (-> & _).
  - intros j. unfold turn_at at 1. rewrite HT. change (table_get (Work.turns w1) j) with (turn_at w1 j).
    destruct (turn_at w j) as [t|] eqn:Et.
    + by rewrite (cancelled_at cid actor why n w w1 Hok T1 j t Et).
    + rewrite T1. change (turn_at w0 j) with (turn_at w j). rewrite Et. by case_decide.
  - intros j job Ej. unfold job_at in *. rewrite HJ. pose proof (J1 j) as H1. unfold job_at in H1.
    rewrite H1. change (Work.jobs w0) with (Work.jobs w). rewrite Ej. by case_decide.
Qed.

End Takeover.

(** ** Scheduling *)

Section Scheduling.
Context (delivered : Z → string → bool) (cfg : JobSettings.t).

Lemma enqueue_turns q ty p ma nr k w0 :
  preserves (same_turns w0) (enqueue_background_job cfg q ty p ma nr k).
Proof.
  assert (preserves (same_turns w0) now) as Hn by (intros w H; exact H).
  unfold enqueue_background_job. preserve; try exact Hn.
  intros w [H1 H2]. unfold insert_job. destruct (key_taken k w); [done|].
  unfold add_job. cbn [snd]. unfold same_turns, _insert_scope. by case_match.
Qed.

(** A turn and its job, when neither the message nor the key is taken *)
Lemma add_turn_run cid ticket_id m now_ at_ w :
  let tid := tnext (Work.turns w) in
  table_wf (Work.jobs w) → trigger_taken m w = false →
  _find_active_dedupe_job ("webchat-ai-turn:" +:+ pretty tid) w = None →
  ∃ job w', add_turn (create_turn_job cfg) cid ticket_id m now_ at_ w = (Ok tid, w') ∧
    Work.conversations w' = Work.conversations w ∧
    Work.turns w' = table_put tid
      (new_turn cid ticket_id m now_ tid <| WebchatAITurn.job_id := Some (BackgroundJob.id job) |>)
      (table_add (Work.turns w) (new_turn cid ticket_id m now_)) ∧
    job_at w (BackgroundJob.id job) = None ∧ BackgroundJob.status job = JobStatus.pending ∧
    BackgroundJob.next_run_at job = Some at_ ∧
    BackgroundJob.payload_json job = JObj [("conversation_id", JNum cid); ("ticket_id", jid ticket_id);
                                           ("visitor_message_id", JNum m); ("ai_turn_id", JNum tid)] ∧
    ∀ j, job_at w' j = if decide (BackgroundJob.id job = j) then Some job else job_at w j.
Proof.
  intros tid Hwf Htr Hk. set (w1 := w <| Work.turns ::= fun T => table_add T (new_turn cid ticket_id m now_) |>).
  assert (insert_turn (new_turn cid ticket_id m now_) w = (Ok tid, w1)) as E1.
  { unfold insert_turn. change (WebchatAITurn.trigger_message_id _) with m. by rewrite Htr. }
  destruct (enqueue_fresh cfg "webchat_ai_reply" WEBCHAT_AI_REPLY_JOB
    (JObj [("conversation_id", JNum cid); ("ticket_id", jid ticket_id);
           ("visitor_message_id", JNum m); ("ai_turn_id", JNum tid)]) None (Some at_)
    ("webchat-ai-turn:" +:+ pretty tid) w1 Hwf Hk)
    as (job & w2 & E2 & _ & Hno & Hst & _ & Hp & _ & Hnr & _ & Hat).
  assert (same_turns w1 w2) as [HT HC].
  { replace w2 with (snd (enqueue_background_job cfg "webchat_ai_reply" WEBCHAT_AI_REPLY_JOB
      (JObj [("conversation_id", JNum cid); ("ticket_id", jid ticket_id);
        ("visitor_message_id", JNum m); ("ai_turn_id", JNum tid)]) None (Some at_)
        (Some ("webchat-ai-turn:" +:+ pretty tid)) w1)) by (by rewrite E2).
    by apply enqueue_turns. }
  set (f := fun t => t <| WebchatAITurn.job_id := Some (BackgroundJob.id job) |>).
  assert (turn_at w2 tid = Some (new_turn cid ticket_id m now_ tid)) as Et.
  { unfold turn_at, table_get. rewrite HT. change (Work.turns w1) with (table_add (Work.turns w)
      (new_turn cid ticket_id m now_)). rewrite lookup_table_add. by rewrite decide_True. }
  exists job, (upd_turn tid f w2). split.
  { unfold add_turn. rewrite (bind_run_Ok _ _ _ _ _ E1).
    unfold create_turn_job. rewrite (bind_run_Ok _ _ _ _ _ E2). reflexivity. }
  unfold upd_turn. rewrite Et. split_and!; try done.
  - change (table_put tid (f (new_turn cid ticket_id m now_ tid)) (Work.turns w2) = table_put tid
      (f (new_turn cid ticket_id m now_ tid)) (table_add (Work.turns w) (new_turn cid ticket_id m now_))).
    by rewrite HT.
Qed.

(** A fresh turn with its job, and nothing else *)
Definition new_work (cid : Z) (ticket_id : option Z) (m now_ at_ tid : Z) (w w' : Work.t) : Prop :=
  ∃ job, tid = tnext (Work.turns w) ∧
    (∀ j, turn_at w' j = if decide (tid = j)
       then Some (new_turn cid ticket_id m now_ tid <| WebchatAITurn.job_id := Some (BackgroundJob.id job) |>)
       else turn_at w j) ∧
    job_at w (BackgroundJob.id job) = None ∧ BackgroundJob.status job = JobStatus.pending ∧
    BackgroundJob.next_run_at job = Some at_ ∧
    BackgroundJob.payload_json job = JObj [("conversation_id", JNum cid); ("ticket_id", jid ticket_id);
                                           ("visitor_message_id", JNum m); ("ai_turn_id", JNum tid)] ∧
    ∀ j, job_at w' j = if decide (BackgroundJob.id job = j) then Some job else job_at w j.

Lemma turns_ok_add cid ticket_id m now_ jid_ w w' :
  let tid := tnext (Work.turns w) in
  turns_ok nowhere w → is_Some (conversation_at w cid) →
  Work.conversations w' = Work.conversations w →
  Work.turns w' = table_put tid (new_turn cid ticket_id m now_ tid <| WebchatAITurn.job_id := Some jid_ |>)
                    (table_add (Work.turns w) (new_turn cid ticket_id m now_)) →
  turns_ok nowhere w' ∧
  (∀ j, turn_at w' j = if decide (tid = j)
     then Some (new_turn cid ticket_id m now_ tid <| WebchatAITurn.job_id := Some jid_ |>) else turn_at w j).
Proof.
  intros tid [H1 H2 H3] Hc HC HT.
  set (row := new_turn cid ticket_id m now_ tid <| WebchatAITurn.job_id := Some jid_ |>) in *.
  assert (∀ j, turn_at w' j = if decide (tid = j) then Some row else turn_at w j) as Hat.
  { intros j. unfold turn_at, table_get. rewrite HT, lookup_table_put, lookup_table_add.
    unfold tid. by repeat case_decide. }
  assert (turn_at w tid = None) as Hfresh by (by apply table_fresh).
  assert (∀ j t, turn_at w j = Some t → turn_at w' j = Some t) as Hkeep.
  { intros j t E. rewrite Hat, decide_False; [done|congruence]. }
  split; [|exact Hat]. split.
  - rewrite HT. apply table_wf_put; [by apply table_wf_add|]. rewrite lookup_table_add.
    by rewrite decide_True.
  - intros i t. rewrite Hat. unfold conversation_at. rewrite HC. case_decide as Hi; [|apply H2].
    intros [= <-]. subst i. split_and!; [done| |done]. left. by split_and!.
  - intros j c. unfold conversation_at. rewrite HC. intros E. destruct (H3 j c E) as [Ha Hn]. split.
    + intros i Hi. destruct (Ha i Hi) as [[]|(t & Et & H)]. right. exists t. split; [by apply Hkeep|done].
    + intros i Hi. destruct (Hn i Hi) as (t & Et & H). exists t. split; [by apply Hkeep|done].
Qed.

Lemma same_turns_at w w' j : same_turns w w' → turn_at w' j = turn_at w j ∧ conversation_at w' j = conversation_at w j.
Proof. intros [HT HC]. unfold turn_at, conversation_at. by rewrite HT, HC. Qed.

(** Both ways to use a new turn: it becomes the next one, or the active one. *)
Lemma add_turn_ok cid ticket_id m now_ at_ w :
  let tid := tnext (Work.turns w) in
  turns_ok nowhere w → is_Some (conversation_at w cid) →
  table_wf (Work.jobs w) → trigger_taken m w = false →
  _find_active_dedupe_job ("webchat-ai-turn:" +:+ pretty tid) w = None →
  ∃ w', add_turn (create_turn_job cfg) cid ticket_id m now_ at_ w = (Ok tid, w') ∧
    turns_ok nowhere w' ∧ new_work cid ticket_id m now_ at_ tid w w' ∧
    Work.conversations w' = Work.conversations w.
Proof.
  intros tid Hok Hc Hwf Htr Hk.
  destruct (add_turn_run cid ticket_id m now_ at_ w Hwf Htr Hk)
    as (job & w' & E & HC & HT & Hno & Hst & Hnr & Hp & HJ).
  destruct (turns_ok_add cid ticket_id m now_ _ w w' Hok Hc HC HT) as [Hok' Hat].
  exists w'. split_and!; [exact E|exact Hok'| |exact HC]. by exists job.
Qed.

Lemma new_work_same cid ticket_id m now_ at_ tid w w1 w2 :
  new_work cid ticket_id m now_ at_ tid w w1 → Work.turns w2 = Work.turns w1 → Work.jobs w2 = Work.jobs w1 →
  new_work cid ticket_id m now_ at_ tid w w2.
Proof.
  intros (job & H1 & H2 & H3 & H4 & H5 & H6 & H7) HT HJ. exists job.
  unfold turn_at, job_at in *. by rewrite HT, HJ.
Qed.

Lemma event_same c t e l w :
  ∃ w', safe_write_webchat_event delivered c t e l w = (Ok tt, w') ∧ same_turns w w' ∧
    Work.jobs w' = Work.jobs w.
Proof.
  destruct (event_run delivered c t e l w) as (w' & E & (HC & _) & HT & HJ). exists w'.
  by split_and!.
Qed.

(** A new turn, then an assignment to the conversation that points to it, then an event *)
Lemma point_to_turn cid f c w :
  turns_ok nowhere w → conversation_at w cid = Some c →
  snapshot_ok nowhere w cid (f c) →
  ∃ w', set_conversation cid f w = (Ok tt, w') ∧ turns_ok nowhere w' ∧
    Work.turns w' = Work.turns w ∧ Work.jobs w' = Work.jobs w ∧
    (∀ j, conversation_at w' j = if decide (cid = j) then Some (f c) else conversation_at w j).
Proof.
  intros Hok Hc Hs. exists (upd_conversation cid f w). split; [done|]. split_and!.
  - eapply upd_conversation_ok; [|by intros x; rewrite Hc; intros [= <-]|exact Hok]. done.
  - unfold upd_conversation. by rewrite Hc.
  - unfold upd_conversation. by rewrite Hc.
  - intros j. rewrite conversation_at_upd. case_decide; [subst j; by rewrite Hc|done].
Qed.

Section Branches.
Context (cid : Z) (ticket_id : option Z) (m now_ at_ : Z) (w : Work.t) (c : WebchatConversation.t).
Context (Hok : turns_ok nowhere w) (Hc : conversation_at w cid = Some c).
Context (Hwf : table_wf (Work.jobs w)) (Htr : trigger_taken m w = false).
Let fresh : Z := tnext (Work.turns w).
Context (Hk : _find_active_dedupe_job ("webchat-ai-turn:" +:+ pretty fresh) w = None).

(** The new turn, and the conversation after an assignment *)
Definition pointed (f : WebchatConversation.t → WebchatConversation.t) (w' : Work.t) : Prop :=
  turns_ok nowhere w' ∧ new_work cid ticket_id m now_ at_ fresh w w' ∧
  ∀ j, conversation_at w' j = if decide (cid = j) then Some (f c) else conversation_at w j.

Lemma pointed_same f w1 w2 :
  pointed f w1 → same_turns w1 w2 → Work.jobs w2 = Work.jobs w1 → pointed f w2.
Proof.
  intros (H1 & H2 & H3) Hs HJ. split_and!.
  - by eapply turns_ok_of.
  - by eapply new_work_same; [|apply Hs|].
  - intros j. by destruct (same_turns_at w1 w2 j Hs) as [_ ->].
Qed.

Lemma queue_next_run tid :
  ∃ w', queue_next delivered (create_turn_job cfg) cid ticket_id m now_ at_ tid w = (Ok (QueuedNext fresh), w') ∧
    pointed (fun c => c <| WebchatConversation.next_ai_turn_id := Some fresh |>
                        <| WebchatConversation.active_ai_updated_at := Some now_ |>) w'.
Proof.
  destruct (add_turn_ok cid ticket_id m now_ at_ w Hok ltac:(by exists c) Hwf Htr Hk) as (w1 & E1 & Hok1 & Hn1 & HC1).
  assert (conversation_at w1 cid = Some c) as Hc1 by (unfold conversation_at; by rewrite HC1).
  destruct (point_to_turn cid (fun c => c <| WebchatConversation.next_ai_turn_id := Some fresh |>
    <| WebchatConversation.active_ai_updated_at := Some now_ |>) c w1 Hok1 Hc1)
    as (w2 & E2 & Hok2 & HT2 & HJ2 & HC2).
  { destruct (turns_snapshots _ _ Hok1 cid c Hc1) as [Ha _]. split; [exact Ha|].
    intros i [= <-]. destruct Hn1 as (job & _ & Hat & _). eexists. rewrite Hat, decide_True by done. by split. }
  destruct (event_same cid ticket_id "ai_turn.queued" [("ai_turn_id", JNum fresh);
    ("queued_as_next", JBool true); ("active_ai_turn_id", JNum tid)] w2) as (w3 & E3 & Hs3 & HJ3).
  exists w3. unfold queue_next. rewrite (bind_run_Ok _ _ _ _ _ E1), (bind_run_Ok _ _ _ _ _ E2),
    (bind_run_Ok _ _ _ _ _ E3). split; [done|].
  eapply pointed_same; [|exact Hs3|exact HJ3]. split_and!; [done|by eapply new_work_same|].
  intros j. rewrite HC2. case_decide; [done|]. unfold conversation_at. by rewrite HC1.
Qed.

Lemma start_turn_run :
  ∃ w' n row, start_turn delivered (create_turn_job cfg) cid ticket_id m now_ at_ w = (Ok (Queued fresh), w') ∧
    WebchatAITurn.status row = "queued" ∧ pointed (activated fresh row n) w'.
Proof.
  destruct (add_turn_ok cid ticket_id m now_ at_ w Hok ltac:(by exists c) Hwf Htr Hk) as (w1 & E1 & Hok1 & Hn1 & HC1).
  pose proof Hn1 as (job & _ & Hat & _). specialize (Hat fresh). rewrite decide_True in Hat by done.
  set (row := _ <| WebchatAITurn.job_id := _ |>) in Hat.
  set (n := Db.clock (Work.core w1) (Db.ticks (Work.core w1))).
  set (w2 := w1 <| Work.core := Work.core w1 <| Db.ticks ::= S |> |>).
  assert (same_turns w1 w2) as Hs2 by done.
  assert (conversation_at w2 cid = Some c) as Hc2.
  { destruct (same_turns_at w1 w2 cid Hs2) as [_ ->]. unfold conversation_at. by rewrite HC1. }
  destruct (point_to_turn cid (activated fresh row n) c w2)
    as (w3 & E3 & Hok3 & HT3 & HJ3 & HC3); [by eapply turns_ok_of|done| |].
  { assert (turns_ok nowhere w2) as Hok2 by (by eapply turns_ok_of).
    destruct (turns_snapshots _ _ Hok2 cid c Hc2) as [_ Hn]. split; [|exact Hn].
    intros i [= <-]. right. exists row. by split_and!. }
  assert (_activate_turn cid fresh w1 = (Ok tt, w3)) as E2.
  { unfold _activate_turn. unfold mbind at 1, M_bind. change (now w1) with (Ok n : result Z, w2).
    cbn beta iota. unfold the_turn at 1. unfold mbind, M_bind.
    change (turn_at w2 fresh) with (turn_at w1 fresh). by rewrite Hat. }
  destruct (event_same cid ticket_id "ai_turn.queued" [("ai_turn_id", JNum fresh);
    ("trigger_message_id", JNum m)] w3) as (w4 & E4 & Hs4 & HJ4).
  exists w4, n, row. unfold start_turn. rewrite (bind_run_Ok _ _ _ _ _ E1), (bind_run_Ok _ _ _ _ _ E2),
    (bind_run_Ok _ _ _ _ _ E4). split_and!; [done|done|].
  eapply pointed_same; [|exact Hs4|exact HJ4]. split_and!; [done|by eapply new_work_same|].
  intros j. rewrite HC3. case_decide; [done|]. destruct (same_turns_at w1 w2 j Hs2) as [_ ->].
  unfold conversation_at. by rewrite HC1.
Qed.

Definition joined (t : WebchatAITurn.t) : WebchatAITurn.t :=
  t <| WebchatAITurn.latest_visitor_message_id := Some m |> <| WebchatAITurn.updated_at := now_ |>.
Definition postponed (job : BackgroundJob.t) : BackgroundJob.t :=
  job <| BackgroundJob.next_run_at := Some at_ |> <| BackgroundJob.updated_at := now_ |>.

(** The message joins the turn, and the job of the turn waits for more. *)
Definition joined_by (tid : Z) (t : WebchatAITurn.t) (w' : Work.t) : Prop :=
  turns_ok nowhere w' ∧
  (∀ j, turn_at w' j = if decide (tid = j) then Some (joined t) else turn_at w j) ∧
  (∀ j, conversation_at w' j = if decide (cid = j)
     then Some (c <| WebchatConversation.active_ai_for_message_id := Some m |>
                  <| WebchatConversation.active_ai_updated_at := Some now_ |>)
     else conversation_at w j) ∧
  (∀ j, job_at w' j = if decide (WebchatAITurn.job_id t = Some j ∧ j ≠ 0) then postponed <$> job_at w j
                      else job_at w j).

Lemma postpone_run job_id w1 :
  ∃ w2, match job_id with
        | Some j => when (negb (j =? 0)) (set_job j postponed)
        | None => mret tt
        end w1 = (Ok tt, w2) ∧ same_turns w1 w2 ∧
    ∀ j, job_at w2 j = if decide (job_id = Some j ∧ j ≠ 0) then postponed <$> job_at w1 j else job_at w1 j.
Proof.
  destruct job_id as [i|].
  - destruct (Z.eqb_spec i 0) as [->|Hi]; cbn [negb when].
    + exists w1. split_and!; [done|done|]. intros j. rewrite decide_False; [done|]. by intros [[= <-] ?].
    + unfold set_job, modify. eexists. split; [done|]. destruct (job_at w1 i) as [x|] eqn:Ex.
      * split; [done|]. intros j. unfold job_at at 1, table_get. cbn. rewrite lookup_table_put.
        destruct (decide (i = j)) as [<-|Hne].
        -- rewrite decide_True by done. by rewrite Ex.
        -- rewrite decide_False; [done|]. by intros [[= ?] _].
      * split; [done|]. intros j. case_decide as Hj; [|done]. destruct Hj as [[= <-] _]. by rewrite Ex.
  - exists w1. split_and!; [done|done|]. intros j. rewrite decide_False; [done|]. by intros [? _].
Qed.

Lemma coalesce_run tid t :
  turn_at w tid = Some t →
  ∃ w', coalesce delivered cid ticket_id m now_ at_ tid (WebchatAITurn.job_id t) w = (Ok (Coalesced tid), w') ∧
    joined_by tid t w'.
Proof.
  intros Et. set (w1 := upd_turn tid joined w).
  assert (turns_ok nowhere w1) as Hok1 by (by apply upd_turn_same).
  assert (conversation_at w1 cid = Some c) as Hc1 by (unfold w1; by rewrite conversation_at_turn).
  assert (Work.jobs w1 = Work.jobs w) as HJ1 by (unfold w1, upd_turn; by rewrite Et).
  set (f := fun c => c <| WebchatConversation.active_ai_for_message_id := Some m |>
                       <| WebchatConversation.active_ai_updated_at := Some now_ |>).
  destruct (point_to_turn cid f c w1 Hok1 Hc1) as (w2 & E2 & Hok2 & HT2 & HJ2 & HC2).
  { exact (turns_snapshots _ _ Hok1 cid c Hc1). }
  destruct (postpone_run (WebchatAITurn.job_id t) w2) as (w3 & E3 & Hs3 & HJ3).
  destruct (event_same cid ticket_id "ai_turn.coalesced" [("ai_turn_id", JNum tid);
    ("latest_visitor_message_id", JNum m)] w3) as (w4 & E4 & Hs4 & HJ4).
  exists w4. split.
  { unfold coalesce. change (set_turn tid (fun t => t <| WebchatAITurn.latest_visitor_message_id := Some m |>
      <| WebchatAITurn.updated_at := now_ |>)) with (set_turn tid joined).
    assert (set_turn tid joined w = (Ok tt, w1)) as E1 by done.
    rewrite (bind_run_Ok _ _ _ _ _ E1), (bind_run_Ok _ _ _ _ _ E2), (bind_run_Ok _ _ _ _ _ E3),
      (bind_run_Ok _ _ _ _ _ E4). done. }
  assert (∀ j, turn_at w4 j = turn_at w1 j ∧ conversation_at w4 j = conversation_at w2 j) as Hat.
  { intros j. destruct (same_turns_at w3 w4 j Hs4) as [-> ->], (same_turns_at w2 w3 j Hs3) as [-> ->].
    unfold turn_at. by rewrite HT2. }
  split_and!.
  - eapply turns_ok_of; [exact Hs4|]. by eapply turns_ok_of.
  - intros j. destruct (Hat j) as [-> _]. unfold w1. rewrite turn_at_upd.
    case_decide as Hj; [subst j; by rewrite Et|done].
  - intros j. destruct (Hat j) as [_ ->]. rewrite HC2. unfold w1. by rewrite conversation_at_turn.
  - intros j. unfold job_at at 1. rewrite HJ4. change (table_get (Work.jobs w3) j) with (job_at w3 j).
    rewrite HJ3. unfold job_at. by rewrite HJ2, HJ1.
Qed.

(** The active turn, when the snapshot is in order: nothing is cleared. *)
Lemma active_turn_run :
  match WebchatConversation.active_ai_turn_id c with
  | Some tid => if negb (tid =? 0)
                then ∃ t, turn_at w tid = Some t ∧ open_turn t = true ∧
                       active_turn cid w = (Ok (Some (tid, t)), w)
                else active_turn cid w = (Ok None, w)
  | None => active_turn cid w = (Ok None, w)
  end.
Proof.
  assert (the_conversation cid w = (Ok c, w)) as E by (unfold the_conversation; by rewrite Hc).
  assert (active_turn cid w = (if truthy_id (WebchatConversation.active_ai_turn_id c) then
    match WebchatConversation.active_ai_turn_id c ≫= (fun i => turn_at w i ≫= fun t => Some (i, t)) with
    | Some (tid, t) => if terminal_turn t
        then _ ← clear_active_ai_snapshot_if_current cid tid; mret None else mret (Some (tid, t))
    | None => mret None end else mret None) w) as ->.
  { unfold active_turn. rewrite (bind_run_Ok _ _ _ _ _ E). by destruct (truthy_id _). }
  destruct (WebchatConversation.active_ai_turn_id c) as [tid|] eqn:Ea; [|done].
  unfold truthy_id. destruct (negb (tid =? 0)); [|done].
  destruct (proj1 (turns_snapshots _ _ Hok cid c Hc) tid Ea) as [[]|(t & Et & _ & Ho & _)].
  exists t. split_and!; [done|done|]. cbn. rewrite Et. cbn.
  destruct (terminal_turn t) eqn:Ht; [|done]. by rewrite (terminal_not_open t Ht) in Ho.
Qed.
End Branches.

Lemma pointed_before cid ticket_id m now_ at_ f w c w0 w' :
  same_turns w w0 → Work.jobs w0 = Work.jobs w →
  pointed cid ticket_id m now_ at_ w0 c f w' → pointed cid ticket_id m now_ at_ w c f w'.
Proof.
  intros [HT HC] HJ (H1 & H2 & H3). split_and!; [exact H1| |].
  - unfold new_work, turn_at, job_at in *. by rewrite HT, HJ in H2.
  - unfold conversation_at in *. by rewrite HC in H3.
Qed.

Lemma joined_before cid m now_ at_ w c w0 tid t w' :
  same_turns w w0 → Work.jobs w0 = Work.jobs w →
  joined_by cid m now_ at_ w0 c tid t w' → joined_by cid m now_ at_ w c tid t w'.
Proof.
  intros [HT HC] HJ (H1 & H2 & H3 & H4). unfold joined_by, turn_at, conversation_at, job_at in *.
  rewrite HT in H2. rewrite HC in H3. rewrite HJ in H4. done.
Qed.

(** An open turn that is not queued is with the provider. *)
Lemma open_statuses t : open_turn t = true → WebchatAITurn.status t ≠ "queued" →
  bool_decide (WebchatAITurn.status t ∈ ["processing"; "bridge_calling"; "fallback_generating"]) = true.
Proof.
  unfold open_turn, AI_TURN_OPEN_STATUSES. rewrite !bool_decide_eq_true.
  intros [?|?]%elem_of_cons Hn; done.
Qed.

(** Scheduling covers every message.  A message of a conversation that a human owns or
    waits for adds no turn and no job.  Otherwise the message joins the active turn while
    that is queued, and its job is put off; behind a turn that is with the provider a new
    turn becomes the next one; without an active turn a new turn becomes the active one.
    A new turn comes with exactly one pending job, due after the debounce; nothing else
    changes. *)
Theorem turn_scheduling cid ticket_id message debounce w c :
  let m := WebchatMessage.id message in
  let now_ := Db.clock (Work.core w) (Db.ticks (Work.core w)) in
  let at_ := now_ + Z.max 0 debounce in
  let fresh := tnext (Work.turns w) in
  turns_ok nowhere w → conversation_at w cid = Some c → table_wf (Work.jobs w) →
  trigger_taken m w = false → _find_active_dedupe_job ("webchat-ai-turn:" +:+ pretty fresh) w = None →
  ∃ r w',
    schedule_webchat_ai_turn delivered (create_turn_job cfg) cid ticket_id message debounce w = (Ok r, w') ∧
    turns_ok nowhere w' ∧ is_ai_suspended_for_handoff c = bool_decide (r = Suppressed) ∧
    match r with
    | Suppressed => same_turns w w' ∧ Work.jobs w' = Work.jobs w
    | Coalesced tid =>
        WebchatConversation.active_ai_turn_id c = Some tid ∧
        ∃ t, turn_at w tid = Some t ∧ WebchatAITurn.status t = "queued" ∧ joined_by cid m now_ at_ w c tid t w'
    | QueuedNext new =>
        (∃ tid t, WebchatConversation.active_ai_turn_id c = Some tid ∧ turn_at w tid = Some t ∧
           open_turn t = true ∧ WebchatAITurn.status t ≠ "queued") ∧
        pointed cid ticket_id m now_ at_ w c
          (fun c => c <| WebchatConversation.next_ai_turn_id := Some new |>
                      <| WebchatConversation.active_ai_updated_at := Some now_ |>) w'
    | Queued new =>
        truthy_id (WebchatConversation.active_ai_turn_id c) = false ∧
        ∃ row n, WebchatAITurn.status row = "queued" ∧
          pointed cid ticket_id m now_ at_ w c (activated new row n) w'
    end.
Proof.
  intros m now_ at_ fresh Hok Hc Hwf Htr Hk.
  set (w1 := w <| Work.core := Work.core w <| Db.ticks ::= S |> |>).
  destruct (event_same cid ticket_id "message.created" [("message_id", JNum m);
    ("direction", JStr (WebchatMessage.direction message))] w1) as (w0 & E0 & Hs0 & HJ0).
  change (Work.jobs w1) with (Work.jobs w) in HJ0. change (same_turns w w0) in Hs0.
  assert (turns_ok nowhere w0) as Hok0 by (by eapply turns_ok_of).
  assert (conversation_at w0 cid = Some c) as Hc0 by (by destruct (same_turns_at w w0 cid Hs0) as [_ ->]).
  assert (table_wf (Work.jobs w0)) as Hwf0 by (by rewrite HJ0).
  assert (trigger_taken m w0 = false) as Htr0 by (unfold trigger_taken; by rewrite (proj1 Hs0)).
  assert (tnext (Work.turns w0) = fresh) as Hfresh by (by rewrite (proj1 Hs0)).
  assert (_find_active_dedupe_job ("webchat-ai-turn:" +:+ pretty (tnext (Work.turns w0))) w0 = None) as Hk0.
  { unfold _find_active_dedupe_job. by rewrite HJ0, Hfresh. }
  assert (the_conversation cid w0 = (Ok c, w0)) as E1 by (unfold the_conversation; by rewrite Hc0).
  unfold schedule_webchat_ai_turn. unfold mbind at 1, M_bind.
  change (now w) with (Ok now_ : result Z, w1). cbn beta iota. fold m at_.
  rewrite (bind_run_Ok _ _ _ _ _ E0), (bind_run_Ok _ _ _ _ _ E1).
  destruct (is_ai_suspended_for_handoff c) eqn:Es.
  { destruct (event_same cid ticket_id "ai_turn.suppressed_by_handoff"
      [("trigger_message_id", JNum m); ("handoff_status", JStr (WebchatConversation.handoff_status c));
       ("current_handoff_request_id", jid (WebchatConversation.current_handoff_request_id c));
       ("ai_suspended_reason", jopt (WebchatConversation.ai_suspended_reason c))] w0) as (w2 & E2 & [HT2 HC2] & HJ2).
    exists Suppressed, w2. rewrite (bind_run_Ok _ _ _ _ _ E2). destruct Hs0 as [HT0 HC0].
    split_and!; [done| |done|split; congruence|congruence].
    eapply turns_ok_of; [|exact Hok]. split; congruence. }
  destruct (start_turn_run cid ticket_id m now_ at_ w0 c Hok0 Hc0 Hwf0 Htr0 Hk0)
    as (ws & n & row & Ers & Hrow & Hps).
  rewrite Hfresh in Ers. apply (pointed_before _ _ _ _ _ _ w) in Hps; [|done|done].
  pose proof (active_turn_run cid w0 c Hok0 Hc0) as Ha.
  destruct (WebchatConversation.active_ai_turn_id c) as [tid|] eqn:Ea; [destruct (negb (tid =? 0)) eqn:Ez|].
  2-3: rewrite (bind_run_Ok _ _ _ _ _ Ha); exists (Queued fresh), ws; rewrite Hfresh in Hps;
    split_and!; [exact Ers|apply Hps|done|done|eauto].
  destruct Ha as (t & Et & Ho & Ha). rewrite (bind_run_Ok _ _ _ _ _ Ha).
  assert (turn_at w tid = Some t) as Etw by (by destruct (same_turns_at w w0 tid Hs0) as [<- _]).
  destruct (decide (WebchatAITurn.status t = "queued")) as [Hq|Hq].
  - destruct (coalesce_run cid ticket_id m now_ at_ w0 c Hok0 Hc0 tid t Et) as (w2 & E2 & Hj).
    apply (joined_before _ _ _ _ w) in Hj; [|done|done].
    exists (Coalesced tid), w2. split_and!; [exact E2|apply Hj|done|done|]. by exists t.
  - rewrite (open_statuses t Ho Hq).
    destruct (queue_next_run cid ticket_id m now_ at_ w0 c Hok0 Hc0 Hwf0 Htr0 Hk0 tid) as (w2 & E2 & Hp).
    rewrite Hfresh in E2, Hp. apply (pointed_before _ _ _ _ _ _ w) in Hp; [|done|done].
    exists (QueuedNext fresh), w2. split_and!; [exact E2|apply Hp|done| |exact Hp]. by exists tid, t.
Qed.
End Scheduling.

(** ** Histories *)

(** Triples of programs that may raise: a raise is rolled back. *)
Definition returns {A} (P : Work.t → Prop) (m : M Work.t A) (Q : A → Work.t → Prop) : Prop :=
  hoare P m Q (fun _ _ => True).

Lemma returns_runs {A} P (m : M Work.t A) Q : runs P m Q → returns P m Q.
Proof. intros H. eapply hoare_conseq; [| | |exact H]; done. Qed.
Lemma returns_seq {A B} P R (m : M Work.t A) (k : A → M Work.t B) Q :
  returns P m (fun _ => R) → (∀ a, returns R (k a) Q) → returns P (m ≫= k) Q.
Proof. apply hoare_bind. Qed.
Lemma returns_bind {A B} P (m : M Work.t A) (k : A → M Work.t B) R Q :
  returns P m R → (∀ a, returns (R a) (k a) Q) → returns P (m ≫= k) Q.
Proof. apply hoare_bind. Qed.
Lemma returns_ret {A} (P : Work.t → Prop) (a : A) Q : (∀ w, P w → Q a w) → returns P (mret a) Q.
Proof. apply hoare_ret. Qed.
Lemma returns_keep {A} P (m : M Work.t A) : preserves P m → returns P m (fun _ => P).
Proof. intros H. eapply hoare_conseq; [| | |apply (hoare_keep P m H)]; done. Qed.
Lemma returns_get (P : Work.t → Prop) Q : (∀ w, P w → Q w w) → returns P get Q.
Proof. intros H w Hw. by apply H. Qed.
Lemma returns_pre {A} (P P' : Work.t → Prop) (m : M Work.t A) Q :
  (∀ w, P w → P' w) → returns P' m Q → returns P m Q.
Proof. intros H1 H2. eapply hoare_conseq; [exact H1| | |exact H2]; done. Qed.
Lemma returns_post {A} P (m : M Work.t A) (Q Q' : A → Work.t → Prop) :
  returns P m Q → (∀ a w, Q a w → Q' a w) → returns P m Q'.
Proof. intros H1 H2. eapply hoare_conseq; [| | |exact H1]; [done|exact H2|done]. Qed.

(** The invariant, and the turn of a job *)
Definition with_turn (cid : Z) (turn : option Z) (w : Work.t) : Prop :=
  turns_ok nowhere w ∧ match turn with Some tid => has_turn cid tid any_turn w | None => True end.

(** The contract of the components that the job of a reply calls *)
Class TurnClients (confirmed_action : Z → Z → option Z → M Work.t unit)
    (run_agent_reply : Z → option Z → Z → option Z → M Work.t Reply.t)
    (request_handoff : Z → option Z → Z → option Z → M Work.t unit) : Prop := {
  client_action : ∀ cid m turn,
    returns (with_turn cid turn) (confirmed_action cid m turn) (fun _ => with_turn cid turn);
  client_run : ∀ cid i m turn,
    returns (with_turn cid turn) (run_agent_reply cid i m turn) (fun _ => with_turn cid turn);
  client_handoff : ∀ cid i m turn,
    returns (with_turn cid turn) (request_handoff cid i m turn) (fun _ => turns_ok nowhere) }.

Section Histories.
Context (delivered : Z → string → bool) (cfg : JobSettings.t).
Context (confirmed_action : Z → Z → option Z → M Work.t unit).
Context (run_agent_reply : Z → option Z → Z → option Z → M Work.t Reply.t).
Context (request_handoff : Z → option Z → Z → option Z → M Work.t unit) (auto_reply_disabled : bool).
Context `{!TurnClients confirmed_action run_agent_reply request_handoff}.

Lemma with_turn_of cid turn : of_turns (with_turn cid turn).
Proof. apply of_turns_and; [apply turns_ok_of|]. destruct turn; [apply has_turn_of|done]. Qed.

Lemma with_any cid tid Q w : turns_ok nowhere w ∧ has_turn cid tid Q w → with_turn cid (Some tid) w.
Proof. intros [? (t & ? & ? & _)]. split; [done|]. by exists t. Qed.

Lemma returns_complete_turn cid turn r :
  returns (with_turn cid turn) (_complete_turn delivered cid turn r) (fun _ => with_turn cid turn).
Proof.
  unfold _complete_turn. destruct turn as [tid|]; [|by apply returns_ret].
  destruct (negb (Reply.turn_finalized r)); [|by apply returns_ret].
  apply returns_runs. eapply runs_post; [apply runs_complete|]. intros [] w. apply with_any.
Qed.

Lemma returns_begin cid tid :
  returns (with_turn cid (Some tid)) (begin_turn delivered cid tid) (fun _ => with_turn cid (Some tid)).
Proof.
  apply returns_runs. eapply runs_bind; [by apply (runs_the_turn cid tid any_turn); intros w [_ ?]|].
  intros t. cbn beta. apply runs_when; [intros Hq%bool_decide_eq_true|by intros _ w [? _]].
  eapply (runs_pre _ (fun w => turns_ok nowhere w ∧ has_turn cid tid no_reply_yet w)).
  { intros w [[Hok _] (Et & Hc & _)]. split; [done|]. exists t. split_and!; [done..|].
    destruct (turns_rows _ _ Hok tid t Et) as (_ & [?|[Ht _]] & _); [done|].
    exfalso. unfold terminal_turn in Ht. rewrite Hq in Ht. by vm_compute in Ht. }
  eapply runs_seq; [apply runs_processing|]. intros _.
  eapply runs_seq; [apply runs_get; intros w H; exact H|]. intros w1.
  eapply runs_post; [apply runs_bridge_calling|]. intros [] w. apply with_any.
Qed.

Lemma returns_cancel cid actor why :
  returns (fun w => turns_ok nowhere w ∧ is_Some (conversation_at w cid))
    (cancel_open_ai_turns_for_handoff delivered cid actor why) (fun _ => turns_ok nowhere).
Proof.
  intros w [Hok [c Hc]].
  destruct (takeover_run delivered cid actor why w c Hok Hc) as (n & w' & c' & E & Hok' & _).
  by rewrite E.
Qed.

(** A new turn, whatever becomes of its job *)
Lemma add_turn_returns cid ticket_id m now_ at_ c :
  returns (fun w => turns_ok nowhere w ∧ conversation_at w cid = Some c)
    (add_turn (create_turn_job cfg) cid ticket_id m now_ at_)
    (fun tid w => turns_ok nowhere w ∧ conversation_at w cid = Some c ∧
                  has_turn cid tid (fun t => open_turn t = true) w).
Proof.
  intros w [Hok Hc]. unfold add_turn, insert_turn. unfold mbind at 1, M_bind.
  destruct (trigger_taken _ w); [done|]. cbn beta iota zeta.
  set (tid := tnext (Work.turns w)).
  change (WebchatAITurn.id (new_turn cid ticket_id m now_ tid)) with tid.
  set (w1 := w <| Work.turns ::= fun T => table_add T (new_turn cid ticket_id m now_) |>).
  set (payload := JObj _). set (key := "webchat-ai-turn:" +:+ pretty tid).
  pose proof (enqueue_turns cfg "webchat_ai_reply" WEBCHAT_AI_REPLY_JOB payload None (Some at_) (Some key) w1 w1
    ltac:(done)) as HS.
  unfold create_turn_job. unfold mbind at 1, M_bind.
  destruct (enqueue_background_job cfg _ _ payload _ _ (Some key) w1) as [[job|e] w2]; [|done].
  cbn [snd] in HS. cbn beta iota. unfold set_turn, modify. unfold mbind, M_bind. cbn beta iota.
  set (f := fun t => t <| WebchatAITurn.job_id := Some (BackgroundJob.id job) |>).
  assert (turn_at w2 tid = Some (new_turn cid ticket_id m now_ tid)) as Et.
  { destruct (same_turns_at w1 w2 tid HS) as [-> _]. unfold turn_at, table_get.
    change (Work.turns w1) with (table_add (Work.turns w) (new_turn cid ticket_id m now_)).
    rewrite lookup_table_add. by rewrite decide_True. }
  destruct (turns_ok_add cid ticket_id m now_ (BackgroundJob.id job) w (upd_turn tid f w2) Hok) as [Hok' Hat].
  - by exists c.
  - unfold upd_turn. rewrite Et. apply HS.
  - unfold upd_turn. rewrite Et. change (table_put tid (f (new_turn cid ticket_id m now_ tid)) (Work.turns w2) =
      table_put tid (f (new_turn cid ticket_id m now_ tid)) (Work.turns w1)). by rewrite (proj1 HS).
  - change (turns_ok nowhere (upd_turn tid f w2) ∧ conversation_at (upd_turn tid f w2) cid = Some c ∧
      has_turn cid tid (fun t => open_turn t = true) (upd_turn tid f w2)). split_and!; [done| |].
    + rewrite conversation_at_turn. destruct (same_turns_at w1 w2 cid HS) as [_ ->]. exact Hc.
    + eexists. rewrite Hat, decide_True by done. by split_and!.
Qed.

Lemma queue_next_returns cid ticket_id m now_ at_ tid c :
  returns (fun w => turns_ok nowhere w ∧ conversation_at w cid = Some c)
    (queue_next delivered (create_turn_job cfg) cid ticket_id m now_ at_ tid) (fun _ => turns_ok nowhere).
Proof.
  eapply returns_bind; [apply add_turn_returns|]. intros new. cbn beta.
  eapply (returns_seq _ (turns_ok nowhere)).
  - intros w (Hok & Hc & (t & Et & Hcv & _)).
    eapply upd_conversation_ok; [| |exact Hok]; [done|]. intros c'. rewrite Hc. intros [= <-].
    destruct (turns_snapshots _ _ Hok cid c Hc) as [Ha _]. split; [exact Ha|]. intros i [= <-]. by exists t.
  - intros _. eapply returns_seq; [apply returns_runs, runs_event; auto with nexus|].
    intros _. by apply returns_ret.
Qed.

Lemma start_turn_returns cid ticket_id m now_ at_ c :
  returns (fun w => turns_ok nowhere w ∧ conversation_at w cid = Some c)
    (start_turn delivered (create_turn_job cfg) cid ticket_id m now_ at_) (fun _ => turns_ok nowhere).
Proof.
  eapply returns_bind; [apply add_turn_returns|]. intros new. cbn beta.
  eapply (returns_seq _ (fun w => turns_ok nowhere w ∧ has_turn cid new (fun t => open_turn t = true) w)).
  - eapply returns_pre; [|apply returns_runs, (runs_activate cid _ nowhere new);
      [apply keeps_has_turn|by intros ? ? []|done]]. by intros w (? & _ & ?).
  - intros _. eapply returns_seq; [apply returns_runs, runs_event; auto with nexus|].
    intros _. apply returns_ret. by intros w [? _].
Qed.

Lemma schedule_returns cid ticket_id message debounce :
  returns (turns_ok nowhere)
    (schedule_webchat_ai_turn delivered (create_turn_job cfg) cid ticket_id message debounce)
    (fun _ => turns_ok nowhere).
Proof.
  unfold schedule_webchat_ai_turn. cbv zeta.
  eapply returns_bind; [apply returns_runs, runs_now; auto with nexus|]. intros n. cbn beta.
  eapply returns_seq; [apply returns_runs, runs_event; auto with nexus|]. intros _.
  eapply (returns_bind _ _ _ (fun c w => turns_ok nowhere w ∧ conversation_at w cid = Some c)).
  { intros w Hok. unfold the_conversation. by destruct (conversation_at w cid) eqn:E. }
  intros c. cbn beta. destruct (is_ai_suspended_for_handoff c).
  { eapply returns_seq; [apply returns_runs, runs_event|].
    - apply of_turns_and; [apply turns_ok_of|]. intros w w' Hs <-. by destruct (same_turns_at w w' cid Hs).
    - intros _. apply returns_ret. by intros w [? _]. }
  eapply (returns_bind _ _ _ (fun r w => (turns_ok nowhere w ∧ conversation_at w cid = Some c) ∧
    match r with Some (tid, t) => turn_at w tid = Some t | None => True end)).
  { intros w [Hok Hc]. pose proof (active_turn_run cid w c Hok Hc) as Ha.
    destruct (WebchatConversation.active_ai_turn_id c) as [tid|]; [|by rewrite Ha].
    destruct (negb (tid =? 0)); [|by rewrite Ha]. destruct Ha as (t & Et & _ & ->). done. }
  intros [[tid t]|]; cbn beta iota.
  - case_decide; [|case_match].
    + intros w [[Hok Hc] Et]. destruct (coalesce_run delivered cid ticket_id (WebchatMessage.id message) n
        (n + Z.max 0 debounce) w c Hok Hc tid t Et) as (w' & E & Hj & _). by rewrite E.
    + eapply returns_pre; [|apply (queue_next_returns _ _ _ _ _ _ c)]. by intros w [? _].
    + eapply returns_pre; [|apply (start_turn_returns _ _ _ _ _ c)]. by intros w [? _].
  - eapply returns_pre; [|apply (start_turn_returns _ _ _ _ _ c)]. by intros w [? _].
Qed.

Lemma load_context_returns cid ticket_id message_id :
  returns (turns_ok nowhere) (_load_context cid ticket_id message_id) (fun _ => turns_ok nowhere).
Proof.
  apply returns_keep. unfold _load_context, found. preserve.
  apply preserves_modify. intros w H. destruct (message_at w message_id); [|done].
  eapply turns_ok_of; [|exact H]. done.
Qed.

Lemma open_turn_for_message cid message_id w :
  turns_ok nowhere w → with_turn cid (_open_turn_for_message cid message_id w) w.
Proof.
  intros Hok. split; [done|]. unfold _open_turn_for_message.
  destruct (conversation_at w cid) as [c|]; [|done]. cbn.
  destruct (filter _ _) as [|t l] eqn:E; [done|]. cbn.
  assert (t ∈ filter (fun t => answers c message_id t = true) (open_turns cid w)) as Hin by (rewrite E; by left).
  apply list_elem_of_filter in Hin as [_ (i & Ei & Hc & _)%elem_of_open_turns].
  destruct (turns_rows _ _ Hok i t Ei) as [-> _]. by exists t.
Qed.

Lemma reply_returns cid message_id turn :
  returns (with_turn cid turn)
    (reply delivered run_agent_reply request_handoff auto_reply_disabled cid message_id turn)
    (fun _ => turns_ok nowhere).
Proof.
  unfold reply. eapply (returns_seq _ (with_turn cid turn)); [by apply returns_get|]. intros w0. cbv zeta.
  eapply (returns_seq _ (with_turn cid turn)).
  { destruct auto_reply_disabled; [|apply client_run]. eapply (returns_seq _ (with_turn cid turn)).
    - apply returns_keep. unfold _record_disabled.
      apply preserves_bind; [intros w H; eapply with_turn_of; [|exact H]; done|intros _].
      destruct (current_ticket cid w0).
      + intros w H. eapply with_turn_of; [|exact H]. done.
      + apply preserves_modify. intros w H. eapply with_turn_of; [|exact H]. done.
    - intros _. by apply returns_ret. }
  intros r. eapply (returns_seq _ (with_turn cid turn)).
  { apply returns_keep. unfold _require_customer_terminal_outcome. apply preserves_require. }
  intros _. eapply returns_seq; [apply returns_complete_turn|]. intros _.
  destruct auto_reply_disabled; [apply client_handoff|]. apply returns_ret. by intros w [? _].
Qed.

Lemma process_returns cid ticket_id message_id :
  returns (turns_ok nowhere)
    (process_webchat_ai_reply_job delivered confirmed_action run_agent_reply request_handoff
       auto_reply_disabled cid ticket_id message_id) (fun _ => turns_ok nowhere).
Proof.
  unfold process_webchat_ai_reply_job.
  eapply returns_seq; [apply load_context_returns|]. intros _.
  eapply (returns_bind _ _ _ (fun w0 => with_turn cid (_open_turn_for_message cid message_id w0))).
  { apply returns_get. intros w. apply open_turn_for_message. }
  intros w0. cbn beta zeta. set (turn := _open_turn_for_message cid message_id w0).
  eapply returns_seq; [apply client_action|]. intros _.
  eapply (returns_bind _ _ _ (fun c w => with_turn cid turn w ∧ is_Some (conversation_at w cid))).
  { intros w H. unfold the_conversation. by destruct (conversation_at w cid) eqn:E. }
  intros c. cbn beta. destruct (is_ai_suspended_for_handoff c).
  { eapply returns_seq; [|intros _; by apply returns_ret].
    eapply returns_pre; [|apply returns_cancel]. by intros w [[? _] ?]. }
  eapply (returns_seq _ (with_turn cid turn)).
  { destruct turn as [tid|]; [|apply returns_ret; by intros w [? _]].
    eapply returns_pre; [|apply returns_begin]. by intros w [? _]. }
  intros _. eapply (returns_seq _ (with_turn cid turn)); [by apply returns_get|]. intros w1.
  destruct (_agent_reply_exists cid message_id w1).
  { eapply returns_post; [apply returns_complete_turn|]. by intros _ w [? _]. }
  eapply (returns_seq _ (with_turn cid turn)).
  { destruct turn as [tid|]; [|by apply returns_ret].
    apply returns_runs, runs_suppress. }
  intros stale. destruct stale; [apply returns_ret; by intros w [? _]|apply reply_returns].
Qed.

(** The transactions that touch turns: the arrival of a message, the job of a reply, a
    handoff, the end of a turn by the terminal job service, and those of other components *)
Inductive turn_op :=
| Message (cid : Z) (ticket_id : option Z) (message : WebchatMessage.t) (debounce : Z)
| ReplyJob (cid : Z) (ticket_id : option Z) (message_id : Z)
| TakeOver (cid : Z) (actor : option Z) (why : string)
| Complete (tid : Z) (r : Reply.t)
| Supersede (tid : Z) (why : string)
| Elsewhere (f : Work.t → Work.t).

Definition on_turn (tid : Z) (m : Z → M Work.t unit) : M Work.t unit :=
  t ← the_turn tid; m (WebchatAITurn.conversation_id t).

Definition turn_program (o : turn_op) : M Work.t unit :=
  match o with
  | Message cid ticket_id message debounce =>
      _ ← schedule_webchat_ai_turn delivered (create_turn_job cfg) cid ticket_id message debounce; mret tt
  | ReplyJob cid ticket_id message_id =>
      process_webchat_ai_reply_job delivered confirmed_action run_agent_reply request_handoff
        auto_reply_disabled cid ticket_id message_id
  | TakeOver cid actor why =>
      _ ← the_conversation cid; _ ← cancel_open_ai_turns_for_handoff delivered cid actor why; mret tt
  | Complete tid r => on_turn tid (fun cid => complete_ai_turn_with_reply delivered cid tid r)
  | Supersede tid why => on_turn tid (fun cid => supersede_ai_turn delivered cid tid None (Some why))
  | Elsewhere f => modify f
  end.

(** A transaction commits, or is rolled back when it raises. *)
Definition run_turn_op (w : Work.t) (o : turn_op) : Work.t :=
  match turn_program o w with (Ok _, w') => w' | (Err _, _) => w end.

Definition turn_op_ok (o : turn_op) : Prop :=
  match o with Elsewhere f => ∀ w, turns_ok nowhere w → turns_ok nowhere (f w) | _ => True end.

Lemma on_turn_returns tid m :
  (∀ cid, returns (with_turn cid (Some tid)) (m cid) (fun _ => turns_ok nowhere)) →
  returns (turns_ok nowhere) (on_turn tid m) (fun _ => turns_ok nowhere).
Proof.
  intros H w Hok. unfold on_turn, the_turn. unfold mbind, M_bind.
  destruct (turn_at w tid) as [t|] eqn:E; [|done].
  apply (H (WebchatAITurn.conversation_id t) w). split; [done|]. by exists t.
Qed.

Lemma turn_program_returns o :
  turn_op_ok o → returns (turns_ok nowhere) (turn_program o) (fun _ => turns_ok nowhere).
Proof.
  destruct o as [cid i m d|cid i m|cid a why|tid r|tid why|f]; intros Ho; cbn [turn_program].
  - eapply returns_seq; [apply schedule_returns|]. intros _. by apply returns_ret.
  - apply process_returns.
  - eapply (returns_seq _ (fun w => turns_ok nowhere w ∧ is_Some (conversation_at w cid))).
    { intros w H. unfold the_conversation. by destruct (conversation_at w cid) eqn:E. }
    intros _. eapply returns_seq; [apply returns_cancel|]. intros _. by apply returns_ret.
  - apply on_turn_returns. intros cid. apply returns_runs. eapply runs_post; [apply runs_complete|].
    by intros [] w [? _].
  - apply on_turn_returns. intros cid. apply returns_runs. eapply runs_post; [apply runs_supersede|].
    by intros [] w [? _].
  - intros w Hw. by apply Ho.
Qed.

Lemma run_turn_op_ok o w : turn_op_ok o → turns_ok nowhere w → turns_ok nowhere (run_turn_op w o).
Proof.
  intros Ho Hw. pose proof (turn_program_returns o Ho w Hw) as H. unfold run_turn_op.
  by destruct (turn_program o w) as [[[]|] w'].
Qed.

(** C12: The cache of the active turn never lies.  After any history of messages, reply
    jobs, handoffs and terminal outcomes, the active turn of a conversation is an open
    turn of this conversation in the state the snapshot shows; an open turn may reply in
    public and has no end time, every other turn is terminal with one; turns belong to
    existing conversations. *)
Theorem ai_turns_invariant ops w :
  turns_ok nowhere w → Forall turn_op_ok ops → turns_ok nowhere (foldl run_turn_op w ops).
Proof.
  intros Hw Hops. revert w Hw. induction Hops as [|o ops Ho _ IH]; intros w Hw; [done|].
  by apply IH, run_turn_op_ok.
Qed.
End Histories.

(** ** A concrete conversation *)

Module FixTurns.
Definition delivered (_ : Z) (_ : string) : bool := true.
Definition action (_ _ : Z) (_ : option Z) : M Work.t unit := mret tt.
Definition run (_ : Z) (_ : option Z) (_ : Z) (_ : option Z) : M Work.t Reply.t :=
  mret (Reply.empty <| Reply.status := Some "done" |> <| Reply.message_id := Some 10 |>).
Definition handoff (_ : Z) (_ : option Z) (_ : Z) (_ : option Z) : M Work.t unit := mret tt.

#[global] Instance clients : TurnClients action run handoff.
Proof. split; intros; apply returns_ret; intros w H; [exact H|exact H|exact (proj1 H)]. Qed.

Definition message (i : Z) : WebchatMessage.t :=
  {| WebchatMessage.id := i; WebchatMessage.conversation_id := 5; WebchatMessage.ticket_id := Some 1;
     WebchatMessage.direction := "visitor"; WebchatMessage.ai_turn_id := None;
     WebchatMessage.author_label := None |}.

Lemma idle_turns_ok : turns_ok nowhere FixWork.idle.
Proof.
  split.
  - apply table_wf_empty.
  - intros i t H. by vm_compute in H.
  - intros cid c H. unfold conversation_at, table_get in H. cbn in H.
    apply lookup_singleton_Some in H as [<- <-]. by split.
Qed.

(** A message has come in, then a second one. *)
Definition history : list turn_op :=
  [Message 5 (Some 1) (message 9) (seconds 1); Message 5 (Some 1) (message 11) (seconds 1)].
Definition after (ops : list turn_op) : Work.t :=
  foldl (run_turn_op delivered FixWork.settings action run handoff false) FixWork.idle ops.
Definition queued : Work.t := after [Message 5 (Some 1) (message 9) (seconds 1)].
Definition conversation : WebchatConversation.t :=
  default FixWork.conversation (conversation_at queued 5).

Lemma queued_ok : turns_ok nowhere queued.
Proof.
  exact (run_turn_op_ok delivered FixWork.settings action run handoff false
    (Message 5 (Some 1) (message 9) (seconds 1)) FixWork.idle I idle_turns_ok).
Qed.

(** The second message joins the queued turn; a handoff cancels it. *)
Example two_messages_one_turn :
  length (open_turns 5 (after history)) = 1%nat ∧
  (WebchatAITurn.latest_visitor_message_id <$> turn_at (after history) 1) = Some (Some 11) ∧
  open_turns 5 (after (history ++ [TakeOver 5 (Some 2) "handoff_ai_suspended"])) = [].
Proof. split_and!; vm_compute; reflexivity. Qed.

(** The job of the first turn replies and completes it. *)
Example one_reply :
  (WebchatAITurn.status <$> turn_at (after [Message 5 (Some 1) (message 9) (seconds 1);
     Elsewhere (fun w => w <| Work.wmessages := {| trows := {[9 := message 9]}; tnext := 10 |} |>);
     ReplyJob 5 (Some 1) 9]) 1) = Some "completed".
Proof. vm_compute. reflexivity. Qed.
End FixTurns.

Lemma turn_scheduling_witness :
  ∃ r, fst (schedule_webchat_ai_turn FixTurns.delivered (create_turn_job FixWork.settings) 5 (Some 1)
              (FixTurns.message 9) (seconds 1) FixWork.idle) = Ok r.
Proof.
  destruct (turn_scheduling FixTurns.delivered FixWork.settings 5 (Some 1) (FixTurns.message 9) (seconds 1)
    FixWork.idle FixWork.conversation FixTurns.idle_turns_ok eq_refl (table_wf_empty (R := BackgroundJob.t)) eq_refl
    eq_refl) as (r & w' & E & _).
  exists r. rewrite E. reflexivity.
Defined.


Lemma ai_turns_invariant_witness : turns_ok nowhere (FixTurns.after FixTurns.history).
Proof.
  refine (ai_turns_invariant FixTurns.delivered FixWork.settings FixTurns.action FixTurns.run FixTurns.handoff
    false FixTurns.history FixWork.idle FixTurns.idle_turns_ok _).
  repeat constructor.
Defined.
