(* ===== verification/Desk.v ===== *)
(** * The tables of the agent desk

    Rows of [models_agent_routing.py], [models_handoff_routing.py],
    [models_case_scenario.py], [operator_models.py], [voice_models.py] and the handoffs of
    [webchat_models.py]: who is on duty, which conversations wait for a person, which
    calls ring where.  [Desk.t] is the database of the workers (Work.v) with these tables
    beside it.

    Of a voice session, a call leg and a channel configuration the columns are kept that the
    routing reads or writes; of an operator task all but the
    version of its source, which depends on the order of a flush. *)

From S2P Require Import Prelude Calendar Enums Models Work AiTurns.

(** ** Rows *)

Module OperatorAgentState.
Record t := {
  id : Z; user_id : Z; status : string; max_concurrent_conversations : Z; voice_enabled : bool;
  max_concurrent_voice_calls : Z; voice_wrap_up_seconds : Z; last_heartbeat_at : option Z;
  status_changed_at : Z; created_at : Z; updated_at : Z }.
#[global] Instance eta : Settable t := fun r => {|
  id := id r; user_id := user_id r; status := status r;
  max_concurrent_conversations := max_concurrent_conversations r;
  voice_enabled := voice_enabled r; max_concurrent_voice_calls := max_concurrent_voice_calls r;
  voice_wrap_up_seconds := voice_wrap_up_seconds r; last_heartbeat_at := last_heartbeat_at r;
  status_changed_at := status_changed_at r; created_at := created_at r;
  updated_at := updated_at r |}.
End OperatorAgentState.

Module OperatorQueueScopeGrant.
Record t := {
  id : Z; user_id : Z; tenant_key : string; country_code : string; channel_key : string;
  queue_key : string; enabled : bool }.
#[global] Instance eta : Settable t := fun r => {|
  id := id r; user_id := user_id r; tenant_key := tenant_key r; country_code := country_code r;
  channel_key := channel_key r; queue_key := queue_key r; enabled := enabled r |}.
End OperatorQueueScopeGrant.

Module WebchatHandoffRequest.
Record t := {
  id : Z; conversation_id : Z; ticket_id : option Z; source : string; trigger_type : string;
  status : string; reason_code : option string; reason_text : option string;
  recommended_agent_action : option string; trigger_message_id : option Z;
  ai_turn_id : option Z; requested_by_actor_type : string; requested_by_user_id : option Z;
  accepted_by_user_id : option Z; forced_by_user_id : option Z; assigned_agent_id : option Z;
  decision_note : option string; requested_at : Z; accepted_at : option Z;
  released_at : option Z; closed_at : option Z; expires_at : option Z; lock_version : Z;
  created_at : Z; updated_at : Z }.
#[global] Instance eta : Settable t := fun r => {|
  id := id r; conversation_id := conversation_id r; ticket_id := ticket_id r;
  source := source r; trigger_type := trigger_type r; status := status r;
  reason_code := reason_code r; reason_text := reason_text r;
  recommended_agent_action := recommended_agent_action r;
  trigger_message_id := trigger_message_id r; ai_turn_id := ai_turn_id r;
  requested_by_actor_type := requested_by_actor_type r;
  requested_by_user_id := requested_by_user_id r; accepted_by_user_id := accepted_by_user_id r;
  forced_by_user_id := forced_by_user_id r; assigned_agent_id := assigned_agent_id r;
  decision_note := decision_note r; requested_at := requested_at r;
  accepted_at := accepted_at r; released_at := released_at r; closed_at := closed_at r;
  expires_at := expires_at r; lock_version := lock_version r; created_at := created_at r;
  updated_at := updated_at r |}.
End WebchatHandoffRequest.

Module WebchatHandoffDecision.
Record t := {
  id : Z; request_id : Z; actor_id : Z; decision : string; reason_code : option string;
  note : option string; created_at : Z }.
#[global] Instance eta : Settable t := fun r => {|
  id := id r; request_id := request_id r; actor_id := actor_id r; decision := decision r;
  reason_code := reason_code r; note := note r; created_at := created_at r |}.
End WebchatHandoffDecision.

Module CaseScenarioAssignment.
Record t := {
  id : Z; ticket_id : Z; scenario_key : string; catalog_version : string;
  catalog_sha256 : string; scenario_snapshot_json : string; assignment_source : string;
  assignment_reason : option string; assigned_by : option Z; assigned_at : Z;
  superseded_at : option Z; superseded_by_id : option Z }.
#[global] Instance eta : Settable t := fun r => {|
  id := id r; ticket_id := ticket_id r; scenario_key := scenario_key r;
  catalog_version := catalog_version r; catalog_sha256 := catalog_sha256 r;
  scenario_snapshot_json := scenario_snapshot_json r;
  assignment_source := assignment_source r; assignment_reason := assignment_reason r;
  assigned_by := assigned_by r; assigned_at := assigned_at r; superseded_at := superseded_at r;
  superseded_by_id := superseded_by_id r |}.
End CaseScenarioAssignment.

Module HandoffRoutingPlan.
Record t := {
  id : Z; request_id : Z; ticket_id : Z; scenario_assignment_id : Z; scenario_key : string;
  catalog_sha256 : string; scenario_snapshot_sha256 : string; owner_queue_key : string;
  required_capabilities_json : json; risk_level : string;
  escalation_policy_key : option string; plan_schema : string; plan_digest : string;
  status : string; current_generation : Z; max_generations : Z; next_retry_at : option Z;
  assigned_agent_id : option Z; outcome_code : option string; exhausted_at : option Z;
  created_at : Z; updated_at : Z }.
#[global] Instance eta : Settable t := fun r => {|
  id := id r; request_id := request_id r; ticket_id := ticket_id r;
  scenario_assignment_id := scenario_assignment_id r; scenario_key := scenario_key r;
  catalog_sha256 := catalog_sha256 r; scenario_snapshot_sha256 := scenario_snapshot_sha256 r;
  owner_queue_key := owner_queue_key r;
  required_capabilities_json := required_capabilities_json r; risk_level := risk_level r;
  escalation_policy_key := escalation_policy_key r; plan_schema := plan_schema r;
  plan_digest := plan_digest r; status := status r; current_generation := current_generation r;
  max_generations := max_generations r; next_retry_at := next_retry_at r;
  assigned_agent_id := assigned_agent_id r; outcome_code := outcome_code r;
  exhausted_at := exhausted_at r; created_at := created_at r; updated_at := updated_at r |}.
End HandoffRoutingPlan.

Module HandoffRoutingCandidateAttempt.
Record t := {
  id : Z; plan_id : Z; request_id : Z; generation : Z; agent_id : Z; channel_kind : string;
  outcome : string; reason_code : option string; external_ref : option string; created_at : Z;
  updated_at : Z }.
#[global] Instance eta : Settable t := fun r => {|
  id := id r; plan_id := plan_id r; request_id := request_id r; generation := generation r;
  agent_id := agent_id r; channel_kind := channel_kind r; outcome := outcome r;
  reason_code := reason_code r; external_ref := external_ref r; created_at := created_at r;
  updated_at := updated_at r |}.
End HandoffRoutingCandidateAttempt.

Module WebchatVoiceSession.
Record t := {
  id : Z; public_id : string; conversation_id : Z; channel_account_id : option Z;
  handoff_request_id : option Z; status : string; ringing_at : option Z;
  accepted_at : option Z; wrap_up_expires_at : option Z; updated_at : Z }.
#[global] Instance eta : Settable t := fun r => {|
  id := id r; public_id := public_id r; conversation_id := conversation_id r;
  channel_account_id := channel_account_id r; handoff_request_id := handoff_request_id r;
  status := status r; ringing_at := ringing_at r; accepted_at := accepted_at r;
  wrap_up_expires_at := wrap_up_expires_at r; updated_at := updated_at r |}.
End WebchatVoiceSession.

Module VoiceRoutingOffer.
Record t := {
  id : Z; public_id : string; voice_session_id : Z; handoff_request_id : Z; agent_id : Z;
  sequence : Z; status : string; offered_at : Z; expires_at : Z; accepted_at : option Z;
  declined_at : option Z; expired_at : option Z; cancelled_at : option Z;
  decline_reason : option string; created_at : Z; updated_at : Z }.
#[global] Instance eta : Settable t := fun r => {|
  id := id r; public_id := public_id r; voice_session_id := voice_session_id r;
  handoff_request_id := handoff_request_id r; agent_id := agent_id r; sequence := sequence r;
  status := status r; offered_at := offered_at r; expires_at := expires_at r;
  accepted_at := accepted_at r; declined_at := declined_at r; expired_at := expired_at r;
  cancelled_at := cancelled_at r; decline_reason := decline_reason r;
  created_at := created_at r; updated_at := updated_at r |}.
End VoiceRoutingOffer.

Module WebchatVoiceParticipant.
Record t := {
  id : Z; voice_session_id : Z; participant_type : string; user_id : option Z;
  provider_identity : string; direction : string; status : string; started_at : option Z;
  created_at : Z; updated_at : Z }.
#[global] Instance eta : Settable t := fun r => {|
  id := id r; voice_session_id := voice_session_id r; participant_type := participant_type r;
  user_id := user_id r; provider_identity := provider_identity r; direction := direction r;
  status := status r; started_at := started_at r; created_at := created_at r;
  updated_at := updated_at r |}.
End WebchatVoiceParticipant.

Module VoiceChannelConfiguration.
Record t := {
  id : Z; channel_account_id : Z; offer_timeout_seconds : Z }.
#[global] Instance eta : Settable t := fun r => {|
  id := id r; channel_account_id := channel_account_id r;
  offer_timeout_seconds := offer_timeout_seconds r |}.
End VoiceChannelConfiguration.

Module OperatorTask.
Record t := {
  id : Z; tenant_id : option Z; source_type : string; source_id : option string;
  projection_schema : string; ticket_id : option Z; webchat_conversation_id : option Z;
  task_type : string; status : string; priority : Z; assignee_id : option Z;
  reason_code : option string; payload_json : option json; created_at : Z; updated_at : Z;
  resolved_at : option Z }.
#[global] Instance eta : Settable t := fun r => {|
  id := id r; tenant_id := tenant_id r; source_type := source_type r; source_id := source_id r;
  projection_schema := projection_schema r; ticket_id := ticket_id r;
  webchat_conversation_id := webchat_conversation_id r; task_type := task_type r;
  status := status r; priority := priority r; assignee_id := assignee_id r;
  reason_code := reason_code r; payload_json := payload_json r; created_at := created_at r;
  updated_at := updated_at r; resolved_at := resolved_at r |}.
End OperatorTask.

Module AdminAuditLog.
Record t := {
  actor_id : option Z; action : string; target_type : string; target_id : option Z;
  old_value_json : option json; new_value_json : option json; created_at : Z }.
#[global] Instance eta : Settable t := fun r => {|
  actor_id := actor_id r; action := action r; target_type := target_type r;
  target_id := target_id r; old_value_json := old_value_json r;
  new_value_json := new_value_json r; created_at := created_at r |}.
End AdminAuditLog.

(** ** The database

    [scope_country] is the country of the verified scope that the session carries
    ([current_verified_webchat_scope]): [None] without a scope.  [token_urlsafe n] is what
    the random source returns at reading [n]. *)
Module Desk.
Record t := {
  work : Work.t; agents : Table OperatorAgentState.t; grants : Table OperatorQueueScopeGrant.t;
  requests : Table WebchatHandoffRequest.t; decisions : Table WebchatHandoffDecision.t;
  scenarios : Table CaseScenarioAssignment.t; plans : Table HandoffRoutingPlan.t;
  attempts : Table HandoffRoutingCandidateAttempt.t; sessions : Table WebchatVoiceSession.t;
  offers : Table VoiceRoutingOffer.t; legs : Table WebchatVoiceParticipant.t;
  voice_configs : Table VoiceChannelConfiguration.t; tasks : Table OperatorTask.t;
  audits : list AdminAuditLog.t; scope_country : option (option string);
  token_urlsafe : nat → string }.
#[global] Instance eta : Settable t := fun r => {|
  work := work r; agents := agents r; grants := grants r; requests := requests r;
  decisions := decisions r; scenarios := scenarios r; plans := plans r; attempts := attempts r;
  sessions := sessions r; offers := offers r; legs := legs r; voice_configs := voice_configs r;
  tasks := tasks r; audits := audits r; scope_country := scope_country r;
  token_urlsafe := token_urlsafe r |}.
End Desk.

(** ** Access to rows

    The table that a class of rows is kept in; [row_at] is [db.get], [the_row] reads the
    attributes of an object, [set_row] assigns them, [add_row] is [db.add] with the flush
    after it. *)

Class Stored (R : Type) := {
  rows_of : Desk.t → Table R;
  on_rows : (Table R → Table R) → Desk.t → Desk.t;
  rows_of_on_rows f s : rows_of (on_rows f s) = f (rows_of s) }.

Ltac stored proj := refine {| rows_of := proj; on_rows := fun f s => s <| proj ::= f |> |}; done.

#[export] Instance stored_agent : Stored OperatorAgentState.t.
Proof. stored Desk.agents. Defined.
#[export] Instance stored_grant : Stored OperatorQueueScopeGrant.t.
Proof. stored Desk.grants. Defined.
#[export] Instance stored_request : Stored WebchatHandoffRequest.t.
Proof. stored Desk.requests. Defined.
#[export] Instance stored_decision : Stored WebchatHandoffDecision.t.
Proof. stored Desk.decisions. Defined.
#[export] Instance stored_scenario : Stored CaseScenarioAssignment.t.
Proof. stored Desk.scenarios. Defined.
#[export] Instance stored_plan : Stored HandoffRoutingPlan.t.
Proof. stored Desk.plans. Defined.
#[export] Instance stored_attempt : Stored HandoffRoutingCandidateAttempt.t.
Proof. stored Desk.attempts. Defined.
#[export] Instance stored_session : Stored WebchatVoiceSession.t.
Proof. stored Desk.sessions. Defined.
#[export] Instance stored_offer : Stored VoiceRoutingOffer.t.
Proof. stored Desk.offers. Defined.
#[export] Instance stored_leg : Stored WebchatVoiceParticipant.t.
Proof. stored Desk.legs. Defined.
#[export] Instance stored_voice_config : Stored VoiceChannelConfiguration.t.
Proof. stored Desk.voice_configs. Defined.
#[export] Instance stored_task : Stored OperatorTask.t.
Proof. stored Desk.tasks. Defined.
#[export] Instance stored_conversation : Stored WebchatConversation.t.
Proof.
  refine {| rows_of := fun s => Work.conversations (Desk.work s);
            on_rows := fun f s => s <| Desk.work ::= fun w => w <| Work.conversations ::= f |> |> |};
    done.
Defined.
#[export] Instance stored_control : Stored ConversationControl.t.
Proof.
  refine {| rows_of := fun s => Work.controls (Desk.work s);
            on_rows := fun f s => s <| Desk.work ::= fun w => w <| Work.controls ::= f |> |> |}; done.
Defined.
#[export] Instance stored_ticket : Stored Ticket.t.
Proof.
  refine {| rows_of := fun s => Db.tickets (Work.core (Desk.work s));
            on_rows := fun f s => s <| Desk.work ::= fun w => w <| Work.core ::= fun d =>
              d <| Db.tickets ::= f |> |> |> |}; done.
Defined.

Section Rows.
Context {R : Type} `{Stored R}.

Definition row_at (s : Desk.t) (i : Z) : option R := table_get (rows_of s) i.
Definition the_row (i : Z) : M Desk.t R := fun s =>
  match row_at s i with
  | Some r => (Ok r, s)
  | None => (Err (RuntimeError "ObjectDeletedError"), s)
  end.
Definition upd_row (i : Z) (f : R → R) (s : Desk.t) : Desk.t :=
  match row_at s i with Some r => on_rows (table_put i (f r)) s | None => s end.
Definition set_row (i : Z) (f : R → R) : M Desk.t unit := modify (upd_row i f).
Definition add_row (mk : Z → R) : M Desk.t Z := fun s =>
  (Ok (tnext (rows_of s)), on_rows (fun T => table_add T mk) s).
(** [query.filter(p).all()] and [.first()], in the order of the primary key *)
Definition rows_where (p : R → bool) (s : Desk.t) : list R := select p (rows_of s).
Definition first_where (p : R → bool) (s : Desk.t) : option R := select_first p (rows_of s).
(** [query.filter(p).order_by(id.desc()).first()] *)
Definition last_where (p : R → bool) (s : Desk.t) : option R := list.last (rows_where p s).
Definition count_where (p : R → bool) (s : Desk.t) : Z := Z.of_nat (length (rows_where p s)).
(** [query.filter(p).update(...)] *)
Definition update_where (p : R → bool) (f : R → R) : M Desk.t unit :=
  modify (on_rows (fun T => {| trows := (fun r => if p r then f r else r) <$> trows T;
                               tnext := tnext T |})).
End Rows.

(** ** Running in the parts of the database *)

Definition on_work {A} (m : M Work.t A) : M Desk.t A := fun s =>
  let (r, w) := m (Desk.work s) in (r, s <| Desk.work := w |>).
Definition utc_now : M Desk.t Z := on_work now.
Definition core (s : Desk.t) : Db.t := Work.core (Desk.work s).
Definition directory (s : Desk.t) : Directory.t := Db.dir (core s).
Definition user_at (s : Desk.t) (i : Z) : option User.t := Directory.users (directory s) !! i.
(** [secrets.token_urlsafe(18)]: a reading of the random source *)
Definition token_urlsafe : M Desk.t string := fun s =>
  (Ok (Desk.token_urlsafe s (Db.ticks (core s))),
   s <| Desk.work ::= fun w => w <| Work.core ::= fun d => d <| Db.ticks ::= S |> |> |>).

(** ** Texts of instants *)

Definition us_of_day (t : Z) : Z := t mod hours 24.
(** [instant.isoformat()] of an instant in UTC *)
Definition instant_isoformat (t : Z) : string :=
  let secs := us_of_day t / us_per_second in
  let us := us_of_day t mod us_per_second in
  isoformat (t / hours 24) +:+ "T" +:+ padded 2 (secs / 3600) +:+ ":" +:+
  padded 2 (secs / 60 mod 60) +:+ ":" +:+ padded 2 (secs mod 60) +:+
  (if us =? 0 then EmptyString else "." +:+ padded 6 us) +:+ "+00:00".

Example instant_text : instant_isoformat (seconds 1709209845 + 1500) =
  "2024-02-29T12:30:45.001500+00:00".
Proof. reflexivity. Qed.

Definition jtime (t : Z) : json := JStr (instant_isoformat t).

(** ** Logs *)

(** [_event]: an event of the conversation, flushed *)
Definition _event (conversation_id : Z) (event_type : string) (payload : list (string * json))
    : M Desk.t unit :=
  c ← the_row (R := WebchatConversation.t) conversation_id;
  _ ← utc_now;
  on_work (modify (fun w => w <| Work.wevents ::= fun l => l ++
    [{| WebchatEvent.conversation_id := conversation_id;
        WebchatEvent.ticket_id := WebchatConversation.ticket_id c;
        WebchatEvent.event_type := event_type; WebchatEvent.payload_json := JObj payload |}] |>)).

Definition log_admin_audit (actor_id : option Z) (action target_type : string)
    (target_id : option Z) (old_value new_value : option json) : M Desk.t unit :=
  now ← utc_now;
  modify (fun s => s <| Desk.audits ::= fun l => l ++
    [{| AdminAuditLog.actor_id := actor_id; AdminAuditLog.action := action;
        AdminAuditLog.target_type := target_type; AdminAuditLog.target_id := target_id;
        AdminAuditLog.old_value_json := old_value; AdminAuditLog.new_value_json := new_value;
        AdminAuditLog.created_at := now |}] |>).
