(* ===== verification/Plans.v ===== *)
(** * Routing plans of handoffs

    [services/handoff_routing_authority.py]: the contract that the scenario of a ticket
    puts on the routing of its handoff, the bounded generations of a plan, and which agents
    may be tried.

    [sha256_hex] and [dumps] give the digest of a plan, [loads] is [json.loads] of a stored
    snapshot ([None] when the text is no JSON).  Items of the capability list are texts; of
    other items the text is modelled for numbers and booleans ([py_str]). *)

From S2P Require Import Prelude Calendar Enums Models Permissions Work AiTurns Desk.

Definition ROUTING_PLAN_SCHEMA : string := "nexus.handoff-routing-plan.v1".
Definition HEARTBEAT_TTL_SECONDS : Z := 90.
Definition DEFAULT_MAX_GENERATIONS : Z := 3.
Definition MAX_BACKOFF_SECONDS : Z := 300.

(** The further fields of the detail are not kept. *)
Definition _conflict (code : string) : exc := HTTPExceptionCode 409 code EmptyString.

(** [(text or "")[:n] or None] *)
Definition clipped (n : nat) (text : option string) : option string :=
  let t := str_take n (str_or text EmptyString) in if nonempty t then Some t else None.

Definition _normalized_capabilities (raw : json) : result (list string) :=
  match raw with
  | JArr l =>
      Ok (sort_by String.leb (remove_dups
        ((fun i => py_lower (py_strip (py_str i))) <$>
         filter (fun i => nonempty (py_strip (py_str i)) = true) l)))
  | _ => Err (_conflict "handoff_routing_capabilities_invalid")
  end.

(** [str(d.get(key) or "").strip()] *)
Definition stripped (key : string) (d : json) : string :=
  py_strip (py_str (json_or (json_get key d) (JStr EmptyString))).

Definition RISK_LEVELS : list string := ["low"; "medium"; "high"; "critical"].

Definition _max_generations (risk_level : string) : Z :=
  if bool_decide (risk_level ∈ ["high"; "critical"]) then 3 else DEFAULT_MAX_GENERATIONS.

Definition routing_plan_for_request (s : Desk.t) (request_id : Z) : option HandoffRoutingPlan.t :=
  first_where (fun p => HandoffRoutingPlan.request_id p =? request_id) s.

(** [current_case_scenario_assignment] of [case_scenario_service.py] *)
Definition current_case_scenario_assignment (s : Desk.t) (ticket_id : Z)
    : option CaseScenarioAssignment.t :=
  last_where (fun a => (CaseScenarioAssignment.ticket_id a =? ticket_id) &&
                       negb (not_null (CaseScenarioAssignment.superseded_at a))) s.

Definition jstr (o : option string) : json := json_of_option JStr o.
Definition jstrs (l : list string) : json := JArr (JStr <$> l).

Section Plans.
Context (sha256_hex : string → string) (dumps : json → string) (loads : string → option json).

Definition _plan_contract (a : CaseScenarioAssignment.t) : result (json * list string) :=
  match loads (CaseScenarioAssignment.scenario_snapshot_json a) with
  | Some (JObj snapshot) =>
      match assoc_get "scenario" snapshot with
      | None => Err (_conflict "handoff_routing_scenario_snapshot_invalid")
      | Some scenario =>
          if negb (bool_decide (json_get "schema" (JObj snapshot) =
                                JStr "nexus.case-scenario-assignment.v1"))
          then Err (_conflict "handoff_routing_scenario_snapshot_schema_invalid")
          else match scenario with
          | JObj _ =>
              if negb (bool_decide (json_get "scenario_key" scenario =
                                    JStr (CaseScenarioAssignment.scenario_key a)))
              then Err (_conflict "handoff_routing_scenario_identity_mismatch")
              else
                let queue_key := py_lower (stripped "owner_queue_key" scenario) in
                let risk_level := py_lower (stripped "risk_level" scenario) in
                if negb (nonempty queue_key) || negb (bool_decide (risk_level ∈ RISK_LEVELS))
                then Err (_conflict "handoff_routing_scenario_contract_invalid")
                else required ← _normalized_capabilities (json_get "required_capabilities" scenario);
                     Ok (scenario, required)
          | _ => Err (AttributeError "get")
          end
      end
  | _ => Err (_conflict "handoff_routing_scenario_snapshot_invalid")
  end.

Definition _plan_digest (payload : json) : string := sha256_hex (dumps payload).

(** The dict [immutable] *)
Definition immutable_terms (request_id ticket_id : Z) (a : CaseScenarioAssignment.t)
    (scenario : json) (required : list string) : json :=
  let risk_level := py_lower (py_strip (py_str (json_get "risk_level" scenario))) in
  let escalation := stripped "escalation_policy_key" scenario in
  JObj [("schema", JStr ROUTING_PLAN_SCHEMA);
        ("request_id", JNum request_id);
        ("ticket_id", JNum ticket_id);
        ("scenario_assignment_id", JNum (CaseScenarioAssignment.id a));
        ("scenario_key", JStr (CaseScenarioAssignment.scenario_key a));
        ("catalog_sha256", JStr (CaseScenarioAssignment.catalog_sha256 a));
        ("scenario_snapshot_sha256",
          JStr (sha256_hex (CaseScenarioAssignment.scenario_snapshot_json a)));
        ("owner_queue_key",
          JStr (py_lower (py_strip (py_str (json_get "owner_queue_key" scenario)))));
        ("required_capabilities", jstrs required);
        ("risk_level", JStr risk_level);
        ("escalation_policy_key", if nonempty escalation then JStr escalation else JNull);
        ("max_generations", JNum (_max_generations risk_level))].

(** The dict [observed] *)
Definition observed_terms (p : HandoffRoutingPlan.t) : result json :=
  required ← _normalized_capabilities (HandoffRoutingPlan.required_capabilities_json p);
  Ok (JObj [("schema", JStr (HandoffRoutingPlan.plan_schema p));
        ("request_id", JNum (HandoffRoutingPlan.request_id p));
        ("ticket_id", JNum (HandoffRoutingPlan.ticket_id p));
        ("scenario_assignment_id", JNum (HandoffRoutingPlan.scenario_assignment_id p));
        ("scenario_key", JStr (HandoffRoutingPlan.scenario_key p));
        ("catalog_sha256", JStr (HandoffRoutingPlan.catalog_sha256 p));
        ("scenario_snapshot_sha256", JStr (HandoffRoutingPlan.scenario_snapshot_sha256 p));
        ("owner_queue_key", JStr (HandoffRoutingPlan.owner_queue_key p));
        ("required_capabilities", jstrs required);
        ("risk_level", JStr (HandoffRoutingPlan.risk_level p));
        ("escalation_policy_key", jstr (HandoffRoutingPlan.escalation_policy_key p));
        ("max_generations", JNum (HandoffRoutingPlan.max_generations p))]).

(** The row that [ensure_handoff_routing_plan] inserts *)
Definition new_plan (request_id ticket_id : Z) (a : CaseScenarioAssignment.t) (scenario : json)
    (required : list string) (digest : string) (created_at updated_at : Z) (i : Z)
    : HandoffRoutingPlan.t :=
  let risk_level := py_lower (py_strip (py_str (json_get "risk_level" scenario))) in
  let escalation := stripped "escalation_policy_key" scenario in
  {| HandoffRoutingPlan.id := i; HandoffRoutingPlan.request_id := request_id;
     HandoffRoutingPlan.ticket_id := ticket_id;
     HandoffRoutingPlan.scenario_assignment_id := CaseScenarioAssignment.id a;
     HandoffRoutingPlan.scenario_key := CaseScenarioAssignment.scenario_key a;
     HandoffRoutingPlan.catalog_sha256 := CaseScenarioAssignment.catalog_sha256 a;
     HandoffRoutingPlan.scenario_snapshot_sha256 :=
       sha256_hex (CaseScenarioAssignment.scenario_snapshot_json a);
     HandoffRoutingPlan.owner_queue_key :=
       py_lower (py_strip (py_str (json_get "owner_queue_key" scenario)));
     HandoffRoutingPlan.required_capabilities_json := jstrs required;
     HandoffRoutingPlan.risk_level := risk_level;
     HandoffRoutingPlan.escalation_policy_key :=
       (if nonempty escalation then Some escalation else None);
     HandoffRoutingPlan.plan_schema := ROUTING_PLAN_SCHEMA;
     HandoffRoutingPlan.plan_digest := digest; HandoffRoutingPlan.status := "active";
     HandoffRoutingPlan.current_generation := 1;
     HandoffRoutingPlan.max_generations := _max_generations risk_level;
     HandoffRoutingPlan.next_retry_at := None; HandoffRoutingPlan.assigned_agent_id := None;
     HandoffRoutingPlan.outcome_code := None; HandoffRoutingPlan.exhausted_at := None;
     HandoffRoutingPlan.created_at := created_at; HandoffRoutingPlan.updated_at := updated_at |}.

(** The id of the plan; a handoff without a ticket has none *)
Definition ensure_handoff_routing_plan (request_id : Z) : M Desk.t (option Z) :=
  request_row ← the_row (R := WebchatHandoffRequest.t) request_id;
  match WebchatHandoffRequest.ticket_id request_row with
  | None => mret None
  | Some ticket_id =>
      s ← get;
      match current_case_scenario_assignment s ticket_id with
      | None => raise (_conflict "handoff_scenario_assignment_required")
      | Some a =>
          contract ← lift (_plan_contract a);
          let scenario : json := fst contract in
          let required : list string := snd contract in
          let immutable := immutable_terms request_id ticket_id a scenario required in
          let digest := _plan_digest immutable in
          match routing_plan_for_request s request_id with
          | Some existing =>
              observed ← lift (observed_terms existing);
              require (bool_decide (HandoffRoutingPlan.plan_digest existing = digest) &&
                       bool_decide (observed = immutable))
                (_conflict "handoff_routing_plan_conflict");;
              mret (Some (HandoffRoutingPlan.id existing))
          | None =>
              created_at ← utc_now;
              updated_at ← utc_now;
              i ← add_row (new_plan request_id ticket_id a scenario required digest
                             created_at updated_at);
              mret (Some i)
          end
      end
  end.
End Plans.

(** ** Candidates *)

(** The heartbeat of an agent at the instant [now] *)
Definition fresh_at (now : Z) (state : OperatorAgentState.t) : bool :=
  match OperatorAgentState.last_heartbeat_at state with
  | Some heartbeat => now - seconds HEARTBEAT_TTL_SECONDS <=? heartbeat
  | None => false
  end.
Definition _heartbeat_fresh (state : OperatorAgentState.t) : M Desk.t bool :=
  now ← utc_now; mret (fresh_at now state).

Definition _attempted_agent_ids (s : Desk.t) (p : HandoffRoutingPlan.t) (channel_kind : string)
    : list Z :=
  HandoffRoutingCandidateAttempt.agent_id <$> rows_where (fun a =>
    (HandoffRoutingCandidateAttempt.plan_id a =? HandoffRoutingPlan.id p) &&
    (HandoffRoutingCandidateAttempt.generation a =? HandoffRoutingPlan.current_generation p) &&
    bool_decide (HandoffRoutingCandidateAttempt.channel_kind a = channel_kind)) s.

Definition activate_due_generation (plan : Z) : M Desk.t bool :=
  p ← the_row (R := HandoffRoutingPlan.t) plan;
  if negb (bool_decide (HandoffRoutingPlan.status p = "retry_scheduled"))
  then mret (bool_decide (HandoffRoutingPlan.status p = "active"))
  else
    now ← utc_now;
    match HandoffRoutingPlan.next_retry_at p with
    | None => mret false
    | Some due =>
        if now <? due then mret false
        else if HandoffRoutingPlan.max_generations p <=? HandoffRoutingPlan.current_generation p then
          exhausted_at ← utc_now;
          updated_at ← utc_now;
          set_row plan (fun p => p <| HandoffRoutingPlan.status := "exhausted" |>
            <| HandoffRoutingPlan.outcome_code := Some "candidate_exhausted" |>
            <| HandoffRoutingPlan.exhausted_at := Some exhausted_at |>
            <| HandoffRoutingPlan.next_retry_at := None |>
            <| HandoffRoutingPlan.updated_at := updated_at |>);;
          mret false
        else
          updated_at ← utc_now;
          set_row plan (fun p => p <| HandoffRoutingPlan.current_generation ::= Z.succ |>
            <| HandoffRoutingPlan.status := "active" |> <| HandoffRoutingPlan.outcome_code := None |>
            <| HandoffRoutingPlan.next_retry_at := None |>
            <| HandoffRoutingPlan.updated_at := updated_at |>);;
          mret true
    end.

Definition required_capabilities (p : HandoffRoutingPlan.t) : result (gset string) :=
  required ← _normalized_capabilities (HandoffRoutingPlan.required_capabilities_json p);
  Ok (list_to_set required).

(** An enabled grant of the user for the scope of the conversation, for one queue or any *)
Definition granted (s : Desk.t) (user_id : Z) (c : ConversationControl.t)
    (queue_key : option string) : bool :=
  not_null (first_where (fun g =>
    (OperatorQueueScopeGrant.user_id g =? user_id) &&
    bool_decide (OperatorQueueScopeGrant.tenant_key g = ConversationControl.tenant_key c) &&
    bool_decide (Some (OperatorQueueScopeGrant.country_code g) = ConversationControl.country_code c) &&
    bool_decide (OperatorQueueScopeGrant.channel_key g = ConversationControl.channel_key c) &&
    match queue_key with
    | Some q => bool_decide (OperatorQueueScopeGrant.queue_key g = q)
    | None => true
    end && OperatorQueueScopeGrant.enabled g) s).

Definition candidate_is_authorized (plan : option Z) (c : ConversationControl.t) (user : User.t)
    (channel_kind : string) (exclude_attempted : bool) : M Desk.t bool :=
  if negb (User.is_active user) || negb (nonempty (str_or (ConversationControl.country_code c) EmptyString))
  then mret false
  else match plan with
  | None => gets (fun s => granted s (User.id user) c None)
  | Some plan =>
      due ← activate_due_generation plan;
      if negb (due : bool) then mret false
      else
        p ← the_row plan;
        required ← lift (required_capabilities p);
        gets (fun s =>
          bool_decide (required ⊆ resolve_capabilities user (Some (core s))) &&
          negb (exclude_attempted &&
                bool_decide (User.id user ∈ _attempted_agent_ids s p channel_kind)) &&
          granted s (User.id user) c (Some (HandoffRoutingPlan.owner_queue_key p)))
  end.

(** Active users with a state that satisfies [p], in the order of the candidates *)
Definition on_duty (p : OperatorAgentState.t → bool) (s : Desk.t)
    : list (User.t * OperatorAgentState.t) :=
  sort_by (fun a b : User.t * OperatorAgentState.t =>
    if OperatorAgentState.updated_at (snd a) =? OperatorAgentState.updated_at (snd b)
    then User.id (fst a) <=? User.id (fst b)
    else OperatorAgentState.updated_at (snd a) <? OperatorAgentState.updated_at (snd b))
    (omap (fun st => u ← user_at s (OperatorAgentState.user_id st);
                     if User.is_active u then Some (u, st) else None)
       (rows_where (fun st => bool_decide (OperatorAgentState.status st = "online") && p st) s)).

(** [[x for x in l if f(x)]] with a test that may change the session *)
Fixpoint filterM {A} (f : A → M Desk.t bool) (l : list A) : M Desk.t (list A) :=
  match l with
  | [] => mret []
  | a :: l => keep ← f a; rest ← filterM f l; mret (if (keep : bool) then a :: rest else rest)
  end.

Definition eligible_agents (plan : option Z) (c : ConversationControl.t) (channel_kind : string)
    (require_voice : bool) : M Desk.t (list (User.t * OperatorAgentState.t)) :=
  s ← get;
  filterM (fun x =>
    if require_voice && negb (OperatorAgentState.voice_enabled (snd x)) then mret false
    else
      fresh ← _heartbeat_fresh (snd x);
      if negb (fresh : bool) then mret false
      else candidate_is_authorized plan c (fst x) channel_kind true)
    (on_duty (fun _ => true) s).

(** ** Attempts and outcomes *)

Definition record_candidate_attempt (plan : option Z) (request_id agent_id : Z)
    (channel_kind outcome : string) (reason_code external_ref : option string) : M Desk.t unit :=
  match plan with
  | None => mret tt
  | Some plan =>
      p ← the_row (R := HandoffRoutingPlan.t) plan;
      s ← get;
      match first_where (fun a =>
        (HandoffRoutingCandidateAttempt.plan_id a =? HandoffRoutingPlan.id p) &&
        (HandoffRoutingCandidateAttempt.generation a =? HandoffRoutingPlan.current_generation p) &&
        (HandoffRoutingCandidateAttempt.agent_id a =? agent_id) &&
        bool_decide (HandoffRoutingCandidateAttempt.channel_kind a = channel_kind)) s with
      | None =>
          created_at ← utc_now;
          updated_at ← utc_now;
          _ ← add_row (fun i =>
            {| HandoffRoutingCandidateAttempt.id := i;
               HandoffRoutingCandidateAttempt.plan_id := HandoffRoutingPlan.id p;
               HandoffRoutingCandidateAttempt.request_id := request_id;
               HandoffRoutingCandidateAttempt.generation := HandoffRoutingPlan.current_generation p;
               HandoffRoutingCandidateAttempt.agent_id := agent_id;
               HandoffRoutingCandidateAttempt.channel_kind := channel_kind;
               HandoffRoutingCandidateAttempt.outcome := outcome;
               HandoffRoutingCandidateAttempt.reason_code := clipped 160 reason_code;
               HandoffRoutingCandidateAttempt.external_ref := clipped 160 external_ref;
               HandoffRoutingCandidateAttempt.created_at := created_at;
               HandoffRoutingCandidateAttempt.updated_at := updated_at |});
          mret tt
      | Some row =>
          updated_at ← utc_now;
          set_row (HandoffRoutingCandidateAttempt.id row) (fun row =>
            row <| HandoffRoutingCandidateAttempt.outcome := outcome |>
                <| HandoffRoutingCandidateAttempt.reason_code := clipped 160 reason_code |>
                <| HandoffRoutingCandidateAttempt.external_ref ::= fun old =>
                     clipped 160 (Some (str_or external_ref (str_or old EmptyString))) |>
                <| HandoffRoutingCandidateAttempt.updated_at := updated_at |>)
      end
  end.

Definition update_attempt_by_external_ref (external_ref outcome : string)
    (reason_code : option string) : M Desk.t unit :=
  s ← get;
  match last_where (fun a =>
    bool_decide (HandoffRoutingCandidateAttempt.external_ref a = Some external_ref)) s with
  | None => mret tt
  | Some row =>
      updated_at ← utc_now;
      set_row (HandoffRoutingCandidateAttempt.id row) (fun row =>
        row <| HandoffRoutingCandidateAttempt.outcome := outcome |>
            <| HandoffRoutingCandidateAttempt.reason_code := clipped 160 reason_code |>
            <| HandoffRoutingCandidateAttempt.updated_at := updated_at |>)
  end.

(** [min(30 * 2 ** max(0, generation - 1), MAX_BACKOFF_SECONDS)] *)
Definition backoff_seconds (generation : Z) : Z :=
  Z.min (30 * 2 ^ Z.max 0 (generation - 1)) MAX_BACKOFF_SECONDS.

Definition schedule_retry_or_exhaust (plan : option Z) (reason_code : string) : M Desk.t string :=
  match plan with
  | None => mret "legacy_unrouted"
  | Some plan =>
      p ← the_row (R := HandoffRoutingPlan.t) plan;
      if bool_decide (HandoffRoutingPlan.status p ∈ ["assigned"; "closed"; "exhausted"])
      then mret (HandoffRoutingPlan.status p)
      else if HandoffRoutingPlan.max_generations p <=? HandoffRoutingPlan.current_generation p then
        exhausted_at ← utc_now;
        updated_at ← utc_now;
        set_row plan (fun p => p <| HandoffRoutingPlan.status := "exhausted" |>
          <| HandoffRoutingPlan.outcome_code := Some "candidate_exhausted" |>
          <| HandoffRoutingPlan.exhausted_at := Some exhausted_at |>
          <| HandoffRoutingPlan.next_retry_at := None |>
          <| HandoffRoutingPlan.updated_at := updated_at |>);;
        mret "exhausted"
      else
        now ← utc_now;
        updated_at ← utc_now;
        set_row plan (fun p => p <| HandoffRoutingPlan.status := "retry_scheduled" |>
          <| HandoffRoutingPlan.outcome_code :=
               Some (str_take 160 (if nonempty reason_code then reason_code
                                   else "no_eligible_candidate")) |>
          <| HandoffRoutingPlan.next_retry_at :=
               Some (now + seconds (backoff_seconds (HandoffRoutingPlan.current_generation p))) |>
          <| HandoffRoutingPlan.updated_at := updated_at |>);;
        mret "retry_scheduled"
  end.

Definition mark_plan_assigned (plan : option Z) (agent_id : Z) : M Desk.t unit :=
  match plan with
  | None => mret tt
  | Some plan =>
      updated_at ← utc_now;
      set_row plan (fun p => p <| HandoffRoutingPlan.status := "assigned" |>
        <| HandoffRoutingPlan.assigned_agent_id := Some agent_id |>
        <| HandoffRoutingPlan.outcome_code := Some "assigned" |>
        <| HandoffRoutingPlan.next_retry_at := None |>
        <| HandoffRoutingPlan.updated_at := updated_at |>)
  end.

Definition close_routing_plan (request_id : Z) (outcome_code : string) : M Desk.t unit :=
  s ← get;
  match routing_plan_for_request s request_id with
  | None => mret tt
  | Some p =>
      updated_at ← utc_now;
      set_row (HandoffRoutingPlan.id p) (fun p => p <| HandoffRoutingPlan.status := "closed" |>
        <| HandoffRoutingPlan.outcome_code :=
             Some (str_take 160 (if nonempty outcome_code then outcome_code else "closed")) |>
        <| HandoffRoutingPlan.next_retry_at := None |>
        <| HandoffRoutingPlan.updated_at := updated_at |>)
  end.

Definition routing_projection (s : Desk.t) (request_id : Z) : result json :=
  match routing_plan_for_request s request_id with
  | None => Ok JNull
  | Some p =>
      required ← _normalized_capabilities (HandoffRoutingPlan.required_capabilities_json p);
      Ok (JObj [("plan_id", JNum (HandoffRoutingPlan.id p));
        ("schema", JStr (HandoffRoutingPlan.plan_schema p));
        ("plan_digest", JStr (HandoffRoutingPlan.plan_digest p));
        ("scenario_assignment_id", JNum (HandoffRoutingPlan.scenario_assignment_id p));
        ("scenario_key", JStr (HandoffRoutingPlan.scenario_key p));
        ("owner_queue_key", JStr (HandoffRoutingPlan.owner_queue_key p));
        ("required_capabilities", jstrs required);
        ("risk_level", JStr (HandoffRoutingPlan.risk_level p));
        ("escalation_policy_key", jstr (HandoffRoutingPlan.escalation_policy_key p));
        ("status", JStr (HandoffRoutingPlan.status p));
        ("current_generation", JNum (HandoffRoutingPlan.current_generation p));
        ("max_generations", JNum (HandoffRoutingPlan.max_generations p));
        ("next_retry_at", json_of_option jtime (HandoffRoutingPlan.next_retry_at p));
        ("assigned_agent_id", jid (HandoffRoutingPlan.assigned_agent_id p));
        ("outcome_code", jstr (HandoffRoutingPlan.outcome_code p));
        ("exhausted_at", json_of_option jtime (HandoffRoutingPlan.exhausted_at p))])
  end.
