(* ===== verification/Tasks.v ===== *)
(** * Operator tasks

    The creation of a task in [services/operator_queue.py] and the listener of
    [operator_models.py] that derives the identity of a handoff task from its handoff.

    [sha256_hex] is the hex digest of a text.  The text of a container or a float inside a
    payload is not modelled ([py_str]), nor are keys merged that agree in their first 80
    characters. *)

From S2P Require Import Prelude Calendar Enums Models Tenancy Work JobScope AiTurns Desk Plans.

Definition TERMINAL_STATUSES : list string :=
  ["resolved"; "dropped"; "replayed"; "replay_failed"; "cancelled"].
Definition active_task (t : OperatorTask.t) : bool :=
  negb (bool_decide (OperatorTask.status t ∈ TERMINAL_STATUSES)).

(** ** The payload *)

Definition SENSITIVE_KEYS : list string :=
  ["session_key"; "sessionkey"; "visitor_email"; "visitor_phone"; "recipient";
   "preferred_reply_contact"; "token"; "visitor_token"; "cookie"; "authorization"; "api_key";
   "apikey"; "password"; "secret"; "prompt"; "message"; "body"; "content"].

(** [sub in text] *)
Definition contains (sub text : string) : bool := not_null (String.index 0 sub text).

Definition sensitive_key (key : string) : bool :=
  bool_decide (key ∈ SENSITIVE_KEYS) || contains "token" key || contains "secret" key ||
  contains "password" key.

(** What a caller of [create_operator_task] says of the task *)
Module TaskSource.
Record t := {
  source_type : string; task_type : string; tenant_id : option Z; reason_code : option string;
  source_id : option string; projection_schema : string; ticket_id : option Z;
  webchat_conversation_id : option Z; priority : Z; payload : option json }.
End TaskSource.

Section Tasks.
Context (sha256_hex : string → string).

Definition sha256_prefix (raw : string) : json := JStr (str_take 16 (sha256_hex raw)).

Definition _hash_preview (value : json) : json :=
  let raw := match value with JNull => EmptyString | v => py_str v end in
  JObj [("redacted", JBool true); ("length", JNum (str_len raw));
        ("sha256_prefix", sha256_prefix raw)].

Definition _safe_error_summary (value : json) : json :=
  if bool_decide (value = JNull) || bool_decide (value = JStr EmptyString)
  then JObj [("redacted", JBool true); ("empty", JBool true)]
  else let raw := py_str value in
       JObj [("redacted", JBool true); ("type", JStr "error_summary");
             ("length", JNum (str_len raw)); ("sha256_prefix", sha256_prefix raw)].

Fixpoint sanitize (value : json) (key : string) {struct value} : json :=
  let key_l := py_lower key in
  if bool_decide (key_l = "last_error") then _safe_error_summary value
  else if sensitive_key key_l then _hash_preview value
  else match value with
  | JObj fields =>
      JObj ((fix items (n : nat) (l : list (string * json)) : list (string * json) :=
               match n, l with
               | S n, (k, v) :: l => (str_take 80 k, sanitize v k) :: items n l
               | _, _ => []
               end) 40%nat fields)
  | JArr l =>
      JArr ((fix items (n : nat) (l : list json) : list json :=
               match n, l with
               | S n, v :: l => sanitize v key :: items n l
               | _, _ => []
               end) 20%nat l)
  | JStr s =>
      if 240 <? str_len s
      then JObj [("truncated", JBool true); ("length", JNum (str_len s));
                 ("sha256_prefix", sha256_prefix s)]
      else JStr s
  | v => v
  end.

Definition sanitize_operator_payload (payload : json) : json :=
  if truthy payload
  then match sanitize payload EmptyString with JObj l => JObj l | _ => JObj [] end
  else JObj [].

Definition _json_payload (payload : json) : option json :=
  let safe := sanitize_operator_payload payload in if truthy safe then Some safe else None.

(** ** The tenant of a task *)

Section Tenant.
Context (s : Desk.t).

Definition _shadow_enabled : bool := mode_is (directory s) "shadow".

Definition active_tenant (i : Z) : bool :=
  match Directory.tenants (directory s) !! i with Some t => Tenant.is_active t | None => false end.

Definition _tenant_id_for_conversation (c : WebchatConversation.t) : result (option Z) :=
  let tenant_key := py_lower (py_strip (WebchatConversation.tenant_key c)) in
  let missing := OperatorQueueError 409 "operator_task_conversation_tenant_missing" in
  if negb (nonempty tenant_key) || bool_decide (tenant_key = "default")
  then if _shadow_enabled then Ok None else Err missing
  else match _tenant_for_key (Desk.work s) tenant_key with
       | Some i => Ok (Some i)
       | None => Err missing
       end.

Definition _tenant_id_for_ticket (t : Ticket.t) : result (option Z) :=
  match Ticket.tenant_id t with
  | None => if _shadow_enabled then Ok None
            else Err (OperatorQueueError 409 "operator_task_ticket_tenant_missing")
  | Some i => if active_tenant i then Ok (Some i)
              else Err (OperatorQueueError 409 "operator_task_tenant_unavailable")
  end.

(** The tenants that one source of the task names *)
Definition explicit_tenant (tenant_id : option Z) : result (list (option Z)) :=
  match tenant_id with
  | None => Ok []
  | Some i => if active_tenant i then Ok [Some i]
              else Err (OperatorQueueError 409 "operator_task_tenant_unavailable")
  end.
Definition source_tenant {R} (tenant_id : option Z) (code : string)
    (tenant_of : R → result (option Z)) (source : option (option R)) : result (list (option Z)) :=
  match source with
  | None => Ok []
  | Some None => if _shadow_enabled && negb (not_null tenant_id) then Ok [None]
                 else Err (OperatorQueueError 409 code)
  | Some (Some r) => t ← tenant_of r; Ok [t]
  end.

Definition resolve_operator_task_tenant_id (tenant_id ticket_id webchat_conversation_id : option Z)
    : result (option Z) :=
  l1 ← explicit_tenant tenant_id;
  l2 ← source_tenant tenant_id "operator_task_ticket_missing" _tenant_id_for_ticket
         (row_at s <$> ticket_id);
  l3 ← source_tenant tenant_id "operator_task_conversation_missing" _tenant_id_for_conversation
         (row_at s <$> webchat_conversation_id);
  match remove_dups (l1 ++ l2 ++ l3) with
  | [] => if _shadow_enabled then Ok None
          else Err (OperatorQueueError 409 "operator_task_tenant_required")
  | [None] => if _shadow_enabled then Ok None
              else Err (OperatorQueueError 409 "operator_task_shadow_scope_forbidden")
  | [Some i] => Ok (Some i)
  | _ => Err (OperatorQueueError 409 "operator_task_tenant_conflict")
  end.
End Tenant.

(** ** Identity *)

Definition open_handoff_of (s : Desk.t) (conversation_id : Z) : option WebchatHandoffRequest.t :=
  last_where (fun r => (WebchatHandoffRequest.conversation_id r =? conversation_id) &&
                       bool_decide (WebchatHandoffRequest.status r ∈ ["requested"; "accepted"])) s.

(** The listener that runs before a task is inserted or updated *)
Definition _enforce_handoff_projection_identity (s : Desk.t) (t : OperatorTask.t)
    : OperatorTask.t :=
  match OperatorTask.webchat_conversation_id t with
  | Some c =>
      if negb (bool_decide (OperatorTask.task_type t = "handoff")) then t
      else match open_handoff_of s c with
      | None => t
      | Some r =>
          t <| OperatorTask.source_type := "webchat_handoff" |>
            <| OperatorTask.source_id := Some (pretty (WebchatHandoffRequest.id r)) |>
            <| OperatorTask.projection_schema := "nexus.operator-task.webchat-handoff.v2" |>
            <| OperatorTask.priority := 40 |>
            <| OperatorTask.ticket_id ::= fun old =>
                 match WebchatHandoffRequest.ticket_id r with Some i => Some i | None => old end |>
            <| OperatorTask.reason_code ::= fun old =>
                 let reason := str_or (WebchatHandoffRequest.reason_code r) EmptyString in
                 if nonempty reason then Some (str_take 160 reason) else old |>
      end
  | None => t
  end.

Definition set_task (i : Z) (f : OperatorTask.t → OperatorTask.t) : M Desk.t unit :=
  s ← get; set_row i (fun t => _enforce_handoff_projection_identity s (f t)).

Definition _find_existing_active_task (s : Desk.t) (tenant_id : option Z)
    (source_type task_type : string) (source_id : option string)
    (webchat_conversation_id : option Z) : option OperatorTask.t :=
  let by_source := nonempty (str_or source_id EmptyString) in
  let by_conversation := not_null webchat_conversation_id in
  last_where (fun t =>
    bool_decide (OperatorTask.tenant_id t = tenant_id) &&
    bool_decide (OperatorTask.task_type t = task_type) && active_task t &&
    ((by_source && bool_decide (OperatorTask.source_type t = source_type) &&
      bool_decide (OperatorTask.source_id t = source_id)) ||
     (by_conversation &&
      bool_decide (OperatorTask.webchat_conversation_id t = webchat_conversation_id)))) s.

(** The unique indexes of active tasks, by conversation and by source *)
Definition task_conflict (s : Desk.t) (new : OperatorTask.t) : bool :=
  not_null (first_where (fun t =>
    bool_decide (OperatorTask.tenant_id t = OperatorTask.tenant_id new) &&
    bool_decide (OperatorTask.task_type t = OperatorTask.task_type new) && active_task t &&
    ((not_null (OperatorTask.webchat_conversation_id new) &&
      bool_decide (OperatorTask.webchat_conversation_id t =
                   OperatorTask.webchat_conversation_id new)) ||
     (not_null (OperatorTask.source_id new) &&
      bool_decide (OperatorTask.source_type t = OperatorTask.source_type new) &&
      bool_decide (OperatorTask.source_id t = OperatorTask.source_id new)))) s).

(** ** Creation *)

(** [if text: row.column = text[:n]] *)
Definition refreshed (n : nat) (text : option string) (old : option string) : option string :=
  let t := str_or text EmptyString in if nonempty t then Some (str_take n t) else old.
Definition or_old {A} (new old : option A) : option A :=
  match new with Some _ => new | None => old end.

Definition _refresh_existing_task (row : OperatorTask.t) (tenant_id : option Z) (x : TaskSource.t)
    : M Desk.t unit :=
  require (bool_decide (OperatorTask.tenant_id row = tenant_id))
    (OperatorQueueError 409 "operator_task_tenant_conflict");;
  updated_at ← utc_now;
  set_task (OperatorTask.id row) (fun t =>
    t <| OperatorTask.source_type := str_take 40 (TaskSource.source_type x) |>
      <| OperatorTask.source_id ::= refreshed 160 (TaskSource.source_id x) |>
      <| OperatorTask.projection_schema ::= fun old =>
           if nonempty (TaskSource.projection_schema x)
           then str_take 80 (TaskSource.projection_schema x) else old |>
      <| OperatorTask.ticket_id ::= or_old (TaskSource.ticket_id x) |>
      <| OperatorTask.webchat_conversation_id ::= or_old (TaskSource.webchat_conversation_id x) |>
      <| OperatorTask.reason_code ::= refreshed 160 (TaskSource.reason_code x) |>
      <| OperatorTask.priority := TaskSource.priority x |>
      <| OperatorTask.payload_json ::= fun old =>
           match TaskSource.payload x with Some p => _json_payload p | None => old end |>
      <| OperatorTask.updated_at := updated_at |>).

Definition new_task (tenant_id : option Z) (x : TaskSource.t) (created_at updated_at i : Z)
    : OperatorTask.t :=
  {| OperatorTask.id := i; OperatorTask.tenant_id := tenant_id;
     OperatorTask.source_type := str_take 40 (TaskSource.source_type x);
     OperatorTask.source_id := refreshed 160 (TaskSource.source_id x) None;
     OperatorTask.projection_schema := str_take 80 (TaskSource.projection_schema x);
     OperatorTask.ticket_id := TaskSource.ticket_id x;
     OperatorTask.webchat_conversation_id := TaskSource.webchat_conversation_id x;
     OperatorTask.task_type := str_take 80 (TaskSource.task_type x);
     OperatorTask.status := "pending"; OperatorTask.priority := TaskSource.priority x;
     OperatorTask.assignee_id := None;
     OperatorTask.reason_code := refreshed 160 (TaskSource.reason_code x) None;
     OperatorTask.payload_json := TaskSource.payload x ≫= _json_payload;
     OperatorTask.created_at := created_at; OperatorTask.updated_at := updated_at;
     OperatorTask.resolved_at := None |}.

(** The id of the task, and whether it is new *)
Definition create_operator_task (x : TaskSource.t) : M Desk.t (Z * bool) :=
  s ← get;
  tenant_id ← lift (resolve_operator_task_tenant_id s (TaskSource.tenant_id x)
                      (TaskSource.ticket_id x) (TaskSource.webchat_conversation_id x));
  let find (s : Desk.t) :=
    _find_existing_active_task s tenant_id (TaskSource.source_type x) (TaskSource.task_type x)
      (TaskSource.source_id x) (TaskSource.webchat_conversation_id x) in
  match find s with
  | Some existing =>
      _refresh_existing_task existing tenant_id x;;
      mret (OperatorTask.id existing, false)
  | None =>
      created_at ← utc_now;
      updated_at ← utc_now;
      s ← get;
      let row (i : Z) :=
        _enforce_handoff_projection_identity s (new_task tenant_id x created_at updated_at i) in
      if task_conflict s (row (tnext (Desk.tasks s))) then
        match find s with
        | Some existing =>
            _refresh_existing_task existing tenant_id x;;
            mret (OperatorTask.id existing, false)
        | None => raise (OperatorQueueError 409 "operator_task_conflict")
        end
      else
        i ← add_row row;
        mret (i, true)
  end.
End Tasks.
