(* ===== verification/Routing.v ===== *)
(** * Routing of handoffs to agents

    [services/agent_routing_primitives.py]: the load of agents, ringing offers of calls,
    the assignment of waiting conversations.

    The service (RoutingService.v) replaces functions of the primitives by functions that
    follow the routing plan of a ticket; what the primitives call among themselves stays.
    A function that exists in both is defined once over the functions it calls ([Router])
    and instantiated twice.

    The iteration order of a Python set of ids is [set_order]; [delivered] is that of
    AiTurns.v; [limit] arguments are at their defaults, as in every call; a handoff is
    given by its id, a conversation, a voice session and an offer likewise. *)

From stdpp Require Import sorting.
From S2P Require Import Prelude Calendar Enums Models Permissions Tenancy Work JobScope.
From S2P Require Import AiTurns Desk Plans Tasks.

Definition PRESENCE_STATUSES : list string := ["offline"; "online"; "paused"].
Definition CONVERSATION_OUTCOMES : list string :=
  ["ai_resolved"; "human_resolved"; "ticket_created"; "customer_abandoned";
   "no_action_required"; "unresolved"].
Definition DEFAULT_AGENT_CAPACITY : Z := 3.
Definition MAX_AGENT_CAPACITY : Z := 20.
Definition DEFAULT_VOICE_CAPACITY : Z := 1.
Definition MAX_VOICE_CAPACITY : Z := 5.
Definition DEFAULT_VOICE_WRAP_UP_SECONDS : Z := 30.
Definition MAX_VOICE_WRAP_UP_SECONDS : Z := 900.
Definition DEFAULT_VOICE_OFFER_TIMEOUT_SECONDS : Z := 20.
Definition VOICE_CALL_OCCUPANCY_STATUSES : list string := ["accepted"; "active"].
Definition VOICE_OPEN_SESSION_STATUSES : list string := ["created"; "ringing"; "accepted"; "active"].

(** ** Agents and their load *)

Definition new_agent_state (user_id now i : Z) : OperatorAgentState.t :=
  {| OperatorAgentState.id := i; OperatorAgentState.user_id := user_id;
     OperatorAgentState.status := "offline";
     OperatorAgentState.max_concurrent_conversations := DEFAULT_AGENT_CAPACITY;
     OperatorAgentState.voice_enabled := false;
     OperatorAgentState.max_concurrent_voice_calls := DEFAULT_VOICE_CAPACITY;
     OperatorAgentState.voice_wrap_up_seconds := DEFAULT_VOICE_WRAP_UP_SECONDS;
     OperatorAgentState.last_heartbeat_at := None; OperatorAgentState.status_changed_at := now;
     OperatorAgentState.created_at := now; OperatorAgentState.updated_at := now |}.

Definition agent_of (s : Desk.t) (user_id : Z) : option OperatorAgentState.t :=
  first_where (fun a => OperatorAgentState.user_id a =? user_id) s.

(** The id of the state row *)
Definition get_or_create_agent_state (user_id : Z) : M Desk.t Z :=
  s ← get;
  match agent_of s user_id with
  | Some row => mret (OperatorAgentState.id row)
  | None => now ← utc_now; add_row (new_agent_state user_id now)
  end.

Definition heartbeat_is_fresh (row : OperatorAgentState.t) : M Desk.t bool :=
  now ← utc_now; mret (fresh_at now row).

Definition open_voice (v : WebchatVoiceSession.t) : bool :=
  bool_decide (WebchatVoiceSession.status v ∈ VOICE_OPEN_SESSION_STATUSES).

Definition _voice_session_for_conversation (s : Desk.t) (conversation_id : Z)
    : option WebchatVoiceSession.t :=
  last_where (fun v => (WebchatVoiceSession.conversation_id v =? conversation_id) && open_voice v) s.

Definition voice_exists (s : Desk.t) (conversation_id : Z) : bool :=
  not_null (first_where (fun v =>
    (WebchatVoiceSession.conversation_id v =? conversation_id) && open_voice v) s).

Definition open_conversation (s : Desk.t) (conversation_id : Z) : bool :=
  match row_at (R := WebchatConversation.t) s conversation_id with
  | Some c => bool_decide (WebchatConversation.status c = "open")
  | None => false
  end.

(** An accepted handoff of the agent *)
Definition held_by (user_id : Z) (r : WebchatHandoffRequest.t) : bool :=
  bool_decide (WebchatHandoffRequest.status r = "accepted") &&
  bool_decide (WebchatHandoffRequest.assigned_agent_id r = Some user_id).

Definition active_agent_load (s : Desk.t) (user_id : Z) : Z :=
  count_where (fun r => held_by user_id r &&
    open_conversation s (WebchatHandoffRequest.conversation_id r) &&
    negb (voice_exists s (WebchatHandoffRequest.conversation_id r))) s.

(** The handoff of a voice session *)
Definition request_of (s : Desk.t) (v : WebchatVoiceSession.t) : option WebchatHandoffRequest.t :=
  WebchatVoiceSession.handoff_request_id v ≫= row_at s.

Definition active_voice_load_at (s : Desk.t) (user_id now : Z) : Z :=
  count_where (fun v =>
    match request_of s v with Some r => held_by user_id r | None => false end &&
    (bool_decide (WebchatVoiceSession.status v ∈ VOICE_CALL_OCCUPANCY_STATUSES) ||
     match WebchatVoiceSession.wrap_up_expires_at v with Some w => now <? w | None => false end)) s.
Definition active_voice_load (user_id : Z) : M Desk.t Z :=
  now ← utc_now; gets (fun s => active_voice_load_at s user_id now).

Definition offered (o : VoiceRoutingOffer.t) : bool :=
  bool_decide (VoiceRoutingOffer.status o = "offered").

Definition reserved_voice_offers_at (s : Desk.t) (user_id now : Z) : Z :=
  count_where (fun o => (VoiceRoutingOffer.agent_id o =? user_id) && offered o &&
                        (now <? VoiceRoutingOffer.expires_at o)) s.
Definition reserved_voice_offer_count (user_id : Z) : M Desk.t Z :=
  now ← utc_now; gets (fun s => reserved_voice_offers_at s user_id now).

Definition _state_payload (sid : Z) : M Desk.t json :=
  row ← the_row (R := OperatorAgentState.t) sid;
  s ← get;
  let user_id := OperatorAgentState.user_id row in
  let load := active_agent_load s user_id in
  voice_load ← active_voice_load user_id;
  reserved_voice ← reserved_voice_offer_count user_id;
  fresh ← heartbeat_is_fresh row;
  let assignable := bool_decide (OperatorAgentState.status row = "online") && (fresh : bool) in
  let voice_assignable := assignable && OperatorAgentState.voice_enabled row in
  mret (JObj [("user_id", JNum user_id); ("status", JStr (OperatorAgentState.status row));
    ("heartbeat_fresh", JBool fresh); ("assignable", JBool assignable);
    ("max_concurrent_conversations", JNum (OperatorAgentState.max_concurrent_conversations row));
    ("active_conversations", JNum load);
    ("available_capacity", JNum (if assignable
       then Z.max 0 (OperatorAgentState.max_concurrent_conversations row - load) else 0));
    ("voice_enabled", JBool (OperatorAgentState.voice_enabled row));
    ("voice_assignable", JBool voice_assignable);
    ("max_concurrent_voice_calls", JNum (OperatorAgentState.max_concurrent_voice_calls row));
    ("active_voice_calls", JNum voice_load); ("reserved_voice_offers", JNum reserved_voice);
    ("available_voice_capacity", JNum (if voice_assignable
       then Z.max 0 (OperatorAgentState.max_concurrent_voice_calls row - voice_load - reserved_voice)
       else 0));
    ("voice_wrap_up_seconds", JNum (OperatorAgentState.voice_wrap_up_seconds row));
    ("last_heartbeat_at", json_of_option jtime (OperatorAgentState.last_heartbeat_at row));
    ("heartbeat_ttl_seconds", JNum HEARTBEAT_TTL_SECONDS)]).

(** ** Conversations *)

(** [ensure_conversation_control(db, conversation=conversation)]; the id of the row *)
Definition _control_for_conversation (conversation_id : Z) : M Desk.t Z :=
  c ← the_row (R := WebchatConversation.t) conversation_id;
  s ← get;
  match control_of (Desk.work s) conversation_id with
  | None =>
      now ← utc_now;
      add_row (fun i =>
        {| ConversationControl.id := i; ConversationControl.conversation_id := conversation_id;
           ConversationControl.customer_id := None;
           ConversationControl.tenant_key := WebchatConversation.tenant_key c;
           ConversationControl.country_code := mjoin (Desk.scope_country s);
           ConversationControl.channel_key := WebchatConversation.channel_key c;
           ConversationControl.outcome := None; ConversationControl.closed_at := None;
           ConversationControl.closed_by_user_id := None; ConversationControl.closure_note := None;
           ConversationControl.created_at := WebchatConversation.created_at c;
           ConversationControl.updated_at := now |})
  | Some row =>
      now ← utc_now;
      set_row (ConversationControl.id row) (fun x =>
        x <| ConversationControl.tenant_key := WebchatConversation.tenant_key c |>
          <| ConversationControl.channel_key := WebchatConversation.channel_key c |>
          <| ConversationControl.country_code ::= fun old =>
               let country := str_or (mjoin (Desk.scope_country s)) EmptyString in
               if nonempty country then Some country else old |>
          <| ConversationControl.updated_at := now |>);;
      mret (ConversationControl.id row)
  end.

(** [_scope_grant_exists] of the primitives: any queue will do *)
Definition core_scope_grant_exists (s : Desk.t) (user : User.t) (c : ConversationControl.t) : bool :=
  nonempty (str_or (ConversationControl.country_code c) EmptyString) &&
  granted s (User.id user) c None.

Definition _operator_task (s : Desk.t) (conversation_id : Z) : option OperatorTask.t :=
  last_where (fun t =>
    bool_decide (OperatorTask.webchat_conversation_id t = Some conversation_id) &&
    bool_decide (OperatorTask.task_type t = "handoff") && active_task t) s.

(** [if task is not None: ...] *)
Definition on_task (conversation_id : Z) (f : OperatorTask.t → OperatorTask.t) : M Desk.t unit :=
  s ← get;
  match _operator_task s conversation_id with
  | Some t => set_task (OperatorTask.id t) f
  | None => mret tt
  end.

(** ** After-call work *)

(** [asc] order of a list, ties in the order of the ids *)
Definition sort_on {R} (key : R → Z) : list R → list R := sort_by (fun a b => key a <=? key b).

(** The sessions that one pass of [release_expired_voice_wrap_ups] takes *)
Definition expired_wrap_ups (s : Desk.t) (user_id : option Z) (now : Z)
    : list WebchatVoiceSession.t :=
  take 100 (sort_on (fun v => default 0 (WebchatVoiceSession.wrap_up_expires_at v))
    (rows_where (fun v =>
      match WebchatVoiceSession.wrap_up_expires_at v with Some w => w <=? now | None => false end &&
      match user_id with
      | Some u => bool_decide ((request_of s v ≫= WebchatHandoffRequest.assigned_agent_id) = Some u)
      | None => true
      end) s)).

Definition closed_request (note : option string) (now : Z) (r : WebchatHandoffRequest.t)
    : WebchatHandoffRequest.t :=
  r <| WebchatHandoffRequest.status := "closed" |> <| WebchatHandoffRequest.closed_at := Some now |>
    <| WebchatHandoffRequest.decision_note := note |>
    <| WebchatHandoffRequest.lock_version ::= Z.succ |>
    <| WebchatHandoffRequest.updated_at := now |>.

Definition release_wrap_up (now sid : Z) : M Desk.t unit :=
  set_row sid (fun v => v <| WebchatVoiceSession.wrap_up_expires_at := None |>);;
  v ← the_row sid;
  s ← get;
  let request_row := request_of s v in
  let previous_agent_id := request_row ≫= WebchatHandoffRequest.assigned_agent_id in
  match request_row with
  | Some r => when (bool_decide (WebchatHandoffRequest.status r = "accepted"))
                (set_row (WebchatHandoffRequest.id r)
                   (closed_request (Some "voice_wrap_up_expired") now))
  | None => mret tt
  end;;
  match row_at s (WebchatVoiceSession.conversation_id v) with
  | Some c =>
      when (bool_decide (WebchatConversation.active_agent_id c = previous_agent_id))
        (set_row (WebchatConversation.id c) (fun c =>
           c <| WebchatConversation.active_agent_id := None |>
             <| WebchatConversation.current_handoff_request_id := None |>
             <| WebchatConversation.handoff_status := "closed" |>
             <| WebchatConversation.takeover_mode := None |>
             <| WebchatConversation.ai_suspended := true |>
             <| WebchatConversation.ai_suspended_reason := Some "voice_follow_up_required" |>
             <| WebchatConversation.updated_at := now |>);;
         _event (WebchatConversation.id c) "voice.wrap_up.expired"
           [("voice_session_id", JStr (WebchatVoiceSession.public_id v));
            ("previous_agent_id", jid previous_agent_id)])
  | None => mret tt
  end.

Definition core_release_expired_voice_wrap_ups (user_id : option Z) : M Desk.t Z :=
  now ← utc_now;
  s ← get;
  let sessions := expired_wrap_ups s user_id now in
  iterM (fun v => release_wrap_up now (WebchatVoiceSession.id v)) sessions;;
  mret (Z.of_nat (length sessions)).

(** ** Assignment *)

Definition accepted_request (user_id now : Z) (r : WebchatHandoffRequest.t) : WebchatHandoffRequest.t :=
  r <| WebchatHandoffRequest.status := "accepted" |>
    <| WebchatHandoffRequest.accepted_by_user_id := Some user_id |>
    <| WebchatHandoffRequest.assigned_agent_id := Some user_id |>
    <| WebchatHandoffRequest.accepted_at ::= fun o => Some (default now o) |>
    <| WebchatHandoffRequest.lock_version ::= Z.succ |>
    <| WebchatHandoffRequest.updated_at := now |>.

Definition taken_over (rid user_id : Z) (mode : string) (now : Z) (c : WebchatConversation.t)
    : WebchatConversation.t :=
  c <| WebchatConversation.current_handoff_request_id := Some rid |>
    <| WebchatConversation.handoff_status := "accepted" |>
    <| WebchatConversation.active_agent_id := Some user_id |>
    <| WebchatConversation.ai_suspended := true |>
    <| WebchatConversation.ai_suspended_at ::= fun o => Some (default now o) |>
    <| WebchatConversation.ai_suspended_by := Some user_id |>
    <| WebchatConversation.ai_suspended_reason := Some "handoff_accepted" |>
    <| WebchatConversation.takeover_mode := Some mode |>
    <| WebchatConversation.updated_at := now |>.

Definition cancelled_offer (now : Z) (o : VoiceRoutingOffer.t) : VoiceRoutingOffer.t :=
  o <| VoiceRoutingOffer.status := "cancelled" |> <| VoiceRoutingOffer.cancelled_at := Some now |>
    <| VoiceRoutingOffer.updated_at := now |>.

Definition handoff_not_waiting : exc := HTTPException 409 "handoff_not_waiting".

(** [queue_position] of [agent_availability_service.py] *)
Definition queue_position (s : Desk.t) (r : WebchatHandoffRequest.t) : option Z :=
  let scope (r : WebchatHandoffRequest.t) : option ConversationControl.t :=
    _ ← row_at (R := WebchatConversation.t) s (WebchatHandoffRequest.conversation_id r);
    control_of (Desk.work s) (WebchatHandoffRequest.conversation_id r) in
  if negb (bool_decide (WebchatHandoffRequest.status r = "requested")) then None
  else control ← scope r;
    Some (count_where (fun x =>
      bool_decide (WebchatHandoffRequest.status x = "requested") &&
      match scope x with
      | Some k =>
          bool_decide (ConversationControl.tenant_key k = ConversationControl.tenant_key control) &&
          bool_decide (ConversationControl.country_code k = ConversationControl.country_code control) &&
          bool_decide (ConversationControl.channel_key k = ConversationControl.channel_key control)
      | None => false
      end &&
      ((WebchatHandoffRequest.requested_at x <? WebchatHandoffRequest.requested_at r) ||
       ((WebchatHandoffRequest.requested_at x =? WebchatHandoffRequest.requested_at r) &&
        (WebchatHandoffRequest.id x <=? WebchatHandoffRequest.id r)))) s).

Definition active_offer (s : Desk.t) (vid now : Z) : option VoiceRoutingOffer.t :=
  first_where (fun o => (VoiceRoutingOffer.voice_session_id o =? vid) && offered o &&
                        (now <? VoiceRoutingOffer.expires_at o)) s.

Definition serialize_handoff (rid cid : Z) : M Desk.t json :=
  r ← the_row (R := WebchatHandoffRequest.t) rid;
  c ← the_row (R := WebchatConversation.t) cid;
  now ← utc_now;
  s ← get;
  let waiting := Z.max 0 (Z.quot (now - WebchatHandoffRequest.requested_at r) us_per_second) in
  let voice_session := _voice_session_for_conversation s cid in
  offer ← match voice_session with
          | Some v => now ← utc_now; mret (active_offer s (WebchatVoiceSession.id v) now)
          | None => mret None
          end;
  mret (JObj [("id", JNum (WebchatHandoffRequest.id r));
    ("conversation_id", JStr (WebchatConversation.public_id c));
    ("webchat_conversation_id", JNum (WebchatConversation.id c));
    ("ticket_id", jid (WebchatHandoffRequest.ticket_id r));
    ("status", JStr (WebchatHandoffRequest.status r));
    ("source", JStr (WebchatHandoffRequest.source r));
    ("trigger_type", JStr (WebchatHandoffRequest.trigger_type r));
    ("reason_code", jstr (WebchatHandoffRequest.reason_code r));
    ("reason_text", jstr (WebchatHandoffRequest.reason_text r));
    ("recommended_agent_action", jstr (WebchatHandoffRequest.recommended_agent_action r));
    ("assigned_agent_id", jid (WebchatHandoffRequest.assigned_agent_id r));
    ("waiting_seconds", JNum waiting);
    ("queue_position", jid (queue_position s r));
    ("requested_at", jtime (WebchatHandoffRequest.requested_at r));
    ("accepted_at", json_of_option jtime (WebchatHandoffRequest.accepted_at r));
    ("handoff_status", JStr (WebchatConversation.handoff_status c));
    ("active_agent_id", jid (WebchatConversation.active_agent_id c));
    ("ai_suspended", JBool (WebchatConversation.ai_suspended c));
    ("voice_session_id", json_of_option (fun v => JStr (WebchatVoiceSession.public_id v)) voice_session);
    ("voice_offer", json_of_option (fun o =>
       JObj [("id", JStr (VoiceRoutingOffer.public_id o)); ("agent_id", JNum (VoiceRoutingOffer.agent_id o));
             ("expires_at", jtime (VoiceRoutingOffer.expires_at o))]) offer)]).

(** The offer that the agent may take, or the check of the capacity for a text *)
Definition assignment_slot (state : OperatorAgentState.t) (user_id : Z)
    (voice_session : option WebchatVoiceSession.t) (voice_offer : option Z) (now : Z)
    : M Desk.t (option VoiceRoutingOffer.t) :=
  s ← get;
  match voice_session with
  | Some v =>
      require (OperatorAgentState.voice_enabled state) (HTTPException 409 "agent_voice_disabled");;
      match first_where (fun o =>
        (VoiceRoutingOffer.voice_session_id o =? WebchatVoiceSession.id v) &&
        (VoiceRoutingOffer.agent_id o =? user_id) && offered o &&
        match voice_offer with Some i => VoiceRoutingOffer.id o =? i | None => true end) s with
      | None => raise (HTTPException 409 "voice_offer_not_owned")
      | Some o =>
          require (now <? VoiceRoutingOffer.expires_at o) (HTTPException 409 "voice_offer_expired");;
          let other_reservations := Z.max 0 (reserved_voice_offers_at s user_id now - 1) in
          require (active_voice_load_at s user_id now + other_reservations <?
                   OperatorAgentState.max_concurrent_voice_calls state)
            (HTTPException 409 "agent_voice_capacity_full");;
          mret (Some o)
      end
  | None =>
      require (active_agent_load s user_id <? OperatorAgentState.max_concurrent_conversations state)
        (HTTPException 409 "agent_capacity_full");;
      mret None
  end.

Definition accepted_offer (now : Z) (o : VoiceRoutingOffer.t) : VoiceRoutingOffer.t :=
  o <| VoiceRoutingOffer.status := "accepted" |> <| VoiceRoutingOffer.accepted_at := Some now |>
    <| VoiceRoutingOffer.updated_at := now |>.
Definition connected (rid now : Z) (v : WebchatVoiceSession.t) : WebchatVoiceSession.t :=
  v <| WebchatVoiceSession.handoff_request_id := Some rid |>
    <| WebchatVoiceSession.status := "accepted" |>
    <| WebchatVoiceSession.accepted_at := Some now |> <| WebchatVoiceSession.updated_at := now |>.

(** The call of the voice session goes to the agent. *)
Definition connect_call (v : WebchatVoiceSession.t) (o : VoiceRoutingOffer.t) (rid user_id now : Z)
    : M Desk.t unit :=
  set_row (VoiceRoutingOffer.id o) (accepted_offer now);;
  set_row (WebchatVoiceSession.id v) (connected rid now);;
  update_where (fun x => (VoiceRoutingOffer.voice_session_id x =? WebchatVoiceSession.id v) &&
                         offered x && negb (VoiceRoutingOffer.id x =? VoiceRoutingOffer.id o))
    (cancelled_offer now);;
  s ← get;
  match first_where (fun l =>
    (WebchatVoiceParticipant.voice_session_id l =? WebchatVoiceSession.id v) &&
    bool_decide (WebchatVoiceParticipant.user_id l = Some user_id) &&
    bool_decide (WebchatVoiceParticipant.participant_type l = "human")) s with
  | Some _ => mret tt
  | None =>
      _ ← add_row (fun i =>
        {| WebchatVoiceParticipant.id := i;
           WebchatVoiceParticipant.voice_session_id := WebchatVoiceSession.id v;
           WebchatVoiceParticipant.participant_type := "human";
           WebchatVoiceParticipant.user_id := Some user_id;
           WebchatVoiceParticipant.provider_identity := "agent:" +:+ pretty user_id;
           WebchatVoiceParticipant.direction := "internal";
           WebchatVoiceParticipant.status := "invited";
           WebchatVoiceParticipant.started_at := Some now;
           WebchatVoiceParticipant.created_at := now; WebchatVoiceParticipant.updated_at := now |});
      mret tt
  end.

Section Routing.
Context (delivered : Z → string → bool) (set_order : list Z → list Z).

#[local] Abbreviation cancel_turns := (cancel_open_ai_turns_for_handoff delivered).

(** What an assignment writes beside the handoff and the conversation *)
Definition announce_assignment (rid cid user_id : Z) (mode : string)
    (voice_session : option WebchatVoiceSession.t) (offer : option VoiceRoutingOffer.t) (now : Z)
    : M Desk.t unit :=
  _ ← on_work (cancel_turns cid (Some user_id) "handoff_accepted");
  on_task cid (fun t => t <| OperatorTask.status := "assigned" |>
    <| OperatorTask.assignee_id := Some user_id |> <| OperatorTask.updated_at := now |>);;
  c ← the_row cid;
  match WebchatConversation.ticket_id c with
  | Some tid => set_row tid (fun t => t <| Ticket.assignee_id := Some user_id |>
                                        <| Ticket.updated_at := now |>)
  | None => mret tt
  end;;
  let channel_kind := JStr (if not_null voice_session then "voice" else "text") in
  let offer_id := json_of_option (fun o => JStr (VoiceRoutingOffer.public_id o)) offer in
  _event cid "handoff.accepted"
    [("handoff_request_id", JNum rid); ("actor_id", JNum user_id); ("assignment_mode", JStr mode);
     ("channel_kind", channel_kind); ("voice_offer_id", offer_id)];;
  log_admin_audit (Some user_id) "webchat_handoff.accepted" "webchat_handoff_request" (Some rid) None
    (Some (JObj [("conversation_id", JNum cid); ("assigned_agent_id", JNum user_id);
                 ("assignment_mode", JStr mode); ("channel_kind", channel_kind);
                 ("voice_offer_id", offer_id)])).

(** The handoff goes to the agent. *)
Definition commit_assignment (rid cid user_id : Z) (mode : string)
    (voice_session : option WebchatVoiceSession.t) (offer : option VoiceRoutingOffer.t) (now : Z)
    : M Desk.t json :=
  set_row rid (accepted_request user_id now);;
  set_row cid (taken_over rid user_id mode now);;
  match voice_session, offer with
  | Some v, Some o => connect_call v o rid user_id now
  | _, _ => mret tt
  end;;
  announce_assignment rid cid user_id mode voice_session offer now;;
  serialize_handoff rid cid.

(** The assignment of a handoff that still waits, to an agent who is available *)
Definition assign_waiting (rid cid user_id : Z) (state : OperatorAgentState.t) (mode : string)
    (voice_offer : option Z) : M Desk.t json :=
  s ← get;
  require (match row_at s rid, row_at (R := WebchatConversation.t) s cid with
           | Some r, Some _ => bool_decide (WebchatHandoffRequest.status r = "requested")
           | _, _ => false
           end) handoff_not_waiting;;
  let voice_session := _voice_session_for_conversation s cid in
  now ← utc_now;
  locked_offer ← assignment_slot state user_id voice_session voice_offer now;
  commit_assignment rid cid user_id mode voice_session locked_offer now.

Definition core_assign_handoff_to_agent (rid cid : Z) (user : User.t) (mode : string)
    (voice_offer : option Z) : M Desk.t json :=
  let user_id := User.id user in
  sid ← get_or_create_agent_state user_id;
  state ← the_row sid;
  let online := bool_decide (OperatorAgentState.status state = "online") in
  fresh ← (if online then heartbeat_is_fresh state else mret false);
  require (online && fresh) (HTTPException 409 "agent_not_available");;
  kid ← _control_for_conversation cid;
  control ← the_row kid;
  s ← get;
  require (core_scope_grant_exists s user control) (HTTPException 403 "agent_scope_not_authorized");;
  assign_waiting rid cid user_id state mode voice_offer.

(** ** What the service and the primitives have in common *)

(** The functions that differ *)
Record Router := {
  (** what is noted of an offer that ended: the outcome and the reason *)
  note_offer : VoiceRoutingOffer.t → string → option string → M Desk.t unit;
  create_next_voice_offer : Z → M Desk.t (option Z);
  release_expired_voice_wrap_ups : option Z → M Desk.t Z;
  _eligible_text_request_for_agent : User.t → M Desk.t (option (Z * Z));
  assign_handoff_to_agent : Z → Z → User.t → string → option Z → M Desk.t json }.

Section Common.
Context (router : Router).

(** The sessions of ended offers ring elsewhere. *)
Definition offer_again (offers : list VoiceRoutingOffer.t) : M Desk.t unit :=
  iterM (fun vid =>
    s ← get;
    when (not_null (row_at (R := WebchatVoiceSession.t) s vid))
      (_ ← create_next_voice_offer router vid; mret tt))
    (set_order (VoiceRoutingOffer.voice_session_id <$> offers)).

Definition expire_offer (now : Z) (o : VoiceRoutingOffer.t) : M Desk.t unit :=
  set_row (VoiceRoutingOffer.id o) (fun o => o <| VoiceRoutingOffer.status := "expired" |>
    <| VoiceRoutingOffer.expired_at := Some now |> <| VoiceRoutingOffer.updated_at := now |>);;
  note_offer router o "expired" (Some "voice_offer_expired");;
  s ← get;
  match row_at s (VoiceRoutingOffer.voice_session_id o) with
  | None => mret tt
  | Some v =>
      when (not_null (row_at (R := WebchatConversation.t) s (WebchatVoiceSession.conversation_id v)))
        (_event (WebchatVoiceSession.conversation_id v) "voice.offer.expired"
           [("voice_session_id", JStr (WebchatVoiceSession.public_id v));
            ("offer_id", JStr (VoiceRoutingOffer.public_id o));
            ("agent_id", JNum (VoiceRoutingOffer.agent_id o))])
  end.

Definition expire_voice_offers (agent_id voice_session_id : option Z) : M Desk.t Z :=
  now ← utc_now;
  s ← get;
  let offers := take 200 (sort_on VoiceRoutingOffer.expires_at (rows_where (fun o =>
    offered o && (VoiceRoutingOffer.expires_at o <=? now) &&
    match agent_id with Some a => VoiceRoutingOffer.agent_id o =? a | None => true end &&
    match voice_session_id with
    | Some v => VoiceRoutingOffer.voice_session_id o =? v | None => true
    end) s)) in
  iterM (expire_offer now) offers;;
  offer_again offers;;
  mret (Z.of_nat (length offers)).

(** The calls that wait for an agent *)
Definition waiting_calls (s : Desk.t) : list WebchatVoiceSession.t :=
  let asked (v : WebchatVoiceSession.t) : Z :=
    default 0 (WebchatHandoffRequest.requested_at <$> request_of s v) in
  take 100 (sort_on asked (rows_where (fun v =>
    match request_of s v with
    | Some r => bool_decide (WebchatHandoffRequest.status r = "requested")
    | None => false
    end && bool_decide (WebchatVoiceSession.status v ∈ ["created"; "ringing"])) s)).

(** [try: ... except HTTPException as exc]: the value or the exception *)
Definition caught {A} (m : M Desk.t A) : M Desk.t (A + exc) :=
  try_catch (a ← m; mret (inl a)) (fun e =>
    match e with
    | HTTPException _ _ | HTTPExceptionCode _ _ _ => mret (inr e)
    | _ => raise e
    end).

(** The [while] loop; [fuel] bounds the iterations, see [fill_agent_capacity]. *)
Fixpoint fill_with_texts (fuel : nat) (user : User.t) (sid : Z) : M Desk.t (list json) :=
  match fuel with
  | O => raise (RuntimeError "fill_agent_capacity")
  | S fuel =>
      state ← the_row (R := OperatorAgentState.t) sid;
      s ← get;
      if negb (active_agent_load s (User.id user) <?
               OperatorAgentState.max_concurrent_conversations state)
      then mret []
      else
        candidate ← _eligible_text_request_for_agent router user;
        match candidate with
        | None => mret []
        | Some (rid, cid) =>
            outcome ← caught (assign_handoff_to_agent router rid cid user "automatic" None);
            match outcome with
            | inl assigned => rest ← fill_with_texts fuel user sid; mret (assigned :: rest)
            | inr e => if bool_decide (e = handoff_not_waiting)
                       then fill_with_texts fuel user sid else mret []
            end
        end
  end.

Definition fill_fuel (capacity : Z) : nat := Z.to_nat (capacity + 1).

(** What comes before the loop *)
Definition before_fill (user_id : Z) : M Desk.t unit :=
  _ ← expire_voice_offers (Some user_id) None;
  _ ← release_expired_voice_wrap_ups router (Some user_id);
  mret tt.

Definition fill_agent_capacity (user : User.t) : M Desk.t (list json) :=
  sid ← get_or_create_agent_state (User.id user);
  state ← the_row sid;
  let online := bool_decide (OperatorAgentState.status state = "online") in
  fresh ← (if online then heartbeat_is_fresh state else mret false);
  if negb (online && fresh) then mret []
  else
    before_fill (User.id user);;
    assigned ← fill_with_texts (fill_fuel (OperatorAgentState.max_concurrent_conversations state))
                 user sid;
    state ← the_row sid;
    s ← get;
    when (OperatorAgentState.voice_enabled state)
      (iterM (fun v => _ ← create_next_voice_offer router (WebchatVoiceSession.id v); mret tt)
         (waiting_calls s));;
    mret assigned.
End Common.

(** ** Ringing offers *)

Definition _voice_offer_timeout_seconds (s : Desk.t) (v : WebchatVoiceSession.t) : Z :=
  match WebchatVoiceSession.channel_account_id v with
  | None => DEFAULT_VOICE_OFFER_TIMEOUT_SECONDS
  | Some account =>
      match first_where (fun c => VoiceChannelConfiguration.channel_account_id c =? account) s with
      | None => DEFAULT_VOICE_OFFER_TIMEOUT_SECONDS
      | Some config =>
          let t := VoiceChannelConfiguration.offer_timeout_seconds config in
          Z.max 5 (Z.min (if t =? 0 then DEFAULT_VOICE_OFFER_TIMEOUT_SECONDS else t) 120)
      end
  end.

Definition _agent_has_prior_voice_offer (s : Desk.t) (rid agent_id : Z) : bool :=
  not_null (first_where (fun o =>
    (VoiceRoutingOffer.handoff_request_id o =? rid) && (VoiceRoutingOffer.agent_id o =? agent_id) &&
    bool_decide (VoiceRoutingOffer.status o ∈ ["offered"; "accepted"; "declined"; "expired"])) s).

(** [occupied + reserved >= state.max_concurrent_voice_calls] fails *)
Definition has_voice_slot (x : User.t * OperatorAgentState.t) : M Desk.t bool :=
  occupied ← active_voice_load (User.id (fst x));
  reserved ← reserved_voice_offer_count (User.id (fst x));
  mret (occupied + reserved <? OperatorAgentState.max_concurrent_voice_calls (snd x)).

(** The call waits for an agent and does not ring: the handoff and the conversation *)
Definition next_sequence (s : Desk.t) (vid : Z) : Z :=
  foldr Z.max 0 (VoiceRoutingOffer.sequence <$>
    rows_where (fun o => VoiceRoutingOffer.voice_session_id o =? vid) s) + 1.

Definition new_offer (s : Desk.t) (v : WebchatVoiceSession.t) (rid agent_id : Z) (public_id : string)
    (now i : Z) : VoiceRoutingOffer.t :=
  {| VoiceRoutingOffer.id := i; VoiceRoutingOffer.public_id := public_id;
     VoiceRoutingOffer.voice_session_id := WebchatVoiceSession.id v;
     VoiceRoutingOffer.handoff_request_id := rid; VoiceRoutingOffer.agent_id := agent_id;
     VoiceRoutingOffer.sequence := next_sequence s (WebchatVoiceSession.id v);
     VoiceRoutingOffer.status := "offered"; VoiceRoutingOffer.offered_at := now;
     VoiceRoutingOffer.expires_at := now + seconds (_voice_offer_timeout_seconds s v);
     VoiceRoutingOffer.accepted_at := None; VoiceRoutingOffer.declined_at := None;
     VoiceRoutingOffer.expired_at := None; VoiceRoutingOffer.cancelled_at := None;
     VoiceRoutingOffer.decline_reason := None; VoiceRoutingOffer.created_at := now;
     VoiceRoutingOffer.updated_at := now |}.

(** The insertion of an offer and what follows it.  A session has one row with the status
    [offered] at most ([uq_voice_offer_active_session]); [noted] runs after the insertion. *)
Definition place_offer (v : WebchatVoiceSession.t) (rid cid agent_id now : Z)
    (noted : string → M Desk.t unit) : M Desk.t (option Z) :=
  token ← token_urlsafe;
  s ← get;
  let public_id := "vo_" +:+ token in
  let vid := WebchatVoiceSession.id v in
  if not_null (first_where (fun o => (VoiceRoutingOffer.voice_session_id o =? vid) && offered o) s)
  then
    now ← utc_now;
    s ← get;
    mret (VoiceRoutingOffer.id <$> active_offer s vid now)
  else
    i ← add_row (new_offer s v rid agent_id public_id now);
    noted public_id;;
    set_row vid (fun v => v <| WebchatVoiceSession.status := "ringing" |>
      <| WebchatVoiceSession.ringing_at ::= fun o => Some (default now o) |>
      <| WebchatVoiceSession.updated_at := now |>);;
    let expires_at := jtime (now + seconds (_voice_offer_timeout_seconds s v)) in
    _event cid "voice.offer.created"
      [("voice_session_id", JStr (WebchatVoiceSession.public_id v));
       ("handoff_request_id", JNum rid); ("offer_id", JStr public_id); ("agent_id", JNum agent_id);
       ("expires_at", expires_at)];;
    log_admin_audit None "voice.offer.created" "voice_routing_offer" (Some i) None
      (Some (JObj [("voice_session_id", JStr (WebchatVoiceSession.public_id v));
                   ("handoff_request_id", JNum rid); ("agent_id", JNum agent_id);
                   ("expires_at", expires_at)]));;
    mret (Some i).

(** *** In the primitives *)

Definition core_eligible_voice_agents (rid : Z) (control : ConversationControl.t)
    : M Desk.t (list (User.t * OperatorAgentState.t)) :=
  if negb (nonempty (str_or (ConversationControl.country_code control) EmptyString)) then mret []
  else
    s ← get;
    filterM (fun x =>
      fresh ← heartbeat_is_fresh (snd x);
      if negb (fresh : bool) then mret false
      else
        s ← get;
        if _agent_has_prior_voice_offer s rid (User.id (fst x)) then mret false
        else has_voice_slot x)
      (on_duty (fun st => OperatorAgentState.voice_enabled st &&
                          granted s (OperatorAgentState.user_id st) control None) s).

Definition core_create_next_voice_offer (vid : Z) : M Desk.t (option Z) :=
  v ← the_row (R := WebchatVoiceSession.t) vid;
  s ← get;
  if negb (open_voice v) then mret None
  else match request_of s v with
  | None => mret None
  | Some r =>
      if negb (bool_decide (WebchatHandoffRequest.status r = "requested")) then mret None
      else
        now ← utc_now;
        s ← get;
        match active_offer s vid now with
        | Some o => mret (Some (VoiceRoutingOffer.id o))
        | None =>
            if negb (open_conversation s (WebchatVoiceSession.conversation_id v)) then mret None
            else
              kid ← _control_for_conversation (WebchatVoiceSession.conversation_id v);
              control ← the_row kid;
              candidates ← core_eligible_voice_agents (WebchatHandoffRequest.id r) control;
              match candidates with
              | [] => mret None
              | (user, _) :: _ =>
                  place_offer v (WebchatHandoffRequest.id r) (WebchatVoiceSession.conversation_id v)
                    (User.id user) now (fun _ => mret tt)
              end
        end
  end.

Definition declined_by (s : Desk.t) (rid user_id : Z) : bool :=
  not_null (first_where (fun d => (WebchatHandoffDecision.request_id d =? rid) &&
    (WebchatHandoffDecision.actor_id d =? user_id) &&
    bool_decide (WebchatHandoffDecision.decision d = "declined")) s).

(** The texts that wait, the oldest first, with the scope of their conversation *)
Definition waiting_texts (p : WebchatHandoffRequest.t → ConversationControl.t → bool) (s : Desk.t)
    : list WebchatHandoffRequest.t :=
  sort_by (fun a b => if WebchatHandoffRequest.requested_at a =? WebchatHandoffRequest.requested_at b
                      then WebchatHandoffRequest.id a <=? WebchatHandoffRequest.id b
                      else WebchatHandoffRequest.requested_at a <? WebchatHandoffRequest.requested_at b)
    (rows_where (fun r =>
      bool_decide (WebchatHandoffRequest.status r = "requested") &&
      open_conversation s (WebchatHandoffRequest.conversation_id r) &&
      negb (voice_exists s (WebchatHandoffRequest.conversation_id r)) &&
      match control_of (Desk.work s) (WebchatHandoffRequest.conversation_id r) with
      | Some k => not_null (ConversationControl.country_code k) && p r k
      | None => false
      end) s).

Definition core_eligible_text_request_for_agent (user : User.t) : M Desk.t (option (Z * Z)) :=
  gets (fun s =>
    r ← head (waiting_texts (fun r k => negb (declined_by s (WebchatHandoffRequest.id r) (User.id user)) &&
                                       granted s (User.id user) k None) s);
    Some (WebchatHandoffRequest.id r, WebchatHandoffRequest.conversation_id r)).

Definition core_router : Router := {|
  note_offer := fun _ _ _ => mret tt;
  create_next_voice_offer := core_create_next_voice_offer;
  release_expired_voice_wrap_ups := core_release_expired_voice_wrap_ups;
  _eligible_text_request_for_agent := core_eligible_text_request_for_agent;
  assign_handoff_to_agent := core_assign_handoff_to_agent |}.
End Routing.
