(* ===== verification/RoutingService.v ===== *)
(** * The routing service

    [services/agent_routing_service.py] with [services/handoff_assignment_contract.py]: the
    functions that replace those of the primitives (Routing.v), presence of agents, answers
    to ringing offers, the request of a handoff, the closure of a conversation.

    [installed] says whether the process has installed the contract. *)

From stdpp Require Import sorting.
From S2P Require Import Prelude Calendar Enums Models Permissions Tenancy Work JobScope.
From S2P Require Import AiTurns Desk Plans Tasks Routing.

(** The arguments of [request_handoff] *)
Module HandoffReason.
Record t := {
  source : string; trigger_type : string; reason_code : option string;
  reason_text : option string; recommended_agent_action : option string;
  trigger_message_id : option Z; ai_turn_id : option Z; requested_by_actor_type : string;
  requested_by_user_id : option Z }.
End HandoffReason.

Definition text_or (a : string) (b : string) : string := if nonempty a then a else b.
(** [a or b] on texts and on ids *)
Definition or_text (a b : option string) : option string :=
  if nonempty (str_or a EmptyString) then a else b.
Definition or_id (a b : option Z) : option Z := if truthy_id a then a else b.

(** ** The replaced functions *)

Section Service.
Context (delivered : Z → string → bool) (set_order : list Z → list Z).
Context (sha256_hex : string → string) (dumps : json → string) (loads : string → option json).
Context (installed : bool).

#[local] Abbreviation ensure_plan := (ensure_handoff_routing_plan sha256_hex dumps loads).

Definition _active_request_for_control (s : Desk.t) (control : ConversationControl.t)
    : option WebchatHandoffRequest.t :=
  open_handoff_of s (ConversationControl.conversation_id control).

Definition _candidate_authorized (plan : option Z) (control : ConversationControl.t) (user : User.t)
    (channel_kind : string) (exclude_attempted : bool) : M Desk.t bool :=
  match plan with
  | Some _ => candidate_is_authorized plan control user channel_kind exclude_attempted
  | None =>
      gets (fun s => User.is_active user &&
        nonempty (str_or (ConversationControl.country_code control) EmptyString) &&
        granted s (User.id user) control (Some "legacy"))
  end.

Definition _scope_grant_exists (user : User.t) (control : ConversationControl.t) : M Desk.t bool :=
  s ← get;
  plan ← match _active_request_for_control s control with
         | Some r => ensure_plan (WebchatHandoffRequest.id r)
         | None => mret None
         end;
  _candidate_authorized plan control user "text" false.

(** With the contract, the offers of the past count for handoffs without a ticket only. *)
Definition _eligible_voice_agents (rid : Z) (control : ConversationControl.t)
    : M Desk.t (list (User.t * OperatorAgentState.t)) :=
  if negb (nonempty (str_or (ConversationControl.country_code control) EmptyString)) then mret []
  else
    plan ← ensure_plan rid;
    candidates ← eligible_agents plan control "voice" true;
    filterM (fun x =>
      s ← get;
      if (negb installed || negb (not_null plan)) && _agent_has_prior_voice_offer s rid (User.id (fst x))
      then mret false
      else
        authorized ← _candidate_authorized plan control (fst x) "voice" true;
        if negb (authorized : bool) then mret false else has_voice_slot x)
      candidates.

(** [if plan is not None and plan.status == "active": ...] *)
Definition retry_later (plan : option Z) (reason_code : string) : M Desk.t unit :=
  match plan with
  | None => mret tt
  | Some p =>
      row ← the_row (R := HandoffRoutingPlan.t) p;
      when (bool_decide (HandoffRoutingPlan.status row = "active"))
        (_ ← schedule_retry_or_exhaust plan reason_code; mret tt)
  end.

Definition service_create_next_voice_offer (vid : Z) : M Desk.t (option Z) :=
  v ← the_row (R := WebchatVoiceSession.t) vid;
  s ← get;
  if negb (open_voice v) then mret None
  else match request_of s v with
  | None => mret None
  | Some r =>
      if negb (bool_decide (WebchatHandoffRequest.status r = "requested")) then mret None
      else
        let rid := WebchatHandoffRequest.id r in
        plan ← ensure_plan rid;
        now ← utc_now;
        s ← get;
        match active_offer s vid now with
        | Some o => mret (Some (VoiceRoutingOffer.id o))
        | None =>
            if negb (open_conversation s (WebchatVoiceSession.conversation_id v)) then mret None
            else
              kid ← _control_for_conversation (WebchatVoiceSession.conversation_id v);
              control ← the_row kid;
              candidates ← _eligible_voice_agents rid control;
              match candidates with
              | [] => retry_later plan "no_eligible_voice_candidate";; mret None
              | (user, _) :: _ =>
                  place_offer v rid (WebchatVoiceSession.conversation_id v) (User.id user) now
                    (fun public_id => record_candidate_attempt plan rid (User.id user) "voice"
                                        "offered" None (Some public_id))
              end
        end
  end.

(** The request ids of the sessions are read before the primitives release them. *)
Definition service_release_expired_voice_wrap_ups (user_id : option Z) : M Desk.t Z :=
  now ← utc_now;
  s ← get;
  let request_ids := omap WebchatVoiceSession.handoff_request_id (expired_wrap_ups s user_id now) in
  released ← core_release_expired_voice_wrap_ups user_id;
  iterM (fun rid => close_routing_plan rid "voice_wrap_up_expired") (set_order request_ids);;
  mret released.

(** The first waiting text that the agent may take *)
Fixpoint first_authorized (user : User.t) (l : list WebchatHandoffRequest.t)
    : M Desk.t (option (Z * Z)) :=
  match l with
  | [] => mret None
  | r :: l =>
      let rid := WebchatHandoffRequest.id r in
      let cid := WebchatHandoffRequest.conversation_id r in
      plan ← ensure_plan rid;
      s ← get;
      if installed && negb (not_null plan) && declined_by s rid (User.id user)
      then first_authorized user l
      else match control_of (Desk.work s) cid with
      | None => first_authorized user l
      | Some control =>
          authorized ← _candidate_authorized plan control user "text" true;
          if (authorized : bool) then mret (Some (rid, cid)) else first_authorized user l
      end
  end.

(** A decline counts for every handoff without the contract, and with it for those without
    a ticket ([first_authorized]). *)
Definition service_eligible_text_request_for_agent (user : User.t) : M Desk.t (option (Z * Z)) :=
  s ← get;
  first_authorized user (take 100 (waiting_texts (fun r _ =>
    installed || negb (declined_by s (WebchatHandoffRequest.id r) (User.id user))) s)).

Definition service_assign_handoff_to_agent (rid cid : Z) (user : User.t) (mode : string)
    (voice_offer : option Z) : M Desk.t json :=
  kid ← _control_for_conversation cid;
  control ← the_row kid;
  s ← get;
  let channel_kind := if not_null (_voice_session_for_conversation s cid) then "voice" else "text" in
  plan ← ensure_plan rid;
  authorized ← _candidate_authorized plan control user channel_kind false;
  require authorized (HTTPException 403 "agent_scenario_scope_not_authorized");;
  result ← core_assign_handoff_to_agent delivered rid cid user mode voice_offer;
  s ← get;
  record_candidate_attempt plan rid (User.id user) channel_kind "accepted" (Some mode)
    (VoiceRoutingOffer.public_id <$> (voice_offer ≫= row_at s));;
  mark_plan_assigned plan (User.id user);;
  mret result.

(** The contract: an accepted handoff takes the ticket along. *)
Definition _project_ticket_case_ownership (cid : Z) (user : User.t) : M Desk.t unit :=
  c ← the_row (R := WebchatConversation.t) cid;
  match WebchatConversation.ticket_id c with
  | None => mret tt
  | Some tid =>
      s ← get;
      match row_at (R := Ticket.t) s tid with
      | None => raise (RuntimeError "assigned_handoff_ticket_missing")
      | Some _ =>
          now ← utc_now;
          set_row tid (fun t => t <| Ticket.assignee_id := Some (User.id user) |>
            <| Ticket.status := TicketStatus.in_progress |>
            <| Ticket.conversation_state := ConversationState.human_owned |>
            <| Ticket.texts ::= delete "required_action" |> <| Ticket.updated_at := now |>)
      end
  end.

Definition contract_assign_handoff_to_agent (rid cid : Z) (user : User.t) (mode : string)
    (voice_offer : option Z) : M Desk.t json :=
  result ← service_assign_handoff_to_agent rid cid user mode voice_offer;
  s ← get;
  require (not_null (row_at (R := WebchatConversation.t) s cid))
    (RuntimeError "assigned_handoff_conversation_missing");;
  _project_ticket_case_ownership cid user;;
  mret result.

Definition service_router : Router := {|
  note_offer := fun o outcome reason =>
    update_attempt_by_external_ref (VoiceRoutingOffer.public_id o) outcome reason;
  create_next_voice_offer := service_create_next_voice_offer;
  release_expired_voice_wrap_ups := service_release_expired_voice_wrap_ups;
  _eligible_text_request_for_agent := service_eligible_text_request_for_agent;
  assign_handoff_to_agent := if installed then contract_assign_handoff_to_agent
                             else service_assign_handoff_to_agent |}.

#[local] Abbreviation next_offer := service_create_next_voice_offer.

Definition _cancel_agent_voice_offers (agent_id : Z) (reason : string) : M Desk.t Z :=
  now ← utc_now;
  s ← get;
  let offers := rows_where (fun o => (VoiceRoutingOffer.agent_id o =? agent_id) && offered o) s in
  iterM (fun o =>
    set_row (VoiceRoutingOffer.id o) (fun o =>
      cancelled_offer now o <| VoiceRoutingOffer.decline_reason := Some (str_take 240 reason) |>);;
    note_offer service_router o "cancelled" (Some reason)) offers;;
  offer_again set_order service_router offers;;
  mret (Z.of_nat (length offers)).

(** *** Presence *)

Definition read_agent_state (user_id : Z) : M Desk.t json :=
  _ ← expire_voice_offers set_order service_router (Some user_id) None;
  _ ← service_release_expired_voice_wrap_ups (Some user_id);
  sid ← get_or_create_agent_state user_id;
  _state_payload sid.

(** The optional arguments of [set_agent_state] *)
Definition set_capacity (sid : Z) (capacity : option Z) : M Desk.t unit :=
  match capacity with
  | None => mret tt
  | Some c =>
      require ((1 <=? c) && (c <=? MAX_AGENT_CAPACITY)) (HTTPException 400 "invalid_agent_capacity");;
      set_row sid (fun a => a <| OperatorAgentState.max_concurrent_conversations := c |>)
  end.
Definition set_voice_enabled (sid user_id : Z) (voice_enabled : option bool) : M Desk.t unit :=
  match voice_enabled with
  | None => mret tt
  | Some b =>
      (if b then mret tt
       else load ← active_voice_load user_id;
            require (load <=? 0) (HTTPException 409 "agent_voice_disable_blocked_by_active_call"));;
      set_row sid (fun a => a <| OperatorAgentState.voice_enabled := b |>)
  end.
Definition set_voice_capacity (sid user_id : Z) (capacity : option Z) : M Desk.t unit :=
  match capacity with
  | None => mret tt
  | Some c =>
      require ((1 <=? c) && (c <=? MAX_VOICE_CAPACITY))
        (HTTPException 400 "invalid_agent_voice_capacity");;
      load ← active_voice_load user_id;
      require (load <=? c) (HTTPException 409 "agent_voice_capacity_below_active_load");;
      set_row sid (fun a => a <| OperatorAgentState.max_concurrent_voice_calls := c |>)
  end.
Definition set_wrap_up (sid : Z) (wrap_up : option Z) : M Desk.t unit :=
  match wrap_up with
  | None => mret tt
  | Some w =>
      require ((0 <=? w) && (w <=? MAX_VOICE_WRAP_UP_SECONDS))
        (HTTPException 400 "invalid_agent_voice_wrap_up");;
      set_row sid (fun a => a <| OperatorAgentState.voice_wrap_up_seconds := w |>)
  end.

Definition present (status : string) (now : Z) (a : OperatorAgentState.t) : OperatorAgentState.t :=
  (if bool_decide (OperatorAgentState.status a = status) then a
   else a <| OperatorAgentState.status := status |>
          <| OperatorAgentState.status_changed_at := now |>)
    <| OperatorAgentState.last_heartbeat_at :=
         if bool_decide (status ∈ ["online"; "paused"]) then Some now else None |>
    <| OperatorAgentState.updated_at := now |>.

Definition set_agent_state (user : User.t) (presence_status : string)
    (max_concurrent_conversations : option Z) (voice_enabled : option bool)
    (max_concurrent_voice_calls voice_wrap_up_seconds : option Z) : M Desk.t json :=
  let normalized := py_lower (py_strip presence_status) in
  let user_id := User.id user in
  require (bool_decide (normalized ∈ PRESENCE_STATUSES))
    (HTTPException 400 "invalid_agent_presence_status");;
  sid ← get_or_create_agent_state user_id;
  old ← _state_payload sid;
  now ← utc_now;
  set_capacity sid max_concurrent_conversations;;
  set_voice_enabled sid user_id voice_enabled;;
  set_voice_capacity sid user_id max_concurrent_voice_calls;;
  set_wrap_up sid voice_wrap_up_seconds;;
  set_row sid (present normalized now);;
  row ← the_row sid;
  when (negb (bool_decide (normalized = "online")) || negb (OperatorAgentState.voice_enabled row))
    (_ ← _cancel_agent_voice_offers user_id "agent_unavailable"; mret tt);;
  when (bool_decide (normalized = "online"))
    (_ ← service_release_expired_voice_wrap_ups (Some user_id);
     _ ← fill_agent_capacity set_order service_router user;
     mret tt);;
  payload ← _state_payload sid;
  log_admin_audit (Some user_id) "operator_agent_state.updated" "operator_agent_state" (Some sid)
    (Some old) (Some payload);;
  mret payload.

Definition heartbeat_agent (user : User.t) : M Desk.t json :=
  let user_id := User.id user in
  sid ← get_or_create_agent_state user_id;
  row ← the_row sid;
  if bool_decide (OperatorAgentState.status row = "offline") then _state_payload sid
  else
    now ← utc_now;
    set_row sid (fun a => a <| OperatorAgentState.last_heartbeat_at := Some now |>
                            <| OperatorAgentState.updated_at := now |>);;
    _ ← expire_voice_offers set_order service_router (Some user_id) None;
    _ ← service_release_expired_voice_wrap_ups (Some user_id);
    when (bool_decide (OperatorAgentState.status row = "online"))
      (_ ← fill_agent_capacity set_order service_router user; mret tt);;
    _state_payload sid.

(** *** Offers of calls *)

(** The handoff and the conversation of a call *)
Definition call_context (vid : Z)
    : M Desk.t (WebchatVoiceSession.t * WebchatHandoffRequest.t * WebchatConversation.t) :=
  v ← the_row (R := WebchatVoiceSession.t) vid;
  s ← get;
  match request_of s v, row_at s (WebchatVoiceSession.conversation_id v) with
  | Some r, Some c => mret (v, r, c)
  | _, _ => raise (HTTPException 409 "voice_handoff_missing")
  end.

Definition own_offer (s : Desk.t) (vid user_id : Z) : option VoiceRoutingOffer.t :=
  first_where (fun o => (VoiceRoutingOffer.voice_session_id o =? vid) &&
                        (VoiceRoutingOffer.agent_id o =? user_id) && offered o) s.

Definition accept_voice_offer (vid : Z) (user : User.t) : M Desk.t json :=
  call ← call_context vid;
  let '(v, r, c) := (call : WebchatVoiceSession.t * WebchatHandoffRequest.t * WebchatConversation.t) in
  s ← get;
  match own_offer s vid (User.id user) with
  | None => raise (HTTPException 409 "voice_offer_not_owned")
  | Some o =>
      assign_handoff_to_agent service_router (WebchatHandoffRequest.id r) (WebchatConversation.id c)
        user "voice_offer_accept" (Some (VoiceRoutingOffer.id o))
  end.

Definition declined_answer (v : WebchatVoiceSession.t) (offer_id : string)
    (more : list (string * json)) : json :=
  JObj ([("voice_session_id", JStr (WebchatVoiceSession.public_id v)); ("offer_id", JStr offer_id);
         ("status", JStr "declined")] ++ more).

Definition decline_voice_offer (vid : Z) (user : User.t) (reason_code : string) (note : option string)
    : M Desk.t json :=
  let user_id := User.id user in
  call ← call_context vid;
  let '(v, r, c) := (call : WebchatVoiceSession.t * WebchatHandoffRequest.t * WebchatConversation.t) in
  now ← utc_now;
  s ← get;
  match own_offer s vid user_id with
  | None =>
      match last_where (fun o => (VoiceRoutingOffer.voice_session_id o =? vid) &&
        (VoiceRoutingOffer.agent_id o =? user_id) &&
        bool_decide (VoiceRoutingOffer.status o = "declined")) s with
      | Some previous =>
          mret (declined_answer v (VoiceRoutingOffer.public_id previous) [("idempotent", JBool true)])
      | None => raise (HTTPException 409 "voice_offer_not_owned")
      end
  | Some o =>
      let offer_id := VoiceRoutingOffer.public_id o in
      let said := str_or note EmptyString in
      set_row (VoiceRoutingOffer.id o) (fun o => o <| VoiceRoutingOffer.status := "declined" |>
        <| VoiceRoutingOffer.declined_at := Some now |>
        <| VoiceRoutingOffer.decline_reason :=
             Some (str_take 240 (if nonempty said then said else reason_code)) |>
        <| VoiceRoutingOffer.updated_at := now |>);;
      update_attempt_by_external_ref offer_id "declined" (Some reason_code);;
      _ ← add_row (fun i =>
        {| WebchatHandoffDecision.id := i;
           WebchatHandoffDecision.request_id := WebchatHandoffRequest.id r;
           WebchatHandoffDecision.actor_id := user_id; WebchatHandoffDecision.decision := "declined";
           WebchatHandoffDecision.reason_code :=
             Some (str_take 160 (if nonempty reason_code then reason_code
                                 else "agent_declined_voice_offer"));
           WebchatHandoffDecision.note := clipped 1000 note;
           WebchatHandoffDecision.created_at := now |});
      set_row vid (fun v => v <| WebchatVoiceSession.status := "ringing" |>
                              <| WebchatVoiceSession.updated_at := now |>);;
      set_row (WebchatConversation.id c) (fun c =>
        c <| WebchatConversation.handoff_status := "requested" |>
          <| WebchatConversation.active_agent_id := None |>
          <| WebchatConversation.ai_suspended := true |>
          <| WebchatConversation.ai_suspended_reason := Some "voice_handoff_waiting" |>
          <| WebchatConversation.takeover_mode := None |>
          <| WebchatConversation.updated_at := now |>);;
      on_task (WebchatConversation.id c) (fun t => t <| OperatorTask.status := "pending" |>
        <| OperatorTask.assignee_id := None |> <| OperatorTask.updated_at := now |>);;
      _event (WebchatConversation.id c) "voice.offer.declined"
        [("voice_session_id", JStr (WebchatVoiceSession.public_id v));
         ("handoff_request_id", JNum (WebchatHandoffRequest.id r)); ("offer_id", JStr offer_id);
         ("actor_id", JNum user_id); ("reason_code", JStr reason_code)];;
      log_admin_audit (Some user_id) "voice.offer.declined" "voice_routing_offer"
        (Some (VoiceRoutingOffer.id o)) None
        (Some (JObj [("voice_session_id", JStr (WebchatVoiceSession.public_id v));
                     ("handoff_request_id", JNum (WebchatHandoffRequest.id r));
                     ("reason_code", JStr reason_code)]));;
      next ← next_offer vid;
      s ← get;
      mret (declined_answer v offer_id
        [("next_offer_id", jstr (VoiceRoutingOffer.public_id <$> (next ≫= row_at s)))])
  end.

(** *** The request of a handoff *)

(** [_auto_assign_text_request] over the candidates; whether it returned before the end *)
Fixpoint offer_text (rid cid : Z) (plan : option Z) (control : ConversationControl.t)
    (candidates : list (User.t * OperatorAgentState.t)) : M Desk.t bool :=
  match candidates with
  | [] => mret false
  | (user, state) :: candidates =>
      authorized ← _candidate_authorized plan control user "text" true;
      if negb (authorized : bool) then offer_text rid cid plan control candidates
      else
        r ← the_row (R := WebchatHandoffRequest.t) rid;
        if negb (bool_decide (WebchatHandoffRequest.status r = "requested")) then mret true
        else
          s ← get;
          if OperatorAgentState.max_concurrent_conversations state <=?
             active_agent_load s (User.id user)
          then offer_text rid cid plan control candidates
          else
            _ ← assign_handoff_to_agent service_router rid cid user "automatic" None;
            mret true
  end.

Definition _auto_assign_text_request (rid cid : Z) (control : ConversationControl.t) : M Desk.t unit :=
  plan ← ensure_plan rid;
  candidates ← eligible_agents plan control "text" false;
  returned ← offer_text rid cid plan control candidates;
  when (negb returned) (retry_later plan "no_eligible_text_candidate").

Definition new_request (cid : Z) (c : WebchatConversation.t) (x : HandoffReason.t) (now i : Z)
    : WebchatHandoffRequest.t :=
  {| WebchatHandoffRequest.id := i;
     WebchatHandoffRequest.conversation_id := cid;
     WebchatHandoffRequest.ticket_id := WebchatConversation.ticket_id c;
     WebchatHandoffRequest.source := str_take 40 (text_or (HandoffReason.source x) "ai_auto");
     WebchatHandoffRequest.trigger_type :=
       str_take 80 (text_or (HandoffReason.trigger_type x) "handoff_required");
     WebchatHandoffRequest.status := "requested";
     WebchatHandoffRequest.reason_code := Some (str_take 160
       (text_or (str_or (HandoffReason.reason_code x) EmptyString) "human_review_required"));
     WebchatHandoffRequest.reason_text := clipped 240 (HandoffReason.reason_text x);
     WebchatHandoffRequest.recommended_agent_action :=
       clipped 1000 (HandoffReason.recommended_agent_action x);
     WebchatHandoffRequest.trigger_message_id := HandoffReason.trigger_message_id x;
     WebchatHandoffRequest.ai_turn_id := HandoffReason.ai_turn_id x;
     WebchatHandoffRequest.requested_by_actor_type :=
       str_take 40 (text_or (HandoffReason.requested_by_actor_type x) "system");
     WebchatHandoffRequest.requested_by_user_id := HandoffReason.requested_by_user_id x;
     WebchatHandoffRequest.accepted_by_user_id := None;
     WebchatHandoffRequest.forced_by_user_id := None;
     WebchatHandoffRequest.assigned_agent_id := None; WebchatHandoffRequest.decision_note := None;
     WebchatHandoffRequest.requested_at := now; WebchatHandoffRequest.accepted_at := None;
     WebchatHandoffRequest.released_at := None; WebchatHandoffRequest.closed_at := None;
     WebchatHandoffRequest.expires_at := None; WebchatHandoffRequest.lock_version := 1;
     WebchatHandoffRequest.created_at := now; WebchatHandoffRequest.updated_at := now |}.

Definition asked_again (x : HandoffReason.t) (now : Z) (r : WebchatHandoffRequest.t)
    : WebchatHandoffRequest.t :=
  r <| WebchatHandoffRequest.reason_code ::= fun o => or_text o (HandoffReason.reason_code x) |>
    <| WebchatHandoffRequest.reason_text ::= fun o => or_text o (HandoffReason.reason_text x) |>
    <| WebchatHandoffRequest.recommended_agent_action ::=
         fun o => or_text o (HandoffReason.recommended_agent_action x) |>
    <| WebchatHandoffRequest.trigger_message_id ::=
         fun o => or_id o (HandoffReason.trigger_message_id x) |>
    <| WebchatHandoffRequest.ai_turn_id ::= fun o => or_id o (HandoffReason.ai_turn_id x) |>
    <| WebchatHandoffRequest.updated_at := now |>.

Definition handed_over (rid : Z) (user_id : option Z) (reason : option string) (now : Z)
    (c : WebchatConversation.t) : WebchatConversation.t :=
  c <| WebchatConversation.current_handoff_request_id := Some rid |>
    <| WebchatConversation.handoff_status := "requested" |>
    <| WebchatConversation.active_agent_id := None |>
    <| WebchatConversation.ai_suspended := true |>
    <| WebchatConversation.ai_suspended_at := Some now |>
    <| WebchatConversation.ai_suspended_by := user_id |>
    <| WebchatConversation.ai_suspended_reason := reason |>
    <| WebchatConversation.takeover_mode := None |>
    <| WebchatConversation.last_handoff_reason := reason |>
    <| WebchatConversation.updated_at := now |>.

(** The task that shows the handoff to the operators *)
Definition handoff_task (rid cid : Z) (queue_key : string) (kind : string) : M Desk.t unit :=
  r ← the_row (R := WebchatHandoffRequest.t) rid;
  c ← the_row (R := WebchatConversation.t) cid;
  kid ← _control_for_conversation cid;
  control ← the_row (R := ConversationControl.t) kid;
  made ← create_operator_task sha256_hex
    {| TaskSource.source_type := "webchat"; TaskSource.task_type := "handoff";
       TaskSource.tenant_id := None;
       TaskSource.reason_code := WebchatHandoffRequest.reason_code r;
       TaskSource.source_id := Some (pretty cid);
       TaskSource.projection_schema := "nexus.operator-task-projection.v1";
       TaskSource.ticket_id := WebchatConversation.ticket_id c;
       TaskSource.webchat_conversation_id := Some cid; TaskSource.priority := 100;
       TaskSource.payload := Some (JObj
         [("handoff_request_id", JNum rid);
          ("tenant_key", JStr (ConversationControl.tenant_key control));
          ("country_code", jstr (ConversationControl.country_code control));
          ("channel_key", JStr (ConversationControl.channel_key control));
          ("queue_key", JStr queue_key);
          ("visitor_name", jstr (WebchatConversation.visitor_name c));
          ("channel_kind", JStr kind)]) |};
  set_task (fst (made : Z * bool)) (fun t =>
    t <| OperatorTask.status := "pending" |> <| OperatorTask.assignee_id := None |>).

(** The id of the handoff *)
Definition request_handoff (cid : Z) (x : HandoffReason.t) : M Desk.t Z :=
  c ← the_row (R := WebchatConversation.t) cid;
  s ← get;
  now ← utc_now;
  match open_handoff_of s cid with
  | Some existing =>
      let rid := WebchatHandoffRequest.id existing in
      when (bool_decide (WebchatHandoffRequest.status existing = "requested"))
        (set_row rid (asked_again x now);;
         _ ← ensure_plan rid;
         s ← get;
         match _voice_session_for_conversation s cid with
         | Some v =>
             set_row (WebchatVoiceSession.id v) (fun v =>
               v <| WebchatVoiceSession.handoff_request_id := Some rid |>);;
             _ ← next_offer (WebchatVoiceSession.id v); mret tt
         | None => mret tt
         end);;
      mret rid
  | None =>
      let user_id := HandoffReason.requested_by_user_id x in
      rid ← add_row (new_request cid c x now);
      r ← the_row rid;
      let reason := WebchatHandoffRequest.reason_code r in
      plan ← ensure_plan rid;
      s ← get;
      let voice_session := _voice_session_for_conversation s cid in
      let kind := if not_null voice_session then "voice" else "text" in
      match voice_session with
      | Some v => set_row (WebchatVoiceSession.id v) (fun v =>
          v <| WebchatVoiceSession.handoff_request_id := Some rid |>
            <| WebchatVoiceSession.status := "ringing" |>
            <| WebchatVoiceSession.ringing_at ::= fun o => Some (default now o) |>
            <| WebchatVoiceSession.updated_at := now |>)
      | None => mret tt
      end;;
      set_row cid (handed_over rid user_id reason now);;
      _ ← on_work (cancel_open_ai_turns_for_handoff delivered cid user_id "handoff_requested");
      let queue_key := default "legacy" (HandoffRoutingPlan.owner_queue_key <$> (plan ≫= row_at s)) in
      handoff_task rid cid queue_key kind;;
      _event cid "handoff.requested"
        [("handoff_request_id", JNum rid); ("source", JStr (WebchatHandoffRequest.source r));
         ("trigger_type", JStr (WebchatHandoffRequest.trigger_type r)); ("reason_code", jstr reason);
         ("queue_key", JStr queue_key); ("channel_kind", JStr kind)];;
      log_admin_audit user_id "webchat_handoff.requested" "webchat_handoff_request" (Some rid) None
        (Some (JObj [("conversation_id", JNum cid);
                     ("ticket_id", jid (WebchatConversation.ticket_id c)); ("reason", jstr reason);
                     ("queue_key", JStr queue_key); ("channel_kind", JStr kind)]));;
      s ← get;
      match voice_session with
      | Some v => _ ← next_offer (WebchatVoiceSession.id v); mret tt
      | None =>
          match control_of (Desk.work s) cid with
          | Some control =>
              _auto_assign_text_request rid cid control
          | None => mret tt
          end
      end;;
      mret rid
  end.

(** ** Closure *)

Definition closed_answer (c : WebchatConversation.t) (outcome : json) (more : list (string * json))
    : json :=
  JObj ([("conversation_id", JStr (WebchatConversation.public_id c));
         ("status", JStr (WebchatConversation.status c)); ("outcome", outcome)] ++ more).

Definition closed_conversation (now : Z) (c : WebchatConversation.t) : WebchatConversation.t :=
  c <| WebchatConversation.status := "closed" |>
    <| WebchatConversation.current_handoff_request_id := None |>
    <| WebchatConversation.handoff_status := "closed" |>
    <| WebchatConversation.active_agent_id := None |>
    <| WebchatConversation.ai_suspended := true |>
    <| WebchatConversation.ai_suspended_reason := Some "conversation_closed" |>
    <| WebchatConversation.takeover_mode := None |>
    <| WebchatConversation.updated_at := now |>.

(** The open handoff of the conversation ends, and its offers. *)
Definition close_current_request (c : WebchatConversation.t) (note : option string) (now : Z)
    : M Desk.t unit :=
  s ← get;
  match (if truthy_id (WebchatConversation.current_handoff_request_id c)
         then WebchatConversation.current_handoff_request_id c ≫= row_at s else None) with
  | Some r =>
      when (bool_decide (WebchatHandoffRequest.status r ∈ ["requested"; "accepted"]))
        (set_row (WebchatHandoffRequest.id r) (closed_request (clipped 1000 note) now);;
         update_where (fun o =>
           (VoiceRoutingOffer.handoff_request_id o =? WebchatHandoffRequest.id r) && offered o)
           (cancelled_offer now))
  | None => mret tt
  end.

Definition core_close_conversation (cid : Z) (user : User.t) (outcome : string) (note : option string)
    : M Desk.t json :=
  let normalized := py_lower (py_strip outcome) in
  let user_id := User.id user in
  require (bool_decide (normalized ∈ CONVERSATION_OUTCOMES))
    (HTTPException 400 "invalid_conversation_outcome");;
  kid ← _control_for_conversation cid;
  control ← the_row kid;
  s ← get;
  require (core_scope_grant_exists s user control) (HTTPException 403 "agent_scope_not_authorized");;
  c ← the_row cid;
  if negb (bool_decide (WebchatConversation.status c = "open"))
  then mret (closed_answer c (jstr (ConversationControl.outcome control)) [("idempotent", JBool true)])
  else
    require (negb (not_null (WebchatConversation.active_agent_id c)) ||
             bool_decide (WebchatConversation.active_agent_id c = Some user_id) ||
             has_global_case_visibility user (Some (core s)))
      (HTTPException 403 "conversation_owned_by_another_agent");;
    now ← utc_now;
    close_current_request c note now;;
    let previous_agent_id := WebchatConversation.active_agent_id c in
    set_row cid (closed_conversation now);;
    set_row kid (fun k => k <| ConversationControl.outcome := Some normalized |>
      <| ConversationControl.closed_at := Some now |>
      <| ConversationControl.closed_by_user_id := Some user_id |>
      <| ConversationControl.closure_note := clipped 2000 note |>
      <| ConversationControl.updated_at := now |>);;
    on_task cid (fun t => t <| OperatorTask.status := "resolved" |>
      <| OperatorTask.resolved_at := Some now |> <| OperatorTask.updated_at := now |>);;
    _event cid "conversation.closed" [("outcome", JStr normalized); ("actor_id", JNum user_id)];;
    log_admin_audit (Some user_id) "conversation.closed" "webchat_conversation" (Some cid) None
      (Some (JObj [("outcome", JStr normalized);
                   ("ticket_id", jid (WebchatConversation.ticket_id c))]));;
    s ← get;
    match previous_agent_id ≫= user_at s with
    | Some previous_agent =>
        _ ← fill_agent_capacity set_order (core_router delivered) previous_agent; mret tt
    | None => mret tt
    end;;
    c ← the_row cid;
    mret (closed_answer c (JStr normalized) [("ticket_id", jid (WebchatConversation.ticket_id c))]).

Definition close_conversation (cid : Z) (user : User.t) (outcome : string) (note : option string)
    : M Desk.t json :=
  kid ← _control_for_conversation cid;
  control ← the_row kid;
  allowed ← _scope_grant_exists user control;
  require allowed (HTTPException 403 "agent_scope_not_authorized");;
  c ← the_row (R := WebchatConversation.t) cid;
  answer ← core_close_conversation cid user outcome note;
  match WebchatConversation.current_handoff_request_id c with
  | Some rid => close_routing_plan rid ("conversation_" +:+ outcome)
  | None => mret tt
  end;;
  mret answer.
End Service.
