(* ===== verification/DeskRules.v ===== *)
(** * Rules of the agent desk

    The constraints of the tables of Desk.v ([desk_ok]: values, stamps, unique indexes),
    and that every function of the routing keeps them. *)

From S2P Require Import Prelude Calendar Enums Models Permissions Tenancy Work JobScope.
From S2P Require Import AiTurns Desk Plans Tasks Routing RoutingService.

(** ** Constraints of a table

    [index] is a partial unique index: rows with [None] are outside it.  [life] relates a row
    to what may become of it. *)

Definition Key : Type := Z * Z * Z * string.

Class Constrained (R : Type) := {
  row_id : R → Z; row_ok : R → Prop; index : R → option Key;
  life : R → R → Prop; #[global] life_order :: PreOrder life }.

Record table_good {R} `{Constrained R} (T0 T : Table R) : Prop := {
  good_rows i r : trows T !! i = Some r →
    row_id r = i ∧ i < tnext T ∧ row_ok r ∧
    (∀ j r' k, trows T !! j = Some r' → index r = Some k → index r' = Some k → j = i);
  good_life i r0 : trows T0 !! i = Some r0 → ∃ r, trows T !! i = Some r ∧ life r0 r }.

Section Good.
Context {R : Type} `{Constrained R}.
Implicit Types (T : Table R).

Lemma good_put T0 T i f r :
  table_good T0 T → trows T !! i = Some r → row_id (f r) = row_id r → row_ok (f r) →
  (index (f r) = None ∨ index (f r) = index r) → life r (f r) →
  table_good T0 (table_put i (f r) T).
Proof.
  intros [HT HL] Hi Hid Hok Hx Hl. split.
  - intros j r'. rewrite lookup_table_put.
    change (tnext (table_put i (f r) T)) with (tnext T).
    destruct (HT i r Hi) as (Ei & Hlt & _ & Hu).
    case_decide as E.
    + intros [= <-]. subst j. split; [by rewrite Hid|]. split; [done|]. split; [done|].
      intros j' r' k. rewrite lookup_table_put. case_decide as E'; [done|].
      intros Hj Hk Hk'. destruct Hx as [Hx|Hx]; [congruence|]. rewrite Hx in Hk. by eapply Hu.
    + intros Hj. destruct (HT j r' Hj) as (Ej & Hltj & Hokj & Huj). do 3 (split; [done|]).
      intros j' r'' k. rewrite lookup_table_put. case_decide as E'; [|by apply Huj].
      intros [= <-] Hk Hk'. subst j'. destruct Hx as [Hx|Hx]; [congruence|].
      rewrite Hx in Hk'. by eapply Huj.
  - intros j r0 Hj. destruct (HL j r0 Hj) as (r' & Hr & Hl'). rewrite lookup_table_put.
    case_decide as E; [subst j|by exists r']. exists (f r). split; [done|]. rewrite Hi in Hr.
    injection Hr as <-. by etrans.
Qed.

Lemma good_add T0 T mk :
  table_good T0 T → (∀ i, row_id (mk i) = i) → (∀ i, row_ok (mk i)) →
  (∀ j r k, trows T !! j = Some r → index (mk (tnext T)) = Some k → index r ≠ Some k) →
  table_good T0 (table_add T mk).
Proof.
  intros [HT HL] Hid Hok Hx. split.
  - intros i r. rewrite lookup_table_add.
    change (tnext (table_add T mk)) with (Z.succ (tnext T)). case_decide as E.
    + intros [= <-]. subst i. split; [apply Hid|]. split; [lia|]. split; [apply Hok|].
      intros j r' k. rewrite lookup_table_add. case_decide; [done|]. intros Hj Hk Hk'.
      by destruct (Hx j r' k Hj Hk).
    + intros Hi. destruct (HT i r Hi) as (Ei & Hlt & Hr & Hu). split; [done|]. split; [lia|].
      split; [done|]. intros j r' k. rewrite lookup_table_add. case_decide as E'; [|by apply Hu].
      intros [= <-] Hk Hk'. by destruct (Hx i r k Hi Hk').
  - intros i r0 Hi. destruct (HL i r0 Hi) as (r & Hr & Hl). exists r. split; [|done].
    rewrite lookup_table_add. case_decide as E; [|done]. destruct (HT i r Hr) as (_ & Hlt & _). lia.
Qed.

Lemma good_update T0 T p f :
  table_good T0 T → (∀ r, row_id (f r) = row_id r) →
  (∀ r, p r = true → row_ok r → row_ok (f r)) →
  (∀ r, p r = true → index (f r) = None ∨ index (f r) = index r) →
  (∀ r, p r = true → life r (f r)) →
  table_good T0 {| trows := (fun r => if p r then f r else r) <$> trows T; tnext := tnext T |}.
Proof.
  intros [HT HL] Hid Hok Hx Hl.
  assert (∀ r k, index (if p r then f r else r) = Some k → index r = Some k) as Hi.
  { intros r k. destruct (p r) eqn:E; [|done]. destruct (Hx r E) as [->| ->]; [done|done]. }
  split.
  - intros i r'. cbn [trows tnext]. rewrite lookup_fmap. destruct (trows T !! i) as [r|] eqn:E; [|done].
    intros [= <-]. destruct (HT i r E) as (Ei & Hlt & Hr & Hu).
    split; [by destruct (p r); rewrite ?Hid|]. split; [done|].
    split; [destruct (p r) eqn:Ep; [by apply Hok|done]|].
    intros j r2 k. rewrite lookup_fmap. destruct (trows T !! j) as [r1|] eqn:E1; [|done].
    intros [= <-] Hk%Hi Hk'%Hi. by eapply Hu.
  - intros i r0 H0. destruct (HL i r0 H0) as (r & Hr & Hlr). cbn [trows]. rewrite lookup_fmap, Hr.
    eexists. split; [done|]. destruct (p r) eqn:Ep; [|done]. etrans; [exact Hlr|by apply Hl].
Qed.
End Good.

(** ** The constraints *)

(** Rows that agree on what never changes *)
Definition same_as {A B} (f : A → B) (a b : A) : Prop := f b = f a.
#[export] Instance same_as_order {A B} (f : A → B) : PreOrder (same_as f).
Proof. split; [done|]. unfold same_as. intros a b c H1 H2. by rewrite H2. Qed.

Definition agent_ok (a : OperatorAgentState.t) : Prop :=
  OperatorAgentState.status a ∈ PRESENCE_STATUSES ∧
  1 ≤ OperatorAgentState.max_concurrent_conversations a ≤ MAX_AGENT_CAPACITY ∧
  1 ≤ OperatorAgentState.max_concurrent_voice_calls a ≤ MAX_VOICE_CAPACITY ∧
  0 ≤ OperatorAgentState.voice_wrap_up_seconds a ≤ MAX_VOICE_WRAP_UP_SECONDS ∧
  (OperatorAgentState.status a = "offline" → OperatorAgentState.last_heartbeat_at a = None).

#[export] Instance agent_rule : Constrained OperatorAgentState.t := {|
  row_id := OperatorAgentState.id; row_ok := agent_ok;
  index a := Some (OperatorAgentState.user_id a, 0, 0, EmptyString);
  life a b := same_as OperatorAgentState.user_id a b |}.

Definition open_request (r : WebchatHandoffRequest.t) : bool :=
  bool_decide (WebchatHandoffRequest.status r ∈ ["requested"; "accepted"]).

Definition request_ok (r : WebchatHandoffRequest.t) : Prop :=
  (WebchatHandoffRequest.status r = "requested" →
     WebchatHandoffRequest.assigned_agent_id r = None ∧
     WebchatHandoffRequest.closed_at r = None) ∧
  (WebchatHandoffRequest.status r = "accepted" →
     (∃ u, WebchatHandoffRequest.assigned_agent_id r = Some u ∧
           WebchatHandoffRequest.accepted_by_user_id r = Some u) ∧
     is_Some (WebchatHandoffRequest.accepted_at r) ∧ WebchatHandoffRequest.closed_at r = None) ∧
  (WebchatHandoffRequest.status r = "closed" → is_Some (WebchatHandoffRequest.closed_at r)).

(** A handoff waits, is with an agent, is over. *)
Definition phase (r : WebchatHandoffRequest.t) : Z :=
  if bool_decide (WebchatHandoffRequest.status r = "requested") then 0
  else if bool_decide (WebchatHandoffRequest.status r = "accepted") then 1 else 2.

Record request_life (r r' : WebchatHandoffRequest.t) : Prop := {
  rl_same : same_as (fun r => (WebchatHandoffRequest.conversation_id r,
    WebchatHandoffRequest.ticket_id r, WebchatHandoffRequest.source r,
    WebchatHandoffRequest.requested_at r)) r r';
  rl_phase : phase r ≤ phase r';
  rl_version : WebchatHandoffRequest.lock_version r ≤ WebchatHandoffRequest.lock_version r';
  rl_agent u : WebchatHandoffRequest.assigned_agent_id r = Some u → 1 ≤ phase r →
    WebchatHandoffRequest.assigned_agent_id r' = Some u }.

#[export] Instance request_life_order : PreOrder request_life.
Proof.
  split.
  - intros r. split; [done|lia|lia|done].
  - intros r1 r2 r3 [A1 A2 A3 A4] [B1 B2 B3 B4]. split; [by etrans|lia|lia|].
    intros u Hu Hp. apply B4; [by apply A4|lia].
Qed.

#[export] Instance request_rule : Constrained WebchatHandoffRequest.t := {|
  row_id := WebchatHandoffRequest.id; row_ok := request_ok; life := request_life;
  index r := if open_request r then Some (WebchatHandoffRequest.conversation_id r, 0, 0, EmptyString)
             else None |}.

Definition PLAN_STATUSES : list string :=
  ["active"; "retry_scheduled"; "assigned"; "exhausted"; "closed"].

Definition plan_ok (p : HandoffRoutingPlan.t) : Prop :=
  HandoffRoutingPlan.status p ∈ PLAN_STATUSES ∧
  1 ≤ HandoffRoutingPlan.current_generation p ≤ HandoffRoutingPlan.max_generations p ∧
  HandoffRoutingPlan.max_generations p ≤ DEFAULT_MAX_GENERATIONS ∧
  (HandoffRoutingPlan.status p = "retry_scheduled" ↔ is_Some (HandoffRoutingPlan.next_retry_at p)) ∧
  (HandoffRoutingPlan.status p = "assigned" → is_Some (HandoffRoutingPlan.assigned_agent_id p)) ∧
  (HandoffRoutingPlan.status p = "exhausted" → is_Some (HandoffRoutingPlan.exhausted_at p)).

Definition plan_exhausted (a t : Z) (p : HandoffRoutingPlan.t) : HandoffRoutingPlan.t :=
  p <| HandoffRoutingPlan.status := "exhausted" |>
    <| HandoffRoutingPlan.outcome_code := Some "candidate_exhausted" |>
    <| HandoffRoutingPlan.exhausted_at := Some a |> <| HandoffRoutingPlan.next_retry_at := None |>
    <| HandoffRoutingPlan.updated_at := t |>.

(** What may happen to a plan *)
Inductive plan_step (p : HandoffRoutingPlan.t) : HandoffRoutingPlan.t → Prop :=
| plan_again due now t :
    HandoffRoutingPlan.status p = "retry_scheduled" →
    HandoffRoutingPlan.next_retry_at p = Some due → due ≤ now →
    HandoffRoutingPlan.current_generation p < HandoffRoutingPlan.max_generations p →
    plan_step p (p <| HandoffRoutingPlan.current_generation ::= Z.succ |>
      <| HandoffRoutingPlan.status := "active" |> <| HandoffRoutingPlan.outcome_code := None |>
      <| HandoffRoutingPlan.next_retry_at := None |> <| HandoffRoutingPlan.updated_at := t |>)
| plan_given_up a t :
    HandoffRoutingPlan.status p ∈ ["active"; "retry_scheduled"] →
    HandoffRoutingPlan.max_generations p ≤ HandoffRoutingPlan.current_generation p →
    plan_step p (plan_exhausted a t p)
| plan_retried now reason t :
    HandoffRoutingPlan.status p ∈ ["active"; "retry_scheduled"] →
    HandoffRoutingPlan.current_generation p < HandoffRoutingPlan.max_generations p →
    plan_step p (p <| HandoffRoutingPlan.status := "retry_scheduled" |>
      <| HandoffRoutingPlan.outcome_code := Some reason |>
      <| HandoffRoutingPlan.next_retry_at :=
           Some (now + seconds (backoff_seconds (HandoffRoutingPlan.current_generation p))) |>
      <| HandoffRoutingPlan.updated_at := t |>)
| plan_taken u t :
    plan_step p (p <| HandoffRoutingPlan.status := "assigned" |>
      <| HandoffRoutingPlan.assigned_agent_id := Some u |>
      <| HandoffRoutingPlan.outcome_code := Some "assigned" |>
      <| HandoffRoutingPlan.next_retry_at := None |> <| HandoffRoutingPlan.updated_at := t |>)
| plan_ended outcome t :
    plan_step p (p <| HandoffRoutingPlan.status := "closed" |>
      <| HandoffRoutingPlan.outcome_code := Some outcome |>
      <| HandoffRoutingPlan.next_retry_at := None |> <| HandoffRoutingPlan.updated_at := t |>).

#[export] Instance plan_rule : Constrained HandoffRoutingPlan.t := {|
  row_id := HandoffRoutingPlan.id; row_ok := plan_ok; life := rtc plan_step;
  index p := Some (HandoffRoutingPlan.request_id p, 0, 0, EmptyString) |}.

#[export] Instance attempt_rule : Constrained HandoffRoutingCandidateAttempt.t := {|
  row_id := HandoffRoutingCandidateAttempt.id; row_ok _ := True;
  life := same_as (fun a => (HandoffRoutingCandidateAttempt.plan_id a,
    HandoffRoutingCandidateAttempt.request_id a, HandoffRoutingCandidateAttempt.generation a,
    HandoffRoutingCandidateAttempt.agent_id a, HandoffRoutingCandidateAttempt.channel_kind a));
  index a := Some (HandoffRoutingCandidateAttempt.plan_id a,
                   HandoffRoutingCandidateAttempt.generation a,
                   HandoffRoutingCandidateAttempt.agent_id a,
                   HandoffRoutingCandidateAttempt.channel_kind a) |}.

Definition offer_ok (o : VoiceRoutingOffer.t) : Prop :=
  VoiceRoutingOffer.offered_at o < VoiceRoutingOffer.expires_at o ∧
  (VoiceRoutingOffer.status o = "accepted" → is_Some (VoiceRoutingOffer.accepted_at o)) ∧
  (VoiceRoutingOffer.status o = "declined" → is_Some (VoiceRoutingOffer.declined_at o)) ∧
  (VoiceRoutingOffer.status o = "expired" → is_Some (VoiceRoutingOffer.expired_at o)) ∧
  (VoiceRoutingOffer.status o = "cancelled" → is_Some (VoiceRoutingOffer.cancelled_at o)).

(** An offer that has ended does not ring again. *)
Record offer_life (o o' : VoiceRoutingOffer.t) : Prop := {
  ol_same : same_as (fun o => (VoiceRoutingOffer.public_id o, VoiceRoutingOffer.voice_session_id o,
    VoiceRoutingOffer.handoff_request_id o, VoiceRoutingOffer.agent_id o,
    VoiceRoutingOffer.sequence o, VoiceRoutingOffer.expires_at o)) o o';
  ol_ended : offered o' = true → offered o = true }.
#[export] Instance offer_life_order : PreOrder offer_life.
Proof.
  split; [by split|]. intros o1 o2 o3 [A1 A2] [B1 B2]. split; [by etrans|]. auto.
Qed.

#[export] Instance offer_rule : Constrained VoiceRoutingOffer.t := {|
  row_id := VoiceRoutingOffer.id; row_ok := offer_ok; life := offer_life;
  index o := if offered o then Some (VoiceRoutingOffer.voice_session_id o, 0, 0, EmptyString)
             else None |}.

#[export] Instance session_rule : Constrained WebchatVoiceSession.t := {|
  row_id := WebchatVoiceSession.id; row_ok _ := True; index _ := None;
  life := same_as (fun v => (WebchatVoiceSession.public_id v, WebchatVoiceSession.conversation_id v)) |}.

(** The constraints hold in [s], and the rows of [s0] have lived on. *)
Record desk_ok (s0 s : Desk.t) : Prop := {
  agents_good : table_good (Desk.agents s0) (Desk.agents s);
  requests_good : table_good (Desk.requests s0) (Desk.requests s);
  plans_good : table_good (Desk.plans s0) (Desk.plans s);
  attempts_good : table_good (Desk.attempts s0) (Desk.attempts s);
  offers_good : table_good (Desk.offers s0) (Desk.offers s);
  sessions_good : table_good (Desk.sessions s0) (Desk.sessions s) }.

(** The rows of a constrained class are good in a good state, and may be replaced by good
    ones. *)
Class Ruled (R : Type) `{Stored R} `{Constrained R} := {
  ruled_good s0 s : desk_ok s0 s → table_good (rows_of s0) (rows_of s);
  ruled_put s0 f s : desk_ok s0 s → table_good (rows_of s0) (f (rows_of s)) →
    desk_ok s0 (on_rows f s) }.

Ltac ruled := split; [by intros s0 s []|intros s0 f s [] ?; by split].
#[export] Instance ruled_agent : Ruled OperatorAgentState.t. Proof. ruled. Qed.
#[export] Instance ruled_request : Ruled WebchatHandoffRequest.t. Proof. ruled. Qed.
#[export] Instance ruled_plan : Ruled HandoffRoutingPlan.t. Proof. ruled. Qed.
#[export] Instance ruled_attempt : Ruled HandoffRoutingCandidateAttempt.t. Proof. ruled. Qed.
#[export] Instance ruled_offer : Ruled VoiceRoutingOffer.t. Proof. ruled. Qed.
#[export] Instance ruled_session : Ruled WebchatVoiceSession.t. Proof. ruled. Qed.

(** Rows that the constraints do not speak of *)
Class Unruled (R : Type) `{Stored R} := {
  unruled_put s0 f s : desk_ok s0 s → desk_ok s0 (on_rows f s) }.
Ltac unruled := split; intros s0 f s []; by split.
#[export] Instance unruled_leg : Unruled WebchatVoiceParticipant.t. Proof. unruled. Qed.
#[export] Instance unruled_decision : Unruled WebchatHandoffDecision.t. Proof. unruled. Qed.
#[export] Instance unruled_task : Unruled OperatorTask.t. Proof. unruled. Qed.
#[export] Instance unruled_conversation : Unruled WebchatConversation.t. Proof. unruled. Qed.
#[export] Instance unruled_control : Unruled ConversationControl.t. Proof. unruled. Qed.
#[export] Instance unruled_ticket : Unruled Ticket.t. Proof. unruled. Qed.

(** ** The steps keep the constraints *)

Section Steps.
Context {R : Type} `{HS : Stored R}.

Lemma ok_set `{HC : Constrained R} `{!Ruled R} s0 i f :
  (∀ r, row_id r = i → row_ok r → row_id (f r) = row_id r ∧ row_ok (f r) ∧
        (index (f r) = None ∨ index (f r) = index r) ∧ life r (f r)) →
  preserves (desk_ok s0) (set_row i f).
Proof.
  intros Hf s Hs. unfold set_row, modify, upd_row, row_at. cbn [snd].
  destruct (table_get (rows_of s) i) as [r|] eqn:E; [|done].
  pose proof (ruled_good s0 s Hs) as HT. destruct (good_rows _ _ HT i r E) as (Hi & _ & Hok & _).
  destruct (Hf r Hi Hok) as (? & ? & ? & ?). apply ruled_put; [done|]. by apply good_put.
Qed.

Lemma ok_update `{HC : Constrained R} `{!Ruled R} s0 p f :
  (∀ r, row_id (f r) = row_id r) → (∀ r, p r = true → row_ok r → row_ok (f r)) →
  (∀ r, p r = true → index (f r) = None ∨ index (f r) = index r) →
  (∀ r, p r = true → life r (f r)) →
  preserves (desk_ok s0) (update_where p f).
Proof.
  intros H1 H2 H3 H4 s Hs. unfold update_where, modify. cbn [snd].
  apply ruled_put; [done|]. apply good_update; [|done..]. by apply ruled_good.
Qed.

Lemma ok_add_at `{HC : Constrained R} `{!Ruled R} s0 mk s :
  desk_ok s0 s → (∀ i, row_id (mk i) = i) → (∀ i, row_ok (mk i)) →
  (∀ j r k, trows (rows_of s) !! j = Some r → index (mk (tnext (rows_of s))) = Some k →
            index r ≠ Some k) →
  desk_ok s0 (snd (add_row mk s)).
Proof.
  intros Hs H1 H2 H3. unfold add_row. cbn [snd]. apply ruled_put; [done|].
  apply good_add; [|done..]. by apply ruled_good.
Qed.

Lemma ok_set_other `{!Unruled R} s0 i f : preserves (desk_ok s0) (set_row i f).
Proof.
  intros s Hs. unfold set_row, modify, upd_row. cbn [snd].
  destruct (row_at s i); [by apply unruled_put|done].
Qed.
Lemma ok_add_other `{!Unruled R} s0 mk : preserves (desk_ok s0) (add_row mk).
Proof. intros s Hs. by apply unruled_put. Qed.

Lemma ok_the_row s0 i : preserves (desk_ok s0) (the_row (R := R) i).
Proof. intros s Hs. unfold the_row. by destruct (row_at s i). Qed.
End Steps.

Lemma ok_work s0 s f : desk_ok s0 s → desk_ok s0 (s <| Desk.work ::= f |>).
Proof. intros []. by split. Qed.
Lemma ok_on_work s0 {A} (m : M Work.t A) : preserves (desk_ok s0) (on_work m).
Proof.
  intros s Hs. unfold on_work. destruct (m (Desk.work s)) as [r w]. cbn [snd].
  exact (ok_work s0 s (fun _ => w) Hs).
Qed.
Lemma ok_now s0 : preserves (desk_ok s0) utc_now. Proof. apply ok_on_work. Qed.
Lemma ok_token s0 : preserves (desk_ok s0) token_urlsafe. Proof. intros s Hs. by apply ok_work. Qed.

#[export] Hint Resolve ok_the_row ok_on_work ok_now ok_token : nexus.
#[export] Hint Extern 2 (preserves (desk_ok _) (set_row _ _)) => solve [apply ok_set_other] : nexus.
#[export] Hint Extern 2 (preserves (desk_ok _) (add_row _)) => solve [apply ok_add_other] : nexus.

Lemma ok_event s0 cid t p : preserves (desk_ok s0) (_event cid t p).
Proof. unfold _event. preserve. Qed.
Lemma ok_audit s0 a b c d e f : preserves (desk_ok s0) (log_admin_audit a b c d e f).
Proof.
  unfold log_admin_audit. apply preserves_bind; [apply ok_now|intros now].
  apply preserves_modify. intros s []. by split.
Qed.
#[export] Hint Resolve ok_event ok_audit : nexus.

Lemma ok_filterM s0 {A} (f : A → M Desk.t bool) l :
  (∀ a, preserves (desk_ok s0) (f a)) → preserves (desk_ok s0) (filterM f l).
Proof.
  intros Hf. induction l as [|a l IH]; simpl; [apply preserves_ret|].
  apply preserves_bind; [apply Hf|intros keep]. apply preserves_bind; [exact IH|intros rest].
  apply preserves_ret.
Qed.

(** ** Plans *)

(** A reading of the clock leaves every table as it is. *)
Definition ticked (s : Desk.t) : Desk.t :=
  s <| Desk.work ::= fun w => w <| Work.core ::= fun d => d <| Db.ticks ::= S |> |> |>.
Lemma utc_now_run s : utc_now s = (Ok (Db.clock (core s) (Db.ticks (core s))), ticked s).
Proof. done. Qed.

Lemma now_bind {A} (k : Z → M Desk.t A) s :
  (utc_now ≫= k) s = k (Db.clock (core s) (Db.ticks (core s))) (ticked s).
Proof. done. Qed.

Lemma get_bind {A} (k : Desk.t → M Desk.t A) s : (get ≫= k) s = k s s.
Proof. done. Qed.

Lemma lift_bind {A B} (r : result A) (k : A → M Desk.t B) s :
  (lift r ≫= k) s = match r with Ok a => k a s | Err e => (Err e, s) end.
Proof. by destruct r. Qed.

Lemma token_bind {A} (k : string → M Desk.t A) s :
  (token_urlsafe ≫= k) s = k (Desk.token_urlsafe s (Db.ticks (core s))) (ticked s).
Proof. done. Qed.

Lemma row_bind `{Stored R} {A} i (k : R → M Desk.t A) s :
  (the_row i ≫= k) s =
  match row_at s i with Some r => k r s | None => (Err (RuntimeError "ObjectDeletedError"), s) end.
Proof. unfold the_row, mbind, M_bind. by destruct (row_at s i). Qed.

Lemma set_bind `{Stored R} {A} i f (m : M Desk.t A) s :
  (set_row i f;; m) s = m (upd_row i f s).
Proof. done. Qed.

Lemma ok_ticked s0 s : desk_ok s0 s → desk_ok s0 (ticked s).
Proof. intros []. by split. Qed.

Lemma ok_set_at `{HS : Stored R} `{HC : Constrained R} `{!Ruled R} s0 s i r f :
  desk_ok s0 s → row_at s i = Some r → row_id (f r) = row_id r → row_ok (f r) →
  (index (f r) = None ∨ index (f r) = index r) → life r (f r) → desk_ok s0 (upd_row i f s).
Proof.
  intros Hs Hr H1 H2 H3 H4. unfold upd_row. rewrite Hr. apply ruled_put; [done|].
  apply good_put; [by apply ruled_good|done..].
Qed.

Lemma good_row `{HS : Stored R} `{HC : Constrained R} `{!Ruled R} s0 s i r :
  desk_ok s0 s → row_at s i = Some r → row_id r = i ∧ row_ok r.
Proof. intros Hs Hr. destruct (good_rows _ _ (ruled_good s0 s Hs) i r Hr) as (? & _ & ? & _). done. Qed.

(** Compute the fields of updated rows. *)
Ltac fields := unfold alter_field; cbn.
(** Membership in a list of constants *)
Ltac decided := apply (bool_decide_unpack _); exact I.

Lemma plan_step_ok p p' : plan_ok p → plan_step p p' → plan_ok p'.
Proof.
  intros (Hst & Hgen & Hmax & Hnext & Hass & Hexh) [];
    try match goal with |- context [Some (?n + seconds ?b)] => generalize (n + seconds b); intros due end;
    unfold plan_exhausted; fields; unfold plan_ok; fields;
    (split; [decided|]); (split; [lia|]); (split; [done|]).
  - split; [split; [done|by intros []]|done].
  - split; [split; [done|by intros []]|]. split; [done|]. intros _. by eexists.
  - split; [split; [by intros _; eexists|done]|done].
  - split; [split; [done|by intros []]|]. split; [by intros _; eexists|done].
  - split; [split; [done|by intros []]|done].
Qed.

Lemma plan_step_key p p' : plan_step p p' → row_id p' = row_id p ∧ index p' = index p.
Proof. by intros []. Qed.

Lemma ok_plan s0 s i p f :
  desk_ok s0 s → row_at s i = Some p → plan_step p (f p) → desk_ok s0 (upd_row i f s).
Proof.
  intros Hs Hp Hf. destruct (plan_step_key _ _ Hf) as [Hid Hx].
  destruct (good_row s0 _ _ _ Hs Hp) as [_ Hok].
  apply (ok_set_at s0 s i p); [exact Hs|exact Hp|exact Hid|by eapply plan_step_ok|by right|].
  by apply rtc_once.
Qed.
Lemma ok_plan_set s0 i f : (∀ p, plan_step p (f p)) → preserves (desk_ok s0) (set_row i f).
Proof.
  intros Hf s Hs. unfold set_row, modify. cbn [snd].
  destruct (row_at (R := HandoffRoutingPlan.t) s i) as [p|] eqn:Hp;
    [exact (ok_plan s0 s i p f Hs Hp (Hf p))|]. unfold upd_row. by rewrite Hp.
Qed.

Lemma ok_activate s0 plan : preserves (desk_ok s0) (activate_due_generation plan).
Proof.
  intros s Hs. unfold activate_due_generation. rewrite row_bind.
  destruct (row_at s plan) as [p|] eqn:Hp; [|done].
  destruct (bool_decide_reflect (HandoffRoutingPlan.status p = "retry_scheduled")) as [Hst|]; [|done].
  cbn [negb]. rewrite now_bind.
  destruct (HandoffRoutingPlan.next_retry_at p) as [due|] eqn:Hdue; [|by apply ok_ticked].
  destruct (Z.ltb_spec (Db.clock (core s) (Db.ticks (core s))) due) as [|Hnow]; [by apply ok_ticked|].
  destruct (Z.leb_spec (HandoffRoutingPlan.max_generations p) (HandoffRoutingPlan.current_generation p));
    rewrite !now_bind; unfold set_row, modify; cbn [mbind M_bind snd mret M_ret];
    (eapply ok_plan; [by repeat apply ok_ticked|exact Hp|]).
  - apply plan_given_up; [|done]. rewrite Hst. decided.
  - by eapply plan_again.
Qed.
#[export] Hint Resolve ok_activate : nexus.

Lemma ok_candidate s0 plan c user kind b : preserves (desk_ok s0) (candidate_is_authorized plan c user kind b).
Proof. unfold candidate_is_authorized. preserve. Qed.
#[export] Hint Resolve ok_candidate : nexus.

Lemma ok_fresh s0 st : preserves (desk_ok s0) (_heartbeat_fresh st).
Proof. unfold _heartbeat_fresh. preserve. Qed.
Lemma ok_heartbeat s0 st : preserves (desk_ok s0) (heartbeat_is_fresh st).
Proof. unfold heartbeat_is_fresh. preserve. Qed.
#[export] Hint Resolve ok_fresh ok_heartbeat : nexus.

Lemma ok_eligible s0 plan c kind b : preserves (desk_ok s0) (eligible_agents plan c kind b).
Proof.
  unfold eligible_agents. apply preserves_bind; [apply preserves_get|intros s].
  apply ok_filterM. intros x. preserve.
Qed.
#[export] Hint Resolve ok_eligible : nexus.

Lemma open_plan p : plan_ok p →
  bool_decide (HandoffRoutingPlan.status p ∈ ["assigned"; "closed"; "exhausted"]) = false →
  HandoffRoutingPlan.status p ∈ ["active"; "retry_scheduled"].
Proof. intros [Hst _] H%bool_decide_eq_false. unfold PLAN_STATUSES in Hst.
  rewrite !elem_of_cons in *. tauto.
Qed.

Lemma ok_schedule s0 plan reason : preserves (desk_ok s0) (schedule_retry_or_exhaust plan reason).
Proof.
  destruct plan as [plan|]; [|apply preserves_ret]. intros s Hs. unfold schedule_retry_or_exhaust.
  rewrite row_bind. destruct (row_at s plan) as [p|] eqn:Hp; [|done].
  destruct (good_row s0 _ _ _ Hs Hp) as [_ Hok]. case_match eqn:Hst; [done|].
  pose proof (open_plan p Hok Hst) as Hopen.
  destruct (Z.leb_spec (HandoffRoutingPlan.max_generations p) (HandoffRoutingPlan.current_generation p));
    rewrite !now_bind; unfold set_row, modify; cbn [mbind M_bind snd mret M_ret];
    (eapply ok_plan; [by repeat apply ok_ticked|exact Hp|]).
  - by apply plan_given_up.
  - by apply plan_retried.
Qed.
Lemma ok_assigned s0 plan agent : preserves (desk_ok s0) (mark_plan_assigned plan agent).
Proof.
  unfold mark_plan_assigned. preserve. apply ok_plan_set. intros p. apply plan_taken.
Qed.
Lemma ok_close_plan s0 rid outcome : preserves (desk_ok s0) (close_routing_plan rid outcome).
Proof.
  unfold close_routing_plan. preserve. apply ok_plan_set. intros p. apply plan_ended.
Qed.
#[export] Hint Resolve ok_schedule ok_assigned ok_close_plan : nexus.

(** The assignment changes columns without constraints. *)
Ltac kept_row := intros ? _ ?; split; [done|split; [done|split; [by right|done]]].

Lemma ok_update_attempt s0 ref outcome reason :
  preserves (desk_ok s0) (update_attempt_by_external_ref ref outcome reason).
Proof. unfold update_attempt_by_external_ref. preserve. apply ok_set. kept_row. Qed.
#[export] Hint Resolve ok_update_attempt : nexus.

Lemma ok_record s0 plan rid agent kind outcome reason ref :
  preserves (desk_ok s0) (record_candidate_attempt plan rid agent kind outcome reason ref).
Proof.
  destruct plan as [plan|]; [|by intros s]. intros s Hs. unfold record_candidate_attempt.
  rewrite row_bind. destruct (row_at s plan) as [p|]; [|done].
  rewrite get_bind.
  destruct (first_where _ s) as [row|] eqn:E.
  - match goal with |- desk_ok s0 (snd (?m s)) => assert (preserves (desk_ok s0) m) as Hm end.
    { preserve. apply ok_set. kept_row. }
    by apply Hm.
  - rewrite !now_bind. cbn [mbind M_bind mret M_ret snd fst].
    set (s2 := ticked (ticked s)). assert (desk_ok s0 s2) as Hs2 by by apply ok_ticked, ok_ticked.
    match goal with |- context [add_row ?mk] => pose proof (ok_add_at s0 mk s2 Hs2) as Hadd end.
    unfold add_row in *. cbn [snd] in Hadd. apply Hadd; [done|done|].
    intros j r k Hj [= <-] [= H1 H2 H3 H4]. apply select_first_None with (i := j) (r := r) in E; [|exact Hj].
    rewrite H1, H2, H3, H4, !Z.eqb_refl in E. by rewrite bool_decide_eq_true_2 in E.
Qed.
#[export] Hint Resolve ok_record : nexus.

(** ** Assignment *)

Lemma ok_agent_state s0 user_id : preserves (desk_ok s0) (get_or_create_agent_state user_id).
Proof.
  intros s Hs. unfold get_or_create_agent_state, get at 1, mbind at 1, M_bind at 1. cbv beta iota.
  unfold agent_of. destruct (first_where _ s) as [row|] eqn:E; [done|].
  rewrite now_bind. apply ok_add_at; [by apply ok_ticked|done| |].
  - intros i. unfold new_agent_state. cbn. unfold agent_ok. cbn. unfold MAX_AGENT_CAPACITY,
      DEFAULT_AGENT_CAPACITY, MAX_VOICE_CAPACITY, DEFAULT_VOICE_CAPACITY, MAX_VOICE_WRAP_UP_SECONDS,
      DEFAULT_VOICE_WRAP_UP_SECONDS. split; [decided|]. repeat split; lia.
  - intros j r k Hj [= <-] [= H1]. apply select_first_None with (i := j) (r := r) in E; [|exact Hj].
    by rewrite H1, Z.eqb_refl in E.
Qed.

Lemma ok_control s0 cid : preserves (desk_ok s0) (_control_for_conversation cid).
Proof. unfold _control_for_conversation. preserve. Qed.
Lemma ok_set_task s0 i f : preserves (desk_ok s0) (set_task i f).
Proof. unfold set_task. preserve. Qed.
#[export] Hint Resolve ok_agent_state ok_control ok_set_task : nexus.
Lemma ok_on_task s0 cid f : preserves (desk_ok s0) (on_task cid f).
Proof. unfold on_task. preserve. Qed.
Lemma ok_serialize s0 rid cid : preserves (desk_ok s0) (serialize_handoff rid cid).
Proof. unfold serialize_handoff. preserve. Qed.
Lemma ok_voice_load s0 u : preserves (desk_ok s0) (active_voice_load u).
Proof. unfold active_voice_load. preserve. Qed.
Lemma ok_reserved s0 u : preserves (desk_ok s0) (reserved_voice_offer_count u).
Proof. unfold reserved_voice_offer_count. preserve. Qed.
#[export] Hint Resolve ok_on_task ok_serialize ok_voice_load ok_reserved : nexus.
Lemma ok_payload s0 sid : preserves (desk_ok s0) (_state_payload sid).
Proof. unfold _state_payload. preserve. Qed.
Lemma ok_voice_slot s0 x : preserves (desk_ok s0) (has_voice_slot x).
Proof. unfold has_voice_slot. preserve. Qed.
#[export] Hint Resolve ok_payload ok_voice_slot : nexus.

Lemma cancelled_offer_ok now o : offer_ok o → offer_ok (cancelled_offer now o).
Proof. intros (H & _). split; [exact H|]. fields. by repeat split. Qed.
Lemma cancelled_offer_index now o : index (cancelled_offer now o) = None.
Proof. done. Qed.

Lemma ok_cancel_offers s0 p now : preserves (desk_ok s0) (update_where p (cancelled_offer now)).
Proof.
  apply ok_update; [done| |by left|].
  - intros o _. apply cancelled_offer_ok.
  - by split.
Qed.

Lemma closed_life note now r : request_life r (closed_request note now r).
Proof.
  assert (phase r ≤ 2) by (unfold phase; repeat case_match; lia).
  split; [done|exact H|change (WebchatHandoffRequest.lock_version r ≤
    Z.succ (WebchatHandoffRequest.lock_version r)); lia|done].
Qed.


Lemma ok_closed s0 rid note now : preserves (desk_ok s0) (set_row rid (closed_request note now)).
Proof.
  apply ok_set. intros r _ _. split; [done|]. split; [|split; [by left|apply closed_life]].
  fields. unfold request_ok. fields. by repeat split.
Qed.
#[export] Hint Resolve ok_cancel_offers ok_closed : nexus.

Lemma ok_session s0 i f :
  (∀ v, (WebchatVoiceSession.id (f v), WebchatVoiceSession.public_id (f v),
         WebchatVoiceSession.conversation_id (f v)) =
        (WebchatVoiceSession.id v, WebchatVoiceSession.public_id v,
         WebchatVoiceSession.conversation_id v)) → preserves (desk_ok s0) (set_row i f).
Proof.
  intros H. apply ok_set. intros v _ _. specialize (H v). injection H as H1 H2 H3.
  split; [exact H1|]. split; [done|]. split; [by left|]. cbn. unfold same_as. by rewrite H2, H3.
Qed.

Lemma ok_connect s0 v o rid u now : preserves (desk_ok s0) (connect_call v o rid u now).
Proof.
  unfold connect_call. preserve; [|by apply ok_session].
  apply ok_set. intros x _ (H & _). split; [done|]. split; [|by split; [left|split]].
  split; [exact H|]. fields. by repeat split.
Qed.
#[export] Hint Resolve ok_connect : nexus.

Section Turns.
Context (delivered : Z → string → bool).

Lemma ok_announce s0 rid cid u mode v o now :
  preserves (desk_ok s0) (announce_assignment delivered rid cid u mode v o now).
Proof. unfold announce_assignment. preserve. Qed.
Hint Resolve ok_announce : nexus.

Definition waits (s : Desk.t) (rid : Z) : Prop :=
  ∃ r, row_at s rid = Some r ∧ WebchatHandoffRequest.status r = "requested".

Lemma accepted_ok u now r :
  request_ok r → WebchatHandoffRequest.status r = "requested" → request_ok (accepted_request u now r).
Proof.
  intros (Hr & _) Hs. destruct (Hr Hs) as [_ Hc]. unfold request_ok. fields. split; [done|].
  split; [|done]. intros _. split; [by exists u|]. by split; [eexists|].
Qed.

Lemma accepted_life u now r :
  WebchatHandoffRequest.status r = "requested" → request_life r (accepted_request u now r).
Proof.
  intros H. assert (phase r = 0) as Hp by (unfold phase; by rewrite H).
  split; [done|rewrite Hp; done|change (WebchatHandoffRequest.lock_version r ≤
    Z.succ (WebchatHandoffRequest.lock_version r)); lia|lia].
Qed.

Lemma requested_open r : WebchatHandoffRequest.status r = "requested" → open_request r = true.
Proof. intros H. unfold open_request. rewrite H. reflexivity. Qed.
Lemma accepted_open r : WebchatHandoffRequest.status r = "accepted" → open_request r = true.
Proof. intros H. unfold open_request. rewrite H. reflexivity. Qed.

Lemma ok_commit s0 s rid cid u mode v o now :
  desk_ok s0 s → waits s rid →
  desk_ok s0 (snd (commit_assignment delivered rid cid u mode v o now s)).
Proof.
  intros Hs (r & Hr & Hst). unfold commit_assignment. rewrite set_bind.
  match goal with |- desk_ok s0 (snd (?m ?s')) =>
    assert (preserves (desk_ok s0) m) as Hm by preserve; apply Hm end.
  destruct (good_row s0 _ _ _ Hs Hr) as [_ Hok]. eapply ok_set_at; [done|exact Hr|done| | |].
  - by apply accepted_ok.
  - right. cbn [index request_rule]. rewrite (requested_open r Hst).
    by rewrite (accepted_open (accepted_request u now r)).
  - by apply accepted_life.
Qed.

(** The slot is found by reading. *)
Lemma slot_reads state u v vo now s : snd (assignment_slot state u v vo now s) = s.
Proof.
  assert (preserves (fun x => x = s) (assignment_slot state u v vo now)) as H
    by (unfold assignment_slot; preserve).
  by apply H.
Qed.

Lemma waiting_cases rid cid u state mode vo s :
  (∃ e s', assign_waiting delivered rid cid u state mode vo s = (Err e, s') ∧ (s' = s ∨ s' = ticked s)) ∨
  (waits s rid ∧ (∃ c, row_at (R := WebchatConversation.t) s cid = Some c) ∧
   let v := _voice_session_for_conversation s cid in
   let now := Db.clock (core s) (Db.ticks (core s)) in
   ∃ o, assignment_slot state u v vo now (ticked s) = (Ok o, ticked s) ∧
     assign_waiting delivered rid cid u state mode vo s =
     commit_assignment delivered rid cid u mode v o now (ticked s)).
Proof.
  assert (assign_waiting delivered rid cid u state mode vo s =
    if match row_at s rid, row_at (R := WebchatConversation.t) s cid with
       | Some r, Some _ => bool_decide (WebchatHandoffRequest.status r = "requested")
       | _, _ => false
       end
    then match assignment_slot state u (_voice_session_for_conversation s cid) vo
                 (Db.clock (core s) (Db.ticks (core s))) (ticked s) with
         | (Ok o, s') => commit_assignment delivered rid cid u mode
             (_voice_session_for_conversation s cid) o (Db.clock (core s) (Db.ticks (core s))) s'
         | (Err e, s') => (Err e, s')
         end
    else (Err handoff_not_waiting, s)) as Hrun.
  { unfold assign_waiting, get at 1, mbind at 1, M_bind at 1. cbv beta iota zeta.
    by match goal with |- context [require ?b _] => destruct b end. }
  destruct (row_at s rid) as [r|] eqn:Er; [|left; eexists _, _; split; [exact Hrun|by left]].
  destruct (row_at s cid) as [c|] eqn:Ec; [|left; eexists _, _; split; [exact Hrun|by left]].
  destruct (bool_decide_reflect (WebchatHandoffRequest.status r = "requested")) as [Hst|Hst];
    [|left; eexists _, _; split; [exact Hrun|by left]].
  pose proof (slot_reads state u (_voice_session_for_conversation s cid) vo
    (Db.clock (core s) (Db.ticks (core s))) (ticked s)) as Hslot.
  destruct (assignment_slot _ _ _ _ _ _) as [[o|e] s'] eqn:E; cbn in Hslot; subst s'.
  - right. split; [by exists r|]. split; [by exists c|]. by exists o.
  - left. eexists _, _. split; [exact Hrun|by right].
Qed.

Lemma ok_assign_waiting s0 rid cid u state mode vo :
  preserves (desk_ok s0) (assign_waiting delivered rid cid u state mode vo).
Proof.
  intros s Hs. destruct (waiting_cases rid cid u state mode vo s) as
    [(e & s' & -> & [->| ->])|(Hw & _ & o & _ & ->)]; [done|by apply ok_ticked|].
  apply ok_commit; [by apply ok_ticked|exact Hw].
Qed.
Hint Resolve ok_assign_waiting : nexus.

Lemma ok_core_assign s0 rid cid user mode vo :
  preserves (desk_ok s0) (core_assign_handoff_to_agent delivered rid cid user mode vo).
Proof. unfold core_assign_handoff_to_agent. preserve. Qed.
End Turns.
#[export] Hint Resolve ok_announce ok_assign_waiting ok_core_assign : nexus.

(** ** Calls *)

Lemma ok_release_wrap_up s0 now sid : preserves (desk_ok s0) (release_wrap_up now sid).
Proof. unfold release_wrap_up. preserve. by apply ok_session. Qed.
#[export] Hint Resolve ok_release_wrap_up : nexus.
Lemma ok_core_release s0 user : preserves (desk_ok s0) (core_release_expired_voice_wrap_ups user).
Proof. unfold core_release_expired_voice_wrap_ups. preserve. Qed.
#[export] Hint Resolve ok_core_release : nexus.

Lemma timeout_positive s v : 5 ≤ _voice_offer_timeout_seconds s v.
Proof.
  unfold _voice_offer_timeout_seconds, DEFAULT_VOICE_OFFER_TIMEOUT_SECONDS.
  repeat case_match; lia.
Qed.

Lemma new_offer_ok s v rid agent public_id now i : offer_ok (new_offer s v rid agent public_id now i).
Proof.
  unfold new_offer, offer_ok. cbn. pose proof (timeout_positive s v).
  split; [unfold seconds, us_per_second; lia|]. by repeat split.
Qed.

Lemma ok_place s0 v rid cid agent now noted :
  (∀ t, preserves (desk_ok s0) (noted t)) → preserves (desk_ok s0) (place_offer v rid cid agent now noted).
Proof.
  intros Hn s Hs. unfold place_offer. rewrite token_bind.
  set (s1 := ticked s). assert (desk_ok s0 s1) as Hs1 by by apply ok_ticked.
  rewrite get_bind. cbv zeta.
  match goal with |- context [first_where ?p s1] => destruct (first_where p s1) as [o|] eqn:E end;
    cbn [not_null].
  { match goal with |- desk_ok s0 (snd (?m s1)) => assert (preserves (desk_ok s0) m) as Hm by preserve; by apply Hm end. }
  match goal with |- desk_ok s0 (snd ((add_row ?mk ≫= ?k) s1)) =>
    assert (desk_ok s0 (snd (add_row mk s1))) as Hadd; [|assert (∀ i, preserves (desk_ok s0) (k i)) as Hk] end.
  - apply ok_add_at; [done|done|intros i; apply new_offer_ok|]. intros j r k Hj.
    cbn [index offer_rule new_offer]. intros [= <-]. destruct (offered r) eqn:Er; [|done].
    intros [= H]. apply select_first_None with (i := j) (r := r) in E; [|exact Hj].
    by rewrite H, Z.eqb_refl, Er in E.
  - intros i. preserve. by apply ok_session.
  - exact (Hk _ _ Hadd).
Qed.
#[export] Hint Resolve ok_place : nexus.

Lemma ok_core_voice_agents s0 rid control : preserves (desk_ok s0) (core_eligible_voice_agents rid control).
Proof.
  unfold core_eligible_voice_agents. preserve. apply ok_filterM. intros x. preserve.
Qed.
#[export] Hint Resolve ok_core_voice_agents : nexus.
Lemma ok_core_next s0 vid : preserves (desk_ok s0) (core_create_next_voice_offer vid).
Proof. unfold core_create_next_voice_offer. preserve. Qed.
#[export] Hint Resolve ok_core_next : nexus.

(** ** What both routers do *)

Class RouterRule (router : Router) : Prop := {
  rule_note s0 o a b : preserves (desk_ok s0) (note_offer router o a b);
  rule_next s0 vid : preserves (desk_ok s0) (create_next_voice_offer router vid);
  rule_release s0 u : preserves (desk_ok s0) (release_expired_voice_wrap_ups router u);
  rule_text s0 user : preserves (desk_ok s0) (_eligible_text_request_for_agent router user);
  rule_assign s0 rid cid user mode vo :
    preserves (desk_ok s0) (assign_handoff_to_agent router rid cid user mode vo) }.

#[export] Hint Extern 2 (preserves (desk_ok _) (note_offer _ _ _ _)) => solve [apply rule_note] : nexus.
#[export] Hint Extern 2 (preserves (desk_ok _) (create_next_voice_offer _ _)) =>
  solve [apply rule_next] : nexus.
#[export] Hint Extern 2 (preserves (desk_ok _) (release_expired_voice_wrap_ups _ _)) =>
  solve [apply rule_release] : nexus.
#[export] Hint Extern 2 (preserves (desk_ok _) (_eligible_text_request_for_agent _ _)) =>
  solve [apply rule_text] : nexus.
#[export] Hint Extern 2 (preserves (desk_ok _) (assign_handoff_to_agent _ _ _ _ _ _)) =>
  solve [apply rule_assign] : nexus.

Section Common.
Context (set_order : list Z → list Z) (router : Router) `{!RouterRule router}.

Lemma ok_again s0 offers : preserves (desk_ok s0) (offer_again set_order router offers).
Proof. unfold offer_again. preserve. Qed.
Hint Resolve ok_again : nexus.
Lemma ok_expire_offer s0 now o : preserves (desk_ok s0) (expire_offer router now o).
Proof.
  unfold expire_offer. preserve. apply ok_set. intros x _ (H & _). split; [done|].
  split; [|by split; [left|split]]. split; [exact H|]. fields. by repeat split.
Qed.
Hint Resolve ok_expire_offer : nexus.
Lemma ok_expire s0 agent session : preserves (desk_ok s0) (expire_voice_offers set_order router agent session).
Proof. unfold expire_voice_offers. preserve. Qed.
Hint Resolve ok_expire : nexus.

Lemma ok_fill_texts s0 fuel user sid : preserves (desk_ok s0) (fill_with_texts router fuel user sid).
Proof.
  revert user sid. induction fuel as [|fuel IH]; intros user sid; simpl; [apply preserves_raise|].
  unfold caught. preserve; apply IH.
Qed.
Hint Resolve ok_fill_texts : nexus.
Lemma ok_before_fill s0 u : preserves (desk_ok s0) (before_fill set_order router u).
Proof. unfold before_fill. preserve. Qed.
Hint Resolve ok_before_fill : nexus.
Lemma ok_fill s0 user : preserves (desk_ok s0) (fill_agent_capacity set_order router user).
Proof. unfold fill_agent_capacity. preserve. Qed.
End Common.
#[export] Hint Extern 2 (preserves (desk_ok _) (offer_again _ _ _)) => solve [apply ok_again, _] : nexus.
#[export] Hint Extern 2 (preserves (desk_ok _) (expire_voice_offers _ _ _ _)) =>
  solve [apply ok_expire, _] : nexus.
#[export] Hint Extern 2 (preserves (desk_ok _) (fill_agent_capacity _ _ _)) =>
  solve [apply ok_fill, _] : nexus.

#[export] Instance core_rule delivered : RouterRule (core_router delivered).
Proof.
  split; intros; cbn [note_offer create_next_voice_offer release_expired_voice_wrap_ups
    _eligible_text_request_for_agent assign_handoff_to_agent core_router]; auto with nexus.
  unfold core_eligible_text_request_for_agent. preserve.
Qed.

(** ** The service *)

Section Service.
Context (delivered : Z → string → bool) (set_order : list Z → list Z).
Context (sha256_hex : string → string) (dumps : json → string) (loads : string → option json).
Context (installed : bool).

#[local] Abbreviation ensure_plan := (ensure_handoff_routing_plan sha256_hex dumps loads).

Lemma max_generations_bounds risk : 1 ≤ _max_generations risk ≤ DEFAULT_MAX_GENERATIONS.
Proof. unfold _max_generations, DEFAULT_MAX_GENERATIONS. case_match; lia. Qed.

Lemma ok_ensure_plan s0 rid : preserves (desk_ok s0) (ensure_plan rid).
Proof.
  intros s Hs. unfold ensure_handoff_routing_plan. rewrite row_bind.
  destruct (row_at s rid) as [r|]; [|done].
  destruct (WebchatHandoffRequest.ticket_id r) as [ticket_id|]; [|done].
  rewrite get_bind. destruct (current_case_scenario_assignment s ticket_id) as [a|]; [|done].
  rewrite lift_bind. destruct (_plan_contract loads a) as [c|]; [|done].
  cbv zeta. unfold routing_plan_for_request. destruct (first_where _ s) as [p|] eqn:E.
  { match goal with |- desk_ok s0 (snd (?m s)) => assert (preserves (desk_ok s0) m) as Hm by preserve end.
    by apply Hm. }
  rewrite !now_bind. set (s2 := ticked (ticked s)).
  assert (desk_ok s0 s2) as Hs2 by by apply ok_ticked, ok_ticked.
  match goal with |- desk_ok s0 (snd ((add_row ?mk ≫= _) s2)) =>
    enough (desk_ok s0 (snd (add_row mk s2))) as Hadd by exact Hadd end.
  apply ok_add_at; [done|done| |].
  - intros i. unfold new_plan. cbv zeta. cbn [row_ok plan_rule]. unfold plan_ok. cbn.
    pose proof (max_generations_bounds (py_lower (py_strip (py_str (json_get "risk_level" c.1))))).
    split; [decided|]. split; [lia|]. split; [lia|]. split; [split; [done|by intros []]|done].
  - intros j p k Hj [= <-] [= H1].
    apply select_first_None with (i := j) (r := p) in E; [|exact Hj]. by rewrite H1, Z.eqb_refl in E.
Qed.
Hint Resolve ok_ensure_plan : nexus.

Lemma ok_authorized s0 plan control user kind b :
  preserves (desk_ok s0) (_candidate_authorized plan control user kind b).
Proof. unfold _candidate_authorized. preserve. Qed.
Hint Resolve ok_authorized : nexus.
Lemma ok_scope s0 user control :
  preserves (desk_ok s0) (_scope_grant_exists sha256_hex dumps loads user control).
Proof. unfold _scope_grant_exists. preserve. Qed.
Lemma ok_voice_agents s0 rid control :
  preserves (desk_ok s0) (_eligible_voice_agents sha256_hex dumps loads installed rid control).
Proof. unfold _eligible_voice_agents. preserve. apply ok_filterM. intros x. preserve. Qed.
Lemma ok_retry s0 plan reason : preserves (desk_ok s0) (retry_later plan reason).
Proof. unfold retry_later. preserve. Qed.
Hint Resolve ok_scope ok_voice_agents ok_retry : nexus.
Lemma ok_service_next s0 vid :
  preserves (desk_ok s0) (service_create_next_voice_offer sha256_hex dumps loads installed vid).
Proof. unfold service_create_next_voice_offer. preserve. Qed.
Lemma ok_service_release s0 u : preserves (desk_ok s0) (service_release_expired_voice_wrap_ups set_order u).
Proof. unfold service_release_expired_voice_wrap_ups. preserve. Qed.
Hint Resolve ok_service_next ok_service_release : nexus.
Lemma ok_first_authorized s0 user l :
  preserves (desk_ok s0) (first_authorized sha256_hex dumps loads installed user l).
Proof. induction l as [|r l IH]; simpl; [apply preserves_ret|]. preserve. Qed.
Hint Resolve ok_first_authorized : nexus.
Lemma ok_service_assign s0 rid cid user mode vo :
  preserves (desk_ok s0) (service_assign_handoff_to_agent delivered sha256_hex dumps loads rid cid user mode vo).
Proof. unfold service_assign_handoff_to_agent. preserve. Qed.
Hint Resolve ok_service_assign : nexus.
Lemma ok_contract_assign s0 rid cid user mode vo :
  preserves (desk_ok s0) (contract_assign_handoff_to_agent delivered sha256_hex dumps loads rid cid user mode vo).
Proof. unfold contract_assign_handoff_to_agent, _project_ticket_case_ownership. preserve. Qed.
Hint Resolve ok_contract_assign : nexus.

#[local] Abbreviation router := (service_router delivered set_order sha256_hex dumps loads installed).
#[export] Instance service_rule : RouterRule router.
Proof.
  split; intros; cbn [note_offer create_next_voice_offer release_expired_voice_wrap_ups
    _eligible_text_request_for_agent assign_handoff_to_agent service_router]; auto with nexus.
  - unfold service_eligible_text_request_for_agent. preserve.
  - destruct installed; auto with nexus.
Qed.

#[local] Abbreviation cancel_offers :=
  (_cancel_agent_voice_offers delivered set_order sha256_hex dumps loads installed).
Lemma ok_cancel_agent_offers s0 agent reason : preserves (desk_ok s0) (cancel_offers agent reason).
Proof.
  unfold _cancel_agent_voice_offers. preserve. apply ok_set. intros x _ Hx. split; [done|].
  split; [|by split; [left|split]]. exact (cancelled_offer_ok _ x Hx).
Qed.
Hint Resolve ok_cancel_agent_offers : nexus.

(** *** Presence *)

Lemma ok_read s0 user_id :
  preserves (desk_ok s0) (read_agent_state delivered set_order sha256_hex dumps loads installed user_id).
Proof. unfold read_agent_state. preserve. Qed.

Ltac agent_tac := apply ok_set; let a := fresh in
  intros a _ (Hst & Hcap & Hv & Hw & Hoff); split; [done|]; split; [|by split; [right|]];
  fields; unfold agent_ok; fields.

Lemma ok_set_capacity s0 sid c : preserves (desk_ok s0) (set_capacity sid c).
Proof.
  destruct c as [c|]; [|apply preserves_ret]. unfold set_capacity, require.
  destruct (_ && _) eqn:E; [|apply preserves_raise]. apply andb_true_iff in E as [?%Z.leb_le ?%Z.leb_le].
  apply preserves_bind; [apply preserves_ret|intros _]. agent_tac. done.
Qed.
Lemma ok_set_voice s0 sid u b : preserves (desk_ok s0) (set_voice_enabled sid u b).
Proof. unfold set_voice_enabled. preserve. by agent_tac. Qed.
Lemma ok_set_voice_capacity s0 sid u c : preserves (desk_ok s0) (set_voice_capacity sid u c).
Proof.
  destruct c as [c|]; [|apply preserves_ret]. unfold set_voice_capacity, require at 1.
  destruct (_ && _) eqn:E; [|apply preserves_raise]. apply andb_true_iff in E as [?%Z.leb_le ?%Z.leb_le].
  preserve. agent_tac. done.
Qed.
Lemma ok_set_wrap_up s0 sid w : preserves (desk_ok s0) (set_wrap_up sid w).
Proof.
  destruct w as [w|]; [|apply preserves_ret]. unfold set_wrap_up, require.
  destruct (_ && _) eqn:E; [|apply preserves_raise]. apply andb_true_iff in E as [?%Z.leb_le ?%Z.leb_le].
  apply preserves_bind; [apply preserves_ret|intros _]. agent_tac. done.
Qed.
Lemma ok_present s0 sid status now : status ∈ PRESENCE_STATUSES →
  preserves (desk_ok s0) (set_row sid (present status now)).
Proof.
  intros H. apply ok_set. intros a _ (Hst & Hcap & Hv & Hw & Hoff). unfold present.
  destruct (bool_decide_reflect (OperatorAgentState.status a = status)) as [E|E];
    (split; [done|]; split; [|by split; [right|]]); fields; unfold agent_ok; fields.
  - do 4 (split; [done|]). intros Ho. by rewrite <- E, Ho.
  - do 4 (split; [done|]). by intros ->.
Qed.
Hint Resolve ok_set_capacity ok_set_voice ok_set_voice_capacity ok_set_wrap_up : nexus.

Lemma ok_set_agent_state s0 user status a b c d : preserves (desk_ok s0)
  (set_agent_state delivered set_order sha256_hex dumps loads installed user status a b c d).
Proof.
  unfold set_agent_state. cbv zeta. unfold require.
  destruct (bool_decide_reflect (py_lower (py_strip status) ∈ PRESENCE_STATUSES)) as [H|];
    [|apply preserves_raise].
  preserve. by apply ok_present.
Qed.

Lemma ok_heartbeat_agent s0 user : preserves (desk_ok s0)
  (heartbeat_agent delivered set_order sha256_hex dumps loads installed user).
Proof.
  unfold heartbeat_agent. cbv zeta. apply preserves_bind; [auto with nexus|intros sid].
  intros s Hs. rewrite row_bind. destruct (row_at s sid) as [row|] eqn:Er; [|done].
  destruct (bool_decide_reflect (OperatorAgentState.status row = "offline")) as [E|E];
    [by apply ok_payload|].
  rewrite now_bind, set_bind.
  match goal with |- desk_ok s0 (snd (?m ?s')) =>
    assert (preserves (desk_ok s0) m) as Hm by preserve; apply Hm end.
  destruct (good_row s0 _ _ _ Hs Er) as [_ (Hst & Hcap & Hv & Hw & _)].
  eapply ok_set_at; [by apply ok_ticked|exact Er|done| |by right|done].
  fields. unfold agent_ok. fields. do 4 (split; [done|]). by intros Ho.
Qed.

(** *** Calls, handoffs, closure *)

Lemma ok_call_context s0 vid : preserves (desk_ok s0) (call_context vid).
Proof. unfold call_context. preserve. Qed.
Hint Resolve ok_call_context : nexus.

Lemma ok_accept s0 vid user : preserves (desk_ok s0)
  (accept_voice_offer delivered set_order sha256_hex dumps loads installed vid user).
Proof. unfold accept_voice_offer. preserve. Qed.

Lemma ok_decline s0 vid user reason note : preserves (desk_ok s0)
  (decline_voice_offer sha256_hex dumps loads installed vid user reason note).
Proof.
  unfold decline_voice_offer. preserve; [|by apply ok_session].
  apply ok_set. intros x _ (H & _). split; [done|]. split; [|by split; [left|split]]. split; [exact H|].
  fields. by repeat split.
Qed.

Lemma ok_offer_text s0 rid cid plan control l : preserves (desk_ok s0)
  (offer_text delivered set_order sha256_hex dumps loads installed rid cid plan control l).
Proof. induction l as [|[user state] l IH]; cbn [offer_text]; [apply preserves_ret|]. preserve. Qed.
Hint Resolve ok_offer_text : nexus.
Lemma ok_auto_assign s0 rid cid control : preserves (desk_ok s0)
  (_auto_assign_text_request delivered set_order sha256_hex dumps loads installed rid cid control).
Proof. unfold _auto_assign_text_request. preserve. Qed.
Hint Resolve ok_auto_assign : nexus.

Lemma ok_create_task s0 x : preserves (desk_ok s0) (create_operator_task sha256_hex x).
Proof. unfold create_operator_task, _refresh_existing_task. preserve. Qed.
Hint Resolve ok_create_task : nexus.
Lemma ok_handoff_task s0 rid cid queue kind : preserves (desk_ok s0)
  (handoff_task sha256_hex rid cid queue kind).
Proof. unfold handoff_task. preserve. Qed.
Hint Resolve ok_handoff_task : nexus.

Lemma ok_asked_again s0 rid x now : preserves (desk_ok s0) (set_row rid (asked_again x now)).
Proof. apply ok_set. kept_row. Qed.
Hint Resolve ok_asked_again : nexus.

Lemma new_request_ok cid c x now i : request_ok (new_request cid c x now i).
Proof. unfold request_ok. cbn. by repeat split. Qed.

Lemma ok_request_handoff s0 cid x : preserves (desk_ok s0)
  (request_handoff delivered set_order sha256_hex dumps loads installed cid x).
Proof.
  intros s Hs. unfold request_handoff. rewrite row_bind.
  destruct (row_at s cid) as [c|] eqn:Ec; [|done]. rewrite get_bind, now_bind.
  assert (desk_ok s0 (ticked s)) as Hs' by by apply ok_ticked.
  unfold open_handoff_of, last_where. destruct (list.last _) as [existing|] eqn:E.
  { match goal with |- desk_ok s0 (snd (?m ?s')) => assert (preserves (desk_ok s0) m) as Hm end.
    { preserve. by apply ok_session. }
    by apply Hm. }
  match goal with |- desk_ok s0 (snd ((add_row ?mk ≫= ?k) ?s1)) =>
    assert (desk_ok s0 (snd (add_row mk s1))) as Hadd; [|assert (∀ i, preserves (desk_ok s0) (k i)) as Hk] end.
  - apply ok_add_at; [done|done|intros i; apply new_request_ok|]. intros j r k Hj [= <-].
    cbn [index request_rule]. destruct (open_request r) eqn:Er; [|done]. intros [= H].
    apply last_None in E.
    assert (r ∈ rows_where (fun r => (WebchatHandoffRequest.conversation_id r =? cid) &&
      bool_decide (WebchatHandoffRequest.status r ∈ ["requested"; "accepted"])) s) as Hr.
    { apply elem_of_select. exists j. split; [exact Hj|].
      unfold open_request in Er. by rewrite Er, andb_true_r, H, Z.eqb_refl. }
    rewrite E in Hr. by apply elem_of_nil in Hr.
  - intros i. preserve. by apply ok_session.
  - exact (Hk _ _ Hadd).
Qed.

Lemma ok_close_current s0 c note now : preserves (desk_ok s0) (close_current_request c note now).
Proof. unfold close_current_request. preserve. Qed.
Hint Resolve ok_close_current : nexus.
Lemma ok_core_close s0 cid user outcome note : preserves (desk_ok s0)
  (core_close_conversation delivered set_order cid user outcome note).
Proof. unfold core_close_conversation. preserve. Qed.
Hint Resolve ok_core_close : nexus.
Lemma ok_close s0 cid user outcome note : preserves (desk_ok s0)
  (close_conversation delivered set_order sha256_hex dumps loads cid user outcome note).
Proof. unfold close_conversation. preserve. Qed.
End Service.
