(* ===== verification/DeskLoad.v ===== *)
(** * The load of agents

    What an assignment does, and that filling the capacity of an agent ends.  Most steps of
    the routing leave handoffs, calls, agents and the handoff side of conversations as they
    are ([same_desk]). *)

From S2P Require Import Prelude Calendar Enums Models Permissions Tenancy Work JobScope.
From S2P Require Import Jobs AiTurns Desk Plans Tasks Routing RoutingService DeskRules.

(** ** Frames *)

(** What the routing reads and writes of a conversation *)
Definition handoff_view (c : WebchatConversation.t)
    : string * string * option Z * option Z * bool * option Z :=
  (WebchatConversation.status c, WebchatConversation.handoff_status c,
   WebchatConversation.active_agent_id c, WebchatConversation.current_handoff_request_id c,
   WebchatConversation.ai_suspended c, WebchatConversation.ticket_id c).

Definition view_at (s : Desk.t) (cid : Z) :=
  handoff_view <$> row_at (R := WebchatConversation.t) s cid.

Record same_desk (s0 s : Desk.t) : Prop := {
  same_requests : Desk.requests s = Desk.requests s0;
  same_sessions : Desk.sessions s = Desk.sessions s0;
  same_agents : Desk.agents s = Desk.agents s0;
  same_offers : Desk.offers s = Desk.offers s0;
  same_grants : Desk.grants s = Desk.grants s0;
  same_views cid : view_at s cid = view_at s0 cid }.

Lemma same_refl s : same_desk s s.
Proof. by split. Qed.
Lemma same_trans s0 s1 s2 : same_desk s0 s1 → same_desk s1 s2 → same_desk s0 s2.
Proof. intros [] [? ? ? ? ? E]. split; [congruence..|]. intros cid. by rewrite E. Qed.

(** [m] leaves the desk as it is. *)
Definition quiet {A} (m : M Desk.t A) : Prop := ∀ s0, preserves (same_desk s0) m.

Lemma quiet_run {A} (m : M Desk.t A) s : quiet m → same_desk s (snd (m s)).
Proof. intros H. apply H, same_refl. Qed.

(** Tables outside the frame *)
Class Aside (R : Type) `{Stored R} := { aside f s0 s : same_desk s0 s → same_desk s0 (on_rows f s) }.
Ltac asides := split; intros f s0 s []; by split.
#[export] Instance aside_plan : Aside HandoffRoutingPlan.t. Proof. asides. Qed.
#[export] Instance aside_attempt : Aside HandoffRoutingCandidateAttempt.t. Proof. asides. Qed.
#[export] Instance aside_leg : Aside WebchatVoiceParticipant.t. Proof. asides. Qed.
#[export] Instance aside_task : Aside OperatorTask.t. Proof. asides. Qed.
#[export] Instance aside_control : Aside ConversationControl.t. Proof. asides. Qed.
#[export] Instance aside_ticket : Aside Ticket.t. Proof. asides. Qed.

Section Quiet.
Context (s0 : Desk.t).

Lemma quiet_set `{Aside R} i f : preserves (same_desk s0) (set_row (R := R) i f).
Proof.
  intros s Hs. unfold set_row, modify, upd_row. cbn [snd]. destruct (row_at s i); [|done].
  by apply aside.
Qed.
Lemma quiet_add `{Aside R} mk : preserves (same_desk s0) (add_row (R := R) mk).
Proof. intros s Hs. by apply aside. Qed.
Lemma quiet_update `{Aside R} p f : preserves (same_desk s0) (update_where (R := R) p f).
Proof. intros s Hs. by apply aside. Qed.
Lemma quiet_row `{Stored R} i : preserves (same_desk s0) (the_row (R := R) i).
Proof. intros s Hs. unfold the_row. by destruct (row_at s i). Qed.
Lemma quiet_now : preserves (same_desk s0) utc_now.
Proof. intros s []. by split. Qed.
Lemma quiet_token : preserves (same_desk s0) token_urlsafe.
Proof. intros s []. by split. Qed.
Lemma quiet_audit a b c d e f : preserves (same_desk s0) (log_admin_audit a b c d e f).
Proof.
  unfold log_admin_audit. apply preserves_bind; [apply quiet_now|intros now].
  apply preserves_modify. intros s []. by split.
Qed.
Hint Resolve quiet_row quiet_now : nexus.
Lemma quiet_event cid t p : preserves (same_desk s0) (_event cid t p).
Proof. unfold _event. preserve. intros s []. by split. Qed.
End Quiet.
#[export] Hint Resolve quiet_row quiet_now quiet_token quiet_audit quiet_event : nexus.
#[export] Hint Extern 2 (preserves (same_desk _) (set_row _ _)) => solve [apply quiet_set, _] : nexus.
#[export] Hint Extern 2 (preserves (same_desk _) (add_row _)) => solve [apply quiet_add, _] : nexus.
#[export] Hint Extern 2 (preserves (same_desk _) (update_where _ _)) =>
  solve [apply quiet_update, _] : nexus.

(** *** The turns of the AI *)

Section CancelTurns.
Context (w0 : Work.t).
Definition same_talks (w : Work.t) : Prop :=
  ∀ cid, handoff_view <$> conversation_at w cid = handoff_view <$> conversation_at w0 cid.

Lemma talks_set cid f : (∀ c, handoff_view (f c) = handoff_view c) →
  preserves same_talks (set_conversation cid f).
Proof.
  intros Hf w Hw i. rewrite <- Hw. unfold set_conversation, modify, upd_conversation. cbn [snd].
  destruct (conversation_at w cid) as [c|] eqn:E; [|done].
  unfold conversation_at, table_get in *. cbn [Work.conversations alter_field].
  rewrite lookup_table_put. case_decide as Ei; [|done].
  subst i. rewrite E. cbn. by rewrite Hf.
Qed.
Lemma talks_now : preserves same_talks now.
Proof. intros w Hw. exact Hw. Qed.
Lemma talks_conversation cid : preserves same_talks (the_conversation cid).
Proof. intros w Hw. unfold the_conversation. by destruct (conversation_at w cid). Qed.
Lemma talks_turn tid f : preserves same_talks (set_turn tid f).
Proof.
  intros w Hw. unfold set_turn, modify, upd_turn. cbn [snd]. by destruct (turn_at w tid).
Qed.
Lemma talks_job jid f : preserves same_talks (set_job jid f).
Proof.
  intros w Hw. unfold set_job, modify. cbn [snd]. by destruct (job_at w jid).
Qed.
End CancelTurns.
#[export] Hint Resolve talks_now talks_conversation talks_turn talks_job : nexus.

Lemma talks_cancel delivered cid actor reason w0 :
  preserves (same_talks w0) (cancel_open_ai_turns_for_handoff delivered cid actor reason).
Proof.
  unfold cancel_open_ai_turns_for_handoff, cancel_turn, cancel_job, safe_write_webchat_event,
    _clear_active_snapshot. preserve; try by apply talks_set.
  all: by apply preserves_modify.
Qed.

Section OfWork.
Context (s0 : Desk.t).

Lemma quiet_on_work {A} (m : M Work.t A) :
  (∀ w0, preserves (same_talks w0) m) → preserves (same_desk s0) (on_work m).
Proof.
  intros Hm s Hs. apply (same_trans _ s); [done|]. pose proof (Hm (Desk.work s) (Desk.work s)) as H.
  unfold on_work. destruct (m (Desk.work s)) as [r w]. cbn [snd] in *.
  split; [done..|]. by apply H.
Qed.
Lemma quiet_cancel delivered cid actor reason :
  preserves (same_desk s0) (on_work (cancel_open_ai_turns_for_handoff delivered cid actor reason)).
Proof. apply quiet_on_work. intros w0. apply talks_cancel. Qed.
End OfWork.
#[export] Hint Resolve quiet_cancel : nexus.

(** *** The routing *)

Section Frames.
Context (s0 : Desk.t).

Lemma quiet_control cid : preserves (same_desk s0) (_control_for_conversation cid).
Proof. unfold _control_for_conversation. preserve. Qed.
Lemma quiet_on_task cid f : preserves (same_desk s0) (on_task cid f).
Proof. unfold on_task, set_task. preserve. Qed.
Hint Resolve quiet_control quiet_on_task : nexus.
Lemma quiet_announce delivered rid cid u mode v o now :
  preserves (same_desk s0) (announce_assignment delivered rid cid u mode v o now).
Proof. unfold announce_assignment. preserve. Qed.
Lemma quiet_serialize rid cid : preserves (same_desk s0) (serialize_handoff rid cid).
Proof. unfold serialize_handoff. preserve. Qed.
Lemma quiet_fresh st : preserves (same_desk s0) (heartbeat_is_fresh st).
Proof. unfold heartbeat_is_fresh. preserve. Qed.
Lemma quiet_activate plan : preserves (same_desk s0) (activate_due_generation plan).
Proof. unfold activate_due_generation. preserve. Qed.
Hint Resolve quiet_activate : nexus.
Lemma quiet_candidate plan c user kind b :
  preserves (same_desk s0) (candidate_is_authorized plan c user kind b).
Proof. unfold candidate_is_authorized. preserve. Qed.
Lemma quiet_record plan rid agent kind outcome reason ref :
  preserves (same_desk s0) (record_candidate_attempt plan rid agent kind outcome reason ref).
Proof. unfold record_candidate_attempt. preserve. Qed.
Lemma quiet_assigned plan agent : preserves (same_desk s0) (mark_plan_assigned plan agent).
Proof. unfold mark_plan_assigned. preserve. Qed.
Lemma quiet_project cid user : preserves (same_desk s0) (_project_ticket_case_ownership cid user).
Proof. unfold _project_ticket_case_ownership. preserve. Qed.
Hint Resolve quiet_candidate : nexus.

Section Service.
Context (sha256_hex : string → string) (dumps : json → string) (loads : string → option json).
Context (installed : bool).

Lemma quiet_plan rid : preserves (same_desk s0) (ensure_handoff_routing_plan sha256_hex dumps loads rid).
Proof. unfold ensure_handoff_routing_plan. preserve. Qed.
Lemma quiet_authorized plan control user kind b :
  preserves (same_desk s0) (_candidate_authorized plan control user kind b).
Proof. unfold _candidate_authorized. preserve. Qed.
Hint Resolve quiet_plan quiet_authorized : nexus.
Lemma quiet_first_authorized user l :
  preserves (same_desk s0) (first_authorized sha256_hex dumps loads installed user l).
Proof. induction l as [|r l IH]; simpl; [apply preserves_ret|]. preserve. Qed.
End Service.
End Frames.
#[export] Hint Resolve quiet_control quiet_on_task quiet_announce quiet_serialize quiet_fresh
  quiet_candidate quiet_record quiet_assigned quiet_project quiet_plan quiet_authorized
  quiet_first_authorized : nexus.

(** ** The load *)

Lemma same_open s0 s cid : same_desk s0 s → open_conversation s cid = open_conversation s0 cid.
Proof.
  intros H. pose proof (same_views _ _ H cid) as E. unfold view_at in E.
  unfold open_conversation. destruct (row_at s cid), (row_at s0 cid); try done.
  injection E as E _. by rewrite E.
Qed.
Lemma same_voice s0 s cid :
  Desk.sessions s = Desk.sessions s0 → voice_exists s cid = voice_exists s0 cid.
Proof. intros H. unfold voice_exists, first_where, rows_of. cbn. by rewrite H. Qed.

(** Whether a handoff is in the load of a user *)
Definition loads_agent (s : Desk.t) (u : Z) (r : WebchatHandoffRequest.t) : bool :=
  held_by u r && open_conversation s (WebchatHandoffRequest.conversation_id r) &&
  negb (voice_exists s (WebchatHandoffRequest.conversation_id r)).

Lemma load_of s u :
  active_agent_load s u = Z.of_nat (length (select (loads_agent s u) (Desk.requests s))).
Proof. done. Qed.

Lemma loads_ext s0 s u : (∀ cid, open_conversation s cid = open_conversation s0 cid) →
  Desk.sessions s = Desk.sessions s0 → ∀ r, loads_agent s u r = loads_agent s0 u r.
Proof. intros Ho Hs r. unfold loads_agent. by rewrite Ho, (same_voice s0 s). Qed.

Lemma load_same s0 s u : same_desk s0 s → active_agent_load s u = active_agent_load s0 u.
Proof.
  intros H. rewrite !load_of, (same_requests _ _ H). do 2 f_equal. apply select_ext.
  apply loads_ext; [|apply H]. intros cid. by apply same_open.
Qed.

(** A handoff that changes counts before and after. *)
Lemma load_put s0 s u rid r r' :
  row_at s0 rid = Some r → Desk.requests s = table_put rid r' (Desk.requests s0) →
  (∀ cid, open_conversation s cid = open_conversation s0 cid) → Desk.sessions s = Desk.sessions s0 →
  active_agent_load s u + Z.b2z (loads_agent s0 u r) =
  active_agent_load s0 u + Z.b2z (loads_agent s0 u r').
Proof.
  intros Hr Hreq Ho Hs. rewrite !load_of, Hreq, (select_ext _ (loads_agent s0 u)) by by apply loads_ext.
  pose proof (length_select_put (loads_agent s0 u) (Desk.requests s0) rid r r' Hr) as E.
  destruct (loads_agent s0 u r), (loads_agent s0 u r'); cbn in *; lia.
Qed.

Lemma load_nonneg s u : 0 ≤ active_agent_load s u.
Proof. rewrite load_of. lia. Qed.

(** ** An assignment *)

Section Assign.
Context (delivered : Z → string → bool).

(** The two rows that an assignment writes *)
Definition assigned_desk (rid cid u : Z) (mode : string) (now : Z) (s : Desk.t) : Desk.t :=
  upd_row cid (taken_over rid u mode now) (upd_row rid (accepted_request u now) s).

Lemma assigned_requests rid cid u mode now s r :
  row_at s rid = Some r →
  Desk.requests (assigned_desk rid cid u mode now s) =
  table_put rid (accepted_request u now r) (Desk.requests s).
Proof.
  intros Hr. unfold assigned_desk, upd_row at 1.
  destruct (row_at _ cid); unfold upd_row; by rewrite Hr.
Qed.

Lemma assigned_rest rid cid u mode now s :
  Desk.sessions (assigned_desk rid cid u mode now s) = Desk.sessions s ∧
  Desk.agents (assigned_desk rid cid u mode now s) = Desk.agents s ∧
  Desk.offers (assigned_desk rid cid u mode now s) = Desk.offers s.
Proof.
  unfold assigned_desk, upd_row. destruct (row_at s rid); destruct (row_at _ cid); done.
Qed.

Lemma assigned_conversation rid cid u mode now s i :
  row_at (R := WebchatConversation.t) (assigned_desk rid cid u mode now s) i =
  if decide (cid = i) then taken_over rid u mode now <$> row_at s i else row_at s i.
Proof.
  unfold assigned_desk. set (s1 := upd_row rid _ s).
  assert (∀ j, row_at (R := WebchatConversation.t) s1 j = row_at s j) as H
    by (intros j; unfold s1, upd_row; by destruct (row_at s rid)).
  rewrite <- H. unfold upd_row. destruct (row_at (R := WebchatConversation.t) s1 cid) as [c|] eqn:Ec.
  - unfold row_at at 1. rewrite rows_of_on_rows. unfold table_get. rewrite lookup_table_put.
    case_decide as E; [|done]. subst i. by rewrite Ec.
  - case_decide as E; [|done]. subst i. by rewrite Ec.
Qed.

Lemma assigned_open rid cid u mode now s i :
  open_conversation (assigned_desk rid cid u mode now s) i = open_conversation s i.
Proof.
  unfold open_conversation. rewrite assigned_conversation. case_decide; [|done].
  by destruct (row_at s i).
Qed.

(** The assignment of a text *)
Lemma commit_text rid cid u mode now s :
  same_desk (assigned_desk rid cid u mode now s)
    (snd (commit_assignment delivered rid cid u mode None None now s)).
Proof.
  unfold commit_assignment. rewrite !set_bind.
  match goal with |- same_desk _ (snd (?m ?s')) =>
    assert (∀ s0, preserves (same_desk s0) m) as Hm by (intros s0; preserve);
    exact (Hm s' s' (same_refl s')) end.
Qed.

Lemma held_accepted u v now r : held_by v (accepted_request u now r) = bool_decide (u = v).
Proof.
  unfold held_by. fields. apply bool_decide_ext. split; [by intros [= ->]|by intros ->].
Qed.
Lemma held_requested u r : WebchatHandoffRequest.status r = "requested" → held_by u r = false.
Proof. intros H. unfold held_by. by rewrite H. Qed.

Lemma loads_requested s v r : WebchatHandoffRequest.status r = "requested" →
  loads_agent s v r = false.
Proof. intros H. unfold loads_agent. by rewrite held_requested. Qed.
Lemma loads_accepted s u v now r :
  loads_agent s v (accepted_request u now r) =
  bool_decide (u = v) && open_conversation s (WebchatHandoffRequest.conversation_id r) &&
  negb (voice_exists s (WebchatHandoffRequest.conversation_id r)).
Proof. unfold loads_agent. by rewrite held_accepted. Qed.

(** The load grows by one for the agent who takes an open text. *)
Lemma assigned_load rid cid u mode now s r v :
  row_at s rid = Some r → WebchatHandoffRequest.status r = "requested" →
  active_agent_load (assigned_desk rid cid u mode now s) v = active_agent_load s v +
    Z.b2z (bool_decide (u = v) && open_conversation s (WebchatHandoffRequest.conversation_id r) &&
           negb (voice_exists s (WebchatHandoffRequest.conversation_id r))).
Proof.
  intros Hr Hst.
  pose proof (load_put s (assigned_desk rid cid u mode now s) v rid r (accepted_request u now r) Hr
    (assigned_requests rid cid u mode now s r Hr) (assigned_open rid cid u mode now s)
    (proj1 (assigned_rest rid cid u mode now s))) as E.
  rewrite loads_requested, loads_accepted, Z.add_0_r in E by done. exact E.
Qed.
End Assign.

(** ** Errors that a program does not raise *)

Section Avoids.
Context {S : Type} (e : exc).

Definition avoids {A} (m : M S A) : Prop := ∀ s, fst (m s) ≠ Err e.

Lemma avoids_ret {A} (a : A) : avoids (mret a). Proof. by intros s. Qed.
Lemma avoids_raise {A} e' : e' ≠ e → avoids (@raise S A e'). Proof. intros H s [= ?]. done. Qed.
Lemma avoids_lift {A} (r : result A) : r ≠ Err e → avoids (lift r).
Proof. by intros H s. Qed.
Lemma avoids_require b e' : e' ≠ e → avoids (require b e').
Proof. intros H. destruct b; [apply avoids_ret|by apply avoids_raise]. Qed.
Lemma avoids_get : avoids get. Proof. by intros s. Qed.
Lemma avoids_gets {A} (f : S → A) : avoids (gets f). Proof. by intros s. Qed.
Lemma avoids_modify f : avoids (modify f). Proof. by intros s. Qed.
Lemma avoids_bind {A B} (m : M S A) (k : A → M S B) :
  avoids m → (∀ a, avoids (k a)) → avoids (m ≫= k).
Proof.
  intros Hm Hk s. unfold mbind, M_bind. specialize (Hm s).
  destruct (m s) as [[a|e'] s1]; [apply Hk|]. intros [= ->]. by apply Hm.
Qed.
Lemma avoids_when b m : avoids m → avoids (when b m).
Proof. destruct b; [done|intros _; apply avoids_ret]. Qed.
Lemma avoids_iterM {A} (f : A → M S unit) l : (∀ a, avoids (f a)) → avoids (iterM f l).
Proof.
  intros Hf. induction l as [|a l IH]; simpl; [apply avoids_ret|]. by apply avoids_bind.
Qed.
End Avoids.
#[export] Hint Resolve avoids_ret avoids_get avoids_gets avoids_modify : nexus.

Ltac avoid_step :=
  lazymatch goal with
  | |- avoids _ (mbind _ _) => apply avoids_bind; [| intros ?]
  | |- avoids _ (when _ _) => apply avoids_when
  | |- avoids _ (iterM _ _) => apply avoids_iterM; intros ?
  | |- avoids _ (raise _) => by apply avoids_raise
  | |- avoids _ (require _ _) => by apply avoids_require
  | |- avoids _ (match ?x with _ => _ end) => destruct x
  | |- avoids _ _ => first [ solve [auto with nexus] | progress cbv zeta ]
  end.
Ltac avoid := repeat avoid_step.

Section AvoidsRows.
Context (e : exc).
Lemma avoids_set `{Stored R} i f : avoids e (set_row (R := R) i f). Proof. by intros s. Qed.
Lemma avoids_add `{Stored R} mk : avoids e (add_row (R := R) mk). Proof. by intros s. Qed.
Lemma avoids_on_work {A} (m : M Work.t A) : avoids e m → avoids e (on_work m).
Proof. intros H s. unfold on_work. specialize (H (Desk.work s)). by destruct (m _). Qed.
Lemma avoids_now : avoids e utc_now. Proof. by intros s. Qed.
End AvoidsRows.
#[export] Hint Resolve avoids_set avoids_add avoids_now : nexus.

#[local] Abbreviation spared := (avoids handoff_not_waiting).

Lemma spared_row `{Stored R} i : spared (the_row (R := R) i).
Proof. intros s. unfold the_row. by destruct (row_at s i). Qed.
Lemma spared_conversation cid : spared (the_conversation cid).
Proof. intros s. unfold the_conversation. by destruct (conversation_at s cid). Qed.
#[export] Hint Resolve spared_row spared_conversation : nexus.
Lemma spared_cancel delivered cid actor reason :
  spared (cancel_open_ai_turns_for_handoff delivered cid actor reason).
Proof.
  unfold cancel_open_ai_turns_for_handoff, cancel_turn, cancel_job, safe_write_webchat_event,
    _clear_active_snapshot. avoid; by intros s.
Qed.

Lemma spared_on_cancel delivered cid actor reason :
  spared (on_work (cancel_open_ai_turns_for_handoff delivered cid actor reason)).
Proof. apply avoids_on_work, spared_cancel. Qed.
Lemma spared_event cid t p : spared (_event cid t p).
Proof. unfold _event. avoid. by apply avoids_on_work. Qed.
Lemma spared_audit a b c d e f : spared (log_admin_audit a b c d e f).
Proof. unfold log_admin_audit. avoid. Qed.
Lemma spared_on_task cid f : spared (on_task cid f).
Proof. unfold on_task, set_task. avoid. Qed.
#[export] Hint Resolve spared_on_cancel spared_event spared_audit spared_on_task : nexus.
Lemma spared_control cid : spared (_control_for_conversation cid).
Proof. unfold _control_for_conversation. avoid. Qed.
Lemma spared_announce delivered rid cid u mode v o now :
  spared (announce_assignment delivered rid cid u mode v o now).
Proof. unfold announce_assignment. avoid. Qed.
Lemma spared_serialize rid cid : spared (serialize_handoff rid cid).
Proof. unfold serialize_handoff. avoid. Qed.
Lemma spared_fresh st : spared (heartbeat_is_fresh st).
Proof. unfold heartbeat_is_fresh. avoid. Qed.
Lemma spared_agent_state u : spared (get_or_create_agent_state u).
Proof. unfold get_or_create_agent_state. avoid. Qed.
#[export] Hint Resolve spared_control spared_announce spared_serialize spared_fresh
  spared_agent_state : nexus.

Lemma capabilities_spared j : _normalized_capabilities j ≠ Err handoff_not_waiting.
Proof. by destruct j. Qed.
Lemma observed_spared p : observed_terms p ≠ Err handoff_not_waiting.
Proof. unfold observed_terms. by destruct (HandoffRoutingPlan.required_capabilities_json p). Qed.
Lemma required_spared p : required_capabilities p ≠ Err handoff_not_waiting.
Proof. unfold required_capabilities. by destruct (HandoffRoutingPlan.required_capabilities_json p). Qed.
Lemma contract_spared loads a : _plan_contract loads a ≠ Err handoff_not_waiting.
Proof.
  unfold _plan_contract. repeat case_match; try done.
  match goal with |- context [_normalized_capabilities ?j] => by destruct j end.
Qed.

Lemma spared_activate plan : spared (activate_due_generation plan).
Proof. unfold activate_due_generation. avoid. Qed.
#[export] Hint Resolve spared_activate : nexus.
Lemma spared_candidate plan c user kind b : spared (candidate_is_authorized plan c user kind b).
Proof.
  unfold candidate_is_authorized. avoid. apply avoids_lift, required_spared.
Qed.
Lemma spared_record plan rid agent kind outcome reason ref :
  spared (record_candidate_attempt plan rid agent kind outcome reason ref).
Proof. unfold record_candidate_attempt. avoid. Qed.
Lemma spared_assigned plan agent : spared (mark_plan_assigned plan agent).
Proof. unfold mark_plan_assigned. avoid. Qed.
Lemma spared_project cid user : spared (_project_ticket_case_ownership cid user).
Proof. unfold _project_ticket_case_ownership. avoid. Qed.
Lemma spared_plan sha dumps loads rid : spared (ensure_handoff_routing_plan sha dumps loads rid).
Proof.
  unfold ensure_handoff_routing_plan. avoid.
  - apply avoids_lift, contract_spared.
  - apply avoids_lift, observed_spared.
Qed.
#[export] Hint Resolve spared_candidate spared_record spared_assigned spared_project spared_plan : nexus.
Lemma spared_authorized plan control user kind b :
  spared (_candidate_authorized plan control user kind b).
Proof. unfold _candidate_authorized. avoid. Qed.
#[export] Hint Resolve spared_authorized : nexus.

(** ** The assignment of a text *)

Lemma hoare_spared {A} (P : Desk.t → Prop) (m : M Desk.t A) : preserves P m → spared m →
  hoare P m (fun _ => P) (fun e s => e ≠ handoff_not_waiting ∧ P s).
Proof.
  intros HP Hm s Hs. specialize (HP s Hs). specialize (Hm s). destruct (m s) as [[a|e] s']; [done|].
  split; [|done]. intros ->. by apply Hm.
Qed.

Lemma quiet_keeps {A} (P : Desk.t → Prop) (m : M Desk.t A) :
  (∀ s s', same_desk s s' → P s → P s') → (∀ s0, preserves (same_desk s0) m) → preserves P m.
Proof. intros HP Hm s Hs. apply (HP s); [|done]. apply Hm, same_refl. Qed.

(** A text waits: the handoff of an open conversation without a call *)
Record text_waits (s : Desk.t) (rid cid : Z) : Prop := {
  tw_row : ∃ r, row_at s rid = Some r ∧ WebchatHandoffRequest.status r = "requested" ∧
                WebchatHandoffRequest.conversation_id r = cid;
  tw_open : open_conversation s cid = true;
  tw_text : voice_exists s cid = false }.

(** The state of an agent *)
Record agent_is (s : Desk.t) (u : Z) (a : OperatorAgentState.t) : Prop := {
  ai_found : agent_of s u = Some a;
  ai_row : row_at s (OperatorAgentState.id a) = Some a }.

(** The user has one more conversation, and had room for it. *)
Record took (s0 : Desk.t) (u : Z) (a : OperatorAgentState.t) (s : Desk.t) : Prop := {
  took_agents : Desk.agents s = Desk.agents s0;
  took_room : active_agent_load s0 u < OperatorAgentState.max_concurrent_conversations a;
  took_load : active_agent_load s u = active_agent_load s0 u + 1 }.

Lemma took_same s0 u a s s' : same_desk s s' → took s0 u a s → took s0 u a s'.
Proof.
  intros H [E1 E2 E3]. split; [by rewrite (same_agents _ _ H)|done|by rewrite (load_same s)].
Qed.
Lemma agent_same s0 s u a : Desk.agents s = Desk.agents s0 → agent_is s0 u a → agent_is s u a.
Proof.
  intros E [H1 H2]. split; [revert H1|revert H2];
    unfold agent_of, first_where, row_at; cbn [rows_of stored_agent]; by rewrite E.
Qed.
Lemma text_same s0 s rid cid : same_desk s0 s → text_waits s0 rid cid → text_waits s rid cid.
Proof.
  intros H [Hr Ho Hv]. split.
  - unfold row_at. cbn [rows_of stored_request]. by rewrite (same_requests _ _ H).
  - by rewrite (same_open _ _ _ H).
  - by rewrite (same_voice s0 s cid (same_sessions _ _ H)).
Qed.

Lemma no_session s cid : voice_exists s cid = false → _voice_session_for_conversation s cid = None.
Proof.
  unfold voice_exists, _voice_session_for_conversation, last_where, rows_where, first_where.
  intros H. destruct (select_first _ _) eqn:E; [done|].
  assert (select (λ v : WebchatVoiceSession.t,
    (WebchatVoiceSession.conversation_id v =? cid) && open_voice v) (rows_of s) = []) as ->; [|done].
  apply select_nil. by apply select_first_None.
Qed.

Section TextAssign.
Context (delivered : Z → string → bool) (s0 : Desk.t) (rid cid : Z) (u : Z) (a : OperatorAgentState.t).
Context (Hagent : agent_is s0 u a) (Htext : text_waits s0 rid cid).

(** What is left when the assignment raises *)
Definition no_loss (e : exc) (s : Desk.t) : Prop :=
  e ≠ handoff_not_waiting ∧ (same_desk s0 s ∨ took s0 u a s).

Lemma waiting_takes mode :
  hoare (same_desk s0) (assign_waiting delivered rid cid u a mode None)
    (fun _ => took s0 u a) no_loss.
Proof.
  intros s Hs. destruct (text_same _ _ _ _ Hs Htext) as [(r & Hr & Hst & Hc) Ho Hv].
  pose proof (no_session s cid Hv) as Hn. unfold open_conversation in Ho.
  destruct (row_at (R := WebchatConversation.t) s cid) as [c|] eqn:Ec; [|done].
  unfold assign_waiting. rewrite get_bind, Hr, Ec, (bool_decide_eq_true_2 _ Hst).
  cbn [require]. unfold mret at 1, M_ret at 1, mbind at 1, M_bind at 1. rewrite now_bind.
  rewrite Hn. unfold assignment_slot. unfold mbind at 1, M_bind at 1. rewrite get_bind.
  assert (same_desk s0 (ticked s)) as Hs' by (apply (same_trans _ s); [done|by split]).
  destruct (Z.ltb_spec (active_agent_load (ticked s) u)
    (OperatorAgentState.max_concurrent_conversations a)) as [Hlt|]; [|by split; [|left]].
  cbn [require]. unfold mret at 1 2, M_ret at 1 2, mbind at 1, M_bind at 1. cbv beta iota.
  set (now := Db.clock (core s) (Db.ticks (core s))).
  pose proof (commit_text delivered rid cid u mode now (ticked s)) as Hq.
  assert (spared (commit_assignment delivered rid cid u mode None None now)) as Hsp
    by (unfold commit_assignment; avoid).
  specialize (Hsp (ticked s)).
  assert (took s0 u a (snd (commit_assignment delivered rid cid u mode None None now (ticked s)))) as Ht.
  { apply (took_same _ _ _ _ _ Hq). split.
    + destruct (assigned_rest rid cid u mode now (ticked s)) as (_ & -> & _). apply Hs'.
    + by rewrite <- (load_same _ _ u Hs').
    + rewrite (assigned_load rid cid u mode now (ticked s) r u Hr Hst), (load_same _ _ u Hs').
      rewrite bool_decide_eq_true_2 by done.
      rewrite Hc, (same_open _ _ cid Hs'), (same_voice s0 _ cid (same_sessions _ _ Hs')).
      by rewrite (tw_open _ _ _ Htext), (tw_text _ _ _ Htext). }
  destruct (commit_assignment _ _ _ _ _ _ _ _ _) as [[x|e] s']; cbn [snd fst] in *; [done|].
  split; [|by right]. intros ->. by apply Hsp.
Qed.

Lemma agent_state_found s : same_desk s0 s →
  get_or_create_agent_state u s = (Ok (OperatorAgentState.id a), s) ∧
  row_at s (OperatorAgentState.id a) = Some a.
Proof.
  intros Hs. destruct (agent_same _ _ _ _ (same_agents _ _ Hs) Hagent) as [H1 H2].
  unfold get_or_create_agent_state. by rewrite get_bind, H1.
Qed.

(** A step that leaves the desk as it is *)
Lemma quiet_then {A B} (m : M Desk.t A) (k : A → M Desk.t B) Q :
  (∀ s1, preserves (same_desk s1) m) → spared m →
  (∀ x, hoare (same_desk s0) (k x) Q no_loss) →
  hoare (same_desk s0) (m ≫= k) Q no_loss.
Proof.
  intros H1 H2 Hk. eapply hoare_bind; [|exact Hk].
  eapply (hoare_conseq _ _ _ _ (fun _ => same_desk s0)); [done|done| |by apply hoare_spared].
  intros e s [? ?]. split; [done|by left].
Qed.
Lemma took_then {A} (m : M Desk.t A) :
  (∀ s1, preserves (same_desk s1) m) → spared m →
  hoare (took s0 u a) m (fun _ => took s0 u a) no_loss.
Proof.
  intros H1 H2.
  eapply (hoare_conseq _ _ _ _ (fun _ => took s0 u a)); [done|done| |apply hoare_spared; [|done]].
  - intros e s [? ?]. split; [done|by right].
  - eapply quiet_keeps; [|exact H1]. intros s s'. apply took_same.
Qed.

Lemma core_takes user mode : User.id user = u →
  hoare (same_desk s0) (core_assign_handoff_to_agent delivered rid cid user mode None)
    (fun _ => took s0 u a) no_loss.
Proof.
  intros Hu. unfold core_assign_handoff_to_agent. cbv zeta. rewrite Hu.
  intros s Hs. destruct (agent_state_found s Hs) as [H1 H2].
  unfold mbind at 1, M_bind at 1. rewrite H1, row_bind, H2. revert s Hs H1 H2.
  enough (∀ b, hoare (same_desk s0) (fresh ← (if b : bool then heartbeat_is_fresh a else mret false);
    require (b && fresh) (HTTPException 409 "agent_not_available");;
    kid ← _control_for_conversation cid;
    control ← the_row kid;
    s ← get;
    require (core_scope_grant_exists s user control) (HTTPException 403 "agent_scope_not_authorized");;
    assign_waiting delivered rid cid u a mode None) (fun _ => took s0 u a) no_loss) as H
    by (intros s Hs _ _; by apply H).
  intros b. apply quiet_then; [intros s1; preserve|avoid|]. intros fresh.
  apply quiet_then; [intros s1; preserve|avoid|]. intros [].
  apply quiet_then; [intros s1; preserve|avoid|]. intros kid.
  apply quiet_then; [intros s1; preserve|avoid|]. intros control.
  apply quiet_then; [intros s1; preserve|avoid|]. intros s.
  apply quiet_then; [intros s1; preserve|avoid|]. intros [].
  apply waiting_takes.
Qed.

Section Service.
Context (sha256_hex : string → string) (dumps : json → string) (loads : string → option json).

Lemma service_takes user mode : User.id user = u →
  hoare (same_desk s0)
    (service_assign_handoff_to_agent delivered sha256_hex dumps loads rid cid user mode None)
    (fun _ => took s0 u a) no_loss.
Proof.
  intros Hu. unfold service_assign_handoff_to_agent.
  apply quiet_then; [intros s1; preserve|avoid|]. intros kid.
  apply quiet_then; [intros s1; preserve|avoid|]. intros control.
  apply quiet_then; [intros s1; preserve|avoid|]. intros s. cbv zeta.
  apply quiet_then; [intros s1; preserve|avoid|]. intros plan.
  apply quiet_then; [intros s1; preserve|avoid|]. intros authorized.
  apply quiet_then; [intros s1; preserve|avoid|]. intros [].
  eapply hoare_bind; [by apply core_takes|]. intros result.
  apply took_then; [intros s1; preserve|avoid].
Qed.

Lemma contract_takes user mode : User.id user = u →
  hoare (same_desk s0)
    (contract_assign_handoff_to_agent delivered sha256_hex dumps loads rid cid user mode None)
    (fun _ => took s0 u a) no_loss.
Proof.
  intros Hu. unfold contract_assign_handoff_to_agent.
  eapply hoare_bind; [by apply service_takes|]. intros result.
  apply took_then; [intros s1; preserve|avoid].
Qed.
End Service.
End TextAssign.

(** ** The candidates of the two routers *)

Lemma elem_of_waiting p s0 s r : desk_ok s0 s → r ∈ waiting_texts p s →
  text_waits s (WebchatHandoffRequest.id r) (WebchatHandoffRequest.conversation_id r).
Proof.
  intros Hs. unfold waiting_texts. rewrite elem_of_sort_by. intros (i & Hi & Hp)%elem_of_select.
  apply andb_true_iff in Hp as [Hp _]. apply andb_true_iff in Hp as [Hp Hv].
  apply andb_true_iff in Hp as [Hst Ho]. destruct (good_rows _ _ (requests_good s0 s Hs) i r Hi) as [Hid _].
  cbn [row_id request_rule] in Hid. split; [|done|by apply negb_true_iff in Hv].
  exists r. rewrite Hid. split; [exact Hi|]. by apply bool_decide_eq_true in Hst.
Qed.

(** What a router promises to the loop that fills the capacity of an agent *)
Class TextRouter (router : Router) : Prop := {
  text_rule :: RouterRule router;
  text_found user s0 s : desk_ok s0 s →
    same_desk s (snd (_eligible_text_request_for_agent router user s)) ∧
    ∀ rid cid, fst (_eligible_text_request_for_agent router user s) = Ok (Some (rid, cid)) →
               text_waits s rid cid;
  text_takes s0 rid cid user a : agent_is s0 (User.id user) a → text_waits s0 rid cid →
    hoare (same_desk s0) (assign_handoff_to_agent router rid cid user "automatic" None)
      (fun _ => took s0 (User.id user) a) (no_loss s0 (User.id user) a) }.

#[export] Instance core_texts delivered : TextRouter (core_router delivered).
Proof.
  split; [apply _| |].
  - intros user s0 s Hs. split; [apply same_refl|]. intros rid cid. cbn.
    unfold gets, core_eligible_text_request_for_agent. cbn. intros [= H].
    destruct (waiting_texts _ s) as [|r l] eqn:E; [done|]. cbn in H. injection H as <- <-.
    eapply elem_of_waiting; [done|]. rewrite E. by left.
  - intros s0 rid cid user a Ha Ht. by apply core_takes.
Qed.

Section ServiceTexts.
Context (delivered : Z → string → bool) (set_order : list Z → list Z).
Context (sha256_hex : string → string) (dumps : json → string) (loads : string → option json).
Context (installed : bool).

Lemma first_authorized_in user l s0 :
  hoare (same_desk s0) (first_authorized sha256_hex dumps loads installed user l)
    (fun o _ => ∀ rid cid, o = Some (rid, cid) → ∃ r, r ∈ l ∧
       rid = WebchatHandoffRequest.id r ∧ cid = WebchatHandoffRequest.conversation_id r)
    (fun _ _ => True).
Proof.
  induction l as [|r l IH]; cbn [first_authorized]; [by apply hoare_ret|]. cbv zeta.
  assert (hoare (same_desk s0) (first_authorized sha256_hex dumps loads installed user l)
    (fun o _ => ∀ rid cid, o = Some (rid, cid) → ∃ r', r' ∈ r :: l ∧
       rid = WebchatHandoffRequest.id r' ∧ cid = WebchatHandoffRequest.conversation_id r')
    (fun _ _ => True)) as Hrest.
  { eapply hoare_conseq; [| | |exact IH]; [done| |done]. intros o s H rid cid Ho.
    destruct (H rid cid Ho) as (r' & ? & ?). exists r'. split; [by right|done]. }
  assert (∀ A (m : M Desk.t A), preserves (same_desk s0) m →
    hoare (same_desk s0) m (fun _ => same_desk s0) (fun _ _ => True)) as Hq.
  { intros A m Hm. by eapply hoare_conseq; [| | |apply hoare_keep, Hm]. }
  eapply hoare_bind; [apply Hq; preserve|]. intros plan. cbv beta.
  eapply hoare_bind; [apply Hq; preserve|]. intros s. cbv beta.
  destruct (_ && _ && _); [exact Hrest|]. destruct (control_of _ _); [|exact Hrest].
  eapply hoare_bind; [apply Hq; preserve|]. intros authorized. cbv beta.
  destruct authorized; [|exact Hrest]. apply hoare_ret. intros s' _ rid cid [= <- <-].
  exists r. by split; [left|].
Qed.

#[export] Instance service_texts :
  TextRouter (service_router delivered set_order sha256_hex dumps loads installed).
Proof.
  split; [apply _| |].
  - intros user origin s Hs. cbn [_eligible_text_request_for_agent service_router].
    unfold service_eligible_text_request_for_agent. rewrite get_bind.
    match goal with |- context [first_authorized _ _ _ _ user ?l] => set (texts := l) end. split.
    + apply quiet_run. intros s0. preserve.
    + intros rid cid Hok. pose proof (first_authorized_in user texts s s (same_refl s)) as H.
      destruct (first_authorized _ _ _ _ user texts s) as [[o|e] s1]; [|done]. cbn in Hok.
      destruct (H rid cid ltac:(by injection Hok)) as (r & Hr & -> & ->).
      eapply elem_of_waiting; [done|]. exact (subseteq_take _ _ _ Hr).
  - intros s0 rid cid user a Ha Ht. cbn [assign_handoff_to_agent service_router].
    destruct installed; [by apply contract_takes|by apply service_takes].
Qed.
End ServiceTexts.

(** ** Filling the capacity of an agent

    The runs of the [while] loop, without fuel *)

Section Fill.
Context (router : Router) (user : User.t) (sid : Z).
#[local] Abbreviation u := (User.id user).
#[local] Abbreviation pick := (_eligible_text_request_for_agent router user).
#[local] Abbreviation assign rid cid := (assign_handoff_to_agent router rid cid user "automatic" None).

Inductive fills : Desk.t → result (list json) → Desk.t → Prop :=
| fills_full s a : row_at s sid = Some a →
    OperatorAgentState.max_concurrent_conversations a ≤ active_agent_load s u →
    fills s (Ok []) s
| fills_empty s a s1 : row_at s sid = Some a →
    active_agent_load s u < OperatorAgentState.max_concurrent_conversations a →
    pick s = (Ok None, s1) → fills s (Ok []) s1
| fills_lost s a e s1 : row_at s sid = Some a →
    active_agent_load s u < OperatorAgentState.max_concurrent_conversations a →
    pick s = (Err e, s1) → fills s (Err e) s1
| fills_next s a rid cid s1 j s2 r s3 : row_at s sid = Some a →
    active_agent_load s u < OperatorAgentState.max_concurrent_conversations a →
    pick s = (Ok (Some (rid, cid)), s1) → caught (assign rid cid) s1 = (Ok (inl j), s2) →
    fills s2 r s3 → fills s (l ← r; mret (j :: l)) s3
| fills_again s a rid cid s1 s2 r s3 : row_at s sid = Some a →
    active_agent_load s u < OperatorAgentState.max_concurrent_conversations a →
    pick s = (Ok (Some (rid, cid)), s1) →
    caught (assign rid cid) s1 = (Ok (inr handoff_not_waiting), s2) →
    fills s2 r s3 → fills s r s3
| fills_refused s a rid cid s1 e s2 : row_at s sid = Some a →
    active_agent_load s u < OperatorAgentState.max_concurrent_conversations a →
    pick s = (Ok (Some (rid, cid)), s1) → caught (assign rid cid) s1 = (Ok (inr e), s2) →
    e ≠ handoff_not_waiting → fills s (Ok []) s2
| fills_raised s a rid cid s1 e s2 : row_at s sid = Some a →
    active_agent_load s u < OperatorAgentState.max_concurrent_conversations a →
    pick s = (Ok (Some (rid, cid)), s1) → caught (assign rid cid) s1 = (Err e, s2) →
    fills s (Err e) s2.

Definition fills_run (s : Desk.t) (run : result (list json) * Desk.t) : Prop :=
  fills s (fst run) (snd run).

Lemma caught_run {A} (m : M Desk.t A) s :
  caught m s = match m s with
               | (Ok x, s') => (Ok (inl x), s')
               | (Err e, s') => (match e with
                                 | HTTPException _ _ | HTTPExceptionCode _ _ _ => Ok (inr e)
                                 | _ => Err e
                                 end, s')
               end.
Proof. unfold caught, try_catch, mbind, M_bind. destruct (m s) as [[x|e] s']; [done|]. by destruct e. Qed.

Context `{!TextRouter router}.

(** What is known of a run of the loop *)
Definition filled (a : OperatorAgentState.t) (s : Desk.t) (run : result (list json) * Desk.t) : Prop :=
  fills_run s run ∧
  active_agent_load s u ≤ active_agent_load (snd run) u ≤
    Z.max (active_agent_load s u) (OperatorAgentState.max_concurrent_conversations a) ∧
  (∀ l, fst run = Ok l →
     active_agent_load s u + Z.of_nat (length l) ≤ active_agent_load (snd run) u).

Lemma fill_unfold n a s : agent_is s u a → OperatorAgentState.id a = sid →
  fill_with_texts router (S n) user sid s =
  if active_agent_load s u <? OperatorAgentState.max_concurrent_conversations a then
    match pick s with
    | (Ok (Some (rid, cid)), s1) =>
        match caught (assign rid cid) s1 with
        | (Ok (inl j), s2) => (rest ← fill_with_texts router n user sid; mret (j :: rest)) s2
        | (Ok (inr e), s2) => if bool_decide (e = handoff_not_waiting)
                              then fill_with_texts router n user sid s2 else (Ok [], s2)
        | (Err e, s2) => (Err e, s2)
        end
    | (Ok None, s1) => (Ok [], s1)
    | (Err e, s1) => (Err e, s1)
    end
  else (Ok [], s).
Proof.
  intros Ha Hid. cbn [fill_with_texts]. rewrite row_bind, <- Hid, (ai_row _ _ _ Ha), get_bind.
  destruct (_ <? _); [|done]. cbn [negb]. unfold mbind at 1, M_bind at 1.
  destruct (pick s) as [[[[rid cid]|]|e] s1]; try done. unfold mbind at 1, M_bind at 1.
  destruct (caught _ s1) as [[[j|e]|e] s2]; [done| |done]. by destruct (bool_decide _).
Qed.

Lemma fill_step s0 n a s :
  desk_ok s0 s → agent_is s u a → OperatorAgentState.id a = sid →
  active_agent_load s u < OperatorAgentState.max_concurrent_conversations a →
  (∀ s', desk_ok s0 s' → agent_is s' u a → active_agent_load s' u = active_agent_load s u + 1 →
         filled a s' (fill_with_texts router n user sid s')) →
  filled a s (fill_with_texts router (S n) user sid s).
Proof.
  intros Hs Ha Hid Hlt IH. rewrite (fill_unfold n a s Ha Hid), (proj2 (Z.ltb_lt _ _) Hlt).
  destruct (text_found (router := router) user s0 s Hs) as [Hsame Hfound].
  assert (row_at s sid = Some a) as Hrow by (rewrite <- Hid; apply Ha).
  pose proof (rule_text (router := router) s0 user s Hs) as Hok1.
  destruct (pick s) as [[[[rid cid]|]|e] s1] eqn:Ep; cbn [fst snd] in *.
  - pose proof (text_takes (router := router) s rid cid user a Ha (Hfound _ _ eq_refl) s1 Hsame) as Ht.
    pose proof (rule_assign (router := router) s0 rid cid user "automatic" None s1 Hok1) as Hok2.
    pose proof (caught_run (assign rid cid) s1) as Hc.
    destruct (assign rid cid s1) as [[j|e] s2] eqn:Ea; cbn [fst snd] in *.
    + rewrite Hc. destruct Ht as [E1 _ E2].
      destruct (IH s2 Hok2 (agent_same _ _ _ _ E1 Ha) E2) as (Hf & Hb & Hl).
      unfold fills_run in *. unfold mbind, M_bind.
      assert (fills s (l ← fst (fill_with_texts router n user sid s2); mret (j :: l))
        (snd (fill_with_texts router n user sid s2))) as Hfills by by eapply fills_next.
      destruct (fill_with_texts router n user sid s2) as [[l|e] s3]; cbn [fst snd] in *.
      * split; [exact Hfills|]. split; [cbn; lia|]. intros l' [= <-]. specialize (Hl l eq_refl). cbn in *. lia.
      * split; [exact Hfills|]. split; [cbn; lia|done].
    + destruct Ht as [Hne Hs2].
      assert (filled a s (match e with
        | HTTPException _ _ | HTTPExceptionCode _ _ _ => Ok [] | _ => Err e end, s2)) as Hgoal.
      { unfold filled, fills_run. cbn [fst snd]. split; [|split].
        - destruct e; solve [by eapply fills_refused|by eapply fills_raised].
        - destruct Hs2 as [H|[_ _ H]]; [rewrite (load_same _ _ u H)|rewrite H]; lia.
        - intros l Hl. assert (l = []) as -> by (destruct e; simplify_eq/=; done). cbn.
          destruct Hs2 as [H|[_ _ H]]; [rewrite (load_same _ _ u H)|rewrite H]; lia. }
      rewrite Hc. destruct e; try exact Hgoal; by rewrite bool_decide_eq_false_2.
  - split; [by eapply fills_empty|]. cbn [fst snd]. rewrite (load_same _ _ u Hsame).
    split; [lia|]. intros l [= <-]. cbn. lia.
  - split; [by eapply fills_lost|]. cbn [fst snd]. rewrite (load_same _ _ u Hsame). split; [lia|done].
Qed.

(** The loop, from a state with room for [n] conversations at most *)
Lemma fill_texts_runs s0 n a s :
  desk_ok s0 s → agent_is s u a → OperatorAgentState.id a = sid →
  OperatorAgentState.max_concurrent_conversations a - active_agent_load s u ≤ Z.of_nat n →
  filled a s (fill_with_texts router (S n) user sid s).
Proof.
  revert s. induction n as [|n IH]; intros s Hs Ha Hid Hn;
    (destruct (Z.lt_ge_cases (active_agent_load s u)
       (OperatorAgentState.max_concurrent_conversations a)) as [Hlt|Hge];
     [|rewrite (fill_unfold _ a s Ha Hid), (proj2 (Z.ltb_ge _ _) Hge);
       split; [eapply fills_full; [rewrite <- Hid; apply Ha|done]|]; split; [cbn; lia|];
       intros l [= <-]; cbn; lia]).
  - lia.
  - apply (fill_step s0); [done..|]. intros s' Hs' Ha' Hl. apply IH; [done..|]. lia.
Qed.
End Fill.

(** ** The table of agents

    What the routing does before it fills the capacity of an agent leaves the agents as they
    are. *)

Section Agents.
Context (A : Table OperatorAgentState.t).
Definition with_agents (s : Desk.t) : Prop := Desk.agents s = A.

Lemma same_with s0 s : same_desk s0 s → with_agents s0 → with_agents s.
Proof. intros H Hs. unfold with_agents. by rewrite (same_agents _ _ H). Qed.
Lemma quiet_with {B} (m : M Desk.t B) :
  (∀ s0, preserves (same_desk s0) m) → preserves with_agents m.
Proof. apply quiet_keeps. intros s s'. apply same_with. Qed.
End Agents.

Class NoAgent (R : Type) `{Stored R} := {
  no_agent f s : Desk.agents (on_rows f s) = Desk.agents s }.
#[export] Instance no_agent_request : NoAgent WebchatHandoffRequest.t. Proof. by split. Qed.
#[export] Instance no_agent_plan : NoAgent HandoffRoutingPlan.t. Proof. by split. Qed.
#[export] Instance no_agent_attempt : NoAgent HandoffRoutingCandidateAttempt.t. Proof. by split. Qed.
#[export] Instance no_agent_offer : NoAgent VoiceRoutingOffer.t. Proof. by split. Qed.
#[export] Instance no_agent_session : NoAgent WebchatVoiceSession.t. Proof. by split. Qed.
#[export] Instance no_agent_conversation : NoAgent WebchatConversation.t. Proof. by split. Qed.

Section AgentsKept.
Context (A : Table OperatorAgentState.t).
#[local] Abbreviation kept := (preserves (with_agents A)).

Lemma kept_set `{NoAgent R} i f : kept (set_row (R := R) i f).
Proof.
  intros s Hs. unfold set_row, modify, upd_row, with_agents. cbn [snd].
  destruct (row_at s i); [by rewrite no_agent|done].
Qed.
Lemma kept_add `{NoAgent R} mk : kept (add_row (R := R) mk).
Proof. intros s Hs. unfold add_row, with_agents. cbn [snd]. by rewrite no_agent. Qed.
Lemma kept_row `{Stored R} i : kept (the_row (R := R) i).
Proof. apply quiet_with. intros s0. apply quiet_row. Qed.
Lemma agents_now : kept utc_now. Proof. apply quiet_with. intros s0. apply quiet_now. Qed.
Lemma kept_token : kept token_urlsafe. Proof. apply quiet_with. intros s0. apply quiet_token. Qed.
Lemma kept_event cid t p : kept (_event cid t p).
Proof. apply quiet_with. intros s0. apply quiet_event. Qed.
Lemma kept_audit a b c d e f : kept (log_admin_audit a b c d e f).
Proof. apply quiet_with. intros s0. apply quiet_audit. Qed.
Lemma kept_control cid : kept (_control_for_conversation cid).
Proof. apply quiet_with. intros s0. apply quiet_control. Qed.
Lemma kept_fresh st : kept (heartbeat_is_fresh st).
Proof. apply quiet_with. intros s0. apply quiet_fresh. Qed.
Lemma kept_record plan rid agent kind outcome reason ref :
  kept (record_candidate_attempt plan rid agent kind outcome reason ref).
Proof. apply quiet_with. intros s0. apply quiet_record. Qed.
Lemma kept_plan sha dumps loads rid : kept (ensure_handoff_routing_plan sha dumps loads rid).
Proof. apply quiet_with. intros s0. apply quiet_plan. Qed.
Lemma kept_candidate plan c user kind b : kept (candidate_is_authorized plan c user kind b).
Proof. apply quiet_with. intros s0. apply quiet_candidate. Qed.
Lemma kept_authorized plan control user kind b : kept (_candidate_authorized plan control user kind b).
Proof. apply quiet_with. intros s0. apply quiet_authorized. Qed.
End AgentsKept.
#[export] Hint Resolve kept_row agents_now kept_token kept_event kept_audit kept_control kept_fresh
  kept_record kept_plan kept_candidate kept_authorized : nexus.
#[export] Hint Extern 2 (preserves (with_agents _) (set_row _ _)) => solve [apply kept_set, _] : nexus.
#[export] Hint Extern 2 (preserves (with_agents _) (add_row _)) => solve [apply kept_add, _] : nexus.

Section AgentsKeptBy.
Context (A : Table OperatorAgentState.t).
#[local] Abbreviation kept := (preserves (with_agents A)).

Lemma kept_filterM {B} (f : B → M Desk.t bool) l : (∀ b, kept (f b)) → kept (filterM f l).
Proof. intros Hf. induction l as [|b l IH]; simpl; [apply preserves_ret|]. preserve; auto. Qed.
Lemma kept_slot x : kept (has_voice_slot x).
Proof. unfold has_voice_slot, active_voice_load, reserved_voice_offer_count. preserve. Qed.
Hint Resolve kept_slot : nexus.
Lemma kept_place v rid cid agent now noted :
  (∀ t, kept (noted t)) → kept (place_offer v rid cid agent now noted).
Proof. intros Hn. unfold place_offer. preserve; auto. Qed.
Lemma kept_core_voice_agents rid control : kept (core_eligible_voice_agents rid control).
Proof. unfold core_eligible_voice_agents. preserve. apply kept_filterM. intros x. preserve. Qed.
Hint Resolve kept_core_voice_agents : nexus.
Lemma kept_core_next vid : kept (core_create_next_voice_offer vid).
Proof. unfold core_create_next_voice_offer. preserve; apply kept_place; intros; preserve. Qed.
Lemma kept_wrap_up now sid : kept (release_wrap_up now sid).
Proof. unfold release_wrap_up. preserve. Qed.
Hint Resolve kept_wrap_up : nexus.
Lemma kept_core_release u : kept (core_release_expired_voice_wrap_ups u).
Proof. unfold core_release_expired_voice_wrap_ups. preserve. Qed.
Lemma kept_schedule plan reason : kept (schedule_retry_or_exhaust plan reason).
Proof. unfold schedule_retry_or_exhaust. preserve. Qed.
Lemma kept_close_plan rid outcome : kept (close_routing_plan rid outcome).
Proof. unfold close_routing_plan. preserve. Qed.
Lemma kept_update_attempt ref outcome reason : kept (update_attempt_by_external_ref ref outcome reason).
Proof. unfold update_attempt_by_external_ref. preserve. Qed.
Lemma kept_eligible plan c kind b : kept (eligible_agents plan c kind b).
Proof. unfold eligible_agents, _heartbeat_fresh. preserve. apply kept_filterM. intros x. preserve. Qed.
Hint Resolve kept_core_next kept_core_release kept_schedule kept_close_plan kept_update_attempt
  kept_eligible : nexus.

Section Service.
Context (delivered : Z → string → bool) (set_order : list Z → list Z).
Context (sha256_hex : string → string) (dumps : json → string) (loads : string → option json).
Context (installed : bool).

Lemma kept_voice_agents rid control :
  kept (_eligible_voice_agents sha256_hex dumps loads installed rid control).
Proof. unfold _eligible_voice_agents. preserve. apply kept_filterM. intros x. preserve. Qed.
Hint Resolve kept_voice_agents : nexus.
Lemma kept_service_next vid : kept (service_create_next_voice_offer sha256_hex dumps loads installed vid).
Proof.
  unfold service_create_next_voice_offer, retry_later. preserve; apply kept_place; intros; preserve.
Qed.
Lemma kept_service_release u : kept (service_release_expired_voice_wrap_ups set_order u).
Proof. unfold service_release_expired_voice_wrap_ups. preserve. Qed.
End Service.
End AgentsKeptBy.

(** What a router does before the loop *)
Class KeepsAgents (router : Router) : Prop := {
  keeps_note A o a b : preserves (with_agents A) (note_offer router o a b);
  keeps_next A vid : preserves (with_agents A) (create_next_voice_offer router vid);
  keeps_release A u : preserves (with_agents A) (release_expired_voice_wrap_ups router u) }.
#[export] Instance core_keeps delivered : KeepsAgents (core_router delivered).
Proof.
  split; intros; cbn [note_offer create_next_voice_offer release_expired_voice_wrap_ups core_router].
  - apply preserves_ret.
  - apply kept_core_next.
  - apply kept_core_release.
Qed.
#[export] Instance service_keeps delivered set_order sha256_hex dumps loads installed :
  KeepsAgents (service_router delivered set_order sha256_hex dumps loads installed).
Proof.
  split; intros; cbn [note_offer create_next_voice_offer release_expired_voice_wrap_ups service_router].
  - apply kept_update_attempt.
  - apply kept_service_next.
  - apply kept_service_release.
Qed.

Lemma kept_before A set_order router u `{!KeepsAgents router} :
  preserves (with_agents A) (before_fill set_order router u).
Proof.
  unfold before_fill, expire_voice_offers, expire_offer, offer_again.
  preserve; first [apply keeps_note|apply keeps_next|apply keeps_release].
Qed.
