(* ===== verification/DeskHistory.v ===== *)
(** * Histories of the agent desk

    The operations of the routing service as transactions, the invariant of DeskRules.v
    along every history of them, what an assignment does, that filling the capacity of an
    agent ends, and a conversation whose closure goes around the routing plan. *)

From S2P Require Import Prelude Calendar Enums Models Fixtures Permissions Tenancy Work JobScope.
From S2P Require Import Jobs AiTurns Desk Plans Tasks Routing RoutingService DeskRules DeskLoad.

(** ** Histories *)

(** A transaction of the routing service, or what other components do to the rest of the
    database ([Elsewhere]) and to calls ([NewCall]) *)
Inductive desk_op :=
| ReadState (user_id : Z)
| SetState (user : User.t) (status : string) (capacity : option Z) (voice_enabled : option bool)
    (voice_capacity wrap_up : option Z)
| Heartbeat (user : User.t)
| AcceptOffer (session : Z) (user : User.t)
| DeclineOffer (session : Z) (user : User.t) (reason_code : string) (note : option string)
| RequestHandoff (conversation : Z) (reason : HandoffReason.t)
| CloseConversation (conversation : Z) (user : User.t) (outcome : string) (note : option string)
| Elsewhere (f : Work.t → Work.t)
| NewCall (mk : Z → WebchatVoiceSession.t).

Definition desk_op_ok (o : desk_op) : Prop :=
  match o with NewCall mk => ∀ i, WebchatVoiceSession.id (mk i) = i | _ => True end.

Section Histories.
Context (delivered : Z → string → bool) (set_order : list Z → list Z).
Context (sha256_hex : string → string) (dumps : json → string) (loads : string → option json).
Context (installed : bool).

Definition desk_program (o : desk_op) : M Desk.t unit :=
  match o with
  | ReadState u =>
      _ ← read_agent_state delivered set_order sha256_hex dumps loads installed u; mret tt
  | SetState user st c v vc w =>
      _ ← set_agent_state delivered set_order sha256_hex dumps loads installed user st c v vc w; mret tt
  | Heartbeat user =>
      _ ← heartbeat_agent delivered set_order sha256_hex dumps loads installed user; mret tt
  | AcceptOffer vid user =>
      _ ← accept_voice_offer delivered set_order sha256_hex dumps loads installed vid user; mret tt
  | DeclineOffer vid user reason note =>
      _ ← decline_voice_offer sha256_hex dumps loads installed vid user reason note; mret tt
  | RequestHandoff cid x =>
      _ ← request_handoff delivered set_order sha256_hex dumps loads installed cid x; mret tt
  | CloseConversation cid user outcome note =>
      _ ← close_conversation delivered set_order sha256_hex dumps loads cid user outcome note; mret tt
  | Elsewhere f => modify (fun s => s <| Desk.work ::= f |>)
  | NewCall mk => _ ← add_row mk; mret tt
  end.

(** A transaction commits, or is rolled back when it raises. *)
Definition run_desk_op (s : Desk.t) (o : desk_op) : Desk.t :=
  match desk_program o s with (Ok _, s') => s' | (Err _, _) => s end.

Lemma ok_new_call s0 mk : (∀ i, WebchatVoiceSession.id (mk i) = i) →
  preserves (desk_ok s0) (add_row mk).
Proof. intros H s Hs. by apply ok_add_at. Qed.

Lemma ok_desk_program s0 o : desk_op_ok o → preserves (desk_ok s0) (desk_program o).
Proof.
  intros Ho. destruct o; cbn [desk_program]; try (apply preserves_bind; [|intros; apply preserves_ret]).
  - apply ok_read.
  - apply ok_set_agent_state.
  - apply ok_heartbeat_agent.
  - apply ok_accept.
  - apply ok_decline.
  - apply ok_request_handoff.
  - apply ok_close.
  - apply preserves_modify. intros s. apply ok_work.
  - by apply ok_new_call.
Qed.

Lemma ok_run_desk_op s0 s o : desk_op_ok o → desk_ok s0 s → desk_ok s0 (run_desk_op s o).
Proof.
  intros Ho Hs. pose proof (ok_desk_program s0 o Ho s Hs) as H. unfold run_desk_op.
  by destruct (desk_program o s) as [[[]|e] s'].
Qed.

Lemma ok_desk_history s0 ops s :
  Forall desk_op_ok ops → desk_ok s0 s → desk_ok s0 (foldl run_desk_op s ops).
Proof.
  intros Hops. revert s. induction Hops as [|o ops Ho _ IH]; intros s Hs; [done|].
  apply IH. by apply ok_run_desk_op.
Qed.


(** ** Plans *)

Definition plan_terms (p : HandoffRoutingPlan.t) :=
  (HandoffRoutingPlan.request_id p, HandoffRoutingPlan.ticket_id p,
   HandoffRoutingPlan.scenario_assignment_id p, HandoffRoutingPlan.scenario_snapshot_sha256 p,
   HandoffRoutingPlan.owner_queue_key p, HandoffRoutingPlan.required_capabilities_json p,
   HandoffRoutingPlan.plan_digest p, HandoffRoutingPlan.max_generations p).

Lemma plan_path_terms p p' : rtc plan_step p p' →
  plan_terms p' = plan_terms p ∧
  HandoffRoutingPlan.current_generation p ≤ HandoffRoutingPlan.current_generation p'.
Proof.
  induction 1 as [p|p q p' Hs _ [IH1 IH2]]; [done|]. rewrite IH1.
  destruct Hs; (split; [done|]); cbn in IH2; lia.
Qed.

Lemma plan_path_ok p p' : rtc plan_step p p' → plan_ok p → plan_ok p'.
Proof. induction 1; [done|]. intros. eauto using plan_step_ok. Qed.

(** A delay that is scheduled is one of two. *)
Lemma backoff_values g : 1 ≤ g → g < DEFAULT_MAX_GENERATIONS →
  backoff_seconds g = 30 ∨ backoff_seconds g = 60.
Proof.
  unfold DEFAULT_MAX_GENERATIONS. intros H1 H2. assert (g = 1 ∨ g = 2) as [->| ->] by lia;
    [by left|by right].
Qed.

End Histories.

(** ** Filling the capacity of an agent *)

(** C25: the loop of [fill_agent_capacity] ends, with either router, from the state that the
    expiry of offers and of after-call work leaves: the fuel that the model computes from the
    capacity, or more, gives a run of the [while] loop ([fills]).  The load of the agent does
    not fall and does not go beyond the capacity, unless it was beyond before, and grows by
    one at least for each handoff that is returned. *)
Theorem capacity_fill_terminates delivered set_order sha256_hex dumps loads installed router user a n
    s s1 :
  router = core_router delivered ∨
    router = service_router delivered set_order sha256_hex dumps loads installed →
  desk_ok s s → agent_is s (User.id user) a →
  before_fill set_order router (User.id user) s = (Ok tt, s1) →
  (fill_fuel (OperatorAgentState.max_concurrent_conversations a) ≤ n)%nat →
  let run := fill_with_texts router n user (OperatorAgentState.id a) s1 in
  fills router user (OperatorAgentState.id a) s1 (fst run) (snd run) ∧
  active_agent_load s1 (User.id user) ≤ active_agent_load (snd run) (User.id user) ≤
    Z.max (active_agent_load s1 (User.id user)) (OperatorAgentState.max_concurrent_conversations a) ∧
  ∀ l, fst run = Ok l → active_agent_load s1 (User.id user) + Z.of_nat (length l) ≤
                        active_agent_load (snd run) (User.id user).
Proof.
  intros Hr Hs Ha Hb Hn. cbv zeta.
  assert (TextRouter router ∧ KeepsAgents router) as [HT HK]
    by (destruct Hr as [->| ->]; split; apply _).
  pose proof (ok_before_fill set_order router s (User.id user) s Hs) as Hok. rewrite Hb in Hok.
  pose proof (kept_before (Desk.agents s) set_order router (User.id user) s eq_refl) as Hk.
  rewrite Hb in Hk. destruct n as [|n]; [unfold fill_fuel in Hn|].
  { destruct (good_row s s _ _ Hs (ai_row _ _ _ Ha)) as [_ (_ & Hc & _)]. lia. }
  apply (fill_texts_runs router user (OperatorAgentState.id a) s n a s1 Hok); [|done|].
  - by apply (agent_same s).
  - pose proof (load_nonneg s1 (User.id user)). unfold fill_fuel in Hn. lia.
Qed.

(** ** A closure that goes around the routing plan

    Agent 30 has room for one conversation and a grant for the queue [legacy].  Conversation 5
    has no ticket; conversation 6 belongs to ticket 1, whose scenario is owned by the queue
    [claims]. *)

Module FixDesk.
Definition delivered (_ : Z) (_ : string) : bool := true.
Definition set_order (l : list Z) : list Z := l.
Definition sha256_hex (text : string) : string := "sha256:" +:+ text.
Definition dumps (_ : json) : string := "terms".
Definition loads (text : string) : option json :=
  if bool_decide (text = "snapshot") then
    Some (JObj [("schema", JStr "nexus.case-scenario-assignment.v1");
      ("scenario", JObj [("scenario_key", JStr "damage"); ("owner_queue_key", JStr "claims");
        ("risk_level", JStr "low"); ("required_capabilities", JArr [])])])
  else None.

Definition grant (i user : Z) (queue : string) : OperatorQueueScopeGrant.t :=
  {| OperatorQueueScopeGrant.id := i; OperatorQueueScopeGrant.user_id := user;
     OperatorQueueScopeGrant.tenant_key := "acme"; OperatorQueueScopeGrant.country_code := "HR";
     OperatorQueueScopeGrant.channel_key := "default"; OperatorQueueScopeGrant.queue_key := queue;
     OperatorQueueScopeGrant.enabled := true |}.
Definition scenario : CaseScenarioAssignment.t :=
  {| CaseScenarioAssignment.id := 1; CaseScenarioAssignment.ticket_id := 1;
     CaseScenarioAssignment.scenario_key := "damage"; CaseScenarioAssignment.catalog_version := "v";
     CaseScenarioAssignment.catalog_sha256 := "c";
     CaseScenarioAssignment.scenario_snapshot_json := "snapshot";
     CaseScenarioAssignment.assignment_source := "ticket_insert";
     CaseScenarioAssignment.assignment_reason := None; CaseScenarioAssignment.assigned_by := None;
     CaseScenarioAssignment.assigned_at := 0; CaseScenarioAssignment.superseded_at := None;
     CaseScenarioAssignment.superseded_by_id := None |}.
Definition conversation (i : Z) (ticket : option Z) : WebchatConversation.t :=
  FixWork.conversation <| WebchatConversation.id := i |>
    <| WebchatConversation.public_id := "wc_" +:+ pretty i |>
    <| WebchatConversation.ticket_id := ticket |>.

Definition desk : Desk.t :=
  {| Desk.work := FixWork.idle <| Work.conversations :=
       {| trows := <[5 := conversation 5 None]> {[6 := conversation 6 (Some 1)]}; tnext := 7 |} |>;
     Desk.agents := empty_table;
     Desk.grants := {| trows := {[1 := grant 1 30 "legacy"]}; tnext := 2 |};
     Desk.requests := empty_table; Desk.decisions := empty_table;
     Desk.scenarios := {| trows := {[1 := scenario]}; tnext := 2 |};
     Desk.plans := empty_table; Desk.attempts := empty_table; Desk.sessions := empty_table;
     Desk.offers := empty_table; Desk.legs := empty_table; Desk.voice_configs := empty_table;
     Desk.tasks := empty_table; Desk.audits := []; Desk.scope_country := Some (Some "HR");
     Desk.token_urlsafe := fun n => "token" +:+ pretty n |}.

Definition asked : HandoffReason.t :=
  {| HandoffReason.source := "ai_auto"; HandoffReason.trigger_type := "handoff_required";
     HandoffReason.reason_code := None; HandoffReason.reason_text := None;
     HandoffReason.recommended_agent_action := None; HandoffReason.trigger_message_id := None;
     HandoffReason.ai_turn_id := None; HandoffReason.requested_by_actor_type := "system";
     HandoffReason.requested_by_user_id := None |}.

Definition run_op := run_desk_op delivered set_order sha256_hex dumps loads true.
Definition opening : list desk_op :=
  [SetState Fix.agent "online" (Some 1) None None None; RequestHandoff 5 asked;
   RequestHandoff 6 asked].
(** Handoff 1 is with the agent, handoff 2 waits for somebody of the queue [claims]. *)
Definition waiting : Desk.t := foldl run_op desk opening.
Definition closed : Desk.t :=
  run_op waiting (CloseConversation 5 Fix.agent "human_resolved" None).
(** Agent 30 is free, and the handoff of conversation 6 waits. *)
Definition free : Desk.t :=
  foldl run_op desk [SetState Fix.agent "online" (Some 1) None None None; RequestHandoff 6 asked].
(** Room for one more, through the service *)
Definition with_room : Desk.t := run_op waiting (SetState Fix.agent "online" (Some 2) None None None).
Definition agent_of_handoff (s : Desk.t) (rid : Z) : option (string * option Z) :=
  (fun r => (WebchatHandoffRequest.status r, WebchatHandoffRequest.assigned_agent_id r)) <$> row_at s rid.
Definition status_of_plan (s : Desk.t) (i : Z) : option string :=
  HandoffRoutingPlan.status <$> row_at s i.
End FixDesk.



(** ** Witnesses *)

Lemma desk_ok_init : desk_ok FixDesk.desk FixDesk.desk.
Proof. split; (split; [intros i r Hr|intros i r Hr]; cbn in Hr; by rewrite lookup_empty in Hr). Qed.

Lemma desk_ok_self s0 s : desk_ok s0 s → desk_ok s s.
Proof.
  assert (∀ R (C : Constrained R) (T0 T : Table R), table_good T0 T → table_good T T) as H.
  { intros R C T0 T [H1 _]. split; [exact H1|]. intros i r Hr. by exists r. }
  intros []. split; by eapply H.
Qed.

Lemma fix_run_ok ops s : Forall desk_op_ok ops → desk_ok s s →
  desk_ok (foldl FixDesk.run_op s ops) (foldl FixDesk.run_op s ops).
Proof. intros Ho Hs. by eapply desk_ok_self, ok_desk_history. Qed.



Lemma capacity_fill_terminates_witness :
  ∃ a s1, agent_is FixDesk.free 30 a ∧
    let run := fill_with_texts (core_router FixDesk.delivered) 2 Fix.agent
                 (OperatorAgentState.id a) s1 in
    fills (core_router FixDesk.delivered) Fix.agent (OperatorAgentState.id a) s1 (fst run) (snd run).
Proof.
  assert (desk_ok FixDesk.free FixDesk.free) as Hs
    by (apply fix_run_ok; [by repeat constructor|apply desk_ok_init]).
  assert (∃ a, agent_is FixDesk.free 30 a ∧ OperatorAgentState.max_concurrent_conversations a = 1)
    as (a & Ha & Hc).
  { eexists. split; [split|]; vm_compute; reflexivity. }
  pose (before := before_fill FixDesk.set_order (core_router FixDesk.delivered) 30 FixDesk.free).
  assert (fst before = Ok tt) as Hb by (vm_compute; reflexivity).
  exists a, (snd before). split; [exact Ha|].
  apply (capacity_fill_terminates FixDesk.delivered FixDesk.set_order FixDesk.sha256_hex FixDesk.dumps
    FixDesk.loads true (core_router FixDesk.delivered) Fix.agent a 2 FixDesk.free (snd before)).
  - by left.
  - exact Hs.
  - exact Ha.
  - change (before = (Ok tt, snd before)). rewrite <- Hb. apply surjective_pairing.
  - rewrite Hc. unfold fill_fuel. lia.
Defined.
