(* ===== verification/DeskAssign.v ===== *)
(** * What an assignment does

    The effect of [core_assign_handoff_to_agent] on the handoff, the conversation, the call
    and the load of the agent, when it returns. *)

From S2P Require Import Prelude Calendar Enums Models Fixtures Permissions Tenancy Work JobScope.
From S2P Require Import Jobs AiTurns Desk Plans Tasks Routing RoutingService DeskRules DeskLoad.
From S2P Require Import DeskHistory.

(** ** Rows that were written *)

Section Written.
Context {R : Type} `{Stored R}.

Lemma row_at_put (s : Desk.t) i (r : R) j :
  row_at (on_rows (table_put i r) s) j = if decide (i = j) then Some r else row_at s j.
Proof. unfold row_at. rewrite rows_of_on_rows. unfold table_get. by rewrite lookup_table_put. Qed.

Lemma row_at_upd (s : Desk.t) i (f : R → R) j :
  row_at (upd_row i f s) j = if decide (i = j) then f <$> row_at s j else row_at s j.
Proof.
  unfold upd_row. destruct (row_at s i) as [r|] eqn:E.
  - rewrite row_at_put. case_decide as Ei; [|done]. subst j. by rewrite E.
  - case_decide as Ei; [|done]. subst j. by rewrite E.
Qed.

Lemma add_row_Ok (mk : Z → R) s i s' : add_row mk s = (Ok i, s') → row_at s' i = Some (mk i).
Proof.
  unfold add_row. intros H0. pose proof (f_equal fst H0) as H1. pose proof (f_equal snd H0) as H2.
  cbn [fst snd] in H1, H2. injection H1 as <-. subst s'. unfold row_at. rewrite rows_of_on_rows.
  unfold table_get. by rewrite lookup_table_add, decide_True.
Qed.

Lemma set_row_Ok i (f : R → R) s s' : set_row i f s = (Ok tt, s') → s' = upd_row i f s.
Proof. by intros [= <-]. Qed.
End Written.

(** ** The steps *)

Lemma agent_state_cases u s sid s1 :
  desk_ok s s → get_or_create_agent_state u s = (Ok sid, s1) →
  (∃ a, agent_is s u a ∧ sid = OperatorAgentState.id a ∧ s1 = s) ∨
  (∃ a, row_at s1 sid = Some a ∧ OperatorAgentState.status a = "offline").
Proof.
  intros Hs. unfold get_or_create_agent_state. rewrite get_bind.
  destruct (agent_of s u) as [a|] eqn:Ea.
  - intros [= <- <-]. left. exists a. split; [|done]. split; [exact Ea|].
    unfold agent_of in Ea. apply select_first_Some in Ea as (i & Hi & _).
    destruct (good_rows _ _ (agents_good _ _ Hs) i a Hi) as [Hid _].
    unfold row_at. cbn [rows_of stored_agent]. cbn [row_id agent_rule] in Hid. by rewrite Hid.
  - rewrite now_bind. intros H%add_row_Ok. right. by eexists.
Qed.

(** The scope of a conversation, brought up to date *)
Lemma control_scope cid s kid s1 k c :
  _control_for_conversation cid s = (Ok kid, s1) → row_at s cid = Some c → row_at s1 kid = Some k →
  ConversationControl.tenant_key k = WebchatConversation.tenant_key c ∧
  ConversationControl.channel_key k = WebchatConversation.channel_key c.
Proof.
  unfold _control_for_conversation. rewrite row_bind. intros H Hc. rewrite Hc, get_bind in H.
  revert H. destruct (control_of (Desk.work s) cid) as [row|] eqn:E; rewrite now_bind.
  - rewrite set_bind. intros H. pose proof (f_equal fst H) as H1. pose proof (f_equal snd H) as H2.
    cbn [fst snd mret M_ret] in H1, H2. injection H1 as <-. subst s1.
    rewrite row_at_upd, decide_True by done. intros Hk. apply fmap_Some in Hk as (old & _ & ->). done.
  - intros H%add_row_Ok. rewrite H. by intros [= <-].
Qed.

(** What the desk shows of a call that was taken *)
Record call_taken (v : WebchatVoiceSession.t) (o : VoiceRoutingOffer.t) (rid now : Z) (s0 s : Desk.t)
    : Prop := {
  ct_work : Desk.work s = Desk.work s0;
  ct_requests : Desk.requests s = Desk.requests s0;
  ct_agents : Desk.agents s = Desk.agents s0;
  ct_grants : Desk.grants s = Desk.grants s0;
  ct_session : row_at s (WebchatVoiceSession.id v) = Some (connected rid now v);
  ct_offer : row_at s (VoiceRoutingOffer.id o) = Some (accepted_offer now o);
  ct_silent i x : row_at s i = Some x →
    VoiceRoutingOffer.voice_session_id x = WebchatVoiceSession.id v → offered x = false }.

Lemma connect_call_taken v o rid u now s :
  row_at s (VoiceRoutingOffer.id o) = Some o → row_at s (WebchatVoiceSession.id v) = Some v →
  (∀ i x, row_at s i = Some x → VoiceRoutingOffer.id x = i) →
  call_taken v o rid now s (snd (connect_call v o rid u now s)).
Proof.
  intros Ho Hv Hids. unfold connect_call. rewrite !set_bind.
  unfold upd_row at 2. rewrite Ho. set (s1 := on_rows _ s).
  assert (row_at s1 (WebchatVoiceSession.id v) = Some v) as Hv1 by exact Hv.
  unfold upd_row. rewrite Hv1. set (s2 := on_rows _ s1).
  unfold update_where, modify. unfold mbind at 1, M_bind at 1. cbv beta iota.
  set (p := fun x : VoiceRoutingOffer.t =>
    (VoiceRoutingOffer.voice_session_id x =? WebchatVoiceSession.id v) && offered x &&
    negb (VoiceRoutingOffer.id x =? VoiceRoutingOffer.id o)).
  set (s3 := on_rows _ s2). rewrite get_bind.
  assert (∀ i, row_at s3 i = (fun x => if p x then cancelled_offer now x else x) <$> row_at s1 i) as H3.
  { intros i. unfold s3, row_at at 1. rewrite rows_of_on_rows. unfold table_get. cbn [trows].
    by rewrite lookup_fmap. }
  assert (call_taken v o rid now s s3) as [].
  { split; [done..| | |].
    - unfold s3. change (row_at (R := WebchatVoiceSession.t) s2 (WebchatVoiceSession.id v) =
        Some (connected rid now v)). unfold s2. by rewrite row_at_put, decide_True.
    - rewrite H3. unfold s1. rewrite row_at_put, decide_True by done. cbn [fmap option_fmap option_map].
      unfold p. by rewrite Z.eqb_refl, andb_false_r.
    - intros i x. rewrite H3. unfold s1. rewrite row_at_put. case_decide as Ei.
      + intros [= <-] _. unfold p. by destruct (_ && _ && _).
      + intros Hx Hsess. apply fmap_Some in Hx as (x0 & Hx0 & ->).
        destruct (p x0) eqn:Ep; [done|]. unfold p in Ep. rewrite Hsess, Z.eqb_refl in Ep.
        rewrite (Hids i x0 Hx0) in Ep. apply not_eq_sym, Z.eqb_neq in Ei. rewrite Ei in Ep.
        by destruct (offered x0). }
  destruct (first_where _ s3); by split.
Qed.

(** The offer by which an agent may take a call *)
Record own_slot (s : Desk.t) (a : OperatorAgentState.t) (u : Z) (v : WebchatVoiceSession.t)
    (voice_offer : option Z) (now : Z) (o : VoiceRoutingOffer.t) : Prop := {
  os_voice : OperatorAgentState.voice_enabled a = true;
  os_row : ∃ i, row_at s i = Some o;
  os_call : VoiceRoutingOffer.voice_session_id o = WebchatVoiceSession.id v;
  os_agent : VoiceRoutingOffer.agent_id o = u;
  os_rings : offered o = true;
  os_time : now < VoiceRoutingOffer.expires_at o;
  os_named i : voice_offer = Some i → VoiceRoutingOffer.id o = i;
  os_room : active_voice_load_at s u now + Z.max 0 (reserved_voice_offers_at s u now - 1) <
            OperatorAgentState.max_concurrent_voice_calls a }.

Lemma slot_of_call a u v vo now s ol s' :
  assignment_slot a u (Some v) vo now s = (Ok ol, s') →
  ∃ o, ol = Some o ∧ own_slot s a u v vo now o.
Proof.
  unfold assignment_slot. rewrite get_bind. intros H. apply bind_Ok_inv in H as (x & s1 & H1 & H).
  apply require_Ok_inv in H1 as [Hv ->].
  match type of H with context [first_where ?p s] => destruct (first_where p s) as [o|] eqn:Eo end;
    [|done].
  apply bind_Ok_inv in H as (y & s2 & H2 & H). apply require_Ok_inv in H2 as [Ht ->].
  apply bind_Ok_inv in H as (z & s3 & H3 & H). apply require_Ok_inv in H3 as [Hl ->].
  injection H as <- _. exists o. split; [done|].
  apply select_first_Some in Eo as (i & Hi & Hp).
  apply andb_true_iff in Hp as [Hp Hn]. apply andb_true_iff in Hp as [Hp Ho].
  apply andb_true_iff in Hp as [Hs%Z.eqb_eq Ha%Z.eqb_eq].
  apply Z.ltb_lt in Ht, Hl. split; try done; [by exists i|].
  intros j ->. by apply Z.eqb_eq.
Qed.

Lemma slot_of_text a u vo now s ol s' :
  assignment_slot a u None vo now s = (Ok ol, s') →
  ol = None ∧ active_agent_load s u < OperatorAgentState.max_concurrent_conversations a.
Proof.
  unfold assignment_slot. rewrite get_bind. intros H. apply bind_Ok_inv in H as (x & s1 & H1 & H).
  apply require_Ok_inv in H1 as [Hl%Z.ltb_lt ->]. by injection H as <- _.
Qed.

(** ** The effect *)

Section Effect.
Context (delivered : Z → string → bool).

(** The handoff and the conversation after an assignment *)
Record handed (s s' : Desk.t) (rid cid u : Z) (mode : string) (now : Z) (r : WebchatHandoffRequest.t)
    (c : WebchatConversation.t) : Prop := {
  hd_waited : row_at s rid = Some r ∧ WebchatHandoffRequest.status r = "requested";
  hd_requests : Desk.requests s' = table_put rid (accepted_request u now r) (Desk.requests s);
  hd_conversation : row_at s cid = Some c;
  hd_views i : view_at s' i = if decide (cid = i) then Some (handoff_view (taken_over rid u mode now c))
                              else view_at s i;
  hd_agents : Desk.agents s' = Desk.agents s }.

Lemma assigned_view rid cid u mode now s i c :
  row_at s cid = Some c →
  view_at (assigned_desk rid cid u mode now s) i =
  if decide (cid = i) then Some (handoff_view (taken_over rid u mode now c)) else view_at s i.
Proof.
  intros Hc. unfold view_at. rewrite assigned_conversation. case_decide as E; [|done].
  subst i. by rewrite Hc.
Qed.

Lemma handed_from s1 s2 s rid cid u mode now r c :
  row_at s1 rid = Some r → WebchatHandoffRequest.status r = "requested" → row_at s1 cid = Some c →
  Desk.work s2 = Desk.work (assigned_desk rid cid u mode now s1) →
  Desk.requests s2 = Desk.requests (assigned_desk rid cid u mode now s1) →
  Desk.agents s2 = Desk.agents (assigned_desk rid cid u mode now s1) →
  same_desk s2 s → handed s1 s rid cid u mode now r c.
Proof.
  intros Hr Hst Hc Hw Hq Ha Hs. split; [done| |done| |].
  - by rewrite (same_requests _ _ Hs), Hq, (assigned_requests _ _ _ _ _ _ r).
  - intros i. rewrite (same_views _ _ Hs), <- (assigned_view _ _ _ _ _ _ _ _ Hc).
    unfold view_at, row_at. cbn [rows_of stored_conversation]. by rewrite Hw.
  - rewrite (same_agents _ _ Hs), Ha. apply assigned_rest.
Qed.

Lemma no_voice s cid : _voice_session_for_conversation s cid = None → voice_exists s cid = false.
Proof.
  unfold voice_exists, _voice_session_for_conversation, last_where, rows_where, first_where.
  intros H%last_None. unfold select_first. by rewrite H.
Qed.

(** What has been checked before the handoff is looked at *)
Record admitted (s : Desk.t) (user : User.t) (cid : Z) (a : OperatorAgentState.t) : Prop := {
  ad_agent : agent_is s (User.id user) a;
  ad_online : OperatorAgentState.status a = "online";
  ad_fresh : fresh_at (Db.clock (core s) (Db.ticks (core s))) a = true;
  ad_scope : ∃ c k, row_at s cid = Some c ∧
    ConversationControl.tenant_key k = WebchatConversation.tenant_key c ∧
    ConversationControl.channel_key k = WebchatConversation.channel_key c ∧
    core_scope_grant_exists s user k = true }.

Lemma granted_same s0 s user k : same_desk s0 s →
  core_scope_grant_exists s user k = core_scope_grant_exists s0 user k.
Proof.
  intros H. unfold core_scope_grant_exists, granted, first_where. cbn [rows_of stored_grant].
  by rewrite (same_grants _ _ H).
Qed.

Lemma core_assign_inv rid cid user mode vo s j s' :
  desk_ok s s → core_assign_handoff_to_agent delivered rid cid user mode vo s = (Ok j, s') →
  ∃ a s1, admitted s user cid a ∧ same_desk s s1 ∧ desk_ok s s1 ∧
    assign_waiting delivered rid cid (User.id user) a mode vo s1 = (Ok j, s').
Proof.
  intros Hs H. unfold core_assign_handoff_to_agent in H. cbv zeta in H.
  apply bind_Ok_inv in H as (sid & s1 & H1 & H). rewrite row_bind in H.
  destruct (agent_state_cases _ _ _ _ Hs H1) as [(a & Ha & -> & ->)|(a & Ha & Hoff)].
  2: { by rewrite Ha, Hoff in H. }
  rewrite (ai_row _ _ _ Ha) in H.
  destruct (bool_decide_reflect (OperatorAgentState.status a = "online")) as [Hon|]; [|done].
  apply bind_Ok_inv in H as (b & s2 & Hb & H). unfold heartbeat_is_fresh in Hb.
  rewrite now_bind in Hb. injection Hb as <- <-.
  apply bind_Ok_inv in H as (x & s2 & Hf & H). apply require_Ok_inv in Hf as [Hf ->].
  apply bind_Ok_inv in H as (kid & s2 & Hk & H). rewrite row_bind in H.
  destruct (row_at s2 kid) as [k|] eqn:Ek; [|done]. rewrite get_bind in H.
  apply bind_Ok_inv in H as (y & s3 & Hg & H). apply require_Ok_inv in Hg as [Hg ->].
  assert (same_desk s s2) as Hs2.
  { pose proof (quiet_control s cid (ticked s)) as Hq. rewrite Hk in Hq. apply Hq. by split. }
  assert (desk_ok s s2) as Hok.
  { pose proof (ok_control s cid (ticked s) (ok_ticked s s Hs)) as Ho. by rewrite Hk in Ho. }
  exists a, s2. split; [|by split]. split; [done|done|by rewrite andb_true_l in Hf|].
  assert (∃ c, row_at (R := WebchatConversation.t) s cid = Some c) as [c Hc].
  { unfold _control_for_conversation in Hk. rewrite row_bind in Hk.
    change (row_at (ticked s) cid) with (row_at (R := WebchatConversation.t) s cid) in Hk.
    destruct (row_at s cid) as [c|]; [by exists c|done]. }
  exists c, k. destruct (control_scope _ _ _ _ _ _ Hk Hc Ek) as [Ht Hch].
  by rewrite <- (granted_same _ _ _ _ Hs2).
Qed.

Lemma taken_view rid u mode now c :
  handoff_view (taken_over rid u mode now c) =
  (WebchatConversation.status c, "accepted", Some u, Some rid, true, WebchatConversation.ticket_id c).
Proof. done. Qed.

Lemma handed_same s s1 s' rid cid u mode now r c1 :
  same_desk s s1 → handed s1 s' rid cid u mode now r c1 → ∃ c, handed s s' rid cid u mode now r c.
Proof.
  intros Hs [[Hr Hst] Hq Hc Hv Ha]. pose proof (same_views _ _ Hs cid) as E. unfold view_at in E.
  rewrite Hc in E. destruct (row_at (R := WebchatConversation.t) s cid) as [c|] eqn:Ec; [|done].
  cbn [fmap option_fmap option_map] in E. assert (handoff_view c1 = handoff_view c) as Ev by congruence.
  exists c. split.
  - split; [|done]. unfold row_at in *. cbn [rows_of stored_request] in *.
    by rewrite <- (same_requests _ _ Hs).
  - by rewrite Hq, (same_requests _ _ Hs).
  - done.
  - intros i. rewrite Hv, (same_views _ _ Hs). case_decide; [|done]. rewrite !taken_view.
    injection Ev as -> _ _ _ _ ->. done.
  - by rewrite Ha, (same_agents _ _ Hs).
Qed.

Lemma session_same s s1 cid : same_desk s s1 →
  _voice_session_for_conversation s1 cid = _voice_session_for_conversation s cid.
Proof.
  intros H. unfold _voice_session_for_conversation, last_where, rows_where.
  cbn [rows_of stored_session]. by rewrite (same_sessions _ _ H).
Qed.

Lemma own_slot_same s s1 a u v vo now o : same_desk s s1 →
  own_slot s1 a u v vo now o → own_slot s a u v vo now o.
Proof.
  intros H [H1 [i Hi] H3 H4 H5 H6 H7 H8]. split; [done| |done..|].
  - exists i. unfold row_at in *. cbn [rows_of stored_offer] in *. by rewrite <- (same_offers _ _ H).
  - revert H8. unfold active_voice_load_at, reserved_voice_offers_at, count_where, rows_where,
      request_of, row_at. cbn [rows_of stored_session stored_offer stored_request].
    by rewrite (same_sessions _ _ H), (same_offers _ _ H), (same_requests _ _ H).
Qed.

(** What an assignment does beside the handoff and the conversation: a text adds to the load of
    the agent, a call is answered. *)
Definition assignment_kind (s s' : Desk.t) (a : OperatorAgentState.t) (rid cid u : Z)
    (vo : option Z) (now : Z) (r : WebchatHandoffRequest.t) : Prop :=
  match _voice_session_for_conversation s cid with
  | None =>
      active_agent_load s u < OperatorAgentState.max_concurrent_conversations a ∧
      ∀ x, active_agent_load s' x = active_agent_load s x +
        Z.b2z (bool_decide (u = x) && open_conversation s (WebchatHandoffRequest.conversation_id r) &&
               negb (voice_exists s (WebchatHandoffRequest.conversation_id r)))
  | Some v => ∃ o, own_slot s a u v vo now o ∧
      row_at s' (WebchatVoiceSession.id v) = Some (connected rid now v) ∧
      row_at s' (VoiceRoutingOffer.id o) = Some (accepted_offer now o) ∧
      ∀ i x, row_at s' i = Some x →
        VoiceRoutingOffer.voice_session_id x = WebchatVoiceSession.id v → offered x = false
  end.

Lemma kind_same s s1 s' a rid cid u vo now r : same_desk s s1 →
  assignment_kind s1 s' a rid cid u vo now r → assignment_kind s s' a rid cid u vo now r.
Proof.
  intros H. unfold assignment_kind. rewrite (session_same _ _ cid H).
  destruct (_voice_session_for_conversation s cid) as [v|].
  - intros (o & Ho & Hrest). exists o. split; [by eapply own_slot_same|done].
  - intros [H1 H2]. split; [by rewrite <- (load_same _ _ u H)|]. intros x.
    by rewrite H2, (load_same _ _ x H), (same_open _ _ _ H), (same_voice s s1 _ (same_sessions _ _ H)).
Qed.

Lemma voice_session_row s0 s cid v : desk_ok s0 s →
  _voice_session_for_conversation s cid = Some v → row_at s (WebchatVoiceSession.id v) = Some v.
Proof.
  intros Hs (l & Hl)%last_Some.
  assert (v ∈ rows_where (fun v => (WebchatVoiceSession.conversation_id v =? cid) && open_voice v) s)
    as Hv by (rewrite Hl; apply elem_of_app; right; by apply list_elem_of_singleton).
  apply elem_of_select in Hv as (i & Hi & _).
  destruct (good_rows _ _ (sessions_good _ _ Hs) i v Hi) as [Hid _]. cbn in Hid. by rewrite Hid.
Qed.

Lemma offer_row s0 s i o : desk_ok s0 s → row_at s i = Some o → VoiceRoutingOffer.id o = i.
Proof. intros Hs Hi. apply (good_rows _ _ (offers_good _ _ Hs) i o Hi). Qed.

(** The commit of an assignment, for a text and for a call *)
Lemma commit_effect s0 s a rid cid u mode vo now r c o :
  desk_ok s0 s → row_at s rid = Some r → WebchatHandoffRequest.status r = "requested" →
  row_at s cid = Some c →
  assignment_slot a u (_voice_session_for_conversation s cid) vo now s = (Ok o, s) →
  let s' := snd (commit_assignment delivered rid cid u mode (_voice_session_for_conversation s cid)
                   o now s) in
  handed s s' rid cid u mode now r c ∧ assignment_kind s s' a rid cid u vo now r.
Proof.
  intros Hs Hr Hst Hc Hslot. cbv zeta. unfold assignment_kind.
  destruct (_voice_session_for_conversation s cid) as [v|] eqn:Ev.
  - destruct (slot_of_call _ _ _ _ _ _ _ _ Hslot) as (x & -> & Hx).
    unfold commit_assignment. rewrite !set_bind. fold (assigned_desk rid cid u mode now s).
    destruct (os_row _ _ _ _ _ _ _ Hx) as [i Hi]. pose proof (offer_row _ _ _ _ Hs Hi) as Ei. subst i.
    assert (call_taken v x rid now (assigned_desk rid cid u mode now s)
      (snd (connect_call v x rid u now (assigned_desk rid cid u mode now s)))) as Ht.
    { destruct (assigned_rest rid cid u mode now s) as (E1 & _ & E3).
      apply connect_call_taken; unfold row_at in *; cbn [rows_of stored_offer stored_session] in *.
      - by rewrite E3.
      - rewrite E1. by apply (voice_session_row s0 s cid).
      - rewrite E3. intros i y. by apply (offer_row s0 s). }
    set (s1 := snd (connect_call v x rid u now (assigned_desk rid cid u mode now s))) in *.
    match goal with |- context [snd ((connect_call v x rid u now;; ?m) ?z)] =>
      assert (∀ z', preserves (same_desk z') m) as Hm by (intros z'; preserve);
      assert (same_desk s1 (snd ((connect_call v x rid u now;; m) z))) as Hq end.
    { unfold s1. unfold mbind, M_bind. destruct (connect_call _ _ _ _ _ _) as [[[]|e] s2]; cbn [snd];
        [apply Hm|]; apply same_refl. }
    split.
    + destruct Ht. by eapply handed_from.
    + exists x. split; [done|]. unfold row_at in *. cbn [rows_of stored_session stored_offer] in *.
      rewrite (same_sessions _ _ Hq), (same_offers _ _ Hq). by destruct Ht.
  - destruct (slot_of_text _ _ _ _ _ _ _ Hslot) as [-> Hroom].
    pose proof (commit_text delivered rid cid u mode now s) as Hq. split.
    + by eapply handed_from.
    + split; [done|]. intros x. rewrite (load_same _ _ x Hq). by apply assigned_load.
Qed.

(** C24: an assignment that returns was of a handoff that waited, to an agent who is online,
    with a fresh heartbeat and an enabled grant for the scope of the conversation.  It
    writes the handoff and the conversation and no other handoff, conversation or agent.  A
    text goes to an agent with room for it, and adds one to the load of this agent only; a
    call goes to the agent whom it rings, by an offer that has not run out, within the
    capacity for calls, and rings nowhere afterwards. *)
Theorem handoff_assignment_effect rid cid user mode vo s j s' :
  desk_ok s s →
  core_assign_handoff_to_agent delivered rid cid user mode vo s = (Ok j, s') →
  ∃ a r c now, admitted s user cid a ∧ handed s s' rid cid (User.id user) mode now r c ∧
    assignment_kind s s' a rid cid (User.id user) vo now r.
Proof.
  intros Hs H. destruct (core_assign_inv _ _ _ _ _ _ _ _ Hs H) as (a & s1 & Had & Hq & Hok & Hw).
  destruct (waiting_cases delivered rid cid (User.id user) a mode vo s1) as
    [(e & s2 & E & _)|((r & Hr & Hst) & [c1 Hc] & o & Hslot & E)]; rewrite Hw in E; [done|].
  assert (same_desk s (ticked s1)) as Hq' by (apply (same_trans _ s1); [done|by split]).
  destruct (commit_effect s (ticked s1) a rid cid (User.id user) mode vo _ r c1 o
    (ok_ticked _ _ Hok) Hr Hst Hc Hslot) as [Hh Hk].
  change (_voice_session_for_conversation (ticked s1) cid)
    with (_voice_session_for_conversation s1 cid) in Hh, Hk.
  rewrite <- E in Hh, Hk. cbn [snd] in Hh, Hk.
  destruct (handed_same _ _ _ _ _ _ _ _ _ _ Hq' Hh) as [c Hh'].
  eexists a, r, c, _. split; [done|]. split; [exact Hh'|]. by eapply kind_same.
Qed.
End Effect.

Lemma handoff_assignment_effect_witness :
  ∃ a r c now s', admitted FixDesk.free Fix.agent 6 a ∧
    handed FixDesk.free s' 1 6 30 "automatic" now r c ∧ active_agent_load s' 30 = 1.
Proof.
  assert (desk_ok FixDesk.free FixDesk.free) as Hs
    by (apply fix_run_ok; [by repeat constructor|apply desk_ok_init]).
  assert (∃ run, core_assign_handoff_to_agent FixDesk.delivered 1 6 Fix.agent "automatic" None
    FixDesk.free = run ∧ match fst run with Ok _ => active_agent_load (snd run) 30 =? 1 | _ => false end
    = true) as ([[j|e] s'] & E & Hl) by (eexists; split; [reflexivity|vm_compute; reflexivity]); [|done].
  destruct (handoff_assignment_effect FixDesk.delivered 1 6 Fix.agent "automatic" None FixDesk.free j s'
    Hs E) as (a & r & c & now & H1 & H2 & _).
  exists a, r, c, now, s'. split; [exact H1|]. split; [exact H2|]. by apply Z.eqb_eq in Hl.
Defined.
