(* ===== verification/Iso.v ===== *)
(** * Instants as texts

    [datetime.isoformat] of an instant in UTC ([Desk.instant_isoformat]) and
    [datetime.fromisoformat] of Python 3.11, by which scenario catalogs and the snapshots of
    their scenarios store times.  Of the forms of ISO 8601 the extended one is read
    ([YYYY-MM-DD], a separator, [HH[:MM[:SS[.f]]]], an offset); the basic form and dates by
    week, which no modelled text has, are refused. *)

From S2P Require Import Prelude Calendar Enums Models Work AiTurns Desk.

(** ** Reading *)

(** Exactly [n] digits *)
Fixpoint read_digits (n : nat) (acc : Z) (s : string) : option (Z * string) :=
  match n, s with
  | O, _ => Some (acc, s)
  | S n', String c s' =>
      if is_digit c then read_digits n' (10 * acc + (code c - 48)) s' else None
  | S _, EmptyString => None
  end.

Definition read_char (k : Z) (s : string) : option string :=
  match s with String c s' => if code c =? k then Some s' else None | EmptyString => None end.

(** Days since the epoch of a date of the Gregorian calendar, the inverse of [civil] *)
Definition day_number (y m d : Z) : Z :=
  let y' := y - (if m <=? 2 then 1 else 0) in
  let yoe := y' mod 400 in
  let doy := (153 * ((m + 9) mod 12) + 2) / 5 + d - 1 in
  y' / 400 * 146097 + (yoe * 365 + yoe / 4 - yoe / 100 + doy) - 719468.

(** [date.fromisoformat]: the midnight of an existing date, and the rest of the text *)
Definition read_date (s : string) : option (Z * string) :=
  '(y, s) ← read_digits 4 0 s; s ← read_char 45 s;
  '(m, s) ← read_digits 2 0 s; s ← read_char 45 s;
  '(d, s) ← read_digits 2 0 s;
  if (1 <=? y) && bool_decide (civil (day_number y m d) = (y, m, d))
  then Some (midnight (day_number y m d), s) else None.

(** The digits of a fraction of a second, those after the sixth cut off *)
Fixpoint read_fraction (left : nat) (acc : Z) (s : string) : Z * string :=
  match s with
  | String c s' =>
      if is_digit c then
        match left with
        | O => read_fraction O acc s'
        | S l => read_fraction l (acc + (code c - 48) * 10 ^ Z.of_nat l) s'
        end
      else (acc, s)
  | EmptyString => (acc, s)
  end.

Definition read_subsecond (s : string) : option (Z * string) :=
  match s with
  | String c (String c' s') =>
      if ((code c =? 46) || (code c =? 44)) && is_digit c'
      then Some (read_fraction 6 0 (String c' s')) else Some (0, s)
  | _ => Some (0, s)
  end.

(** A two-digit field after a colon, if there is a colon *)
Definition read_next (s : string) : option (option Z * string) :=
  match read_char 58 s with
  | Some s' => '(z, s'') ← read_digits 2 0 s'; Some (Some z, s'')
  | None => Some (None, s)
  end.

(** [HH[:MM[:SS[.f]]]]: hours, minutes, seconds and microseconds *)
Definition read_clock (s : string) : option (Z * Z * Z * Z * string) :=
  '(h, s) ← read_digits 2 0 s;
  '(m, s) ← read_next s;
  match m with
  | None => Some (h, 0, 0, 0, s)
  | Some m =>
      '(x, s) ← read_next s;
      match x with
      | None => Some (h, m, 0, 0, s)
      | Some x => '(us, s) ← read_subsecond s; Some (h, m, x, us, s)
      end
  end.

Definition clock_us (h m s us : Z) : Z := seconds (3600 * h + 60 * m + s) + us.

(** The offset from UTC: [None] in a naive text *)
Definition read_offset (s : string) : option (option Z) :=
  match s with
  | EmptyString => Some None
  | String c s' =>
      if code c =? 90 then match s' with EmptyString => Some (Some 0) | _ => None end
      else if (code c =? 43) || (code c =? 45) then
        '(h, m, x, us, rest) ← read_clock s';
        match rest with
        | EmptyString =>
            if (m <? 60) && (x <? 60) && (clock_us h m x us <? hours 24)
            then Some (Some ((if code c =? 43 then 1 else -1) * clock_us h m x us)) else None
        | _ => None
        end
      else None
  end.

(** [datetime.fromisoformat(text)]: the wall time and the offset, if any; [None] when it
    raises [ValueError] *)
Definition fromisoformat (s : string) : option (Z * option Z) :=
  '(day, s) ← read_date s;
  match s with
  | EmptyString => Some (day, None)
  | String _ s =>
      '(h, m, x, us, s) ← read_clock s;
      if (h <? 24) && (m <? 60) && (x <? 60)
      then offset ← read_offset s; Some (day + clock_us h m x us, offset) else None
  end.

(** [text.replace("Z", "+00:00")] *)
Fixpoint zulu (s : string) : string :=
  match s with
  | EmptyString => EmptyString
  | String c s' => if code c =? 90 then "+00:00" +:+ zulu s' else String c (zulu s')
  end.

(** The instant that an aware text names *)
Definition instant_of (s : string) : option Z :=
  '(wall, offset) ← fromisoformat (zulu s);
  match offset with Some o => Some (wall - o) | None => None end.

Example catalog_text : instant_of "2026-07-11T21:15:00Z" = Some (seconds 1783804500).
Proof. reflexivity. Qed.
Example offset_text : instant_of "2024-02-29 12:30:45.0015+02:00" =
  Some (seconds (1709209845 - 7200) + 1500).
Proof. reflexivity. Qed.
Example no_such_day : instant_of "2023-02-29T00:00:00Z" = None. Proof. reflexivity. Qed.
Example naive_text : instant_of "2024-02-29T00:00:00" = None. Proof. reflexivity. Qed.

(** ** What is written is read back *)

(** Quotients and remainders by constants, for [lia] *)
#[local] Ltac Zify.zify_post_hook ::= Z.to_euclidean_division_equations.

(** The day of the year, of a day of a 400-year cycle *)
Lemma day_of_year doe : 0 ≤ doe < 146097 →
  let yoe := (doe - doe / 1460 + doe / 36524 - doe / 146096) / 365 in
  0 ≤ doe - (365 * yoe + yoe / 4 - yoe / 100) ≤ 366.
Proof.
  intros H yoe. destruct (decide (doe = 146096)) as [->|Hn]; [vm_compute; split; discriminate|].
  assert (doe / 146096 = 0) as He by (apply Z.div_small; lia).
  set (c := doe / 36524) in *. set (r := doe mod 36524).
  assert (doe = 36524 * c + r ∧ 0 ≤ r < 36524 ∧ 0 ≤ c ≤ 3) as (E & Hr & Hc) by (unfold c, r; lia).
  set (q := r / 1461). set (s := r mod 1461).
  assert (r = 1461 * q + s ∧ 0 ≤ s < 1461 ∧ 0 ≤ q ≤ 24) as (Er & Hs & Hq) by (unfold q, s; lia).
  set (k := (24 * c + q + s) / 1460). assert (0 ≤ k ≤ 1) as Hk by (unfold k; lia).
  assert (doe / 1460 = 25 * c + q + k) as E1.
  { rewrite E, Er. replace (36524 * c + (1461 * q + s)) with ((24 * c + q + s) + (25 * c + q) * 1460)
      by lia. rewrite Z.div_add by lia. unfold k. lia. }
  set (v := (s - k) / 365).
  assert (yoe = 100 * c + 4 * q + v) as Hy.
  { unfold yoe, v. rewrite He, E1.
    replace (doe - (25 * c + q + k) + c - 0) with ((s - k) + (100 * c + 4 * q) * 365) by lia.
    rewrite Z.div_add by lia. lia. }
  assert (0 ≤ v ≤ 3 ∧ 365 * v ≤ s ≤ 365 * v + 366) as (Hv & Hsv).
  { destruct (decide (k = 0)) as [Ek|Ek].
    - assert (s < 1460) by (unfold k in Ek; lia). unfold v. rewrite Ek. lia.
    - assert (k = 1) as Ek1 by lia. assert (1460 ≤ 24 * c + q + s) by (unfold k in Ek1; lia).
      unfold v. rewrite Ek1. lia. }
  clearbody c r q s k v yoe. assert (yoe / 100 = c) by lia. assert (yoe / 4 = 25 * c + q) by lia. lia.
Qed.

Lemma day_number_civil day : let '(y, m, d) := civil day in day_number y m d = day.
Proof.
  unfold civil, day_number. cbv zeta. set (era := (day + 719468) / 146097).
  set (doe := (day + 719468) mod 146097).
  assert (0 ≤ doe < 146097) as Hdoe by (apply Z.mod_pos_bound; lia).
  assert (day = era * 146097 + doe - 719468) as Hday by (unfold era, doe; lia).
  clearbody era doe. set (yoe := (doe - doe / 1460 + doe / 36524 - doe / 146096) / 365).
  assert (0 ≤ yoe ≤ 399) as Hy by (unfold yoe; lia).
  set (doy := doe - (365 * yoe + yoe / 4 - yoe / 100)).
  assert (0 ≤ doy ≤ 366) as Hd by exact (day_of_year doe Hdoe).
  clearbody yoe. set (mp := (5 * doy + 2) / 153). assert (0 ≤ mp ≤ 11) as Hm by (unfold mp; lia).
  set (m := if mp <? 10 then mp + 3 else mp - 9).
  assert ((m + 9) mod 12 = mp) as ->.
  { unfold m. destruct (mp <? 10) eqn:E.
    - apply Z.ltb_lt in E. replace (mp + 3 + 9) with (mp + 1 * 12) by lia.
      rewrite Z.mod_add, Z.mod_small; lia.
    - apply Z.ltb_ge in E. replace (mp - 9 + 9) with mp by lia. rewrite Z.mod_small; lia. }
  replace (yoe + era * 400 + (if m <=? 2 then 1 else 0) - (if m <=? 2 then 1 else 0))
    with (yoe + era * 400) by lia.
  rewrite Z.div_add, Z.div_small, Z.mod_add, Z.mod_small by lia.
  unfold doy in *. lia.
Qed.

(** *** Digits *)

(** The number that a text of digits names, after the number [acc] *)
Fixpoint digits_value (acc : Z) (s : string) : Z :=
  match s with
  | EmptyString => acc
  | String c s' => digits_value (10 * acc + (code c - 48)) s'
  end.

Lemma read_digits_value s acc rest : string_forallb is_digit s = true →
  read_digits (String.length s) acc (s +:+ rest) = Some (digits_value acc s, rest).
Proof.
  revert acc. induction s as [|c s IH]; intros acc; [done|].
  change (String c s +:+ rest) with (String c (s +:+ rest)).
  cbn [string_forallb String.length read_digits digits_value].
  intros [Hc Hs]%andb_true_iff. rewrite Hc. by apply IH.
Qed.

Lemma read_fraction_value s acc c rest : string_forallb is_digit s = true → is_digit c = false →
  read_fraction (String.length s) acc (s +:+ String c rest) =
  (acc + digits_value 0 s, String c rest).
Proof.
  intros Hs Hc. enough (∀ k acc', acc + k * 10 ^ Z.of_nat (String.length s) = acc' →
    read_fraction (String.length s) acc' (s +:+ String c rest) = (acc + digits_value k s, String c rest))
    as H by (apply H; lia).
  revert Hs. induction s as [|d s IH]; intros Hs k acc' E.
  - change (EmptyString +:+ String c rest) with (String c rest).
    cbn [String.length read_fraction digits_value] in *. rewrite Hc. f_equal. lia.
  - cbn [string_forallb] in Hs. apply andb_true_iff in Hs as [Hd Hs].
    change (String d s +:+ String c rest) with (String d (s +:+ String c rest)).
    cbn [String.length read_fraction]. rewrite Hd. cbn [digits_value]. apply IH; [done|].
    rewrite <- E. cbn [String.length]. rewrite Nat2Z.inj_succ, Z.pow_succ_r by lia. lia.
Qed.

Lemma pretty_char_value x : (x < 10)%N → code (pretty_N_char x) - 48 = Z.of_N x.
Proof.
  intros H. destruct x as [|[[[[]|[]|]|[[]|[]|]|]|[[[]|[]|]|[[]|[]|]|]|]]; first [reflexivity | lia].
Qed.

Lemma pretty_go_value x s :
  digits_value 0 (pretty_N_go x s) = digits_value (Z.of_N x) s.
Proof.
  revert s. induction (N.lt_wf_0 x) as [x _ IH]. intros s. destruct (decide (0 < x)%N) as [Hx|Hx].
  - rewrite pretty_N_go_step by done. rewrite IH by (apply N.div_lt; lia). cbn [digits_value].
    rewrite pretty_char_value by (apply N.mod_lt; lia). f_equal.
    rewrite N2Z.inj_div, N2Z.inj_mod. lia.
  - assert (x = 0%N) as -> by lia. by rewrite pretty_N_go_0.
Qed.

Lemma pretty_go_length x s n : (x < 10 ^ N.of_nat n)%N →
  (String.length (pretty_N_go x s) ≤ n + String.length s)%nat.
Proof.
  revert x s. induction n as [|n IH]; intros x s Hx.
  - assert (x = 0%N) as -> by (cbn in Hx; lia). rewrite pretty_N_go_0. lia.
  - destruct (decide (0 < x)%N) as [H0|H0].
    + rewrite pretty_N_go_step by done. etrans; [apply IH|cbn; lia].
      apply N.Div0.div_lt_upper_bound. by rewrite <- N.pow_succ_r', <- Nat2N.inj_succ.
    + assert (x = 0%N) as -> by lia. rewrite pretty_N_go_0. lia.
Qed.

Lemma zeros_value k s : digits_value 0 (zeros k +:+ s) = digits_value 0 s.
Proof. induction k as [|k IH]; [done|]. exact IH. Qed.

Lemma zeros_length k s : String.length (zeros k +:+ s) = (k + String.length s)%nat.
Proof. induction k as [|k IH]; [done|]. exact (f_equal S IH). Qed.

Lemma zeros_digits k : string_forallb is_digit (zeros k) = true.
Proof. by induction k. Qed.

(** A padded number has [n] digits, which name it. *)
Lemma padded_spec n z : (0 < n)%nat → 0 ≤ z < 10 ^ Z.of_nat n →
  string_forallb is_digit (padded n z) = true ∧ String.length (padded n z) = n ∧
  digits_value 0 (padded n z) = z.
Proof.
  intros Hn Hz. assert (∃ x, z = Z.of_N x ∧ pretty z = pretty x) as (x & -> & E).
  { exists (Z.to_N z). split; [lia|]. by destruct z as [|p|p]; [..|lia]. }
  unfold padded. cbv zeta. rewrite E.
  assert (string_forallb is_digit (pretty x) = true) as Hd by apply pretty_N_digits.
  assert (digits_value 0 (pretty x) = Z.of_N x ∧ (String.length (pretty x) ≤ n)%nat) as [Hv Hl].
  { unfold pretty, pretty_N. case_decide as Hx; [subst x; split; [done|cbn; lia]|].
    rewrite pretty_go_value. split; [done|].
    etrans; [apply pretty_go_length with (n := n)|cbn; lia].
    apply N2Z.inj_lt. rewrite N2Z.inj_pow, nat_N_Z. lia. }
  split_and!.
  - by rewrite string_forallb_app, zeros_digits.
  - rewrite zeros_length. lia.
  - by rewrite zeros_value.
Qed.

Lemma read_padded n z rest : (0 < n)%nat → 0 ≤ z < 10 ^ Z.of_nat n →
  read_digits n 0 (padded n z +:+ rest) = Some (z, rest).
Proof.
  intros Hn Hz. destruct (padded_spec n z Hn Hz) as (Hd & Hl & Hv).
  rewrite <- Hl at 1. rewrite read_digits_value by done. by rewrite Hv.
Qed.

(** *** The round trip *)

(** The instants that Python's [datetime] can hold: years 1 to 9999 *)
Definition in_years (t : Z) : Prop := 1 ≤ fst (fst (civil (t / hours 24))) ≤ 9999.

Lemma civil_fields day : let '(y, m, d) := civil day in 1 ≤ m ≤ 12 ∧ 1 ≤ d ≤ 31.
Proof.
  unfold civil. cbv zeta. set (doe := (day + 719468) mod 146097).
  assert (0 ≤ doe < 146097) as Hdoe by (apply Z.mod_pos_bound; lia).
  pose proof (day_of_year doe Hdoe) as H. cbv zeta in H.
  set (doy := doe - _) in *. clearbody doy doe. set (mp := (5 * doy + 2) / 153).
  assert (0 ≤ mp ≤ 11) as Hm by (unfold mp; lia).
  split; [destruct (mp <? 10) eqn:E; lia|unfold mp; lia].
Qed.

Lemma str_app_cons c s t : String c s +:+ t = String c (s +:+ t).
Proof. done. Qed.

Lemma read_date_iso t rest : in_years t →
  read_date (isoformat (t / hours 24) +:+ rest) = Some (midnight (t / hours 24), rest).
Proof.
  unfold in_years, isoformat. set (day := t / hours 24). clearbody day.
  pose proof (civil_fields day) as Hf. pose proof (day_number_civil day) as Hn.
  destruct (civil day) as [[y m] d] eqn:E. cbn [fst]. intros Hy. destruct Hf as [Hm Hd].
  unfold read_date. rewrite !str_app_assoc, read_padded by lia. cbn [mbind option_bind].
  change (read_char 45 ("-" +:+ ?s)) with (Some s). cbn [mbind option_bind].
  rewrite read_padded by lia. cbn [mbind option_bind].
  change (read_char 45 ("-" +:+ ?s)) with (Some s). cbn [mbind option_bind].
  rewrite read_padded by lia. cbn [mbind option_bind].
  rewrite bool_decide_true by (by rewrite Hn). rewrite Hn.
  by replace (1 <=? y) with true by (symmetry; apply Z.leb_le; lia).
Qed.

(** The clock of an instant, with microseconds when there are any *)
Definition clock_text (h m x us : Z) : string :=
  padded 2 h +:+ ":" +:+ padded 2 m +:+ ":" +:+ padded 2 x +:+
  (if us =? 0 then EmptyString else "." +:+ padded 6 us) +:+ "+00:00".

Lemma read_clock_text h m x us :
  0 ≤ h < 100 → 0 ≤ m < 100 → 0 ≤ x < 100 → 0 ≤ us < 1000000 →
  read_clock (clock_text h m x us) = Some (h, m, x, us, "+00:00").
Proof.
  intros Hh Hm Hx Hu. unfold read_clock, clock_text, read_next.
  rewrite read_padded by lia. cbn [mbind option_bind].
  change (read_char 58 (":" +:+ ?s)) with (Some s). cbv iota.
  rewrite read_padded by lia. cbn [mbind option_bind].
  change (read_char 58 (":" +:+ ?s)) with (Some s). cbv iota.
  rewrite read_padded by lia. cbn [mbind option_bind].
  destruct (Z.eqb_spec us 0) as [->|Hn]; [done|].
  destruct (padded_spec 6 us) as (Hd & Hl & Hv); [lia|lia|].
  assert (∃ c s, padded 6 us = String c s ∧ is_digit c = true) as (c & s & E & Hc).
  { destruct (padded 6 us) as [|c s]; [done|]. cbn [string_forallb] in Hd.
    apply andb_true_iff in Hd as [Hc _]. by exists c, s. }
  assert (read_subsecond (("." +:+ padded 6 us) +:+ "+00:00") =
          Some (read_fraction 6 0 (padded 6 us +:+ "+00:00"))) as ->.
  { rewrite E, str_app_assoc, str_app_cons.
    change (EmptyString +:+ ?s) with s. rewrite str_app_cons. unfold read_subsecond. by rewrite Hc. }
  change "+00:00" with (String (Ascii.ascii_of_N 43) "00:00") at 1. rewrite <- Hl at 1.
  rewrite read_fraction_value by done. cbn [mbind option_bind]. by rewrite Hv.
Qed.

Lemma isoformat_clock t :
  let secs := us_of_day t / us_per_second in
  instant_isoformat t = isoformat (t / hours 24) +:+ "T" +:+
    clock_text (secs / 3600) (secs / 60 mod 60) (secs mod 60) (us_of_day t mod us_per_second).
Proof. done. Qed.

Lemma zulu_id s : string_forallb (fun c => negb (code c =? 90)) s = true → zulu s = s.
Proof.
  induction s as [|c s IH]; [done|]. cbn [string_forallb zulu]. intros [Hc Hs]%andb_true_iff.
  apply negb_true_iff in Hc. by rewrite Hc, IH.
Qed.

Lemma digits_no_z s : string_forallb is_digit s = true →
  string_forallb (fun c => negb (code c =? 90)) s = true.
Proof.
  apply string_forallb_impl. unfold is_digit, between. intros c [H1 H2]%andb_true_iff.
  apply negb_true_iff, Z.eqb_neq. apply Z.leb_le in H1, H2. lia.
Qed.

Lemma zulu_iso t : in_years t → zulu (instant_isoformat t) = instant_isoformat t.
Proof.
  unfold in_years. intros Hy. apply zulu_id. rewrite isoformat_clock. cbv zeta. unfold isoformat, clock_text.
  pose proof (civil_fields (t / hours 24)) as Hf. destruct (civil _) as [[y m] d]. cbn [fst] in Hy.
  unfold us_of_day, us_per_second. change (hours 24) with 86400000000.
  set (u := t mod 86400000000). assert (0 ≤ u < 86400000000) by (unfold u; lia). clearbody u.
  rewrite !string_forallb_app.
  assert (∀ n z, (0 < n)%nat → 0 ≤ z < 10 ^ Z.of_nat n →
    string_forallb (fun c => negb (code c =? 90)) (padded n z) = true) as Hp.
  { intros n z Hn Hz. by apply digits_no_z, padded_spec. }
  rewrite !Hp by lia. by case_ifs; rewrite ?string_forallb_app, ?Hp by lia.
Qed.

(** An instant survives its text. *)
Lemma instant_roundtrip t : in_years t → instant_of (instant_isoformat t) = Some t.
Proof.
  intros Hy. unfold instant_of. rewrite zulu_iso by done. unfold fromisoformat.
  rewrite isoformat_clock. cbv zeta. rewrite read_date_iso by done. cbn [mbind option_bind].
  rewrite str_app_cons. cbn [String.append]. change ("" +:+ ?s) with s.
  unfold us_of_day, us_per_second. change (hours 24) with 86400000000.
  set (u := t mod 86400000000). assert (0 ≤ u < 86400000000) as Hu by (unfold u; lia).
  assert (t = t / 86400000000 * 86400000000 + u) as E by (unfold u; lia). clearbody u.
  rewrite read_clock_text by lia. cbn [mbind option_bind].
  replace (u / 1000000 / 3600 <? 24) with true by (symmetry; apply Z.ltb_lt; lia).
  replace (u / 1000000 / 60 mod 60 <? 60) with true by (symmetry; apply Z.ltb_lt; lia).
  replace (u / 1000000 mod 60 <? 60) with true by (symmetry; apply Z.ltb_lt; lia).
  cbn [andb]. change (read_offset "+00:00") with (Some (Some 0)). cbn [mbind option_bind]. f_equal.
  unfold midnight, clock_us, day_us, seconds, us_per_second. lia.
Qed.
