(* ===== verification/Catalog.v ===== *)
(** * The shipped catalog

    [config/business_scenarios.v1.json] as the JSON value that the program decodes: data for
    the witnesses. *)

From S2P Require Import Prelude.

Definition strs (l : list string) : json := JArr (JStr <$> l).

Module Shipped.
Definition tracking_status_inquiry : json :=
  JObj [("scenario_key", JStr "tracking_status_inquiry");
    ("issue_type_aliases", strs ["parcel_status"; "tracking_inquiry"]);
    ("trigger_sources", strs ["customer_message"; "operator_input"]);
    ("required_fact_classes", strs ["parcel_identity"; "tracking_current_status"]);
    ("required_customer_inputs", strs ["tracking_reference"]); ("risk_level", JStr "low");
    ("escalation_policy_key", JNull); ("owner_queue_key", JStr "customer_support");
    ("required_capabilities", strs ["ticket.read"]);
    ("allowed_action_classes", strs ["tracking_lookup"; "ask_customer_information";
    "notify_customer"; "handoff"; "create_ticket"]);
    ("required_action_classes", strs ["tracking_lookup"; "notify_customer"]);
    ("blocked_action_classes", strs ["refund_review"; "compensation_review"; "cancel_order"]);
    ("notification_policy", JStr "required"); ("allowed_no_notification_reasons", strs []);
    ("terminal_behavior", JStr "closeable");
    ("required_outcome_levels", strs ["customer_notified"; "business_result_confirmed"]);
    ("completion_rules", strs ["required_facts_present"; "required_customer_inputs_present";
    "required_actions_completed"; "required_outcomes_completed"; "notification_policy_satisfied";
    "no_repair_required"]);
    ("definition_of_done", JStr "Fresh authoritative status is communicated without unsupported commitments.");
    ("observation_period_seconds", JNum 0);
    ("reopen_conditions", strs ["new_authoritative_contradiction";
    "customer_disputes_resolution"]); ("cancellation_semantics", JStr "cancel_only_with_reason");
    ("metrics", strs ["scenario_completion_rate"; "safe_effective_closure_rate";
    "first_contact_resolution_rate"; "repeat_contact_rate"]);
    ("scope_mode", JStr "inherit_resolved_scope");
    ("lifecycle", JObj [("status", JStr "approved"); ("owner", JStr "customer_operations");
    ("approved_at", JStr "2026-07-11T21:15:00Z"); ("effective_from", JStr "2026-07-11T21:15:00Z");
    ("review_due", JStr "2027-01-11T00:00:00Z"); ("expires_at", JNull); ("supersedes", JNull)])].

Definition delivery_eta_delay_inquiry : json :=
  JObj [("scenario_key", JStr "delivery_eta_delay_inquiry");
    ("issue_type_aliases", strs ["delivery_eta"; "delivery_delay"]);
    ("trigger_sources", strs ["customer_message"; "operator_input"; "operational_signal"]);
    ("required_fact_classes", strs ["parcel_identity"; "tracking_current_status";
    "tracking_event_history"; "service_commitment"]);
    ("required_customer_inputs", strs ["tracking_reference"]); ("risk_level", JStr "medium");
    ("escalation_policy_key", JNull); ("owner_queue_key", JStr "delivery_support");
    ("required_capabilities", strs ["ticket.read"]);
    ("allowed_action_classes", strs ["tracking_lookup"; "notify_customer";
    "create_delivery_work_order"; "dispatch_operations"; "handoff"]);
    ("required_action_classes", strs ["tracking_lookup"; "notify_customer"]);
    ("blocked_action_classes", strs ["refund_review"; "compensation_review"; "cancel_order"]);
    ("notification_policy", JStr "required"); ("allowed_no_notification_reasons", strs []);
    ("terminal_behavior", JStr "closeable");
    ("required_outcome_levels", strs ["customer_notified"; "business_result_confirmed"]);
    ("completion_rules", strs ["required_facts_present"; "required_customer_inputs_present";
    "required_actions_completed"; "required_outcomes_completed"; "notification_policy_satisfied";
    "no_repair_required"; "observation_period_elapsed_if_required"]);
    ("definition_of_done", JStr "Current evidence and service commitment are evaluated, communicated, and stable through observation.");
    ("observation_period_seconds", JNum 86400);
    ("reopen_conditions", strs ["customer_recontacts_within_observation";
    "delivery_failure_after_intervention"]);
    ("cancellation_semantics", JStr "cancel_only_with_reason");
    ("metrics", strs ["safe_effective_closure_rate"; "reopen_72h_rate"; "repeat_contact_rate";
    "customer_notification_compliance"]); ("scope_mode", JStr "inherit_resolved_scope");
    ("lifecycle", JObj [("status", JStr "approved"); ("owner", JStr "delivery_operations");
    ("approved_at", JStr "2026-07-11T21:15:00Z"); ("effective_from", JStr "2026-07-11T21:15:00Z");
    ("review_due", JStr "2027-01-11T00:00:00Z"); ("expires_at", JNull); ("supersedes", JNull)])].

Definition address_contact_correction : json :=
  JObj [("scenario_key", JStr "address_contact_correction");
    ("issue_type_aliases", strs ["address_update"; "contact_update"]);
    ("trigger_sources", strs ["customer_message"; "operator_input"; "operational_signal"]);
    ("required_fact_classes", strs ["parcel_identity"; "tracking_current_status";
    "address_contact"; "identity_verification"]);
    ("required_customer_inputs", strs ["tracking_reference"; "corrected_contact";
    "customer_confirmation"]); ("risk_level", JStr "medium"); ("escalation_policy_key", JNull);
    ("owner_queue_key", JStr "delivery_support"); ("required_capabilities", strs ["ticket.read";
    "tool:speedaf.order.update_address:write"]);
    ("allowed_action_classes", strs ["tracking_lookup"; "ask_customer_information";
    "update_address_contact"; "notify_customer"; "handoff"]);
    ("required_action_classes", strs ["tracking_lookup"; "update_address_contact";
    "notify_customer"]); ("blocked_action_classes", strs ["refund_review"; "compensation_review";
    "legal_escalation"]); ("notification_policy", JStr "required");
    ("allowed_no_notification_reasons", strs []); ("terminal_behavior", JStr "closeable");
    ("required_outcome_levels", strs ["accepted"; "operational_completed"; "customer_notified";
    "business_result_confirmed"]); ("completion_rules", strs ["required_facts_present";
    "required_customer_inputs_present"; "required_actions_completed";
    "required_outcomes_completed"; "notification_policy_satisfied"; "no_repair_required";
    "observation_period_elapsed_if_required"]);
    ("definition_of_done", JStr "Verified correction is applied or explicitly rejected, communicated, and stable through observation.");
    ("observation_period_seconds", JNum 86400);
    ("reopen_conditions", strs ["required_action_failed"; "delivery_failure_after_intervention"]);
    ("cancellation_semantics", JStr "cancel_only_before_external_acceptance");
    ("metrics", strs ["safe_effective_closure_rate"; "action_operational_completion_rate";
    "business_result_confirmation_rate"; "reopen_72h_rate"]);
    ("scope_mode", JStr "inherit_resolved_scope");
    ("lifecycle", JObj [("status", JStr "approved"); ("owner", JStr "delivery_operations");
    ("approved_at", JStr "2026-07-11T21:15:00Z"); ("effective_from", JStr "2026-07-11T21:15:00Z");
    ("review_due", JStr "2027-01-11T00:00:00Z"); ("expires_at", JNull); ("supersedes", JNull)])].

Definition delivery_followup_work_order : json :=
  JObj [("scenario_key", JStr "delivery_followup_work_order");
    ("issue_type_aliases", strs ["delivery_followup"; "work_order_request"]);
    ("trigger_sources", strs ["customer_message"; "operator_input"; "operational_signal"]);
    ("required_fact_classes", strs ["parcel_identity"; "tracking_current_status";
    "tracking_event_history"]); ("required_customer_inputs", strs ["tracking_reference";
    "request_reason"]); ("risk_level", JStr "medium"); ("escalation_policy_key", JNull);
    ("owner_queue_key", JStr "delivery_support"); ("required_capabilities", strs ["ticket.read";
    "tool:speedaf.work_order.create:write"]); ("allowed_action_classes", strs ["tracking_lookup";
    "create_delivery_work_order"; "notify_customer"; "handoff"]);
    ("required_action_classes", strs ["tracking_lookup"; "create_delivery_work_order";
    "notify_customer"]); ("blocked_action_classes", strs ["refund_review"; "compensation_review";
    "cancel_order"]); ("notification_policy", JStr "required");
    ("allowed_no_notification_reasons", strs []); ("terminal_behavior", JStr "closeable");
    ("required_outcome_levels", strs ["accepted"; "customer_notified"]);
    ("completion_rules", strs ["required_facts_present"; "required_customer_inputs_present";
    "required_actions_completed"; "required_outcomes_completed"; "notification_policy_satisfied";
    "no_repair_required"]);
    ("definition_of_done", JStr "A non-duplicate follow-up is accepted and the customer receives the next step.");
    ("observation_period_seconds", JNum 0); ("reopen_conditions", strs ["required_action_failed";
    "delivery_failure_after_intervention"]);
    ("cancellation_semantics", JStr "cancel_only_before_external_acceptance");
    ("metrics", strs ["scenario_completion_rate"; "duplicate_action_prevention_rate";
    "customer_notification_compliance"]); ("scope_mode", JStr "inherit_resolved_scope");
    ("lifecycle", JObj [("status", JStr "approved"); ("owner", JStr "delivery_operations");
    ("approved_at", JStr "2026-07-11T21:15:00Z"); ("effective_from", JStr "2026-07-11T21:15:00Z");
    ("review_due", JStr "2027-01-11T00:00:00Z"); ("expires_at", JNull); ("supersedes", JNull)])].

Definition failed_repeated_delivery_attempt : json :=
  JObj [("scenario_key", JStr "failed_repeated_delivery_attempt");
    ("issue_type_aliases", strs ["delivery_failed"; "failed_attempt"]);
    ("trigger_sources", strs ["customer_message"; "operator_input"; "operational_signal"]);
    ("required_fact_classes", strs ["parcel_identity"; "tracking_current_status";
    "delivery_attempts"; "address_contact"]); ("required_customer_inputs", strs []);
    ("risk_level", JStr "high"); ("escalation_policy_key", JStr "delivery_failure_escalation");
    ("owner_queue_key", JStr "delivery_exceptions");
    ("required_capabilities", strs ["ticket.read"; "ticket.assign"]);
    ("allowed_action_classes", strs ["tracking_lookup"; "schedule_redelivery";
    "dispatch_operations"; "notify_customer"; "handoff"; "create_ticket"]);
    ("required_action_classes", strs ["tracking_lookup"; "dispatch_operations"]);
    ("blocked_action_classes", strs ["refund_review"; "compensation_review"; "cancel_order"]);
    ("notification_policy", JStr "required_if_contactable");
    ("allowed_no_notification_reasons", strs ["no_contact_method"; "contact_prohibited"]);
    ("terminal_behavior", JStr "closeable");
    ("required_outcome_levels", strs ["operational_completed"; "business_result_confirmed"]);
    ("completion_rules", strs ["required_facts_present"; "required_actions_completed";
    "required_outcomes_completed"; "notification_policy_satisfied";
    "no_open_high_risk_escalation"; "no_repair_required";
    "observation_period_elapsed_if_required"]);
    ("definition_of_done", JStr "Failure cause is verified, recovery completes, notification policy is satisfied, and no repeat failure occurs.");
    ("observation_period_seconds", JNum 172800);
    ("reopen_conditions", strs ["delivery_failure_after_intervention"; "required_action_failed"]);
    ("cancellation_semantics", JStr "cancel_only_with_supervisor_reason");
    ("metrics", strs ["safe_effective_closure_rate"; "reopen_72h_rate"; "reopen_7d_rate";
    "action_operational_completion_rate"]); ("scope_mode", JStr "inherit_resolved_scope");
    ("lifecycle", JObj [("status", JStr "approved"); ("owner", JStr "delivery_exceptions");
    ("approved_at", JStr "2026-07-11T21:15:00Z"); ("effective_from", JStr "2026-07-11T21:15:00Z");
    ("review_due", JStr "2027-01-11T00:00:00Z"); ("expires_at", JNull); ("supersedes", JNull)])].

Definition formal_complaint : json :=
  JObj [("scenario_key", JStr "formal_complaint"); ("issue_type_aliases", strs ["complaint";
    "service_complaint"]); ("trigger_sources", strs ["customer_message"; "operator_input"]);
    ("required_fact_classes", strs ["case_history"]);
    ("required_customer_inputs", strs ["complaint_summary"]); ("risk_level", JStr "high");
    ("escalation_policy_key", JStr "formal_complaint"); ("owner_queue_key", JStr "complaints");
    ("required_capabilities", strs ["ticket.read"; "ticket.escalate"]);
    ("allowed_action_classes", strs ["handoff"; "create_ticket"; "internal_note";
    "notify_customer"; "tracking_lookup"]); ("required_action_classes", strs ["handoff";
    "create_ticket"; "internal_note"; "notify_customer"]);
    ("blocked_action_classes", strs ["refund_review"; "compensation_review"; "cancel_order"]);
    ("notification_policy", JStr "required"); ("allowed_no_notification_reasons", strs []);
    ("terminal_behavior", JStr "closeable"); ("required_outcome_levels", strs ["accepted";
    "operational_completed"; "customer_notified"; "business_result_confirmed"]);
    ("completion_rules", strs ["required_facts_present"; "required_customer_inputs_present";
    "required_actions_completed"; "required_outcomes_completed"; "notification_policy_satisfied";
    "no_open_high_risk_escalation"; "no_repair_required";
    "observation_period_elapsed_if_required"]);
    ("definition_of_done", JStr "Complaint is acknowledged, owned, investigated, operationally resolved, communicated, and stable through observation.");
    ("observation_period_seconds", JNum 259200);
    ("reopen_conditions", strs ["customer_disputes_resolution"; "new_material_evidence"]);
    ("cancellation_semantics", JStr "cancel_only_with_supervisor_reason");
    ("metrics", strs ["safe_effective_closure_rate"; "reopen_7d_rate"; "human_touches_per_case"]);
    ("scope_mode", JStr "inherit_resolved_scope");
    ("lifecycle", JObj [("status", JStr "approved"); ("owner", JStr "complaints_operations");
    ("approved_at", JStr "2026-07-11T21:15:00Z"); ("effective_from", JStr "2026-07-11T21:15:00Z");
    ("review_due", JStr "2027-01-11T00:00:00Z"); ("expires_at", JNull); ("supersedes", JNull)])].

Definition refund_compensation_request : json :=
  JObj [("scenario_key", JStr "refund_compensation_request");
    ("issue_type_aliases", strs ["refund_request"; "compensation_request"]);
    ("trigger_sources", strs ["customer_message"; "operator_input"]);
    ("required_fact_classes", strs ["case_history"; "policy_entitlement"; "identity_verification";
    "transaction_state"]); ("required_customer_inputs", strs ["claim_summary";
    "requested_remedy"]); ("risk_level", JStr "critical");
    ("escalation_policy_key", JStr "compensation"); ("owner_queue_key", JStr "claims_review");
    ("required_capabilities", strs ["ticket.read"; "ticket.escalate"]);
    ("allowed_action_classes", strs ["handoff"; "create_ticket"; "internal_note"; "refund_review";
    "compensation_review"; "notify_customer"]); ("required_action_classes", strs ["handoff";
    "create_ticket"; "internal_note"; "notify_customer"]);
    ("blocked_action_classes", strs ["cancel_order"; "update_address_contact"]);
    ("notification_policy", JStr "required"); ("allowed_no_notification_reasons", strs []);
    ("terminal_behavior", JStr "closeable"); ("required_outcome_levels", strs ["accepted";
    "operational_completed"; "customer_notified"; "business_result_confirmed"]);
    ("completion_rules", strs ["required_facts_present"; "required_customer_inputs_present";
    "required_actions_completed"; "required_outcomes_completed"; "notification_policy_satisfied";
    "no_open_high_risk_escalation"; "no_repair_required";
    "observation_period_elapsed_if_required"]);
    ("definition_of_done", JStr "Authorized entitlement decision is operationally recorded, communicated, and stable through observation.");
    ("observation_period_seconds", JNum 604800);
    ("reopen_conditions", strs ["customer_disputes_resolution"; "new_material_evidence"]);
    ("cancellation_semantics", JStr "cannot_cancel_after_authorized_decision");
    ("metrics", strs ["safe_effective_closure_rate"; "reopen_7d_rate";
    "business_result_confirmation_rate"]); ("scope_mode", JStr "inherit_resolved_scope");
    ("lifecycle", JObj [("status", JStr "approved"); ("owner", JStr "claims_operations");
    ("approved_at", JStr "2026-07-11T21:15:00Z"); ("effective_from", JStr "2026-07-11T21:15:00Z");
    ("review_due", JStr "2027-01-11T00:00:00Z"); ("expires_at", JNull); ("supersedes", JNull)])].

Definition legal_privacy_high_risk : json :=
  JObj [("scenario_key", JStr "legal_privacy_high_risk");
    ("issue_type_aliases", strs ["legal_threat"; "privacy_request"]);
    ("trigger_sources", strs ["customer_message"; "operator_input"]);
    ("required_fact_classes", strs ["case_history"; "identity_verification"]);
    ("required_customer_inputs", strs ["request_summary"]); ("risk_level", JStr "critical");
    ("escalation_policy_key", JStr "legal_privacy");
    ("owner_queue_key", JStr "legal_privacy_review");
    ("required_capabilities", strs ["ticket.read"; "ticket.escalate"]);
    ("allowed_action_classes", strs ["handoff"; "create_ticket"; "internal_note";
    "legal_escalation"; "privacy_request"; "notify_customer"]);
    ("required_action_classes", strs ["handoff"; "create_ticket"; "internal_note"]);
    ("blocked_action_classes", strs ["refund_review"; "compensation_review"; "cancel_order"]);
    ("notification_policy", JStr "required_if_contactable");
    ("allowed_no_notification_reasons", strs ["legal_hold"; "contact_prohibited"]);
    ("terminal_behavior", JStr "escalate_only"); ("required_outcome_levels", strs ["accepted"]);
    ("completion_rules", strs ["required_facts_present"; "required_customer_inputs_present";
    "required_actions_completed"; "required_outcomes_completed"; "notification_policy_satisfied";
    "no_open_high_risk_escalation"; "no_repair_required"]);
    ("definition_of_done", JStr "Request is preserved and transferred to an authorized legal or privacy process.");
    ("observation_period_seconds", JNum 0); ("reopen_conditions", strs ["new_material_evidence";
    "customer_recontacts_within_observation"]);
    ("cancellation_semantics", JStr "cannot_cancel_after_escalation");
    ("metrics", strs ["scenario_completion_rate"; "human_touches_per_case";
    "average_resolution_seconds"]); ("scope_mode", JStr "inherit_resolved_scope");
    ("lifecycle", JObj [("status", JStr "approved"); ("owner", JStr "legal_privacy_operations");
    ("approved_at", JStr "2026-07-11T21:15:00Z"); ("effective_from", JStr "2026-07-11T21:15:00Z");
    ("review_due", JStr "2027-01-11T00:00:00Z"); ("expires_at", JNull); ("supersedes", JNull)])].

Definition return_refusal_flow : json :=
  JObj [("scenario_key", JStr "return_refusal_flow");
    ("issue_type_aliases", strs ["return_request"; "delivery_refusal"]);
    ("trigger_sources", strs ["customer_message"; "operator_input"; "operational_signal"]);
    ("required_fact_classes", strs ["parcel_identity"; "tracking_current_status"; "return_status";
    "policy_entitlement"]); ("required_customer_inputs", strs ["return_reason"]);
    ("risk_level", JStr "medium"); ("escalation_policy_key", JNull);
    ("owner_queue_key", JStr "returns"); ("required_capabilities", strs ["ticket.read"]);
    ("allowed_action_classes", strs ["tracking_lookup"; "return_process"; "dispatch_operations";
    "notify_customer"; "handoff"]); ("required_action_classes", strs ["tracking_lookup";
    "return_process"]); ("blocked_action_classes", strs ["refund_review"; "compensation_review";
    "update_address_contact"]); ("notification_policy", JStr "required_if_contactable");
    ("allowed_no_notification_reasons", strs ["no_contact_method"; "contact_prohibited"]);
    ("terminal_behavior", JStr "closeable"); ("required_outcome_levels", strs ["accepted";
    "operational_completed"; "business_result_confirmed"]);
    ("completion_rules", strs ["required_facts_present"; "required_customer_inputs_present";
    "required_actions_completed"; "required_outcomes_completed"; "notification_policy_satisfied";
    "no_repair_required"; "observation_period_elapsed_if_required"]);
    ("definition_of_done", JStr "Eligibility is verified, return action completes, notification policy is satisfied, and state remains consistent.");
    ("observation_period_seconds", JNum 172800);
    ("reopen_conditions", strs ["required_action_failed"; "new_authoritative_contradiction"]);
    ("cancellation_semantics", JStr "cancel_only_before_return_acceptance");
    ("metrics", strs ["safe_effective_closure_rate"; "action_operational_completion_rate";
    "reopen_7d_rate"]); ("scope_mode", JStr "inherit_resolved_scope");
    ("lifecycle", JObj [("status", JStr "approved"); ("owner", JStr "returns_operations");
    ("approved_at", JStr "2026-07-11T21:15:00Z"); ("effective_from", JStr "2026-07-11T21:15:00Z");
    ("review_due", JStr "2027-01-11T00:00:00Z"); ("expires_at", JNull); ("supersedes", JNull)])].

Definition cod_payment_anomaly : json :=
  JObj [("scenario_key", JStr "cod_payment_anomaly"); ("issue_type_aliases", strs ["cod_issue";
    "payment_anomaly"]); ("trigger_sources", strs ["customer_message"; "operator_input";
    "operational_signal"; "system_failure"]); ("required_fact_classes", strs ["parcel_identity";
    "transaction_state"; "cod_payment"; "case_history"]);
    ("required_customer_inputs", strs ["discrepancy_summary"]); ("risk_level", JStr "high");
    ("escalation_policy_key", JStr "cod_financial_risk"); ("owner_queue_key", JStr "cod_review");
    ("required_capabilities", strs ["ticket.read"; "ticket.escalate"]);
    ("allowed_action_classes", strs ["cod_investigation"; "create_ticket"; "handoff";
    "internal_note"; "notify_customer"]); ("required_action_classes", strs ["cod_investigation";
    "create_ticket"; "internal_note"]); ("blocked_action_classes", strs ["refund_review";
    "compensation_review"; "cancel_order"]);
    ("notification_policy", JStr "required_if_contactable");
    ("allowed_no_notification_reasons", strs ["no_contact_method"; "legal_hold";
    "contact_prohibited"]); ("terminal_behavior", JStr "closeable");
    ("required_outcome_levels", strs ["accepted"; "operational_completed";
    "business_result_confirmed"]); ("completion_rules", strs ["required_facts_present";
    "required_customer_inputs_present"; "required_actions_completed";
    "required_outcomes_completed"; "notification_policy_satisfied";
    "no_open_high_risk_escalation"; "no_repair_required";
    "observation_period_elapsed_if_required"]);
    ("definition_of_done", JStr "Authoritative COD evidence is reconciled, assigned action completes, notification policy is satisfied, and no contradiction remains.");
    ("observation_period_seconds", JNum 604800);
    ("reopen_conditions", strs ["new_authoritative_contradiction";
    "customer_disputes_resolution"]);
    ("cancellation_semantics", JStr "cannot_cancel_after_financial_posting");
    ("metrics", strs ["safe_effective_closure_rate"; "reopen_7d_rate";
    "business_result_confirmation_rate"]); ("scope_mode", JStr "inherit_resolved_scope");
    ("lifecycle", JObj [("status", JStr "approved"); ("owner", JStr "cod_operations");
    ("approved_at", JStr "2026-07-11T21:15:00Z"); ("effective_from", JStr "2026-07-11T21:15:00Z");
    ("review_due", JStr "2027-01-11T00:00:00Z"); ("expires_at", JNull); ("supersedes", JNull)])].

Definition operations_dispatch_failure : json :=
  JObj [("scenario_key", JStr "operations_dispatch_failure");
    ("issue_type_aliases", strs ["dispatch_failure"; "dispatch_dead_letter"]);
    ("trigger_sources", strs ["operational_signal"; "system_failure"; "operator_input"]);
    ("required_fact_classes", strs ["dispatch_status"; "case_history"]);
    ("required_customer_inputs", strs []); ("risk_level", JStr "high");
    ("escalation_policy_key", JStr "operations_dispatch_failure");
    ("owner_queue_key", JStr "operations_recovery");
    ("required_capabilities", strs ["operator_queue.read"; "runtime.manage"]);
    ("allowed_action_classes", strs ["retry_dispatch"; "repair_dispatch"; "handoff";
    "create_ticket"; "internal_note"; "notify_customer"]);
    ("required_action_classes", strs ["repair_dispatch"; "internal_note"]);
    ("blocked_action_classes", strs ["refund_review"; "compensation_review"; "cancel_order"]);
    ("notification_policy", JStr "required_if_contactable");
    ("allowed_no_notification_reasons", strs ["no_customer_impact"; "no_contact_method";
    "contact_prohibited"]); ("terminal_behavior", JStr "closeable");
    ("required_outcome_levels", strs ["operational_completed"; "business_result_confirmed"]);
    ("completion_rules", strs ["required_facts_present"; "required_actions_completed";
    "required_outcomes_completed"; "notification_policy_satisfied";
    "no_open_high_risk_escalation"; "no_repair_required";
    "observation_period_elapsed_if_required"]);
    ("definition_of_done", JStr "Dispatch is reconciled without duplicate effect, customer-impact policy is satisfied, and stability is observed.");
    ("observation_period_seconds", JNum 86400);
    ("reopen_conditions", strs ["dispatch_repair_required"; "required_action_failed"]);
    ("cancellation_semantics", JStr "cancel_only_before_repair_acceptance");
    ("metrics", strs ["safe_effective_closure_rate"; "repair_required_rate";
    "duplicate_action_prevention_rate"; "average_resolution_seconds"]);
    ("scope_mode", JStr "inherit_resolved_scope");
    ("lifecycle", JObj [("status", JStr "approved"); ("owner", JStr "operations_recovery");
    ("approved_at", JStr "2026-07-11T21:15:00Z"); ("effective_from", JStr "2026-07-11T21:15:00Z");
    ("review_due", JStr "2027-01-11T00:00:00Z"); ("expires_at", JNull); ("supersedes", JNull)])].

Definition missing_information_intake : json :=
  JObj [("scenario_key", JStr "missing_information_intake");
    ("issue_type_aliases", strs ["missing_information"; "unknown_issue"]);
    ("trigger_sources", strs ["customer_message"; "operator_input"]);
    ("required_fact_classes", strs []); ("required_customer_inputs", strs ["request_summary"]);
    ("risk_level", JStr "low"); ("escalation_policy_key", JNull);
    ("owner_queue_key", JStr "customer_support"); ("required_capabilities", strs ["ticket.read"]);
    ("allowed_action_classes", strs ["ask_customer_information"; "scenario_reclassify";
    "notify_customer"; "handoff"; "create_ticket"]);
    ("required_action_classes", strs ["ask_customer_information"; "scenario_reclassify"]);
    ("blocked_action_classes", strs ["refund_review"; "compensation_review"; "cancel_order"]);
    ("notification_policy", JStr "required_if_contactable");
    ("allowed_no_notification_reasons", strs ["no_contact_method"; "contact_prohibited"]);
    ("terminal_behavior", JStr "reclassify_only"); ("required_outcome_levels", strs ["accepted"]);
    ("completion_rules", strs ["required_customer_inputs_present"; "required_actions_completed";
    "required_outcomes_completed"; "notification_policy_satisfied"; "no_repair_required";
    "scenario_reclassified"]);
    ("definition_of_done", JStr "Missing information is requested, notification policy is satisfied, and the issue is reclassified without false closure.");
    ("observation_period_seconds", JNum 0); ("reopen_conditions", strs ["new_material_evidence";
    "customer_recontacts_within_observation"]);
    ("cancellation_semantics", JStr "cancel_after_reclassification");
    ("metrics", strs ["scenario_completion_rate"; "duplicate_case_rate";
    "human_touches_per_case"]); ("scope_mode", JStr "inherit_resolved_scope");
    ("lifecycle", JObj [("status", JStr "approved"); ("owner", JStr "customer_operations");
    ("approved_at", JStr "2026-07-11T21:15:00Z"); ("effective_from", JStr "2026-07-11T21:15:00Z");
    ("review_due", JStr "2027-01-11T00:00:00Z"); ("expires_at", JNull); ("supersedes", JNull)])].

Definition catalog : json :=
  JObj [("schema", JStr "nexus.business-scenario-catalog.v1");
    ("catalog_version", JStr "business_scenarios.v1");
    ("owner", JStr "nexus_osr_product_governance"); ("approved_at", JStr "2026-07-11T21:15:00Z");
    ("scope_mode", JStr "inherit_resolved_scope"); ("scenarios", JArr [tracking_status_inquiry;
    delivery_eta_delay_inquiry; address_contact_correction; delivery_followup_work_order;
    failed_repeated_delivery_attempt; formal_complaint; refund_compensation_request;
    legal_privacy_high_risk; return_refusal_flow; cod_payment_anomaly;
    operations_dispatch_failure; missing_information_intake])].
End Shipped.
