(* ===== verification/Scenarios.v ===== *)
(** * The catalog of business scenarios

    [services/nexus_osr/business_scenarios.py]: what a scenario demands before a ticket may
    close, the parser of the catalog file, which refuses a catalog that contradicts itself,
    and the readiness of a case.

    [BusinessScenarioCatalogError] is a [ValueError] of the source; its reason is kept.  The
    text of a list, an object or a float is not modelled ([py_str]); no key or choice is
    such a text.  [loads_pairs] is [json.loads] with the hook for pairs: an object is the list
    of its pairs as written, and [None] stands for bytes that are no UTF-8 or no JSON. *)

From S2P Require Import Prelude Calendar Enums Models Permissions Work AiTurns Desk Iso Catalog.

Definition CATALOG_SCHEMA : string := "nexus.business-scenario-catalog.v1".
Definition MAX_CATALOG_BYTES : Z := 1000000.
Definition MAX_SCENARIOS : nat := 100.
Definition MAX_LIST_ITEMS : nat := 50.

Definition TRIGGERS : list string :=
  ["customer_message"; "operator_input"; "operational_signal"; "system_failure"].
Definition FACTS : list string :=
  ["parcel_identity"; "tracking_current_status"; "tracking_event_history"; "service_commitment";
   "delivery_attempts"; "address_contact"; "proof_of_delivery"; "case_history";
   "policy_entitlement"; "transaction_state"; "return_status"; "cod_payment"; "dispatch_status";
   "identity_verification"].
Definition FORBIDDEN_FACTS : list string :=
  ["customer_claim"; "prior_ai_output"; "ai_recommendation"].
Definition RISKS : list string := ["low"; "medium"; "high"; "critical"].
Definition NOTIFICATION_POLICIES : list string :=
  ["required"; "required_if_contactable"; "optional"; "prohibited"].
Definition NOTIFICATION_WAIVER_REASONS : list string :=
  ["no_contact_method"; "contact_prohibited"; "legal_hold"; "no_customer_impact"].
Definition CANCELLATION_SEMANTICS : list string :=
  ["cancel_only_with_reason"; "cancel_only_before_external_acceptance";
   "cancel_only_with_supervisor_reason"; "cannot_cancel_after_authorized_decision";
   "cannot_cancel_after_escalation"; "cancel_only_before_return_acceptance";
   "cannot_cancel_after_financial_posting"; "cancel_only_before_repair_acceptance";
   "cancel_after_reclassification"].
Definition LIFECYCLE_STATUSES : list string := ["draft"; "approved"; "archived"].
Definition SCOPE_MODES : list string := ["inherit_resolved_scope"].
Definition TERMINAL_BEHAVIORS : list string := ["closeable"; "reclassify_only"; "escalate_only"].
Definition OUTCOMES : list string :=
  ["accepted"; "technical_completed"; "operational_completed"; "customer_notified";
   "business_result_confirmed"].
Definition COMPLETION_RULES : list string :=
  ["required_facts_present"; "required_customer_inputs_present"; "required_actions_completed";
   "required_outcomes_completed"; "notification_policy_satisfied"; "no_open_high_risk_escalation";
   "no_repair_required"; "observation_period_elapsed_if_required"; "scenario_reclassified"].
Definition ACTIONS : list string :=
  ["tracking_lookup"; "ask_customer_information"; "handoff"; "create_ticket"; "internal_note";
   "notify_customer"; "create_delivery_work_order"; "update_address_contact"; "cancel_order";
   "request_proof_of_delivery"; "schedule_redelivery"; "dispatch_operations"; "refund_review";
   "compensation_review"; "legal_escalation"; "privacy_request"; "return_process";
   "cod_investigation"; "retry_dispatch"; "repair_dispatch"; "scenario_reclassify"].
Definition REOPEN_CONDITIONS : list string :=
  ["customer_recontacts_within_observation"; "new_authoritative_contradiction";
   "required_action_failed"; "delivery_failure_after_intervention"; "customer_disputes_resolution";
   "dispatch_repair_required"; "new_material_evidence"].
Definition METRICS : list string :=
  ["scenario_completion_rate"; "safe_effective_closure_rate"; "first_contact_resolution_rate";
   "reopen_72h_rate"; "reopen_7d_rate"; "repeat_contact_rate"; "customer_notification_compliance";
   "action_operational_completion_rate"; "business_result_confirmation_rate"; "false_closure_rate";
   "repair_required_rate"; "average_resolution_seconds"; "human_touches_per_case";
   "duplicate_case_rate"; "duplicate_action_prevention_rate"].
Definition AUTHORITATIVE_CAPABILITIES : list string :=
  (fun c => py_lower (py_strip c)) <$> ALL_CAPABILITIES.
Definition CATALOG_FIELDS : list string :=
  ["schema"; "catalog_version"; "owner"; "approved_at"; "scope_mode"; "scenarios"].
Definition LIFECYCLE_FIELDS : list string :=
  ["status"; "owner"; "approved_at"; "effective_from"; "review_due"; "expires_at"; "supersedes"].
Definition SCENARIO_FIELDS : list string :=
  ["scenario_key"; "issue_type_aliases"; "trigger_sources"; "required_fact_classes";
   "required_customer_inputs"; "risk_level"; "escalation_policy_key"; "owner_queue_key";
   "required_capabilities"; "allowed_action_classes"; "required_action_classes";
   "blocked_action_classes"; "notification_policy"; "allowed_no_notification_reasons";
   "terminal_behavior"; "required_outcome_levels"; "completion_rules"; "definition_of_done";
   "observation_period_seconds"; "reopen_conditions"; "cancellation_semantics"; "metrics";
   "scope_mode"; "lifecycle"].

Definition BusinessScenarioCatalogError (reason : string) : exc := ValueError reason.

(** ** Scenarios *)

Module ScenarioLifecycle.
Record t := {
  status : string; owner : string; approved_at : Z; effective_from : Z; review_due : Z;
  expires_at : option Z; supersedes : option string }.

Definition is_active (l : t) (at_ : Z) : bool :=
  bool_decide (status l = "approved") && (effective_from l <=? at_) &&
  match expires_at l with None => true | Some e => at_ <? e end.

Definition review_is_overdue (l : t) (at_ : Z) : bool := review_due l <=? at_.
End ScenarioLifecycle.

Module BusinessScenarioDefinition.
Record t := {
  scenario_key : string; issue_type_aliases : list string; trigger_sources : list string;
  required_fact_classes : list string; required_customer_inputs : list string;
  risk_level : string; escalation_policy_key : option string; owner_queue_key : string;
  required_capabilities : list string; allowed_action_classes : list string;
  required_action_classes : list string; blocked_action_classes : list string;
  notification_policy : string; allowed_no_notification_reasons : list string;
  terminal_behavior : string; required_outcome_levels : list string;
  completion_rules : list string; definition_of_done : string; observation_period_seconds : Z;
  reopen_conditions : list string; cancellation_semantics : string; metrics : list string;
  scope_mode : string; lifecycle : ScenarioLifecycle.t }.
End BusinessScenarioDefinition.

Module ScenarioReadiness.
Record t := {
  scenario_key : string; closure_ready : bool; missing_fact_classes : list string;
  missing_customer_inputs : list string; missing_action_classes : list string;
  missing_outcome_levels : list string; notification_satisfied : bool;
  blocked_reasons : list string }.

Definition as_dict (r : t) : json :=
  let strs l := JArr (JStr <$> l) in
  JObj [("scenario_key", JStr (scenario_key r)); ("closure_ready", JBool (closure_ready r));
        ("missing_fact_classes", strs (missing_fact_classes r));
        ("missing_customer_inputs", strs (missing_customer_inputs r));
        ("missing_action_classes", strs (missing_action_classes r));
        ("missing_outcome_levels", strs (missing_outcome_levels r));
        ("notification_satisfied", JBool (notification_satisfied r));
        ("blocked_reasons", strs (blocked_reasons r))].
End ScenarioReadiness.

Module BusinessScenarioCatalog.
Record t := {
  schema : string; catalog_version : string; owner : string; approved_at : Z;
  scope_mode : string; scenarios : list BusinessScenarioDefinition.t; source_sha256 : string }.

(** The last pair of a key decides. *)
Definition dict {A} (l : list (string * A)) : gmap string A :=
  fold_left (fun m x => <[fst x := snd x]> m) l ∅.

Definition by_key (c : t) : gmap string BusinessScenarioDefinition.t :=
  dict ((fun i => (BusinessScenarioDefinition.scenario_key i, i)) <$> scenarios c).

Definition names (i : BusinessScenarioDefinition.t) : list string :=
  BusinessScenarioDefinition.scenario_key i :: BusinessScenarioDefinition.issue_type_aliases i.

Definition alias_map (c : t) : gmap string string :=
  dict (mjoin ((fun i => (fun a => (a, BusinessScenarioDefinition.scenario_key i)) <$> names i)
               <$> scenarios c)).
End BusinessScenarioCatalog.

(** ** Readers of JSON values *)

Section Readers.
Context (reason : string).
Implicit Type v : json.

Definition _mapping v : result (list (string * json)) :=
  match v with JObj l => Ok l | _ => Err (BusinessScenarioCatalogError reason) end.

Definition _sequence v : result (list json) :=
  match v with JArr l => Ok l | _ => Err (BusinessScenarioCatalogError reason) end.

Definition _exact_keys (value : list (string * json)) (expected : list string) : result unit :=
  if bool_decide ((list_to_set (fst <$> value) : gset string) = list_to_set expected) then Ok tt
  else Err (BusinessScenarioCatalogError reason).

(** [str(value or "")] *)
Definition text_of v : string := py_str (json_or v (JStr EmptyString)).

Definition _label v (limit : Z) : result string :=
  let text := squeeze (py_strip (text_of v)) in
  if negb (nonempty text) || (limit <? str_len text) then Err (BusinessScenarioCatalogError reason)
  else Ok text.

(** [KEY_RE.fullmatch(text)] *)
Definition is_key (text : string) : bool :=
  match text with
  | EmptyString => false
  | String c rest =>
      is_lower c && (1 <=? str_len rest) && (str_len rest <=? 159) &&
      string_forallb (fun c => is_lower c || is_digit c || (code c =? 95) || (code c =? 46) ||
                               (code c =? 58) || (code c =? 45)) rest
  end.

Definition _key v : result string :=
  let text := py_lower (py_strip (text_of v)) in
  if is_key text then Ok text else Err (BusinessScenarioCatalogError reason).

Definition _optional_key v : result (option string) :=
  match v with JNull => Ok None | _ => k ← _key v; Ok (Some k) end.

Definition _choice (allowed : list string) v : result string :=
  let text := py_lower (py_strip (text_of v)) in
  if bool_decide (text ∈ allowed) then Ok text else Err (BusinessScenarioCatalogError reason).

(** What [_keys] and [_choices] share *)
Definition distinct_items (read : json → result string) v (allow_empty : bool)
    : result (list string) :=
  rows ← _sequence v;
  if (bool_decide (rows = []) && negb allow_empty) || (MAX_LIST_ITEMS <? length rows)%nat
  then Err (BusinessScenarioCatalogError reason)
  else
    items ← result_mapM read rows;
    if bool_decide (NoDup items) then Ok items else Err (BusinessScenarioCatalogError reason).

Definition _keys v (allow_empty : bool) : result (list string) :=
  distinct_items _key v allow_empty.

Definition _choices (allowed : list string) v (allow_empty : bool) : result (list string) :=
  distinct_items (_choice allowed) v allow_empty.

Definition _integer v (minimum maximum : Z) : result Z :=
  match v with
  | JNum z => if (minimum <=? z) && (z <=? maximum) then Ok z
              else Err (BusinessScenarioCatalogError reason)
  | _ => Err (BusinessScenarioCatalogError reason)
  end.

Definition _timestamp v : result Z :=
  match instant_of (py_strip (text_of v)) with
  | Some t => Ok t
  | None => Err (BusinessScenarioCatalogError reason)
  end.

Definition _optional_timestamp v : result (option Z) :=
  match v with JNull => Ok None | _ => t ← _timestamp v; Ok (Some t) end.
End Readers.

(** ** The parser *)

(** [row[key]] of a mapping that has the key *)
Definition field (row : list (string * json)) (key : string) : json :=
  default JNull (assoc_get key row).

(** [if condition: raise BusinessScenarioCatalogError(reason)] *)
Definition refuse_if (condition : bool) (reason : string) : result unit :=
  if condition then Err (BusinessScenarioCatalogError reason) else Ok tt.

Definition subset (a b : list string) : bool := forallb (fun x => bool_decide (x ∈ b)) a.
Definition meets (a b : list string) : bool := existsb (fun x => bool_decide (x ∈ b)) a.

Definition _validate_scenario_semantics (required_facts required_inputs required_actions
    required_outcomes completion_rules : list string) (notification_policy : string)
    (no_notification_reasons : list string) (risk_level : string)
    (escalation_policy_key : option string) (terminal_behavior : string)
    (observation_period_seconds : Z) : result unit :=
  let some (l : list string) := negb (bool_decide (l = [])) in
  let high := bool_decide (risk_level ∈ ["high"; "critical"]) in
  let requirements :=
    [(some required_facts, "required_facts_present");
     (some required_inputs, "required_customer_inputs_present");
     (some required_actions, "required_actions_completed");
     (some required_outcomes, "required_outcomes_completed");
     (bool_decide (notification_policy ∈ ["required"; "required_if_contactable"]),
      "notification_policy_satisfied");
     (high, "no_open_high_risk_escalation");
     (bool_decide (terminal_behavior = "reclassify_only"), "scenario_reclassified");
     (0 <? observation_period_seconds, "observation_period_elapsed_if_required")] in
  refuse_if (existsb (fun r => fst r && negb (bool_decide (snd r ∈ completion_rules))) requirements)
    "scenario_completion_rules_incomplete";;
  refuse_if (negb (bool_decide ("no_repair_required" ∈ completion_rules)))
    "scenario_repair_rule_missing";;
  refuse_if (high && negb (not_null escalation_policy_key))
    "scenario_high_risk_escalation_policy_missing";;
  refuse_if (bool_decide (terminal_behavior = "reclassify_only") &&
             negb (bool_decide ("scenario_reclassify" ∈ required_actions)))
    "scenario_reclassification_action_missing";;
  refuse_if (bool_decide (terminal_behavior = "escalate_only") &&
             negb (meets ["handoff"; "create_ticket"] required_actions))
    "scenario_escalation_action_missing";;
  let customer_notified_required := bool_decide ("customer_notified" ∈ required_outcomes) in
  let notify_action_required := bool_decide ("notify_customer" ∈ required_actions) in
  (if bool_decide (notification_policy = "required") then
     refuse_if (negb customer_notified_required) "scenario_required_notification_outcome_missing";;
     refuse_if (negb notify_action_required) "scenario_required_notification_action_missing"
   else
     refuse_if customer_notified_required "scenario_conditional_notification_outcome_conflict";;
     refuse_if notify_action_required "scenario_conditional_notification_action_conflict");;
  refuse_if (bool_decide (notification_policy = "required_if_contactable") &&
             bool_decide (no_notification_reasons = []))
    "scenario_conditional_notification_reasons_missing".

Definition _parse_lifecycle (payload : json) : result ScenarioLifecycle.t :=
  row ← _mapping "scenario_lifecycle_invalid" payload;
  _exact_keys "scenario_lifecycle_fields_invalid" row LIFECYCLE_FIELDS;;
  approved ← _timestamp "scenario_lifecycle_approved_at_invalid" (field row "approved_at");
  effective ← _timestamp "scenario_lifecycle_effective_from_invalid" (field row "effective_from");
  review ← _timestamp "scenario_lifecycle_review_due_invalid" (field row "review_due");
  expires ← _optional_timestamp "scenario_lifecycle_expires_at_invalid" (field row "expires_at");
  refuse_if (effective <? approved) "scenario_lifecycle_approval_after_effective";;
  refuse_if (review <=? effective) "scenario_lifecycle_review_due_invalid";;
  refuse_if (match expires with Some e => e <=? effective | None => false end)
    "scenario_lifecycle_expiry_invalid";;
  status ← _choice "scenario_lifecycle_status_invalid" LIFECYCLE_STATUSES (field row "status");
  owner ← _label "scenario_lifecycle_owner_invalid" (field row "owner") 160;
  supersedes ← _optional_key "scenario_lifecycle_supersedes_invalid" (field row "supersedes");
  Ok {| ScenarioLifecycle.status := status; ScenarioLifecycle.owner := owner;
        ScenarioLifecycle.approved_at := approved; ScenarioLifecycle.effective_from := effective;
        ScenarioLifecycle.review_due := review; ScenarioLifecycle.expires_at := expires;
        ScenarioLifecycle.supersedes := supersedes |}.

(** The actions that a scenario allows, demands and forbids *)
Definition parse_actions (row : list (string * json))
    : result (list string * list string * list string) :=
  allowed ← _choices "scenario_allowed_actions_invalid" ACTIONS
              (field row "allowed_action_classes") false;
  required ← _choices "scenario_required_actions_invalid" ACTIONS
               (field row "required_action_classes") true;
  blocked ← _choices "scenario_blocked_actions_invalid" ACTIONS
              (field row "blocked_action_classes") true;
  refuse_if (negb (subset required allowed)) "scenario_required_action_not_allowed";;
  refuse_if (meets allowed blocked) "scenario_action_conflict";;
  Ok (allowed, required, blocked).

(** The policy for notifications and its waivers *)
Definition parse_notification (row : list (string * json)) : result (string * list string) :=
  policy ← _choice "scenario_notification_policy_invalid" NOTIFICATION_POLICIES
             (field row "notification_policy");
  waivers ← _choices "scenario_no_notification_reasons_invalid" NOTIFICATION_WAIVER_REASONS
              (field row "allowed_no_notification_reasons") true;
  let some := negb (bool_decide (waivers = [])) in
  refuse_if (bool_decide (policy = "required") && some) "scenario_required_notification_has_bypass";;
  refuse_if (bool_decide (policy = "required_if_contactable") && negb some)
    "scenario_conditional_notification_reasons_missing";;
  refuse_if (bool_decide (policy ∈ ["optional"; "prohibited"]) && some)
    "scenario_notification_waiver_not_applicable";;
  Ok (policy, waivers).

Definition _parse_scenario (payload : json) : result BusinessScenarioDefinition.t :=
  row ← _mapping "scenario_definition_invalid" payload;
  _exact_keys "scenario_definition_fields_invalid" row SCENARIO_FIELDS;;
  raw_facts ← _sequence "scenario_fact_classes_invalid" (field row "required_fact_classes");
  refuse_if (meets ((fun i => py_lower (py_strip (text_of i))) <$> raw_facts) FORBIDDEN_FACTS)
    "scenario_fact_authority_forbidden";;
  required_facts ← _choices "scenario_fact_classes_invalid" FACTS (JArr raw_facts) true;
  actions ← parse_actions row;
  let '(allowed_actions, required_actions, blocked_actions) := actions in
  notification ← parse_notification row;
  let '(policy, waivers) := notification in
  scenario_key ← _key "scenario_key_invalid" (field row "scenario_key");
  aliases ← _keys "scenario_aliases_invalid" (field row "issue_type_aliases") false;
  refuse_if (bool_decide (scenario_key ∈ aliases)) "scenario_alias_repeats_key";;
  required_inputs ← _keys "scenario_customer_inputs_invalid"
                      (field row "required_customer_inputs") true;
  risk ← _choice "scenario_risk_level_invalid" RISKS (field row "risk_level");
  escalation ← _optional_key "scenario_escalation_policy_invalid"
                 (field row "escalation_policy_key");
  terminal ← _choice "scenario_terminal_behavior_invalid" TERMINAL_BEHAVIORS
               (field row "terminal_behavior");
  outcomes ← _choices "scenario_outcome_levels_invalid" OUTCOMES
               (field row "required_outcome_levels") true;
  rules ← _choices "scenario_completion_rules_invalid" COMPLETION_RULES
            (field row "completion_rules") false;
  observation ← _integer "scenario_observation_period_invalid"
                  (field row "observation_period_seconds") 0 2592000;
  capabilities ← _choices "scenario_capabilities_invalid" AUTHORITATIVE_CAPABILITIES
                   (field row "required_capabilities") true;
  cancellation ← _choice "scenario_cancellation_semantics_invalid" CANCELLATION_SEMANTICS
                   (field row "cancellation_semantics");
  _validate_scenario_semantics required_facts required_inputs required_actions outcomes rules
    policy waivers risk escalation terminal observation;;
  triggers ← _choices "scenario_triggers_invalid" TRIGGERS (field row "trigger_sources") false;
  queue ← _key "scenario_owner_queue_invalid" (field row "owner_queue_key");
  done ← _label "scenario_definition_of_done_invalid" (field row "definition_of_done") 500;
  reopen ← _choices "scenario_reopen_conditions_invalid" REOPEN_CONDITIONS
             (field row "reopen_conditions") true;
  metrics ← _choices "scenario_metrics_invalid" METRICS (field row "metrics") false;
  scope ← _choice "scenario_scope_mode_invalid" SCOPE_MODES (field row "scope_mode");
  lifecycle ← _parse_lifecycle (field row "lifecycle");
  Ok {| BusinessScenarioDefinition.scenario_key := scenario_key;
        BusinessScenarioDefinition.issue_type_aliases := aliases;
        BusinessScenarioDefinition.trigger_sources := triggers;
        BusinessScenarioDefinition.required_fact_classes := required_facts;
        BusinessScenarioDefinition.required_customer_inputs := required_inputs;
        BusinessScenarioDefinition.risk_level := risk;
        BusinessScenarioDefinition.escalation_policy_key := escalation;
        BusinessScenarioDefinition.owner_queue_key := queue;
        BusinessScenarioDefinition.required_capabilities := capabilities;
        BusinessScenarioDefinition.allowed_action_classes := allowed_actions;
        BusinessScenarioDefinition.required_action_classes := required_actions;
        BusinessScenarioDefinition.blocked_action_classes := blocked_actions;
        BusinessScenarioDefinition.notification_policy := policy;
        BusinessScenarioDefinition.allowed_no_notification_reasons := waivers;
        BusinessScenarioDefinition.terminal_behavior := terminal;
        BusinessScenarioDefinition.required_outcome_levels := outcomes;
        BusinessScenarioDefinition.completion_rules := rules;
        BusinessScenarioDefinition.definition_of_done := done;
        BusinessScenarioDefinition.observation_period_seconds := observation;
        BusinessScenarioDefinition.reopen_conditions := reopen;
        BusinessScenarioDefinition.cancellation_semantics := cancellation;
        BusinessScenarioDefinition.metrics := metrics;
        BusinessScenarioDefinition.scope_mode := scope;
        BusinessScenarioDefinition.lifecycle := lifecycle |}.

(** The first loop of [_validate_unique_catalog]: the keys so far and the owner of every alias *)
Fixpoint check_aliases (owner : string) (names : list string) (aliases : gmap string string)
    : result (gmap string string) :=
  match names with
  | [] => Ok aliases
  | a :: rest =>
      refuse_if (match aliases !! a with Some p => negb (bool_decide (p = owner)) | None => false end)
        "scenario_alias_conflict";;
      check_aliases owner rest (<[a := owner]> aliases)
  end.

Fixpoint check_scenarios (l : list BusinessScenarioDefinition.t) (keys : gset string)
    (aliases : gmap string string) : result (gset string) :=
  match l with
  | [] => Ok keys
  | i :: rest =>
      let key := BusinessScenarioDefinition.scenario_key i in
      refuse_if (bool_decide (key ∈ keys)) "scenario_key_duplicate";;
      aliases ← check_aliases key (BusinessScenarioCatalog.names i) aliases;
      check_scenarios rest ({[key]} ∪ keys) aliases
  end.

Definition _validate_unique_catalog (scenarios : list BusinessScenarioDefinition.t) : result unit :=
  keys ← check_scenarios scenarios ∅ ∅;
  refuse_if (existsb (fun i =>
      match ScenarioLifecycle.supersedes (BusinessScenarioDefinition.lifecycle i) with
      | Some k => negb (bool_decide (k ∈ keys)) ||
                  bool_decide (k = BusinessScenarioDefinition.scenario_key i)
      | None => false
      end) scenarios) "scenario_supersedes_invalid".

Definition parse_business_scenario_catalog (payload : json) (source_sha256 : string)
    : result BusinessScenarioCatalog.t :=
  root ← _mapping "scenario_catalog_root_invalid" payload;
  _exact_keys "scenario_catalog_fields_invalid" root CATALOG_FIELDS;;
  refuse_if (negb (bool_decide (field root "schema" = JStr CATALOG_SCHEMA)))
    "scenario_catalog_schema_unsupported";;
  rows ← _sequence "scenario_catalog_scenarios_invalid" (field root "scenarios");
  refuse_if (bool_decide (rows = []) || (MAX_SCENARIOS <? length rows)%nat)
    "scenario_catalog_scenario_count_invalid";;
  scenarios ← result_mapM _parse_scenario rows;
  _validate_unique_catalog scenarios;;
  approved_at ← _timestamp "scenario_catalog_approved_at_invalid" (field root "approved_at");
  refuse_if (existsb (fun i => approved_at <? ScenarioLifecycle.approved_at
                                               (BusinessScenarioDefinition.lifecycle i)) scenarios)
    "scenario_approved_after_catalog";;
  version ← _key "scenario_catalog_version_invalid" (field root "catalog_version");
  owner ← _label "scenario_catalog_owner_invalid" (field root "owner") 160;
  scope ← _choice "scenario_catalog_scope_mode_invalid" SCOPE_MODES (field root "scope_mode");
  sha ← _label "scenario_catalog_sha_invalid" (JStr source_sha256) 96;
  Ok {| BusinessScenarioCatalog.schema := CATALOG_SCHEMA;
        BusinessScenarioCatalog.catalog_version := version;
        BusinessScenarioCatalog.owner := owner;
        BusinessScenarioCatalog.approved_at := approved_at;
        BusinessScenarioCatalog.scope_mode := scope;
        BusinessScenarioCatalog.scenarios := scenarios;
        BusinessScenarioCatalog.source_sha256 := sha |}.

(** [_reject_duplicate_keys], run for every object of the text *)
Fixpoint duplicate_keys (j : json) : bool :=
  match j with
  | JObj l => negb (bool_decide (NoDup (fst <$> l))) || existsb (fun x => duplicate_keys (snd x)) l
  | JArr l => existsb duplicate_keys l
  | _ => false
  end.

Section Load.
Context (sha256_hex : string → string) (loads_pairs : string → option json).

(** [load_business_scenario_catalog(path, at=at, require_all_active=...)]; [file] is what
    [read_bytes] gives, [None] when it raises [OSError]. *)
Definition load_business_scenario_catalog (file : option string) (at_ : Z) (require_all_active : bool)
    : result BusinessScenarioCatalog.t :=
  match file with
  | None => Err (BusinessScenarioCatalogError "scenario_catalog_unavailable")
  | Some raw =>
      refuse_if (negb (nonempty raw) || (MAX_CATALOG_BYTES <? str_len raw))
        "scenario_catalog_size_invalid";;
      match loads_pairs raw with
      | None => Err (BusinessScenarioCatalogError "scenario_catalog_json_invalid")
      | Some payload =>
          refuse_if (duplicate_keys payload) "scenario_catalog_duplicate_json_key";;
          catalog ← parse_business_scenario_catalog payload (sha256_hex raw);
          refuse_if (require_all_active && existsb (fun i =>
              negb (ScenarioLifecycle.is_active (BusinessScenarioDefinition.lifecycle i) at_))
              (BusinessScenarioCatalog.scenarios catalog))
            "scenario_catalog_contains_inactive_definition";;
          Ok catalog
      end
  end.
End Load.

Definition resolve_business_scenario (catalog : BusinessScenarioCatalog.t)
    (scenario_key issue_type : option string) (at_ : Z) : result BusinessScenarioDefinition.t :=
  let aliases := BusinessScenarioCatalog.alias_map catalog in
  let target (raw : option string) (reason : string) : result (list string) :=
    match raw with
    | Some r =>
        if nonempty r then
          k ← _key reason (JStr r);
          match aliases !! k with
          | Some t => Ok [t]
          | None => Err (BusinessScenarioCatalogError "scenario_not_found")
          end
        else Ok []
    | None => Ok []
    end in
  refuse_if (negb (truthy_str scenario_key) && negb (truthy_str issue_type))
    "scenario_identity_required";;
  a ← target scenario_key "scenario_key_invalid";
  b ← target issue_type "scenario_issue_type_invalid";
  match remove_dups (a ++ b) with
  | [k] =>
      match BusinessScenarioCatalog.by_key catalog !! k with
      | Some i =>
          if ScenarioLifecycle.is_active (BusinessScenarioDefinition.lifecycle i) at_ then Ok i
          else Err (BusinessScenarioCatalogError "scenario_not_active")
      | None => Err (LookupError k)
      end
  | _ => Err (BusinessScenarioCatalogError "scenario_identity_conflict")
  end.

(** ** Readiness *)

Definition _normalized_values (values : gset string) : gset string :=
  set_map (fun v => py_lower (py_strip v)) (filter (fun v => nonempty (py_strip v) = true) values).

(** [state.split(":", 1)[1]] after the prefix [waived:] *)
Definition waiver_reason (state : string) : option string :=
  match split_colon state with
  | Some (head, reason) => if bool_decide (head = "waived") then Some reason else None
  | None => None
  end.

Definition _valid_notification_waiver (state : string) (allowed_reasons : list string) : bool :=
  match waiver_reason state with
  | Some reason => bool_decide (reason ∈ NOTIFICATION_WAIVER_REASONS) &&
                   bool_decide (reason ∈ allowed_reasons)
  | None => false
  end.

Definition _notification_satisfied (policy state : string) (allowed_reasons : list string) : bool :=
  let value := py_lower (py_strip state) in
  let waived := _valid_notification_waiver value allowed_reasons in
  if bool_decide (policy = "prohibited") then bool_decide (value ∈ ["not_required"; "prohibited"])
  else if bool_decide (policy = "optional")
  then bool_decide (value ∈ ["not_required"; "sent"; "delivered"]) || waived
  else if bool_decide (policy = "required_if_contactable")
  then bool_decide (value ∈ ["sent"; "delivered"]) || waived
  else bool_decide (value ∈ ["sent"; "delivered"]).

(** What a case has to show *)
Module Progress.
Record t := {
  available_fact_classes : gset string; available_customer_inputs : gset string;
  completed_action_classes : gset string; completed_outcome_levels : gset string;
  customer_notification_state : string; observation_period_elapsed : bool;
  repair_required : bool; open_high_risk_escalation : bool }.
End Progress.

Definition missing (required : list string) (present : gset string) : list string :=
  filter (fun i => i ∉ _normalized_values present) required.

Definition evaluate_scenario_readiness (scenario : BusinessScenarioDefinition.t) (p : Progress.t)
    : ScenarioReadiness.t :=
  let missing_facts := missing (BusinessScenarioDefinition.required_fact_classes scenario)
                         (Progress.available_fact_classes p) in
  let missing_inputs := missing (BusinessScenarioDefinition.required_customer_inputs scenario)
                          (Progress.available_customer_inputs p) in
  let missing_actions := missing (BusinessScenarioDefinition.required_action_classes scenario)
                           (Progress.completed_action_classes p) in
  let missing_outcomes := missing (BusinessScenarioDefinition.required_outcome_levels scenario)
                            (Progress.completed_outcome_levels p) in
  let notification_ok :=
    _notification_satisfied (BusinessScenarioDefinition.notification_policy scenario)
      (Progress.customer_notification_state p)
      (BusinessScenarioDefinition.allowed_no_notification_reasons scenario) in
  let some (l : list string) := negb (bool_decide (l = [])) in
  let terminal := BusinessScenarioDefinition.terminal_behavior scenario in
  let blocked := snd <$> filter (fun c => fst c = true)
    [(some missing_facts, "required_facts_missing");
     (some missing_inputs, "required_customer_inputs_missing");
     (some missing_actions, "required_actions_missing");
     (some missing_outcomes, "required_outcomes_missing");
     (negb notification_ok, "notification_requirement_unsatisfied");
     ((0 <? BusinessScenarioDefinition.observation_period_seconds scenario) &&
      negb (Progress.observation_period_elapsed p), "observation_period_not_elapsed");
     (Progress.repair_required p, "repair_required");
     (Progress.open_high_risk_escalation p, "high_risk_escalation_open");
     (negb (bool_decide (terminal = "closeable")), "terminal_behavior_" +:+ terminal)] in
  {| ScenarioReadiness.scenario_key := BusinessScenarioDefinition.scenario_key scenario;
     ScenarioReadiness.closure_ready := bool_decide (blocked = []);
     ScenarioReadiness.missing_fact_classes := missing_facts;
     ScenarioReadiness.missing_customer_inputs := missing_inputs;
     ScenarioReadiness.missing_action_classes := missing_actions;
     ScenarioReadiness.missing_outcome_levels := missing_outcomes;
     ScenarioReadiness.notification_satisfied := notification_ok;
     ScenarioReadiness.blocked_reasons := blocked |}.

(** ** What the parser guarantees *)

Lemma refuse_if_Ok c reason u : refuse_if c reason = Ok u ↔ c = false.
Proof. unfold refuse_if. destruct u, c; split; done. Qed.

(** Decompose a successful parse found in [H]. *)
Ltac rinv H :=
  cbv beta zeta in H;
  lazymatch type of H with
  | (mbind _ _) = Ok _ =>
      let a := fresh "a" in let Hm := fresh "Hm" in
      apply result_bind_Ok in H as (a & Hm & H); rinv Hm; rinv H
  | refuse_if _ _ = Ok _ => apply refuse_if_Ok in H
  | Ok _ = Ok _ => injection H as H; subst
  | (let '(_, _) := ?x in _) = Ok _ => destruct x; rinv H
  | _ => idtac
  end.

Lemma subset_spec a b : subset a b = true ↔ ∀ x, x ∈ a → x ∈ b.
Proof.
  unfold subset. rewrite forallb_forall. split.
  - intros H x Hx%list_elem_of_In. by apply (bool_decide_eq_true_1 _), H.
  - intros H x Hx%list_elem_of_In. by apply bool_decide_eq_true_2, H.
Qed.

Lemma meets_false a b : meets a b = false ↔ ∀ x, x ∈ a → x ∉ b.
Proof.
  unfold meets. rewrite <- not_true_iff_false, existsb_exists. split.
  - intros H x Hx Hb. apply H. exists x. by rewrite bool_decide_eq_true, <- list_elem_of_In.
  - intros H (x & Hx%list_elem_of_In & Hb%bool_decide_eq_true). by apply (H x).
Qed.

Lemma choice_Ok reason allowed v s : _choice reason allowed v = Ok s →
  s ∈ allowed ∧ py_lower (py_strip s) = s.
Proof.
  unfold _choice. case_bool_decide as H; [|done]. intros [= <-]. split; [done|].
  by rewrite py_strip_lower, py_lower_idem, py_strip_idem.
Qed.

Lemma key_Ok reason v s : _key reason v = Ok s → is_key s = true ∧ py_lower (py_strip s) = s.
Proof.
  unfold _key. destruct (is_key _) eqn:E; [|done]. intros [= <-]. split; [done|].
  by rewrite py_strip_lower, py_lower_idem, py_strip_idem.
Qed.

Lemma mapM_Forall {A B} (f : A → result B) (P : B → Prop) l l' :
  (∀ a b, f a = Ok b → P b) → result_mapM f l = Ok l' → Forall P l'.
Proof.
  intros Hf. revert l'. induction l as [|a l IH]; intros l' H; cbn in H; [by injection H as <-|].
  rinv H. constructor; eauto.
Qed.

Lemma distinct_Ok reason read v e l (P : string → Prop) :
  (∀ j s, read j = Ok s → P s) → distinct_items reason read v e = Ok l →
  NoDup l ∧ Forall P l ∧ (length l ≤ MAX_LIST_ITEMS)%nat ∧ (e = false → l ≠ []).
Proof.
  intros Hr H. unfold distinct_items in H. apply result_bind_Ok in H as (rows & _ & H).
  destruct (_ || _) eqn:E; [done|]. apply result_bind_Ok in H as (items & Hi & H).
  case_bool_decide as Hn; [|done]. injection H as <-.
  apply orb_false_iff in E as [E El]. apply Nat.ltb_ge in El.
  assert (length items = length rows) as Hlen.
  { clear -Hi. revert items Hi. induction rows as [|a rows IH]; intros items Hi; cbn in Hi.
    - by injection Hi as <-.
    - rinv Hi. cbn. f_equal. by apply IH. }
  split_and!; [done|by eapply mapM_Forall|lia|]. intros -> ->.
  destruct rows; [|done]. by rewrite bool_decide_true in E.
Qed.

Lemma choices_Ok reason allowed v e l : _choices reason allowed v e = Ok l →
  NoDup l ∧ (∀ x, x ∈ l → x ∈ allowed) ∧ (length l ≤ MAX_LIST_ITEMS)%nat ∧ (e = false → l ≠ []).
Proof.
  intros H. apply (distinct_Ok _ _ _ _ _ (.∈ allowed)) in H as (? & Hf & ?).
  - split; [done|]. split; [|done]. rewrite Forall_forall in Hf. intros x Hx%list_elem_of_In. by apply Hf.
  - intros j s [Hs _]%choice_Ok. exact Hs.
Qed.

Module Wf.
Import BusinessScenarioDefinition.

(** A lifecycle in the order of its instants *)
Definition ordered (l : ScenarioLifecycle.t) : Prop :=
  ScenarioLifecycle.approved_at l ≤ ScenarioLifecycle.effective_from l ∧
  ScenarioLifecycle.effective_from l < ScenarioLifecycle.review_due l ∧
  ∀ e, ScenarioLifecycle.expires_at l = Some e → ScenarioLifecycle.effective_from l < e.

(** What a scenario demands, its completion rules announce. *)
Record announced (i : t) : Prop := {
  rule_facts : required_fact_classes i ≠ [] → "required_facts_present" ∈ completion_rules i;
  rule_inputs : required_customer_inputs i ≠ [] →
    "required_customer_inputs_present" ∈ completion_rules i;
  rule_actions : required_action_classes i ≠ [] →
    "required_actions_completed" ∈ completion_rules i;
  rule_outcomes : required_outcome_levels i ≠ [] →
    "required_outcomes_completed" ∈ completion_rules i;
  rule_notification : notification_policy i ∈ ["required"; "required_if_contactable"] →
    "notification_policy_satisfied" ∈ completion_rules i;
  rule_risk : risk_level i ∈ ["high"; "critical"] →
    "no_open_high_risk_escalation" ∈ completion_rules i;
  rule_reclassify : terminal_behavior i = "reclassify_only" →
    "scenario_reclassified" ∈ completion_rules i;
  rule_observation : 0 < observation_period_seconds i →
    "observation_period_elapsed_if_required" ∈ completion_rules i;
  rule_repair : "no_repair_required" ∈ completion_rules i }.

(** The policy for notifications agrees with the outcomes, the actions and the waivers. *)
Definition notification_coherent (i : t) : Prop :=
  (notification_policy i = "required" ∧ allowed_no_notification_reasons i = [] ∧
   "customer_notified" ∈ required_outcome_levels i ∧ "notify_customer" ∈ required_action_classes i) ∨
  (("customer_notified" ∉ required_outcome_levels i) ∧
   ("notify_customer" ∉ required_action_classes i) ∧
   ((notification_policy i = "required_if_contactable" ∧ allowed_no_notification_reasons i ≠ []) ∨
    (notification_policy i ∈ ["optional"; "prohibited"] ∧ allowed_no_notification_reasons i = []))).

Record scenario (i : t) : Prop := {
  sc_key : is_key (scenario_key i) = true;
  sc_aliases : issue_type_aliases i ≠ [] ∧ NoDup (scenario_key i :: issue_type_aliases i);
  sc_facts : NoDup (required_fact_classes i) ∧
    ∀ f, f ∈ required_fact_classes i → f ∈ FACTS ∧ f ∉ FORBIDDEN_FACTS;
  sc_actions : (∀ a, a ∈ required_action_classes i → a ∈ allowed_action_classes i) ∧
    (∀ a, a ∈ allowed_action_classes i → a ∈ ACTIONS ∧ a ∉ blocked_action_classes i);
  sc_outcomes : ∀ o, o ∈ required_outcome_levels i → o ∈ OUTCOMES;
  sc_notification : notification_coherent i;
  sc_waivers : ∀ r, r ∈ allowed_no_notification_reasons i → r ∈ NOTIFICATION_WAIVER_REASONS;
  sc_rules : announced i;
  sc_risk : risk_level i ∈ ["high"; "critical"] → is_Some (escalation_policy_key i);
  sc_reclassify : terminal_behavior i = "reclassify_only" →
    "scenario_reclassify" ∈ required_action_classes i;
  sc_escalate : terminal_behavior i = "escalate_only" →
    "handoff" ∈ required_action_classes i ∨ "create_ticket" ∈ required_action_classes i;
  sc_terminal : terminal_behavior i ∈ TERMINAL_BEHAVIORS;
  sc_observation : 0 ≤ observation_period_seconds i ≤ 2592000;
  sc_capabilities : ∀ c, c ∈ required_capabilities i → c ∈ AUTHORITATIVE_CAPABILITIES;
  sc_lifecycle : ordered (lifecycle i) }.

(** A catalog resolves every key and every alias to the one scenario that has it. *)
Record catalog (c : BusinessScenarioCatalog.t) : Prop := {
  cat_some : BusinessScenarioCatalog.scenarios c ≠ [];
  cat_scenarios : Forall scenario (BusinessScenarioCatalog.scenarios c);
  cat_keys : NoDup (scenario_key <$> BusinessScenarioCatalog.scenarios c);
  cat_names : ∀ i j a, i ∈ BusinessScenarioCatalog.scenarios c →
    j ∈ BusinessScenarioCatalog.scenarios c → a ∈ BusinessScenarioCatalog.names i →
    a ∈ BusinessScenarioCatalog.names j → scenario_key i = scenario_key j;
  cat_approved : ∀ i, i ∈ BusinessScenarioCatalog.scenarios c →
    ScenarioLifecycle.approved_at (lifecycle i) ≤ BusinessScenarioCatalog.approved_at c;
  cat_supersedes : ∀ i k, i ∈ BusinessScenarioCatalog.scenarios c →
    ScenarioLifecycle.supersedes (lifecycle i) = Some k →
    k ≠ scenario_key i ∧ k ∈ (scenario_key <$> BusinessScenarioCatalog.scenarios c) }.
End Wf.

Lemma lifecycle_ordered payload l : _parse_lifecycle payload = Ok l → Wf.ordered l.
Proof.
  intros H. unfold _parse_lifecycle in H. rinv H. split_and!; cbn.
  - by apply Z.ltb_ge.
  - by apply Z.leb_gt.
  - intros e ->. by apply Z.leb_gt.
Qed.

Lemma ruled (c : bool) (rule : string) (rules : list string) : c && negb (bool_decide (rule ∈ rules)) = false →
  c = true → rule ∈ rules.
Proof. intros H ->. cbn in H. apply negb_false_iff in H. by apply bool_decide_eq_true in H. Qed.

Section Soundness.
Import BusinessScenarioDefinition.

(** What the checks of [_validate_scenario_semantics] say of a scenario whose fields they got *)
Lemma semantics_Ok i u :
  _validate_scenario_semantics (required_fact_classes i) (required_customer_inputs i)
    (required_action_classes i) (required_outcome_levels i) (completion_rules i)
    (notification_policy i) (allowed_no_notification_reasons i) (risk_level i)
    (escalation_policy_key i) (terminal_behavior i) (observation_period_seconds i) = Ok u →
  Wf.announced i ∧
  (risk_level i ∈ ["high"; "critical"] → is_Some (escalation_policy_key i)) ∧
  (terminal_behavior i = "reclassify_only" →
   "scenario_reclassify" ∈ required_action_classes i) ∧
  (terminal_behavior i = "escalate_only" →
   "handoff" ∈ required_action_classes i ∨ "create_ticket" ∈ required_action_classes i) ∧
  (if decide (notification_policy i = "required")
   then "customer_notified" ∈ required_outcome_levels i ∧
        "notify_customer" ∈ required_action_classes i
   else ("customer_notified" ∉ required_outcome_levels i) ∧
        ("notify_customer" ∉ required_action_classes i)).
Proof.
  unfold _validate_scenario_semantics. cbv zeta. intros H. rinv H.
  cbn [existsb fst snd] in *. rewrite !orb_false_iff in Hm. destruct_and! Hm.
  split_and!.
  - split; intros;
      first [ eapply ruled; [eassumption|];
              first [by apply bool_decide_eq_true_2 | by apply negb_true_iff, bool_decide_eq_false_2
                    | by apply Z.ltb_lt]
            | by apply negb_false_iff, bool_decide_eq_true in Hm0 ].
  - intros Hr. rewrite bool_decide_true in Hm1 by done. destruct (escalation_policy_key i); [by eexists|done].
  - intros Ht. by apply (ruled _ _ _ Hm2), bool_decide_eq_true_2.
  - intros Ht. rewrite bool_decide_true in Hm3 by done. cbn [andb] in Hm3.
    apply negb_false_iff in Hm3. apply existsb_exists in Hm3 as (x & Hx & Hin%bool_decide_eq_true).
    destruct Hx as [<-|[<-|[]]]; auto.
  - clear H. destruct (decide (notification_policy i = "required")) as [Hp|Hp];
      [rewrite (bool_decide_true _ Hp) in Hm4 | rewrite (bool_decide_false _ Hp) in Hm4]; rinv Hm4.
    + apply negb_false_iff, bool_decide_eq_true in Hm, Hm4. done.
    + apply bool_decide_eq_false in Hm, Hm4. done.
Qed.

Lemma actions_Ok row allowed required blocked :
  parse_actions row = Ok (allowed, required, blocked) →
  (∀ a, a ∈ required → a ∈ allowed) ∧ (∀ a, a ∈ allowed → a ∈ ACTIONS ∧ a ∉ blocked).
Proof.
  unfold parse_actions. intros H. rinv H.
  split.
  - apply subset_spec. by apply negb_false_iff.
  - intros a Ha. apply choices_Ok in Hm as (_ & Hall & _). split; [by apply Hall|].
    by eapply (proj1 (meets_false _ _)).
Qed.

Lemma notification_Ok row policy waivers :
  parse_notification row = Ok (policy, waivers) →
  (∀ r, r ∈ waivers → r ∈ NOTIFICATION_WAIVER_REASONS) ∧
  ((policy = "required" ∧ waivers = []) ∨
   (policy = "required_if_contactable" ∧ waivers ≠ []) ∨
   (policy ∈ ["optional"; "prohibited"] ∧ waivers = [])).
Proof.
  unfold parse_notification. intros H. rinv H.
  apply choice_Ok in Hm as [Hp _]. apply choices_Ok in Hm0 as (_ & Hall & _). split; [done|].
  unfold NOTIFICATION_POLICIES in Hp. rewrite !elem_of_cons, elem_of_nil in Hp.
  destruct (decide (waivers = [])) as [->|Hn].
  - destruct Hp as [->|[->|[->|[->|[]]]]]; [by left|done|right; right; by split; [set_solver|]..].
  - pose proof (bool_decide_false _ Hn) as E. rewrite E in *.
    destruct Hp as [->|[->|[->|[->|[]]]]]; try done. right; left. by split.
Qed.

Lemma keys_Ok reason v e l : _keys reason v e = Ok l → NoDup l ∧ (e = false → l ≠ []).
Proof.
  intros H. apply (distinct_Ok _ _ _ _ _ (fun _ => True)) in H as (? & _ & _ & ?); [by split|done].
Qed.

Lemma integer_Ok reason v lo hi z : _integer reason v lo hi = Ok z → lo ≤ z ≤ hi.
Proof.
  unfold _integer. destruct v; try done. destruct (_ && _) eqn:E; [|done]. intros [= <-].
  apply andb_true_iff in E as [E1%Z.leb_le E2%Z.leb_le]. lia.
Qed.

Lemma facts_not_forbidden f : f ∈ FACTS → f ∉ FORBIDDEN_FACTS.
Proof.
  assert (Forall (fun f => f ∉ FORBIDDEN_FACTS) FACTS) as H by (by apply (bool_decide_eq_true_1 _)).
  rewrite Forall_forall in H. intros Hf%list_elem_of_In. by apply H.
Qed.

Lemma scenario_sound payload i : _parse_scenario payload = Ok i → Wf.scenario i.
Proof.
  unfold _parse_scenario. intros H. rinv H.
  apply choices_Ok in Hm3 as (Hfn & Hfacts & _).
  apply actions_Ok in Hm4 as (Hreq & Hall). apply notification_Ok in Hm5 as (Hw & Hpol).
  apply key_Ok in Hm6 as [Hkey _]. apply keys_Ok in Hm7 as (Hal & Hsome).
  apply bool_decide_eq_false in Hm8. apply choice_Ok in Hm12 as [Hterm _].
  apply choices_Ok in Hm13 as (_ & Hout & _). apply choices_Ok in Hm16 as (_ & Hcap & _).
  apply lifecycle_ordered in Hm25.
  lazymatch goal with |- Wf.scenario ?r =>
    destruct (semantics_Ok r _ Hm18) as (Hrules & Hrisk & Hrec & Hesc & Hnot) end.
  split; cbn; try done.
  - split; [by apply Hsome|]. by apply list.NoDup_cons.
  - split; [done|]. intros f Hf. apply Hfacts in Hf. split; [done|by apply facts_not_forbidden].
  - unfold Wf.notification_coherent. cbn in *. case_decide as Hp.
    + left. destruct Hpol as [[? ?]|[[? ?]|[Hp' _]]]; [tauto|congruence|].
      subst. by rewrite !elem_of_cons, elem_of_nil in Hp'; destruct Hp' as [?|[?|[]]].
    + right. destruct Hpol as [[? ?]|?]; tauto.
  - by apply integer_Ok in Hm15.
Qed.

(** What the loops of [_validate_unique_catalog] say: [keys] and [aliases] are those of the
    scenarios before. *)
Lemma aliases_Ok owner names aliases m : check_aliases owner names aliases = Ok m →
  (∀ a p, aliases !! a = Some p → m !! a = Some p) ∧ (∀ a, a ∈ names → m !! a = Some owner).
Proof.
  revert aliases. induction names as [|n names IH]; intros aliases H; cbn in H.
  - injection H as ->. split; [done|]. intros a Ha. by apply elem_of_nil in Ha.
  - apply result_bind_Ok in H as ([] & Hm & H). apply refuse_if_Ok in Hm. apply IH in H as [Hk Ho].
    assert (∀ p, aliases !! n = Some p → p = owner) as Hn.
    { intros p Hp. rewrite Hp in Hm. by apply negb_false_iff, bool_decide_eq_true in Hm. }
    split.
    + intros a p Ha. apply Hk. destruct (decide (n = a)) as [<-|Hne].
      * rewrite lookup_insert_eq. by rewrite (Hn p Ha).
      * by rewrite lookup_insert_ne.
    + intros a [->|Ha]%elem_of_cons; [|by apply Ho]. apply Hk, lookup_insert_eq.
Qed.

Lemma scenarios_Ok l keys aliases ks : check_scenarios l keys aliases = Ok ks →
  NoDup (scenario_key <$> l) ∧ (∀ i, i ∈ l → scenario_key i ∉ keys) ∧
  (∀ k, k ∈ ks ↔ k ∈ keys ∨ k ∈ (scenario_key <$> l)) ∧
  (∀ i a p, i ∈ l → a ∈ BusinessScenarioCatalog.names i → aliases !! a = Some p →
    p = scenario_key i) ∧
  (∀ i j a, i ∈ l → j ∈ l → a ∈ BusinessScenarioCatalog.names i →
    a ∈ BusinessScenarioCatalog.names j → scenario_key i = scenario_key j).
Proof.
  revert keys aliases. induction l as [|x l IH]; intros keys aliases H; cbn [check_scenarios] in H; cbv zeta in H.
  { injection H as ->. cbn [fmap list_fmap]. split_and!; [constructor|..]; set_solver. }
  apply result_bind_Ok in H as ([] & Hm & H). apply refuse_if_Ok, bool_decide_eq_false in Hm.
  apply result_bind_Ok in H as (m & Hm0 & H). apply aliases_Ok in Hm0 as [Hk Ho].
  apply IH in H as (Hn & Hf & Hks & Hp & Hu). clear IH. split_and!.
  - cbn. apply list.NoDup_cons. split; [|done]. intros (i & E & Hi)%list_elem_of_fmap.
    apply (Hf i Hi). set_solver.
  - intros i [->|Hi]%elem_of_cons; [done|]. specialize (Hf i Hi). set_solver.
  - intros k. rewrite Hks. set_solver.
  - intros i a p [->|Hi]%elem_of_cons Ha Hl.
    + apply Hk in Hl. rewrite (Ho a Ha) in Hl. by injection Hl.
    + by eapply Hp; [..|apply Hk].
  - intros i j a [->|Hi]%elem_of_cons [->|Hj]%elem_of_cons Hai Haj; [done|..|by eapply Hu].
    + by eapply Hp; [..|apply Ho].
    + symmetry. by eapply Hp; [..|apply Ho].
Qed.

Lemma unique_Ok l u : _validate_unique_catalog l = Ok u →
  NoDup (scenario_key <$> l) ∧
  (∀ i j a, i ∈ l → j ∈ l → a ∈ BusinessScenarioCatalog.names i →
    a ∈ BusinessScenarioCatalog.names j → scenario_key i = scenario_key j) ∧
  (∀ i k, i ∈ l → ScenarioLifecycle.supersedes (lifecycle i) = Some k →
    k ≠ scenario_key i ∧ k ∈ (scenario_key <$> l)).
Proof.
  unfold _validate_unique_catalog. intros H. rinv H. apply scenarios_Ok in Hm as (Hn & _ & Hk & _ & Hu).
  split_and!; [done|done|]. intros i k Hi Hs.
  apply not_true_iff_false in H. rewrite existsb_exists in H.
  destruct (decide (k ∈ a ∧ k ≠ scenario_key i)) as [[Hka Hne]|Hbad].
  - split; [done|]. apply Hk in Hka. set_solver.
  - destruct H. exists i. rewrite Hs, <- list_elem_of_In. split; [done|].
    apply orb_true_iff. destruct (decide (k = scenario_key i)) as [E|E].
    + right. by apply bool_decide_eq_true_2.
    + left. apply negb_true_iff, bool_decide_eq_false_2. tauto.
Qed.
End Soundness.

(** C20: a catalog that the parser accepts is coherent: a key or an alias names one scenario;
    every scenario has authoritative facts only, actions that are allowed and not blocked, a
    notification policy that agrees with its outcomes, actions and waivers, completion rules
    that announce all it demands, an escalation policy when its risk is high, known
    capabilities, and a lifecycle approved before it takes effect and before the catalog. *)
Theorem catalog_sound payload sha c :
  parse_business_scenario_catalog payload sha = Ok c → Wf.catalog c.
Proof.
  unfold parse_business_scenario_catalog. intros H. rinv H.
  apply orb_false_iff in Hm3 as [Hsome _]. apply bool_decide_eq_false in Hsome.
  apply unique_Ok in Hm5 as (Hn & Hu & Hs).
  assert (Forall Wf.scenario a4) as Hf by (eapply mapM_Forall; [apply scenario_sound|done]).
  split; cbn; try done.
  - destruct a2; [done|]. cbn in Hm4. by rinv Hm4.
  - intros i Hi. apply not_true_iff_false in Hm7. rewrite existsb_exists in Hm7.
    destruct (decide (ScenarioLifecycle.approved_at (BusinessScenarioDefinition.lifecycle i) ≤ a6));
      [done|]. destruct Hm7. exists i. rewrite <- list_elem_of_In. split; [done|]. apply Z.ltb_lt. lia.
Qed.

(** A key or an alias resolves to the one scenario that has it. *)
Lemma dict_lookup {A} (l : list (string * A)) k v :
  (∀ w, (k, w) ∈ l → w = v) → (k, v) ∈ l → BusinessScenarioCatalog.dict l !! k = Some v.
Proof.
  unfold BusinessScenarioCatalog.dict. intros Hall Hin.
  enough (∀ m, (m !! k = Some v ∨ (k, v) ∈ l) →
    fold_left (fun m x => <[fst x := snd x]> m) l m !! k = Some v) as H by (apply H; by right).
  clear Hin. induction l as [|[k' w] l IH]; intros m [Hm|Hin].
  - done.
  - by apply elem_of_nil in Hin.
  - cbn. apply IH; [intros; apply Hall; by right|]. left. destruct (decide (k' = k)) as [->|Hne].
    + rewrite lookup_insert_eq. f_equal. apply Hall. by left.
    + by rewrite lookup_insert_ne.
  - cbn. apply IH; [intros; apply Hall; by right|]. apply elem_of_cons in Hin as [[= <- <-]|Hin].
    + left. apply lookup_insert_eq.
    + by right.
Qed.

Lemma alias_lookup c i a : Wf.catalog c → i ∈ BusinessScenarioCatalog.scenarios c →
  a ∈ BusinessScenarioCatalog.names i →
  BusinessScenarioCatalog.alias_map c !! a = Some (BusinessScenarioDefinition.scenario_key i).
Proof.
  intros W Hi Ha. apply dict_lookup.
  - intros w. rewrite list_elem_of_join. intros (l & Hw & (j & -> & Hj)%list_elem_of_fmap).
    apply list_elem_of_fmap in Hw as (b & [= <- ->] & Hb). by eapply (Wf.cat_names c W).
  - rewrite list_elem_of_join. eexists. split; [|by apply list_elem_of_fmap; exists i].
    apply list_elem_of_fmap. by exists a.
Qed.

Lemma key_lookup c i : Wf.catalog c → i ∈ BusinessScenarioCatalog.scenarios c →
  BusinessScenarioCatalog.by_key c !! BusinessScenarioDefinition.scenario_key i = Some i.
Proof.
  intros W Hi. apply dict_lookup; [|by apply list_elem_of_fmap; exists i].
  intros j (x & [= E ->] & Hx)%list_elem_of_fmap. pose proof (Wf.cat_keys c W) as Hn.
  apply list_elem_of_lookup in Hi as [m Hm]. apply list_elem_of_lookup in Hx as [n Hx].
  assert (m = n) as <-; [|congruence].
  eapply NoDup_lookup; [exact Hn|by rewrite list_lookup_fmap, Hm|]. by rewrite list_lookup_fmap, Hx, E.
Qed.

(** ** When a case is ready *)

Lemma filter_empty {A} (P : A → Prop) `{∀ x, Decision (P x)} l :
  filter P l = [] ↔ ∀ x, x ∈ l → ¬ P x.
Proof.
  split; [intros E x Hx Hp; by eapply filter_nil_not_elem_of|].
  intros Hall. destruct (filter P l) as [|x l'] eqn:E; [done|].
  assert (x ∈ filter P l) as [Hp Hx]%list_elem_of_filter by (rewrite E; left). by apply Hall in Hp.
Qed.

Lemma missing_nil required present :
  missing required present = [] ↔ ∀ x, x ∈ required → x ∈ _normalized_values present.
Proof.
  unfold missing. rewrite filter_empty. split; intros H x Hx.
  - destruct (decide (x ∈ _normalized_values present)) as [|Hn]; [done|]. by destruct (H x Hx).
  - intros Hn. by apply Hn, H.
Qed.

(** The demands of a scenario, but for the notification *)
Record demands (i : BusinessScenarioDefinition.t) (p : Progress.t) : Prop := {
  has_facts : ∀ f, f ∈ BusinessScenarioDefinition.required_fact_classes i →
    f ∈ _normalized_values (Progress.available_fact_classes p);
  has_inputs : ∀ f, f ∈ BusinessScenarioDefinition.required_customer_inputs i →
    f ∈ _normalized_values (Progress.available_customer_inputs p);
  has_actions : ∀ a, a ∈ BusinessScenarioDefinition.required_action_classes i →
    a ∈ _normalized_values (Progress.completed_action_classes p);
  has_outcomes : ∀ o, o ∈ BusinessScenarioDefinition.required_outcome_levels i →
    o ∈ _normalized_values (Progress.completed_outcome_levels p);
  has_observation : 0 < BusinessScenarioDefinition.observation_period_seconds i →
    Progress.observation_period_elapsed p = true;
  no_repair : Progress.repair_required p = false;
  no_escalation : Progress.open_high_risk_escalation p = false;
  may_close : BusinessScenarioDefinition.terminal_behavior i = "closeable" }.

(** The reasons that concern the notification *)
Definition notification_reasons : list string :=
  ["notification_requirement_unsatisfied"; "notification_delivery_unconfirmed"].

Lemma blocked_spec (conds : list (bool * string)) (Q : string → Prop) :
  (∀ r, r ∈ (snd <$> filter (fun c => fst c = true) conds) → Q r) ↔
  Forall (fun c => fst c = true → Q (snd c)) conds.
Proof.
  rewrite Forall_forall. split.
  - intros H c Hc%list_elem_of_In Ht. apply H, list_elem_of_fmap. exists c. split; [done|].
    by apply list_elem_of_filter.
  - intros H r (c & -> & [Ht Hc]%list_elem_of_filter)%list_elem_of_fmap. apply H; [|done].
    by apply list_elem_of_In.
Qed.

Lemma other_reason (b : bool) r : (r ∉ notification_reasons) →
  (b = true → r ∈ notification_reasons) → b = false.
Proof. destruct b; [intros Hn H; destruct Hn; by apply H|done]. Qed.

Lemma none_missing required present :
  negb (bool_decide (missing required present = [])) = false ↔
  ∀ x, x ∈ required → x ∈ _normalized_values present.
Proof. by rewrite negb_false_iff, bool_decide_eq_true, missing_nil. Qed.

Lemma terminal_reason s : "terminal_behavior_" +:+ s ∉ notification_reasons.
Proof.
  unfold notification_reasons. rewrite !elem_of_cons, elem_of_nil. intros [H|[H|[]]]; discriminate H.
Qed.

Lemma demands_spec i p :
  (∀ x, x ∈ ScenarioReadiness.blocked_reasons (evaluate_scenario_readiness i p) →
    x ∈ notification_reasons) ↔ demands i p.
Proof.
  unfold evaluate_scenario_readiness. cbn [ScenarioReadiness.blocked_reasons].
  rewrite blocked_spec, !Forall_cons_iff, Forall_nil_iff. cbn [fst snd]. split.
  - intros (H1 & H2 & H3 & H4 & _ & H6 & H7 & H8 & H9 & _).
    apply other_reason in H1, H2, H3, H4, H6, H7, H8; try by apply (bool_decide_eq_true_1 _).
    apply other_reason in H9; [|apply terminal_reason].
    rewrite none_missing in H1, H2, H3, H4. split; try done.
    + intros Ho. apply Z.ltb_lt in Ho. rewrite Ho in H6. by apply negb_false_iff in H6.
    + by apply negb_false_iff, bool_decide_eq_true in H9.
  - intros D. destruct D as [H1 H2 H3 H4 H6 H7 H8 H9].
    apply none_missing in H1, H2, H3, H4. rewrite H1, H2, H3, H4, H7, H8, H9.
    split_and!; try done.
    + intros _. by left.
    + intros [Ho%Z.ltb_lt Hn]%andb_true_iff. by rewrite H6 in Hn.
Qed.

Lemma notification_blocks i p :
  let r := evaluate_scenario_readiness i p in
  ScenarioReadiness.blocked_reasons r = [] ↔
  demands i p ∧ ScenarioReadiness.notification_satisfied r = true.
Proof.
  cbv zeta. rewrite <- demands_spec. split.
  - intros E. rewrite E. split; [intros x Hx; by apply elem_of_nil in Hx|].
    destruct (ScenarioReadiness.notification_satisfied _) eqn:Hn; [done|].
    assert ("notification_requirement_unsatisfied" ∈
      ScenarioReadiness.blocked_reasons (evaluate_scenario_readiness i p)) as Hin.
    { unfold evaluate_scenario_readiness in *. cbn [ScenarioReadiness.blocked_reasons
        ScenarioReadiness.notification_satisfied] in *. rewrite Hn. apply list_elem_of_fmap.
      exists (true, "notification_requirement_unsatisfied"). split; [done|].
      apply list_elem_of_filter. split; [done|]. do 4 right. left. }
    rewrite E in Hin. by apply elem_of_nil in Hin.
  - intros [H Hn]. assert (∀ x,
      x ∈ ScenarioReadiness.blocked_reasons (evaluate_scenario_readiness i p) → False) as Hf.
    { assert (demands i p) as D by by apply demands_spec.
      unfold evaluate_scenario_readiness in *. cbn [ScenarioReadiness.blocked_reasons
        ScenarioReadiness.notification_satisfied] in *. rewrite Hn.
      apply blocked_spec. destruct D as [H1 H2 H3 H4 H6 H7 H8 H9].
      apply none_missing in H1, H2, H3, H4. rewrite H1, H2, H3, H4, H7, H8, H9.
      rewrite !Forall_cons_iff, Forall_nil_iff. split_and!; try done.
      intros [Ho%Z.ltb_lt Hx]%andb_true_iff. by rewrite H6 in Hx. }
    destruct (ScenarioReadiness.blocked_reasons _) as [|x l]; [done|]. destruct (Hf x). by left.
Qed.

(** ** Witness: the shipped catalog *)

Definition shipped : result BusinessScenarioCatalog.t :=
  parse_business_scenario_catalog Shipped.catalog "sha".

Lemma result_ok {A} (r : result A) : is_ok r = true → ∃ a, r = Ok a.
Proof. destruct r; [eauto|done]. Qed.

Lemma shipped_ok : is_ok shipped = true.
Proof. by vm_compute. Qed.

Lemma catalog_sound_witness : ∃ c, shipped = Ok c ∧ Wf.catalog c.
Proof.
  destruct (result_ok shipped shipped_ok) as [c H]. exists c. split; [exact H|].
  exact (catalog_sound Shipped.catalog "sha" c H).
Defined.
