(* ===== verification/Cases.v ===== *)
(** * The ledger and the scenario of a case

    [models_case_evidence.py], [CaseOutcomeRecord] of [models_case_governance.py],
    [services/case_outcome_service.py]: the append-only records of what was observed about a
    ticket and of what was done for it; [services/case_scenario_service.py]: the scenario that
    a ticket is assigned to, with the listeners that assign it.

    [Case.t] is the database of the agent desk with the two ledgers.  [sha256_hex], [dumps]
    and [loads] are as in Plans.v; [catalog_file] is what the catalog file reads as, and
    [loads_pairs] decodes it (Scenarios.v).  JSON columns hold their value, the text column of a
    scenario snapshot its text.

    The listeners of [Ticket] run at a flush.  The operations here run them when the operation of
    Tickets.v that flushes the ticket is done; a field update flushes each field. *)

From S2P Require Import Prelude Calendar Enums Models Fixtures Tenancy Permissions Sla.
From S2P Require Import Customers Tickets Work AiTurns Desk Plans Tasks Iso Catalog Scenarios.

(** ** Rows *)

Module CaseEvidenceRecord.
Record t := {
  id : Z; ticket_id : Z; evidence_kind : string; evidence_key : string; state : string;
  source_kind : string; source_ref : string; source_revision : string; evidence_sha256 : string;
  safe_metadata_json : json; observed_at : Z; recorded_by : option Z; created_at : Z }.
End CaseEvidenceRecord.

Module CaseOutcomeRecord.
Record t := {
  id : Z; ticket_id : Z; sequence : Z; record_type : string; state : string;
  idempotency_key : string; parent_record_id : option Z; source_kind : option string;
  source_id : option string; payload_json : json; occurred_at : Z; created_by : option Z;
  created_at : Z }.
End CaseOutcomeRecord.

Module Case.
Record t := {
  desk : Desk.t; evidence : Table CaseEvidenceRecord.t; outcomes : Table CaseOutcomeRecord.t }.
#[global] Instance eta : Settable t := fun r => {|
  desk := desk r; evidence := evidence r; outcomes := outcomes r |}.

Definition core (s : t) : Db.t := Work.core (Desk.work (desk s)).
End Case.

#[export] Instance Ticket_eq_dec : EqDecision Ticket.t.
Proof. solve_decision. Defined.

Definition on_desk {A} (m : M Desk.t A) : M Case.t A := fun s =>
  let (r, d) := m (Case.desk s) in (r, s <| Case.desk := d |>).
Definition on_db {A} (m : M Db.t A) : M Case.t A := on_desk (on_work (on_core m)).
Definition utc_now : M Case.t Z := on_db Models.utc_now.

(** ** Content-safe payloads *)

Definition EVIDENCE_KINDS : list string := ["fact"; "customer_input"].
Definition EVIDENCE_STATES : list string := ["verified"; "completed"; "waived"; "failed"].
Definition OUTCOME_TYPES : list string :=
  ["action_intent"; "execution_attempt"; "provider_receipt"; "operational_outcome";
   "customer_notification"; "closure_assessment"].
Definition OUTCOME_STATES : list string :=
  ["requested"; "accepted"; "processing"; "succeeded"; "failed"; "waived"; "delivered";
   "confirmed"; "repair_required"; "blocked"; "eligible"; "closed"; "reopened"].
Definition SENSITIVE_KEYS : list string :=
  ["body"; "content"; "message"; "prompt"; "email"; "phone"; "address"; "contact"; "recipient";
   "token"; "authorization"; "cookie"; "password"; "secret"; "api_key"; "raw_payload";
   "provider_payload"].
Definition MAX_PAYLOAD_BYTES : Z := 16384.

(** [_normalized] *)
Definition normalized (value : string) (limit : nat) (code : string) : result string :=
  let text := squeeze (py_strip value) in
  if nonempty text then Ok (str_take limit text) else Err (ValueError code).

(** [d[k] = v] *)
Fixpoint dict_set (k : string) (v : json) (d : list (string * json)) : list (string * json) :=
  match d with
  | [] => [(k, v)]
  | (k', v') :: d => if decide (k = k') then (k, v) :: d else (k', v') :: dict_set k v d
  end.

Definition dict_of (l : list (string * json)) : list (string * json) :=
  fold_left (fun d x => dict_set (fst x) (snd x) d) l [].

Definition sensitive (key : string) : bool :=
  let normalized_key := py_lower (py_strip key) in
  bool_decide (normalized_key ∈ SENSITIVE_KEYS) ||
  existsb (fun marker => contains marker normalized_key) ["token"; "secret"; "password"].

(** The arguments of [record_case_evidence] and [append_case_outcome] *)
Module EvidenceInput.
Record t := {
  evidence_kind : string; evidence_key : string; state : string; source_kind : string;
  source_ref : string; source_revision : string; observed_at : option Z;
  recorded_by : option Z; safe_metadata : json }.
End EvidenceInput.

Module OutcomeInput.
Record t := {
  record_type : string; state : string; idempotency_key : string; occurred_at : option Z;
  created_by : option Z; payload : json; parent_record_id : option Z;
  source_kind : option string; source_id : option string }.
End OutcomeInput.

(** What the ledgers say of a case *)
Module CaseLedgerProjection.
Record t := {
  fact_classes : gset string; customer_inputs : gset string; action_classes : gset string;
  outcome_levels : gset string; notification_state : option string; repair_required : bool;
  evidence_record_ids : list Z; outcome_record_ids : list Z; latest_material_at : option Z }.
#[global] Instance eta : Settable t := fun r => {|
  fact_classes := fact_classes r; customer_inputs := customer_inputs r;
  action_classes := action_classes r; outcome_levels := outcome_levels r;
  notification_state := notification_state r; repair_required := repair_required r;
  evidence_record_ids := evidence_record_ids r; outcome_record_ids := outcome_record_ids r;
  latest_material_at := latest_material_at r |}.
End CaseLedgerProjection.

Section Ledger.
Context (sha256_hex : string → string) (dumps : json → string).

Definition _sha256 (value : json) : string := sha256_hex (dumps value).

Definition digest_only (raw : string) (flag : string) : json :=
  JObj [(flag, JBool true); ("length", JNum (str_len raw));
        ("sha256_prefix", JStr (str_take 16 (sha256_hex raw)))].

Fixpoint _safe_payload (depth : nat) (key : string) (value : json) : json :=
  if (4 <? depth)%nat then JObj [("truncated", JBool true); ("reason", JStr "depth")]
  else if sensitive key then
    digest_only (match value with JNull => EmptyString | _ => py_str value end) "redacted"
  else
    match value with
    | JObj l => JObj (dict_of (take 40
        (map (fun x => (str_take 80 (fst x), _safe_payload (S depth) (fst x) (snd x))) l)))
    | JArr l => JArr (take 40 (map (_safe_payload (S depth) key) l))
    | JStr s => if str_len s <=? 240 then value else digest_only s "truncated"
    | _ => value
    end.

Definition sanitize_case_ledger_payload (payload : json) : result json :=
  let safe := _safe_payload 0 EmptyString (json_or payload (JObj [])) in
  match safe with
  | JObj _ =>
      if MAX_PAYLOAD_BYTES <? str_len (dumps safe)
      then Err (ValueError "case_ledger_payload_too_large") else Ok safe
  | _ => Err (ValueError "case_ledger_payload_invalid")
  end.

(** ** Evidence *)

Definition _lock_ticket (ticket_id : Z) : M Case.t unit :=
  s ← get;
  require (not_null (ticket_at (Case.core s) ticket_id)) (ValueError "case_ticket_not_found").

(** The columns of a new row, checked and normalized *)
Definition evidence_row (ticket_id : Z) (x : EvidenceInput.t)
    : result (string → Z → Z → CaseEvidenceRecord.t) :=
  kind ← normalized (EvidenceInput.evidence_kind x) 24 "case_evidence_kind_required";
  key ← normalized (EvidenceInput.evidence_key x) 160 "case_evidence_key_required";
  state ← normalized (EvidenceInput.state x) 24 "case_evidence_state_required";
  source ← normalized (EvidenceInput.source_kind x) 80 "case_evidence_source_required";
  ref ← normalized (EvidenceInput.source_ref x) 200 "case_evidence_source_ref_required";
  revision ← normalized (EvidenceInput.source_revision x) 160
               "case_evidence_source_revision_required";
  if negb (bool_decide (py_lower kind ∈ EVIDENCE_KINDS))
  then Err (ValueError "case_evidence_kind_invalid")
  else if negb (bool_decide (py_lower state ∈ EVIDENCE_STATES))
  then Err (ValueError "case_evidence_state_invalid")
  else match EvidenceInput.observed_at x with
  | None => Err (ValueError "case_evidence_observed_at_required")
  | Some observed =>
      metadata ← sanitize_case_ledger_payload (EvidenceInput.safe_metadata x);
      Ok (fun digest created_at i =>
        {| CaseEvidenceRecord.id := i; CaseEvidenceRecord.ticket_id := ticket_id;
           CaseEvidenceRecord.evidence_kind := py_lower kind;
           CaseEvidenceRecord.evidence_key := py_lower key;
           CaseEvidenceRecord.state := py_lower state;
           CaseEvidenceRecord.source_kind := py_lower source;
           CaseEvidenceRecord.source_ref := ref; CaseEvidenceRecord.source_revision := revision;
           CaseEvidenceRecord.evidence_sha256 := digest;
           CaseEvidenceRecord.safe_metadata_json := metadata;
           CaseEvidenceRecord.observed_at := observed;
           CaseEvidenceRecord.recorded_by := EvidenceInput.recorded_by x;
           CaseEvidenceRecord.created_at := created_at |})
  end.

(** The dict [identity] of a row *)
Definition evidence_identity (r : CaseEvidenceRecord.t) : json :=
  JObj [("schema", JStr "nexus.case-evidence.v1");
        ("ticket_id", JNum (CaseEvidenceRecord.ticket_id r));
        ("evidence_kind", JStr (CaseEvidenceRecord.evidence_kind r));
        ("evidence_key", JStr (CaseEvidenceRecord.evidence_key r));
        ("state", JStr (CaseEvidenceRecord.state r));
        ("source_kind", JStr (CaseEvidenceRecord.source_kind r));
        ("source_ref", JStr (CaseEvidenceRecord.source_ref r));
        ("source_revision", JStr (CaseEvidenceRecord.source_revision r));
        ("observed_at", jtime (CaseEvidenceRecord.observed_at r));
        ("safe_metadata", CaseEvidenceRecord.safe_metadata_json r)].

(** The columns of the unique constraint *)
Definition same_source (a b : CaseEvidenceRecord.t) : bool :=
  bool_decide (CaseEvidenceRecord.ticket_id a = CaseEvidenceRecord.ticket_id b) &&
  bool_decide (CaseEvidenceRecord.evidence_key a = CaseEvidenceRecord.evidence_key b) &&
  bool_decide (CaseEvidenceRecord.source_kind a = CaseEvidenceRecord.source_kind b) &&
  bool_decide (CaseEvidenceRecord.source_ref a = CaseEvidenceRecord.source_ref b) &&
  bool_decide (CaseEvidenceRecord.source_revision a = CaseEvidenceRecord.source_revision b).

Definition evidence_like (r : CaseEvidenceRecord.t) (s : Case.t) : option CaseEvidenceRecord.t :=
  select_first (same_source r) (Case.evidence s).

Definition insert_evidence (mk : Z → CaseEvidenceRecord.t) : M Case.t CaseEvidenceRecord.t := fun s =>
  let row := mk (tnext (Case.evidence s)) in
  if not_null (evidence_like row s) then (Err (IntegrityError "uq_case_evidence_source_revision"), s)
  else (Ok row, s <| Case.evidence ::= fun T => table_add T mk |>).

(** [record_case_evidence]: the row, and whether it is new *)
Definition record_case_evidence (ticket_id : Z) (x : EvidenceInput.t)
    : M Case.t (CaseEvidenceRecord.t * bool) :=
  mk ← lift (evidence_row ticket_id x);
  let digest := _sha256 (evidence_identity (mk EmptyString 0 0)) in
  s ← get;
  match evidence_like (mk digest 0 0) s with
  | Some existing =>
      require (bool_decide (CaseEvidenceRecord.evidence_sha256 existing = digest))
        (ValueError "case_evidence_idempotency_conflict");;
      mret (existing, false)
  | None =>
      _lock_ticket ticket_id;;
      now ← utc_now;
      try_catch (row ← insert_evidence (mk digest now); mret (row, true))
        (fun e => match e with
         | IntegrityError _ =>
             s ← get;
             match evidence_like (mk digest now 0) s with
             | Some existing =>
                 if bool_decide (CaseEvidenceRecord.evidence_sha256 existing = digest)
                 then mret (existing, false)
                 else raise (ValueError "case_evidence_concurrent_conflict")
             | None => raise (ValueError "case_evidence_concurrent_conflict")
             end
         | _ => raise e
         end)
  end.

(** ** Outcomes *)

(** The type, the state and the key of a record, checked *)
Definition outcome_fields (x : OutcomeInput.t) : result (string * string * string) :=
  record_type ← normalized (OutcomeInput.record_type x) 40 "case_outcome_type_required";
  state ← normalized (OutcomeInput.state x) 40 "case_outcome_state_required";
  key ← normalized (OutcomeInput.idempotency_key x) 180 "case_outcome_idempotency_required";
  if negb (bool_decide (py_lower record_type ∈ OUTCOME_TYPES))
  then Err (ValueError "case_outcome_type_invalid")
  else if negb (bool_decide (py_lower state ∈ OUTCOME_STATES))
  then Err (ValueError "case_outcome_state_invalid")
  else Ok (py_lower record_type, py_lower state, key).

(** The dict that a repeated call must reproduce *)
Definition outcome_content (record_type state : string) (payload : json) (parent : option Z)
    (source_kind source_id : option string) (occurred_at : Z) : json :=
  JObj [("record_type", JStr record_type); ("state", JStr state); ("payload", payload);
        ("parent_record_id", jnum parent); ("source_kind", Plans.jstr source_kind);
        ("source_id", Plans.jstr source_id); ("occurred_at", jtime occurred_at)].

Definition row_content (r : CaseOutcomeRecord.t) : json :=
  outcome_content (CaseOutcomeRecord.record_type r) (CaseOutcomeRecord.state r)
    (CaseOutcomeRecord.payload_json r) (CaseOutcomeRecord.parent_record_id r)
    (CaseOutcomeRecord.source_kind r) (CaseOutcomeRecord.source_id r)
    (CaseOutcomeRecord.occurred_at r).

Definition outcomes_of (ticket_id : Z) (s : Case.t) : list CaseOutcomeRecord.t :=
  select (fun r => CaseOutcomeRecord.ticket_id r =? ticket_id) (Case.outcomes s).

Definition outcome_keyed (ticket_id : Z) (key : string) (s : Case.t)
    : option CaseOutcomeRecord.t :=
  select_first (fun r => (CaseOutcomeRecord.ticket_id r =? ticket_id) &&
                         bool_decide (CaseOutcomeRecord.idempotency_key r = key)) (Case.outcomes s).

(** [int(max(sequence) or 0) + 1] *)
Definition next_sequence (ticket_id : Z) (s : Case.t) : Z :=
  foldr (fun r m => Z.max (CaseOutcomeRecord.sequence r) m) 0 (outcomes_of ticket_id s) + 1.

Definition clip_lower (n : nat) (v : option string) : option string :=
  match v with
  | Some t => if nonempty t then Some (str_take n (py_lower (py_strip t))) else None
  | None => None
  end.
Definition clip_text (n : nat) (v : option string) : option string :=
  match v with
  | Some t => if nonempty t then Some (str_take n (py_strip t)) else None
  | None => None
  end.

Definition new_outcome (ticket_id : Z) (x : OutcomeInput.t) (record_type state key : string)
    (payload : json) (sequence occurred created_at : Z) (i : Z) : CaseOutcomeRecord.t :=
  {| CaseOutcomeRecord.id := i; CaseOutcomeRecord.ticket_id := ticket_id;
     CaseOutcomeRecord.sequence := sequence; CaseOutcomeRecord.record_type := record_type;
     CaseOutcomeRecord.state := state; CaseOutcomeRecord.idempotency_key := key;
     CaseOutcomeRecord.parent_record_id := OutcomeInput.parent_record_id x;
     CaseOutcomeRecord.source_kind := clip_lower 80 (OutcomeInput.source_kind x);
     CaseOutcomeRecord.source_id := clip_text 180 (OutcomeInput.source_id x);
     CaseOutcomeRecord.payload_json := payload; CaseOutcomeRecord.occurred_at := occurred;
     CaseOutcomeRecord.created_by := OutcomeInput.created_by x;
     CaseOutcomeRecord.created_at := created_at |}.

Definition insert_outcome (mk : Z → CaseOutcomeRecord.t) : M Case.t CaseOutcomeRecord.t := fun s =>
  let row := mk (tnext (Case.outcomes s)) in
  let t := CaseOutcomeRecord.ticket_id row in
  if not_null (outcome_keyed t (CaseOutcomeRecord.idempotency_key row) s)
  then (Err (IntegrityError "uq_case_outcome_ticket_idempotency"), s)
  else if existsb (fun r => CaseOutcomeRecord.sequence r =? CaseOutcomeRecord.sequence row)
            (outcomes_of t s)
  then (Err (IntegrityError "uq_case_outcome_ticket_sequence"), s)
  else (Ok row, s <| Case.outcomes ::= fun T => table_add T mk |>).

(** The parent of a record belongs to its ticket. *)
Definition parent_valid (ticket_id : Z) (parent : option Z) (s : Case.t) : bool :=
  match parent with
  | None => true
  | Some p => match table_get (Case.outcomes s) p with
              | Some r => CaseOutcomeRecord.ticket_id r =? ticket_id
              | None => false
              end
  end.

(** [append_case_outcome]: the row, and whether it is new *)
Definition append_case_outcome (ticket_id : Z) (x : OutcomeInput.t)
    : M Case.t (CaseOutcomeRecord.t * bool) :=
  f ← lift (outcome_fields x);
  let '(record_type, state, key) := f in
  occurred ← lift (match OutcomeInput.occurred_at x with
                   | Some t => Ok t
                   | None => Err (ValueError "case_outcome_occurred_at_required")
                   end);
  safe ← lift (sanitize_case_ledger_payload (OutcomeInput.payload x));
  s ← get;
  match outcome_keyed ticket_id key s with
  | Some existing =>
      let expected := _sha256 (outcome_content record_type state safe
          (OutcomeInput.parent_record_id x) (OutcomeInput.source_kind x) (OutcomeInput.source_id x)
          occurred) in
      require (bool_decide (expected = _sha256 (row_content existing)))
        (ValueError "case_outcome_idempotency_conflict");;
      mret (existing, false)
  | None =>
      _lock_ticket ticket_id;;
      require (parent_valid ticket_id (OutcomeInput.parent_record_id x) s)
        (ValueError "case_outcome_parent_invalid");;
      now ← utc_now;
      try_catch
        (row ← insert_outcome (new_outcome ticket_id x record_type state key safe
                 (next_sequence ticket_id s) occurred now);
         mret (row, true))
        (fun e => match e with
         | IntegrityError _ =>
             s ← get;
             match outcome_keyed ticket_id key s with
             | Some existing => mret (existing, false)
             | None => raise (ValueError "case_outcome_concurrent_conflict")
             end
         | _ => raise e
         end)
  end.
End Ledger.

(** ** The projection of the ledgers *)

Definition later (t : Z) (latest : option Z) : option Z :=
  match latest with Some l => Some (if l <? t then t else l) | None => Some t end.

(** One pass of the loop over the evidence *)
Definition project_evidence (p : CaseLedgerProjection.t) (r : CaseEvidenceRecord.t)
    : CaseLedgerProjection.t :=
  let p := p <| CaseLedgerProjection.latest_material_at ::= later (CaseEvidenceRecord.observed_at r) |> in
  if bool_decide (CaseEvidenceRecord.state r = "failed")
  then p <| CaseLedgerProjection.repair_required := true |>
  else if negb (bool_decide (CaseEvidenceRecord.state r ∈ ["verified"; "completed"; "waived"])) then p
  else if bool_decide (CaseEvidenceRecord.evidence_kind r = "fact")
  then p <| CaseLedgerProjection.fact_classes ::= ({[CaseEvidenceRecord.evidence_key r]} ∪.) |>
  else if bool_decide (CaseEvidenceRecord.evidence_kind r = "customer_input")
  then p <| CaseLedgerProjection.customer_inputs ::= ({[CaseEvidenceRecord.evidence_key r]} ∪.) |>
  else p.

(** [str(payload.get(key) or "").strip().lower()] of a stored payload *)
Definition payload_text (key : string) (r : CaseOutcomeRecord.t) : string :=
  py_lower (py_strip (text_of (json_get key (CaseOutcomeRecord.payload_json r)))).

(** [if value: values.add(value)] *)
Definition add_text (v : string) (l : gset string) : gset string :=
  if nonempty v then {[v]} ∪ l else l.

Definition SUCCEEDED : list string := ["succeeded"; "delivered"; "confirmed"].

(** One pass of the loop over the outcomes *)
Definition project_outcome (p : CaseLedgerProjection.t) (r : CaseOutcomeRecord.t)
    : CaseLedgerProjection.t :=
  let state := CaseOutcomeRecord.state r in
  let type := CaseOutcomeRecord.record_type r in
  let done := bool_decide (state ∈ SUCCEEDED) in
  let action_class := payload_text "action_class" r in
  let p := p <| CaseLedgerProjection.latest_material_at ::= later (CaseOutcomeRecord.occurred_at r) |> in
  let p := if bool_decide (state ∈ ["failed"; "repair_required"])
           then p <| CaseLedgerProjection.repair_required := true |> else p in
  let p :=
    if bool_decide (type ∈ ["execution_attempt"; "provider_receipt"]) &&
       bool_decide (state ∈ "accepted" :: SUCCEEDED)
    then
      let p := p <| CaseLedgerProjection.action_classes ::= add_text action_class |> in
      if done then p <| CaseLedgerProjection.outcome_levels ::= ({["technical_completed"]} ∪.) |> else p
    else p in
  let p :=
    if bool_decide (type = "operational_outcome") && done
    then p <| CaseLedgerProjection.action_classes ::= add_text action_class |>
           <| CaseLedgerProjection.outcome_levels ::= add_text (payload_text "outcome_level" r) |>
    else p in
  if bool_decide (type = "customer_notification") then
    if bool_decide (state = "waived") then
      let reason := payload_text "waiver_reason" r in
      p <| CaseLedgerProjection.notification_state :=
             Some (if nonempty reason then "waived:" +:+ reason else "waived") |>
    else if done then
      p <| CaseLedgerProjection.action_classes ::= ({["notify_customer"]} ∪.) |>
        <| CaseLedgerProjection.outcome_levels ::= ({["customer_notified"]} ∪.) |>
        <| CaseLedgerProjection.notification_state :=
             Some (if bool_decide (state ∈ ["delivered"; "confirmed"]) then "delivered" else "sent") |>
    else p
  else p.

(** [ORDER BY observed_at, id] and [ORDER BY sequence] *)
Definition evidence_of (ticket_id : Z) (s : Case.t) : list CaseEvidenceRecord.t :=
  sort_by (fun a b =>
      (CaseEvidenceRecord.observed_at a <? CaseEvidenceRecord.observed_at b) ||
      ((CaseEvidenceRecord.observed_at a =? CaseEvidenceRecord.observed_at b) &&
       (CaseEvidenceRecord.id a <=? CaseEvidenceRecord.id b)))
    (select (fun r => CaseEvidenceRecord.ticket_id r =? ticket_id) (Case.evidence s)).

Definition by_sequence (a b : CaseOutcomeRecord.t) : bool :=
  CaseOutcomeRecord.sequence a <=? CaseOutcomeRecord.sequence b.

Definition project_case_ledger (ticket_id : Z) (s : Case.t) : CaseLedgerProjection.t :=
  let evidence_rows := evidence_of ticket_id s in
  let outcome_rows := sort_by by_sequence (outcomes_of ticket_id s) in
  fold_left project_outcome outcome_rows (fold_left project_evidence evidence_rows
    {| CaseLedgerProjection.fact_classes := ∅; CaseLedgerProjection.customer_inputs := ∅;
       CaseLedgerProjection.action_classes := ∅; CaseLedgerProjection.outcome_levels := ∅;
       CaseLedgerProjection.notification_state := None;
       CaseLedgerProjection.repair_required := false;
       CaseLedgerProjection.evidence_record_ids := CaseEvidenceRecord.id <$> evidence_rows;
       CaseLedgerProjection.outcome_record_ids := CaseOutcomeRecord.id <$> outcome_rows;
       CaseLedgerProjection.latest_material_at := None |}).

(** ** The scenario of a case *)

Definition CASE_SCENARIO_SNAPSHOT_SCHEMA : string := "nexus.case-scenario-assignment.v1".
Definition SCENARIO_IDENTITY_FIELDS : list string :=
  ["case_type"; "sub_category"; "category"; "ai_classification"].

Definition scenario_is_runtime_active (scenario : BusinessScenarioDefinition.t) (current : Z) : bool :=
  ScenarioLifecycle.is_active (BusinessScenarioDefinition.lifecycle scenario) current.

(** [str(value or "").strip().lower() or None] *)
Definition identity_text (v : option string) : option string :=
  let text := py_lower (py_strip (str_or v EmptyString)) in
  if nonempty text then Some text else None.

(** The dict [matches] over some identity fields: the scenario that each names *)
Definition field_matches (t : Ticket.t) (catalog : BusinessScenarioCatalog.t) (fields : list string)
    : list (string * string) :=
  omap (fun f => v ← identity_text (text t f);
                 k ← BusinessScenarioCatalog.alias_map catalog !! v; Some (f, k)) fields.

Definition _candidate_matches (t : Ticket.t) (catalog : BusinessScenarioCatalog.t)
    : list (string * string) :=
  field_matches t catalog SCENARIO_IDENTITY_FIELDS.

(** The identity fields that the flush changes *)
Definition changed_identity (before after : Ticket.t) : list string :=
  filter (fun f => text before f ≠ text after f) SCENARIO_IDENTITY_FIELDS.

Definition _changed_candidate_matches (before after : Ticket.t) (catalog : BusinessScenarioCatalog.t)
    : list (string * string) :=
  field_matches after catalog (changed_identity before after).

Definition case_conflict (code : string) : exc := HTTPExceptionCode 409 code EmptyString.

(** [_scenario_snapshot] *)
Definition lifecycle_snapshot (l : ScenarioLifecycle.t) : json :=
  JObj [("status", JStr (ScenarioLifecycle.status l)); ("owner", JStr (ScenarioLifecycle.owner l));
        ("approved_at", jtime (ScenarioLifecycle.approved_at l));
        ("effective_from", jtime (ScenarioLifecycle.effective_from l));
        ("review_due", jtime (ScenarioLifecycle.review_due l));
        ("expires_at", json_of_option jtime (ScenarioLifecycle.expires_at l));
        ("supersedes", Plans.jstr (ScenarioLifecycle.supersedes l))].

Definition scenario_payload (i : BusinessScenarioDefinition.t) : list (string * json) :=
  [("scenario_key", JStr (BusinessScenarioDefinition.scenario_key i));
   ("issue_type_aliases", jstrs (BusinessScenarioDefinition.issue_type_aliases i));
   ("trigger_sources", jstrs (BusinessScenarioDefinition.trigger_sources i));
   ("required_fact_classes", jstrs (BusinessScenarioDefinition.required_fact_classes i));
   ("required_customer_inputs", jstrs (BusinessScenarioDefinition.required_customer_inputs i));
   ("risk_level", JStr (BusinessScenarioDefinition.risk_level i));
   ("escalation_policy_key", Plans.jstr (BusinessScenarioDefinition.escalation_policy_key i));
   ("owner_queue_key", JStr (BusinessScenarioDefinition.owner_queue_key i));
   ("required_capabilities", jstrs (BusinessScenarioDefinition.required_capabilities i));
   ("allowed_action_classes", jstrs (BusinessScenarioDefinition.allowed_action_classes i));
   ("required_action_classes", jstrs (BusinessScenarioDefinition.required_action_classes i));
   ("blocked_action_classes", jstrs (BusinessScenarioDefinition.blocked_action_classes i));
   ("notification_policy", JStr (BusinessScenarioDefinition.notification_policy i));
   ("allowed_no_notification_reasons",
     jstrs (BusinessScenarioDefinition.allowed_no_notification_reasons i));
   ("terminal_behavior", JStr (BusinessScenarioDefinition.terminal_behavior i));
   ("required_outcome_levels", jstrs (BusinessScenarioDefinition.required_outcome_levels i));
   ("completion_rules", jstrs (BusinessScenarioDefinition.completion_rules i));
   ("definition_of_done", JStr (BusinessScenarioDefinition.definition_of_done i));
   ("observation_period_seconds",
     JNum (BusinessScenarioDefinition.observation_period_seconds i));
   ("reopen_conditions", jstrs (BusinessScenarioDefinition.reopen_conditions i));
   ("cancellation_semantics", JStr (BusinessScenarioDefinition.cancellation_semantics i));
   ("metrics", jstrs (BusinessScenarioDefinition.metrics i));
   ("scope_mode", JStr (BusinessScenarioDefinition.scope_mode i));
   ("lifecycle", lifecycle_snapshot (BusinessScenarioDefinition.lifecycle i))].

Definition _scenario_snapshot (catalog : BusinessScenarioCatalog.t)
    (i : BusinessScenarioDefinition.t) : json :=
  JObj
    [("schema", JStr CASE_SCENARIO_SNAPSHOT_SCHEMA);
     ("catalog_version", JStr (BusinessScenarioCatalog.catalog_version catalog));
     ("catalog_sha256", JStr (BusinessScenarioCatalog.source_sha256 catalog));
     ("scenario", JObj (scenario_payload i))].

Section Scenarios.
Context (sha256_hex : string → string) (dumps : json → string).
Context (loads_pairs : string → option json) (catalog_file : option string).

(** The scenarios of the file that are not in force make the whole catalog unusable. *)
Definition load_runtime_scenario_catalog : M Case.t BusinessScenarioCatalog.t :=
  catalog ← lift (load_business_scenario_catalog sha256_hex loads_pairs catalog_file 0 false);
  current ← utc_now;
  require (forallb (fun i => scenario_is_runtime_active i current)
             (BusinessScenarioCatalog.scenarios catalog))
    (case_conflict "scenario_catalog_contains_runtime_inactive_definition");;
  mret catalog.

(** [catalog.by_key()[key]], in force *)
Definition scenario_in_force (catalog : BusinessScenarioCatalog.t) (key : string)
    : M Case.t BusinessScenarioDefinition.t :=
  scenario ← lift (match BusinessScenarioCatalog.by_key catalog !! key with
                   | Some i => Ok i
                   | None => Err (LookupError key)
                   end);
  current ← utc_now;
  require (scenario_is_runtime_active scenario current)
    (case_conflict "case_scenario_not_runtime_active");;
  mret scenario.

Definition resolve_candidate_scenario (t : Ticket.t) (catalog : BusinessScenarioCatalog.t)
    : M Case.t (option BusinessScenarioDefinition.t) :=
  match remove_dups (snd <$> _candidate_matches t catalog) with
  | [] => mret None
  | [key] => scenario ← scenario_in_force catalog key; mret (Some scenario)
  | _ => raise (case_conflict "case_scenario_identity_conflict")
  end.

Definition resolve_explicit_scenario (catalog : BusinessScenarioCatalog.t) (scenario_key : string)
    : M Case.t BusinessScenarioDefinition.t :=
  match BusinessScenarioCatalog.alias_map catalog !!
          default EmptyString (identity_text (Some scenario_key)) with
  | None => raise (HTTPExceptionCode 404 "case_scenario_not_found" EmptyString)
  | Some target => scenario_in_force catalog target
  end.

(** [_assignment_values], with the id of the new row *)
Definition new_assignment (ticket_id : Z) (catalog : BusinessScenarioCatalog.t)
    (scenario : BusinessScenarioDefinition.t) (source : string) (reason : option string)
    (actor_id : option Z) (assigned_at : Z) (i : Z) : CaseScenarioAssignment.t :=
  {| CaseScenarioAssignment.id := i; CaseScenarioAssignment.ticket_id := ticket_id;
     CaseScenarioAssignment.scenario_key := BusinessScenarioDefinition.scenario_key scenario;
     CaseScenarioAssignment.catalog_version := BusinessScenarioCatalog.catalog_version catalog;
     CaseScenarioAssignment.catalog_sha256 := BusinessScenarioCatalog.source_sha256 catalog;
     CaseScenarioAssignment.scenario_snapshot_json := dumps (_scenario_snapshot catalog scenario);
     CaseScenarioAssignment.assignment_source := str_take 80 (str_or (Some source) "runtime");
     CaseScenarioAssignment.assignment_reason := clipped 2000 reason;
     CaseScenarioAssignment.assigned_by := actor_id;
     CaseScenarioAssignment.assigned_at := assigned_at;
     CaseScenarioAssignment.superseded_at := None;
     CaseScenarioAssignment.superseded_by_id := None |}.

Definition current_assignment (ticket_id : Z) (s : Case.t) : option CaseScenarioAssignment.t :=
  current_case_scenario_assignment (Case.desk s) ticket_id.

(** The flush of a new assignment: at most one is current for a ticket. *)
Definition add_assignment (ticket_id : Z) (mk : Z → CaseScenarioAssignment.t) : M Case.t Z :=
  s ← get;
  require (negb (not_null (current_assignment ticket_id s)))
    (IntegrityError "uq_case_scenario_assignments_current_ticket");;
  on_desk (add_row mk).

(** The columns [IMMUTABLE_ASSIGNMENT_FIELDS] *)
Definition assignment_contract (a : CaseScenarioAssignment.t) :=
  (CaseScenarioAssignment.ticket_id a, CaseScenarioAssignment.scenario_key a,
   CaseScenarioAssignment.catalog_version a, CaseScenarioAssignment.catalog_sha256 a,
   CaseScenarioAssignment.scenario_snapshot_json a, CaseScenarioAssignment.assignment_source a,
   CaseScenarioAssignment.assignment_reason a, CaseScenarioAssignment.assigned_by a,
   CaseScenarioAssignment.assigned_at a).

(** Those that differ, sorted *)
Definition contract_changes (before after : CaseScenarioAssignment.t) : list string :=
  let differs {B} `{EqDecision B} (f : CaseScenarioAssignment.t → B) : bool :=
    negb (bool_decide (f before = f after)) in
  fst <$> filter (fun c => snd c = true)
    [("assigned_at", differs CaseScenarioAssignment.assigned_at);
     ("assigned_by", differs CaseScenarioAssignment.assigned_by);
     ("assignment_reason", differs CaseScenarioAssignment.assignment_reason);
     ("assignment_source", differs CaseScenarioAssignment.assignment_source);
     ("catalog_sha256", differs CaseScenarioAssignment.catalog_sha256);
     ("catalog_version", differs CaseScenarioAssignment.catalog_version);
     ("scenario_key", differs CaseScenarioAssignment.scenario_key);
     ("scenario_snapshot_json", differs CaseScenarioAssignment.scenario_snapshot_json);
     ("ticket_id", differs CaseScenarioAssignment.ticket_id)].

(** The listener before the UPDATE of an assignment *)
Definition _guard_assignment_contract_immutable (before after : CaseScenarioAssignment.t)
    : M Case.t unit :=
  require (bool_decide (contract_changes before after = []))
    (ValueError ("case_scenario_assignment_immutable:" +:+
                 String.concat "," (contract_changes before after))).

(** Attributes of an assignment set, and their flush *)
Definition set_assignment (i : Z) (f : CaseScenarioAssignment.t → CaseScenarioAssignment.t)
    : M Case.t unit :=
  a ← on_desk (the_row i);
  _guard_assignment_contract_immutable a (f a);;
  on_desk (set_row i f).

(** *** An explicit reclassification *)

Definition reclassification_event (ticket_id : Z) (actor_id : option Z) (reason : string)
    (old : option CaseScenarioAssignment.t) (row : CaseScenarioAssignment.t) : TicketEvent.t :=
  let summary (a : CaseScenarioAssignment.t) :=
    JObj [("assignment_id", JNum (CaseScenarioAssignment.id a));
          ("scenario_key", JStr (CaseScenarioAssignment.scenario_key a));
          ("catalog_version", JStr (CaseScenarioAssignment.catalog_version a));
          ("catalog_sha256", JStr (CaseScenarioAssignment.catalog_sha256 a))] in
  {| TicketEvent.ticket_id := ticket_id; TicketEvent.actor_id := actor_id;
     TicketEvent.event_type := EventType.field_updated;
     TicketEvent.field_name := Some "scenario_assignment";
     TicketEvent.old_value := CaseScenarioAssignment.scenario_key <$> old;
     TicketEvent.new_value := Some (CaseScenarioAssignment.scenario_key row);
     TicketEvent.note := Some reason;
     TicketEvent.payload_json :=
       JObj [("old", json_of_option summary old); ("new", summary row);
             ("summary", JStr "Case scenario explicitly reclassified")] |}.

Definition reclassify_case_scenario (ticket_id : Z) (scenario_key reason : string)
    (actor_id : option Z) : M Case.t CaseScenarioAssignment.t :=
  let normalized_reason := squeeze reason in
  require (nonempty normalized_reason)
    (HTTPExceptionCode 400 "case_scenario_reclassification_reason_required" EmptyString);;
  s ← get;
  require (not_null (ticket_at (Case.core s) ticket_id)) (HTTPException 404 "ticket_not_found");;
  catalog ← load_runtime_scenario_catalog;
  scenario ← resolve_explicit_scenario catalog scenario_key;
  s ← get;
  let current := current_assignment ticket_id s in
  match current with
  | Some a =>
      if bool_decide (CaseScenarioAssignment.scenario_key a =
                      BusinessScenarioDefinition.scenario_key scenario) &&
         bool_decide (CaseScenarioAssignment.catalog_sha256 a =
                      BusinessScenarioCatalog.source_sha256 catalog)
      then mret a
      else
        now ← utc_now;
        set_assignment (CaseScenarioAssignment.id a)
          (fun a => a <| CaseScenarioAssignment.superseded_at := Some now |>);;
        let mk := new_assignment ticket_id catalog scenario "explicit_reclassification"
                    (Some normalized_reason) actor_id now in
        i ← add_assignment ticket_id mk;
        set_assignment (CaseScenarioAssignment.id a)
          (fun a => a <| CaseScenarioAssignment.superseded_by_id := Some i |>);;
        on_db (log_event (reclassification_event ticket_id actor_id normalized_reason current (mk i)));;
        mret (mk i)
  | None =>
      now ← utc_now;
      let mk := new_assignment ticket_id catalog scenario "explicit_reclassification"
                  (Some normalized_reason) actor_id now in
      i ← add_assignment ticket_id mk;
      on_db (log_event (reclassification_event ticket_id actor_id normalized_reason None (mk i)));;
      mret (mk i)
  end.

(** *** The listeners *)

Definition _insert_automatic_assignment (ticket_id : Z) (source : string) : M Case.t unit :=
  s ← get;
  if not_null (current_assignment ticket_id s) then mret tt
  else
    t ← on_db (the_ticket ticket_id);
    catalog ← load_runtime_scenario_catalog;
    scenario ← resolve_candidate_scenario t catalog;
    match scenario with
    | None => mret tt
    | Some i =>
        _ ← add_assignment ticket_id (new_assignment ticket_id catalog i source None
              (Ticket.created_by t) (Ticket.created_at t));
        mret tt
    end.

Definition _guard_scenario_identity_update (before after : Ticket.t) : M Case.t unit :=
  let ticket_id := Ticket.id after in
  match changed_identity before after with
  | [] => mret tt
  | _ =>
      catalog ← load_runtime_scenario_catalog;
      s ← get;
      match current_assignment ticket_id s with
      | Some current =>
          require (forallb (fun m => bool_decide (snd m = CaseScenarioAssignment.scenario_key current))
                     (_changed_candidate_matches before after catalog))
            (case_conflict "case_scenario_reclassification_command_required")
      | None =>
          require (length (remove_dups (snd <$> _candidate_matches after catalog)) <=? 1)%nat
            (case_conflict "case_scenario_identity_conflict")
      end
  end.

(** The listeners around the UPDATE of a changed ticket *)
Definition ticket_updated (before after : Ticket.t) : M Case.t unit :=
  if bool_decide (before = after) then mret tt
  else
    _guard_scenario_identity_update before after;;
    _insert_automatic_assignment (Ticket.id after) "ticket_identity_update".

(** An operation on the ticket [i], and the listeners of its flush *)
Definition flushed {A} (i : Z) (m : M Db.t A) : M Case.t A :=
  before ← on_db (the_ticket i);
  a ← on_db m;
  after ← on_db (the_ticket i);
  ticket_updated before after;;
  mret a.

End Scenarios.
