(* ===== verification/Closure.v ===== *)
(** * Closing a case by its outcome

    [services/ticket_closure_readiness.py], [services/notification_evidence_policy.py],
    [services/ticket_service.py], [services/customer_recontact_service.py]: a ticket closes only when the scenario of its case says that the ledgers, the ticket and the
    messages to the customer show the outcome; the closing leaves a receipt in the ledger of
    outcomes, and a reopening invalidates it.

    [message_updated_at] is the column [updated_at] of the outbound messages, by their id, which
    the ORM stamps at every flush of a message; no operation here flushes one.  [dumps] and
    [loads] are as in Plans.v.  The detail of the refusal is carried as its JSON text. *)

From S2P Require Import Prelude Calendar Enums Models Fixtures Tenancy Permissions Sla.
From S2P Require Import Customers Tickets Work AiTurns Desk Plans Tasks Iso Catalog Scenarios.
From S2P Require Import Cases.

Definition CLOSURE_EVIDENCE_SCHEMA : string := "nexus.case-closure-evidence.v2".
Definition CLOSURE_RECEIPT_SCHEMA : string := "nexus.ticket-closure-receipt.v2".
Definition CLOSURE_RECEIPT_FIELD : string := "closure_readiness_receipt".
Definition CLOSURE_RECEIPT_INVALIDATED_FIELD : string := "closure_readiness_receipt_invalidated".
Definition CLOSURE_EVIDENCE_KINDS : list string :=
  ["fact"; "customer_input"; "action"; "outcome"; "notification"].
Definition CLOSURE_EVIDENCE_STATES : list string := ["verified"; "completed"; "waived"; "failed"].
Definition SOURCE_KINDS : list string :=
  ["tracking"; "provider_receipt"; "operations_dispatch"; "customer_confirmation";
   "policy_decision"; "operator_observation"].
Definition AUTHORITATIVE_FACT_SOURCE_KINDS : list string :=
  ["tracking"; "provider_receipt"; "operations_dispatch"; "customer_confirmation";
   "policy_decision"].
Definition BUSINESS_OUTCOME_SOURCE_KINDS : list string :=
  ["provider_receipt"; "operations_dispatch"; "customer_confirmation"; "policy_decision"].
Definition NOTIFICATION_ATTEMPT_STATES : list string := ["accepted"; "pending"; "queued"; "sent"].
Definition NOTIFICATION_CONFIRMED_STATES : list string :=
  ["confirmed"; "delivered"; "opened"; "read"].
Definition NOTIFICATION_FAILURE_STATES : list string :=
  ["bounced"; "failed"; "rejected"; "complained"; "dead"].

Module ClosureSnapshot.
Record t := {
  scenario : option BusinessScenarioDefinition.t; readiness : ScenarioReadiness.t;
  receipt : list (string * json) }.
End ClosureSnapshot.

Module RecordedClosureEvidence.
Record t := { record_id : Z; record_type : string; evidence_sha256 : string; created : bool }.
End RecordedClosureEvidence.

(** ** The scenario of a stored assignment *)

Definition snapshot_error (code : string) : exc := ValueError ("case_scenario_snapshot_" +:+ code).

Definition _snapshot_timestamp (v : json) (field : string) : result Z :=
  match instant_of (py_str v) with
  | Some t => Ok t
  | None => Err (snapshot_error (field +:+ "_invalid"))
  end.

Definition _optional_snapshot_timestamp (v : json) (field : string) : result (option Z) :=
  match v with JNull => Ok None | _ => t ← _snapshot_timestamp v field; Ok (Some t) end.

Definition _snapshot_text (v : json) (field : string) : result string :=
  let text := py_strip (text_of v) in
  if nonempty text then Ok text else Err (snapshot_error (field +:+ "_invalid")).

Definition _snapshot_tuple (v : json) (field : string) : result (list string) :=
  match v with
  | JArr l =>
      let items := (fun i => py_strip (text_of i)) <$> l in
      if forallb nonempty items then Ok items else Err (snapshot_error (field +:+ "_invalid"))
  | _ => Err (snapshot_error (field +:+ "_invalid"))
  end.

(** [read(row[key], key)] *)
Definition at_key {A} (read : json → string → result A) (row : json) (key : string) : result A :=
  v ← json_item key row; read v key.

(** [str(row[key]).strip() if row.get(key) is not None else None] *)
Definition optional_text (row : json) (key : string) : option string :=
  match json_get key row with JNull => None | v => Some (py_strip (py_str v)) end.

Definition snapshot_lifecycle (row : json) : result ScenarioLifecycle.t :=
  status ← at_key _snapshot_text row "status";
  owner ← at_key _snapshot_text row "owner";
  approved_at ← at_key _snapshot_timestamp row "approved_at";
  effective_from ← at_key _snapshot_timestamp row "effective_from";
  review_due ← at_key _snapshot_timestamp row "review_due";
  expires_at ← _optional_snapshot_timestamp (json_get "expires_at" row) "expires_at";
  Ok {| ScenarioLifecycle.status := status; ScenarioLifecycle.owner := owner;
        ScenarioLifecycle.approved_at := approved_at;
        ScenarioLifecycle.effective_from := effective_from;
        ScenarioLifecycle.review_due := review_due; ScenarioLifecycle.expires_at := expires_at;
        ScenarioLifecycle.supersedes := optional_text row "supersedes" |}.

Definition snapshot_scenario (scenario_key : string) (row : json) (lifecycle : ScenarioLifecycle.t)
    : result BusinessScenarioDefinition.t :=
  let texts := at_key _snapshot_tuple row in
  let text := at_key _snapshot_text row in
  issue_type_aliases ← texts "issue_type_aliases";
  trigger_sources ← texts "trigger_sources";
  required_fact_classes ← texts "required_fact_classes";
  required_customer_inputs ← texts "required_customer_inputs";
  risk_level ← text "risk_level";
  owner_queue_key ← text "owner_queue_key";
  required_capabilities ← texts "required_capabilities";
  allowed_action_classes ← texts "allowed_action_classes";
  required_action_classes ← texts "required_action_classes";
  blocked_action_classes ← texts "blocked_action_classes";
  notification_policy ← text "notification_policy";
  allowed_no_notification_reasons ← texts "allowed_no_notification_reasons";
  terminal_behavior ← text "terminal_behavior";
  required_outcome_levels ← texts "required_outcome_levels";
  completion_rules ← texts "completion_rules";
  definition_of_done ← text "definition_of_done";
  period ← json_item "observation_period_seconds" row;
  observation_period_seconds ← json_int period;
  reopen_conditions ← texts "reopen_conditions";
  cancellation_semantics ← text "cancellation_semantics";
  metrics ← texts "metrics";
  scope_mode ← text "scope_mode";
  Ok {| BusinessScenarioDefinition.scenario_key := scenario_key;
        BusinessScenarioDefinition.issue_type_aliases := issue_type_aliases;
        BusinessScenarioDefinition.trigger_sources := trigger_sources;
        BusinessScenarioDefinition.required_fact_classes := required_fact_classes;
        BusinessScenarioDefinition.required_customer_inputs := required_customer_inputs;
        BusinessScenarioDefinition.risk_level := risk_level;
        BusinessScenarioDefinition.escalation_policy_key :=
          optional_text row "escalation_policy_key";
        BusinessScenarioDefinition.owner_queue_key := owner_queue_key;
        BusinessScenarioDefinition.required_capabilities := required_capabilities;
        BusinessScenarioDefinition.allowed_action_classes := allowed_action_classes;
        BusinessScenarioDefinition.required_action_classes := required_action_classes;
        BusinessScenarioDefinition.blocked_action_classes := blocked_action_classes;
        BusinessScenarioDefinition.notification_policy := notification_policy;
        BusinessScenarioDefinition.allowed_no_notification_reasons :=
          allowed_no_notification_reasons;
        BusinessScenarioDefinition.terminal_behavior := terminal_behavior;
        BusinessScenarioDefinition.required_outcome_levels := required_outcome_levels;
        BusinessScenarioDefinition.completion_rules := completion_rules;
        BusinessScenarioDefinition.definition_of_done := definition_of_done;
        BusinessScenarioDefinition.observation_period_seconds := observation_period_seconds;
        BusinessScenarioDefinition.reopen_conditions := reopen_conditions;
        BusinessScenarioDefinition.cancellation_semantics := cancellation_semantics;
        BusinessScenarioDefinition.metrics := metrics;
        BusinessScenarioDefinition.scope_mode := scope_mode;
        BusinessScenarioDefinition.lifecycle := lifecycle |}.

(** The [except] clause of [_scenario_from_assignment] *)
Definition snapshot_errors {A} (r : result A) : result A :=
  match r with
  | Err (ValueError code) =>
      if String.prefix "case_scenario_snapshot_" code then r else Err (snapshot_error "invalid")
  | Err (LookupError _) | Err (TypeError _) => Err (snapshot_error "invalid")
  | _ => r
  end.

Definition expect (b : bool) (code : string) : result unit :=
  if b then Ok tt else Err (snapshot_error code).
Definition is_dict (j : json) : bool := match j with JObj _ => true | _ => false end.

Section Assignments.
Context (loads : string → option json).

(** The body of the [try] statement *)
Definition read_assignment (row : CaseScenarioAssignment.t) : result BusinessScenarioDefinition.t :=
  root ← match loads (CaseScenarioAssignment.scenario_snapshot_json row) with
         | Some j => Ok j
         | None => Err (ValueError "JSONDecodeError")
         end;
  expect (is_dict root) "root_invalid";;
  expect (bool_decide (json_get "schema" root = JStr CASE_SCENARIO_SNAPSHOT_SCHEMA))
    "schema_invalid";;
  expect (bool_decide (json_get "catalog_version" root =
                       JStr (CaseScenarioAssignment.catalog_version row)))
    "catalog_version_mismatch";;
  expect (bool_decide (json_get "catalog_sha256" root =
                       JStr (CaseScenarioAssignment.catalog_sha256 row)))
    "catalog_digest_mismatch";;
  payload ← json_item "scenario" root;
  lifecycle_payload ← json_item "lifecycle" payload;
  expect (is_dict payload && is_dict lifecycle_payload) "payload_invalid";;
  scenario_key ← at_key _snapshot_text payload "scenario_key";
  expect (bool_decide (scenario_key = CaseScenarioAssignment.scenario_key row)) "key_mismatch";;
  lifecycle ← snapshot_lifecycle lifecycle_payload;
  snapshot_scenario scenario_key payload lifecycle.

Definition _scenario_from_assignment (row : CaseScenarioAssignment.t) (observed_at : Z)
    : result BusinessScenarioDefinition.t :=
  scenario ← snapshot_errors (read_assignment row);
  if scenario_is_runtime_active scenario observed_at then Ok scenario
  else Err (ValueError "case_scenario_not_runtime_active").
End Assignments.

(** What [_resolve_scenario] returns *)
Module Resolution.
Record t := {
  scenario : option BusinessScenarioDefinition.t; catalog_version : option string;
  catalog_sha256 : option string; error : option string; assignment_id : option Z;
  scenario_key : option string; review_overdue : bool }.
End Resolution.

Definition _resolve_scenario (loads : string → option json) (ticket_id observed_at : Z) (s : Case.t)
    : result Resolution.t :=
  match current_assignment ticket_id s with
  | None => Ok {| Resolution.scenario := None; Resolution.catalog_version := None;
                  Resolution.catalog_sha256 := None;
                  Resolution.error := Some "case_scenario_assignment_missing";
                  Resolution.assignment_id := None; Resolution.scenario_key := None;
                  Resolution.review_overdue := false |}
  | Some row =>
      let found scenario error overdue :=
        {| Resolution.scenario := scenario;
           Resolution.catalog_version := Some (CaseScenarioAssignment.catalog_version row);
           Resolution.catalog_sha256 := Some (CaseScenarioAssignment.catalog_sha256 row);
           Resolution.error := error;
           Resolution.assignment_id := Some (CaseScenarioAssignment.id row);
           Resolution.scenario_key := Some (CaseScenarioAssignment.scenario_key row);
           Resolution.review_overdue := overdue |} in
      match _scenario_from_assignment loads row observed_at with
      | Ok scenario =>
          Ok (found (Some scenario) None
                (ScenarioLifecycle.review_due (BusinessScenarioDefinition.lifecycle scenario)
                   <=? observed_at))
      | Err (ValueError code) => Ok (found None (Some code) false)
      | Err e => Err e
      end
  end.

(** ** What the ticket and its messages show *)

(** [str(value or "").strip()] is not empty *)
Definition filled (v : option string) : bool := nonempty (py_strip (str_or v EmptyString)).
Definition has_text (t : Ticket.t) (column : string) : bool := filled (text t column).
(** [values.update(keys)] when the condition holds *)
Definition given (b : bool) (keys : list string) : gset string :=
  if b then list_to_set keys else ∅.

Definition has_history (i : Z) (s : Db.t) : bool :=
  existsb (fun e => TicketEvent.ticket_id e =? i) (Db.events s) ||
  not_null (select_first (fun c => TicketComment.ticket_id c =? i) (Db.comments s)) ||
  not_null (select_first (fun n => TicketInternalNote.ticket_id n =? i) (Db.notes s)).

Definition _field_projection (t : Ticket.t) (s : Db.t) : gset string * gset string :=
  let tracked := has_text t "tracking_number" in
  let contact := match Ticket.customer_id t ≫= table_get (Db.customers s) with
                 | Some c => filled (Customer.phone c) || filled (Customer.email c)
                 | None => false
                 end in
  (given tracked ["parcel_identity"] ∪ given (has_history (Ticket.id t) s) ["case_history"] ∪
   given contact ["address_contact"],
   given tracked ["tracking_reference"] ∪
   given (has_text t "preferred_reply_contact" || has_text t "customer_update")
     ["corrected_contact"] ∪
   given (has_text t "customer_request" || has_text t "required_action") ["request_reason"] ∪
   given (filled (Some (str_or (text t "issue_summary") (str_or (text t "description") EmptyString))))
     ["complaint_summary"; "claim_summary"] ∪
   given (has_text t "resolution_summary") ["requested_remedy"]).

(** What the messages to the customer show *)
Module NotificationProjection.
Record t := {
  notification_state : string; actions : gset string; outcomes : gset string;
  repair_required : bool; ids : list Z; latest_at : option Z }.
#[global] Instance eta : Settable t := fun r => {|
  notification_state := notification_state r; actions := actions r; outcomes := outcomes r;
  repair_required := repair_required r; ids := ids r; latest_at := latest_at r |}.
End NotificationProjection.

Definition delivery_state (m : TicketOutboundMessage.t) : string :=
  py_lower (py_strip (str_or (TicketOutboundMessage.delivery_status m) EmptyString)).

Definition outbound_of (ticket_id : Z) (s : Case.t) : list TicketOutboundMessage.t :=
  select (fun m => TicketOutboundMessage.ticket_id m =? ticket_id) (Db.messages (Case.core s)).

Section Messages.
Context (message_updated_at : Z → option Z).

Definition observed_message (m : TicketOutboundMessage.t) : Z :=
  match TicketOutboundMessage.delivery_receipt_at m, TicketOutboundMessage.sent_at m,
        message_updated_at (TicketOutboundMessage.id m) with
  | Some t, _, _ | None, Some t, _ | None, None, Some t => t
  | None, None, None => TicketOutboundMessage.created_at m
  end.

(** One pass of the loop over the messages *)
Definition project_message (p : NotificationProjection.t) (m : TicketOutboundMessage.t)
    : NotificationProjection.t :=
  let status := TicketOutboundMessage.status m in
  let delivery := delivery_state m in
  let failed := bool_decide (status ∈ [MessageStatus.failed; MessageStatus.dead]) ||
                bool_decide (delivery ∈ NOTIFICATION_FAILURE_STATES) in
  let confirmed := bool_decide (delivery ∈ NOTIFICATION_CONFIRMED_STATES) in
  let attempted := bool_decide (status ∈ [MessageStatus.pending; MessageStatus.sent]) ||
                   bool_decide (delivery ∈ NOTIFICATION_ATTEMPT_STATES) || confirmed in
  let p := p <| NotificationProjection.ids ::= fun l => l ++ [TicketOutboundMessage.id m] |>
             <| NotificationProjection.latest_at ::= later (observed_message m) |> in
  let p := if failed then p <| NotificationProjection.repair_required := true |> else p in
  let p :=
    if attempted then
      let p := p <| NotificationProjection.actions ::= ({["notify_customer"]} ∪.) |> in
      if bool_decide (NotificationProjection.notification_state p = "not_required")
      then p <| NotificationProjection.notification_state := "sent" |> else p
    else p in
  if confirmed
  then p <| NotificationProjection.outcomes ::= ({["customer_notified"]} ∪.) |>
         <| NotificationProjection.notification_state := "delivered" |>
  else p.

Definition _notification_projection (outbound : list TicketOutboundMessage.t)
    : NotificationProjection.t :=
  let p := fold_left project_message outbound
    {| NotificationProjection.notification_state := "not_required";
       NotificationProjection.actions := ∅; NotificationProjection.outcomes := ∅;
       NotificationProjection.repair_required := false; NotificationProjection.ids := [];
       NotificationProjection.latest_at := None |} in
  p <| NotificationProjection.ids ::= sort_by Z.leb |>.
End Messages.

(** ** The snapshot of a closure *)

Definition _not_ready (reason : string) (scenario_key : option string) : ScenarioReadiness.t :=
  {| ScenarioReadiness.scenario_key := str_or scenario_key "unresolved";
     ScenarioReadiness.closure_ready := false; ScenarioReadiness.missing_fact_classes := [];
     ScenarioReadiness.missing_customer_inputs := [];
     ScenarioReadiness.missing_action_classes := [];
     ScenarioReadiness.missing_outcome_levels := [];
     ScenarioReadiness.notification_satisfied := false;
     ScenarioReadiness.blocked_reasons := [reason] |}.

(** [max(... if value is not None, default=None)] *)
Definition latest_of (l : list (option Z)) : option Z :=
  foldr (fun o m => match o with Some t => later t m | None => m end) None l.

(** [sets] of a notification: what [notification_evidence] returns *)
Module NotificationEvidence.
Record t := {
  state : string; confirmed_ledger : list Z; confirmed_outbound : list Z; waived : list Z;
  attempted_ledger : list Z; attempted_outbound : list Z }.

Definition confirmed (e : t) : bool := bool_decide (state e = "confirmed").
Definition is_waived (e : t) : bool := bool_decide (state e = "waived").
Definition as_dict (e : t) : json :=
  let ids l := JArr (JNum <$> l) in
  JObj [("schema", JStr "nexus.notification-evidence.v1"); ("state", JStr (state e));
        ("confirmed", JBool (confirmed e)); ("waived", JBool (is_waived e));
        ("confirmed_case_outcome_record_ids", ids (confirmed_ledger e));
        ("confirmed_outbound_message_ids", ids (confirmed_outbound e));
        ("waived_case_outcome_record_ids", ids (waived e));
        ("attempted_case_outcome_record_ids", ids (attempted_ledger e));
        ("attempted_outbound_message_ids", ids (attempted_outbound e));
        ("contains_payloads", JBool false)].
End NotificationEvidence.

(** [_waiver_reason] of a record *)
Definition record_waiver_reason (r : CaseOutcomeRecord.t) : option string :=
  let payload := CaseOutcomeRecord.payload_json r in
  let value := py_lower (py_strip (text_of
    (json_or (json_get "waiver_reason" payload) (json_get "reason_code" payload)))) in
  if nonempty value then Some value else None.

Definition CONFIRMED_LEDGER_STATES : list string := ["delivered"; "confirmed"].
Definition ATTEMPT_LEDGER_STATES : list string :=
  ["requested"; "accepted"; "processing"; "succeeded"].

Definition notification_evidence (ticket_id : Z) (allowed_waiver_reasons : list string) (s : Case.t)
    : NotificationEvidence.t :=
  let ledger_rows := sort_by by_sequence
    (filter (fun r => CaseOutcomeRecord.record_type r = "customer_notification")
       (outcomes_of ticket_id s)) in
  let outbound_rows := outbound_of ticket_id s in
  let allowed := (fun v => py_lower (py_strip v)) <$> allowed_waiver_reasons in
  let in_states states :=
    CaseOutcomeRecord.id <$> filter (fun r => CaseOutcomeRecord.state r ∈ states) ledger_rows in
  let confirmed_ledger := in_states CONFIRMED_LEDGER_STATES in
  let attempted_ledger := in_states ATTEMPT_LEDGER_STATES in
  let waived := CaseOutcomeRecord.id <$>
    filter (fun r => CaseOutcomeRecord.state r = "waived" ∧
      record_waiver_reason r ∈ (Some <$> allowed)) ledger_rows in
  let confirmed_outbound := TicketOutboundMessage.id <$>
    filter (fun m => delivery_state m ∈ NOTIFICATION_CONFIRMED_STATES) outbound_rows in
  let attempted_outbound := TicketOutboundMessage.id <$> outbound_rows in
  {| NotificationEvidence.state :=
       (if negb (bool_decide (confirmed_ledger = [] ∧ confirmed_outbound = [])) then "confirmed"
        else if negb (bool_decide (waived = [])) then "waived"
        else if negb (bool_decide (attempted_ledger = [] ∧ attempted_outbound = []))
        then "attempted" else "missing");
     NotificationEvidence.confirmed_ledger := confirmed_ledger;
     NotificationEvidence.confirmed_outbound := confirmed_outbound;
     NotificationEvidence.waived := waived;
     NotificationEvidence.attempted_ledger := attempted_ledger;
     NotificationEvidence.attempted_outbound := attempted_outbound |}.

(** [_notification_satisfied] of [notification_evidence_policy.py] *)
Definition evidence_satisfies (policy : string) (e : NotificationEvidence.t) : bool :=
  let normalized := py_lower (py_strip (str_or (Some policy) "required")) in
  if bool_decide (normalized = "prohibited")
  then bool_decide (NotificationEvidence.state e = "missing")
  else if bool_decide (normalized = "optional") then true
  else if bool_decide (normalized = "required_if_contactable")
  then NotificationEvidence.confirmed e || NotificationEvidence.is_waived e
  else NotificationEvidence.confirmed e.

(** The reasons once the evidence of the notification is known *)
Definition reblocked (satisfied : bool) (blocked : list string) : list string :=
  if satisfied
  then filter (fun r => r ∉ notification_reasons) blocked
  else if bool_decide ("notification_delivery_unconfirmed" ∈ blocked) then blocked
  else blocked ++ ["notification_delivery_unconfirmed"].

(** The arguments of [record_closure_evidence] *)
Module ClosureEvidence.
Record t := {
  kind : string; key : string; state : string; source_kind : string; source_ref : string;
  source_revision : string; observed_at : option Z; note : option string }.

(** [str(value or "").strip().lower()] of the first four *)
Definition normalized (x : t) : t :=
  let low v := py_lower (py_strip v) in
  {| kind := low (kind x); key := low (key x); state := low (state x);
     source_kind := low (source_kind x); source_ref := py_strip (source_ref x);
     source_revision := py_strip (source_revision x); observed_at := observed_at x;
     note := note x |}.
End ClosureEvidence.

Section Closure.
Context (sha256_hex : string → string) (dumps : json → string) (loads : string → option json).
Context (message_updated_at : Z → option Z).

#[local] Abbreviation sha256 := (Cases._sha256 sha256_hex dumps).
#[local] Abbreviation append_outcome := (append_case_outcome sha256_hex dumps).
#[local] Abbreviation record_evidence := (record_case_evidence sha256_hex dumps).

(** [{**fields, "receipt_sha256": ...}] *)
Definition sealed (fields : list (string * json)) : list (string * json) :=
  dict_set "receipt_sha256" (JStr (sha256 (JObj fields))) fields.

(** The state of a case as the readiness of its scenario is judged by *)
Definition progress_of (scenario : BusinessScenarioDefinition.t) (t : Ticket.t) (observed_now : Z)
    (s : Case.t) : Progress.t :=
  let ledger := project_case_ledger (Ticket.id t) s in
  let outbound := _notification_projection message_updated_at (outbound_of (Ticket.id t) s) in
  let fields := _field_projection t (Case.core s) in
  let latest := latest_of [CaseLedgerProjection.latest_material_at ledger;
                           NotificationProjection.latest_at outbound; Ticket.resolved_at t] in
  let period := BusinessScenarioDefinition.observation_period_seconds scenario in
  {| Progress.available_fact_classes := fst fields ∪ CaseLedgerProjection.fact_classes ledger;
     Progress.available_customer_inputs := snd fields ∪ CaseLedgerProjection.customer_inputs ledger;
     Progress.completed_action_classes := CaseLedgerProjection.action_classes ledger ∪
       NotificationProjection.actions outbound ∪ {["create_ticket"]};
     Progress.completed_outcome_levels := CaseLedgerProjection.outcome_levels ledger ∪
       NotificationProjection.outcomes outbound;
     Progress.customer_notification_state :=
       str_or (CaseLedgerProjection.notification_state ledger)
         (NotificationProjection.notification_state outbound);
     Progress.observation_period_elapsed :=
       (period <=? 0) ||
       match latest with Some l => l + seconds period <=? observed_now | None => false end;
     Progress.repair_required := CaseLedgerProjection.repair_required ledger ||
       NotificationProjection.repair_required outbound;
     Progress.open_high_risk_escalation := bool_decide (Ticket.status t = TicketStatus.escalated) |}.

Definition receipt_fields (t : Ticket.t) (found : Resolution.t) (readiness : ScenarioReadiness.t)
    (observed_now : Z) (elapsed : bool) (s : Case.t) : list (string * json) :=
  let ledger := project_case_ledger (Ticket.id t) s in
  let outbound := _notification_projection message_updated_at (outbound_of (Ticket.id t) s) in
  let ids l := JArr (JNum <$> l) in
  [("schema", JStr CLOSURE_RECEIPT_SCHEMA); ("ticket_id", JNum (Ticket.id t));
   ("ticket_status", JStr (value (Ticket.status t)));
   ("ticket_revision", jtime (Ticket.updated_at t));
   ("scenario_assignment_id", jnum (Resolution.assignment_id found));
   ("scenario_key", Plans.jstr (match Resolution.scenario found with
                                | Some i => Some (BusinessScenarioDefinition.scenario_key i)
                                | None => Resolution.scenario_key found
                                end));
   ("scenario_catalog_version", Plans.jstr (Resolution.catalog_version found));
   ("scenario_catalog_sha256", Plans.jstr (Resolution.catalog_sha256 found));
   ("scenario_review_overdue", JBool (Resolution.review_overdue found));
   ("generated_at", jtime observed_now); ("readiness", ScenarioReadiness.as_dict readiness);
   ("evidence", JObj
     [("case_evidence_record_ids", ids (CaseLedgerProjection.evidence_record_ids ledger));
      ("case_outcome_record_ids", ids (CaseLedgerProjection.outcome_record_ids ledger));
      ("outbound_message_ids", ids (NotificationProjection.ids outbound));
      ("latest_material_at", json_of_option jtime
        (latest_of [CaseLedgerProjection.latest_material_at ledger;
                    NotificationProjection.latest_at outbound; Ticket.resolved_at t]));
      ("observation_elapsed", JBool elapsed); ("contains_payloads", JBool false)])].

Definition build_closure_snapshot (t : Ticket.t) : M Case.t ClosureSnapshot.t :=
  observed_now ← utc_now;
  s ← get;
  found ← lift (_resolve_scenario loads (Ticket.id t) observed_now s);
  let readiness := match Resolution.scenario found with
    | None => _not_ready (str_or (Resolution.error found) "scenario_unavailable")
                (Resolution.scenario_key found)
    | Some i => evaluate_scenario_readiness i (progress_of i t observed_now s)
    end in
  let elapsed := match Resolution.scenario found with
    | None => false
    | Some i => Progress.observation_period_elapsed (progress_of i t observed_now s)
    end in
  mret {| ClosureSnapshot.scenario := Resolution.scenario found;
          ClosureSnapshot.readiness := readiness;
          ClosureSnapshot.receipt := sealed (receipt_fields t found readiness observed_now elapsed s) |}.

(** ** The evidence of the notification *)

Definition governed_readiness (satisfied : bool) (r : ScenarioReadiness.t) : ScenarioReadiness.t :=
  let blocked := reblocked satisfied (ScenarioReadiness.blocked_reasons r) in
  {| ScenarioReadiness.scenario_key := ScenarioReadiness.scenario_key r;
     ScenarioReadiness.closure_ready := bool_decide (blocked = []);
     ScenarioReadiness.missing_fact_classes := ScenarioReadiness.missing_fact_classes r;
     ScenarioReadiness.missing_customer_inputs := ScenarioReadiness.missing_customer_inputs r;
     ScenarioReadiness.missing_action_classes := ScenarioReadiness.missing_action_classes r;
     ScenarioReadiness.missing_outcome_levels := ScenarioReadiness.missing_outcome_levels r;
     ScenarioReadiness.notification_satisfied := satisfied;
     ScenarioReadiness.blocked_reasons := blocked |}.

Definition apply_notification_evidence_policy (t : Ticket.t) (snapshot : ClosureSnapshot.t)
    (s : Case.t) : ClosureSnapshot.t :=
  match ClosureSnapshot.scenario snapshot with
  | None => snapshot
  | Some i =>
      let evidence := notification_evidence (Ticket.id t)
        (BusinessScenarioDefinition.allowed_no_notification_reasons i) s in
      let satisfied := evidence_satisfies (BusinessScenarioDefinition.notification_policy i) evidence in
      let readiness := governed_readiness satisfied (ClosureSnapshot.readiness snapshot) in
      let bare := filter (fun x => fst x ≠ "receipt_sha256") (ClosureSnapshot.receipt snapshot) in
      let bare := dict_set "readiness" (ScenarioReadiness.as_dict readiness) bare in
      let receipt_evidence := match assoc_get "evidence" bare with Some (JObj l) => l | _ => [] end in
      let bare := dict_set "evidence" (JObj (dict_set "notification"
                    (NotificationEvidence.as_dict evidence) receipt_evidence)) bare in
      {| ClosureSnapshot.scenario := Some i; ClosureSnapshot.readiness := readiness;
         ClosureSnapshot.receipt := sealed bare |}
  end.

Definition build_governed_closure_snapshot (t : Ticket.t) : M Case.t ClosureSnapshot.t :=
  snapshot ← build_closure_snapshot t;
  s ← get;
  mret (apply_notification_evidence_policy t snapshot s).

(** [receipt[key]] and [receipt.get(key)] *)
Definition receipt_item (receipt : list (string * json)) (key : string) : json :=
  json_get key (JObj receipt).

Definition refusal_detail (snapshot : ClosureSnapshot.t) : json :=
  let item := receipt_item (ClosureSnapshot.receipt snapshot) in
  JObj [("code", JStr "safe_closure_not_ready"); ("scenario_key", item "scenario_key");
        ("scenario_assignment_id", item "scenario_assignment_id");
        ("readiness", ScenarioReadiness.as_dict (ClosureSnapshot.readiness snapshot));
        ("receipt_sha256", item "receipt_sha256")].

Definition require_governed_closure_ready (t : Ticket.t) : M Case.t (list (string * json)) :=
  snapshot ← build_governed_closure_snapshot t;
  require (ScenarioReadiness.closure_ready (ClosureSnapshot.readiness snapshot))
    (HTTPExceptionCode 409 "safe_closure_not_ready" (dumps (refusal_detail snapshot)));;
  mret (ClosureSnapshot.receipt snapshot).

(** ** Receipts *)

Definition timeline_event (ticket_id : Z) (actor_id : option Z) (ty : EventType.t)
    (field_name : string) (old new : option string) (note : string) (payload : list (string * json))
    : TicketEvent.t :=
  {| TicketEvent.ticket_id := ticket_id; TicketEvent.actor_id := actor_id;
     TicketEvent.event_type := ty; TicketEvent.field_name := Some field_name;
     TicketEvent.old_value := old; TicketEvent.new_value := new; TicketEvent.note := Some note;
     TicketEvent.payload_json := JObj payload |}.

Definition closed_record (actor_id : option Z) (receipt : list (string * json)) (digest : string)
    (now : Z) : OutcomeInput.t :=
  {| OutcomeInput.record_type := "closure_assessment"; OutcomeInput.state := "closed";
     OutcomeInput.idempotency_key := "closure-receipt:" +:+ digest;
     OutcomeInput.occurred_at := Some now; OutcomeInput.created_by := actor_id;
     OutcomeInput.payload := JObj
       [("receipt_sha256", JStr digest); ("scenario_key", receipt_item receipt "scenario_key");
        ("scenario_assignment_id", receipt_item receipt "scenario_assignment_id");
        ("closure_ready",
          JBool (truthy (json_get "closure_ready" (receipt_item receipt "readiness"))))];
     OutcomeInput.parent_record_id := None; OutcomeInput.source_kind := Some "closure_service";
     OutcomeInput.source_id := Some digest |}.

Definition receipt_event (ticket_id : Z) (actor_id : option Z) (receipt : list (string * json))
    (digest : string) : TicketEvent.t :=
  timeline_event ticket_id actor_id EventType.status_changed CLOSURE_RECEIPT_FIELD None (Some digest)
    "Safe Effective Closure receipt persisted."
    [("schema", JStr "nexus.case-ledger-timeline-projection.v1"); ("receipt_sha256", JStr digest);
     ("scenario_assignment_id", receipt_item receipt "scenario_assignment_id");
     ("contains_payloads", JBool false)].

Definition append_closure_receipt_event (ticket_id : Z) (actor_id : option Z)
    (receipt : list (string * json)) : M Case.t unit :=
  let digest := py_str (receipt_item receipt "receipt_sha256") in
  now ← utc_now;
  _ ← append_outcome ticket_id (closed_record actor_id receipt digest now);
  _ ← utc_now;
  on_db (log_event (receipt_event ticket_id actor_id receipt digest)).

(** [order_by(sequence.desc()).first()] *)
Definition latest_closed (ticket_id : Z) (s : Case.t) : option CaseOutcomeRecord.t :=
  list.last (sort_by by_sequence
    (filter (fun r => CaseOutcomeRecord.record_type r = "closure_assessment" ∧
                      CaseOutcomeRecord.state r = "closed") (outcomes_of ticket_id s))).

Definition prior_digest (prior : CaseOutcomeRecord.t) : string :=
  py_str (json_or (json_get "receipt_sha256" (CaseOutcomeRecord.payload_json prior))
    (JStr (str_or (CaseOutcomeRecord.source_id prior) (pretty (CaseOutcomeRecord.id prior))))).

Definition reopened_record (actor_id : option Z) (prior : CaseOutcomeRecord.t)
    (reason_text : string) (now : Z) : OutcomeInput.t :=
  let reason_sha := sha256_hex reason_text in
  {| OutcomeInput.record_type := "closure_assessment"; OutcomeInput.state := "reopened";
     OutcomeInput.idempotency_key := "closure-invalidation:" +:+
       pretty (CaseOutcomeRecord.id prior) +:+ ":" +:+ str_take 24 reason_sha;
     OutcomeInput.occurred_at := Some now; OutcomeInput.created_by := actor_id;
     OutcomeInput.payload := JObj
       [("invalidated_record_id", JNum (CaseOutcomeRecord.id prior));
        ("receipt_sha256", JStr (prior_digest prior)); ("reason_sha256", JStr reason_sha);
        ("reason_length", JNum (str_len reason_text))];
     OutcomeInput.parent_record_id := Some (CaseOutcomeRecord.id prior);
     OutcomeInput.source_kind := Some "closure_service";
     OutcomeInput.source_id := Some (prior_digest prior) |}.

Definition invalidation_event (ticket_id : Z) (actor_id : option Z) (prior : CaseOutcomeRecord.t)
    (reason_text : string) : TicketEvent.t :=
  timeline_event ticket_id actor_id EventType.reopened CLOSURE_RECEIPT_INVALIDATED_FIELD
    (Some (prior_digest prior)) (Some "invalidated") reason_text
    [("schema", JStr "nexus.case-ledger-timeline-projection.v1");
     ("closure_outcome_record_id", JNum (CaseOutcomeRecord.id prior));
     ("receipt_sha256", JStr (prior_digest prior));
     ("reason_sha256", JStr (sha256_hex reason_text)); ("contains_payloads", JBool false)].

(** Whether there was a receipt to invalidate *)
Definition invalidate_latest_closure_receipt (ticket_id : Z) (actor_id : option Z) (reason : string)
    : M Case.t bool :=
  s ← get;
  match latest_closed ticket_id s with
  | None => mret false
  | Some prior =>
      let reason_text := str_take 500 (squeeze (py_strip reason)) in
      now ← utc_now;
      _ ← append_outcome ticket_id (reopened_record actor_id prior reason_text now);
      _ ← utc_now;
      on_db (log_event (invalidation_event ticket_id actor_id prior reason_text));;
      mret true
  end.

(** ** Evidence for a closure *)

(** [_record_state]: the type and the state of an outcome *)
Definition _record_state (kind key state : string) (allowed_waiver_reasons : list string)
    : result (string * string) :=
  let done := bool_decide (state ∈ ["verified"; "completed"]) in
  if bool_decide (kind = "action")
  then Ok ("execution_attempt", if done then "succeeded" else state)
  else if bool_decide (kind = "outcome")
  then Ok ("operational_outcome", if done then "confirmed" else state)
  else if bool_decide (state = "waived") then
    if bool_decide (key ∈ allowed_waiver_reasons) then Ok ("customer_notification", "waived")
    else Err (ValueError "closure_notification_waiver_not_allowed")
  else if bool_decide (key = "delivered") && done then Ok ("customer_notification", "delivered")
  else if bool_decide (key = "sent") && done then Ok ("customer_notification", "accepted")
  else Ok ("customer_notification", state).

(** The checks of the normalized arguments *)
Definition evidence_valid (x : ClosureEvidence.t) : result Z :=
  let kind := ClosureEvidence.kind x in
  let source := ClosureEvidence.source_kind x in
  let refuse (b : bool) (code : string) : result unit :=
    if b then Err (ValueError code) else Ok tt in
  refuse (negb (bool_decide (kind ∈ CLOSURE_EVIDENCE_KINDS))) "closure_evidence_kind_invalid";;
  refuse (negb (bool_decide (ClosureEvidence.state x ∈ CLOSURE_EVIDENCE_STATES)))
    "closure_evidence_state_invalid";;
  refuse (negb (bool_decide (source ∈ SOURCE_KINDS))) "closure_evidence_source_invalid";;
  refuse (bool_decide (kind = "fact") &&
          negb (bool_decide (source ∈ AUTHORITATIVE_FACT_SOURCE_KINDS)))
    "closure_fact_source_not_authoritative";;
  refuse (bool_decide (kind = "outcome") &&
          bool_decide (ClosureEvidence.key x = "business_result_confirmed") &&
          negb (bool_decide (source ∈ BUSINESS_OUTCOME_SOURCE_KINDS)))
    "closure_business_outcome_source_not_authoritative";;
  refuse (negb (nonempty (ClosureEvidence.key x) && nonempty (ClosureEvidence.source_ref x) &&
                nonempty (ClosureEvidence.source_revision x)))
    "closure_evidence_source_identity_required";;
  match ClosureEvidence.observed_at x with
  | Some t => Ok t
  | None => Err (ValueError "closure_evidence_observed_at_required")
  end.

Definition allowed_keys (scenario : BusinessScenarioDefinition.t) (kind : string) : list string :=
  if bool_decide (kind = "fact") then BusinessScenarioDefinition.required_fact_classes scenario
  else if bool_decide (kind = "customer_input")
  then BusinessScenarioDefinition.required_customer_inputs scenario
  else if bool_decide (kind = "action")
  then BusinessScenarioDefinition.allowed_action_classes scenario
  else if bool_decide (kind = "outcome")
  then BusinessScenarioDefinition.required_outcome_levels scenario
  else BusinessScenarioDefinition.allowed_no_notification_reasons scenario ++ ["sent"; "delivered"].

Definition note_text (x : ClosureEvidence.t) : string :=
  squeeze (py_strip (str_or (ClosureEvidence.note x) EmptyString)).
Definition note_fields (x : ClosureEvidence.t) : list (string * json) :=
  let note := note_text x in
  [("note_sha256", if nonempty note then JStr (sha256_hex note) else JNull);
   ("note_length", JNum (str_len note))].

Definition closure_evidence_identity (ticket_id : Z) (user : User.t) (x : ClosureEvidence.t)
    (evidence_time : Z) : json :=
  JObj [("schema", JStr CLOSURE_EVIDENCE_SCHEMA); ("ticket_id", JNum ticket_id);
        ("kind", JStr (ClosureEvidence.kind x)); ("key", JStr (ClosureEvidence.key x));
        ("state", JStr (ClosureEvidence.state x));
        ("source_kind", JStr (ClosureEvidence.source_kind x));
        ("source_ref", JStr (str_take 200 (ClosureEvidence.source_ref x)));
        ("source_revision", JStr (str_take 160 (ClosureEvidence.source_revision x)));
        ("observed_at", jtime evidence_time); ("recorded_by", JNum (User.id user))].

Definition evidence_input (user : User.t) (x : ClosureEvidence.t) (evidence_time : Z)
    (digest : string) : EvidenceInput.t :=
  {| EvidenceInput.evidence_kind := ClosureEvidence.kind x;
     EvidenceInput.evidence_key := ClosureEvidence.key x;
     EvidenceInput.state := ClosureEvidence.state x;
     EvidenceInput.source_kind := ClosureEvidence.source_kind x;
     EvidenceInput.source_ref := ClosureEvidence.source_ref x;
     EvidenceInput.source_revision := ClosureEvidence.source_revision x;
     EvidenceInput.observed_at := Some evidence_time;
     EvidenceInput.recorded_by := Some (User.id user);
     EvidenceInput.safe_metadata :=
       JObj (("evidence_sha256", JStr digest) :: note_fields x) |}.

Definition outcome_input (user : User.t) (x : ClosureEvidence.t) (evidence_time : Z)
    (digest record_type state : string) : OutcomeInput.t :=
  let kind := ClosureEvidence.kind x in
  let payload_key := if bool_decide (kind = "action") then "action_class"
    else if bool_decide (kind = "outcome") then "outcome_level"
    else if bool_decide (ClosureEvidence.state x = "waived") then "waiver_reason"
    else "notification_state" in
  {| OutcomeInput.record_type := record_type; OutcomeInput.state := state;
     OutcomeInput.idempotency_key := "closure-evidence:" +:+ digest;
     OutcomeInput.occurred_at := Some evidence_time;
     OutcomeInput.created_by := Some (User.id user);
     OutcomeInput.payload := JObj ((payload_key, JStr (ClosureEvidence.key x)) ::
       ("source_revision", JStr (str_take 160 (ClosureEvidence.source_revision x))) ::
       ("evidence_sha256", JStr digest) :: note_fields x);
     OutcomeInput.parent_record_id := None;
     OutcomeInput.source_kind := Some (ClosureEvidence.source_kind x);
     OutcomeInput.source_id := Some (ClosureEvidence.source_ref x) |}.

Definition record_closure_evidence (t : Ticket.t) (user : User.t) (x : ClosureEvidence.t)
    : M Case.t RecordedClosureEvidence.t :=
  on_db (check (ensure_ticket_visible user t));;
  on_db (check (ensure_can_change_status user t TicketStatus.closed));;
  let x := ClosureEvidence.normalized x in
  evidence_time ← lift (evidence_valid x);
  now ← utc_now;
  s ← get;
  found ← lift (_resolve_scenario loads (Ticket.id t) now s);
  scenario ← lift (match Resolution.scenario found with
                   | Some i => Ok i
                   | None => Err (ValueError (str_or (Resolution.error found) "scenario_unavailable"))
                   end);
  let kind := ClosureEvidence.kind x in
  let state := ClosureEvidence.state x in
  require (bool_decide (ClosureEvidence.key x ∈ allowed_keys scenario kind))
    (ValueError "closure_evidence_key_not_in_scenario_contract");;
  require (bool_decide (kind = "notification") || negb (bool_decide (state = "waived")))
    (ValueError "closure_evidence_waiver_kind_invalid");;
  let digest := sha256 (closure_evidence_identity (Ticket.id t) user x evidence_time) in
  if bool_decide (kind ∈ ["fact"; "customer_input"]) then
    row ← record_evidence (Ticket.id t) (evidence_input user x evidence_time digest);
    mret {| RecordedClosureEvidence.record_id := CaseEvidenceRecord.id (fst row);
            RecordedClosureEvidence.record_type := "case_evidence";
            RecordedClosureEvidence.evidence_sha256 := CaseEvidenceRecord.evidence_sha256 (fst row);
            RecordedClosureEvidence.created := snd row |}
  else
    rs ← lift (_record_state kind (ClosureEvidence.key x) state
                 (BusinessScenarioDefinition.allowed_no_notification_reasons scenario));
    row ← append_outcome (Ticket.id t) (outcome_input user x evidence_time digest (fst rs) (snd rs));
    mret {| RecordedClosureEvidence.record_id := CaseOutcomeRecord.id (fst row);
            RecordedClosureEvidence.record_type := fst rs;
            RecordedClosureEvidence.evidence_sha256 := digest;
            RecordedClosureEvidence.created := snd row |}.

(** ** The ticket service *)

Section Service.
Context (loads_pairs : string → option json) (catalog_file : option string).

#[local] Abbreviation flushed := (Cases.flushed sha256_hex dumps loads_pairs catalog_file).

(** Whether the closing is authorized, before the status changes: the receipt *)
Definition closing_receipt (i : Z) (new_status : TicketStatus.t)
    : M Case.t (option (list (string * json))) :=
  if bool_decide (new_status = TicketStatus.closed) then
    ticket ← on_db (get_ticket_or_404 i);
    receipt ← require_governed_closure_ready ticket;
    mret (Some receipt)
  else mret None.

Definition change_status (i : Z) (p : TicketStatusChangeRequest.t) (user : User.t)
    : M Case.t Ticket.t :=
  receipt ← closing_receipt i (TicketStatusChangeRequest.new_status p);
  ticket ← flushed i (Tickets.change_status i p user);
  match receipt with
  | Some r =>
      append_closure_receipt_event (Ticket.id ticket) (Some (User.id user)) r;;
      on_db (get_ticket_or_404 (Ticket.id ticket))
  | None => mret ticket
  end.

Definition reopen_ticket (i : Z) (p : TicketReopenRequest.t) (user : User.t) : M Case.t Ticket.t :=
  ticket ← flushed i (Tickets.reopen_ticket i p user);
  _ ← invalidate_latest_closure_receipt (Ticket.id ticket) (Some (User.id user))
        (TicketReopenRequest.reason p);
  on_db (get_ticket_or_404 (Ticket.id ticket)).

(** The functions that the module takes over, with the listeners of their flushes *)
Definition assign_ticket (i : Z) (p : TicketAssignRequest.t) (user : User.t) : M Case.t Ticket.t :=
  flushed i (Tickets.assign_ticket i p user).
Definition escalate_ticket (i : Z) (p : TicketEscalateRequest.t) (user : User.t)
    : M Case.t Ticket.t :=
  flushed i (Tickets.escalate_ticket i p user).
Fixpoint update_fields (i : Z) (user : User.t) (p : TicketUpdate.t) (fields : list string)
    : M Case.t bool :=
  match fields with
  | [] => mret false
  | f :: rest =>
      changed ← flushed i (update_field i user p f);
      more ← update_fields i user p rest;
      mret (changed || more)
  end.
Definition update_ticket (i : Z) (p : TicketUpdate.t) (user : User.t) : M Case.t Ticket.t :=
  _ ← on_db (visible_ticket i user);
  on_db (check (ensure_can_update_core_fields user));;
  s ← get;
  actor_tenant_id ← lift (resolve_actor_tenant_id (Db.dir (Case.core s)) user);
  lift (check_market (Db.dir (Case.core s)) actor_tenant_id (TicketUpdate.market_id p));;
  fields ← update_fields i user p updatable;
  priority ← flushed i (update_priority i user (TicketUpdate.priority p));
  tags ← on_db (update_tags i user (TicketUpdate.tag_ids p));
  (if (fields || priority || tags : bool) then
     flushed i (now ← Models.utc_now; set_ticket i (fun t => t <| Ticket.updated_at := now |>))
   else mret tt);;
  on_db (get_ticket_or_404 i).
Definition create_ticket (p : TicketCreate.t) (user : User.t) : M Case.t Ticket.t :=
  ticket ← on_db (Tickets.create_ticket p user);
  _insert_automatic_assignment sha256_hex dumps loads_pairs catalog_file (Ticket.id ticket)
    "ticket_insert";;
  mret ticket.

(** ** A customer writes again *)

Definition TERMINAL_TICKET_STATUSES : list TicketStatus.t :=
  [TicketStatus.resolved; TicketStatus.closed; TicketStatus.canceled].

Definition recontacted (now : Z) (t : Ticket.t) : Ticket.t :=
  t <| Ticket.status := TicketStatus.pending_assignment |> <| Ticket.reopen_count ::= Z.succ |>
    <| Ticket.closed_at := None |> <| Ticket.resolved_at := None |>
    <| Ticket.texts ::= delete "resolution_summary" |>
    <| Ticket.conversation_state := ConversationState.reopened_by_customer |>
    <| Ticket.updated_at := now |>.

Definition recontact_event (t : Ticket.t) (actor_id : option Z) (source message_identity : string)
    : TicketEvent.t :=
  timeline_event (Ticket.id t) actor_id EventType.reopened "customer_recontact"
    (Some (value (Ticket.status t))) (Some (value TicketStatus.pending_assignment))
    ("Customer recontact received via " +:+ source)
    [("schema", JStr "nexus.customer-recontact.v1"); ("source", JStr source);
     ("external_message_id", if nonempty message_identity then JStr message_identity else JNull);
     ("closure_receipt_invalidated", JBool false); ("contains_payloads", JBool false)].

(** [str(source or "channel_intake").strip()[:80] or "channel_intake"] *)
Definition recontact_source (source : string) : string :=
  str_or (Some (str_take 80 (py_strip (str_or (Some source) "channel_intake")))) "channel_intake".

(** Whether the ticket was reopened, and whether a receipt was invalidated *)
Definition reopen_ticket_from_customer_message (i : Z) (source external_message_id : string)
    (actor_id : option Z) : M Case.t (bool * bool) :=
  t ← on_db (the_ticket i);
  if negb (bool_decide (Ticket.status t ∈ TERMINAL_TICKET_STATUSES)) then mret (false, false)
  else
    now ← utc_now;
    let source_value := recontact_source source in
    let message_identity := str_take 180 (py_strip external_message_id) in
    invalidated ← invalidate_latest_closure_receipt i actor_id
      ("Customer recontact via " +:+ source_value +:+ "; message identity " +:+
       str_or (Some message_identity) "unavailable");
    flushed i
      (set_ticket i (recontacted now);;
       when (negb invalidated) (log_event (recontact_event t actor_id source_value message_identity)));;
    mret (true, invalidated).

Definition conversation_done (c : WebchatConversation.t) (k : ConversationControl.t) : bool :=
  negb (bool_decide (WebchatConversation.status c = "open")) ||
  not_null (ConversationControl.closed_at k) || not_null (ConversationControl.outcome k).

Definition conversation_opened (now : Z) (c : WebchatConversation.t) : WebchatConversation.t :=
  c <| WebchatConversation.status := "open" |> <| WebchatConversation.updated_at := now |>
    <| WebchatConversation.last_seen_at := now |>.
Definition control_opened (now : Z) (k : ConversationControl.t) : ConversationControl.t :=
  k <| ConversationControl.outcome := None |> <| ConversationControl.closed_at := None |>
    <| ConversationControl.closed_by_user_id := None |>
    <| ConversationControl.closure_note := None |> <| ConversationControl.updated_at := now |>.

(** Whether the conversation and the ticket were reopened, and a receipt invalidated *)
Definition reopen_from_customer_message (delivered : Z → string → bool) (cid kid : Z)
    (ticket : option Z) (source external_message_id : string) : M Case.t (bool * (bool * bool)) :=
  now ← utc_now;
  c ← on_desk (the_row (R := WebchatConversation.t) cid);
  k ← on_desk (the_row (R := ConversationControl.t) kid);
  let source_value := recontact_source source in
  let message_identity := str_take 180 (py_strip external_message_id) in
  let reopened := conversation_done c k in
  when reopened (on_desk (set_row cid (conversation_opened now));;
                 on_desk (set_row kid (control_opened now)));;
  t ← match ticket with
      | Some i => reopen_ticket_from_customer_message i source_value message_identity None
      | None => mret (false, false)
      end;
  when (reopened || fst t)
    (on_desk (on_work (safe_write_webchat_event delivered cid ticket "customer.recontact_reopened"
      [("source", JStr source_value);
       ("external_message_id", if nonempty message_identity then JStr message_identity else JNull);
       ("ticket_reopened", JBool (fst t)); ("closure_receipt_invalidated", JBool (snd t))])));;
  mret (reopened, t).
End Service.
End Closure.

(** ** A case for the witnesses

    Ticket 2 of Fixtures.v, resolved, assigned to the first scenario of the shipped catalog. *)
Module FixCase.
(** A text for each JSON value, and a hash: enough to tell the values here apart *)
Fixpoint dumps (j : json) : string :=
  match j with
  | JNull => "n" | JBool b => if b then "t" else "f" | JNum z => pretty z
  | JFloat (m, e) => pretty m +:+ "e" +:+ pretty e | JStr s => "'" +:+ s
  | JArr l => "[" +:+ String.concat "," (map dumps l)
  | JObj l => "{" +:+ String.concat "," (map (fun x => fst x +:+ ":" +:+ dumps (snd x)) l)
  end.
Fixpoint digest (acc : Z) (s : string) : Z :=
  match s with
  | EmptyString => acc
  | String c s' => digest ((acc * 131 + code c) mod 2305843009213693951) s'
  end.
Definition sha256_hex (s : string) : string := pretty (digest 7 s).

Definition snapshot : json :=
  JObj [("schema", JStr CASE_SCENARIO_SNAPSHOT_SCHEMA); ("catalog_version", JStr "v1");
        ("catalog_sha256", JStr "c"); ("scenario", Shipped.tracking_status_inquiry)].
Definition loads (text : string) : option json :=
  if bool_decide (text = "snapshot") then Some snapshot else None.
Definition message_updated_at (i : Z) : option Z := None.
Definition delivered (cid : Z) (event_type : string) : bool := true.
Definition loads_pairs (text : string) : option json := None.

Definition assignment : CaseScenarioAssignment.t :=
  {| CaseScenarioAssignment.id := 1; CaseScenarioAssignment.ticket_id := 2;
     CaseScenarioAssignment.scenario_key := "tracking_status_inquiry";
     CaseScenarioAssignment.catalog_version := "v1"; CaseScenarioAssignment.catalog_sha256 := "c";
     CaseScenarioAssignment.scenario_snapshot_json := "snapshot";
     CaseScenarioAssignment.assignment_source := "ticket_insert";
     CaseScenarioAssignment.assignment_reason := None; CaseScenarioAssignment.assigned_by := None;
     CaseScenarioAssignment.assigned_at := 0; CaseScenarioAssignment.superseded_at := None;
     CaseScenarioAssignment.superseded_by_id := None |}.

(** August 2026: the catalog is in force. *)
Definition db : Db.t := Fix.db <| Db.clock := fun n => seconds (1786000000 + Z.of_nat n) |>.
Definition work : Work.t :=
  {| Work.core := db; Work.jobs := empty_table; Work.scopes := ∅; Work.restrictions := empty_table;
     Work.address_updates := ∅; Work.conversations := empty_table; Work.controls := empty_table;
     Work.mail_accounts := ∅; Work.turns := empty_table; Work.wmessages := empty_table;
     Work.wevents := [] |}.
Definition desk : Desk.t :=
  {| Desk.work := work; Desk.agents := empty_table; Desk.grants := empty_table;
     Desk.requests := empty_table; Desk.decisions := empty_table;
     Desk.scenarios := {| trows := {[1 := assignment]}; tnext := 2 |};
     Desk.plans := empty_table; Desk.attempts := empty_table; Desk.sessions := empty_table;
     Desk.offers := empty_table; Desk.legs := empty_table; Desk.voice_configs := empty_table;
     Desk.tasks := empty_table; Desk.audits := []; Desk.scope_country := None;
     Desk.token_urlsafe := fun n => "token" +:+ pretty n |}.
Definition opened : Case.t :=
  {| Case.desk := desk; Case.evidence := empty_table; Case.outcomes := empty_table |}.
Definition ticket : Ticket.t := Fix.ticket 2 TicketStatus.resolved.

Definition observed (i : Z) (kind key : string) : CaseEvidenceRecord.t :=
  {| CaseEvidenceRecord.id := i; CaseEvidenceRecord.ticket_id := 2;
     CaseEvidenceRecord.evidence_kind := kind; CaseEvidenceRecord.evidence_key := key;
     CaseEvidenceRecord.state := "verified"; CaseEvidenceRecord.source_kind := "tracking";
     CaseEvidenceRecord.source_ref := "ref"; CaseEvidenceRecord.source_revision := "1";
     CaseEvidenceRecord.evidence_sha256 := "0"; CaseEvidenceRecord.safe_metadata_json := JObj [];
     CaseEvidenceRecord.observed_at := 0; CaseEvidenceRecord.recorded_by := Some 31;
     CaseEvidenceRecord.created_at := 0 |}.
Definition recorded (i : Z) (record_type state key value : string) : CaseOutcomeRecord.t :=
  {| CaseOutcomeRecord.id := i; CaseOutcomeRecord.ticket_id := 2; CaseOutcomeRecord.sequence := i;
     CaseOutcomeRecord.record_type := record_type; CaseOutcomeRecord.state := state;
     CaseOutcomeRecord.idempotency_key := "key-" +:+ pretty i;
     CaseOutcomeRecord.parent_record_id := None;
     CaseOutcomeRecord.source_kind := Some "provider_receipt";
     CaseOutcomeRecord.source_id := Some "ref";
     CaseOutcomeRecord.payload_json := JObj [(key, JStr value)];
     CaseOutcomeRecord.occurred_at := 0; CaseOutcomeRecord.created_by := Some 31;
     CaseOutcomeRecord.created_at := 0 |}.
Definition evidence_rows : Table CaseEvidenceRecord.t :=
  {| trows := <[1 := observed 1 "fact" "parcel_identity"]>
       (<[2 := observed 2 "fact" "tracking_current_status"]>
          {[3 := observed 3 "customer_input" "tracking_reference"]}); tnext := 4 |}.
Definition outcome_rows : Table CaseOutcomeRecord.t :=
  {| trows := <[1 := recorded 1 "execution_attempt" "succeeded" "action_class" "tracking_lookup"]>
       (<[2 := recorded 2 "operational_outcome" "confirmed" "outcome_level" "business_result_confirmed"]>
          {[3 := recorded 3 "customer_notification" "delivered" "notification_state" "delivered"]});
     tnext := 4 |}.
(** The outcome of the case is recorded. *)
Definition shown : Case.t :=
  {| Case.desk := desk; Case.evidence := evidence_rows; Case.outcomes := outcome_rows |}.
(** An action of the case failed. *)
Definition failed : Case.t :=
  {| Case.desk := desk; Case.evidence := empty_table;
     Case.outcomes := {| trows := {[1 := recorded 1 "execution_attempt" "failed" "action_class"
                                           "tracking_lookup"]}; tnext := 2 |} |}.
(** One more observation *)
Definition failed_lookup : ClosureEvidence.t :=
  {| ClosureEvidence.kind := "action"; ClosureEvidence.key := "tracking_lookup";
     ClosureEvidence.state := "failed"; ClosureEvidence.source_kind := "tracking";
     ClosureEvidence.source_ref := "ref-2"; ClosureEvidence.source_revision := "1";
     ClosureEvidence.observed_at := Some 0; ClosureEvidence.note := None |}.

Definition closing : TicketStatusChangeRequest.t :=
  {| TicketStatusChangeRequest.new_status := TicketStatus.closed;
     TicketStatusChangeRequest.note := Some "done" |}.
Definition close := change_status sha256_hex dumps loads message_updated_at loads_pairs None 2 closing
  Fix.manager.
End FixCase.
