(* ===== verification/ClosureRules.v ===== *)
(** * What the gate of a closure demands

    The stored scenario of an assignment is the one that the catalog had; the governed readiness
    holds exactly when the case shows the outcome; a ticket that is closed through the service
    has it, and carries a receipt. *)

From S2P Require Import Prelude Calendar Enums Models Fixtures Tenancy Permissions Sla.
From S2P Require Import Customers Tickets Lifecycle Work AiTurns Desk Plans Tasks Iso Catalog.
From S2P Require Import Scenarios Cases Closure.

(** ** The snapshot of a scenario reads back *)

(** What [json.loads] returns of a text that [json.dumps(..., sort_keys=True)] wrote *)
Definition str_le (a b : string) : bool := String.leb a b.
Fixpoint sort_keys (j : json) : json :=
  match j with
  | JArr l => JArr (map sort_keys l)
  | JObj l => JObj (sort_by (fun a b => str_le (fst a) (fst b))
                      (map (fun x => (fst x, sort_keys (snd x))) l))
  | _ => j
  end.

Lemma assoc_get_Some {A} k (l : list (string * A)) v : NoDup (fst <$> l) →
  assoc_get k l = Some v ↔ (k, v) ∈ l.
Proof.
  induction l as [|[k' v'] l IH]; cbn; intros Hn.
  - by rewrite elem_of_nil.
  - apply list.NoDup_cons in Hn as [Hk Hn]. rewrite elem_of_cons. case_decide as E.
    + subst k'. split; [intros [= ->]; by left|]. intros [[= ->]|H]; [done|].
      destruct Hk. apply list_elem_of_fmap. by exists (k, v).
    + rewrite IH by done. split; [by right|]. by intros [[= -> ->]|H].
Qed.

Lemma assoc_get_perm {A} k (l l' : list (string * A)) : NoDup (fst <$> l) → l ≡ₚ l' →
  assoc_get k l = assoc_get k l'.
Proof.
  intros Hn Hp. assert (NoDup (fst <$> l')) as Hn' by by rewrite <- Hp.
  destruct (assoc_get k l) as [v|] eqn:E.
  - apply assoc_get_Some in E; [|done]. symmetry. apply assoc_get_Some; [done|]. by rewrite <- Hp.
  - destruct (assoc_get k l') as [v|] eqn:E'; [|done]. apply assoc_get_Some in E'; [|done].
    rewrite <- Hp in E'. apply assoc_get_Some in E'; [congruence|done].
Qed.

Lemma assoc_get_map {A B} (f : A → B) k (l : list (string * A)) :
  assoc_get k (map (fun x => (fst x, f (snd x))) l) = f <$> assoc_get k l.
Proof. induction l as [|[k' v] l IH]; cbn; [done|]. by case_decide. Qed.

Lemma sorted_item k l : NoDup (fst <$> l) →
  assoc_get k (match sort_keys (JObj l) with JObj l' => l' | _ => [] end) =
  sort_keys <$> assoc_get k l.
Proof.
  intros Hn. cbn [sort_keys]. rewrite <- (assoc_get_perm k (map (fun x => (fst x, sort_keys (snd x))) l)).
  - apply assoc_get_map.
  - by rewrite <- list_fmap_compose.
  - symmetry. apply sort_by_Permutation.
Qed.

Lemma sorted_get k l : NoDup (fst <$> l) →
  json_get k (sort_keys (JObj l)) = sort_keys (json_get k (JObj l)).
Proof.
  intros Hn. pose proof (sorted_item k l Hn) as E. cbn [sort_keys json_get] in *. rewrite E.
  by destruct (assoc_get k l).
Qed.

Lemma sorted_at k l v : NoDup (fst <$> l) → assoc_get k l = Some v →
  json_item k (sort_keys (JObj l)) = Ok (sort_keys v).
Proof.
  intros Hn Hk. pose proof (sorted_item k l Hn) as E. cbn [sort_keys json_item] in *. by rewrite E, Hk.
Qed.

(** *** Texts that the parser accepts are solid *)

Definition solid (s : string) : Prop := nonempty s = true ∧ py_strip s = s.
Definition word (s : string) : Prop :=
  nonempty s = true ∧ string_forallb (fun c => negb (is_space c)) s = true.

Lemma nonempty_app a b : nonempty a = true → nonempty (a +:+ b) = true.
Proof. destruct a; [done|]. intros _. by unfold nonempty. Qed.

Lemma rstrip_app a b : nonempty (rstrip b) = true → rstrip (a +:+ b) = a +:+ rstrip b.
Proof.
  intros Hb. induction a as [|c a IH]; [done|]. change (String c a +:+ b) with (String c (a +:+ b)).
  cbn [rstrip]. rewrite IH. pose proof (nonempty_app a (rstrip b)) as H. rewrite str_app_cons.
  destruct (a +:+ rstrip b) eqn:E; [|done]. destruct a; cbn in E; [|done].
  change (EmptyString +:+ rstrip b) with (rstrip b) in E. by rewrite E in Hb.
Qed.

Lemma word_strip w : word w → rstrip w = w ∧ nonempty w = true.
Proof.
  intros [Hn Hw]. split; [|done]. pose proof (py_strip_id w Hw) as E. unfold py_strip in E.
  destruct w as [|c w]; [done|]. cbn in Hw. apply andb_true_iff in Hw as [Hc _].
  cbn [lstrip] in E. apply negb_true_iff in Hc. by rewrite Hc in E.
Qed.

Lemma words_concat ws : Forall word ws → ws ≠ [] →
  rstrip (String.concat " " ws) = String.concat " " ws ∧ nonempty (String.concat " " ws) = true.
Proof.
  induction ws as [|w ws IH]; [done|]. intros [Hw Hws]%Forall_cons_iff _.
  destruct ws as [|w' ws]; [by apply word_strip|]. destruct IH as [IH1 IH2]; [done..|].
  change (String.concat " " (w :: w' :: ws)) with
    (w +:+ (" " +:+ String.concat " " (w' :: ws))).
  set (rest := String.concat " " (w' :: ws)) in *.
  assert (rstrip (" " +:+ rest) = " " +:+ rest) as E by (rewrite rstrip_app; by rewrite IH1).
  split; [|by apply nonempty_app, word_strip]. rewrite rstrip_app; by rewrite E.
Qed.

Lemma split_words_words w s : string_forallb (fun c => negb (is_space c)) w = true →
  Forall word (split_words w s).
Proof.
  revert w. induction s as [|c s IH]; intros w Hw; cbn.
  - destruct w; [constructor|]. by repeat constructor.
  - destruct (is_space c) eqn:Ec.
    + apply Forall_app. split; [|by apply IH]. destruct w; [constructor|]. by repeat constructor.
    + apply IH. rewrite string_forallb_app, Hw. cbn. by rewrite Ec.
Qed.

Lemma squeeze_strip s : py_strip (squeeze s) = squeeze s.
Proof.
  unfold squeeze. pose proof (split_words_words EmptyString s eq_refl) as H.
  destruct (split_words EmptyString s) as [|w ws] eqn:E; [done|].
  destruct (words_concat (w :: ws) H) as [H1 H2]; [done|]. unfold py_strip.
  enough (lstrip (String.concat " " (w :: ws)) = String.concat " " (w :: ws)) as -> by done.
  apply Forall_cons_iff in H as [[Hn Hw] _]. destruct w as [|c w]; [done|].
  cbn in Hw. apply andb_true_iff in Hw as [Hc%negb_true_iff _].
  assert (∃ r, String.concat " " (String c w :: ws) = String c r) as [r ->]
    by (destruct ws; cbn; eauto). cbn [lstrip]. by rewrite Hc.
Qed.

Lemma label_solid reason v n s : _label reason v n = Ok s → solid s.
Proof.
  unfold _label. destruct (_ || _) eqn:E; [done|]. intros [= <-].
  apply orb_false_iff in E as [E%negb_false_iff _]. split; [done|apply squeeze_strip].
Qed.

Lemma lower_strip s : py_lower (py_strip s) = s → py_strip s = s.
Proof. intros E. rewrite <- E at 1. by rewrite py_strip_lower, py_strip_idem. Qed.

Lemma key_solid reason v s : _key reason v = Ok s → solid s.
Proof. intros [Hk He%lower_strip]%key_Ok. split; [|done]. by destruct s. Qed.

Lemma choice_solid reason allowed v s : "" ∉ allowed → _choice reason allowed v = Ok s → solid s.
Proof. intros Hn [Hs He%lower_strip]%choice_Ok. split; [|done]. by destruct s. Qed.

Lemma choices_solid reason allowed v e l : "" ∉ allowed → _choices reason allowed v e = Ok l →
  Forall solid l.
Proof. intros Hn H. eapply distinct_Ok in H as (_ & H & _); [exact H|]. intros j s. by apply choice_solid. Qed.

Lemma keys_solid reason v e l : _keys reason v e = Ok l → Forall solid l.
Proof. intros H. eapply distinct_Ok in H as (_ & H & _); [exact H|]. intros j s. apply key_solid. Qed.

Lemma optional_key_solid reason v o : _optional_key reason v = Ok o → ∀ s, o = Some s → solid s.
Proof.
  unfold _optional_key. intros H s ->.
  destruct v; try (apply result_bind_Ok in H as (k & Hk & [= <-]); by eapply key_solid). done.
Qed.

(** The texts of a scenario, as they appear in its snapshot *)
Definition text_lists (i : BusinessScenarioDefinition.t) : list (list string) :=
  [BusinessScenarioDefinition.issue_type_aliases i; BusinessScenarioDefinition.trigger_sources i;
   BusinessScenarioDefinition.required_fact_classes i;
   BusinessScenarioDefinition.required_customer_inputs i;
   BusinessScenarioDefinition.required_capabilities i;
   BusinessScenarioDefinition.allowed_action_classes i;
   BusinessScenarioDefinition.required_action_classes i;
   BusinessScenarioDefinition.blocked_action_classes i;
   BusinessScenarioDefinition.allowed_no_notification_reasons i;
   BusinessScenarioDefinition.required_outcome_levels i;
   BusinessScenarioDefinition.completion_rules i; BusinessScenarioDefinition.reopen_conditions i;
   BusinessScenarioDefinition.metrics i].

Definition single_texts (i : BusinessScenarioDefinition.t) : list string :=
  [BusinessScenarioDefinition.scenario_key i; BusinessScenarioDefinition.risk_level i;
   BusinessScenarioDefinition.owner_queue_key i; BusinessScenarioDefinition.notification_policy i;
   BusinessScenarioDefinition.terminal_behavior i; BusinessScenarioDefinition.definition_of_done i;
   BusinessScenarioDefinition.cancellation_semantics i; BusinessScenarioDefinition.scope_mode i;
   ScenarioLifecycle.status (BusinessScenarioDefinition.lifecycle i);
   ScenarioLifecycle.owner (BusinessScenarioDefinition.lifecycle i)].

Record solid_scenario (i : BusinessScenarioDefinition.t) : Prop := {
  solid_lists : Forall (Forall solid) (text_lists i);
  solid_texts : Forall solid (single_texts i);
  solid_escalation : ∀ s, BusinessScenarioDefinition.escalation_policy_key i = Some s → solid s;
  solid_supersedes : ∀ s,
    ScenarioLifecycle.supersedes (BusinessScenarioDefinition.lifecycle i) = Some s → solid s }.

Ltac solid_reader :=
  first [ by eapply key_solid | by eapply label_solid | by eapply keys_solid
        | eapply choices_solid; [|done]; by apply (bool_decide_eq_true_1 _)
        | eapply choice_solid; [|done]; by apply (bool_decide_eq_true_1 _) ].

Lemma lifecycle_solid payload l : _parse_lifecycle payload = Ok l →
  Forall solid [ScenarioLifecycle.status l; ScenarioLifecycle.owner l] ∧
  (∀ s, ScenarioLifecycle.supersedes l = Some s → solid s).
Proof.
  unfold _parse_lifecycle. intros H. rinv H. cbn. split; [|by eapply optional_key_solid].
  repeat constructor; solid_reader.
Qed.

Lemma actions_solid row a r b : parse_actions row = Ok (a, r, b) →
  Forall solid a ∧ Forall solid r ∧ Forall solid b.
Proof.
  unfold parse_actions. intros H. rinv H. split_and!; solid_reader.
Qed.

Lemma notification_solid row p w : parse_notification row = Ok (p, w) → solid p ∧ Forall solid w.
Proof. unfold parse_notification. intros H. rinv H. split; solid_reader. Qed.

Lemma parse_solid payload i : _parse_scenario payload = Ok i → solid_scenario i.
Proof.
  unfold _parse_scenario. intros H. rinv H.
  apply actions_solid in Hm4 as (? & ? & ?). apply notification_solid in Hm5 as [? ?].
  apply lifecycle_solid in Hm25 as [[? [? _]%Forall_cons_iff]%Forall_cons_iff ?].
  split; cbn; try done; [| |by eapply optional_key_solid];
    repeat (constructor; first [done | solid_reader | idtac]).
Qed.

(** *** Reading what was written *)

Lemma bind_Ok {A B} (r : result A) (k : A → result B) a b : r = Ok a → k a = Ok b → (r ≫= k) = Ok b.
Proof. intros -> H. exact H. Qed.

Lemma read_text s f : solid s → _snapshot_text (sort_keys (JStr s)) f = Ok s.
Proof.
  intros [Hn Hs]. unfold _snapshot_text, text_of, json_or. cbn [sort_keys truthy].
  destruct s as [|c s]; [done|]. cbn [negb bool_decide]. unfold nonempty in Hn. rewrite Hn.
  cbn [py_str]. by rewrite Hs.
Qed.

Lemma read_tuple l f : Forall solid l → _snapshot_tuple (sort_keys (jstrs l)) f = Ok l.
Proof.
  intros Hl. unfold _snapshot_tuple, jstrs. cbn [sort_keys].
  assert ((fun i => py_strip (text_of i)) <$> map sort_keys (JStr <$> l) = l) as ->.
  { induction Hl as [|s l Hs Hl IH]; [done|]. cbn [map fmap list_fmap] in *. f_equal; [|done].
    pose proof (read_text s EmptyString Hs) as E. unfold _snapshot_text in E.
    destruct (nonempty _); [by injection E|done]. }
  assert (forallb nonempty l = true) as ->; [|done].
  apply forallb_forall. rewrite Forall_forall in Hl. intros s Hs. by apply Hl.
Qed.

Lemma read_time t f : in_years t → _snapshot_timestamp (sort_keys (jtime t)) f = Ok t.
Proof. intros Ht. unfold _snapshot_timestamp, jtime. cbn [sort_keys py_str]. by rewrite instant_roundtrip. Qed.

Lemma read_key {A} (read : json → string → result A) l k v a : NoDup (fst <$> l) →
  assoc_get k l = Some v → read (sort_keys v) k = Ok a → at_key read (sort_keys (JObj l)) k = Ok a.
Proof. intros Hn Hk Hr. unfold at_key. eapply bind_Ok; [by eapply sorted_at|done]. Qed.

Lemma read_optional l k o : NoDup (fst <$> l) → json_get k (JObj l) = Plans.jstr o →
  (∀ s, o = Some s → solid s) → optional_text (sort_keys (JObj l)) k = o.
Proof.
  intros Hn Hk Ho. unfold optional_text. rewrite sorted_get by done. rewrite Hk.
  destruct o as [s|]; [|done]. destruct (Ho s eq_refl) as [_ E]. cbn [Plans.jstr json_of_option sort_keys py_str].
  unfold Plans.jstr. cbn. by rewrite E.
Qed.

(** The instants of a lifecycle are representable. *)
Definition dated (l : ScenarioLifecycle.t) : Prop :=
  in_years (ScenarioLifecycle.approved_at l) ∧ in_years (ScenarioLifecycle.effective_from l) ∧
  in_years (ScenarioLifecycle.review_due l) ∧
  (∀ t, ScenarioLifecycle.expires_at l = Some t → in_years t).

Ltac fresh_keys := by apply (bool_decide_eq_true_1 _).
Ltac read_next := eapply bind_Ok;
  [eapply read_key; [fresh_keys|reflexivity|first [by apply read_text|by apply read_tuple|by apply read_time]]|].

Lemma read_lifecycle l : solid (ScenarioLifecycle.status l) → solid (ScenarioLifecycle.owner l) →
  (∀ s, ScenarioLifecycle.supersedes l = Some s → solid s) → dated l →
  snapshot_lifecycle (sort_keys (lifecycle_snapshot l)) = Ok l.
Proof.
  intros H1 H2 H3 (H4 & H5 & H6 & H7). unfold snapshot_lifecycle, lifecycle_snapshot.
  do 5 read_next. eapply (bind_Ok _ _ (ScenarioLifecycle.expires_at l)).
  - rewrite sorted_get by fresh_keys. cbn [json_get]. change (_optional_snapshot_timestamp
      (sort_keys (json_of_option jtime (ScenarioLifecycle.expires_at l))) "expires_at" =
      Ok (ScenarioLifecycle.expires_at l)).
    destruct (ScenarioLifecycle.expires_at l) as [t|]; [|done].
    eapply (bind_Ok _ _ t); [by apply read_time, H7|done].
  - f_equal. rewrite (read_optional _ _ (ScenarioLifecycle.supersedes l)); [by destruct l|fresh_keys|done|done].
Qed.

Lemma solid_single i s : solid_scenario i → s ∈ single_texts i → solid s.
Proof. intros [_ H _ _] Hs%list_elem_of_In. rewrite Forall_forall in H. by apply H. Qed.
Lemma solid_list i l : solid_scenario i → l ∈ text_lists i → Forall solid l.
Proof. intros [H _ _ _] Hl%list_elem_of_In. rewrite Forall_forall in H. by apply H. Qed.

Ltac member := unfold single_texts, text_lists; rewrite !elem_of_cons; tauto.
Ltac read_field Hs := eapply bind_Ok;
  [eapply read_key; [fresh_keys|reflexivity|
     first [apply read_text, (solid_single _ _ Hs); member | apply read_tuple, (solid_list _ _ Hs); member]]|].

Lemma read_scenario i : solid_scenario i →
  snapshot_scenario (BusinessScenarioDefinition.scenario_key i)
    (sort_keys (JObj (scenario_payload i))) (BusinessScenarioDefinition.lifecycle i) = Ok i.
Proof.
  intros Hs. unfold snapshot_scenario. cbv zeta. do 16 read_field Hs.
  eapply bind_Ok; [apply sorted_at; [fresh_keys|reflexivity]|]. eapply bind_Ok; [reflexivity|].
  do 4 read_field Hs. f_equal.
  rewrite (read_optional _ _ (BusinessScenarioDefinition.escalation_policy_key i));
    [by destruct i|fresh_keys|done|apply Hs].
Qed.

Section Roundtrip.
Context (dumps : json → string) (loads : string → option json).

Lemma read_back catalog i row :
  solid_scenario i → dated (BusinessScenarioDefinition.lifecycle i) →
  loads (CaseScenarioAssignment.scenario_snapshot_json row) =
    Some (sort_keys (_scenario_snapshot catalog i)) →
  CaseScenarioAssignment.catalog_version row = BusinessScenarioCatalog.catalog_version catalog →
  CaseScenarioAssignment.catalog_sha256 row = BusinessScenarioCatalog.source_sha256 catalog →
  CaseScenarioAssignment.scenario_key row = BusinessScenarioDefinition.scenario_key i →
  read_assignment loads row = Ok i.
Proof.
  intros Hs Hd Hl Hv Hc Hk. unfold read_assignment. rewrite Hl, Hv, Hc, Hk. unfold _scenario_snapshot.
  set (fields := [_; _; _; _]). eapply bind_Ok; [reflexivity|].
  assert (NoDup (fst <$> fields)) as Hn by fresh_keys.
  assert (∀ k v, assoc_get k fields = Some v → json_get k (sort_keys (JObj fields)) = sort_keys v) as Hg.
  { intros k v E. rewrite sorted_get by done. cbn [json_get]. by rewrite E. }
  eapply bind_Ok; [done|]. do 3 (eapply bind_Ok;
    [unfold expect; rewrite bool_decide_true; [done|by erewrite Hg by reflexivity]|]).
  eapply bind_Ok; [apply (sorted_at _ _ (JObj (scenario_payload i))); [done|reflexivity]|].
  eapply bind_Ok; [apply sorted_at; [fresh_keys|reflexivity]|]. eapply bind_Ok; [done|].
  read_field Hs. eapply bind_Ok; [unfold expect; by rewrite bool_decide_true|].
  eapply bind_Ok; [|by apply read_scenario].
  apply read_lifecycle; [| |apply Hs|done]; apply (solid_single _ _ Hs); member.
Qed.

(** C19: what [json.dumps] wrote of the scenario when a case was assigned to it is what the gate
    of a closure reads: the assignment of a scenario of an accepted catalog resolves, as long as
    the scenario is in force, to that very scenario, with all it demands, whatever the catalog
    says later. *)
Theorem scenario_snapshot_roundtrip payload sha catalog i ticket source reason actor at_ n now :
  parse_business_scenario_catalog payload sha = Ok catalog →
  i ∈ BusinessScenarioCatalog.scenarios catalog → dated (BusinessScenarioDefinition.lifecycle i) →
  loads (dumps (_scenario_snapshot catalog i)) = Some (sort_keys (_scenario_snapshot catalog i)) →
  let row := new_assignment dumps ticket catalog i source reason actor at_ n in
  _scenario_from_assignment loads row now =
    if ScenarioLifecycle.is_active (BusinessScenarioDefinition.lifecycle i) now then Ok i
    else Err (ValueError "case_scenario_not_runtime_active").
Proof.
  intros Hp Hi Hd Hl row. assert (solid_scenario i) as Hs.
  { unfold parse_business_scenario_catalog in Hp. rinv Hp. cbn in Hi.
    eapply mapM_Forall in Hm4; [|apply parse_solid]. rewrite Forall_forall in Hm4.
    by apply Hm4, list_elem_of_In. }
  unfold _scenario_from_assignment. by rewrite (read_back catalog i row Hs Hd Hl).
Qed.
End Roundtrip.

(** ** The gate, exactly *)

(** The exceptions that the reading of a snapshot turns into reasons *)
Definition caught (e : exc) : Prop :=
  match e with ValueError _ | LookupError _ | TypeError _ => True | _ => False end.
Definition calm {A} (r : result A) : Prop := match r with Ok _ => True | Err e => caught e end.

Lemma calm_bind {A B} (r : result A) (k : A → result B) :
  calm r → (∀ a, calm (k a)) → calm (r ≫= k).
Proof. intros Hr Hk. destruct r as [a|e]; [apply Hk|done]. Qed.

Lemma calm_item k j : calm (json_item k j).
Proof. destruct j; try done. cbn. by destruct (assoc_get k fields). Qed.
Lemma calm_int j : calm (json_int j).
Proof.
  unfold json_int. repeat lazymatch goal with
    | |- calm (match ?x with _ => _ end) => destruct x; try done
    | |- calm (let '(_, _) := ?x in _) => destruct x
    end.
Qed.
Lemma calm_text v f : calm (_snapshot_text v f).
Proof. unfold _snapshot_text. by destruct (nonempty _). Qed.
Lemma calm_tuple v f : calm (_snapshot_tuple v f).
Proof. unfold _snapshot_tuple. destruct v; try done. by destruct (forallb _ _). Qed.
Lemma calm_time v f : calm (_snapshot_timestamp v f).
Proof. unfold _snapshot_timestamp. by destruct (instant_of _). Qed.
Lemma calm_expect b c : calm (expect b c).
Proof. by destruct b. Qed.

Create HintDb calm.
#[export] Hint Resolve calm_item calm_int calm_text calm_tuple calm_time calm_expect : calm.
Ltac calm := repeat (first [ solve [auto with calm] | progress (unfold at_key)
  | apply calm_bind; [|intros ?] | done ]).

Lemma calm_optional v f : calm (_optional_snapshot_timestamp v f).
Proof. unfold _optional_snapshot_timestamp. destruct v; calm. Qed.
#[export] Hint Resolve calm_optional : calm.
Lemma calm_lifecycle j : calm (snapshot_lifecycle j).
Proof. unfold snapshot_lifecycle. calm. Qed.
Lemma calm_scenario k j l : calm (snapshot_scenario k j l).
Proof. unfold snapshot_scenario. cbv zeta. calm. Qed.
#[export] Hint Resolve calm_lifecycle calm_scenario : calm.

Section Gate.
Context (sha256_hex : string → string) (dumps : json → string) (loads : string → option json).
Context (message_updated_at : Z → option Z).

Lemma calm_assignment row : calm (read_assignment loads row).
Proof.
  unfold read_assignment. destruct (loads _) as [root|]; [|done].
  apply (calm_bind (Ok root)); [done|intros ?]. calm.
Qed.

(** The scenario that a case is judged by: the one of its current assignment, in force *)
Definition governing (i now : Z) (s : Case.t) : option BusinessScenarioDefinition.t :=
  row ← current_assignment i s;
  match _scenario_from_assignment loads row now with Ok x => Some x | Err _ => None end.

Lemma resolve_governing i now s : ∃ found,
  _resolve_scenario loads i now s = Ok found ∧ Resolution.scenario found = governing i now s.
Proof.
  unfold _resolve_scenario, governing. destruct (current_assignment i s) as [row|]; [|by eexists].
  cbn [mbind option_bind]. pose proof (calm_assignment row) as Hc. unfold _scenario_from_assignment.
  destruct (read_assignment loads row) as [x|e]; cbn [mbind].
  - unfold mbind. cbn. destruct (scenario_is_runtime_active x now); by eexists.
  - destruct e; try done; cbn; try (by eexists). destruct (String.prefix _ _); by eexists.
Qed.

(** The case shows what its scenario demands, and that the customer was told. *)
Definition closable (t : Ticket.t) (now : Z) (s : Case.t) : Prop :=
  ∃ i, governing (Ticket.id t) now s = Some i ∧
    demands i (progress_of message_updated_at i t now s) ∧
    evidence_satisfies (BusinessScenarioDefinition.notification_policy i)
      (notification_evidence (Ticket.id t)
         (BusinessScenarioDefinition.allowed_no_notification_reasons i) s) = true.

(** A reading of the clock *)
Definition clock_at (s : Case.t) : Z := Db.clock (Case.core s) (Db.ticks (Case.core s)).
Definition ticked (s : Case.t) : Case.t := snd (utc_now s).

Lemma case_now_run s : utc_now s = (Ok (clock_at s), ticked s).
Proof. done. Qed.

Lemma reblocked_nil satisfied blocked :
  reblocked satisfied blocked = [] ↔
  satisfied = true ∧ ∀ r, r ∈ blocked → r ∈ notification_reasons.
Proof.
  unfold reblocked. destruct satisfied.
  - rewrite filter_empty. split.
    + intros H. split; [done|]. intros r Hr. destruct (decide (r ∈ notification_reasons)); [done|].
      by destruct (H r Hr).
    + intros [_ H] r Hr Hn. by apply Hn, H.
  - split; [|by intros [? _]]. case_bool_decide as Hb; [|by destruct blocked].
    intros ->. by apply elem_of_nil in Hb.
Qed.

Lemma governed_ready i p satisfied :
  ScenarioReadiness.closure_ready
    (governed_readiness satisfied (evaluate_scenario_readiness i p)) = true ↔
  demands i p ∧ satisfied = true.
Proof.
  cbn [governed_readiness ScenarioReadiness.closure_ready].
  rewrite bool_decide_eq_true, reblocked_nil, demands_spec. tauto.
Qed.

(** The governed snapshot is that of the scenario which governs the case. *)
Lemma governed_snapshot t s : ∃ x,
  build_governed_closure_snapshot sha256_hex dumps loads message_updated_at t s = (Ok x, ticked s) ∧
  (ScenarioReadiness.closure_ready (ClosureSnapshot.readiness x) = true ↔ closable t (clock_at s) s).
Proof.
  destruct (resolve_governing (Ticket.id t) (clock_at s) (ticked s)) as (found & Hf & Hg).
  change (governing (Ticket.id t) (clock_at s) (ticked s)) with
    (governing (Ticket.id t) (clock_at s) s) in Hg.
  unfold build_governed_closure_snapshot, build_closure_snapshot.
  eexists. split.
  - erewrite bind_run_Ok; [reflexivity|]. erewrite bind_run_Ok by apply case_now_run.
    erewrite bind_run_Ok by done. erewrite bind_run_Ok by (unfold lift; by rewrite Hf). reflexivity.
  - unfold apply_notification_evidence_policy, closable. cbn [ClosureSnapshot.scenario].
    rewrite Hg. destruct (governing _ _ _) as [i|]; cbn [ClosureSnapshot.readiness].
    + rewrite governed_ready. split; [|by intros (j & [= <-] & H)]. intros H. by exists i.
    + split; [done|]. by intros (i & ? & _).
Qed.
End Gate.

(** C16: the gate of a closure, exactly: [require_governed_closure_ready] only reads the clock;
    it returns a receipt when the scenario of the current assignment is in force, the ledgers,
    the ticket and its messages show all facts, inputs, actions and outcomes that it demands, no
    repair is open, the period of observation is over and the notification satisfies its policy;
    in every other case, a snapshot that cannot be read included, it refuses with 409. *)
Theorem closure_gate_exact sha256_hex dumps loads updated_at t s :
  let '(r, s') := require_governed_closure_ready sha256_hex dumps loads updated_at t s in
  s' = ticked s ∧
  (is_ok r = true ↔ closable loads updated_at t (clock_at s) s) ∧
  (is_ok r = false → ∃ detail, r = Err (HTTPExceptionCode 409 "safe_closure_not_ready" detail)).
Proof.
  destruct (governed_snapshot sha256_hex dumps loads updated_at t s) as (x & Hx & Hr).
  unfold require_governed_closure_ready. rewrite (bind_run_Ok _ _ _ _ _ Hx).
  destruct (ScenarioReadiness.closure_ready (ClosureSnapshot.readiness x)) eqn:E; cbn.
  - split; [done|]. split; [|done]. by rewrite Hr.
  - split; [done|]. split; [by rewrite <- Hr|]. eauto.
Qed.

(** ** The listeners at rest *)

Lemma on_db_run {A} (m : M Db.t A) s :
  on_db m s = (fst (m (Case.core s)), snd (on_db m s)) ∧
  Case.core (snd (on_db m s)) = snd (m (Case.core s)).
Proof. unfold on_db, on_desk, on_work, on_core, Case.core. by destruct (m _) as [r d]. Qed.

Lemma on_db_Ok {A} (m : M Db.t A) s a s' : on_db m s = (Ok a, s') →
  m (Case.core s) = (Ok a, Case.core s') ∧ s' = s <| Case.desk := Case.desk s' |> ∧
  (∀ i, current_assignment i s' = current_assignment i s).
Proof.
  unfold on_db, on_desk, on_work, on_core, Case.core. destruct (m _) as [r d] eqn:E.
  intros [= -> <-]. by split_and!.
Qed.

Lemma on_db_ticket i s t s' : on_db (the_ticket i) s = (Ok t, s') →
  s' = s ∧ ticket_at (Case.core s) i = Some t.
Proof.
  unfold on_db, on_desk, on_work, on_core, Case.core, the_ticket.
  destruct s as [[[] ] ]; cbn. destruct (ticket_at _ _); [|done]. by intros [= -> <-].
Qed.

Section Listeners.
Context (sha256_hex : string → string) (dumps : json → string).
Context (loads_pairs : string → option json) (catalog_file : option string).

(** A flush that leaves the identity of an assigned case alone does nothing more. *)
Lemma ticket_updated_rest before after s :
  Ticket.texts before = Ticket.texts after →
  is_Some (current_assignment (Ticket.id after) s) →
  ticket_updated sha256_hex dumps loads_pairs catalog_file before after s = (Ok tt, s).
Proof.
  intros Ht [a Ha]. unfold ticket_updated. case_bool_decide; [done|].
  unfold _guard_scenario_identity_update, _insert_automatic_assignment.
  assert (changed_identity before after = []) as ->.
  { unfold changed_identity, text. rewrite Ht. by apply filter_empty; intros f _ []. }
  erewrite bind_run_Ok by done. erewrite bind_run_Ok by done. by rewrite Ha.
Qed.

Lemma flushed_Ok {A} i (m : M Db.t A) s a s' :
  flushed sha256_hex dumps loads_pairs catalog_file i m s = (Ok a, s') →
  ∃ before after s1, ticket_at (Case.core s) i = Some before ∧ on_db m s = (Ok a, s1) ∧
    ticket_at (Case.core s1) i = Some after ∧
    ticket_updated sha256_hex dumps loads_pairs catalog_file before after s1 = (Ok tt, s').
Proof.
  unfold flushed. intros H. minv H. destruct a3.
  apply on_db_ticket in Hm as [-> Hb]. apply on_db_ticket in Hm1 as [-> Ha].
  by exists a0, a2, s1.
Qed.
End Listeners.

(** ** A closing leaves its receipt *)

Lemma next_sequence_above i s r : r ∈ outcomes_of i s → CaseOutcomeRecord.sequence r < next_sequence i s.
Proof.
  unfold next_sequence. induction (outcomes_of i s) as [|x l IH]; [by intros ?%elem_of_nil|].
  intros [->|H]%elem_of_cons; cbn [foldr]; [lia|]. specialize (IH H). lia.
Qed.

Lemma sequence_free i s : existsb (fun r => CaseOutcomeRecord.sequence r =? next_sequence i s)
  (outcomes_of i s) = false.
Proof.
  apply not_true_iff_false. rewrite existsb_exists. intros (r & Hr%list_elem_of_In & E%Z.eqb_eq).
  apply next_sequence_above in Hr. lia.
Qed.

Section Appending.
Context (sha256_hex : string → string) (dumps : json → string).

(** What [append_case_outcome] does: it finds the record of the key, or adds one. *)
Lemma append_outcome_run i x s row b s' :
  append_case_outcome sha256_hex dumps i x s = (Ok (row, b), s') →
  ∃ ty st key occurred safe, outcome_fields x = Ok (ty, st, key) ∧
    OutcomeInput.occurred_at x = Some occurred ∧
    sanitize_case_ledger_payload sha256_hex dumps (OutcomeInput.payload x) = Ok safe ∧
    match outcome_keyed i key s with
    | Some existing => row = existing ∧ b = false ∧ s' = s
    | None =>
        parent_valid i (OutcomeInput.parent_record_id x) s = true ∧ b = true ∧
        row = new_outcome i x ty st key safe (next_sequence i s) occurred (clock_at s)
                (tnext (Case.outcomes s)) ∧
        s' = ticked s <| Case.outcomes ::= fun T => table_add T
          (new_outcome i x ty st key safe (next_sequence i s) occurred (clock_at s)) |>
    end.
Proof.
  unfold append_case_outcome. intros H. minv H. unfold lift in Hm. injection Hm as Hf <-.
  destruct a as [[ty st] key]. minv H. unfold lift in Hm, Hm0.
  injection Hm as Hocc <-. injection Hm0 as Hsafe <-.
  destruct (OutcomeInput.occurred_at x) as [occ|]; [injection Hocc as <-|done].
  exists ty, st, key, occ, a0. split; [done|]. split; [done|]. split; [done|].
  destruct (outcome_keyed i key s) as [e|] eqn:Ek; minv H; [by simplify_eq|].
  unfold _lock_ticket in Hm. minv Hm. match type of Ek with outcome_keyed _ _ ?w = _ => rename w into s end.
  change (on_db Models.utc_now s) with (utc_now s) in Hm0. rewrite case_now_run in Hm0. injection Hm0 as <- <-. split; [done|].
  unfold try_catch in H. unfold insert_outcome in H.
  unfold mbind, M_bind in H.
  cbn [new_outcome CaseOutcomeRecord.ticket_id CaseOutcomeRecord.idempotency_key
       CaseOutcomeRecord.sequence] in H.
  change (outcome_keyed i key (ticked s)) with (outcome_keyed i key s) in H. rewrite Ek in H.
  change (outcomes_of i (ticked s)) with (outcomes_of i s) in H. rewrite sequence_free in H.
  injection H as <- <- <-. done.
Qed.

(** The ledger of a ticket has a record with a key. *)
Definition recorded (i : Z) (key : string) (s : Case.t) : Prop :=
  ∃ j row, table_get (Case.outcomes s) j = Some row ∧ CaseOutcomeRecord.ticket_id row = i ∧
    CaseOutcomeRecord.idempotency_key row = key.

Lemma append_outcome_recorded i x s p s' :
  append_case_outcome sha256_hex dumps i x s = (Ok p, s') →
  ∃ ty st key, outcome_fields x = Ok (ty, st, key) ∧ recorded i key s' ∧
    Case.desk s' = Case.desk s <| Desk.work ::= fun w => w <| Work.core ::= fun d =>
      d <| Db.ticks := Db.ticks (Case.core s') |> |> |>.
Proof.
  destruct p as [row b]. intros H.
  apply append_outcome_run in H as (ty & st & key & occ & safe & Hf & _ & _ & H).
  exists ty, st, key. split; [done|]. destruct (outcome_keyed i key s) as [e|] eqn:Ek.
  - destruct H as (_ & _ & ->). split; [|by destruct s as [[[[] ] ] ]].
    apply select_first_Some in Ek as (j & Hj & Hp). apply andb_true_iff in Hp as [Ht Hk].
    exists j, e. split; [done|]. split; [by apply Z.eqb_eq|by apply (bool_decide_eq_true_1 _)].
  - destruct H as (_ & _ & _ & ->). split; [|by destruct s as [[[[] ] ] ]].
    exists (tnext (Case.outcomes s)). eexists.
    split; [apply lookup_insert_eq|done].
Qed.
End Appending.

Section Closing.
Context (sha256_hex : string → string) (dumps : json → string) (loads : string → option json).
Context (message_updated_at : Z → option Z).
Context (loads_pairs : string → option json) (catalog_file : option string).

#[local] Abbreviation gate := (require_governed_closure_ready sha256_hex dumps loads message_updated_at).
#[local] Abbreviation change := (Closure.change_status sha256_hex dumps loads message_updated_at loads_pairs catalog_file).

Definition receipt_digest (receipt : list (string * json)) : string :=
  py_str (receipt_item receipt "receipt_sha256").

(** The key under which the ledger has a receipt *)
Definition receipt_key (receipt : list (string * json)) : result string :=
  normalized ("closure-receipt:" +:+ receipt_digest receipt) 180 "case_outcome_idempotency_required".

Lemma receipt_appended i user receipt s u s' :
  append_closure_receipt_event sha256_hex dumps i (Some (User.id user)) receipt s = (Ok u, s') →
  (∃ key, receipt_key receipt = Ok key ∧ recorded i key s') ∧
  Db.tickets (Case.core s') = Db.tickets (Case.core s) ∧
  Db.events (Case.core s') = Db.events (Case.core s) ++
    [receipt_event i (Some (User.id user)) receipt (receipt_digest receipt)].
Proof.
  unfold append_closure_receipt_event. intros H. minv H.
  change (on_db Models.utc_now) with utc_now in *. rewrite case_now_run in Hm. injection Hm as <- <-.
  apply append_outcome_recorded in Hm0 as (ty & st & key & Hf & Hrec & Hd).
  rewrite case_now_run in Hm1. injection Hm1 as <- <-.
  apply on_db_Ok in H as (Hl & Es & _). injection Hl as _ Hc.
  assert (Case.core s1 = Case.core s <| Db.ticks := Db.ticks (Case.core s1) |>) as Hc1
    by (unfold Case.core at 1; by rewrite Hd).
  split_and!.
  - exists key. split.
    + unfold outcome_fields in Hf. apply result_bind_Ok in Hf as (a & _ & Hf).
      apply result_bind_Ok in Hf as (b & _ & Hf). apply result_bind_Ok in Hf as (k & Hk & Hf).
      unfold receipt_key. cbn [closed_record OutcomeInput.idempotency_key] in Hk.
      destruct (negb _); [done|]. destruct (negb _); [done|]. injection Hf as _ _ <-. exact Hk.
    + rewrite Es. exact Hrec.
  - rewrite <- Hc. change (Db.tickets (Case.core s1) = Db.tickets (Case.core s)). by rewrite Hc1.
  - rewrite <- Hc. change (Db.events (Case.core s1) ++
      [receipt_event i (Some (User.id user)) receipt (receipt_digest receipt)] =
      Db.events (Case.core s) ++ [receipt_event i (Some (User.id user)) receipt (receipt_digest receipt)]).
    by rewrite Hc1.
Qed.

(** The state after a status change that the gate let through *)
Lemma closing_receipt_Ok i st s receipt s' :
  closing_receipt sha256_hex dumps loads message_updated_at i st s = (Ok receipt, s') →
  match receipt with
  | Some r => st = TicketStatus.closed ∧ ∃ t, ticket_at (Case.core s) i = Some t ∧ gate t s = (Ok r, s')
  | None => st ≠ TicketStatus.closed ∧ s' = s
  end.
Proof.
  unfold closing_receipt. case_bool_decide; intros H1; minv H1; [|by simplify_eq].
  apply on_db_ticket in Hm as [-> Ht]. by eauto.
Qed.

(** A core status change, with the listeners of its flush, on an assigned case *)
Lemma status_flushed i p user s r s' :
  sla_wf (Case.core s) → is_Some (current_assignment i s) →
  (∀ t, ticket_at (Case.core s) i = Some t → Ticket.id t = i) →
  flushed sha256_hex dumps loads_pairs catalog_file i (Tickets.change_status i p user) s = (Ok r, s') →
  ∃ t, ticket_at (Case.core s) i = Some t ∧ status_guards p user (Case.core s) t ∧
    Ticket.status r = TicketStatusChangeRequest.new_status p ∧ Ticket.id r = i ∧
    ticket_at (Case.core s') i = Some r.
Proof.
  intros W Ha Hid H. apply flushed_Ok in H as (before & after & s1 & Hb & Hm & Haft & Hu).
  apply on_db_Ok in Hm as (Hm & _ & Hcur).
  destruct (change_status_run i p user _ r _ W Hm) as (t & now & s2 & Ht & Hg & G & Hr & E & _).
  cbv zeta in *. assert (before = t) as -> by congruence.
  assert (ticket_at (Case.core s1) i = Some r) as Hr1 by (rewrite E; exact Hr).
  assert (after = r) as -> by congruence.
  set (st := TicketStatusChangeRequest.new_status p) in *.
  destruct (handled_intro i (moved st now) (first_breach i) (Case.core s) s2 r) as [_ (t' & Ht' & Hc) _ _ _ _];
    [by exists t|done..|]. assert (t' = t) as -> by congruence.
  assert (Ticket.texts t = Ticket.texts r) as Htx.
  { pose proof (f_equal Ticket.texts Hc) as E1. symmetry. change (Ticket.texts r =
      Ticket.texts (moved st now t)) in E1. rewrite E1. by destruct st. }
  assert (Ticket.id r = i) as Hi.
  { rewrite <- (Hid t Ht). pose proof (f_equal Ticket.id Hc) as E1. change (Ticket.id r =
      Ticket.id (moved st now t)) in E1. rewrite E1. by destruct st. }
  rewrite ticket_updated_rest in Hu; [injection Hu as <-|done|by rewrite Hi, Hcur].
  exists t. split_and!; try done. pose proof (f_equal Ticket.status Hc) as E1.
  change (Ticket.status r = Ticket.status (moved st now t)) in E1. rewrite E1. by destruct st.
Qed.

Lemma closable_assigned t now s : closable loads message_updated_at t now s →
  is_Some (current_assignment (Ticket.id t) s).
Proof. intros (i & Hg & _). unfold governing in Hg. by destruct (current_assignment _ s). Qed.

Lemma gate_Ok t s receipt s' : gate t s = (Ok receipt, s') →
  s' = ticked s ∧ closable loads message_updated_at t (clock_at s) s.
Proof.
  destruct (governed_snapshot sha256_hex dumps loads message_updated_at t s) as (x & Hx & Hr).
  unfold require_governed_closure_ready. rewrite (bind_run_Ok _ _ _ _ _ Hx). intros H. minv H.
  split; [congruence|]. by apply Hr.
Qed.

(** C15: no ticket is closed through the ticket service without its outcome: when
    [change_status] returns a closed ticket, the case was closable by the governed gate at the
    moment of the call, the caller may close it, the transition is one of the table, the note
    and the resolution category are there; the ledger of the ticket has the record of the
    receipt that the gate gave, and the last event of the ticket is that receipt. *)
Theorem closing_needs_outcome i p user s r s' t :
  sla_wf (Case.core s) → ticket_at (Case.core s) i = Some t → Ticket.id t = i →
  TicketStatusChangeRequest.new_status p = TicketStatus.closed →
  change i p user s = (Ok r, s') →
  closable loads message_updated_at t (clock_at s) s ∧
  status_guards p user (Case.core (ticked s)) t ∧
  Ticket.status r = TicketStatus.closed ∧ ticket_at (Case.core s') i = Some r ∧
  ∃ receipt key, gate t s = (Ok receipt, ticked s) ∧
    receipt_key receipt = Ok key ∧ recorded i key s' ∧
    list.last (Db.events (Case.core s')) =
      Some (receipt_event i (Some (User.id user)) receipt (receipt_digest receipt)).
Proof.
  intros W Ht Hid Hst H. unfold Closure.change_status in H. minv H.
  apply closing_receipt_Ok in Hm. destruct a as [receipt|]; [|by destruct Hm].
  destruct Hm as (_ & t' & Ht' & Hg). assert (t' = t) as -> by congruence.
  destruct (gate_Ok _ _ _ _ Hg) as [-> Hc].
  apply status_flushed in Hm0 as (t' & Ht1 & Hguards & Hs & Hi & Hr).
  - assert (t' = t) as -> by (change (ticket_at (Case.core s) i = Some t') in Ht1; congruence).
    minv H. apply receipt_appended in Hm as ((key & Hk & Hrec) & Htab & Hev).
    apply on_db_ticket in H as [-> Hr']. rewrite Hi in *.
    assert (ticket_at (Case.core s0) i = ticket_at (Case.core s1) i) as Etab
      by (unfold ticket_at; by rewrite Htab).
    assert (r = a0) as -> by congruence. rewrite Hst in Hs.
    split_and!; try done. exists receipt, key. split_and!; try done.
    rewrite Hev. by rewrite list.last_snoc.
  - destruct (guarded_tick i (Case.core s) (Case.core s)) as [W' _]; [|exact W'].
    split; [done|apply sla_frame_refl].
  - rewrite <- Hid. change (is_Some (current_assignment (Ticket.id t) s)).
    by eapply closable_assigned.
  - intros t0 H0. change (ticket_at (Case.core s) i = Some t0) in H0. congruence.
Qed.
End Closing.

(** ** Witnesses *)

Lemma case_sla_wf : sla_wf FixCase.db.
Proof.
  split; cbn; try apply table_wf_empty;
    try (intros j; intros; match goal with H : _ !! _ = Some _ |- _ => by rewrite lookup_empty in H end).
  intros n. unfold seconds, us_per_second. lia.
Qed.

Lemma closes : is_ok (fst (FixCase.close FixCase.shown)) = true.
Proof. vm_compute. reflexivity. Qed.

Lemma closing_needs_outcome_witness :
  ∃ r s', FixCase.close FixCase.shown = (Ok r, s') ∧
    closable FixCase.loads FixCase.message_updated_at FixCase.ticket (clock_at FixCase.shown)
      FixCase.shown ∧ Ticket.status r = TicketStatus.closed.
Proof.
  pose proof closes as H. destruct (FixCase.close FixCase.shown) as [[r|e] s'] eqn:E; [|discriminate H].
  exists r, s'. split; [done|].
  destruct (closing_needs_outcome FixCase.sha256_hex FixCase.dumps FixCase.loads
    FixCase.message_updated_at FixCase.loads_pairs None 2 FixCase.closing Fix.manager FixCase.shown r s'
    FixCase.ticket case_sla_wf) as (Hc & _ & Hs & _);
    [reflexivity|reflexivity|reflexivity|exact E|]. by split.
Defined.

Definition year_of (t : Z) : Z := fst (fst (civil (t / hours 24))).
(** The first scenario of the shipped catalog, with the years of its lifecycle *)
Definition first_shipped :=
  match shipped with
  | Ok c => match head (BusinessScenarioCatalog.scenarios c) with
            | Some i => let l := BusinessScenarioDefinition.lifecycle i in
                Some (year_of (ScenarioLifecycle.approved_at l),
                      year_of (ScenarioLifecycle.effective_from l),
                      year_of (ScenarioLifecycle.review_due l), ScenarioLifecycle.expires_at l)
            | None => None
            end
  | Err _ => None
  end.
Lemma first_shipped_years : first_shipped = Some (2026, 2026, 2027, None).
Proof. vm_compute. reflexivity. Qed.

Lemma shipped_dated : ∃ c i, shipped = Ok c ∧ i ∈ BusinessScenarioCatalog.scenarios c ∧
  dated (BusinessScenarioDefinition.lifecycle i).
Proof.
  pose proof first_shipped_years as H. unfold first_shipped in H.
  destruct shipped as [c|e]; [|discriminate H].
  destruct (head (BusinessScenarioCatalog.scenarios c)) as [i|] eqn:Ei; [|discriminate H].
  cbv zeta in H. injection H as H1 H2 H3 H4. exists c, i. split; [done|]. split.
  - destruct (BusinessScenarioCatalog.scenarios c); [done|]. injection Ei as ->. left.
  - unfold dated, in_years. unfold year_of in H1, H2, H3. rewrite H1, H2, H3, H4.
    split_and!; [lia..|]. by intros t ?.
Qed.

Lemma scenario_snapshot_roundtrip_witness :
  ∃ c i, shipped = Ok c ∧ i ∈ BusinessScenarioCatalog.scenarios c ∧
    let row := new_assignment FixCase.dumps 2 c i "ticket_insert" None None 0 1 in
    _scenario_from_assignment (fun _ => Some (sort_keys (_scenario_snapshot c i))) row
      (ScenarioLifecycle.effective_from (BusinessScenarioDefinition.lifecycle i)) =
    (if ScenarioLifecycle.is_active (BusinessScenarioDefinition.lifecycle i)
          (ScenarioLifecycle.effective_from (BusinessScenarioDefinition.lifecycle i)) then Ok i
     else Err (ValueError "case_scenario_not_runtime_active")).
Proof.
  destruct shipped_dated as (c & i & E & Hi & Hd). exists c, i. split; [done|]. split; [done|].
  apply (scenario_snapshot_roundtrip FixCase.dumps (fun _ => Some (sort_keys (_scenario_snapshot c i)))
    Shipped.catalog "sha" c i 2 "ticket_insert" None None 0 1); [exact E|exact Hi|exact Hd|reflexivity].
Defined.
