(* ===== verification/CaseHistory.v ===== *)
(** * The history of a case

    The ledgers only grow, whatever commands run on the cases: no record changes, keys and
    sequence numbers are unique in a ticket, a ticket has at most one current scenario and the
    contract of an assignment never changes.  A record of a failure therefore bars the closing of
    its ticket from then on. *)

From S2P Require Import Prelude Calendar Enums Models Fixtures Tenancy Permissions Sla.
From S2P Require Import Customers Tickets Lifecycle Work AiTurns Desk Plans Tasks Iso Catalog.
From S2P Require Import Scenarios Cases Closure ClosureRules.

(** ** What every state of the ledgers satisfies *)

(** The rows of [T0] are in [T] as they were. *)
Definition kept {R} (T0 T : Table R) : Prop := ∀ j r, trows T0 !! j = Some r → trows T !! j = Some r.

(** Rows that agree on [same] are the same row. *)
Definition unique_rows {R} (same : R → R → bool) (T : Table R) : Prop :=
  ∀ j k a b, trows T !! j = Some a → trows T !! k = Some b → same a b = true → j = k.

Lemma kept_added {R} (T0 T : Table R) mk : table_wf T → kept T0 T → kept T0 (table_add T mk).
Proof.
  intros W K j r Hj. apply K in Hj. rewrite lookup_table_add. case_decide as E; [|done].
  apply W in Hj. lia.
Qed.

Lemma unique_add {R} (same : R → R → bool) (T : Table R) mk :
  table_wf T → (∀ a b, same a b = same b a) → unique_rows same T →
  (∀ j a, trows T !! j = Some a → same (mk (tnext T)) a = false) →
  unique_rows same (table_add T mk).
Proof.
  intros W Hsym U Hnew j k a b. rewrite !lookup_table_add.
  case_decide as Ej; case_decide as Ek; [by intros; congruence| | |by apply U].
  - intros [= <-] Hb Hs. apply Hnew in Hb. congruence.
  - intros Ha [= <-] Hs. apply Hnew in Ha. rewrite Hsym in Ha. congruence.
Qed.

Definition same_key (a b : CaseOutcomeRecord.t) : bool :=
  (CaseOutcomeRecord.ticket_id a =? CaseOutcomeRecord.ticket_id b) &&
  bool_decide (CaseOutcomeRecord.idempotency_key a = CaseOutcomeRecord.idempotency_key b).
Definition same_sequence (a b : CaseOutcomeRecord.t) : bool :=
  (CaseOutcomeRecord.ticket_id a =? CaseOutcomeRecord.ticket_id b) &&
  (CaseOutcomeRecord.sequence a =? CaseOutcomeRecord.sequence b).
Definition both_current (a b : CaseScenarioAssignment.t) : bool :=
  (CaseScenarioAssignment.ticket_id a =? CaseScenarioAssignment.ticket_id b) &&
  negb (not_null (CaseScenarioAssignment.superseded_at a)) &&
  negb (not_null (CaseScenarioAssignment.superseded_at b)).

Record ledger_ok (s0 s : Case.t) : Prop := {
  lo_outcomes : table_wf (Case.outcomes s);
  lo_outcomes_kept : kept (Case.outcomes s0) (Case.outcomes s);
  lo_keys : unique_rows same_key (Case.outcomes s);
  lo_sequences : unique_rows same_sequence (Case.outcomes s);
  lo_parents : ∀ j r p, trows (Case.outcomes s) !! j = Some r →
    CaseOutcomeRecord.parent_record_id r = Some p →
    ∃ b, trows (Case.outcomes s) !! p = Some b ∧
         CaseOutcomeRecord.ticket_id b = CaseOutcomeRecord.ticket_id r;
  lo_evidence : table_wf (Case.evidence s);
  lo_evidence_kept : kept (Case.evidence s0) (Case.evidence s);
  lo_sources : unique_rows same_source (Case.evidence s);
  lo_scenarios : table_wf (Desk.scenarios (Case.desk s));
  lo_scenario_ids : ∀ j a, trows (Desk.scenarios (Case.desk s)) !! j = Some a →
    CaseScenarioAssignment.id a = j;
  lo_current : unique_rows both_current (Desk.scenarios (Case.desk s));
  lo_contracts : ∀ j a, trows (Desk.scenarios (Case.desk s0)) !! j = Some a →
    ∃ b, trows (Desk.scenarios (Case.desk s)) !! j = Some b ∧
         assignment_contract b = assignment_contract a }.

(** ** Steps that leave the ledgers alone *)

Lemma ok_same s0 s s' : Case.outcomes s' = Case.outcomes s → Case.evidence s' = Case.evidence s →
  Desk.scenarios (Case.desk s') = Desk.scenarios (Case.desk s) → ledger_ok s0 s → ledger_ok s0 s'.
Proof. intros E1 E2 E3 []. by split; rewrite ?E1, ?E2, ?E3. Qed.

Lemma ok_on_db {A} s0 (m : M Db.t A) : preserves (ledger_ok s0) (on_db m).
Proof.
  intros s H. unfold on_db, on_desk, on_work, on_core. destruct (m _) as [r d]. cbn.
  by eapply ok_same; [..|exact H].
Qed.

Lemma ok_utc_now s0 : preserves (ledger_ok s0) utc_now.
Proof. apply ok_on_db. Qed.

Lemma ok_case_ticked s0 s : ledger_ok s0 s → ledger_ok s0 (ticked s).
Proof. apply ok_utc_now. Qed.
#[export] Hint Resolve ok_on_db ok_utc_now ok_case_ticked : nexus.

(** ** Appending *)

Lemma eqb_sym_bool {A} `{EqDecision A} (x y : A) : bool_decide (x = y) = bool_decide (y = x).
Proof. apply bool_decide_ext. by split. Qed.

Lemma same_source_sym a b : same_source a b = same_source b a.
Proof. unfold same_source. repeat apply f_equal2; apply eqb_sym_bool. Qed.
Lemma same_key_sym a b : same_key a b = same_key b a.
Proof. unfold same_key. apply f_equal2; [apply Z.eqb_sym|apply eqb_sym_bool]. Qed.
Lemma same_sequence_sym a b : same_sequence a b = same_sequence b a.
Proof. unfold same_sequence. apply f_equal2; apply Z.eqb_sym. Qed.

Lemma ok_add_evidence s0 s mk : (∀ i j, same_source (mk i) (mk j) = true) → ledger_ok s0 s →
  evidence_like (mk (tnext (Case.evidence s))) s = None →
  ledger_ok s0 (s <| Case.evidence ::= fun T => table_add T mk |>).
Proof.
  intros Hmk H Hn. destruct H. split; try done; cbn.
  - by apply table_wf_add.
  - by apply kept_added.
  - apply unique_add; [done|apply same_source_sym|done|].
    unfold evidence_like in Hn. intros j a Ha. rewrite select_first_None in Hn. by eapply Hn.
Qed.

Lemma ok_add_outcome s0 s mk : ledger_ok s0 s →
  outcome_keyed (CaseOutcomeRecord.ticket_id (mk (tnext (Case.outcomes s))))
    (CaseOutcomeRecord.idempotency_key (mk (tnext (Case.outcomes s)))) s = None →
  existsb (fun r => CaseOutcomeRecord.sequence r =?
             CaseOutcomeRecord.sequence (mk (tnext (Case.outcomes s))))
    (outcomes_of (CaseOutcomeRecord.ticket_id (mk (tnext (Case.outcomes s)))) s) = false →
  parent_valid (CaseOutcomeRecord.ticket_id (mk (tnext (Case.outcomes s))))
    (CaseOutcomeRecord.parent_record_id (mk (tnext (Case.outcomes s)))) s = true →
  ledger_ok s0 (s <| Case.outcomes ::= fun T => table_add T mk |>).
Proof.
  set (row := mk _). intros H Hk Hq Hp. destruct H. split; try done; cbn.
  - by apply table_wf_add.
  - by apply kept_added.
  - apply unique_add; [done|apply same_key_sym|done|]. intros j a Ha. fold row.
    unfold outcome_keyed in Hk. rewrite select_first_None in Hk. rewrite same_key_sym.
    unfold same_key. by apply (Hk j).
  - apply unique_add; [done|apply same_sequence_sym|done|]. intros j a Ha. fold row.
    apply not_true_iff_false. intros [Et Es]%andb_true_iff. apply not_true_iff_false in Hq. apply Hq.
    apply existsb_exists. exists a. split; [|by rewrite Z.eqb_sym].
    apply list_elem_of_In, elem_of_select. exists j. split; [done|]. by rewrite Z.eqb_sym.
  - intros j r p. rewrite lookup_table_add. case_decide as Ej.
    + intros [= <-] Hpar. fold row in Hpar. unfold parent_valid in Hp. fold row. rewrite Hpar in Hp.
      unfold table_get in Hp. destruct (trows (Case.outcomes s) !! p) as [b|] eqn:Eb; [|done].
      exists b. apply Z.eqb_eq in Hp. split; [|done]. rewrite lookup_table_add, decide_False; [done|].
      intros E. apply lo_outcomes0 in Eb. lia.
    + intros Hr Hpar. destruct (lo_parents0 j r p Hr Hpar) as (b & Hb & Ht). exists b. split; [|done].
      rewrite lookup_table_add, decide_False; [done|]. intros E. apply lo_outcomes0 in Hb. lia.
Qed.

(** One step of a program, at a given state *)
Lemma after_bind {S A B} (P : S → Prop) (m : M S A) (k : A → M S B) s :
  match m s with (Ok a, s1) => P (snd (k a s1)) | (Err _, s1) => P s1 end → P (snd ((m ≫= k) s)).
Proof. unfold mbind, M_bind. by destruct (m s) as [[a|e] s1]. Qed.

Lemma after_try {S A} (P : S → Prop) (m : M S A) h s :
  match m s with (Ok a, s1) => P s1 | (Err e, s1) => P (snd (h e s1)) end → P (snd (try_catch m h s)).
Proof. unfold try_catch. by destruct (m s) as [[a|e] s1]. Qed.

Lemma ok_ticket_locked s0 i : preserves (ledger_ok s0) (_lock_ticket i).
Proof. unfold _lock_ticket. preserve. Qed.
#[export] Hint Resolve ok_ticket_locked : nexus.

Section Ops.
Context (sha256_hex : string → string) (dumps : json → string) (loads : string → option json).
Context (message_updated_at : Z → option Z).
Context (loads_pairs : string → option json) (catalog_file : option string).
Context (s0 : Case.t).

Lemma ok_append i x : preserves (ledger_ok s0) (append_case_outcome sha256_hex dumps i x).
Proof.
  intros s H. unfold append_case_outcome.
  apply after_bind. unfold lift at 1. destruct (outcome_fields x) as [[[ty st] key]|e]; [|done].
  apply after_bind. unfold lift at 1. destruct (OutcomeInput.occurred_at x) as [occ|]; [|done].
  apply after_bind. unfold lift at 1. destruct (sanitize_case_ledger_payload _ _ _) as [safe|e]; [|done].
  apply after_bind. unfold get at 1. destruct (outcome_keyed i key s) as [e|] eqn:Ek.
  { apply after_bind. by destruct (bool_decide _). }
  apply after_bind. unfold _lock_ticket. unfold mbind at 1, M_bind at 1, get at 1.
  destruct (not_null _); [|done]. cbn [require mret M_ret].
  unfold mret at 1, M_ret at 1. apply after_bind.
  destruct (parent_valid i (OutcomeInput.parent_record_id x) s) eqn:Hp; [|done].
  cbn [require]. unfold mret at 1, M_ret at 1. apply after_bind. rewrite case_now_run.
  apply after_try. unfold mbind at 1, M_bind at 1, insert_outcome.
  cbn [new_outcome CaseOutcomeRecord.ticket_id CaseOutcomeRecord.idempotency_key
       CaseOutcomeRecord.sequence].
  change (outcome_keyed i key (ticked s)) with (outcome_keyed i key s). rewrite Ek.
  change (outcomes_of i (ticked s)) with (outcomes_of i s). rewrite sequence_free.
  cbn [not_null]. unfold mret, M_ret. apply ok_add_outcome; cbn [new_outcome CaseOutcomeRecord.ticket_id
    CaseOutcomeRecord.idempotency_key CaseOutcomeRecord.sequence CaseOutcomeRecord.parent_record_id];
    [by apply ok_case_ticked|done|apply (sequence_free i s)|done].
Qed.

Lemma ok_insert_evidence mk : (∀ i j, same_source (mk i) (mk j) = true) →
  preserves (ledger_ok s0) (insert_evidence mk).
Proof.
  intros Hmk s H. unfold insert_evidence.
  destruct (evidence_like (mk (tnext (Case.evidence s))) s) eqn:E; [done|]. by apply ok_add_evidence.
Qed.

(** A row and its copy with another digest, time or id have the same source. *)
Lemma evidence_row_source i x mk : evidence_row sha256_hex dumps i x = Ok mk →
  ∀ d t j d' t' j', same_source (mk d t j) (mk d' t' j') = true.
Proof.
  unfold evidence_row. intros H. repeat (apply result_bind_Ok in H as (? & _ & H)).
  destruct (negb _); [done|]. destruct (negb _); [done|].
  destruct (EvidenceInput.observed_at x); [|done]. apply result_bind_Ok in H as (? & _ & H).
  injection H as <-. intros. unfold same_source; cbn.
  by rewrite !bool_decide_true.
Qed.

Lemma ok_record_evidence i x : preserves (ledger_ok s0) (record_case_evidence sha256_hex dumps i x).
Proof.
  intros s H. unfold record_case_evidence. apply after_bind. unfold lift at 1.
  destruct (evidence_row sha256_hex dumps i x) as [mk|e] eqn:Emk; [|done].
  pose proof (evidence_row_source i x mk Emk) as Hs.
  apply preserves_bind; [apply preserves_get|intros s1|exact H].
  destruct (evidence_like _ s1) as [e|]; [preserve|].
  preserve; auto with nexus. apply ok_insert_evidence. by intros.
Qed.
#[local] Hint Resolve ok_append ok_record_evidence : nexus.

Lemma ok_append_receipt i a r :
  preserves (ledger_ok s0) (append_closure_receipt_event sha256_hex dumps i a r).
Proof. unfold append_closure_receipt_event. preserve. Qed.
Lemma ok_invalidate i a r :
  preserves (ledger_ok s0) (invalidate_latest_closure_receipt sha256_hex dumps i a r).
Proof. unfold invalidate_latest_closure_receipt. preserve. Qed.
Lemma ok_record_closure t u x :
  preserves (ledger_ok s0) (record_closure_evidence sha256_hex dumps loads t u x).
Proof. unfold record_closure_evidence. preserve. Qed.
#[local] Hint Resolve ok_append_receipt ok_invalidate ok_record_closure : nexus.

(** ** Scenarios *)

Lemma no_current i s : current_assignment i s = None ↔
  ∀ j a, trows (Desk.scenarios (Case.desk s)) !! j = Some a →
    CaseScenarioAssignment.ticket_id a = i → not_null (CaseScenarioAssignment.superseded_at a) = true.
Proof.
  unfold current_assignment, current_case_scenario_assignment, last_where, rows_where.
  rewrite list.last_None, select_nil. split.
  - intros H j a Ha Ht. pose proof (H j a Ha) as E. cbv beta in E. rewrite Ht, Z.eqb_refl in E.
    by destruct (not_null _).
  - intros H j a Ha. destruct (CaseScenarioAssignment.ticket_id a =? i) eqn:E; [|done].
    apply Z.eqb_eq in E. by rewrite (H j a Ha E).
Qed.

Lemma current_Some i s a : current_assignment i s = Some a →
  ∃ j, trows (Desk.scenarios (Case.desk s)) !! j = Some a ∧
    CaseScenarioAssignment.ticket_id a = i ∧ CaseScenarioAssignment.superseded_at a = None.
Proof.
  unfold current_assignment, current_case_scenario_assignment, last_where, rows_where.
  intros (l & E)%list.last_Some. assert (a ∈ l ++ [a]) as Ha by (apply elem_of_app; right; left).
  rewrite <- E in Ha. apply elem_of_select in Ha as (j & Hj & [Ht Hn]%andb_true_iff).
  exists j. split; [done|]. split; [by apply Z.eqb_eq|]. by destruct (CaseScenarioAssignment.superseded_at a).
Qed.

Lemma ok_add_assignment i c sc src reason actor at_ :
  preserves (ledger_ok s0)
    (Cases.add_assignment i (new_assignment dumps i c sc src reason actor at_)).
Proof.
  intros s H. unfold Cases.add_assignment. apply after_bind. unfold get at 1. apply after_bind.
  destruct (current_assignment i s) as [a|] eqn:E; [done|]. cbn [not_null negb require].
  unfold mret at 1, M_ret at 1. rewrite no_current in E. destruct H. split; try done; cbn.
  - by apply table_wf_add.
  - intros j a. rewrite lookup_table_add. case_decide as Ej; [by intros [= <-]|apply lo_scenario_ids0].
  - apply unique_add; [done| |done|].
    + intros a b. unfold both_current. rewrite Z.eqb_sym. by rewrite <- !andb_assoc, (andb_comm (negb _)).
    + intros j a Ha. unfold both_current. cbn. destruct (i =? CaseScenarioAssignment.ticket_id a) eqn:Et; [|done].
      apply Z.eqb_eq in Et. by rewrite (E j a Ha).
  - intros j a Ha. destruct (lo_contracts0 j a Ha) as (b & Hb & Hc). exists b. split; [|done].
    rewrite lookup_table_add, decide_False; [done|]. intros Ej. apply lo_scenarios0 in Hb. lia.
Qed.

Lemma none_selected (l : list (string * bool)) :
  (fst <$> filter (fun c => snd c = true) l) = [] ↔ Forall (fun c => snd c = false) l.
Proof.
  induction l as [|[k b] l IH]; [by split|]. rewrite Forall_cons_iff, <- IH. cbn [snd].
  rewrite filter_cons. case_decide as E; cbn in E; [subst b; by split; [|intros [? _]]|].
  destruct b; [done|]. tauto.
Qed.

Lemma contract_same a b : contract_changes a b = [] ↔ assignment_contract a = assignment_contract b.
Proof.
  unfold contract_changes, assignment_contract. cbv zeta. rewrite none_selected, !Forall_cons_iff, Forall_nil_iff.
  cbn [snd]. rewrite !negb_false_iff, !bool_decide_eq_true. split.
  - intros (-> & -> & -> & -> & -> & -> & -> & -> & -> & _). done.
  - intros [=]. by split_and!.
Qed.

Lemma ok_put_assignment s i a b : trows (Desk.scenarios (Case.desk s)) !! i = Some a →
  CaseScenarioAssignment.id b = CaseScenarioAssignment.id a →
  assignment_contract b = assignment_contract a →
  (not_null (CaseScenarioAssignment.superseded_at a) = true →
   not_null (CaseScenarioAssignment.superseded_at b) = true) →
  ledger_ok s0 s → ledger_ok s0 (s <| Case.desk ::= fun d => d <| Desk.scenarios ::= table_put i b |> |>).
Proof.
  intros Ha Hid Hc Hsup H. destruct H.
  assert (CaseScenarioAssignment.ticket_id b = CaseScenarioAssignment.ticket_id a) as Ht by (unfold assignment_contract in Hc; congruence).
  assert (∀ x, both_current b x = true → both_current a x = true) as Hb.
  { intros x. unfold both_current. rewrite Ht. destruct (not_null (CaseScenarioAssignment.superseded_at a)).
    - by rewrite Hsup, !andb_false_r.
    - by destruct (not_null (CaseScenarioAssignment.superseded_at b)); [rewrite !andb_false_r|]. }
  assert (∀ x y, both_current x y = both_current y x) as Hsym.
  { intros x y. unfold both_current. by rewrite Z.eqb_sym, <- !andb_assoc, (andb_comm (negb _)). }
  split; try done; cbn.
  - by apply table_wf_put.
  - intros j x. rewrite lookup_table_put. case_decide as Ej; [|apply lo_scenario_ids0].
    intros [= <-]. rewrite Hid. subst j. by apply lo_scenario_ids0.
  - intros j k x y. rewrite !lookup_table_put. case_decide; case_decide; try congruence.
    + intros [= <-] Hy Hxy. subst. by eapply lo_current0; [exact Ha|exact Hy|apply Hb].
    + intros Hx [= <-] Hxy. subst. rewrite Hsym in Hxy. symmetry.
      by eapply lo_current0; [exact Ha|exact Hx|apply Hb].
    + apply lo_current0.
  - intros j x Hx. destruct (lo_contracts0 j x Hx) as (y & Hy & Hxy). rewrite lookup_table_put.
    case_decide; [|by exists y]. subst j. exists b. split; [done|]. congruence.
Qed.

Lemma ok_set_assignment i f :
  (∀ a, CaseScenarioAssignment.id (f a) = CaseScenarioAssignment.id a) →
  (∀ a, not_null (CaseScenarioAssignment.superseded_at a) = true →
        not_null (CaseScenarioAssignment.superseded_at (f a)) = true) →
  preserves (ledger_ok s0) (set_assignment i f).
Proof.
  intros Hid Hsup s H. unfold set_assignment. apply after_bind.
  unfold on_desk at 1, the_row. change (row_at (R := CaseScenarioAssignment.t) (Case.desk s) i) with
    (trows (Desk.scenarios (Case.desk s)) !! i).
  destruct (trows (Desk.scenarios (Case.desk s)) !! i) as [a|] eqn:Ea;
    [|by eapply ok_same; [..|exact H]].
  apply after_bind. unfold _guard_assignment_contract_immutable.
  destruct (bool_decide _) eqn:Eg; [|by eapply ok_same; [..|exact H]].
  apply bool_decide_eq_true, contract_same in Eg. cbn [require]. unfold mret at 1, M_ret at 1.
  unfold on_desk, set_row, modify. cbn [snd].
  eapply ok_same; [..|apply (ok_put_assignment s i a (f a)); eauto]; try done.
  unfold upd_row. change (row_at (Case.desk (s <| Case.desk := Case.desk s |>)) i) with
    (trows (Desk.scenarios (Case.desk s)) !! i). by rewrite Ea.
Qed.
#[local] Hint Resolve ok_add_assignment : nexus.

Lemma ok_catalog : preserves (ledger_ok s0)
  (load_runtime_scenario_catalog sha256_hex loads_pairs catalog_file).
Proof. unfold load_runtime_scenario_catalog. preserve. Qed.
Lemma ok_in_force c k : preserves (ledger_ok s0) (scenario_in_force c k).
Proof. unfold scenario_in_force. preserve. Qed.
#[local] Hint Resolve ok_catalog ok_in_force : nexus.
Lemma ok_case_candidate t c : preserves (ledger_ok s0) (resolve_candidate_scenario t c).
Proof. unfold resolve_candidate_scenario. preserve. Qed.
Lemma ok_explicit c k : preserves (ledger_ok s0) (resolve_explicit_scenario c k).
Proof. unfold resolve_explicit_scenario. preserve. Qed.
#[local] Hint Resolve ok_case_candidate ok_explicit : nexus.

Lemma ok_reclassify i k r a : preserves (ledger_ok s0)
  (reclassify_case_scenario sha256_hex dumps loads_pairs catalog_file i k r a).
Proof.
  unfold reclassify_case_scenario. preserve; apply ok_set_assignment; intros; done.
Qed.
Lemma ok_automatic i src : preserves (ledger_ok s0)
  (_insert_automatic_assignment sha256_hex dumps loads_pairs catalog_file i src).
Proof. unfold _insert_automatic_assignment. preserve. Qed.
#[local] Hint Resolve ok_reclassify ok_automatic : nexus.
Lemma ok_updated b a : preserves (ledger_ok s0)
  (ticket_updated sha256_hex dumps loads_pairs catalog_file b a).
Proof. unfold ticket_updated, _guard_scenario_identity_update. preserve. Qed.
#[local] Hint Resolve ok_updated : nexus.
Lemma ok_flushed {A} i (m : M Db.t A) : preserves (ledger_ok s0)
  (flushed sha256_hex dumps loads_pairs catalog_file i m).
Proof. unfold flushed. preserve. Qed.
#[local] Hint Resolve ok_flushed : nexus.

(** ** The commands on cases *)

Lemma ok_gate t : preserves (ledger_ok s0)
  (require_governed_closure_ready sha256_hex dumps loads message_updated_at t).
Proof.
  unfold require_governed_closure_ready, build_governed_closure_snapshot, build_closure_snapshot.
  preserve.
Qed.
#[local] Hint Resolve ok_gate : nexus.
Lemma ok_closing_receipt i st : preserves (ledger_ok s0)
  (closing_receipt sha256_hex dumps loads message_updated_at i st).
Proof. unfold closing_receipt. preserve. Qed.
#[local] Hint Resolve ok_closing_receipt : nexus.

Lemma ok_desk_part {A} (m : M Desk.t A) :
  (∀ d, Desk.scenarios (snd (m d)) = Desk.scenarios d) → preserves (ledger_ok s0) (on_desk m).
Proof.
  intros Hm s H. unfold on_desk. specialize (Hm (Case.desk s)). destruct (m _) as [r d]. cbn in *.
  by eapply ok_same; [..|exact H].
Qed.

Lemma ok_conversation c (f : WebchatConversation.t → _) : preserves (ledger_ok s0) (on_desk (set_row c f)).
Proof. apply ok_desk_part. intros d. unfold set_row, modify, upd_row. cbn. by destruct (row_at d c). Qed.
Lemma ok_case_control k (f : ConversationControl.t → _) : preserves (ledger_ok s0) (on_desk (set_row k f)).
Proof. apply ok_desk_part. intros d. unfold set_row, modify, upd_row. cbn. by destruct (row_at d k). Qed.
Lemma ok_row {R} `{Stored R} i : preserves (ledger_ok s0) (on_desk (the_row (R := R) i)).
Proof. apply ok_desk_part. intros d. unfold the_row. by destruct (row_at d i). Qed.
Lemma ok_case_work {A} (m : M Work.t A) : preserves (ledger_ok s0) (on_desk (on_work m)).
Proof. apply ok_desk_part. intros d. unfold on_work. by destruct (m _). Qed.
#[local] Hint Resolve ok_conversation ok_case_control ok_row ok_case_work : nexus.

Lemma ok_recontact i src ext a : preserves (ledger_ok s0)
  (reopen_ticket_from_customer_message sha256_hex dumps loads_pairs catalog_file i src ext a).
Proof. unfold reopen_ticket_from_customer_message. preserve. Qed.
Lemma ok_update_fields i u p l : preserves (ledger_ok s0)
  (Closure.update_fields sha256_hex dumps loads_pairs catalog_file i u p l).
Proof. induction l as [|f l IH]; cbn [Closure.update_fields]; preserve. Qed.
#[local] Hint Resolve ok_recontact ok_update_fields : nexus.
End Ops.

(** ** Histories *)

(** The commands on cases: of the agents, of the channels, and of the automations that append to
    the ledgers *)
Inductive case_op :=
| RecordEvidence (i : Z) (x : EvidenceInput.t)
| AppendOutcome (i : Z) (x : OutcomeInput.t)
| RecordClosureEvidence (t : Ticket.t) (user : User.t) (x : ClosureEvidence.t)
| Reclassify (i : Z) (scenario_key reason : string) (actor : option Z)
| CreateTicket (p : TicketCreate.t) (user : User.t)
| UpdateTicket (i : Z) (p : TicketUpdate.t) (user : User.t)
| AssignTicket (i : Z) (p : TicketAssignRequest.t) (user : User.t)
| EscalateTicket (i : Z) (p : TicketEscalateRequest.t) (user : User.t)
| ChangeStatus (i : Z) (p : TicketStatusChangeRequest.t) (user : User.t)
| ReopenTicket (i : Z) (p : TicketReopenRequest.t) (user : User.t)
| Recontact (cid kid : Z) (ticket : option Z) (source message : string)
| OnTicket (m : M Db.t unit).

Section History.
Context (sha256_hex : string → string) (dumps : json → string) (loads : string → option json).
Context (message_updated_at : Z → option Z) (delivered : Z → string → bool).
Context (loads_pairs : string → option json) (catalog_file : option string).

Definition run_case_op (s : Case.t) (o : case_op) : Case.t :=
  match o with
  | RecordEvidence i x => snd (record_case_evidence sha256_hex dumps i x s)
  | AppendOutcome i x => snd (append_case_outcome sha256_hex dumps i x s)
  | RecordClosureEvidence t u x => snd (record_closure_evidence sha256_hex dumps loads t u x s)
  | Reclassify i k r a =>
      snd (reclassify_case_scenario sha256_hex dumps loads_pairs catalog_file i k r a s)
  | CreateTicket p u => snd (Closure.create_ticket sha256_hex dumps loads_pairs catalog_file p u s)
  | UpdateTicket i p u =>
      snd (Closure.update_ticket sha256_hex dumps loads_pairs catalog_file i p u s)
  | AssignTicket i p u =>
      snd (Closure.assign_ticket sha256_hex dumps loads_pairs catalog_file i p u s)
  | EscalateTicket i p u =>
      snd (Closure.escalate_ticket sha256_hex dumps loads_pairs catalog_file i p u s)
  | ChangeStatus i p u => snd (Closure.change_status sha256_hex dumps loads message_updated_at
                                 loads_pairs catalog_file i p u s)
  | ReopenTicket i p u =>
      snd (Closure.reopen_ticket sha256_hex dumps loads_pairs catalog_file i p u s)
  | Recontact c k t src m => snd (reopen_from_customer_message sha256_hex dumps loads_pairs
                                    catalog_file delivered c k t src m s)
  | OnTicket m => snd (on_db m s)
  end.

Lemma case_op_ok s0 o s : ledger_ok s0 s → ledger_ok s0 (run_case_op s o).
Proof.
  intros H. destruct o; cbn [run_case_op]; revert s H;
    lazymatch goal with |- ∀ s, _ → ledger_ok s0 (snd (?m s)) =>
      change (preserves (ledger_ok s0) m) end;
    unfold Closure.create_ticket, Closure.update_ticket, Closure.assign_ticket,
      Closure.escalate_ticket, Closure.change_status, Closure.reopen_ticket,
      reopen_from_customer_message; preserve;
    eauto using ok_record_evidence, ok_append, ok_record_closure, ok_reclassify, ok_automatic,
      ok_flushed, ok_update_fields, ok_closing_receipt, ok_append_receipt, ok_invalidate,
      ok_recontact, ok_conversation, ok_case_control, ok_row, ok_case_work, ok_on_db with nexus.
Qed.

Lemma ok_case_history s0 ops s : ledger_ok s0 s → ledger_ok s0 (foldl run_case_op s ops).
Proof. revert s. induction ops as [|o ops IH]; intros s H; [done|]. by apply IH, case_op_ok. Qed.

(** C17: the ledgers of the cases are append-only and coherent, whatever commands run, in any
    order and whether they return or raise: no record of evidence or of an outcome that was there
    changes or disappears, an idempotency key and a sequence number belong to one record of a
    ticket, the parent of a record is a record of the same ticket, an observation is recorded once
    per revision of its source; a ticket has at most one current scenario, and what an assignment
    was made from never changes. *)
Theorem case_ledger_history ops s0 : ledger_ok s0 s0 →
  ledger_ok s0 (foldl run_case_op s0 ops).
Proof. apply ok_case_history. Qed.

(** *** A failure bars the closing of its ticket *)

(** The ledgers of the ticket hold a failure. *)
Definition failure_recorded (i : Z) (s : Case.t) : Prop :=
  (∃ j r, trows (Case.outcomes s) !! j = Some r ∧ CaseOutcomeRecord.ticket_id r = i ∧
     CaseOutcomeRecord.state r ∈ ["failed"; "repair_required"]) ∨
  (∃ j r, trows (Case.evidence s) !! j = Some r ∧ CaseEvidenceRecord.ticket_id r = i ∧
     CaseEvidenceRecord.state r = "failed").

Lemma failure_kept i s0 s : ledger_ok s0 s → failure_recorded i s0 → failure_recorded i s.
Proof.
  intros H [(j & r & Hj & Hr)|(j & r & Hj & Hr)].
  - left. exists j, r. split; [by apply H|done].
  - right. exists j, r. split; [by apply H|done].
Qed.

Lemma evidence_repair p r : CaseLedgerProjection.repair_required p = true →
  CaseLedgerProjection.repair_required (project_evidence p r) = true.
Proof. intros H. unfold project_evidence. by repeat case_match. Qed.
Lemma evidence_fails p r : CaseEvidenceRecord.state r = "failed" →
  CaseLedgerProjection.repair_required (project_evidence p r) = true.
Proof. intros H. unfold project_evidence. by rewrite H. Qed.
Lemma outcome_repair p r : CaseLedgerProjection.repair_required p = true →
  CaseLedgerProjection.repair_required (project_outcome p r) = true.
Proof. intros H. unfold project_outcome. cbv zeta. by repeat case_match. Qed.
Lemma outcome_fails p r : CaseOutcomeRecord.state r ∈ ["failed"; "repair_required"] →
  CaseLedgerProjection.repair_required (project_outcome p r) = true.
Proof.
  intros H. unfold project_outcome. cbv zeta. rewrite (bool_decide_true _ H). by repeat case_match.
Qed.

Lemma fold_repair {R} (f : CaseLedgerProjection.t → R → CaseLedgerProjection.t) (bad : R → Prop) l p :
  (∀ p r, CaseLedgerProjection.repair_required p = true →
          CaseLedgerProjection.repair_required (f p r) = true) →
  (∀ p r, bad r → CaseLedgerProjection.repair_required (f p r) = true) →
  CaseLedgerProjection.repair_required p = true ∨ (∃ r, r ∈ l ∧ bad r) →
  CaseLedgerProjection.repair_required (fold_left f l p) = true.
Proof.
  intros Hk Hb. revert p. induction l as [|r l IH]; intros p H; cbn.
  - destruct H as [H|(r & Hr & _)]; [done|by apply elem_of_nil in Hr].
  - apply IH. destruct H as [H|(x & [->|Hx]%elem_of_cons & Hbad)]; [left; by apply Hk|left; by apply Hb|].
    right. by exists x.
Qed.

Lemma failure_projected i s : failure_recorded i s →
  CaseLedgerProjection.repair_required (project_case_ledger i s) = true.
Proof.
  intros H. unfold project_case_ledger.
  apply (fold_repair _ (fun r => CaseOutcomeRecord.state r ∈ ["failed"; "repair_required"]));
    [apply outcome_repair|apply outcome_fails|].
  destruct H as [(j & r & Hj & Ht & Hs)|(j & r & Hj & Ht & Hs)].
  - right. exists r. split; [|done]. apply elem_of_sort_by, elem_of_select. exists j.
    split; [done|by apply Z.eqb_eq].
  - left. apply (fold_repair _ (fun r => CaseEvidenceRecord.state r = "failed"));
      [apply evidence_repair|apply evidence_fails|]. right. exists r. split; [|done].
    apply elem_of_sort_by, elem_of_select. exists j. split; [done|by apply Z.eqb_eq].
Qed.

(** C18: a failure is final for the gate.  Once the ledgers hold a failed observation, a failed
    outcome or a required repair for a ticket, no command on the cases leads to a state in which
    the service closes it: [change_status] to closed raises whoever calls it, and leaves the
    tickets as they are. *)
Theorem failure_bars_closing ops s0 i p user :
  let s := foldl run_case_op s0 ops in
  ledger_ok s0 s0 → failure_recorded i s0 →
  (∀ t, ticket_at (Case.core s) i = Some t → Ticket.id t = i) →
  TicketStatusChangeRequest.new_status p = TicketStatus.closed →
  let (r, s') := Closure.change_status sha256_hex dumps loads message_updated_at
                   loads_pairs catalog_file i p user s in
  is_ok r = false ∧ Db.tickets (Case.core s') = Db.tickets (Case.core s).
Proof.
  intros s Hok Hf Hid Hst. apply (failure_kept i s0 s) in Hf; [|by apply ok_case_history].
  unfold Closure.change_status. rewrite Hst. unfold closing_receipt. rewrite bool_decide_true by done.
  unfold mbind, M_bind. unfold get_ticket_or_404.
  destruct (on_db (the_ticket i) s) as [[t|e] s1] eqn:Et; cbn.
  - apply on_db_ticket in Et as [-> Ht].
    destruct (require_governed_closure_ready _ _ _ _ t s) as [[receipt|e] s2] eqn:Eg.
    + apply gate_Ok in Eg as [_ (k & _ & D & _)]. destruct D as [_ _ _ _ _ Hr _ _].
      cbn in Hr. apply orb_false_iff in Hr as [Hr _]. rewrite (Hid t Ht) in Hr.
      by rewrite failure_projected in Hr.
    + destruct (governed_snapshot sha256_hex dumps loads message_updated_at t s) as (x & Hx & _).
      unfold require_governed_closure_ready in Eg. rewrite (bind_run_Ok _ _ _ _ _ Hx) in Eg.
      destruct (ScenarioReadiness.closure_ready _); [done|]. by injection Eg as _ <-.
  - split; [done|]. pose proof (proj2 (on_db_run (the_ticket i) s)) as E. rewrite Et in E. cbn in E.
    rewrite E. unfold the_ticket. by destruct (ticket_at _ i).
Qed.
End History.

(** ** Witnesses *)

Lemma ok_failed : ledger_ok FixCase.failed FixCase.failed.
Proof.
  assert (∀ R (x : R) j r, ({[1 := x]} : gmap Z R) !! j = Some r → j = 1 ∧ r = x) as H.
  { intros R x j r [<- <-]%lookup_singleton_Some. done. }
  split; cbn; try done;
    try (intros j r Hj; apply H in Hj as [-> ->]; cbn; done);
    try (intros j k a b Ha Hb _; apply H in Ha as [-> _]; by apply H in Hb as [-> _]);
    try (intros j r Hj; by rewrite lookup_empty in Hj).
  - intros j r p Hj. apply H in Hj as [-> ->]. done.
  - intros j a Hj. by exists a.
Qed.

Lemma case_ledger_history_witness :
  ledger_ok FixCase.failed (foldl (run_case_op FixCase.sha256_hex FixCase.dumps FixCase.loads
    FixCase.message_updated_at FixCase.delivered FixCase.loads_pairs None) FixCase.failed
    [RecordClosureEvidence FixCase.ticket Fix.manager FixCase.failed_lookup;
     ChangeStatus 2 FixCase.closing Fix.manager]).
Proof.
  apply (case_ledger_history FixCase.sha256_hex FixCase.dumps FixCase.loads
    FixCase.message_updated_at FixCase.delivered FixCase.loads_pairs None). exact ok_failed.
Defined.

Lemma failure_bars_closing_witness :
  is_ok (fst (FixCase.close FixCase.failed)) = false.
Proof.
  pose proof (failure_bars_closing FixCase.sha256_hex FixCase.dumps FixCase.loads
    FixCase.message_updated_at FixCase.delivered FixCase.loads_pairs None [] FixCase.failed 2
    FixCase.closing Fix.manager ok_failed) as H. cbv zeta in H. unfold FixCase.close.
  change (foldl _ FixCase.failed []) with FixCase.failed in H.
  destruct (Closure.change_status _ _ _ _ _ _ _ _ _ FixCase.failed) as [r s'].
  apply H; [|intros t [= <-]; reflexivity|reflexivity].
  left. exists 1. eexists. split; [reflexivity|]. split; [reflexivity|]. left.
Defined.

(** ** A second reopening *)

Definition reopening : TicketReopenRequest.t :=
  {| TicketReopenRequest.reason := "Customer called again";
     TicketReopenRequest.assign_to_previous := true; TicketReopenRequest.restore_team := true |}.
Definition resolving : TicketStatusChangeRequest.t :=
  {| TicketStatusChangeRequest.new_status := TicketStatus.resolved;
     TicketStatusChangeRequest.note := None |}.
Definition run_fix := run_case_op FixCase.sha256_hex FixCase.dumps FixCase.loads
  FixCase.message_updated_at FixCase.delivered FixCase.loads_pairs None.
Definition reopen_fix := Closure.reopen_ticket FixCase.sha256_hex FixCase.dumps
  FixCase.loads_pairs None 2 reopening Fix.manager.
Definition fix_closed : Case.t := run_fix FixCase.shown (ChangeStatus 2 FixCase.closing Fix.manager).
(** Closed, reopened, resolved again *)
Definition fix_resolved : Case.t := foldl run_fix fix_closed
  [ReopenTicket 2 reopening Fix.manager; ChangeStatus 2 resolving Fix.manager].
Definition fix_status (s : Case.t) : option TicketStatus.t :=
  Ticket.status <$> ticket_at (Case.core s) 2.

