(* ===== verification/Lite.v ===== *)
(** * The lite cases

    [services/lite_service.py]: the commands of the lite interface on tickets, over the ticket
    service of Closure.v.  What a command returns is the ticket; the reply that
    [serialize_lite_case] makes of it is not modelled.

    [LiteCaseCreate] and [LiteCaseUpdate] have no attribute [market_id]: reading it raises
    [AttributeError], here as in the program. *)

From S2P Require Import Prelude Calendar Enums Models Fixtures Tenancy Permissions Sla.
From S2P Require Import Customers Tickets Lifecycle Work AiTurns Desk Plans Tasks Iso Catalog.
From S2P Require Import Scenarios Cases Closure ClosureRules.

Import StateMachine.

(** ** Requests *)

(** The attributes that only the [TicketCreate] of a new case would get are left out. *)
Module LiteCaseCreate.
Record t := {
  case_type : option string; issue_summary : string; customer_request : string;
  priority : option string; customer_name : option string; customer_contact : option string;
  tracking_number : option string; channel : option string; source_chat_id : option string;
  assigned_to : option Z; team_id : option Z; required_action : option string;
  missing_fields : option string; last_customer_message : option string;
  customer_update : option string; upsert_open_case : bool }.
End LiteCaseCreate.

Module LiteAssignRequest.
Record t := { assignee_id : option Z; team_id : option Z }.
End LiteAssignRequest.

(** [assignee_id] and [team_id] are [None] when the request does not set them, and [Some None] when
    it sets them to null. *)
Module LiteWorkflowUpdateRequest.
Record t := {
  required_action : option string; missing_fields : option string;
  customer_update : option string; resolution_summary : option string;
  assignee_id : option (option Z); team_id : option (option Z); status : option string;
  human_note : option string }.
End LiteWorkflowUpdateRequest.

Module LiteAIIntakeRequest.
Record t := {
  ai_summary : option string; case_type : option string;
  suggested_required_action : option string; missing_fields : option string;
  last_customer_message : option string }.
End LiteAIIntakeRequest.

(** ** Vocabulary *)

Definition LITE_STATUS_ORDER : list string :=
  ["new"; "pending_human"; "in_progress"; "waiting_customer"; "resolved"; "closed"].

Definition _internal_to_lite (st : TicketStatus.t) : string :=
  match st with
  | TicketStatus.new => "new"
  | TicketStatus.pending_assignment | TicketStatus.waiting_internal
  | TicketStatus.escalated => "pending_human"
  | TicketStatus.in_progress => "in_progress"
  | TicketStatus.waiting_customer => "waiting_customer"
  | TicketStatus.resolved => "resolved"
  | _ => "closed"
  end.

Definition _lite_status_to_internal (t : Ticket.t) (lite_status : string) : result TicketStatus.t :=
  if bool_decide (lite_status = "new") then Ok TicketStatus.new
  else if bool_decide (lite_status = "pending_human") then
    Ok (if bool_decide (Ticket.status t ∈ [TicketStatus.new; TicketStatus.pending_assignment])
        then TicketStatus.pending_assignment else TicketStatus.waiting_internal)
  else if bool_decide (lite_status = "in_progress") then Ok TicketStatus.in_progress
  else if bool_decide (lite_status = "waiting_customer") then Ok TicketStatus.waiting_customer
  else if bool_decide (lite_status = "resolved") then Ok TicketStatus.resolved
  else if bool_decide (lite_status = "closed") then Ok TicketStatus.closed
  else Err (HTTPException 400 "Unsupported status").

(** [X(value.lower())], or a default when there is no text *)
Definition read_enum {E} `{StrEnum E} (v : option string) (otherwise : E) (detail : string)
    : result E :=
  if truthy_str v then
    match of_value (py_lower (str_or v EmptyString)) with
    | Some e => Ok e
    | None => Err (HTTPException 400 detail)
    end
  else Ok otherwise.
Definition _priority (v : option string) : result TicketPriority.t :=
  read_enum v TicketPriority.medium "Unsupported priority".
Definition _channel (v : option string) : result SourceChannel.t :=
  read_enum v SourceChannel.whatsapp "Unsupported channel".

(** [text.split(",")] *)
Fixpoint split_commas (word s : string) : list string :=
  match s with
  | EmptyString => [word]
  | String c s' => if code c =? 44 then word :: split_commas EmptyString s'
                   else split_commas (word +:+ String c EmptyString) s'
  end.

(** ** Commands *)

(** Text columns that get a value when the request has one that differs *)
Definition differing (fields : list (string * option string)) (t : Ticket.t)
    : list (string * string) :=
  omap (fun x => match snd x with
                 | Some v => if bool_decide (text t (fst x) = Some v) then None else Some (fst x, v)
                 | None => None
                 end) fields.
Definition write_texts (l : list (string * string)) (t : Ticket.t) : Ticket.t :=
  fold_left (fun t x => t <| Ticket.texts ::= <[fst x := snd x]> |>) l t.

(** The open tickets of the tenant of the caller *)
Definition is_open (t : Ticket.t) : bool :=
  negb (bool_decide (Ticket.status t ∈
    [TicketStatus.resolved; TicketStatus.closed; TicketStatus.canceled])).
(** [order_by(updated_at.desc()).first()] *)
Definition newest (l : list Ticket.t) : option Ticket.t :=
  head (sort_by (fun a b => Ticket.updated_at b <=? Ticket.updated_at a) l).

(** A customer with this phone or email *)
Definition contact_of (s : Db.t) (t : Ticket.t) (contact : option string) : bool :=
  match Ticket.customer_id t ≫= table_get (Db.customers s) with
  | Some c => bool_decide (Customer.phone c = contact) || bool_decide (Customer.email c = contact)
  | None => false
  end.

Definition _find_open_case (p : LiteCaseCreate.t) (user : User.t) : M Db.t (option Ticket.t) :=
  s ← get;
  tenant ← lift (resolve_actor_tenant_id (Db.dir s) user);
  let rows := select (fun t => bool_decide (Ticket.tenant_id t = tenant) && is_open t)
                (Db.tickets s) in
  let chat := LiteCaseCreate.source_chat_id p in
  let tracking := LiteCaseCreate.tracking_number p in
  let contact := LiteCaseCreate.customer_contact p in
  let by_chat := if truthy_str chat
    then newest (filter (fun t => text t "source_chat_id" = chat) rows) else None in
  let by_parcel := if truthy_str tracking && truthy_str contact
    then newest (filter (fun t => text t "tracking_number" = tracking ∧
                                  contact_of s t contact = true) rows) else None in
  mret (match by_chat with Some t => Some t | None => by_parcel end).

Section Lite.
Context (sha256_hex : string → string) (dumps : json → string) (loads : string → option json).
Context (message_updated_at : Z → option Z).
Context (loads_pairs : string → option json) (catalog_file : option string).

#[local] Abbreviation flushed := (Cases.flushed sha256_hex dumps loads_pairs catalog_file).

Definition upserted (p : LiteCaseCreate.t) (t : Ticket.t) : list (string * string) :=
  let summary := LiteCaseCreate.issue_summary p in
  differing
    [("last_customer_message", LiteCaseCreate.last_customer_message p);
     ("customer_request", Some (LiteCaseCreate.customer_request p));
     ("required_action", LiteCaseCreate.required_action p);
     ("missing_fields", LiteCaseCreate.missing_fields p);
     ("customer_update", LiteCaseCreate.customer_update p)] t ++
  (if nonempty summary && negb (bool_decide (text t "issue_summary" = Some summary))
   then [("issue_summary", summary); ("title", str_take 255 summary)] else []).

(** The arguments of the [TicketCreate] of a new case are read in their order; the last but one is
    [payload.market_id]. *)
Definition create_lite_case (p : LiteCaseCreate.t) (user : User.t) : M Case.t Ticket.t :=
  existing ← (if LiteCaseCreate.upsert_open_case p then on_db (_find_open_case p user) else mret None);
  match existing with
  | Some t =>
      let i := Ticket.id t in
      on_db (check (ensure_ticket_visible user t));;
      (match upserted p t with
       | [] => mret tt
       | l =>
           flushed i
             (now ← Models.utc_now;
              set_ticket i (fun t => write_texts l t <| Ticket.updated_at := now |>);;
              log_event (event i user EventType.field_updated
                  [("summary", JStr "Open case updated from new intake")]
                <| TicketEvent.note := Some "Case updated from intake" |>))
       end);;
      on_db (get_ticket_or_404 i)
  | None =>
      _ ← lift (_channel (LiteCaseCreate.channel p));
      _ ← lift (_priority (LiteCaseCreate.priority p));
      raise (AttributeError "market_id")
  end.

(** The request is not read beyond its attribute [market_id]. *)
Definition update_lite_case (i : Z) (user : User.t) : M Case.t Ticket.t :=
  _ ← on_db (visible_ticket i user);
  s ← get;
  _ ← lift (resolve_actor_tenant_id (Db.dir (Case.core s)) user);
  raise (AttributeError "market_id").

Definition assigned_name (assignee : option User.t) : string :=
  match assignee with Some u => User.display_name u | None => "unassigned" end.

Definition assign_lite_case (i : Z) (p : LiteAssignRequest.t) (user : User.t) : M Case.t Ticket.t :=
  on_db (check (ensure_can_assign user));;
  ticket ← on_db (visible_ticket i user);
  s ← get;
  actor_tenant_id ← lift (resolve_actor_tenant_id (Db.dir (Case.core s)) user);
  x ← lift (validate_assignee_team (Db.dir (Case.core s)) (LiteAssignRequest.assignee_id p)
              (LiteAssignRequest.team_id p) (Ticket.team_id ticket) actor_tenant_id);
  flushed i
    (now ← Models.utc_now;
     set_ticket i (fun t => assign_row (fst x) (snd x) t <| Ticket.updated_at := now |>);;
     log_event (event i user EventType.assigned
         [("summary", JStr ("Assigned to " +:+ assigned_name (fst x)))]
       <| TicketEvent.note := Some "Lite assignment updated" |>));;
  on_db (get_ticket_or_404 i).

Definition change_lite_status (i : Z) (status : string) (user : User.t) : M Case.t Ticket.t :=
  ticket ← on_db (visible_ticket i user);
  internal ← lift (_lite_status_to_internal ticket status);
  Closure.change_status sha256_hex dumps loads message_updated_at loads_pairs catalog_file i
    {| TicketStatusChangeRequest.new_status := internal; TicketStatusChangeRequest.note := None |} user.

(** *** The workflow update *)

(** [ticket.assignee_id] and [ticket.team_id] as the request sets them, and the status of a ticket
    that gets an assignee *)
Definition workflow_assigned (p : LiteWorkflowUpdateRequest.t) (assignee : option User.t)
    (team : option Team.t) (t : Ticket.t) : Ticket.t :=
  let t := match LiteWorkflowUpdateRequest.team_id p, team with
           | Some _, Some x => t <| Ticket.team_id := Some (Team.id x) |>
           | _, _ => t
           end in
  let t := match LiteWorkflowUpdateRequest.assignee_id p with
           | Some _ => t <| Ticket.assignee_id := User.id <$> assignee |>
           | None => t
           end in
  if bool_decide (Ticket.status t ∈ [TicketStatus.new; TicketStatus.pending_assignment]) &&
     truthy_id (Ticket.assignee_id t)
  then t <| Ticket.status := TicketStatus.in_progress |> else t.

Definition workflow_assign (i : Z) (ticket : Ticket.t) (p : LiteWorkflowUpdateRequest.t)
    (user : User.t) : M Case.t unit :=
  match LiteWorkflowUpdateRequest.assignee_id p, LiteWorkflowUpdateRequest.team_id p with
  | None, None => mret tt
  | a, tm =>
      on_db (check (ensure_can_assign user));;
      s ← get;
      actor_tenant_id ← lift (resolve_actor_tenant_id (Db.dir (Case.core s)) user);
      x ← lift (validate_assignee_team (Db.dir (Case.core s))
                  (default (Ticket.assignee_id ticket) a) (default (Ticket.team_id ticket) tm)
                  (Ticket.team_id ticket) actor_tenant_id);
      flushed i
        (set_ticket i (workflow_assigned p (fst x) (snd x));;
         log_event (event i user EventType.assigned
             [("summary", JStr ("Assigned to " +:+ assigned_name (fst x)))]
           <| TicketEvent.note := Some "Lite workflow assignment updated" |>))
  end.

Definition workflow_fields (i : Z) (p : LiteWorkflowUpdateRequest.t) (user : User.t)
    : M Case.t unit :=
  t ← on_db (the_ticket i);
  match differing
    [("required_action", LiteWorkflowUpdateRequest.required_action p);
     ("missing_fields", LiteWorkflowUpdateRequest.missing_fields p);
     ("customer_update", LiteWorkflowUpdateRequest.customer_update p);
     ("resolution_summary", LiteWorkflowUpdateRequest.resolution_summary p)] t with
  | [] => mret tt
  | l =>
      on_db (check (ensure_can_update_core_fields user));;
      flushed i
        (set_ticket i (write_texts l);;
         log_event (event i user EventType.field_updated
             [("fields", jstrs (fst <$> l)); ("summary", JStr "Workflow fields updated")]
           <| TicketEvent.note := Some "Lite workflow fields updated" |>))
  end.

Definition workflow_note (i : Z) (note : option string) (user : User.t) : M Case.t unit :=
  if truthy_str note then
    on_db (check (ensure_can_write_internal_note user));;
    flushed i
      (_ ← add_note_row (fun id =>
         {| TicketInternalNote.id := id; TicketInternalNote.ticket_id := i;
            TicketInternalNote.author_id := Some (User.id user);
            TicketInternalNote.body := str_or note EmptyString |});
       set_ticket i (assign_text "last_human_update" note);;
       log_event (event i user EventType.internal_note_added []
         <| TicketEvent.note := Some "Internal note added" |>))
  else mret tt.

(** The permission is checked without the database session. *)
Definition workflow_status (i : Z) (p : LiteWorkflowUpdateRequest.t) (user : User.t)
    : M Case.t unit :=
  match LiteWorkflowUpdateRequest.status p with
  | None => mret tt
  | Some lite =>
      t ← on_db (the_ticket i);
      internal ← lift (_lite_status_to_internal t lite);
      if bool_decide (internal = Ticket.status t) then mret tt
      else
        let note := LiteWorkflowUpdateRequest.human_note p in
        lift (ensure_can_change_status user t internal None);;
        lift (validate_transition (Ticket.status t) internal);;
        require (negb (requires_note internal && negb (truthy_str note)))
          (HTTPException 400 "This status change requires a note in workflow_update");;
        require (negb (bool_decide (internal = TicketStatus.closed) &&
                       bool_decide (Ticket.resolution_category t = ResolutionCategory.none)))
          (HTTPException 400 "Resolution category is required before closing a ticket");;
        flushed i
          (set_ticket i (fun t => t <| Ticket.status := internal |>);;
           stamp_status i internal;;
           update_pause_state_for_status i internal None;;
           evaluate_sla i;;
           log_event (status_event i user (Ticket.status t) internal note))
  end.

Definition workflow_update_lite_case (i : Z) (p : LiteWorkflowUpdateRequest.t) (user : User.t)
    : M Case.t Ticket.t :=
  ticket ← on_db (visible_ticket i user);
  require (negb (bool_decide (LiteWorkflowUpdateRequest.team_id p = Some None)))
    (HTTPException 400 "team_id cannot be null in workflow_update");;
  workflow_assign i ticket p user;;
  workflow_fields i p user;;
  workflow_note i (LiteWorkflowUpdateRequest.human_note p) user;;
  workflow_status i p user;;
  flushed i (now ← Models.utc_now; set_ticket i (fun t => t <| Ticket.updated_at := now |>));;
  on_db (the_ticket i).

(** *** Notes and intakes *)

Definition save_human_note_lite (i : Z) (note : string) (user : User.t) : M Case.t Ticket.t :=
  _ ← on_db (add_internal_note i note user);
  _ ← on_db (get_ticket_or_404 i);
  flushed i
    (now ← Models.utc_now;
     set_ticket i (fun t => assign_text "last_human_update" (Some note) t
                              <| Ticket.updated_at := now |>));;
  on_db (get_ticket_or_404 i).

Definition lite_intake (p : LiteAIIntakeRequest.t) : AIIntakeCreate.t :=
  {| AIIntakeCreate.summary := str_or (LiteAIIntakeRequest.ai_summary p) EmptyString;
     AIIntakeCreate.classification := LiteAIIntakeRequest.case_type p;
     AIIntakeCreate.confidence := None;
     AIIntakeCreate.missing_fields := filter (fun x => nonempty x = true)
       (py_strip <$> split_commas EmptyString
          (str_or (LiteAIIntakeRequest.missing_fields p) EmptyString));
     AIIntakeCreate.recommended_action := LiteAIIntakeRequest.suggested_required_action p;
     AIIntakeCreate.suggested_reply := None; AIIntakeCreate.raw_payload := None;
     AIIntakeCreate.human_override_reason := None; AIIntakeCreate.market_id := None;
     AIIntakeCreate.country_code := None |}.

(** [if value is not None: ticket.column = value] *)
Definition given_texts (fields : list (string * option string)) (t : Ticket.t) : Ticket.t :=
  write_texts (omap (fun x => v ← snd x; Some (fst x, v)) fields) t.

Definition lite_intake_texts (p : LiteAIIntakeRequest.t) : list (string * option string) :=
  let case_type := LiteAIIntakeRequest.case_type p in
  [("ai_summary", LiteAIIntakeRequest.ai_summary p); ("ai_classification", case_type);
   ("case_type", case_type); ("category", case_type);
   ("required_action", LiteAIIntakeRequest.suggested_required_action p);
   ("missing_fields", LiteAIIntakeRequest.missing_fields p);
   ("last_customer_message", LiteAIIntakeRequest.last_customer_message p)].

Definition save_ai_intake_lite (i : Z) (p : LiteAIIntakeRequest.t) (user : User.t)
    : M Case.t Ticket.t :=
  flushed i (add_ai_intake i (lite_intake p) user);;
  flushed i
    (now ← Models.utc_now;
     set_ticket i (fun t => given_texts (lite_intake_texts p) t <| Ticket.updated_at := now |>));;
  on_db (get_ticket_or_404 i).

(** The commands of the lite interface *)
Inductive lite_op :=
| LiteCreate (p : LiteCaseCreate.t)
| LiteUpdate (i : Z)
| LiteAssign (i : Z) (p : LiteAssignRequest.t)
| LiteStatus (i : Z) (status : string)
| LiteWorkflow (i : Z) (p : LiteWorkflowUpdateRequest.t)
| LiteNote (i : Z) (note : string)
| LiteIntake (i : Z) (p : LiteAIIntakeRequest.t).

Definition run_lite (o : lite_op) (user : User.t) : M Case.t Ticket.t :=
  match o with
  | LiteCreate p => create_lite_case p user
  | LiteUpdate i => update_lite_case i user
  | LiteAssign i p => assign_lite_case i p user
  | LiteStatus i st => change_lite_status i st user
  | LiteWorkflow i p => workflow_update_lite_case i p user
  | LiteNote i note => save_human_note_lite i note user
  | LiteIntake i p => save_ai_intake_lite i p user
  end.
End Lite.

(** ** No command of the lite interface opens or closes a ticket *)

(** Tickets as they were numbered, and only those of [X] closed *)
Definition closed_only (X : Z → Prop) (n : Z) (s : Db.t) : Prop :=
  tnext (Db.tickets s) = n ∧
  ∀ j t, ticket_at s j = Some t → Ticket.status t = TicketStatus.closed → X j.

(** An update that does not close a ticket *)
Definition quiet (f : Ticket.t → Ticket.t) : Prop :=
  ∀ t, Ticket.status (f t) = Ticket.status t ∨ Ticket.status (f t) ≠ TicketStatus.closed.

Section Quiet.
Context (X : Z → Prop) (n : Z).

Lemma lite_quiet_set i f : quiet f → preserves (closed_only X n) (set_ticket i f).
Proof.
  intros Hf s [Hn H]. rewrite set_ticket_run. cbn [snd]. split.
  - rewrite <- Hn. apply put_tables.
  - intros j t Ht Hc. rewrite put_at in Ht. destruct (ticket_at s j) as [t0|] eqn:E0; [|done].
    injection Ht as <-. eapply H; [exact E0|]. case_decide as E; [|exact Hc].
    destruct (Hf t0) as [Hs|Hs]; congruence.
Qed.

Lemma lite_quiet_now : preserves (closed_only X n) Models.utc_now.
Proof. by intros s. Qed.
Lemma lite_quiet_event e : preserves (closed_only X n) (log_event e).
Proof. by intros s. Qed.
Lemma quiet_the i : preserves (closed_only X n) (the_ticket i).
Proof. intros s. unfold the_ticket. by destruct (ticket_at s i). Qed.
Lemma quiet_note mk : preserves (closed_only X n) (add_note_row mk).
Proof. by intros s. Qed.
Lemma quiet_intake mk : preserves (closed_only X n) (add_ai_intake_row mk).
Proof. by intros s. Qed.
End Quiet.
#[export] Hint Resolve lite_quiet_now lite_quiet_event quiet_the quiet_note quiet_intake : nexus.

Lemma quiet_check X n f : preserves (closed_only X n) (check f).
Proof. unfold check. preserve. Qed.
#[export] Hint Resolve quiet_check : nexus.
Lemma quiet_visible X n i u : preserves (closed_only X n) (visible_ticket i u).
Proof. unfold visible_ticket, get_ticket_or_404. preserve. Qed.
#[export] Hint Resolve quiet_visible : nexus.

Lemma write_texts_status l t : Ticket.status (write_texts l t) = Ticket.status t.
Proof. unfold write_texts. revert t. induction l as [|x l IH]; intros t; [done|]. cbn. by rewrite IH. Qed.

Lemma quiet_same f : (∀ t, Ticket.status (f t) = Ticket.status t) → quiet f.
Proof. intros H t. by left. Qed.

Lemma quiet_assign_row a tm : quiet (assign_row a tm).
Proof.
  intros t. unfold assign_row. cbv zeta. destruct (_ && _); [by right|by left].
Qed.
Lemma quiet_workflow p a tm : quiet (workflow_assigned p a tm).
Proof.
  intros t. unfold workflow_assigned. cbv zeta.
  destruct (LiteWorkflowUpdateRequest.assignee_id p), (LiteWorkflowUpdateRequest.team_id p), tm;
    (destruct (_ && _); [by right|by left]).
Qed.

(** A check of the permission without a session never passes. *)
Lemma sessionless user t st : ∃ e, ensure_can_change_status user t st None = Err e.
Proof.
  unfold ensure_can_change_status.
  destruct (ensure_capability user CAP_TICKET_STATUS_CHANGE None "Permission denied") as [[]|e]; [|eauto].
  unfold ensure_ticket_visible.
  destruct (ensure_capability user CAP_TICKET_READ None not_visible) as [[]|e]; by eexists.
Qed.

Section Commands.
Context (sha256_hex : string → string) (dumps : json → string) (loads : string → option json).
Context (message_updated_at : Z → option Z).
Context (loads_pairs : string → option json) (catalog_file : option string).
Context (X : Z → Prop) (n : Z).

#[local] Abbreviation unclosed := (fun s : Case.t => closed_only X n (Case.core s)).

Lemma un_on_db {A} (m : M Db.t A) : preserves (closed_only X n) m → preserves unclosed (on_db m).
Proof. intros H s Hs. cbv beta. rewrite (proj2 (on_db_run m s)). by apply H. Qed.

Lemma un_desk {A} (m : M Desk.t A) :
  (∀ d, Desk.work (snd (m d)) = Desk.work d) → preserves unclosed (on_desk m).
Proof.
  intros Hm s H. unfold on_desk, Case.core in *. specialize (Hm (Case.desk s)).
  destruct (m _) as [r d]. cbn in *. by rewrite Hm.
Qed.
Lemma un_now : preserves unclosed utc_now.
Proof. apply un_on_db, lite_quiet_now. Qed.
Lemma un_add_assignment i mk : preserves unclosed (Cases.add_assignment i mk).
Proof. unfold Cases.add_assignment. preserve. by apply un_desk. Qed.
Lemma un_gate t : preserves unclosed
  (require_governed_closure_ready sha256_hex dumps loads message_updated_at t).
Proof.
  unfold require_governed_closure_ready, build_governed_closure_snapshot, build_closure_snapshot.
  preserve; apply un_now.
Qed.
#[local] Hint Resolve un_now un_add_assignment : nexus.
Lemma un_catalog : preserves unclosed (load_runtime_scenario_catalog sha256_hex loads_pairs catalog_file).
Proof. unfold load_runtime_scenario_catalog. preserve. Qed.
#[local] Hint Resolve un_catalog : nexus.
Lemma un_updated b a : preserves unclosed
  (ticket_updated sha256_hex dumps loads_pairs catalog_file b a).
Proof.
  unfold ticket_updated, _guard_scenario_identity_update, _insert_automatic_assignment,
    resolve_candidate_scenario, scenario_in_force. preserve. apply un_on_db, quiet_the.
Qed.
Lemma un_flushed {A} i (m : M Db.t A) : preserves (closed_only X n) m →
  preserves unclosed (flushed sha256_hex dumps loads_pairs catalog_file i m).
Proof.
  intros Hm. unfold flushed.
  preserve; first [apply un_updated | apply un_on_db; first [apply quiet_the | exact Hm]].
Qed.

Ltac quiet_tac := unfold get_ticket_or_404, add_ai_intake, add_internal_note; preserve;
  try (apply lite_quiet_set; first [ apply quiet_same; intros; first [done | exact (write_texts_status _ _)]
                              | apply quiet_assign_row | apply quiet_workflow ]).

Lemma un_create p u : preserves unclosed (create_lite_case sha256_hex dumps loads_pairs catalog_file p u).
Proof.
  unfold create_lite_case, _find_open_case. preserve; try (apply un_flushed); try (apply un_on_db); quiet_tac.
Qed.

Ltac un_tac := preserve; try apply un_flushed; try apply un_on_db; quiet_tac.

Lemma un_assign i p u : preserves unclosed
  (assign_lite_case sha256_hex dumps loads_pairs catalog_file i p u).
Proof. unfold assign_lite_case. un_tac. Qed.
Lemma un_note i note u : preserves unclosed
  (save_human_note_lite sha256_hex dumps loads_pairs catalog_file i note u).
Proof. unfold save_human_note_lite. un_tac. Qed.
Lemma un_intake i p u : preserves unclosed
  (save_ai_intake_lite sha256_hex dumps loads_pairs catalog_file i p u).
Proof. unfold save_ai_intake_lite. un_tac. Qed.

Lemma un_workflow_status i p u : preserves unclosed
  (workflow_status sha256_hex dumps loads_pairs catalog_file i p u).
Proof.
  unfold workflow_status. destruct (LiteWorkflowUpdateRequest.status p); [|apply preserves_ret].
  apply preserves_bind; [apply un_on_db, quiet_the|intros t].
  apply preserves_bind; [apply preserves_lift|intros st].
  destruct (bool_decide _); [apply preserves_ret|]. destruct (sessionless u t st) as [e E].
  intros s0 H. by rewrite E.
Qed.

Lemma un_workflow i p u : preserves unclosed
  (workflow_update_lite_case sha256_hex dumps loads_pairs catalog_file i p u).
Proof.
  unfold workflow_update_lite_case, workflow_assign, workflow_fields, workflow_note.
  preserve; try apply un_workflow_status; try apply un_flushed; try apply un_on_db; quiet_tac.
Qed.

(** A core status change that returns: it had the note it needs, and its ticket is not closed unless
    that is its status. *)
Lemma un_core_status i p u s r s' : sla_wf s → TicketStatusChangeRequest.new_status p ≠ TicketStatus.closed →
  Tickets.change_status i p u s = (Ok r, s') → closed_only X n s → closed_only X n s'.
Proof.
  intros W Hst H [Hn Hx]. destruct (change_status_run i p u s r s' W H)
    as (t & now & s1 & Ht & _ & [_ F] & Hr & -> & _). cbv zeta in *.
  set (st := TicketStatusChangeRequest.new_status p) in *.
  split; [change (tnext (Db.tickets s1) = n); rewrite (fr_next _ _ _ F), <- Hn; apply put_tables|].
  intros j x Hj Hc. change (ticket_at s1 j = Some x) in Hj. destruct (decide (j = i)) as [->|Hne].
  - pose proof (fr_core _ _ _ F) as E. rewrite Hj, put_at, decide_True, Ht in E by done.
    pose proof (f_equal (fmap (M := option) Ticket.status) E) as E1.
    change (Some (Ticket.status x) = Some (Ticket.status (moved st now t))) in E1.
    injection E1 as E1. clearbody st. by destruct st; rewrite Hc in E1.
  - rewrite (fr_other _ _ _ F j Hne), put_at, decide_False in Hj by done.
    apply (Hx j x); [|done]. by destruct (ticket_at s j).
Qed.

(** A status change of the lite interface has no note. *)
Lemma un_status i st u s r s' : sla_wf (Case.core s) →
  change_lite_status sha256_hex dumps loads message_updated_at loads_pairs catalog_file i st u s =
    (Ok r, s') → unclosed s → unclosed s'.
Proof.
  unfold change_lite_status. intros W H Hs. minv H. unfold lift in Hm0. injection Hm0 as _ <-.
  apply on_db_Ok in Hm as (Hv & _ & _). apply visible_ticket_Ok in Hv as (Ecore & Ht & _).
  unfold Closure.change_status in H. minv H. apply closing_receipt_Ok in Hm.
  cbn [TicketStatusChangeRequest.new_status] in Hm.
  apply flushed_Ok in Hm0 as (before & after & sc & _ & Hc & _ & Hu). apply on_db_Ok in Hc as (Hc & _ & _).
  destruct a1 as [receipt|].
  - destruct Hm as [-> _]. apply change_status_guards in Hc as (t & _ & (_ & _ & _ & Hnote & _) & _).
    by specialize (Hnote eq_refl).
  - destruct Hm as [Hne ->]. minv H. rewrite Ecore in Hc.
    eapply un_core_status in Hs; [|exact W| |exact Hc]; [|exact Hne].
    pose proof (un_updated before after sc Hs) as Hs'. by rewrite Hu in Hs'.
Qed.
End Commands.


Definition resolve_lite : lite_op := LiteNote 2 "called back".
